(* ===== verification/_CoqProject ===== *)
-Q . S2P
Prelude.v
Types.v
Spinlock.v
Cprintf.v
Print.v
Float32.v
Proc.v
Sched.v
SleepWakeup.v
Sem.v
Phil.v
Prime.v
Trace.v
Str.v
Sleeplock.v
Ring.v
Bio.v
Cache.v
Bytes.v
Disk.v
Log.v
Crash.v
LogWrite.v
Fs.v
FsIo.v
Path.v
Tx.v
FileData.v
ICache.v
Kalloc.v
Pipe.v
File.v
Vm.v
PageTable.v
FreeVm.v
CopyUvm.v
Process.v
Args.v
Sysfile.v
Exec.v
PrintProcs.v
Console.v
Kbd.v
Edit.v
Syscall.v
Trap.v
Machine.v
Ide.v
Bootmain.v
Boot.v
UserStack.v
Inv.v
InvFs.v
InvMem.v
InvConsole.v
InvProc.v
InvSched.v
InvSys.v
BootOk.v
UserLib.v
Grep.v
Sh.v
UserProgs.v
Umalloc.v
Mkfs.v
MkfsImage.v
