(* ===== verification/Prelude.v ===== *)
(** * xv6 kernel and user programs: a verification development

    The program is the teaching operating system xv6 for x86 (src/xv6), with
    the additions of an operating-systems course: three scheduling queues with
    ageing, semaphores, a trace of system calls, a history and editing keys in
    the console, and some system calls of their own.  The C code is translated
    by hand into Rocq definitions that keep the names of the functions, and
    theorems are proved about them.

    ** How the code is modelled

    Integers are [Z], wrapped where the C type wraps ([u8], [u16], [u32],
    [s32]).  A struct is a record with an update notation
    [r <| field := v |>]; a pointer to an element of a table is the index of
    the element; memory is a function from addresses to bytes ([mem], Str.v).
    The global variables of the kernel are the fields of the record [kernel]
    (Types.v), those of the machine the fields of [mach] (Machine.v).

    A routine is a computation [M S A] of this file.  It runs in a state and an
    environment: the list of the state transformers by which the rest of the
    system changes the state while the routine is off the CPU ([sleep],
    [yield], [sched]).  It returns, panics, stays parked, or is undefined
    ([Undef]: a null pointer, an index out of range, or too little fuel).
    Locks are taken and released for real, and the code of a critical section
    is not interrupted; where the interleaving itself is the question, the
    protocol is a step relation between any number of processes or CPUs
    (Spinlock.v [SMP], SleepWakeup.v, Sem.v, Phil.v, Ide.v, LogWrite.v).

    Parameters stand for what is not C code of the repository: the linker's
    symbols and the images of the assembly files ([Image], [BootImage]), the
    devices ([Board] in Machine.v, the drive registers in Ide.v), the device
    table ([Devsw], instantiated by the console), the system calls as user
    programs see them (UserLib.v), [sbrk] (Umalloc.v), what a [void] handler
    leaves in eax (Syscall.v).

    ** Files

    Prelude.v: records, integers, the computations and their tactics.
    Types.v: param.h, proc.h, mmu.h, memlayout.h, buf.h, file.h; the state.

    Locks and processes.  Spinlock.v (spinlock.c), Sleeplock.v (sleeplock.c),
    Proc.v (sched, yield, sleep, wakeup, kill and the parameters of the
    scheduler, proc.c), SleepWakeup.v (sleep and wakeup interleaved), Sched.v
    (fix_queues, round_robin, lottery, bjf, scheduler; Float32.v has the float
    arithmetic), Sem.v (sem_init, sem_acquire, sem_release), Process.v
    (allocproc, userinit, growproc, fork, exit, wait), Trace.v
    (push_pid_in_stack, get_callers), Prime.v (find_largest_prime_factor),
    PrintProcs.v (print_all_procs, procdump).

    Disk and file system, from the bottom up.  Ide.v (ide.c), Bio.v (bio.c and
    memide.c; Ring.v has the doubly linked ring), Cache.v and Disk.v (the cache
    as its clients see it), Log.v (log.c), Crash.v, LogWrite.v, Fs.v and FsIo.v
    (fs.c; Bytes.v has the casts of blocks to structs), Path.v, Tx.v,
    FileData.v, ICache.v, File.v (file.c), Pipe.v (pipe.c), Sysfile.v
    (sysfile.c).

    Memory.  Kalloc.v (kalloc.c), Vm.v (vm.c), PageTable.v (page tables as a
    finite map), FreeVm.v (setupkvm, freevm), CopyUvm.v (copyuvm), Exec.v
    (exec.c), UserStack.v, Str.v (string.c).

    Console and traps.  Cprintf.v and Print.v (output: console.c, uart.c; the
    second has its specification), Console.v
    (input: console.c, prefix_predict.c), Edit.v, Kbd.v (kbd.c), Args.v and
    Syscall.v (syscall.c, sysproc.c), Trap.v (trap.c).

    Machine and start.  Machine.v (lapic.c, ioapic.c, picirq.c, mp.c, uartinit,
    tvinit, idtinit, seginit), Bootmain.v (bootmain.c), Boot.v (main.c),
    BootOk.v.

    The Makefile links the kernel with ide.o, or with memide.o for a disk in
    memory.  The kernel from bread to trap is modelled with memide.c; ide.c has
    its own model in Ide.v, which is shown to do what the cache relies on; and
    [main] of Boot.v is that of either kernel, with [ideinit] of ide.c where
    that is linked.

    Inv.v, InvFs.v, InvMem.v, InvConsole.v, InvProc.v, InvSched.v, InvSys.v: an
    invariant of the whole kernel, shown to be kept by every routine from the
    console to trap, file by file.

    User programs.  UserLib.v (ulib.c, printf.c), Umalloc.v (umalloc.c), Sh.v
    (sh.c), Grep.v (grep.c), Phil.v (phillsofs.c), UserProgs.v (cat, wc, echo,
    ls, rm, mkdir, ln, kill, prime_numbers, init).  Mkfs.v and MkfsImage.v
    (mkfs.c) are about the program that builds the disk image.

    ** What the theorems show

    The system.  [kernel_starts]: [main] reaches the scheduler in a state that
    satisfies the invariant of the system, with the first process, the other
    processors and the interrupts in place.  [trap_family], [trap_returns]:
    system calls, interrupts, faults and the scheduler keep that invariant
    (every process has a living parent), and a killed process never gets back
    to user mode.  [bootmain_loads_kernel], [mpinit_finds_cpus],
    [interrupts_reach_trap]: the way from the boot loader to [trap].

    Files.  [commit_crash_atomic]: a commit that is cut off after any of its
    disk writes and followed by recovery is done or not done.
    [file_write_read]: files are byte sequences.  [mkfs_image],
    [mkfs_kernel_reads]: the image is the file system that the kernel reads.
    [bget_least_recently_used], [brelse_moves_to_front], [iget_one_entry],
    [log_space_reserved], [skipelem_elements]: the layers below.
    [ide_first_come_first_served], [ide_meets_contract]: the driver ide.c serves
    its queue in order and does what the cache expects of a driver.

    Memory.  [page_allocator_list], [mappages_extends], [copyuvm_isolates],
    [exec_stack_layout], [arguments_checked]; [allocator_correct] for malloc and
    free.

    Processes.  [spinlock_mutual_exclusion], [sleep_atomic_handover],
    [no_lost_wakeup], [queue1_bounded_waiting], [sem_accounting]
    (for any use of a semaphore, processes that are killed included) and
    [sem_code_steps] (its steps are those of the code),
    [philosophers_finish], [pipe_fifo].

    Text.  [cprintf_prints_format], [console_edits_line], [shell_parses],
    [match_meaning] (grep), [largest_prime_factor_correct].

    Defects.  Some theorems state what the code does where it is not what it
    means to do: [log_space_one_short], [sem_barging],
    [history_overruns_buffer], [mpinit_unknown_entry].

    ** Bounds and fuel

    Structural loops need no fuel.  The others get a bound that is shown, or
    plainly seen, to be enough: a wait for another process is repeated at most
    once per slice of the environment ([S (length e)]); [readi] and [writei]
    make a pass per block ([io_fuel]) and directory searches one per entry
    ([dir_fuel]); [namex] one per byte of the path; the shell's parser
    [4 * length + 4], by which [shell_parses] is total; [strip] and [wheel] of
    Prime.v [n] passes.  For a wait for a device, for [mpinit]'s table and for
    programs that read to the end of their input, the fuel is an argument, and
    the theorems say how much is enough.  For [malloc] and [free] more than
    [2 * n + 3] is enough after [n] calls, as the list of free blocks is no
    longer than that.

    ** Not modelled

    - The assembly files (bootasm.S, entry.S, entryother.S, initcode.S,
      swtch.S, trapasm.S, usys.S): the C code sees their effect only, which is
      in the model as the change of the running process, the trap frame and
      the parameters named above.
    - The order in which several CPUs' memory accesses become visible, and
      caches: memory is sequentially consistent.  The routines of the kernel
      are those of one CPU; other CPUs act in the slices of the environment
      and in the step relations.
    - The kernel stack of a process but for its trap frame and context; time
      but for [ticks]; [microdelay], which does nothing in the source as well.
    - [getcallerpcs] (a back trace for debugging), and [ideinit] of memide.c,
      which measures the disk image that the linker places.
    - What another processor does from entryother.S to its first [scheduler]
      ([mpenter]): it starts or it does not, and sets its [started].
    - Floating point is evaluated in the declared types (binary32 and binary64
      after every operation), as compilers for SSE do.
    - The test programs (usertests.c and others), which are sequences of system
      calls, and src/linux_kernel_mod, which is not part of xv6. *)

From stdpp Require Export base list numbers strings sets gmap.
From Stdlib Require Export ZArith Lia.
Open Scope Z_scope.

(** ** Record update

    C code assigns one field of a struct at a time.  [r <| f := v |>] is the
    record [r] with field [f] set to [v]; a record type has one [Setter]
    instance per field, built by [mk_setter] from the eta-expansion of the
    record. *)

Class Setter {R T : Type} (proj : R -> T) := set : T -> R -> R.
Arguments set {R T} proj {_} _ _ : simpl never.

Ltac mk_setter eta :=
  match goal with
  | |- @Setter ?R ?T ?proj =>
      let f := constr:(fun (v : T) (r : R) =>
        ltac:(let b := eval cbv beta delta [eta] in (eta r) in
              let b' := eval pattern (proj r) in b in
              match b' with
              | ?g _ => let g' := eval cbv beta in (g v) in exact g'
              end)) in
      exact f
  end.

Declare Scope record_scope.
Open Scope record_scope.
#[warning="-postfix-notation-not-level-1"]
Notation "r <| p := v |>" := (set p v r)
  (at level 12, left associativity, p at level 0,
   format "r <| p  :=  v |>") : record_scope.

(** [rsimpl] computes the projections of updated records: reading the field
    that was set gives the new value, reading any other field skips the
    update. *)
Ltac rsimpl_goal :=
  repeat match goal with
  | |- context [@set ?R ?T ?q ?i ?v (@set ?R ?T ?q ?i ?w ?r)] =>
      change (@set R T q i v (@set R T q i w r)) with (@set R T q i v r)
  | |- context [?p (@set ?R ?T ?q ?i ?v ?r)] =>
      let _ := constr:(ltac:(typeclasses eauto) : Setter p) in
      first [ change (p (@set R T q i v r)) with v
            | change (p (@set R T q i v r)) with (p r) ]
  end.

Ltac rsimpl_hyp H :=
  repeat match type of H with
  | context [@set ?R ?T ?q ?i ?v (@set ?R ?T ?q ?i ?w ?r)] =>
      change (@set R T q i v (@set R T q i w r)) with (@set R T q i v r) in H
  | context [?p (@set ?R ?T ?q ?i ?v ?r)] =>
      let _ := constr:(ltac:(typeclasses eauto) : Setter p) in
      first [ change (p (@set R T q i v r)) with v in H
            | change (p (@set R T q i v r)) with (p r) in H ]
  end.

Ltac rsimpl_all :=
  rsimpl_goal;
  repeat match goal with
  | H : context [?p (@set _ _ _ _ _ _)] |- _ =>
      let _ := constr:(ltac:(typeclasses eauto) : Setter p) in
      progress rsimpl_hyp H
  end.

Tactic Notation "rsimpl" := rsimpl_goal.
Tactic Notation "rsimpl" "in" hyp(H) := rsimpl_hyp H.
Tactic Notation "rsimpl" "in" "*" := rsimpl_all.

(** ** Machine integers

    C integers are [Z] values kept at their width: [u32], [u16], [u8] reduce
    modulo the width (unsigned), [s32] and [s8] are the two's complement
    readings.  Signed arithmetic is written with its wrap-around; a theorem
    that needs the absence of overflow says so with bounds. *)

Definition u32 (z : Z) : Z := z mod 2 ^ 32.
Definition u16 (z : Z) : Z := z mod 2 ^ 16.
Definition u8 (z : Z) : Z := z mod 2 ^ 8.
Definition s32 (z : Z) : Z := (z + 2 ^ 31) mod 2 ^ 32 - 2 ^ 31.
Definition s16 (z : Z) : Z := (z + 2 ^ 15) mod 2 ^ 16 - 2 ^ 15.
Definition s8 (z : Z) : Z := (z + 2 ^ 7) mod 2 ^ 8 - 2 ^ 7.

Lemma u32_range z : 0 <= u32 z < 2 ^ 32.
Proof. unfold u32. apply Z.mod_pos_bound. lia. Qed.

Lemma u8_range z : 0 <= u8 z < 256.
Proof. unfold u8. apply Z.mod_pos_bound. lia. Qed.

Lemma s32_range z : - 2 ^ 31 <= s32 z < 2 ^ 31.
Proof.
  unfold s32. pose proof (Z.mod_pos_bound (z + 2 ^ 31) (2 ^ 32)). lia.
Qed.

Lemma u32_small z : 0 <= z < 2 ^ 32 -> u32 z = z.
Proof. apply Z.mod_small. Qed.

Lemma u8_small z : 0 <= z < 256 -> u8 z = z.
Proof. apply Z.mod_small. Qed.

Lemma s32_small z : - 2 ^ 31 <= z < 2 ^ 31 -> s32 z = z.
Proof. intros. unfold s32. rewrite Z.mod_small; lia. Qed.

Lemma u32_u32 z : u32 (u32 z) = u32 z.
Proof. apply u32_small, u32_range. Qed.

Lemma u32_s32 z : u32 (s32 z) = u32 z.
Proof.
  unfold u32, s32. rewrite Zminus_mod_idemp_l. f_equal. lia.
Qed.

Lemma s32_u32 z : s32 (u32 z) = s32 z.
Proof. unfold u32, s32. by rewrite Zplus_mod_idemp_l. Qed.

Lemma u32_add_l a b : u32 (u32 a + b) = u32 (a + b).
Proof. unfold u32. by rewrite Zplus_mod_idemp_l. Qed.

Lemma u32_sub_l a b : u32 (u32 a - b) = u32 (a - b).
Proof. unfold u32. by rewrite Zminus_mod_idemp_l. Qed.

Lemma u32_sub_r a b : u32 (a - u32 b) = u32 (a - b).
Proof. unfold u32. by rewrite Zminus_mod_idemp_r. Qed.

(** [zcases] splits on every integer comparison of the goal and leaves the
    cases that arithmetic does not exclude. *)
Ltac zcases :=
  repeat match goal with
  | |- context [?a <=? ?b] => destruct (Z.leb_spec a b)
  | |- context [?a <? ?b] => destruct (Z.ltb_spec a b)
  | |- context [?a =? ?b] => destruct (Z.eqb_spec a b)
  end; simpl; try lia.

(** A decidable property of all bytes, by evaluation. *)
Lemma forall_byte (P : Z -> bool) :
  forallb (fun n => P (Z.of_nat n)) (seq 0 256) = true ->
  forall b, 0 <= b < 256 -> P b = true.
Proof.
  intros H b Hb. rewrite forallb_forall in H. rewrite <-(Z2Nat.id b) by lia.
  apply H, in_seq. lia.
Qed.

Create HintDb xv6.
#[export] Hint Resolve u32_range u8_range s32_range : xv6.

(** ** Kernel computations

    A kernel routine runs in a state [S] and an environment: the list of what
    the rest of the system does, one state transformer per time slice, at the
    points where the routine gives up the CPU.  Its outcome is
    - [Ret a s e]: it returned [a] in state [s], the slices [e] are left;
    - [Panic msg s]: it called [panic(msg)];
    - [Parked s]: it gave up the CPU and the given slices never resume it;
    - [Undef why]: it has no defined behaviour (null or out-of-bounds access). *)

Inductive outcome (S A : Type) : Type :=
| Ret (a : A) (s : S) (e : list (S -> S))
| Panic (msg : string) (s : S)
| Parked (s : S)
| Undef (why : string).
Arguments Ret {S A} _ _ _.
Arguments Panic {S A} _ _.
Arguments Parked {S A} _.
Arguments Undef {S A} _.

Definition M (S A : Type) : Type := S -> list (S -> S) -> outcome S A.

Section Monad.
  Context {S : Type}.

#[global] Instance M_ret : MRet (M S) := fun _ a s e => Ret a s e.

#[global] Instance M_bind : MBind (M S) := fun _ _ f m s e =>
  match m s e with
  | Ret a s' e' => f a s' e'
  | Panic msg s' => Panic msg s'
  | Parked s' => Parked s'
  | Undef w => Undef w
  end.

Definition gets {A} (f : S -> A) : M S A := fun s e => Ret (f s) s e.
Definition modify (f : S -> S) : M S unit := fun s e => Ret tt (f s) e.
Definition panic {A} (msg : string) : M S A := fun s _ => Panic msg s.
Definition park {A} : M S A := fun s _ => Parked s.
Definition undef {A} (why : string) : M S A := fun _ _ => Undef why.

(** A value that the code dereferences without a check. *)
Definition deref {A} (why : string) (o : option A) : M S A :=
  match o with Some a => mret a | None => undef why end.

(** [for_loop l body] runs [body] on the elements of [l] in order; a body
    that returns [Some r] leaves the loop with [r] (C's [break], [goto] or
    [return]), one that returns [None] goes on. *)
Fixpoint for_loop {A R} (l : list A) (body : A -> M S (option R))
    : M S (option R) :=
  match l with
  | [] => mret None
  | x :: l' =>
      r ← body x;
      match r with
      | Some v => mret (Some v)
      | None => for_loop l' body
      end
  end.

(** A loop whose body never leaves it. *)
Fixpoint for_each {A} (l : list A) (body : A -> M S unit) : M S unit :=
  match l with
  | [] => mret tt
  | x :: l' => body x ;; for_each l' body
  end.

(** A loop that threads its local variables [acc]. *)
Fixpoint for_acc {A B} (l : list A) (acc : B) (body : A -> B -> M S B) : M S B :=
  match l with
  | [] => mret acc
  | x :: l' => acc' ← body x acc; for_acc l' acc' body
  end.

Lemma mret_run {A} (a : A) (s : S) e : (mret a : M S A) s e = Ret a s e.
Proof. done. Qed.

Lemma bind_Ret {A B} (m : M S A) (f : A -> M S B) s e a s' e' :
  m s e = Ret a s' e' -> (m ≫= f) s e = f a s' e'.
Proof. unfold mbind, M_bind. by intros ->. Qed.

Lemma bind_Panic {A B} (m : M S A) (f : A -> M S B) s e msg s' :
  m s e = Panic msg s' -> (m ≫= f) s e = Panic msg s'.
Proof. unfold mbind, M_bind. by intros ->. Qed.

Lemma bind_Parked {A B} (m : M S A) (f : A -> M S B) s e s' :
  m s e = Parked s' -> (m ≫= f) s e = Parked s'.
Proof. unfold mbind, M_bind. by intros ->. Qed.

Lemma bind_Undef {A B} (m : M S A) (f : A -> M S B) s e w :
  m s e = Undef w -> (m ≫= f) s e = Undef w.
Proof. unfold mbind, M_bind. by intros ->. Qed.

Lemma bind_assoc {A B C} (m : M S A) (f : A -> M S B) (g : B -> M S C) s e :
  ((m ≫= f) ≫= g) s e = (m ≫= (fun a => f a ≫= g)) s e.
Proof. unfold mbind, M_bind. by destruct (m s e). Qed.

Lemma for_loop_app {A R} (l1 l2 : list A) (body : A -> M S (option R)) s e :
  for_loop (l1 ++ l2) body s e =
  (r ← for_loop l1 body;
   match r with Some v => mret (Some v) | None => for_loop l2 body end) s e.
Proof.
  revert s e. induction l1 as [|x l1 IH]; intros s e; [done|]. simpl.
  unfold mbind, M_bind in *. destruct (body x s e) as [[r|] ? ?| | |]; done.
Qed.

Lemma for_each_app {A} (l1 l2 : list A) (body : A -> M S unit) s e :
  for_each (l1 ++ l2) body s e = (for_each l1 body ;; for_each l2 body) s e.
Proof.
  revert s e. induction l1 as [|x l1 IH]; intros s e; [done|]. simpl.
  unfold mbind, M_bind in *. destruct (body x s e); done.
Qed.

(** A loop whose every pass returns and transforms the state by [f] folds
    [f] over the list. *)
Lemma for_each_pure {A} (l : list A) (body : A -> M S unit)
    (f : A -> S -> S) s e :
  (forall x s e, x ∈ l -> body x s e = Ret tt (f x s) e) ->
  for_each l body s e = Ret tt (fold_left (fun s x => f x s) l s) e.
Proof.
  revert s. induction l as [|x l IH]; intros s H; [done|]. simpl.
  erewrite bind_Ret by (apply H; set_solver).
  apply IH. intros. apply H. set_solver.
Qed.

(** A loop over consecutive indices with an invariant. *)
Lemma for_seq_inv (body : nat -> M S unit) (I : nat -> S -> Prop) e m : forall n s,
  I n s ->
  (forall t s, (n <= t < n + m)%nat -> I t s -> exists s', body t s e = Ret tt s' e /\ I (Datatypes.S t) s') ->
  exists s', for_each (seq n m) body s e = Ret tt s' e /\ I (n + m)%nat s'.
Proof.
  induction m as [|m IH]; intros n s Hs Hb.
  - exists s. by rewrite Nat.add_0_r.
  - destruct (Hb n s) as (s1 & Hr & H1); [lia|done|].
    destruct (IH (Datatypes.S n) s1) as (s2 & Hr2 & H2); [done| |].
    + intros t s' Ht. apply Hb. lia.
    + exists s2. split; [|by replace (n + Datatypes.S m)%nat with (Datatypes.S n + m)%nat by lia].
      simpl. by rewrite (bind_Ret _ _ _ _ _ _ _ Hr).
Qed.

End Monad.

(** [mrun] executes the next statements of a routine whose outcome is known:
    returns, reads, writes, and any call for which the context or the hint
    database has an equation. *)
Create HintDb run.

Ltac mstep :=
  first
  [ rewrite mret_run
  | match goal with
    | |- context [(?m ≫= ?f) ?s ?e] =>
        first
        [ erewrite (bind_Ret m f s e) by (first [reflexivity | eassumption | eauto with run])
        | erewrite (bind_Panic m f s e) by (first [reflexivity | eassumption])
        | erewrite (bind_Undef m f s e) by (first [reflexivity | eassumption])
        | rewrite (bind_assoc _ _ _ s e) ]
    end ].
Ltac mrun := repeat (mstep; cbv beta match).

(** The loop over consecutive indices in the goal, with invariant [I]. *)
Tactic Notation "for_inv" constr(I) "as" simple_intropattern(pat) :=
  match goal with
  | |- context [for_each (seq ?n ?m) ?body ?s ?e] => destruct (for_seq_inv body I e m n s) as pat
  | |- context [(for_each (seq ?n ?m) ?body ≫= _) ?s ?e] => destruct (for_seq_inv body I e m n s) as pat
  end.

(** [mcall L] executes the next call by the equation [L]; the hypotheses of
    [L] come first, then the rest of the routine. *)
Tactic Notation "mcall" uconstr(L) :=
  erewrite bind_Ret; cycle 1; [eapply L|cbv beta match].

(** ** Strings

    A C string is the list of its bytes, without the terminating NUL. *)

Definition byte_of (c : Ascii.ascii) : Z := Z.of_N (Ascii.N_of_ascii c).

Fixpoint bytes (s : string) : list Z :=
  match s with
  | EmptyString => []
  | String c s' => byte_of c :: bytes s'
  end.

Definition NL : Z := 10.

(** ** Lists as C arrays *)

(** The elements of a range [lo, lo + n) of indices, in order: the values a
    counting [for] loop takes. *)
Abbreviation range := (fun n : nat => seq 0 n).

Lemma filter_remove_fresh {A} `{EqDecision A} (x : A) (l : list A) :
  x ∉ l -> filter (fun y => y <> x) l = l.
Proof.
  induction l as [|y l IH]; intros Hx; [done|].
  apply not_elem_of_cons in Hx as [? ?]. rewrite filter_cons_True by done.
  by rewrite IH.
Qed.

Lemma length_filter_remove {A} `{EqDecision A} (x : A) (l : list A) :
  NoDup l -> x ∈ l -> length (filter (fun y => y <> x) l) = (length l - 1)%nat.
Proof.
  induction 1 as [|y l Hy Hd IH]; intros Hin; [by apply elem_of_nil in Hin|].
  destruct (decide (y = x)) as [->|Hne].
  - rewrite filter_cons_False by tauto. rewrite filter_remove_fresh by done.
    simpl. lia.
  - rewrite filter_cons_True by done. apply elem_of_cons in Hin as [->|Hin]; [done|].
    simpl. rewrite IH by done. destruct l; [by apply elem_of_nil in Hin|simpl; lia].
Qed.

Lemma list_alter_lookup {A} (f : A -> A) (l : list A) i x :
  l !! i = Some x -> alter f i l = <[i := f x]> l.
Proof.
  intros Hx. apply list_eq. intros j. rewrite list_lookup_insert.
  destruct (decide (i = j)) as [->|Hne].
  - rewrite list_lookup_alter_eq, Hx. rewrite decide_True; [done|].
    split; [done|]. by eapply lookup_lt_Some.
  - rewrite list_lookup_alter_ne by done. rewrite decide_False by tauto. done.
Qed.

Lemma Forall_insert {A} (P : A -> Prop) (l : list A) i x :
  Forall P l -> P x -> Forall P (<[i := x]> l).
Proof.
  intros Hl Hx. apply Forall_lookup. intros j y Hj.
  rewrite list_lookup_insert in Hj. case_decide; simplify_eq/=.
  - done.
  - by eapply Forall_lookup in Hl.
Qed.

Lemma list_alter_alter {A} (f g : A -> A) (l : list A) i :
  alter f i (alter g i l) = alter (fun x => f (g x)) i l.
Proof. revert i. induction l as [|x l IH]; intros [|i]; simpl; f_equal; done || apply IH. Qed.

(** ** Functions updated at one argument *)

Definition zupd {A} (f : Z -> A) (x : Z) (v : A) : Z -> A := fun y => if y =? x then v else f y.

Lemma zupd_eq {A} (f : Z -> A) x v : zupd f x v x = v.
Proof. unfold zupd. by rewrite Z.eqb_refl. Qed.
Lemma zupd_ne {A} (f : Z -> A) x v y : y <> x -> zupd f x v y = f y.
Proof. intros Hne. unfold zupd. by replace (y =? x) with false by (symmetry; by apply Z.eqb_neq). Qed.

(** ** Strings in arrays *)

(** The string in an array: its bytes before the first NUL. *)
Fixpoint cstring (l : list Z) : list Z :=
  match l with
  | [] => []
  | c :: l => if c =? 0 then [] else c :: cstring l
  end.

(** The position of the first NUL of a list of characters. *)
Fixpoint nul_at (l : list Z) : option nat :=
  match l with
  | [] => None
  | c :: l => if c =? 0 then Some 0%nat else S <$> nul_at l
  end.

Lemma nul_at_string l s :
  (fun n => take n l) <$> nul_at l = Some s <->
  Forall (fun c => c <> 0) s /\ take (S (length s)) l = s ++ [0].
Proof.
  revert s. induction l as [|c l IH]; intros s; cbn [nul_at].
  { split; [done|]. intros [_ H]. by destruct s. }
  destruct (Z.eqb_spec c 0) as [->|Hc].
  - cbn. split; [intros [= <-]; by split|]. intros [Hs H]. destruct s as [|d s]; [done|].
    injection H as <- _. by inversion Hs.
  - destruct s as [|d s].
    + split; [by destruct (nul_at l)|]. intros [_ H]. injection H as ->. done.
    + specialize (IH s). change (take (S (length (d :: s))) (c :: l)) with (c :: take (S (length s)) l).
      rewrite Forall_cons. destruct (nul_at l) as [n|]; cbn in *.
      * split.
        -- intros [= <- E]. destruct (proj1 IH) as [H1 H2]; [by rewrite E|]. split; [done|]. by rewrite H2.
        -- intros [[_ H1] [= -> H2]]. pose proof (proj2 IH (conj H1 H2)) as [= ->]. done.
      * split; [done|]. intros [[_ H1] [= _ H2]]. by pose proof (proj2 IH (conj H1 H2)).
Qed.
