(* ===== verification/Types.v ===== *)
(** The data of the kernel: the constants of [param.h], the structs of
    [proc.h], [x86.h], [buf.h], [file.h], [log.c], [pipe.c] and [proc.c], and
    the record [kernel] of the global variables they live in. *)

From Stdlib Require Import SpecFloat.
From S2P Require Import Prelude.

(** ** Constants of param.h *)

Definition NPROC : nat := 64.
Definition KSTACKSIZE : Z := 4096.
Definition NOFILE : nat := 16.
Definition NFILE : nat := 100.
Definition NINODE : nat := 50.
Definition NDEV : Z := 10.
Definition ROOTDEV : Z := 1.
Definition MAXARG : nat := 32.
Definition MAXOPBLOCKS : Z := 10.
Definition LOGSIZE : Z := MAXOPBLOCKS * 3.
Definition NBUF : nat := 30.
Definition FSSIZE : Z := 1000.

(** ** Constants of mmu.h and memlayout.h *)

Definition PGSIZE : Z := 4096.
Definition EXTMEM : Z := 0x100000.
Definition PHYSTOP : Z := 0xE000000.
Definition DEVSPACE : Z := 0xFE000000.
Definition KERNBASE : Z := 0x80000000.
Definition KERNLINK : Z := KERNBASE + EXTMEM.
Definition V2P (a : Z) : Z := u32 (a - KERNBASE).
Definition P2V (a : Z) : Z := u32 (a + KERNBASE).
Definition PGROUNDUP (sz : Z) : Z := Z.land (u32 (sz + PGSIZE - 1)) (Z.lnot (PGSIZE - 1)).
Definition PGROUNDDOWN (a : Z) : Z := Z.land a (Z.lnot (PGSIZE - 1)).

(** ** Constants of fcntl.h and fs.h *)

Definition O_RDONLY : Z := 0.
Definition O_WRONLY : Z := 1.
Definition O_RDWR : Z := 2.
Definition O_CREATE : Z := 0x200.
Definition DIRSIZ : nat := 14.

(** ** Names of locks and of sleep channels

    The address of each spin lock and of each object a process sleeps on.  A
    constructor stands for the address of one global or of one field of an
    indexed struct, so two different names are two different addresses. *)

Inductive lockid : Type :=
| L_ptable
| L_ticks
| L_sem (i : nat)
| L_kmem
| L_bcache
| L_icache
| L_ftable
| L_log
| L_cons
| L_ide
| L_pipe (p : Z)
| L_bufsl (b : nat)
| L_inodesl (i : nat).

#[export] Instance lockid_eq_dec : EqDecision lockid.
Proof. solve_decision. Defined.

Inductive chan : Type :=
| Ch_proc (i : nat)
| Ch_pid (i : nat)
| Ch_ticks
| Ch_nread (p : Z)
| Ch_nwrite (p : Z)
| Ch_bufsl (b : nat)
| Ch_inodesl (i : nat)
| Ch_log
| Ch_buf (b : nat)
| Ch_input_r.

#[export] Instance chan_eq_dec : EqDecision chan.
Proof. solve_decision. Defined.

(** ** Per-CPU state

    The part of [struct cpu] that the running CPU uses: the process it runs,
    the nesting depth of [pushcli], whether interrupts were on before the
    first [pushcli] and whether they are on now ([FL_IF]), the spin locks
    whose [locked] flag is set with this CPU as holder, the page table
    register and the kernel stack of the task state segment. *)

Record cpu : Type := mkcpu {
  c_proc : option nat;
  c_ncli : Z;
  c_intena : bool;
  c_if : bool;
  c_held : list lockid;
  c_cr3 : Z;
  c_esp0 : Z
}.
Definition cpu_eta (r : cpu) :=
  mkcpu (c_proc r) (c_ncli r) (c_intena r) (c_if r) (c_held r) (c_cr3 r) (c_esp0 r).
#[export] Instance set_c_proc : Setter c_proc := ltac:(mk_setter cpu_eta).
#[export] Instance set_c_ncli : Setter c_ncli := ltac:(mk_setter cpu_eta).
#[export] Instance set_c_intena : Setter c_intena := ltac:(mk_setter cpu_eta).
#[export] Instance set_c_if : Setter c_if := ltac:(mk_setter cpu_eta).
#[export] Instance set_c_held : Setter c_held := ltac:(mk_setter cpu_eta).
#[export] Instance set_c_cr3 : Setter c_cr3 := ltac:(mk_setter cpu_eta).
#[export] Instance set_c_esp0 : Setter c_esp0 := ltac:(mk_setter cpu_eta).

(** ** Processes *)

Inductive procstate : Type :=
| UNUSED | EMBRYO | SLEEPING | RUNNABLE | RUNNING | ZOMBIE.

#[export] Instance procstate_eq_dec : EqDecision procstate.
Proof. solve_decision. Defined.

Record trapframe : Type := mktf {
  tf_edi : Z; tf_esi : Z; tf_ebp : Z; tf_oesp : Z; tf_ebx : Z; tf_edx : Z;
  tf_ecx : Z; tf_eax : Z; tf_gs : Z; tf_fs : Z; tf_es : Z; tf_ds : Z;
  tf_trapno : Z; tf_err : Z; tf_eip : Z; tf_cs : Z; tf_eflags : Z;
  tf_esp : Z; tf_ss : Z
}.
Definition tf_eta (r : trapframe) :=
  mktf (tf_edi r) (tf_esi r) (tf_ebp r) (tf_oesp r) (tf_ebx r) (tf_edx r)
       (tf_ecx r) (tf_eax r) (tf_gs r) (tf_fs r) (tf_es r) (tf_ds r)
       (tf_trapno r) (tf_err r) (tf_eip r) (tf_cs r) (tf_eflags r)
       (tf_esp r) (tf_ss r).
#[export] Instance set_tf_eax : Setter tf_eax := ltac:(mk_setter tf_eta).
#[export] Instance set_tf_trapno : Setter tf_trapno := ltac:(mk_setter tf_eta).
#[export] Instance set_tf_cs : Setter tf_cs := ltac:(mk_setter tf_eta).
#[export] Instance set_tf_ds : Setter tf_ds := ltac:(mk_setter tf_eta).
#[export] Instance set_tf_es : Setter tf_es := ltac:(mk_setter tf_eta).
#[export] Instance set_tf_ss : Setter tf_ss := ltac:(mk_setter tf_eta).
#[export] Instance set_tf_eflags : Setter tf_eflags := ltac:(mk_setter tf_eta).
#[export] Instance set_tf_esp : Setter tf_esp := ltac:(mk_setter tf_eta).
#[export] Instance set_tf_eip : Setter tf_eip := ltac:(mk_setter tf_eta).
Definition zero_tf : trapframe := mktf 0 0 0 0 0 0 0 0 0 0 0 0 0 0 0 0 0 0 0.

Record context : Type := mkctx {
  ctx_edi : Z; ctx_esi : Z; ctx_ebx : Z; ctx_ebp : Z; ctx_eip : Z
}.
Definition ctx_eta (r : context) :=
  mkctx (ctx_edi r) (ctx_esi r) (ctx_ebx r) (ctx_ebp r) (ctx_eip r).
#[export] Instance set_ctx_eip : Setter ctx_eip := ltac:(mk_setter ctx_eta).
Definition zero_ctx : context := mkctx 0 0 0 0 0.

(** [struct proc].  Pointers to processes, files and inodes are indices into
    their tables ([None] is the null pointer).  The trap frame and the saved
    context live on the process's own kernel stack; they are fields here. *)
Record proc : Type := mkproc {
  p_sz : Z;
  p_pgdir : Z;
  p_kstack : Z;
  p_state : procstate;
  p_pid : Z;
  p_parent : option nat;
  p_tf : trapframe;
  p_context : context;
  p_chan : option chan;
  p_killed : Z;
  p_ofile : list (option nat);
  p_cwd : option nat;
  p_name : list Z;
  p_queue : Z;
  p_entered_queue : Z;
  p_tickets : Z;
  p_priority_ratio : Z;
  p_arrival_time_ratio : Z;
  p_executed_cycle_ratio : Z;
  p_executed_cycle : spec_float;
  p_priority : Z
}.
Definition proc_eta (r : proc) :=
  mkproc (p_sz r) (p_pgdir r) (p_kstack r) (p_state r) (p_pid r) (p_parent r)
    (p_tf r) (p_context r) (p_chan r) (p_killed r) (p_ofile r) (p_cwd r)
    (p_name r) (p_queue r) (p_entered_queue r) (p_tickets r)
    (p_priority_ratio r) (p_arrival_time_ratio r) (p_executed_cycle_ratio r)
    (p_executed_cycle r) (p_priority r).
#[export] Instance set_p_sz : Setter p_sz := ltac:(mk_setter proc_eta).
#[export] Instance set_p_pgdir : Setter p_pgdir := ltac:(mk_setter proc_eta).
#[export] Instance set_p_kstack : Setter p_kstack := ltac:(mk_setter proc_eta).
#[export] Instance set_p_state : Setter p_state := ltac:(mk_setter proc_eta).
#[export] Instance set_p_pid : Setter p_pid := ltac:(mk_setter proc_eta).
#[export] Instance set_p_parent : Setter p_parent := ltac:(mk_setter proc_eta).
#[export] Instance set_p_tf : Setter p_tf := ltac:(mk_setter proc_eta).
#[export] Instance set_p_context : Setter p_context := ltac:(mk_setter proc_eta).
#[export] Instance set_p_chan : Setter p_chan := ltac:(mk_setter proc_eta).
#[export] Instance set_p_killed : Setter p_killed := ltac:(mk_setter proc_eta).
#[export] Instance set_p_ofile : Setter p_ofile := ltac:(mk_setter proc_eta).
#[export] Instance set_p_cwd : Setter p_cwd := ltac:(mk_setter proc_eta).
#[export] Instance set_p_name : Setter p_name := ltac:(mk_setter proc_eta).
#[export] Instance set_p_queue : Setter p_queue := ltac:(mk_setter proc_eta).
#[export] Instance set_p_entered_queue : Setter p_entered_queue := ltac:(mk_setter proc_eta).
#[export] Instance set_p_tickets : Setter p_tickets := ltac:(mk_setter proc_eta).
#[export] Instance set_p_priority_ratio : Setter p_priority_ratio := ltac:(mk_setter proc_eta).
#[export] Instance set_p_arrival_time_ratio : Setter p_arrival_time_ratio := ltac:(mk_setter proc_eta).
#[export] Instance set_p_executed_cycle_ratio : Setter p_executed_cycle_ratio := ltac:(mk_setter proc_eta).
#[export] Instance set_p_executed_cycle : Setter p_executed_cycle := ltac:(mk_setter proc_eta).
#[export] Instance set_p_priority : Setter p_priority := ltac:(mk_setter proc_eta).

(** The process slot as the zero-initialised [ptable] holds it. *)
Definition zero_proc : proc :=
  mkproc 0 0 0 UNUSED 0 None zero_tf zero_ctx None 0 (replicate NOFILE None)
    None (replicate 16 0) 0 0 0 0 0 0 (S754_zero false) 0.

(** ** Semaphores and the system-call trace (proc.c) *)

Record semaphore : Type := mksem {
  sem_value : Z;
  sem_front : Z;
  sem_size : Z;
  sem_queue : list (option nat)
}.
Definition sem_eta (r : semaphore) :=
  mksem (sem_value r) (sem_front r) (sem_size r) (sem_queue r).
#[export] Instance set_sem_value : Setter sem_value := ltac:(mk_setter sem_eta).
#[export] Instance set_sem_front : Setter sem_front := ltac:(mk_setter sem_eta).
#[export] Instance set_sem_size : Setter sem_size := ltac:(mk_setter sem_eta).
#[export] Instance set_sem_queue : Setter sem_queue := ltac:(mk_setter sem_eta).

(** [syscalls_pid_stack], [syscalls_order_pid_stack], [pid_num_of_calls]. *)
Record trace : Type := mktrace {
  tr_pids : list (list Z);
  tr_orders : list (list Z);
  tr_calls : list Z
}.
Definition trace_eta (r : trace) :=
  mktrace (tr_pids r) (tr_orders r) (tr_calls r).
#[export] Instance set_tr_pids : Setter tr_pids := ltac:(mk_setter trace_eta).
#[export] Instance set_tr_orders : Setter tr_orders := ltac:(mk_setter trace_eta).
#[export] Instance set_tr_calls : Setter tr_calls := ltac:(mk_setter trace_eta).

(** ** Console (console.c, uart.c, prefix_predict.c)

    The output devices: whether the serial port is present and what was sent
    to it, and the CGA text memory with the hardware cursor. *)

Record console : Type := mkcons {
  cons_locking : bool;
  cons_panicked : bool;
  cons_uart : bool;
  cons_serial : list Z;
  cons_crt : list Z;
  cons_pos : Z
}.
Definition cons_eta (r : console) :=
  mkcons (cons_locking r) (cons_panicked r) (cons_uart r) (cons_serial r) (cons_crt r)
    (cons_pos r).
#[export] Instance set_cons_locking : Setter cons_locking := ltac:(mk_setter cons_eta).
#[export] Instance set_cons_panicked : Setter cons_panicked := ltac:(mk_setter cons_eta).
#[export] Instance set_cons_uart : Setter cons_uart := ltac:(mk_setter cons_eta).
#[export] Instance set_cons_serial : Setter cons_serial := ltac:(mk_setter cons_eta).
#[export] Instance set_cons_crt : Setter cons_crt := ltac:(mk_setter cons_eta).
#[export] Instance set_cons_pos : Setter cons_pos := ltac:(mk_setter cons_eta).

(** ** Memory allocator (kalloc.c) *)

Record kmem : Type := mkkmem { km_use_lock : bool; km_freelist : Z }.
Definition kmem_eta (r : kmem) := mkkmem (km_use_lock r) (km_freelist r).
#[export] Instance set_km_use_lock : Setter km_use_lock := ltac:(mk_setter kmem_eta).
#[export] Instance set_km_freelist : Setter km_freelist := ltac:(mk_setter kmem_eta).

(** ** Pipes (pipe.c) *)

Record pipe : Type := mkpipe {
  pi_data : list Z;
  pi_nread : Z;
  pi_nwrite : Z;
  pi_readopen : Z;
  pi_writeopen : Z
}.
Definition pipe_eta (r : pipe) :=
  mkpipe (pi_data r) (pi_nread r) (pi_nwrite r) (pi_readopen r)
    (pi_writeopen r).
#[export] Instance set_pi_data : Setter pi_data := ltac:(mk_setter pipe_eta).
#[export] Instance set_pi_nread : Setter pi_nread := ltac:(mk_setter pipe_eta).
#[export] Instance set_pi_nwrite : Setter pi_nwrite := ltac:(mk_setter pipe_eta).
#[export] Instance set_pi_readopen : Setter pi_readopen := ltac:(mk_setter pipe_eta).
#[export] Instance set_pi_writeopen : Setter pi_writeopen := ltac:(mk_setter pipe_eta).

(** ** Disk, buffer cache and log (buf.h, fs.h, bio.c, log.c)

    A block is the list of its [BSIZE] bytes. *)

Definition BSIZE : nat := 512.
Definition block : Type := list Z.

(** [struct sleeplock]; its spin lock is named by [lockid]. *)
Record sleeplock : Type := mksl {
  sl_locked : Z;
  sl_pid : Z
}.
Definition sl_eta (r : sleeplock) :=
  mksl (sl_locked r) (sl_pid r).
#[export] Instance set_sl_locked : Setter sl_locked := ltac:(mk_setter sl_eta).
#[export] Instance set_sl_pid : Setter sl_pid := ltac:(mk_setter sl_eta).

(** [struct buf]; the links are indices into the table of buffers. *)
Record buf : Type := mkbuf {
  b_flags : Z;
  b_dev : Z;
  b_blockno : Z;
  b_lock : sleeplock;
  b_refcnt : Z;
  b_prev : nat;
  b_next : nat;
  b_data : block
}.
Definition buf_eta (r : buf) :=
  mkbuf (b_flags r) (b_dev r) (b_blockno r) (b_lock r) (b_refcnt r) (b_prev r) (b_next r)
    (b_data r).
#[export] Instance set_b_flags : Setter b_flags := ltac:(mk_setter buf_eta).
#[export] Instance set_b_dev : Setter b_dev := ltac:(mk_setter buf_eta).
#[export] Instance set_b_blockno : Setter b_blockno := ltac:(mk_setter buf_eta).
#[export] Instance set_b_lock : Setter b_lock := ltac:(mk_setter buf_eta).
#[export] Instance set_b_refcnt : Setter b_refcnt := ltac:(mk_setter buf_eta).
#[export] Instance set_b_prev : Setter b_prev := ltac:(mk_setter buf_eta).
#[export] Instance set_b_next : Setter b_next := ltac:(mk_setter buf_eta).
#[export] Instance set_b_data : Setter b_data := ltac:(mk_setter buf_eta).

Definition zero_buf : buf := mkbuf 0 0 0 (mksl 0 0) 0 0 0 (replicate BSIZE 0).

(** [bcache.head] is kept behind the buffers, at this index. *)
Definition HEAD : nat := NBUF.

(** [struct superblock] *)
Record superblock : Type := mksb {
  sb_size : Z;
  sb_nblocks : Z;
  sb_ninodes : Z;
  sb_nlog : Z;
  sb_logstart : Z;
  sb_inodestart : Z;
  sb_bmapstart : Z
}.
Definition sb_eta (r : superblock) :=
  mksb (sb_size r) (sb_nblocks r) (sb_ninodes r) (sb_nlog r) (sb_logstart r) (sb_inodestart
    r) (sb_bmapstart r).
#[export] Instance set_sb_size : Setter sb_size := ltac:(mk_setter sb_eta).
#[export] Instance set_sb_nblocks : Setter sb_nblocks := ltac:(mk_setter sb_eta).
#[export] Instance set_sb_ninodes : Setter sb_ninodes := ltac:(mk_setter sb_eta).
#[export] Instance set_sb_nlog : Setter sb_nlog := ltac:(mk_setter sb_eta).
#[export] Instance set_sb_logstart : Setter sb_logstart := ltac:(mk_setter sb_eta).
#[export] Instance set_sb_inodestart : Setter sb_inodestart := ltac:(mk_setter sb_eta).
#[export] Instance set_sb_bmapstart : Setter sb_bmapstart := ltac:(mk_setter sb_eta).

(** [struct log], with the fields of its [struct logheader]. *)
Record log : Type := mklog {
  l_start : Z;
  l_size : Z;
  l_outstanding : Z;
  l_committing : Z;
  l_dev : Z;
  l_n : Z;
  l_block : list Z
}.
Definition log_eta (r : log) :=
  mklog (l_start r) (l_size r) (l_outstanding r) (l_committing r) (l_dev r) (l_n r) (l_block
    r).
#[export] Instance set_l_start : Setter l_start := ltac:(mk_setter log_eta).
#[export] Instance set_l_size : Setter l_size := ltac:(mk_setter log_eta).
#[export] Instance set_l_outstanding : Setter l_outstanding := ltac:(mk_setter log_eta).
#[export] Instance set_l_committing : Setter l_committing := ltac:(mk_setter log_eta).
#[export] Instance set_l_dev : Setter l_dev := ltac:(mk_setter log_eta).
#[export] Instance set_l_n : Setter l_n := ltac:(mk_setter log_eta).
#[export] Instance set_l_block : Setter l_block := ltac:(mk_setter log_eta).

(** [struct inode] *)
Record inode : Type := mkinode {
  i_dev : Z;
  i_inum : Z;
  i_ref : Z;
  i_lock : sleeplock;
  i_valid : Z;
  i_type : Z;
  i_major : Z;
  i_minor : Z;
  i_nlink : Z;
  i_size : Z;
  i_addrs : list Z
}.
Definition inode_eta (r : inode) :=
  mkinode (i_dev r) (i_inum r) (i_ref r) (i_lock r) (i_valid r) (i_type r) (i_major r)
    (i_minor r) (i_nlink r) (i_size r) (i_addrs r).
#[export] Instance set_i_dev : Setter i_dev := ltac:(mk_setter inode_eta).
#[export] Instance set_i_inum : Setter i_inum := ltac:(mk_setter inode_eta).
#[export] Instance set_i_ref : Setter i_ref := ltac:(mk_setter inode_eta).
#[export] Instance set_i_lock : Setter i_lock := ltac:(mk_setter inode_eta).
#[export] Instance set_i_valid : Setter i_valid := ltac:(mk_setter inode_eta).
#[export] Instance set_i_type : Setter i_type := ltac:(mk_setter inode_eta).
#[export] Instance set_i_major : Setter i_major := ltac:(mk_setter inode_eta).
#[export] Instance set_i_minor : Setter i_minor := ltac:(mk_setter inode_eta).
#[export] Instance set_i_nlink : Setter i_nlink := ltac:(mk_setter inode_eta).
#[export] Instance set_i_size : Setter i_size := ltac:(mk_setter inode_eta).
#[export] Instance set_i_addrs : Setter i_addrs := ltac:(mk_setter inode_eta).

Definition NDIRECT : nat := 12.
Definition zero_inode : inode := mkinode 0 0 0 (mksl 0 0) 0 0 0 0 0 0 (replicate (NDIRECT + 1) 0).

Inductive fdtype : Type := FD_NONE | FD_PIPE | FD_INODE.
#[export] Instance fdtype_eq_dec : EqDecision fdtype.
Proof. solve_decision. Defined.

(** [struct file] *)
Record file : Type := mkfile {
  f_type : fdtype;
  f_ref : Z;
  f_readable : Z;
  f_writable : Z;
  f_pipe : option Z;
  f_ip : option nat;
  f_off : Z
}.
Definition file_eta (r : file) :=
  mkfile (f_type r) (f_ref r) (f_readable r) (f_writable r) (f_pipe r) (f_ip r) (f_off r).
#[export] Instance set_f_type : Setter f_type := ltac:(mk_setter file_eta).
#[export] Instance set_f_ref : Setter f_ref := ltac:(mk_setter file_eta).
#[export] Instance set_f_readable : Setter f_readable := ltac:(mk_setter file_eta).
#[export] Instance set_f_writable : Setter f_writable := ltac:(mk_setter file_eta).
#[export] Instance set_f_pipe : Setter f_pipe := ltac:(mk_setter file_eta).
#[export] Instance set_f_ip : Setter f_ip := ltac:(mk_setter file_eta).
#[export] Instance set_f_off : Setter f_off := ltac:(mk_setter file_eta).

Definition zero_file : file := mkfile FD_NONE 0 0 0 None None 0.

(** [input] of console.c, the history of prefix_predict.c, and the variable
    [shift] of [kbdgetc]. *)
Record input : Type := mkinput {
  in_buf : list Z;
  in_r : Z;
  in_w : Z;
  in_e : Z;
  in_end : Z;
  in_commands : list (list Z);
  in_command_num : Z;
  in_size_command : Z;
  in_shift : Z
}.
Definition input_eta (r : input) :=
  mkinput (in_buf r) (in_r r) (in_w r) (in_e r) (in_end r) (in_commands r) (in_command_num
    r) (in_size_command r) (in_shift r).
#[export] Instance set_in_shift : Setter in_shift := ltac:(mk_setter input_eta).
#[export] Instance set_in_buf : Setter in_buf := ltac:(mk_setter input_eta).
#[export] Instance set_in_r : Setter in_r := ltac:(mk_setter input_eta).
#[export] Instance set_in_w : Setter in_w := ltac:(mk_setter input_eta).
#[export] Instance set_in_e : Setter in_e := ltac:(mk_setter input_eta).
#[export] Instance set_in_end : Setter in_end := ltac:(mk_setter input_eta).
#[export] Instance set_in_commands : Setter in_commands := ltac:(mk_setter input_eta).
#[export] Instance set_in_command_num : Setter in_command_num := ltac:(mk_setter input_eta).
#[export] Instance set_in_size_command : Setter in_size_command := ltac:(mk_setter input_eta).

Definition zero_input : input :=
  mkinput (replicate 128 0) 0 0 0 0 (replicate 30 (replicate 128 0)) 0 0 0.

(** ** The kernel's global variables *)

(** The disk is the list of its blocks; [k_writes] is the sequence of block
    writes it has received, from which the states a crash can leave are read
    off.  [k_first] is the static variable of [forkret]. *)
Record kernel : Type := mkkernel {
  k_cpu : cpu;
  k_procs : list proc;
  k_nextpid : Z;
  k_initproc : option nat;
  k_ticks : Z;
  k_sems : list semaphore;
  k_trace : trace;
  k_cons : console;
  k_input : input;
  k_kmem : kmem;
  k_mem : Z -> Z;
  k_kpgdir : Z;
  k_pipes : gmap Z pipe;
  k_disk : list block;
  k_writes : list (Z * block);
  k_bufs : list buf;
  k_log : log;
  k_sb : superblock;
  k_inodes : list inode;
  k_files : list file;
  k_first : bool
}.
Definition kernel_eta (r : kernel) :=
  mkkernel (k_cpu r) (k_procs r) (k_nextpid r) (k_initproc r) (k_ticks r) (k_sems r)
    (k_trace r) (k_cons r) (k_input r) (k_kmem r) (k_mem r) (k_kpgdir r) (k_pipes r) (k_disk
    r) (k_writes r) (k_bufs r) (k_log r) (k_sb r) (k_inodes r) (k_files r) (k_first r).
#[export] Instance set_k_cpu : Setter k_cpu := ltac:(mk_setter kernel_eta).
#[export] Instance set_k_procs : Setter k_procs := ltac:(mk_setter kernel_eta).
#[export] Instance set_k_nextpid : Setter k_nextpid := ltac:(mk_setter kernel_eta).
#[export] Instance set_k_initproc : Setter k_initproc := ltac:(mk_setter kernel_eta).
#[export] Instance set_k_ticks : Setter k_ticks := ltac:(mk_setter kernel_eta).
#[export] Instance set_k_sems : Setter k_sems := ltac:(mk_setter kernel_eta).
#[export] Instance set_k_trace : Setter k_trace := ltac:(mk_setter kernel_eta).
#[export] Instance set_k_cons : Setter k_cons := ltac:(mk_setter kernel_eta).
#[export] Instance set_k_input : Setter k_input := ltac:(mk_setter kernel_eta).
#[export] Instance set_k_kmem : Setter k_kmem := ltac:(mk_setter kernel_eta).
#[export] Instance set_k_mem : Setter k_mem := ltac:(mk_setter kernel_eta).
#[export] Instance set_k_kpgdir : Setter k_kpgdir := ltac:(mk_setter kernel_eta).
#[export] Instance set_k_pipes : Setter k_pipes := ltac:(mk_setter kernel_eta).
#[export] Instance set_k_disk : Setter k_disk := ltac:(mk_setter kernel_eta).
#[export] Instance set_k_writes : Setter k_writes := ltac:(mk_setter kernel_eta).
#[export] Instance set_k_bufs : Setter k_bufs := ltac:(mk_setter kernel_eta).
#[export] Instance set_k_log : Setter k_log := ltac:(mk_setter kernel_eta).
#[export] Instance set_k_sb : Setter k_sb := ltac:(mk_setter kernel_eta).
#[export] Instance set_k_inodes : Setter k_inodes := ltac:(mk_setter kernel_eta).
#[export] Instance set_k_files : Setter k_files := ltac:(mk_setter kernel_eta).
#[export] Instance set_k_first : Setter k_first := ltac:(mk_setter kernel_eta).

(** Kernel routines, and the time slices the rest of the system gets while a
    routine is off the CPU. *)
Abbreviation K := (M kernel).
Abbreviation env := (list (kernel -> kernel)).

(** The state after the boot loader cleared the data segment: all tables
    zero, on a CPU with interrupts off. *)
Definition zero_sem : semaphore := mksem 0 0 0 (replicate NPROC None).
Definition zero_trace : trace :=
  mktrace (replicate 50 (replicate 1000 0)) (replicate 50 (replicate 1000 0))
    (replicate 1000 0).
Definition boot_kernel : kernel :=
  mkkernel (mkcpu None 0 false false [] 0 0) (replicate NPROC zero_proc) 1 None 0
    (replicate 5 zero_sem) zero_trace (mkcons false false true [] (replicate 2000 0) 0)
    zero_input (mkkmem false 0) (fun _ => 0) 0 ∅ [] [] (replicate (NBUF + 1) zero_buf)
    (mklog 0 0 0 0 0 0 (replicate (Z.to_nat LOGSIZE) 0)) (mksb 0 0 0 0 0 0 0)
    (replicate NINODE zero_inode) (replicate NFILE zero_file) true.

(** The same with the large tables of the trace, the screen, the console
    input and the buffers left out: the base of the instances that evaluate
    routines which use none of them. *)
Definition bare_kernel : kernel :=
  boot_kernel <| k_trace := mktrace [] [] [] |> <| k_cons := mkcons false false true [] [] 0 |>
    <| k_input := mkinput [] 0 0 0 0 [] 0 0 0 |> <| k_bufs := [] |>.

(** ** Access to the process table *)

(** [ptable.proc[i]], where the code has the pointer [&ptable.proc[i]]. *)
Definition get_proc (i : nat) : K proc :=
  k ← gets (fun k : kernel => k_procs k !! i); deref "bad proc pointer" k.

Definition upd_proc (i : nat) (f : proc -> proc) : K unit :=
  modify (fun k => k <| k_procs := alter f i (k_procs k) |>).
