(* ===== verification/Spinlock.v ===== *)
(** Spin locks (spinlock.c).

    Two views of the same code.  The first is the one a kernel routine has of
    its own CPU: [pushcli]/[popcli] nesting, the interrupt flag, and the locks
    this CPU holds; it is the one every other component calls.  The second,
    [SMP], runs [acquire] and [release] of one lock on any number of CPUs,
    instruction by instruction, and shows the mutual exclusion that lets a
    component treat the time between [acquire] and [release] as its own. *)

From S2P Require Import Prelude Types.

(** ** The view from one CPU *)

Definition pushcli : K unit :=
  eflags ← gets (fun k => c_if (k_cpu k));
  modify (fun k => k <| k_cpu := k_cpu k <| c_if := false |> |>) ;;
  n ← gets (fun k => c_ncli (k_cpu k));
  (if n =? 0
   then modify (fun k => k <| k_cpu := k_cpu k <| c_intena := eflags |> |>)
   else mret tt) ;;
  modify (fun k => k <| k_cpu := k_cpu k <| c_ncli := c_ncli (k_cpu k) + 1 |> |>).

Definition popcli : K unit :=
  ifl ← gets (fun k => c_if (k_cpu k));
  if ifl : bool then panic "popcli - interruptible" else
  modify (fun k => k <| k_cpu := k_cpu k <| c_ncli := c_ncli (k_cpu k) - 1 |> |>) ;;
  n ← gets (fun k => c_ncli (k_cpu k));
  if n <? 0 then panic "popcli" else
  ena ← gets (fun k => c_intena (k_cpu k));
  if (n =? 0) && ena
  then modify (fun k => k <| k_cpu := k_cpu k <| c_if := true |> |>)
  else mret tt.

Definition holding (lk : lockid) : K bool :=
  pushcli ;;
  r ← gets (fun k => bool_decide (lk ∈ c_held (k_cpu k)));
  popcli ;;
  mret r.

(** The [while(xchg(&lk->locked, 1) != 0)] loop is left with the lock. *)
Definition acquire (lk : lockid) : K unit :=
  pushcli ;;
  h ← holding lk;
  if h : bool then panic "acquire" else
  modify (fun k => k <| k_cpu := k_cpu k <| c_held := lk :: c_held (k_cpu k) |> |>).

Definition release (lk : lockid) : K unit :=
  h ← holding lk;
  if negb h then panic "release" else
  modify (fun k => k <| k_cpu := k_cpu k
    <| c_held := filter (fun l => l <> lk) (c_held (k_cpu k)) |> |>) ;;
  popcli.

(** What they do to the CPU. *)

Definition cpu_touch (c : cpu) : cpu :=
  if c_ncli c =? 0 then c <| c_intena := c_if c |> else c.

Definition cpu_acq (lk : lockid) (c : cpu) : cpu :=
  cpu_touch c <| c_if := false |> <| c_ncli := c_ncli c + 1 |>
    <| c_held := lk :: c_held c |>.

Definition cpu_rel (lk : lockid) (c : cpu) : cpu :=
  c <| c_if := (c_ncli c =? 1) && c_intena c |> <| c_ncli := c_ncli c - 1 |>
    <| c_held := filter (fun l => l <> lk) (c_held c) |>.

(** The invariant of a CPU between two statements of kernel code: the nesting
    depth is the number of locks held, no lock is held twice, and interrupts
    are off while a lock is held. *)
Record cpu_ok (c : cpu) : Prop := {
  cpu_ncli : c_ncli c = Z.of_nat (length (c_held c));
  cpu_nodup : NoDup (c_held c);
  cpu_cli : c_held c <> [] -> c_if c = false
}.

Section Cpu.
  Implicit Types (c : cpu) (k : kernel) (e : env) (lk : lockid).

Lemma cpu_ok_pos c lk : cpu_ok c -> lk ∈ c_held c -> 1 <= c_ncli c /\ c_if c = false.
Proof.
  intros [Hn _ Hc] Hin. destruct (c_held c) as [|l ls] eqn:E.
  - by apply elem_of_nil in Hin.
  - rewrite Hn. simpl. split; [lia|]. by apply Hc.
Qed.

Lemma cpu_ok_zero c : cpu_ok c -> c_ncli c = 0 -> c_held c = [].
Proof.
  intros [Hn _ _] H0. destruct (c_held c); [done|]. simpl in Hn. lia.
Qed.

Lemma pushcli_run k e :
  pushcli k e =
  Ret tt (k <| k_cpu := cpu_touch (k_cpu k) <| c_if := false |>
                          <| c_ncli := c_ncli (k_cpu k) + 1 |> |>) e.
Proof.
  unfold pushcli, cpu_touch. mrun. rsimpl.
  destruct (c_ncli (k_cpu k) =? 0) eqn:E; reflexivity.
Qed.

Lemma popcli_run k e :
  c_if (k_cpu k) = false -> 1 <= c_ncli (k_cpu k) ->
  popcli k e =
  Ret tt (k <| k_cpu := k_cpu k
    <| c_if := (c_ncli (k_cpu k) =? 1) && c_intena (k_cpu k) |>
    <| c_ncli := c_ncli (k_cpu k) - 1 |> |>) e.
Proof.
  intros Hif Hn. unfold popcli. mrun. rewrite Hif. mrun. rsimpl.
  replace (c_ncli (k_cpu k) - 1 <? 0) with false by lia. mrun. rsimpl.
  replace (c_ncli (k_cpu k) - 1 =? 0) with (c_ncli (k_cpu k) =? 1) by lia.
  destruct ((_ =? 1) && _); [reflexivity|]. rewrite <- Hif at 1. by destruct k as [[]].
Qed.

Lemma cpu_touch_held c : c_held (cpu_touch c) = c_held c.
Proof. unfold cpu_touch. by case_match. Qed.
Lemma cpu_touch_ncli c : c_ncli (cpu_touch c) = c_ncli c.
Proof. unfold cpu_touch. by case_match. Qed.
Lemma cpu_touch_if c : c_if (cpu_touch c) = c_if c.
Proof. unfold cpu_touch. by case_match. Qed.
Lemma cpu_touch_proc c : c_proc (cpu_touch c) = c_proc c.
Proof. unfold cpu_touch. by case_match. Qed.

Lemma cpu_touch_ok c : cpu_ok c -> cpu_ok (cpu_touch c).
Proof.
  intros [? ? ?]. split; by rewrite ?cpu_touch_held, ?cpu_touch_ncli, ?cpu_touch_if.
Qed.

Lemma cpu_touch_cli c : 0 < c_ncli c -> cpu_touch c = c.
Proof. intros. unfold cpu_touch. by replace (c_ncli c =? 0) with false by lia. Qed.

Lemma cpu_touch_idem c : cpu_touch (cpu_touch c) = cpu_touch c.
Proof.
  unfold cpu_touch at 1. rewrite cpu_touch_ncli, cpu_touch_if.
  unfold cpu_touch. by destruct (c_ncli c =? 0).
Qed.

(** What [pushcli]/[popcli] alone rely on. *)
Definition cpu_sane c : Prop := 0 <= c_ncli c /\ (0 < c_ncli c -> c_if c = false).

Lemma cpu_ok_sane c : cpu_ok c -> cpu_sane c.
Proof.
  intros [Hn _ Hc]. split; [lia|]. intros ?. apply Hc. intros H0.
  rewrite H0 in Hn. simpl in Hn. lia.
Qed.

(** A balanced [pushcli] ... [popcli] only refreshes the saved flag. *)
Lemma pushcli_popcli_cpu c :
  cpu_sane c ->
  (cpu_touch c <| c_if := false |> <| c_ncli := c_ncli c + 1 |>)
    <| c_if := (c_ncli c + 1 =? 1) && c_intena (cpu_touch c) |>
    <| c_ncli := c_ncli c + 1 - 1 |> = cpu_touch c.
Proof.
  intros [Hn Hif]. unfold cpu_touch. destruct (c_ncli c =? 0) eqn:E.
  - replace (c_ncli c + 1 =? 1) with true by lia. destruct c.
    unfold set, set_c_ncli, set_c_if, set_c_intena; simpl. f_equal. lia.
  - replace (c_ncli c + 1 =? 1) with false by lia. specialize (Hif ltac:(lia)).
    destruct c. unfold set, set_c_ncli, set_c_if; simpl in *. subst. f_equal. lia.
Qed.

Lemma holding_run lk k e :
  cpu_sane (k_cpu k) ->
  holding lk k e =
  Ret (bool_decide (lk ∈ c_held (k_cpu k))) (k <| k_cpu := cpu_touch (k_cpu k) |>) e.
Proof.
  intros Hs. unfold holding. mcall pushcli_run.
  mrun. mcall popcli_run; [done|rsimpl; destruct Hs; lia|].
  rsimpl. rewrite cpu_touch_held, mret_run. f_equal.
  transitivity (k <| k_cpu := (cpu_touch (k_cpu k) <| c_if := false |>
      <| c_ncli := c_ncli (k_cpu k) + 1 |>)
    <| c_if := (c_ncli (k_cpu k) + 1 =? 1) && c_intena (cpu_touch (k_cpu k)) |>
    <| c_ncli := c_ncli (k_cpu k) + 1 - 1 |> |>); [reflexivity|].
  by rewrite pushcli_popcli_cpu.
Qed.

Lemma acquire_run lk k e :
  cpu_ok (k_cpu k) -> lk ∉ c_held (k_cpu k) ->
  acquire lk k e = Ret tt (k <| k_cpu := cpu_acq lk (k_cpu k) |>) e.
Proof.
  intros Hok Hlk. unfold acquire. pose proof (cpu_ok_sane _ Hok) as Hs.
  mcall pushcli_run. mcall holding_run; [by split; rsimpl; destruct Hs; [lia|]|].
  rsimpl. rewrite cpu_touch_held, bool_decide_false by done. unfold modify.
  f_equal. rsimpl. rewrite (cpu_touch_cli (_ <| c_ncli := _ |>)) by (rsimpl; destruct Hs; lia).
  rsimpl. by rewrite cpu_touch_held.
Qed.

Lemma release_run lk k e :
  cpu_ok (k_cpu k) -> lk ∈ c_held (k_cpu k) ->
  release lk k e = Ret tt (k <| k_cpu := cpu_rel lk (k_cpu k) |>) e.
Proof.
  intros Hok Hlk. unfold release. pose proof (cpu_ok_sane _ Hok) as Hs.
  destruct (cpu_ok_pos _ _ Hok Hlk) as [Hn Hif].
  mcall holding_run; [done|].
  rewrite bool_decide_true by done. cbn [negb]. mrun.
  rewrite popcli_run; rsimpl; rewrite ?cpu_touch_if, ?cpu_touch_ncli; try done.
  f_equal. unfold cpu_rel, cpu_touch.
  by replace (c_ncli (k_cpu k) =? 0) with false by lia.
Qed.

(** Taking a lock twice, or giving back a lock one does not hold, panics. *)
Lemma acquire_held lk k e :
  cpu_ok (k_cpu k) -> lk ∈ c_held (k_cpu k) ->
  exists k', acquire lk k e = Panic "acquire" k'.
Proof.
  intros Hok Hlk. unfold acquire. pose proof (cpu_ok_sane _ Hok) as Hs.
  mcall pushcli_run. mcall holding_run; [by split; rsimpl; destruct Hs; [lia|]|].
  rsimpl. rewrite cpu_touch_held, bool_decide_true by done. by eexists.
Qed.

Lemma release_not_held lk k e :
  cpu_ok (k_cpu k) -> lk ∉ c_held (k_cpu k) ->
  exists k', release lk k e = Panic "release" k'.
Proof.
  intros Hok Hlk. unfold release.
  mcall holding_run; [by apply cpu_ok_sane|].
  rewrite bool_decide_false by done. by eexists.
Qed.

Lemma cpu_acq_ok lk c : cpu_ok c -> lk ∉ c_held c -> cpu_ok (cpu_acq lk c).
Proof.
  intros [Hn Hd Hc] Hlk. unfold cpu_acq. split; rsimpl.
  - rewrite Hn. simpl. lia.
  - by constructor.
  - done.
Qed.

Lemma cpu_rel_ok lk c : cpu_ok c -> lk ∈ c_held c -> cpu_ok (cpu_rel lk c).
Proof.
  intros Hok Hlk. pose proof (cpu_ok_pos _ _ Hok Hlk) as [Hp Hif].
  destruct Hok as [Hn Hd Hc]. unfold cpu_rel. split; rsimpl.
  - rewrite length_filter_remove by done. lia.
  - by apply NoDup_filter.
  - intros Hne. destruct (c_ncli c =? 1) eqn:E; [|done]. exfalso. apply Hne.
    apply length_zero_iff_nil. rewrite length_filter_remove by done. lia.
Qed.

Lemma cpu_rel_acq lk c :
  cpu_ok c -> lk ∉ c_held c -> cpu_rel lk (cpu_acq lk c) = cpu_touch c.
Proof.
  intros Hok Hlk. unfold cpu_rel, cpu_acq. rsimpl.
  transitivity ((cpu_touch c <| c_if := false |> <| c_ncli := c_ncli c + 1 |>)
    <| c_if := (c_ncli c + 1 =? 1) && c_intena (cpu_touch c) |>
    <| c_ncli := c_ncli c + 1 - 1 |>
    <| c_held := filter (fun l => l <> lk) (lk :: c_held c) |>); [reflexivity|].
  rewrite pushcli_popcli_cpu by (by apply cpu_ok_sane).
  rewrite filter_cons_False by (intros []; done).
  rewrite filter_remove_fresh by done.
  rewrite <- (cpu_touch_held c) at 1. by destruct (cpu_touch c).
Qed.

End Cpu.

(** ** One lock, many CPUs *)

Module SMP.

(** Where a CPU stands in [acquire]/[release] of the lock: outside; in the
    [xchg] loop; past the loop and before [lk->cpu = mycpu()]; in its critical
    section; past [lk->cpu = 0] and before [lk->locked = 0]. *)
Inductive pc : Type := Outside | Spinning | Won | Critical | Dropping.

#[export] Instance pc_eq_dec : EqDecision pc.
Proof. solve_decision. Defined.

Record spinlock : Type := mkspinlock { locked : Z; lkcpu : option nat }.

Record state : Type := mkstate { lk : spinlock; pcs : list pc }.

Definition initlock : spinlock := mkspinlock 0 None.

Definition init (ncpu : nat) : state := mkstate initlock (replicate ncpu Outside).

Definition holds (l : spinlock) (i : nat) : bool :=
  negb (locked l =? 0) && bool_decide (lkcpu l = Some i).

(** [xchg(&lk->locked, 1)]: the old value is returned, 1 is stored, in one
    atomic step. *)
Definition xchg (l : spinlock) : Z * spinlock := (locked l, mkspinlock 1 (lkcpu l)).

Inductive step : state -> state -> Prop :=
| step_call l ps i :
    ps !! i = Some Outside -> holds l i = false ->
    step (mkstate l ps) (mkstate l (<[i := Spinning]> ps))
| step_spin l ps i v l' :
    ps !! i = Some Spinning -> xchg l = (v, l') -> v <> 0 ->
    step (mkstate l ps) (mkstate l' ps)
| step_win l ps i v l' :
    ps !! i = Some Spinning -> xchg l = (v, l') -> v = 0 ->
    step (mkstate l ps) (mkstate l' (<[i := Won]> ps))
| step_record l ps i :
    ps !! i = Some Won ->
    step (mkstate l ps) (mkstate (mkspinlock (locked l) (Some i)) (<[i := Critical]> ps))
| step_clear l ps i :
    ps !! i = Some Critical -> holds l i = true ->
    step (mkstate l ps) (mkstate (mkspinlock (locked l) None) (<[i := Dropping]> ps))
| step_unlock l ps i :
    ps !! i = Some Dropping ->
    step (mkstate l ps) (mkstate (mkspinlock 0 (lkcpu l)) (<[i := Outside]> ps)).

Inductive reachable (ncpu : nat) : state -> Prop :=
| reach_init : reachable ncpu (init ncpu)
| reach_step s s' : reachable ncpu s -> step s s' -> reachable ncpu s'.

Definition owns (p : pc) : bool :=
  match p with Outside | Spinning => false | Won | Critical | Dropping => true end.

(** The lock word is the ownership of at most one CPU, and the recorded CPU is
    the one in its critical section. *)
Definition inv (s : state) : Prop :=
  exists o : option nat,
    (forall i p, pcs s !! i = Some p -> owns p = bool_decide (o = Some i)) /\
    locked (lk s) = match o with Some _ => 1 | None => 0 end /\
    lkcpu (lk s) = match o with
                   | Some i => if decide (pcs s !! i = Some Critical) then Some i else None
                   | None => None
                   end.

Lemma inv_init n : inv (init n).
Proof.
  exists None. split_and!; [|done|done].
  intros i p [-> _]%lookup_replicate. done.
Qed.

(** A step of CPU [i] changes the ownership of no other CPU. *)
Lemma owner_insert (ps : list pc) o o' i p :
  (forall j q, ps !! j = Some q -> owns q = bool_decide (o = Some j)) ->
  owns p = bool_decide (o' = Some i) ->
  (forall j, j <> i -> o = Some j <-> o' = Some j) ->
  forall j q, <[i := p]> ps !! j = Some q -> owns q = bool_decide (o' = Some j).
Proof.
  intros Ho Hp Hoo j q Hj. rewrite list_lookup_insert in Hj.
  case_decide as Hd; [destruct Hd as [-> _]; by injection Hj as <-|].
  rewrite (Ho _ _ Hj). apply bool_decide_ext.
  destruct (decide (j = i)) as [->|Hne]; [|by apply Hoo].
  exfalso. apply lookup_lt_Some in Hj. tauto.
Qed.

Lemma owned_by (ps : list pc) o i p :
  (forall j q, ps !! j = Some q -> owns q = bool_decide (o = Some j)) ->
  ps !! i = Some p -> owns p = true -> o = Some i.
Proof. intros Ho Hi Hp. rewrite (Ho _ _ Hi) in Hp. by apply bool_decide_eq_true in Hp. Qed.

Lemma not_owned_by (ps : list pc) o i p :
  (forall j q, ps !! j = Some q -> owns q = bool_decide (o = Some j)) ->
  ps !! i = Some p -> owns p = false -> o <> Some i.
Proof. intros Ho Hi Hp. rewrite (Ho _ _ Hi) in Hp. by apply bool_decide_eq_false in Hp. Qed.

Lemma inv_step s s' : step s s' -> inv s -> inv s'.
Proof.
  intros Hs (o & Ho & Hl & Hc). destruct Hs as [l ps i Hi Hh|l ps i v l' Hi Hx Hv
    |l ps i v l' Hi Hx Hv|l ps i Hi|l ps i Hi Hh|l ps i Hi]; simpl in *;
    pose proof (lookup_lt_Some _ _ _ Hi).
  - pose proof (not_owned_by _ _ _ _ Ho Hi eq_refl). exists o. split_and!; simpl; [|done|].
    + eapply owner_insert; [done| |done]. by rewrite bool_decide_false.
    + rewrite Hc. destruct o as [j|]; [|done]. by rewrite list_lookup_insert_ne by congruence.
  - injection Hx as <- <-. exists o. split_and!; [done| |done]. simpl. by destruct o.
  - injection Hx as <- <-. destruct o as [j|]; [lia|]. exists (Some i).
    split_and!; simpl; [|done|].
    + eapply owner_insert; [done|by rewrite bool_decide_true|]. intros; split; congruence.
    + rewrite Hc, list_lookup_insert_eq by done. done.
  - pose proof (owned_by _ _ _ _ Ho Hi eq_refl) as ->. exists (Some i).
    split_and!; simpl; [|done|].
    + eapply owner_insert; [done|by rewrite bool_decide_true|]. done.
    + rewrite list_lookup_insert_eq by done. by rewrite decide_True.
  - pose proof (owned_by _ _ _ _ Ho Hi eq_refl) as ->. exists (Some i).
    split_and!; simpl; [|done|].
    + eapply owner_insert; [done|by rewrite bool_decide_true|]. done.
    + rewrite list_lookup_insert_eq by done. by rewrite decide_False.
  - pose proof (owned_by _ _ _ _ Ho Hi eq_refl) as ->. exists None.
    split_and!; simpl; [|done|].
    + eapply (owner_insert _ _ None); [done|by rewrite bool_decide_false|].
      intros; split; congruence.
    + rewrite Hc, decide_False by congruence. done.
Qed.

Lemma inv_reachable n s : reachable n s -> inv s.
Proof. induction 1; eauto using inv_init, inv_step. Qed.

Lemma holds_critical s i :
  inv s -> holds (lk s) i = bool_decide (pcs s !! i = Some Critical).
Proof.
  intros (o & Ho & Hl & Hc). unfold holds. rewrite Hl, Hc.
  destruct o as [j|]; simpl.
  - case_decide as Hd; apply bool_decide_ext.
    + split; [congruence|]. intros Hi. pose proof (owned_by _ _ _ _ Ho Hi eq_refl). congruence.
    + split; [done|]. intros Hi. pose proof (owned_by _ _ _ _ Ho Hi eq_refl). congruence.
  - symmetry. apply bool_decide_eq_false. intros Hi.
    by pose proof (owned_by _ _ _ _ Ho Hi eq_refl).
Qed.

(** C32: mutual exclusion.  In every reachable state of any number of CPUs
    running [acquire] and [release] of one lock, at most one of them is between
    the end of its [acquire] and its [release]. *)
Theorem spinlock_mutual_exclusion ncpu s i j :
  reachable ncpu s -> pcs s !! i = Some Critical -> pcs s !! j = Some Critical -> i = j.
Proof.
  intros (o & Ho & _ & _)%inv_reachable Hi Hj.
  pose proof (owned_by _ _ _ _ Ho Hi eq_refl).
  pose proof (owned_by _ _ _ _ Ho Hj eq_refl). congruence.
Qed.

(** [holding] is exact.  In every reachable state [holding(lk)] is true on
    a CPU exactly when that CPU is in its critical section, so the panics of
    [acquire] and [release] fire on misuse only. *)
Theorem holding_exact ncpu s i :
  reachable ncpu s -> holds (lk s) i = true <-> pcs s !! i = Some Critical.
Proof.
  intros H%inv_reachable. rewrite (holds_critical s i H). apply bool_decide_eq_true.
Qed.

(** CPU 0 in its critical section, CPU 1 spinning. *)
Definition contended : state :=
  mkstate (mkspinlock 1 (Some 0%nat)) [Critical; Spinning].

Lemma contended_reachable : reachable 2 contended.
Proof.
  eapply reach_step; [eapply reach_step; [eapply reach_step; [eapply reach_step; [apply reach_init|]|]|]|].
  - apply (step_call initlock [Outside; Outside] 0); done.
  - by apply (step_win initlock [Spinning; Outside] 0 0 (mkspinlock 1 None)).
  - by apply (step_record (mkspinlock 1 None) [Won; Outside] 0).
  - by apply (step_call (mkspinlock 1 (Some 0%nat)) [Critical; Outside] 1).
Defined.

Lemma spinlock_mutual_exclusion_witness :
  reachable 2 contended /\ forall j, pcs contended !! j = Some Critical -> 0%nat = j.
Proof.
  split; [apply contended_reachable|]. intros j Hj.
  exact (spinlock_mutual_exclusion 2 contended 0 j contended_reachable eq_refl Hj).
Defined.

Lemma holding_exact_witness :
  reachable 2 contended /\ (holds (lk contended) 0 = true <-> pcs contended !! 0%nat = Some Critical).
Proof.
  split; [apply contended_reachable|].
  exact (holding_exact 2 contended 0 contended_reachable).
Defined.

End SMP.
