(* ===== verification/Cprintf.v ===== *)
(** Console output (console.c, uart.c): the CGA screen and the serial port,
    [consputc], and the kernel's formatted printing [cprintf]. *)

From S2P Require Import Prelude Types Spinlock.

Definition BACKSPACE : Z := 256.
Definition CRTCELLS : nat := 2000.

(** The cursor registers 14 and 15 of the CRT controller hold the high and the
    low byte of the position. *)
Definition get_pos : K Z := gets (fun k => cons_pos (k_cons k)).

Definition change_pos (pos : Z) : K unit :=
  modify (fun k => k <| k_cons := k_cons k
    <| cons_pos := u8 (Z.shiftr pos 8) * 256 + u8 pos |> |>).

Definition crt_store (pos v : Z) : K unit :=
  modify (fun k => k <| k_cons := k_cons k
    <| cons_crt := <[Z.to_nat pos := v]> (cons_crt (k_cons k)) |> |>).

(** [memmove(crt, crt+80, sizeof(crt[0])*23*80)] *)
Definition crt_scroll (crt : list Z) : list Z :=
  take (23 * 80) (drop 80 crt) ++ drop (23 * 80) crt.

(** [memset(crt+pos, 0, sizeof(crt[0])*(24*80 - pos))] *)
Definition crt_clear (pos : Z) (crt : list Z) : list Z :=
  take (Z.to_nat pos) crt ++ replicate (Z.to_nat (24 * 80 - pos)) 0
    ++ drop (Z.to_nat pos + Z.to_nat (24 * 80 - pos)) crt.

Definition cgaputc (c : Z) : K unit :=
  pos ← get_pos;
  pos ← (if c =? NL then mret (pos + (80 - Z.rem pos 80))
         else if c =? BACKSPACE then mret (if 0 <? pos then pos - 1 else pos)
         else crt_store pos (Z.lor (Z.land c 255) 1792) ;; mret (pos + 1));
  if (pos <? 0) || (25 * 80 <? pos) then panic "pos under/overflow" else
  pos ← (if 24 <=? Z.quot pos 80
         then modify (fun k => k <| k_cons := k_cons k
                <| cons_crt := crt_clear (pos - 80)
                     (crt_scroll (cons_crt (k_cons k))) |> |>) ;;
              mret (pos - 80)
         else mret pos);
  change_pos pos ;;
  if c =? BACKSPACE then crt_store pos (Z.lor 32 1792) else mret tt.

(** The transmitter is polled at most 128 times; then the byte is sent. *)
Definition uartputc (c : Z) : K unit :=
  u ← gets (fun k => cons_uart (k_cons k));
  if negb u then mret tt else
  modify (fun k => k <| k_cons := k_cons k
    <| cons_serial := cons_serial (k_cons k) ++ [u8 c] |> |>).

Definition consputc (c : Z) : K unit :=
  p ← gets (fun k => cons_panicked (k_cons k));
  if p : bool then park else
  (if c =? BACKSPACE
   then uartputc 8 ;; uartputc 32 ;; uartputc 8
   else uartputc c) ;;
  cgaputc c.

(** ** printint *)

Definition digit (lower : bool) (d : Z) : Z :=
  if d <? 10 then 48 + d else (if lower then 97 else 65) + (d - 10).

(** The [do ... while((x /= base) != 0)] loop: each pass puts the next digit
    in front of the ones the final loop prints after it.  32 passes are
    enough for a 32-bit [x] and a base of at least 2. *)
Fixpoint digits_loop (lower : bool) (fuel : nat) (x base : Z) (acc : list Z)
    : list Z :=
  match fuel with
  | O => acc
  | S fuel =>
      let acc := digit lower (x mod base) :: acc in
      if x / base =? 0 then acc else digits_loop lower fuel (x / base) base acc
  end.

(** The characters [printint(xx, base, sign)] prints: [xx] is an [int]. *)
Definition int_chars (lower : bool) (xx base : Z) (sign : bool) : list Z :=
  let neg := sign && (s32 xx <? 0) in
  let x := if neg then u32 (- xx) else u32 xx in
  let ds := digits_loop lower 32 x base [] in
  if neg then 45 :: ds else ds.

Definition printint (xx base : Z) (sign : bool) : K unit :=
  for_each (int_chars true xx base sign) consputc.

(** ** cprintf *)

(** A word of the variable argument list: an integer, the address of a
    string, or the null pointer. *)
Inductive parg : Type := PInt (z : Z) | PStr (s : list Z) | PNull.

Definition next_arg (args : list parg) : K (parg * list parg) :=
  match args with
  | a :: args' => mret (a, args')
  | [] => undef "cprintf: missing argument"
  end.

Definition arg_int (a : parg) : K Z :=
  match a with
  | PInt z => mret z
  | PNull => mret 0
  | PStr _ => undef "cprintf: address printed as a number"
  end.

Definition arg_str (a : parg) : K (list Z) :=
  match a with
  | PStr s => mret s
  | PNull => mret (bytes "(null)")
  | PInt z => if z =? 0 then mret (bytes "(null)")
              else undef "cprintf: number used as an address"
  end.

Fixpoint vprint (fmt : list Z) (args : list parg) : K unit :=
  match fmt with
  | [] => mret tt
  | c :: fmt' =>
      if negb (c =? 37) then consputc c ;; vprint fmt' args
      else match fmt' with
      | [] => mret tt
      | c :: fmt'' =>
          if c =? 100 then
            '(a, args') ← next_arg args; z ← arg_int a;
            printint z 10 true ;; vprint fmt'' args'
          else if (c =? 120) || (c =? 112) then
            '(a, args') ← next_arg args; z ← arg_int a;
            printint z 16 false ;; vprint fmt'' args'
          else if c =? 115 then
            '(a, args') ← next_arg args; s ← arg_str a;
            for_each s (fun c => consputc (s8 c)) ;; vprint fmt'' args'
          else if c =? 37 then consputc 37 ;; vprint fmt'' args
          else consputc 37 ;; consputc c ;; vprint fmt'' args
      end
  end.

Definition cprintf (fmt : list Z) (args : list parg) : K unit :=
  locking ← gets (fun k => cons_locking (k_cons k));
  (if (locking : bool) then acquire L_cons else mret tt) ;;
  vprint fmt args ;;
  if (locking : bool) then release L_cons else mret tt.

(** ** What the output routines do *)

(** The invariant of the output devices: the screen has its cells and the
    cursor is on one of the first 24 rows. *)
Record cons_ok (c : console) : Prop := {
  cons_len : length (cons_crt c) = CRTCELLS;
  cons_cursor : 0 <= cons_pos c < 24 * 80;
  cons_live : cons_panicked c = false
}.

(** The console after [consputc(c)]. *)
Definition cga_put (c : Z) (d : console) : console :=
  let pos := cons_pos d in
  if c =? BACKSPACE then
    let pos := if 0 <? pos then pos - 1 else pos in
    d <| cons_pos := pos |> <| cons_crt := <[Z.to_nat pos := Z.lor 32 1792]> (cons_crt d) |>
  else
    let crt := if c =? NL then cons_crt d
               else <[Z.to_nat pos := Z.lor (Z.land c 255) 1792]> (cons_crt d) in
    let pos := if c =? NL then pos + (80 - Z.rem pos 80) else pos + 1 in
    if 24 <=? Z.quot pos 80
    then d <| cons_pos := pos - 80 |> <| cons_crt := crt_clear (pos - 80) (crt_scroll crt) |>
    else d <| cons_pos := pos |> <| cons_crt := crt |>.

Definition serial_chars (c : Z) : list Z :=
  if c =? BACKSPACE then [8; 32; 8] else [u8 c].

Definition cons_put (d : console) (c : Z) : console :=
  cga_put c (if cons_uart d
             then d <| cons_serial := cons_serial d ++ serial_chars c |> else d).

Definition emit (cs : list Z) (d : console) : console := fold_left cons_put cs d.

Lemma pos_encode pos : 0 <= pos < 24 * 80 -> u8 (Z.shiftr pos 8) * 256 + u8 pos = pos.
Proof.
  intros. unfold u8. rewrite Z.shiftr_div_pow2 by lia.
  change (2 ^ 8) with 256. rewrite (Z.mod_small (pos / 256)) by (split; [apply Z.div_pos; lia|
    apply Z.div_lt_upper_bound; lia]).
  pose proof (Z.div_mod pos 256 ltac:(lia)). lia.
Qed.

Lemma crt_scroll_length crt : length crt = CRTCELLS -> length (crt_scroll crt) = CRTCELLS.
Proof.
  unfold crt_scroll, CRTCELLS. intros. rewrite length_app, length_take, !length_drop. lia.
Qed.

Lemma crt_clear_length pos crt :
  0 <= pos <= 24 * 80 -> length crt = CRTCELLS -> length (crt_clear pos crt) = CRTCELLS.
Proof.
  unfold crt_clear, CRTCELLS. intros.
  rewrite !length_app, length_take, length_drop, length_replicate. lia.
Qed.

(** Where a new line or a character takes the cursor. *)
Lemma next_pos pos b :
  0 <= pos < 24 * 80 ->
  let pos' := if b : bool then pos + (80 - Z.rem pos 80) else pos + 1 in
  0 < pos' <= 24 * 80 /\ (24 <= Z.quot pos' 80 <-> pos' = 24 * 80).
Proof.
  intros Hp pos'. assert (0 < pos' <= 24 * 80) as Hr.
  { subst pos'. destruct b; [|lia]. rewrite Z.rem_mod_nonneg by lia.
    pose proof (Z.mod_pos_bound pos 80 ltac:(lia)).
    pose proof (Z.div_mod pos 80 ltac:(lia)).
    assert (pos / 80 < 24) by (apply Z.div_lt_upper_bound; lia). lia. }
  split; [done|]. rewrite Z.quot_div_nonneg by lia. split.
  - intros Hq. pose proof (Z.div_mod pos' 80 ltac:(lia)).
    pose proof (Z.mod_pos_bound pos' 80 ltac:(lia)). lia.
  - by intros ->.
Qed.

Lemma cga_put_ok c d : cons_ok d -> cons_ok (cga_put c d).
Proof.
  intros [Hl Hp Hv]. unfold cga_put. destruct (c =? BACKSPACE).
  { split; rsimpl; [by rewrite length_insert| |done]. destruct (0 <? cons_pos d) eqn:?; lia. }
  pose proof (next_pos _ (c =? NL) Hp) as Hn. cbn zeta in Hn.
  destruct (c =? NL); destruct (24 <=? _) eqn:E; split; rsimpl; try done; try lia;
    try (apply crt_clear_length; [lia|apply crt_scroll_length]); by rewrite ?length_insert.
Qed.

Lemma cons_put_ok c d : cons_ok d -> cons_ok (cons_put d c).
Proof.
  intros Hd. unfold cons_put. apply cga_put_ok. destruct Hd. by destruct (cons_uart d).
Qed.

Lemma emit_ok cs d : cons_ok d -> cons_ok (emit cs d).
Proof.
  unfold emit. revert d. induction cs; intros d Hd; [done|]. simpl. auto using cons_put_ok.
Qed.

Lemma cga_put_serial c d : cons_serial (cga_put c d) = cons_serial d /\
  cons_uart (cga_put c d) = cons_uart d /\ cons_locking (cga_put c d) = cons_locking d.
Proof. unfold cga_put. destruct (c =? BACKSPACE); [done|]. by case_match. Qed.

Lemma emit_uart cs d :
  cons_uart (emit cs d) = cons_uart d /\ cons_locking (emit cs d) = cons_locking d.
Proof.
  unfold emit. revert d. induction cs as [|c cs IH]; intros d; [done|]. simpl.
  destruct (IH (cons_put d c)) as [-> ->]. unfold cons_put.
  destruct (cga_put_serial c (if cons_uart d then d <| cons_serial := cons_serial d ++ serial_chars c |> else d))
    as (_ & -> & ->). by destruct (cons_uart d) eqn:?.
Qed.

Lemma emit_serial cs d :
  cons_uart d = true ->
  cons_serial (emit cs d) = cons_serial d ++ flat_map serial_chars cs.
Proof.
  revert d. induction cs as [|c cs IH]; intros d Hu; simpl; [by rewrite app_nil_r|].
  change (emit (c :: cs) d) with (emit cs (cons_put d c)).
  rewrite IH.
  - unfold cons_put. rewrite Hu. destruct (cga_put_serial c (d <| cons_serial :=
      cons_serial d ++ serial_chars c |>)) as (-> & _ & _). rsimpl. by rewrite <- app_assoc.
  - destruct (emit_uart [c] d) as [E _]. simpl in E. by rewrite E.
Qed.

Lemma emit_app cs1 cs2 d : emit (cs1 ++ cs2) d = emit cs2 (emit cs1 d).
Proof. apply fold_left_app. Qed.

Lemma cgaputc_run c k e :
  cons_ok (k_cons k) ->
  cgaputc c k e = Ret tt (k <| k_cons := cga_put c (k_cons k) |>) e.
Proof.
  intros [Hl Hp Hv]. unfold cgaputc, cga_put, get_pos, change_pos, crt_store.
  pose proof (next_pos _ (c =? NL) Hp) as [Hn Hq]. cbn zeta in Hn, Hq.
  destruct (c =? NL) eqn:En; [replace (c =? BACKSPACE) with false by (unfold BACKSPACE, NL in *; lia)|
    destruct (c =? BACKSPACE) eqn:Eb]; mrun; rsimpl.
  2: { assert (0 <= (if 0 <? cons_pos (k_cons k) then cons_pos (k_cons k) - 1
                    else cons_pos (k_cons k)) < 24 * 80) as Hb by (destruct (0 <? _) eqn:?; lia).
       remember (if 0 <? _ then _ else _) as q eqn:Eq. clear Eq.
       replace ((q <? 0) || (25 * 80 <? q)) with false by lia.
       replace (24 <=? Z.quot q 80) with false
         by (rewrite Z.quot_div_nonneg by lia;
             pose proof (Z.div_lt_upper_bound q 80 24 ltac:(lia) ltac:(lia)); lia).
       mrun. by rewrite pos_encode by lia. }
  all: match goal with |- context [if ?b then panic _ else _] => replace b with false by lia end.
  all: destruct (24 <=? _) eqn:E; mrun; rsimpl; by rewrite pos_encode by lia.
Qed.

Lemma consputc_run c k e :
  cons_ok (k_cons k) ->
  consputc c k e = Ret tt (k <| k_cons := cons_put (k_cons k) c |>) e.
Proof.
  intros Hok. unfold consputc, cons_put, serial_chars. mrun. rewrite (cons_live _ Hok).
  assert (forall c0 k0 e0, uartputc c0 k0 e0 = Ret tt (k0 <| k_cons :=
    if cons_uart (k_cons k0) then k_cons k0 <| cons_serial := cons_serial (k_cons k0) ++ [u8 c0] |>
    else k_cons k0 |>) e0) as Hu.
  { intros. unfold uartputc. mrun. destruct (cons_uart (k_cons k0)); [done|].
    simpl. unfold mret, M_ret. f_equal. by destruct k0. }
  assert (forall d0, cons_ok d0 -> forall s0, cons_ok (d0 <| cons_serial := s0 |>)) as Hs
    by (by intros d0 [] s0).
  destruct (c =? BACKSPACE).
  - rewrite bind_assoc. mcall Hu. rewrite bind_assoc. mcall Hu. mcall Hu.
    destruct (cons_uart (k_cons k)) eqn:E; repeat (rsimpl; rewrite ?E);
      rewrite cgaputc_run; rsimpl; auto.
    by rewrite <- !app_assoc.
  - mcall Hu. destruct (cons_uart (k_cons k)) eqn:E; rsimpl; rewrite cgaputc_run; rsimpl; auto.
Qed.

Lemma consputc_all cs k e :
  cons_ok (k_cons k) ->
  for_each cs consputc k e = Ret tt (k <| k_cons := emit cs (k_cons k) |>) e.
Proof.
  revert k. induction cs as [|c cs IH]; intros k Hok; simpl.
  - unfold mret, M_ret. f_equal. by destruct k.
  - mcall consputc_run; [done|]. rewrite IH by (rsimpl; by apply cons_put_ok). by rsimpl.
Qed.

(** What [cprintf] means to print: a reference definition of the format
    language ([%d], [%x], [%p], [%s], [%%]); [None] when an argument is missing
    or of the wrong kind. *)
Definition arg_chars (conv : Z) (a : parg) : option (list Z) :=
  match a with
  | PInt z =>
      if conv =? 100 then Some (int_chars true z 10 true)
      else if conv =? 115 then if z =? 0 then Some (bytes "(null)") else None
      else Some (int_chars true z 16 false)
  | PNull =>
      if conv =? 100 then Some (int_chars true 0 10 true)
      else if conv =? 115 then Some (bytes "(null)")
      else Some (int_chars true 0 16 false)
  | PStr s => if conv =? 115 then Some (map s8 s) else None
  end.

Definition takes_arg (conv : Z) : bool :=
  (conv =? 100) || (conv =? 120) || (conv =? 112) || (conv =? 115).

Fixpoint format (fmt : list Z) (args : list parg) : option (list Z) :=
  match fmt with
  | [] => Some []
  | c :: fmt' =>
      if negb (c =? 37) then cons c <$> format fmt' args
      else match fmt' with
      | [] => Some []
      | conv :: fmt'' =>
          if takes_arg conv then
            match args with
            | [] => None
            | a :: args' =>
                cs ← arg_chars conv a; rest ← format fmt'' args'; Some (cs ++ rest)
            end
          else if conv =? 37 then cons 37 <$> format fmt'' args
          else app [37; conv] <$> format fmt'' args
      end
  end.

Lemma vprint_run fmt args cs k e :
  cons_ok (k_cons k) -> format fmt args = Some cs ->
  vprint fmt args k e = Ret tt (k <| k_cons := emit cs (k_cons k) |>) e.
Proof.
  remember (length fmt) as n eqn:Hn. revert fmt args cs k Hn.
  induction (lt_wf n) as [n _ IH]. intros fmt args cs k -> Hok Hf.
  destruct fmt as [|c fmt]; simpl in Hf |- *.
  { injection Hf as <-. rewrite mret_run. f_equal. by destruct k. }
  assert (forall cs1 fmt1 args1 cs2,
    (length fmt1 < S (length fmt))%nat -> format fmt1 args1 = Some cs2 ->
    (for_each cs1 consputc ;; vprint fmt1 args1) k e =
    Ret tt (k <| k_cons := emit (cs1 ++ cs2) (k_cons k) |>) e) as Hgo.
  { intros cs1 fmt1 args1 cs2 Hlt Hf1. mcall consputc_all; [done|].
    rewrite (IH _ Hlt _ _ cs2) by (try done; rsimpl; by apply emit_ok).
    rsimpl. by rewrite emit_app. }
  destruct (c =? 37) eqn:Ec; simpl in Hf |- *.
  2: { destruct (format fmt args) as [cs'|] eqn:E; [|done]. injection Hf as <-.
       etransitivity; [|apply (Hgo [c] fmt args cs'); done || lia]. simpl. by rewrite bind_assoc. }
  destruct fmt as [|conv fmt].
  { injection Hf as <-. rewrite mret_run. f_equal. by destruct k. }
  simpl in Hgo. unfold takes_arg in Hf. unfold printint.
  destruct ((conv =? 100) || (conv =? 120) || (conv =? 112) || (conv =? 115)) eqn:Et; simpl in Hf.
  - destruct args as [|a args]; [done|]. apply bind_Some in Hf as (c1 & H1 & Hf).
    apply bind_Some in Hf as (c2 & H2 & [= <-]). unfold arg_chars in H1.
    destruct (conv =? 100) eqn:E1; [replace (conv =? 115) with false in H1 by lia; destruct a; simplify_eq; mrun; apply Hgo; done || lia|].
    destruct (conv =? 115) eqn:E4.
    + replace ((conv =? 120) || (conv =? 112)) with false by lia. mrun.
      assert (forall s, for_each s (fun c => consputc (s8 c)) = for_each (map s8 s) consputc) as Hm
        by (induction s as [|x s IHs]; simpl; [done|by rewrite IHs]).
      destruct a as [z|s|]; [destruct (z =? 0) eqn:Ez; [|done]| |]; injection H1 as <-; unfold arg_str;
        rewrite ?Ez; mrun; rewrite Hm; apply Hgo; done || lia.
    + replace ((conv =? 120) || (conv =? 112)) with true by (destruct (conv =? 120), (conv =? 112); done).
      destruct a; simplify_eq; mrun; apply Hgo; done || lia.
  - replace (conv =? 100) with false by lia.
    replace ((conv =? 120) || (conv =? 112)) with false by lia.
    replace (conv =? 115) with false by lia.
    destruct (conv =? 37).
    + destruct (format fmt args) as [cs'|] eqn:E; [|done]. injection Hf as <-.
      etransitivity; [|apply (Hgo [37] fmt args cs'); done || lia]. simpl. by rewrite bind_assoc.
    + destruct (format fmt args) as [cs'|] eqn:E; [|done]. injection Hf as <-.
      etransitivity; [|apply (Hgo [37; conv] fmt args cs'); done || lia]. simpl.
      unfold mbind, M_bind. destruct (consputc 37 k e) as [? k1 e1| | |]; try done.
      by destruct (consputc conv k1 e1).
Qed.

(** Digits and their value. *)

Lemma digits_loop_acc lower fuel x base acc :
  digits_loop lower fuel x base acc = digits_loop lower fuel x base [] ++ acc.
Proof.
  revert x acc. induction fuel as [|fuel IH]; intros x acc; simpl; [done|].
  destruct (x / base =? 0); [done|]. rewrite (IH _ (_ :: acc)), (IH _ [_]).
  by rewrite <- app_assoc.
Qed.

(** The value a reader gives to decimal digits. *)
Definition dec_value (ds : list Z) : Z := fold_left (fun v d => v * 10 + (d - 48)) ds 0.

Lemma digits_loop_value fuel x :
  0 <= x < 10 ^ Z.of_nat fuel -> (0 < fuel)%nat ->
  dec_value (digits_loop true fuel x 10 []) = x /\
  Forall (fun d => 48 <= d <= 57) (digits_loop true fuel x 10 []).
Proof.
  revert x. induction fuel as [|fuel IH]; intros x Hx Hf; [lia|]. cbn [digits_loop].
  pose proof (Z.mod_pos_bound x 10 ltac:(lia)). pose proof (Z.div_mod x 10 ltac:(lia)).
  assert (digit true (x mod 10) = 48 + x mod 10) as Hd
    by (unfold digit; replace (x mod 10 <? 10) with true by lia; done).
  destruct (x / 10 =? 0) eqn:E.
  - rewrite Hd. split; [unfold dec_value; simpl; lia|]. repeat constructor; lia.
  - rewrite digits_loop_acc. destruct fuel as [|fuel].
    { simpl in Hx. assert (x / 10 = 0) by (apply Z.div_small; lia). lia. }
    destruct (IH (x / 10)) as [IHv IHd]; [|lia|].
    { split; [apply Z.div_pos; lia|]. apply Z.div_lt_upper_bound; [lia|].
      rewrite (Nat2Z.inj_succ (S fuel)), Z.pow_succ_r in Hx; lia. }
    rewrite Hd. split.
    + unfold dec_value in *. rewrite fold_left_app, IHv. simpl. lia.
    + apply Forall_app. split; [done|]. repeat constructor; lia.
Qed.

Lemma cprintf_run fmt args cs k e :
  cpu_ok (k_cpu k) -> L_cons ∉ c_held (k_cpu k) -> cons_ok (k_cons k) ->
  format fmt args = Some cs ->
  cprintf fmt args k e =
    Ret tt (k <| k_cons := emit cs (k_cons k) |>
              <| k_cpu := if cons_locking (k_cons k) then cpu_touch (k_cpu k)
                          else k_cpu k |>) e.
Proof.
  intros Hcpu Hfree Hok Hf. unfold cprintf. mrun.
  destruct (cons_locking (k_cons k)) eqn:El.
  - mcall acquire_run; [done|done|]. mcall vprint_run; [done|done|].
    rewrite release_run; rsimpl.
    + by rewrite cpu_rel_acq.
    + by apply cpu_acq_ok.
    + apply list_elem_of_here.
  - mrun. mcall vprint_run; [done|done|]. by rewrite mret_run.
Qed.

(** [prints m cs]: whenever the console works and its lock is free, [m]
    returns, and all it does is to print the characters [cs] (and to refresh
    the saved interrupt flag of the CPU). *)
Definition prints (m : K unit) (cs : list Z) : Prop :=
  forall k e, cpu_ok (k_cpu k) -> L_cons ∉ c_held (k_cpu k) -> cons_ok (k_cons k) ->
  exists c, m k e = Ret tt (k <| k_cons := emit cs (k_cons k) |> <| k_cpu := c |>) e /\
    (c = k_cpu k \/ c = cpu_touch (k_cpu k)).

Lemma touched_ok c c' :
  c' = c \/ c' = cpu_touch c -> cpu_ok c -> cpu_ok c' /\ c_held c' = c_held c.
Proof.
  intros [->| ->] H; [done|]. split; [by apply cpu_touch_ok|apply cpu_touch_held].
Qed.

Lemma prints_nil : prints (mret tt) [].
Proof. intros k e _ _ _. exists (k_cpu k). split; [by destruct k|auto]. Qed.

Lemma prints_seq m1 m2 cs1 cs2 :
  prints m1 cs1 -> prints m2 cs2 -> prints (m1 ;; m2) (cs1 ++ cs2).
Proof.
  intros H1 H2 k e Hcpu Hfree Hok. destruct (H1 k e Hcpu Hfree Hok) as (c1 & E1 & Hc1).
  destruct (touched_ok _ _ Hc1 Hcpu) as [Hcpu1 Hh1].
  destruct (H2 (k <| k_cons := emit cs1 (k_cons k) |> <| k_cpu := c1 |>) e)
    as (c2 & E2 & Hc2); rsimpl; [done|by rewrite Hh1|by apply emit_ok|].
  exists c2. rewrite (bind_Ret _ _ _ _ _ _ _ E1), E2. rsimpl. rewrite emit_app. split; [done|].
  rsimpl in Hc2. destruct Hc1 as [->| ->], Hc2 as [->| ->]; rewrite ?cpu_touch_idem; auto.
Qed.

Lemma prints_cprintf fmt args cs : format fmt args = Some cs -> prints (cprintf fmt args) cs.
Proof.
  intros Hf k e Hcpu Hfree Hok. eexists. split; [by apply cprintf_run|]. destruct (cons_locking _); auto.
Qed.

Lemma prints_if (b : bool) m1 m2 cs1 cs2 :
  prints m1 cs1 -> prints m2 cs2 -> prints (if b then m1 else m2) (if b then cs1 else cs2).
Proof. by destruct b. Qed.

#[export] Hint Resolve prints_nil prints_seq prints_if : xv6.
#[export] Hint Extern 1 (prints (cprintf _ _) _) => apply prints_cprintf; reflexivity : xv6.

(** decimal output reads back.  The characters [printint(xx, 10, 1)] prints
    are decimal digits, after a minus sign for a negative number, and their
    value is [xx], for every 32-bit [xx]. *)
Theorem printint_decimal_value xx :
  - 2 ^ 31 <= xx < 2 ^ 31 ->
  exists ds, Forall (fun d => 48 <= d <= 57) ds /\
    int_chars true xx 10 true = (if xx <? 0 then [45] else []) ++ ds /\
    dec_value ds = Z.abs xx.
Proof.
  intros Hxx. unfold int_chars. rewrite s32_small by lia. cbn [andb].
  exists (digits_loop true 32 (Z.abs xx) 10 []).
  destruct (digits_loop_value 32 (Z.abs xx)) as [Hv Hd]; [|lia|].
  { change (10 ^ Z.of_nat 32) with 100000000000000000000000000000000. lia. }
  split_and!; [done| |done]. destruct (xx <? 0) eqn:E.
  - replace (u32 (- xx)) with (Z.abs xx) by (rewrite u32_small; lia). done.
  - replace (u32 xx) with (Z.abs xx) by (rewrite u32_small; lia). done.
Qed.

Lemma printint_decimal_value_witness :
  int_chars true (-120) 10 true = bytes "-120" /\
  exists ds, Forall (fun d => 48 <= d <= 57) ds /\
    int_chars true (-120) 10 true = (if -120 <? 0 then [45] else []) ++ ds /\
    dec_value ds = Z.abs (-120).
Proof.
  split; [reflexivity|]. apply (printint_decimal_value (-120)). lia.
Defined.
