(* ===== verification/Print.v ===== *)
(** What [cprintf] puts on the console (console.c), against a specification
    that is independent of the code: numerals in a base as an inductive
    relation, the format language as a relation between a format, its
    arguments and a text, and the screen as a page of rows. *)

From S2P Require Import Prelude Types Spinlock Cprintf.

(** ** Numerals *)

Definition hex_digits : list Z := bytes "0123456789abcdef".

(** [cs] is the numeral of [n] in base [b], without leading zeros. *)
Inductive numeral (b : Z) : Z -> list Z -> Prop :=
| num_digit d c : 0 <= d < b -> hex_digits !! Z.to_nat d = Some c -> numeral b d [c]
| num_more n d c cs :
    0 < n -> 0 <= d < b -> hex_digits !! Z.to_nat d = Some c ->
    numeral b n cs -> numeral b (n * b + d) (cs ++ [c]).

Definition decimal_of (z : Z) (cs : list Z) : Prop :=
  if z <? 0 then exists ds, numeral 10 (- z) ds /\ cs = bytes "-" ++ ds else numeral 10 z cs.

(** ** The format language *)

(** The argument as a number, and as a string. *)
Definition as_int (a : parg) : option Z :=
  match a with PInt z => Some z | PNull => Some 0 | PStr _ => None end.
Definition as_str (a : parg) : option (list Z) :=
  match a with
  | PStr s => Some s
  | PNull => Some (bytes "(null)")
  | PInt z => if z =? 0 then Some (bytes "(null)") else None
  end.

(** [says fmt args cs]: the format with these arguments stands for [cs].  [%]
    is 37, [d] 100, [x] 120, [p] 112 and [s] 115; a [%] at the end stands for
    nothing, and one before another character for itself and that
    character. *)
Inductive says : list Z -> list parg -> list Z -> Prop :=
| says_end args : says [] args []
| says_last args : says [37] args []
| says_char c fmt args cs : c <> 37 -> says fmt args cs -> says (c :: fmt) args (c :: cs)
| says_decimal a z ds fmt args cs :
    as_int a = Some z -> decimal_of (s32 z) ds -> says fmt args cs ->
    says (37 :: 100 :: fmt) (a :: args) (ds ++ cs)
| says_hex conv a z ds fmt args cs :
    conv = 120 \/ conv = 112 ->
    as_int a = Some z -> numeral 16 (u32 z) ds -> says fmt args cs ->
    says (37 :: conv :: fmt) (a :: args) (ds ++ cs)
| says_string a s fmt args cs :
    as_str a = Some s -> says fmt args cs -> says (37 :: 115 :: fmt) (a :: args) (s ++ cs)
| says_percent fmt args cs : says fmt args cs -> says (37 :: 37 :: fmt) args (37 :: cs)
| says_unknown conv fmt args cs :
    conv ∉ [100; 120; 112; 115; 37] -> says fmt args cs ->
    says (37 :: conv :: fmt) args (37 :: conv :: cs).

(** The characters of a C string. *)
Definition is_char (c : Z) : bool := (0 <? c) && (c <? 256).

(** The arguments suit the format: there are enough of them, each of the kind
    its conversion needs. *)
Fixpoint fits (fmt : list Z) (args : list parg) : bool :=
  match fmt with
  | [] => true
  | c :: fmt' =>
      is_char c &&
      (if negb (c =? 37) then fits fmt' args
       else match fmt' with
       | [] => true
       | conv :: fmt'' =>
           is_char conv &&
           (if bool_decide (conv ∈ [100; 120; 112]) then
              match args with a :: args' => bool_decide (is_Some (as_int a)) && fits fmt'' args' | [] => false end
            else if conv =? 115 then
              match args with
              | a :: args' => match as_str a with Some s => forallb is_char s && fits fmt'' args' | None => false end
              | [] => false
              end
            else fits fmt'' args)
       end)
  end.

(** ** The screen *)

(** The 25 rows of 80 cells and the place of the cursor, which stays on the
    first 24 rows. *)
Record page : Type := mkpage { pg_rows : list (list Z); pg_row : nat; pg_col : nat }.

Record page_ok (g : page) : Prop := {
  pg_height : length (pg_rows g) = 25%nat;
  pg_width : Forall (fun r => length r = 80%nat) (pg_rows g);
  pg_row_ok : (pg_row g < 24)%nat;
  pg_col_ok : (pg_col g < 80)%nat
}.

(** The cursor goes to the start of the next row.  Below row 23 there is none:
    rows 1 to 23 move up by one and row 23 is left blank. *)
Definition next_row (g : page) : page :=
  if (pg_row g <? 23)%nat then mkpage (pg_rows g) (S (pg_row g)) 0
  else mkpage (take 23 (drop 1 (pg_rows g)) ++ [replicate 80 0] ++ drop 24 (pg_rows g)) 23 0.

(** A byte is written at the cursor, black on white (attribute 7). *)
Definition put_byte (g : page) (c : Z) : page :=
  if c =? NL then next_row g else
  let rows := alter (fun r => <[pg_col g := 7 * 256 + c]> r) (pg_row g) (pg_rows g) in
  if (pg_col g <? 79)%nat then mkpage rows (pg_row g) (S (pg_col g))
  else next_row (mkpage rows (pg_row g) (pg_col g)).

(** The screen of the console is the page. *)
Record shows (d : console) (g : page) : Prop := {
  sh_page : page_ok g;
  sh_crt : cons_crt d = concat (pg_rows g);
  sh_pos : cons_pos d = 80 * Z.of_nat (pg_row g) + Z.of_nat (pg_col g)
}.

(** The console after a text: the page shows it, and the serial port, when
    there is one, has sent it. *)
Definition written (cs : list Z) (g : page) (d : console) : console :=
  let g' := fold_left put_byte cs g in
  d <| cons_crt := concat (pg_rows g') |>
    <| cons_pos := 80 * Z.of_nat (pg_row g') + Z.of_nat (pg_col g') |>
    <| cons_serial := cons_serial d ++ (if cons_uart d then cs else []) |>.

(** ** The digit loop prints the numeral *)

Lemma hex_digit d : 0 <= d < 16 -> hex_digits !! Z.to_nat d = Some (digit true d).
Proof.
  intros Hd. remember (Z.to_nat d) as n eqn:E. replace d with (Z.of_nat n) by lia.
  assert (n < 16)%nat as Hn by lia. clear -Hn.
  do 16 (destruct n as [|n]; [done|]). lia.
Qed.

Lemma digits_loop_numeral b fuel x :
  2 <= b <= 16 -> 0 <= x < b ^ Z.of_nat fuel -> (0 < fuel)%nat ->
  numeral b x (digits_loop true fuel x b []).
Proof.
  intros Hb. revert x. induction fuel as [|fuel IH]; intros x Hx Hf; [lia|]. cbn [digits_loop].
  pose proof (Z.mod_pos_bound x b ltac:(lia)). pose proof (Z.div_mod x b ltac:(lia)).
  pose proof (Z.div_pos x b ltac:(lia) ltac:(lia)).
  destruct (x / b =? 0) eqn:E.
  - replace x with (x mod b) at 1 by lia. apply num_digit; [done|]. apply hex_digit. lia.
  - rewrite digits_loop_acc. replace x with (x / b * b + x mod b) at 1 by lia.
    rewrite Nat2Z.inj_succ, Z.pow_succ_r in Hx by lia.
    assert (x / b < b ^ Z.of_nat fuel) by (apply Z.div_lt_upper_bound; lia).
    apply num_more; [lia|done|apply hex_digit; lia|]. apply IH; [done|].
    destruct fuel; [|lia]. change (b ^ Z.of_nat 0) with 1 in *. lia.
Qed.

Lemma enough_digits b x : 2 <= b -> 0 <= x < 2 ^ 32 -> 0 <= x < b ^ Z.of_nat 32.
Proof.
  intros Hb Hx. change (Z.of_nat 32) with 32. pose proof (Z.pow_le_mono_l 2 b 32 ltac:(lia)). lia.
Qed.

Lemma int_chars_decimal z : decimal_of (s32 z) (int_chars true z 10 true).
Proof.
  pose proof (s32_range z) as Hr. unfold decimal_of, int_chars. cbn [andb].
  destruct (s32 z <? 0) eqn:E.
  - exists (digits_loop true 32 (u32 (- z)) 10 []). split; [|done].
    replace (u32 (- z)) with (- s32 z).
    + apply digits_loop_numeral; [lia|apply enough_digits; lia|lia].
    + rewrite <-(u32_small (- s32 z)) by lia. rewrite <-(Z.sub_0_l (s32 z)), <-u32_sub_r, u32_s32.
      by rewrite u32_sub_r.
  - assert (u32 z = s32 z) as -> by (rewrite <-u32_s32; apply u32_small; lia).
    apply digits_loop_numeral; [lia|apply enough_digits; lia|lia].
Qed.

Lemma int_chars_hex z : numeral 16 (u32 z) (int_chars true z 16 false).
Proof. apply digits_loop_numeral; [lia|apply enough_digits; [lia|apply u32_range]|lia]. Qed.

Lemma digits_loop_length b fuel n x :
  2 <= b -> 0 <= x < b ^ Z.of_nat n -> (0 < n)%nat ->
  (length (digits_loop true fuel x b []) <= n)%nat.
Proof.
  intros Hb. revert n x. induction fuel as [|fuel IH]; intros n x Hx Hn; cbn [digits_loop length]; [lia|].
  pose proof (Z.div_mod x b ltac:(lia)). pose proof (Z.mod_pos_bound x b ltac:(lia)).
  pose proof (Z.div_pos x b ltac:(lia) ltac:(lia)).
  destruct (x / b =? 0) eqn:E; [cbn [length]; lia|]. rewrite digits_loop_acc, length_app. cbn [length].
  destruct n as [|n]; [lia|]. rewrite Nat2Z.inj_succ, Z.pow_succ_r in Hx by lia.
  assert (x / b < b ^ Z.of_nat n) by (apply Z.div_lt_upper_bound; lia).
  enough (length (digits_loop true fuel (x / b) b []) <= n)%nat by lia. apply IH; [done|].
  destruct n; [|lia]. change (b ^ Z.of_nat 0) with 1 in *. lia.
Qed.

(** [char buf[16]] of [printint] is large enough. *)
Lemma printint_buf xx sign :
  (length (int_chars true xx 10 sign) <= 16)%nat /\ (length (int_chars true xx 16 sign) <= 16)%nat.
Proof.
  assert (forall b x, 10 <= b -> (length (digits_loop true 32 (u32 x) b []) <= 10)%nat) as Hd.
  { intros b x Hb. apply digits_loop_length; [lia| |lia]. pose proof (u32_range x).
    pose proof (Z.pow_le_mono_l 10 b 10 ltac:(lia)). change (Z.of_nat 10) with 10. lia. }
  pose proof (Hd 10 xx). pose proof (Hd 10 (- xx)). pose proof (Hd 16 xx). pose proof (Hd 16 (- xx)).
  unfold int_chars. split; destruct (sign && _); cbn [length]; lia.
Qed.

(** ** The format *)

(** [consputc] gets [c'] to print the byte [c]: the characters of a string
    reach it as signed. *)
Definition sent_as (c c' : Z) : Prop := - 128 <= c' < 256 /\ u8 c' = c.

Lemma sent_byte c : 0 <= c < 256 -> sent_as c c.
Proof. intros Hc. split; [lia|by apply u8_small]. Qed.

Lemma sent_signed c : 0 <= c < 256 -> sent_as c (s8 c).
Proof.
  intros Hc. unfold sent_as, u8, s8. change (2 ^ 8) with 256. change (2 ^ 7) with 128.
  pose proof (Z.mod_pos_bound (c + 128) 256 ltac:(lia)). split; [lia|].
  rewrite Zminus_mod_idemp_l, Z.add_simpl_r. by apply Z.mod_small.
Qed.

Lemma numeral_bytes b x cs : numeral b x cs -> Forall (fun c => 0 <= c < 256) cs.
Proof.
  assert (forall n c, hex_digits !! n = Some c -> 0 <= c < 256) as Hh.
  { intros n c Hc. assert (Forall (fun c => 0 <= c < 256) hex_digits) as H
      by (repeat constructor; done). rewrite Forall_lookup in H. by apply H in Hc. }
  induction 1; [by repeat constructor; eapply Hh|].
  apply Forall_app. split; [done|]. by repeat constructor; eapply Hh.
Qed.

Lemma decimal_of_bytes z cs : decimal_of z cs -> Forall (fun c => 0 <= c < 256) cs.
Proof.
  unfold decimal_of. destruct (z <? 0); [|apply numeral_bytes].
  intros (ds & Hd%numeral_bytes & ->). by constructor.
Qed.

Lemma bytes_sent cs : Forall (fun c => 0 <= c < 256) cs -> Forall2 sent_as cs cs.
Proof. induction 1; constructor; [by apply sent_byte|done]. Qed.

Lemma chars_sent s : forallb is_char s = true -> Forall2 sent_as s (map s8 s).
Proof.
  induction s as [|c s IH]; simpl; [constructor|]. unfold is_char at 1. intros [Hc Hs]%andb_true_iff.
  constructor; [apply sent_signed; lia|auto].
Qed.

(** What the reference definition of the format has for one conversion. *)
Lemma conv_int conv a z :
  as_int a = Some z ->
  (conv = 100 -> arg_chars conv a = Some (int_chars true z 10 true)) /\
  (conv = 120 \/ conv = 112 -> arg_chars conv a = Some (int_chars true z 16 false)).
Proof.
  intros Ha. destruct a; simplify_eq/=; unfold arg_chars; (split; [by intros ->|by intros [-> | ->]]).
Qed.

Lemma conv_str a s :
  as_str a = Some s -> forallb is_char s = true ->
  exists cs, arg_chars 115 a = Some cs /\ Forall2 sent_as s cs.
Proof.
  intros Ha Hs. destruct a as [z|t|]; simpl in *.
  - unfold arg_chars. simpl. destruct (z =? 0); simplify_eq. eexists. split; [done|].
    apply bytes_sent. by repeat constructor.
  - simplify_eq. eexists. split; [done|]. by apply chars_sent.
  - simplify_eq. eexists. split; [done|]. apply bytes_sent. by repeat constructor.
Qed.

Lemma fits_says fmt args :
  fits fmt args = true ->
  exists cs cs', says fmt args cs /\ format fmt args = Some cs' /\ Forall2 sent_as cs cs'.
Proof.
  remember (length fmt) as n eqn:Hn. revert fmt args Hn.
  induction (lt_wf n) as [n _ IH]. intros fmt args -> Hf.
  destruct fmt as [|c fmt]; [exists [], []; repeat constructor|]. cbn [fits format] in Hf |- *.
  apply andb_true_iff in Hf as [Hc Hf]. unfold is_char in Hc.
  destruct (Z.eqb_spec c 37) as [->|Hne]; simpl in Hf |- *.
  2: { destruct (IH (length fmt) ltac:(simpl; lia) fmt args eq_refl Hf) as (cs & cs' & Hs & -> & Hm).
       exists (c :: cs), (c :: cs'). split_and!; [by constructor|done|]. constructor; [apply sent_byte; lia|done]. }
  destruct fmt as [|conv fmt]; [exists [], []; repeat constructor|].
  apply andb_true_iff in Hf as [Hv Hf]. unfold is_char in Hv.
  assert (forall args', fits fmt args' = true ->
    exists cs cs', says fmt args' cs /\ format fmt args' = Some cs' /\ Forall2 sent_as cs cs') as Hgo
    by (intros args' H; by apply (IH (length fmt) ltac:(simpl; lia) fmt args' eq_refl H)).
  clear IH. case_bool_decide as Hin.
  - destruct args as [|a args]; [done|]. apply andb_true_iff in Hf as [[z Hz]%bool_decide_eq_true Hf].
    destruct (Hgo args Hf) as (cs & cs' & Hs & -> & Hm). destruct (conv_int conv a z Hz) as [Hd Hx].
    assert (conv = 100 \/ conv = 120 \/ conv = 112) as Hcases by set_solver.
    replace (takes_arg conv) with true by (by destruct Hcases as [->|[->| ->]]).
    destruct Hcases as [->|Hcases].
    + rewrite Hd by done. simpl. pose proof (int_chars_decimal z) as Hi.
      do 2 eexists. split_and!; [by eapply says_decimal|done|]. apply Forall2_app; [|done].
      by apply bytes_sent, (decimal_of_bytes _ _ Hi).
    + rewrite Hx by done. simpl. pose proof (int_chars_hex z) as Hi.
      do 2 eexists. split_and!; [by eapply says_hex|done|]. apply Forall2_app; [|done].
      by apply bytes_sent, (numeral_bytes _ _ _ Hi).
  - assert (conv <> 100 /\ conv <> 120 /\ conv <> 112) as (H1 & H2 & H3) by set_solver.
    unfold takes_arg. destruct (Z.eqb_spec conv 100), (Z.eqb_spec conv 120), (Z.eqb_spec conv 112); try done.
    destruct (Z.eqb_spec conv 115) as [->|Hns]; simpl.
    + destruct args as [|a args]; [done|]. destruct (as_str a) as [s|] eqn:Ha; [|done].
      apply andb_true_iff in Hf as [Hchars Hf]. destruct (Hgo args Hf) as (cs & cs' & Hs & -> & Hm).
      destruct (conv_str a s Ha Hchars) as (t & -> & Ht). simpl.
      do 2 eexists. split_and!; [by apply says_string|done|]. by apply Forall2_app.
    + destruct (Hgo args Hf) as (cs & cs' & Hs & -> & Hm).
      destruct (Z.eqb_spec conv 37) as [->|Hnp]; simpl; do 2 eexists.
      * split_and!; [by apply says_percent|done|]. by constructor.
      * split_and!; [apply says_unknown; [set_solver|done]|done|].
        repeat constructor; try done; [lia|lia|apply u8_small; lia].
Qed.

(** ** The screen memory as rows *)

Section Rows.
  Context {A : Type} (w : nat).
  Implicit Types (rows : list (list A)).

Lemma concat_length_rows rows :
  Forall (fun r => length r = w) rows -> length (concat rows) = (w * length rows)%nat.
Proof. induction 1 as [|r rows Hr _ IH]; simpl; [lia|]. rewrite length_app, IH. lia. Qed.

Lemma take_concat n rows :
  Forall (fun r => length r = w) rows -> take (w * n) (concat rows) = concat (take n rows).
Proof.
  intros Hr. revert n. induction Hr as [|r rows Hr _ IH]; intros [|n]; simpl; try by rewrite ?Nat.mul_0_r, ?take_nil.
  replace (w * S n)%nat with (length r + w * n)%nat by lia. by rewrite take_app_add, IH.
Qed.

Lemma drop_concat n rows :
  Forall (fun r => length r = w) rows -> drop (w * n) (concat rows) = concat (drop n rows).
Proof.
  intros Hr. revert n. induction Hr as [|r rows Hr _ IH]; intros [|n]; simpl; try by rewrite ?Nat.mul_0_r, ?drop_nil.
  replace (w * S n)%nat with (length r + w * n)%nat by lia. by rewrite drop_app_add, IH.
Qed.

Lemma insert_concat n c v rows :
  Forall (fun r => length r = w) rows -> (c < w)%nat ->
  concat (alter (fun r => <[c := v]> r) n rows) = <[(w * n + c)%nat := v]> (concat rows).
Proof.
  intros Hr Hc. revert n. induction Hr as [|r rows Hr _ IH]; intros [|n]; simpl; [done|done|..].
  - rewrite Nat.mul_0_r. symmetry. apply insert_app_l. simpl. lia.
  - change (list_alter _ n rows) with (alter (fun r => <[c := v]> r) n rows).
    rewrite IH. replace (w * S n + c)%nat with (length r + (w * n + c))%nat by lia.
    by rewrite insert_app_r.
Qed.
End Rows.

Lemma chop_rows {A} (w n : nat) (l : list A) :
  length l = (w * n)%nat ->
  exists rows, concat rows = l /\ length rows = n /\ Forall (fun r => length r = w) rows.
Proof.
  revert l. induction n as [|n IH]; intros l Hl.
  - exists []. split_and!; [|done|constructor]. destruct l; simpl in Hl; [done|lia].
  - destruct (IH (drop w l)) as (rows & Hc & Hn & Hw); [rewrite length_drop; lia|].
    exists (take w l :: rows). simpl. rewrite Hc, take_drop, Hn. split_and!; [done|done|].
    constructor; [rewrite length_take; lia|done].
Qed.

(** A working console shows a page. *)
Lemma cons_shows d : cons_ok d -> exists g, shows d g.
Proof.
  intros [Hl Hp _]. destruct (chop_rows 80 25 (cons_crt d) Hl) as (rows & Hc & Hn & Hw).
  pose proof (Z.div_mod (cons_pos d) 80 ltac:(lia)). pose proof (Z.mod_pos_bound (cons_pos d) 80 ltac:(lia)).
  exists (mkpage rows (Z.to_nat (cons_pos d / 80)) (Z.to_nat (cons_pos d mod 80))).
  split; [split; simpl; try done|done|simpl]; lia.
Qed.

(** [memmove] and [memset] on the rows. *)
Lemma scroll_rows rows :
  length rows = 25%nat -> Forall (fun r => length r = 80%nat) rows ->
  crt_clear (23 * 80) (crt_scroll (concat rows))
  = concat (take 23 (drop 1 rows) ++ [replicate 80 0] ++ drop 24 rows).
Proof.
  intros Hn Hw. pose proof (concat_length_rows 80 rows Hw) as Hl. rewrite Hn in Hl.
  unfold crt_clear, crt_scroll.
  change (Z.to_nat (23 * 80)) with (80 * 23)%nat. change (Z.to_nat (24 * 80 - 23 * 80)) with 80%nat.
  set (top := take (23 * 80) (drop 80 (concat rows))).
  assert (top = concat (take 23 (drop 1 rows))) as Htop.
  { unfold top. rewrite <-(take_concat 80) by (by apply Forall_drop).
    f_equal. rewrite <-(drop_concat 80) by done. done. }
  assert (length top = (80 * 23)%nat) as Hlen.
  { unfold top. rewrite length_take, length_drop, Hl. lia. }
  rewrite take_app_length' by done. rewrite <-Hlen, drop_app_add.
  rewrite Htop, !concat_app. cbn [concat]. rewrite app_nil_r. f_equal. f_equal.
  rewrite drop_drop. by apply (drop_concat 80 24).
Qed.

Lemma next_row_ok g : page_ok g -> page_ok (next_row g).
Proof.
  intros [Hh Hw Hr Hc]. unfold next_row. destruct (Nat.ltb_spec (pg_row g) 23); constructor; cbn [pg_rows pg_row pg_col]; try done; try lia.
  - rewrite !length_app, length_take, !length_drop, Hh. done.
  - apply Forall_app. split; [by apply Forall_take, Forall_drop|].
    apply Forall_app. split; [|by apply Forall_drop]. constructor; [apply length_replicate|constructor].
Qed.

Lemma put_rows_ok g v :
  page_ok g -> page_ok (mkpage (alter (fun r => <[pg_col g := v]> r) (pg_row g) (pg_rows g)) (pg_row g) (pg_col g)).
Proof.
  intros [Hh Hw Hr Hc]. constructor; cbn [pg_rows pg_row pg_col]; try done; [by rewrite length_alter|].
  apply Forall_alter; [done|]. intros r _ Hl. by rewrite length_insert.
Qed.

Lemma put_byte_ok g c : page_ok g -> page_ok (put_byte g c).
Proof.
  intros Hg. unfold put_byte. destruct (c =? NL); [by apply next_row_ok|].
  pose proof (put_rows_ok g (7 * 256 + c) Hg) as Hp.
  destruct (Nat.ltb_spec (pg_col g) 79); [|by apply next_row_ok].
  destruct Hp as [Hh Hw Hr Hc]. constructor; try done. cbn [pg_col]. lia.
Qed.

(** A step of the cursor to the next row, as [cgaputc] computes it. *)
Lemma next_row_screen d g pos :
  page_ok g -> pos = 80 * (Z.of_nat (pg_row g) + 1) ->
  (if 24 <=? Z.quot pos 80
   then d <| cons_pos := pos - 80 |> <| cons_crt := crt_clear (pos - 80) (crt_scroll (concat (pg_rows g))) |>
   else d <| cons_pos := pos |> <| cons_crt := concat (pg_rows g) |>)
  = d <| cons_pos := 80 * Z.of_nat (pg_row (next_row g)) + Z.of_nat (pg_col (next_row g)) |>
      <| cons_crt := concat (pg_rows (next_row g)) |>.
Proof.
  intros [Hh Hw Hr Hc] ->. rewrite Z.mul_comm, Z.quot_mul by lia. unfold next_row.
  destruct (Nat.ltb_spec (pg_row g) 23).
  - replace (24 <=? Z.of_nat (pg_row g) + 1) with false by lia. cbn [pg_row pg_col pg_rows].
    f_equal. f_equal. lia.
  - replace (pg_row g) with 23%nat by lia. cbn [pg_row pg_col pg_rows].
    change ((Z.of_nat 23 + 1) * 80 - 80) with (23 * 80). rewrite scroll_rows by done. done.
Qed.

Lemma glyph c : 0 <= c < 256 -> Z.lor c 1792 = 7 * 256 + c.
Proof.
  intros Hc. assert (forallb (fun n => Z.lor (Z.of_nat n) 1792 =? 7 * 256 + Z.of_nat n) (seq 0 256) = true) as H
    by (vm_compute; reflexivity).
  rewrite forallb_forall in H. specialize (H (Z.to_nat c)).
  rewrite Z2Nat.id in H by lia. apply Z.eqb_eq, H, in_seq. lia.
Qed.

(** One byte on the screen. *)
Lemma cga_put_page c c' d g :
  shows d g -> sent_as c c' ->
  cga_put c' d = d <| cons_crt := concat (pg_rows (put_byte g c)) |>
    <| cons_pos := 80 * Z.of_nat (pg_row (put_byte g c)) + Z.of_nat (pg_col (put_byte g c)) |>.
Proof.
  intros [Hg Hcrt Hpos] [Hr Hc]. pose proof (pg_col_ok _ Hg) as Hcol. pose proof (pg_row_ok _ Hg) as Hrow.
  assert (0 <= c < 256) as Hb by (subst c; apply u8_range).
  assert ((c' =? NL) = (c =? NL)) as Hnl.
  { subst c. unfold u8, NL. change (2 ^ 8) with 256. Z.to_euclidean_division_equations. lia. }
  unfold cga_put, put_byte. replace (c' =? BACKSPACE) with false by (unfold BACKSPACE; lia).
  rewrite Hnl, Hcrt. destruct (c =? NL).
  - rewrite (next_row_screen d g); [done|done|]. rewrite Hpos, Z.rem_mod_nonneg by lia.
    Z.to_euclidean_division_equations. lia.
  - change (Z.land c' 255) with (Z.land c' (Z.ones 8)). rewrite Z.land_ones by lia.
    change (c' mod 2 ^ 8) with (u8 c'). rewrite Hc, glyph by done.
    replace (Z.to_nat (cons_pos d)) with (80 * pg_row g + pg_col g)%nat by lia.
    rewrite <-(insert_concat 80) by (done || apply Hg).
    pose proof (put_rows_ok g (7 * 256 + c) Hg) as Hp.
    set (g1 := mkpage _ _ _) in Hp. change (alter _ _ _) with (pg_rows g1).
    destruct (Nat.ltb_spec (pg_col g) 79).
    + rewrite (proj2 (Z.leb_gt _ _)).
      * cbn [pg_rows pg_row pg_col]. rewrite Hpos. by replace (80 * Z.of_nat (pg_row g) + Z.of_nat (pg_col g) + 1)
          with (80 * Z.of_nat (pg_row g) + Z.of_nat (S (pg_col g))) by lia.
      * rewrite Z.quot_div_nonneg by lia. apply Z.div_lt_upper_bound; lia.
    + by rewrite (next_row_screen d g1) by (done || (cbn [g1 pg_row]; lia)).
Qed.

Lemma written_shows cs g d : page_ok g -> shows (written cs g d) (fold_left put_byte cs g).
Proof.
  intros Hg. constructor; [|done|done]. revert g Hg.
  induction cs as [|c cs IH]; intros g Hg; simpl; [done|]. by apply IH, put_byte_ok.
Qed.

Lemma cons_put_written c c' d g :
  shows d g -> sent_as c c' -> cons_put d c' = written [c] g d.
Proof.
  intros Hs Hc. unfold cons_put, serial_chars, written. cbn [fold_left].
  replace (c' =? BACKSPACE) with false by (destruct Hc; unfold BACKSPACE; lia).
  rewrite (proj2 Hc). destruct (cons_uart d).
  - rewrite (cga_put_page c c' _ g); [done|by destruct Hs|done].
  - rewrite (cga_put_page c c' _ g) by done. rewrite app_nil_r. by destruct d.
Qed.

Lemma emit_written cs cs' d g :
  shows d g -> Forall2 sent_as cs cs' -> emit cs' d = written cs g d.
Proof.
  intros Hs Hm. revert d g Hs. induction Hm as [|c c' cs cs' Hc _ IH]; intros d g Hs.
  - unfold written. simpl. destruct Hs as [_ <- <-]. replace (if cons_uart d then [] else []) with (@nil Z) by (by destruct (cons_uart d)).
    rewrite app_nil_r. by destruct d.
  - change (emit (c' :: cs') d) with (emit cs' (cons_put d c')).
    rewrite (cons_put_written c c' d g) by done.
    rewrite (IH _ (put_byte g c)) by (apply (written_shows [c]), Hs).
    unfold written. rsimpl. rewrite <-app_assoc. by destruct (cons_uart d).
Qed.

(** C36: [cprintf] prints what its format says.  With a working console, the
    console lock free and arguments that suit the format, [cprintf] returns;
    the text it stands for, with [%d] as a signed decimal numeral, [%x] and
    [%p] as hexadecimal ones and [%s] as the string, has been written to the
    screen from the cursor on, a row that is full or ended by a newline
    followed by the next one and the page scrolled at the bottom, and sent to
    the serial port; the rest of the console and of the kernel and the locks
    are as they were. *)
Theorem cprintf_prints_format fmt args k e :
  cpu_ok (k_cpu k) -> L_cons ∉ c_held (k_cpu k) -> cons_ok (k_cons k) -> fits fmt args = true ->
  exists g cs, shows (k_cons k) g /\ says fmt args cs /\
  cprintf fmt args k e =
    Ret tt (k <| k_cons := written cs g (k_cons k) |>
              <| k_cpu := if cons_locking (k_cons k) then cpu_touch (k_cpu k)
                          else k_cpu k |>) e.
Proof.
  intros Hcpu Hfree Hok Hf. destruct (cons_shows _ Hok) as (g & Hg).
  destruct (fits_says fmt args Hf) as (cs & cs' & Hs & Hfmt & Hm). exists g, cs.
  split_and!; [done|done|]. rewrite <-(emit_written cs cs') by done. by apply cprintf_run.
Qed.

(** "pid 7: -3" on the console of the booted kernel. *)
Lemma cprintf_prints_format_witness :
  (exists g cs, shows (k_cons boot_kernel) g /\ says (bytes "pid %d: %d") [PInt 7; PInt (-3)] cs /\
    cprintf (bytes "pid %d: %d") [PInt 7; PInt (-3)] boot_kernel [] =
    Ret tt (boot_kernel <| k_cons := written cs g (k_cons boot_kernel) |>
      <| k_cpu := if cons_locking (k_cons boot_kernel) then cpu_touch (k_cpu boot_kernel)
                  else k_cpu boot_kernel |>) []) /\
  exists k', cprintf (bytes "pid %d: %d") [PInt 7; PInt (-3)] boot_kernel [] = Ret tt k' [] /\
    cons_serial (k_cons k') = bytes "pid 7: -3".
Proof.
  split; [|eexists; split; vm_compute; reflexivity].
  apply (cprintf_prints_format (bytes "pid %d: %d") [PInt 7; PInt (-3)] boot_kernel []).
  - by split; [done|constructor|].
  - by apply not_elem_of_nil.
  - by split.
  - reflexivity.
Defined.
