(* ===== verification/Float32.v ===== *)
(** The C [float] and [double] arithmetic that proc.c uses, as IEEE binary32
    and binary64 with rounding to nearest after every operation (the
    Standard Library's executable [SpecFloat]), and the order of [float]s. *)

From Stdlib Require Import SpecFloat.
From S2P Require Import Prelude.

Definition f32_of_Z (z : Z) : spec_float := binary_normalize 24 128 z 0 false.

Definition convert (prec emax : Z) (x : spec_float) : spec_float :=
  match x with
  | S754_finite s m e => binary_normalize prec emax (cond_Zopp s (Zpos m)) e s
  | _ => x
  end.

Definition f64_of_f32 : spec_float -> spec_float := convert 53 1024.
Definition f32_of_f64 : spec_float -> spec_float := convert 24 128.
Definition f32_add : spec_float -> spec_float -> spec_float := SFadd 24 128.
Definition f32_mul : spec_float -> spec_float -> spec_float := SFmul 24 128.
Definition f64_add : spec_float -> spec_float -> spec_float := SFadd 53 1024.
Definition f32_lt : spec_float -> spec_float -> bool := SFltb.

(** The [double] literal [0.1]. *)
Definition f64_tenth : spec_float := S754_finite false 7205759403792794 (-56).

(** [x += 0.1] on a [float] [x]. *)
Definition f32_add_tenth (x : spec_float) : spec_float :=
  f32_of_f64 (f64_add (f64_of_f32 x) f64_tenth).

(** [(int) x]: truncation toward zero (of a value in range). *)
Definition f32_to_Z (x : spec_float) : Z :=
  match x with
  | S754_finite s m e =>
      cond_Zopp s (if 0 <=? e then Zpos m * 2 ^ e else Zpos m / 2 ^ (- e))
  | _ => 0
  end.

Example tenth_ten_times :
  f32_to_Z (f32_mul (Nat.iter 10 f32_add_tenth (f32_of_Z 0)) (f32_of_Z 10)) = 10.
Proof. reflexivity. Qed.

(** The comparison of floats is a strict order. *)

Lemma f32_lt_irrefl x : f32_lt x x = false.
Proof.
  unfold f32_lt, SFltb. destruct x as [s|s| |s m e]; simpl; try done; try by destruct s.
  rewrite Z.compare_refl. change (Pcompare m m Eq) with (Pos.compare m m).
  rewrite Pos.compare_refl. by destruct s.
Qed.

Lemma f32_lt_trans x y z : f32_lt x y = true -> f32_lt y z = true -> f32_lt x z = true.
Proof.
  unfold f32_lt, SFltb.
  destruct x as [s1|s1| |s1 m1 e1], y as [s2|s2| |s2 m2 e2], z as [s3|s3| |s3 m3 e3];
    simpl; try done;
    repeat match goal with b : bool |- _ => destruct b end; try done.
  all: change (PosDef.Pos.compare_cont Eq m1 m2) with (m1 ?= m2)%positive;
    change (PosDef.Pos.compare_cont Eq m2 m3) with (m2 ?= m3)%positive;
    change (PosDef.Pos.compare_cont Eq m1 m3) with (m1 ?= m3)%positive.
  all: destruct (Z.compare_spec e1 e2), (Z.compare_spec e2 e3), (Z.compare_spec e1 e3);
    try done; try lia.
  all: destruct (Pos.compare_spec m1 m2), (Pos.compare_spec m2 m3), (Pos.compare_spec m1 m3);
    try done; lia.
Qed.
