(* ===== verification/Proc.v ===== *)
(** Processes giving up and regaining the CPU (proc.c): [myproc], [sched],
    [yield], [sleep], [wakeup], [kill], and the system calls that set the
    scheduling parameters of a process. *)

From S2P Require Import Prelude Types Spinlock Float32.

Definition myproc : K (option nat) :=
  pushcli ;;
  p ← gets (fun k => c_proc (k_cpu k));
  popcli ;;
  mret p.

(** [myproc()], where the result is dereferenced. *)
Definition curproc : K nat := p ← myproc; deref "myproc() is null" p.

(** A loop over [ptable.proc]. *)
Definition for_procs (body : nat -> proc -> K unit) : K unit :=
  for_each (seq 0 NPROC) (fun i => p ← get_proc i; body i p).

Definition search_procs {R} (body : nat -> proc -> K (option R)) : K (option R) :=
  for_loop (seq 0 NPROC) (fun i => p ← get_proc i; body i p).

(** ** swtch and sched *)

(** [swtch(&p->context, mycpu()->scheduler)]: the slices of the environment
    run until one ends with the scheduler having switched to process [i]. *)
Fixpoint swtch_loop (i : nat) (k : kernel) (e : env) : outcome kernel unit :=
  match e with
  | [] => Parked k
  | slice :: e' =>
      let k' := slice k in
      if bool_decide (p_state <$> k_procs k' !! i = Some RUNNING)
         && bool_decide (c_proc (k_cpu k') = Some i)
      then Ret tt k' e'
      else swtch_loop i k' e'
  end.
Definition swtch (i : nat) : K unit := swtch_loop i.

Definition sched : K unit :=
  i ← curproc;
  h ← holding L_ptable;
  if negb h then panic "sched ptable.lock" else
  n ← gets (fun k => c_ncli (k_cpu k));
  if negb (n =? 1) then panic "sched locks" else
  p ← get_proc i;
  if bool_decide (p_state p = RUNNING) then panic "sched running" else
  ifl ← gets (fun k => c_if (k_cpu k));
  if ifl : bool then panic "sched interruptible" else
  intena ← gets (fun k => c_intena (k_cpu k));
  swtch i ;;
  modify (fun k => k <| k_cpu := k_cpu k <| c_intena := intena |> |>).

Definition yield : K unit :=
  acquire L_ptable ;;
  i ← curproc;
  upd_proc i (fun p => p <| p_state := RUNNABLE |>) ;;
  i ← curproc;
  upd_proc i (fun p => p <| p_executed_cycle := f32_add_tenth (p_executed_cycle p) |>) ;;
  sched ;;
  release L_ptable.

(** ** sleep and wakeup *)

Definition sleep (ch : chan) (lk : option lockid) : K unit :=
  p ← myproc;
  match p, lk with
  | None, _ => panic "sleep"
  | _, None => panic "sleep without lk"
  | Some i, Some lk =>
      (if decide (lk <> L_ptable) then acquire L_ptable ;; release lk else mret tt) ;;
      upd_proc i (fun p => p <| p_chan := Some ch |>) ;;
      upd_proc i (fun p => p <| p_state := SLEEPING |>) ;;
      sched ;;
      upd_proc i (fun p => p <| p_chan := None |>) ;;
      (if decide (lk <> L_ptable) then release L_ptable ;; acquire lk else mret tt)
  end.

Definition wakeup1 (ch : chan) : K unit :=
  for_procs (fun i p =>
    if bool_decide (p_state p = SLEEPING) && bool_decide (p_chan p = Some ch)
    then upd_proc i (fun p => p <| p_state := RUNNABLE |>)
    else mret tt).

Definition wakeup (ch : chan) : K unit :=
  acquire L_ptable ;; wakeup1 ch ;; release L_ptable.

(** ** kill and the scheduling parameters *)

Definition kill (pid : Z) : K Z :=
  acquire L_ptable ;;
  r ← search_procs (fun i p =>
    if p_pid p =? pid then
      upd_proc i (fun p => p <| p_killed := 1 |>) ;;
      (if bool_decide (p_state p = SLEEPING)
       then upd_proc i (fun p => p <| p_state := RUNNABLE |>) else mret tt) ;;
      release L_ptable ;;
      mret (Some 0)
    else mret None);
  match r with
  | Some v => mret v
  | None => release L_ptable ;; mret (-1)
  end.

Definition set_proc_queue (pid queue : Z) : K unit :=
  acquire L_ptable ;;
  for_procs (fun i p =>
    if p_pid p =? pid then upd_proc i (fun p => p <| p_queue := queue |>) else mret tt) ;;
  release L_ptable.

Definition set_lottery_params (pid ticket_chance : Z) : K unit :=
  acquire L_ptable ;;
  for_procs (fun i p =>
    if p_pid p =? pid then upd_proc i (fun p => p <| p_tickets := ticket_chance |>)
    else mret tt) ;;
  release L_ptable.

Definition set_bjf (pr ar er : Z) (p : proc) : proc :=
  p <| p_priority_ratio := pr |> <| p_arrival_time_ratio := ar |>
    <| p_executed_cycle_ratio := er |>.

Definition set_a_proc_bjf_params (pid pr ar er : Z) : K unit :=
  acquire L_ptable ;;
  for_procs (fun i p =>
    if p_pid p =? pid then upd_proc i (set_bjf pr ar er) else mret tt) ;;
  release L_ptable.

Definition set_all_bjf_params (pr ar er : Z) : K unit :=
  acquire L_ptable ;;
  for_procs (fun i _ => upd_proc i (set_bjf pr ar er)) ;;
  release L_ptable.

Definition get_parent_pid : K Z :=
  i ← curproc;
  p ← get_proc i;
  pp ← deref "process has no parent" (p_parent p);
  q ← get_proc pp;
  mret (p_pid q).

(** ** Execution lemmas *)

Definition procs_ok (k : kernel) : Prop := length (k_procs k) = NPROC.

Section Run.
  Implicit Types (k : kernel) (e : env) (i : nat) (p : proc).

Lemma myproc_run k e :
  cpu_sane (k_cpu k) ->
  myproc k e = Ret (c_proc (k_cpu k)) (k <| k_cpu := cpu_touch (k_cpu k) |>) e.
Proof.
  intros Hs. unfold myproc. mcall pushcli_run. mrun.
  mcall popcli_run; [done|rsimpl; destruct Hs; lia|]. rsimpl.
  rewrite cpu_touch_proc, mret_run. f_equal.
  transitivity (k <| k_cpu := (cpu_touch (k_cpu k) <| c_if := false |>
      <| c_ncli := c_ncli (k_cpu k) + 1 |>)
    <| c_if := (c_ncli (k_cpu k) + 1 =? 1) && c_intena (cpu_touch (k_cpu k)) |>
    <| c_ncli := c_ncli (k_cpu k) + 1 - 1 |> |>); [reflexivity|].
  by rewrite pushcli_popcli_cpu.
Qed.

Lemma curproc_run i k e :
  cpu_sane (k_cpu k) -> c_proc (k_cpu k) = Some i ->
  curproc k e = Ret i (k <| k_cpu := cpu_touch (k_cpu k) |>) e.
Proof.
  intros Hs Hp. unfold curproc. mcall myproc_run; [done|]. by rewrite Hp.
Qed.

Lemma get_proc_run i p k e :
  k_procs k !! i = Some p -> get_proc i k e = Ret p k e.
Proof. intros Hp. unfold get_proc. mrun. by rewrite Hp. Qed.

(** A loop that rewrites each entry of the table by itself is a [map]; [I]
    is what the passes rely on of the rest of the state. *)
Lemma for_each_map_inv (I : kernel -> Prop) (f : proc -> proc)
    (body : nat -> proc -> K unit) (n : nat) :
  (forall i p k e, I k -> k_procs k !! i = Some p ->
     body i p k e = Ret tt (k <| k_procs := <[i := f p]> (k_procs k) |>) e) ->
  (forall k l, I k -> I (k <| k_procs := l |>)) ->
  forall lo k e, I k -> (lo + n = length (k_procs k))%nat ->
  for_each (seq lo n) (fun i => p ← get_proc i; body i p) k e =
  Ret tt (k <| k_procs := take lo (k_procs k) ++ map f (drop lo (k_procs k)) |>) e.
Proof.
  intros Hbody Hinv. induction n as [|n IH]; intros lo k e Hk Hlen; simpl.
  - rewrite mret_run, take_ge, drop_ge by lia. simpl. rewrite app_nil_r. by destruct k.
  - destruct (lookup_lt_is_Some_2 (k_procs k) lo) as [p Hp]; [lia|].
    rewrite bind_assoc. mcall get_proc_run; [done|]. mcall Hbody; [done|done|].
    rewrite IH by (first [by apply Hinv | rsimpl; rewrite length_insert; lia]). rsimpl. do 2 f_equal.
    rewrite (drop_S _ _ _ Hp). simpl.
    rewrite (take_S_r _ lo (f p)) by (rewrite list_lookup_insert_eq; [done|by eapply lookup_lt_Some]).
    rewrite take_insert_ge, drop_insert_lt by lia. by rewrite <- app_assoc.
Qed.

Lemma for_procs_map_inv (I : kernel -> Prop) (f : proc -> proc)
    (body : nat -> proc -> K unit) k e :
  procs_ok k -> I k ->
  (forall i p k e, I k -> k_procs k !! i = Some p ->
     body i p k e = Ret tt (k <| k_procs := <[i := f p]> (k_procs k) |>) e) ->
  (forall k l, I k -> I (k <| k_procs := l |>)) ->
  for_procs body k e = Ret tt (k <| k_procs := map f (k_procs k) |>) e.
Proof.
  intros Hok Hk Hbody Hinv. unfold for_procs. rewrite (for_each_map_inv I f) by done.
  by rewrite drop_0.
Qed.

Lemma for_procs_map (f : proc -> proc) (body : nat -> proc -> K unit) k e :
  procs_ok k ->
  (forall i p k e, k_procs k !! i = Some p ->
     body i p k e = Ret tt (k <| k_procs := <[i := f p]> (k_procs k) |>) e) ->
  for_procs body k e = Ret tt (k <| k_procs := map f (k_procs k) |>) e.
Proof. intros Hok Hbody. apply (for_procs_map_inv (fun _ => True)); auto. Qed.

Lemma upd_proc_run f i p k e :
  k_procs k !! i = Some p ->
  upd_proc i f k e = Ret tt (k <| k_procs := <[i := f p]> (k_procs k) |>) e.
Proof.
  intros Hp. unfold upd_proc, modify. do 2 f_equal. by apply list_alter_lookup.
Qed.

Lemma upd_if_run (b : bool) f i p k e :
  k_procs k !! i = Some p ->
  (if b then upd_proc i f else mret tt) k e =
  Ret tt (k <| k_procs := <[i := if b then f p else p]> (k_procs k) |>) e.
Proof.
  intros Hp. destruct b; [by apply upd_proc_run|].
  rewrite list_insert_id by done. rewrite mret_run. by destruct k.
Qed.

(** A search loop finds the first entry its test accepts, or none. *)
Lemma search_procs_find {R} (P : proc -> bool) (body : nat -> proc -> K (option R)) n :
  (forall i p k e, k_procs k !! i = Some p -> P p = false -> body i p k e = Ret None k e) ->
  forall lo k e, (lo + n = length (k_procs k))%nat ->
  for_loop (seq lo n) (fun i => p ← get_proc i; body i p) k e =
  match list_find (fun p => P p = true) (drop lo (k_procs k)) with
  | None => Ret None k e
  | Some (j, p) =>
      (r ← body (lo + j)%nat p;
       match r with
       | Some v => mret (Some v)
       | None => for_loop (seq (lo + S j) (n - S j)) (fun i => p ← get_proc i; body i p)
       end) k e
  end.
Proof.
  intros Hskip. induction n as [|n IH]; intros lo k e Hlen; simpl.
  - by rewrite drop_ge by lia.
  - destruct (lookup_lt_is_Some_2 (k_procs k) lo) as [p Hp]; [lia|].
    rewrite bind_assoc. mcall get_proc_run; [done|]. rewrite (drop_S _ _ _ Hp). simpl.
    case_decide as HP.
    + rewrite Nat.add_0_r, Nat.sub_0_r. by replace (lo + 1)%nat with (S lo) by lia.
    + apply not_true_is_false in HP. mcall Hskip; [done|done|].
      rewrite IH by lia. destruct (list_find _ _) as [[j q]|]; simpl; [|done].
      by rewrite !Nat.add_succ_r.
Qed.

(** The body of a [ptable.lock] critical section that only changes the
    process table. *)
Lemma ptable_section (body : K unit) (f : list proc -> list proc) k e :
  cpu_ok (k_cpu k) -> L_ptable ∉ c_held (k_cpu k) ->
  (forall c, body (k <| k_cpu := c |>) e =
     Ret tt (k <| k_cpu := c |> <| k_procs := f (k_procs k) |>) e) ->
  (acquire L_ptable ;; body ;; release L_ptable) k e =
  Ret tt (k <| k_procs := f (k_procs k) |> <| k_cpu := cpu_touch (k_cpu k) |>) e.
Proof.
  intros Hcpu Hfree Hbody. mcall acquire_run; [done|done|]. mcall Hbody.
  rewrite release_run; rsimpl.
  - by rewrite cpu_rel_acq.
  - by apply cpu_acq_ok.
  - apply list_elem_of_here.
Qed.

Lemma procs_map_section (f : proc -> proc) (body : nat -> proc -> K unit) k e :
  cpu_ok (k_cpu k) -> L_ptable ∉ c_held (k_cpu k) -> procs_ok k ->
  (forall i p k e, k_procs k !! i = Some p ->
     body i p k e = Ret tt (k <| k_procs := <[i := f p]> (k_procs k) |>) e) ->
  (acquire L_ptable ;; for_procs body ;; release L_ptable) k e =
  Ret tt (k <| k_procs := map f (k_procs k) |> <| k_cpu := cpu_touch (k_cpu k) |>) e.
Proof.
  intros. apply (ptable_section _ (map f)); try done.
  intros c. by rewrite (for_procs_map f).
Qed.
End Run.

(** What [wakeup1] does to one entry. *)
Definition wake (ch : chan) (p : proc) : proc :=
  if bool_decide (p_state p = SLEEPING) && bool_decide (p_chan p = Some ch)
  then p <| p_state := RUNNABLE |> else p.

(** What [kill] does to the entry it finds. *)
Definition killed (p : proc) : proc :=
  let p1 := p <| p_killed := 1 |> in
  if bool_decide (p_state p = SLEEPING) then p1 <| p_state := RUNNABLE |> else p1.

Section Run2.
  Implicit Types (k : kernel) (e : env) (i : nat) (p : proc).

Lemma wakeup1_run ch k e :
  procs_ok k ->
  wakeup1 ch k e = Ret tt (k <| k_procs := map (wake ch) (k_procs k) |>) e.
Proof.
  intros Hok. unfold wakeup1. apply for_procs_map; [done|].
  intros. by rewrite (upd_if_run _ _ _ p) by done.
Qed.

Lemma wakeup_run ch k e :
  cpu_ok (k_cpu k) -> L_ptable ∉ c_held (k_cpu k) -> procs_ok k ->
  wakeup ch k e =
  Ret tt (k <| k_procs := map (wake ch) (k_procs k) |> <| k_cpu := cpu_touch (k_cpu k) |>) e.
Proof.
  intros. unfold wakeup. apply (ptable_section _ (map (wake ch))); try done.
  intros c. by rewrite wakeup1_run.
Qed.

Lemma kill_run pid k e :
  cpu_ok (k_cpu k) -> L_ptable ∉ c_held (k_cpu k) -> procs_ok k ->
  kill pid k e =
  match list_find (fun p => (p_pid p =? pid) = true) (k_procs k) with
  | Some (i, p) => Ret 0 (k <| k_procs := <[i := killed p]> (k_procs k) |>
                            <| k_cpu := cpu_touch (k_cpu k) |>) e
  | None => Ret (-1) (k <| k_cpu := cpu_touch (k_cpu k) |>) e
  end.
Proof.
  intros Hcpu Hfree Hok. unfold kill. mcall acquire_run; [done|done|].
  unfold search_procs.
  pose proof (cpu_acq_ok _ _ Hcpu Hfree) as Hacq.
  unfold mbind at 1, M_bind at 1.
  rewrite (search_procs_find (fun p => p_pid p =? pid)) by (try done; by intros ? ? ? ? _ ->).
  rsimpl. rewrite drop_0. destruct (list_find _ _) as [[i p]|] eqn:Hf.
  - apply list_find_Some in Hf as (Hp & Hpid & _). rewrite Nat.add_0_l, Hpid.
    rewrite bind_assoc. mcall (upd_proc_run _ i p); [done|]. rewrite bind_assoc.
    assert (forall (b : bool) k0 e0, k_procs k0 !! i = Some (p <| p_killed := 1 |>) ->
      (if b then upd_proc i (fun p0 => p0 <| p_state := RUNNABLE |>) else mret tt) k0 e0 =
      Ret tt (k0 <| k_procs := <[i := if b then p <| p_killed := 1 |> <| p_state := RUNNABLE |>
                          else p <| p_killed := 1 |>]> (k_procs k0) |>) e0) as Hu
      by (intros; by rewrite (upd_if_run _ _ _ (p <| p_killed := 1 |>))).
    mcall Hu; [rsimpl; apply list_lookup_insert_eq; by eapply lookup_lt_Some|].
    rsimpl. rewrite bind_assoc.
    mcall release_run; rsimpl; [done|apply list_elem_of_here|]. mrun.
    rewrite cpu_rel_acq, list_insert_insert_eq by done. unfold killed. by case_bool_decide.
  - mcall release_run; [done|rsimpl; apply list_elem_of_here|]. rsimpl. by rewrite cpu_rel_acq.
Qed.

Lemma sched_run i p k e :
  cpu_ok (k_cpu k) -> c_held (k_cpu k) = [L_ptable] -> c_proc (k_cpu k) = Some i ->
  k_procs k !! i = Some p -> p_state p <> RUNNING ->
  sched k e =
  match swtch_loop i k e with
  | Ret _ k' e' =>
      Ret tt (k' <| k_cpu := k_cpu k' <| c_intena := c_intena (k_cpu k) |> |>) e'
  | o => o
  end.
Proof.
  intros Hcpu Hheld Hcur Hp Hst. pose proof (cpu_ok_sane _ Hcpu) as Hs.
  assert (c_ncli (k_cpu k) = 1) as Hn by (rewrite (cpu_ncli _ Hcpu), Hheld; done).
  assert (k <| k_cpu := cpu_touch (k_cpu k) |> = k) as Ht
    by (rewrite cpu_touch_cli by lia; by destruct k).
  assert (c_if (k_cpu k) = false) as Hif by (apply (cpu_cli _ Hcpu); by rewrite Hheld).
  unfold sched. mcall curproc_run; [done|done|]. rewrite Ht.
  mcall holding_run; [done|]. rewrite Ht.
  rewrite bool_decide_true by (rewrite Hheld; apply list_elem_of_here). simpl.
  mrun. rewrite Hn. simpl. mcall get_proc_run; [done|].
  rewrite bool_decide_false by done. mrun. rewrite Hif. mrun.
  unfold mbind, M_bind, swtch. by destruct (swtch_loop i k e).
Qed.
End Run2.

(** ** sleep *)

Section Sleep.
  Context (i : nat) (p : proc) (ch : chan) (lk : lockid) (k : kernel).
  Hypothesis Hcpu : cpu_ok (k_cpu k).
  Hypothesis Hheld : c_held (k_cpu k) = [lk].
  Hypothesis Hlk : lk <> L_ptable.
  Hypothesis Hcur : c_proc (k_cpu k) = Some i.
  Hypothesis Hp : k_procs k !! i = Some p.

(** The state in which the sleeper hands the CPU over. *)
Definition asleep : kernel :=
  k <| k_cpu := cpu_rel lk (cpu_acq L_ptable (k_cpu k)) |>
    <| k_procs := <[i := p <| p_chan := Some ch |> <| p_state := SLEEPING |>]> (k_procs k) |>.

Lemma asleep_held : c_held (k_cpu asleep) = [L_ptable].
Proof.
  unfold asleep, cpu_rel, cpu_acq. rsimpl. rewrite Hheld.
  rewrite filter_cons_True by done. by rewrite filter_cons_False by tauto.
Qed.

Lemma asleep_cpu_ok : cpu_ok (k_cpu asleep).
Proof.
  unfold asleep. rsimpl. apply cpu_rel_ok.
  - apply cpu_acq_ok; [done|]. rewrite Hheld. set_solver.
  - unfold cpu_acq. rsimpl. rewrite Hheld. set_solver.
Qed.

Lemma asleep_proc :
  k_procs asleep !! i = Some (p <| p_chan := Some ch |> <| p_state := SLEEPING |>).
Proof. apply list_lookup_insert_eq. by eapply lookup_lt_Some. Qed.

(** [sleep] up to the switch, and what it does when it is resumed by a
    scheduler that holds only [ptable.lock]. *)
Lemma sleep_run e :
  sleep ch (Some lk) k e =
  match swtch_loop i asleep e with
  | Ret _ k' e' =>
      (upd_proc i (fun p => p <| p_chan := None |>) ;; release L_ptable ;; acquire lk)
        (k' <| k_cpu := k_cpu k' <| c_intena := c_intena (k_cpu asleep) |> |>) e'
  | o => o
  end.
Proof.
  unfold sleep. mcall myproc_run; [by apply cpu_ok_sane|]. rewrite Hcur.
  assert (c_ncli (k_cpu k) = 1) as Hn by (rewrite (cpu_ncli _ Hcpu), Hheld; done).
  rewrite cpu_touch_cli by lia. rewrite !decide_True by done.
  rewrite bind_assoc.
  replace (k <| k_cpu := k_cpu k |>) with k by (by destruct k).
  mcall acquire_run; [done|rewrite Hheld; set_solver|].
  mcall release_run; rsimpl; [apply cpu_acq_ok; rewrite ?Hheld; set_solver
    |unfold cpu_acq; rsimpl; rewrite Hheld; set_solver|].
  mcall upd_proc_run; [exact Hp|]. mcall upd_proc_run.
  { rsimpl. apply list_lookup_insert_eq. by eapply lookup_lt_Some. }
  rsimpl. rewrite list_insert_insert_eq. fold asleep.
  unfold mbind at 1, M_bind at 1.
  rewrite (sched_run i _ asleep e asleep_cpu_ok asleep_held) by
    (first [done | apply asleep_proc | unfold asleep, cpu_rel, cpu_acq; rsimpl;
            by rewrite cpu_touch_proc]).
  by destruct (swtch_loop i asleep e).
Qed.

Lemma sleep_resume k' e :
  cpu_ok (k_cpu k') -> c_held (k_cpu k') = [L_ptable] ->
  exists c,
  (upd_proc i (fun p => p <| p_chan := None |>) ;; release L_ptable ;; acquire lk) k' e =
  Ret tt (k' <| k_cpu := c |>
             <| k_procs := alter (fun p => p <| p_chan := None |>) i (k_procs k') |>) e /\
  c_held c = [lk] /\ c_proc c = c_proc (k_cpu k') /\ cpu_ok c.
Proof using Type.
  intros Hok Hh. exists (cpu_acq lk (cpu_rel L_ptable (k_cpu k'))).
  assert (c_held (cpu_rel L_ptable (k_cpu k')) = []) as H0
    by (unfold cpu_rel; rsimpl; by rewrite Hh, filter_cons_False by tauto).
  assert (cpu_ok (cpu_rel L_ptable (k_cpu k'))) as Hrel
    by (apply cpu_rel_ok; [done|rewrite Hh; apply list_elem_of_here]).
  repeat split; try (apply cpu_acq_ok; [done|rewrite H0; apply not_elem_of_nil]).
  - unfold upd_proc. mrun. mcall release_run; rsimpl; [done|rewrite Hh; apply list_elem_of_here|].
    rewrite acquire_run; rsimpl; [done|done|rewrite H0; apply not_elem_of_nil].
  - unfold cpu_acq. rsimpl. by rewrite H0.
  - unfold cpu_acq, cpu_rel. rsimpl. by rewrite cpu_touch_proc.
Qed.
End Sleep.

(** The same for a caller that holds [ptable.lock] itself, as [wait] does: it
    is not taken a second time, and is still held when the call returns. *)
Definition asleep_in (i : nat) (p : proc) (ch : chan) (k : kernel) : kernel :=
  k <| k_procs := <[i := p <| p_chan := Some ch |> <| p_state := SLEEPING |>]> (k_procs k) |>.

Lemma sleep_ptable_run i p ch k e :
  cpu_ok (k_cpu k) -> c_held (k_cpu k) = [L_ptable] -> c_proc (k_cpu k) = Some i -> k_procs k !! i = Some p ->
  sleep ch (Some L_ptable) k e =
  match swtch_loop i (asleep_in i p ch k) e with
  | Ret _ k' e' =>
      Ret tt (k' <| k_cpu := k_cpu k' <| c_intena := c_intena (k_cpu k) |> |>
                 <| k_procs := alter (fun p => p <| p_chan := None |>) i (k_procs k') |>) e'
  | o => o
  end.
Proof.
  intros Hcpu Hheld Hcur Hp. unfold sleep. mcall myproc_run; [by apply cpu_ok_sane|]. rewrite Hcur.
  assert (c_ncli (k_cpu k) = 1) as Hn by (rewrite (cpu_ncli _ Hcpu), Hheld; done).
  rewrite cpu_touch_cli by lia. rewrite !decide_False by tauto.
  replace (k <| k_cpu := k_cpu k |>) with k by (by destruct k). mstep. cbv beta.
  mcall upd_proc_run; [exact Hp|]. mcall upd_proc_run.
  { rsimpl. apply list_lookup_insert_eq. by eapply lookup_lt_Some. }
  rsimpl. rewrite list_insert_insert_eq. fold (asleep_in i p ch k). unfold mbind at 1, M_bind at 1.
  rewrite (sched_run i (p <| p_chan := Some ch |> <| p_state := SLEEPING |>) (asleep_in i p ch k) e); [|done..| |done].
  - by destruct (swtch_loop i (asleep_in i p ch k) e).
  - apply list_lookup_insert_eq. by eapply lookup_lt_Some.
Qed.

(** ** What the calls promise *)

(** [wakeup(chan)] makes RUNNABLE exactly the processes that are SLEEPING
    on [chan]; every other process, and every lock of the caller, is as it
    was, and it always returns. *)
Theorem wakeup_wakes_exactly ch k e :
  cpu_ok (k_cpu k) -> L_ptable ∉ c_held (k_cpu k) -> procs_ok k ->
  exists k', wakeup ch k e = Ret tt k' e /\
    c_held (k_cpu k') = c_held (k_cpu k) /\
    length (k_procs k') = length (k_procs k) /\
    forall i p, k_procs k !! i = Some p ->
      (p_state p = SLEEPING /\ p_chan p = Some ch ->
         k_procs k' !! i = Some (p <| p_state := RUNNABLE |>)) /\
      (~ (p_state p = SLEEPING /\ p_chan p = Some ch) -> k_procs k' !! i = Some p).
Proof.
  intros. eexists. split; [by apply wakeup_run|]. rsimpl.
  rewrite cpu_touch_held, length_map. do 2 (split; [done|]).
  intros i p Hp. rewrite list_lookup_fmap, Hp. simpl. unfold wake.
  repeat case_bool_decide; simpl; tauto.
Qed.

(** A process table in which process 1 runs, process 2 sleeps on the ticks
    and process 3 sleeps on a pipe. *)
Definition demo_procs : list proc :=
  [zero_proc <| p_pid := 1 |> <| p_state := RUNNING |>;
   zero_proc <| p_pid := 2 |> <| p_state := SLEEPING |> <| p_chan := Some Ch_ticks |>;
   zero_proc <| p_pid := 3 |> <| p_state := SLEEPING |> <| p_chan := Some (Ch_nread 0) |>]
  ++ replicate 61 zero_proc.
Definition demo_kernel : kernel :=
  boot_kernel <| k_procs := demo_procs |>
    <| k_cpu := mkcpu (Some 0%nat) 0 false true [] 0 0 |>.

Lemma demo_cpu_ok : cpu_ok (k_cpu demo_kernel).
Proof. split; [done|constructor|done]. Qed.

Lemma wakeup_wakes_exactly_witness :
  exists k', wakeup Ch_ticks demo_kernel [] = Ret tt k' [] /\
    c_held (k_cpu k') = c_held (k_cpu demo_kernel) /\
    length (k_procs k') = length (k_procs demo_kernel) /\
    forall i p, k_procs demo_kernel !! i = Some p ->
      (p_state p = SLEEPING /\ p_chan p = Some Ch_ticks ->
         k_procs k' !! i = Some (p <| p_state := RUNNABLE |>)) /\
      (~ (p_state p = SLEEPING /\ p_chan p = Some Ch_ticks) -> k_procs k' !! i = Some p).
Proof.
  apply (wakeup_wakes_exactly Ch_ticks demo_kernel []);
    [apply demo_cpu_ok | apply not_elem_of_nil | reflexivity].
Defined.

(** [kill(pid)] marks the first process of the table with that pid as
    killed, makes it RUNNABLE if it slept, changes no other process and
    returns 0; when no slot has that pid it returns -1 and changes nothing. *)
Theorem kill_spec pid k e :
  cpu_ok (k_cpu k) -> L_ptable ∉ c_held (k_cpu k) -> procs_ok k ->
  (exists i p k',
     kill pid k e = Ret 0 k' e /\
     k_procs k !! i = Some p /\ p_pid p = pid /\
     (forall j q, (j < i)%nat -> k_procs k !! j = Some q -> p_pid q <> pid) /\
     k_procs k' = <[i := p <| p_killed := 1 |>
       <| p_state := if decide (p_state p = SLEEPING) then RUNNABLE else p_state p |>]>
       (k_procs k) /\ c_held (k_cpu k') = c_held (k_cpu k)) \/
  ((forall i q, k_procs k !! i = Some q -> p_pid q <> pid) /\
   kill pid k e = Ret (-1) (k <| k_cpu := cpu_touch (k_cpu k) |>) e).
Proof.
  intros ? ? ?. rewrite kill_run by done.
  destruct (list_find _ _) as [[i p]|] eqn:Hf; [left|right].
  - apply list_find_Some in Hf as (Hp & Hpid & Hfirst). exists i, p. eexists.
    split; [done|]. split; [done|]. split; [by apply Z.eqb_eq|]. split.
    { intros j q Hj Hq Heq. by apply (Hfirst j q Hq Hj), Z.eqb_eq. }
    rsimpl. rewrite cpu_touch_held. split; [|done].
    unfold killed. case_bool_decide; [by rewrite decide_True|rewrite decide_False by done].
    by destruct p.
  - split; [|done]. intros i q Hq Heq. apply list_find_None in Hf.
    by apply (Forall_lookup_1 _ _ _ _ Hf Hq), Z.eqb_eq.
Qed.

Lemma kill_spec_witness :
  exists k', kill 2 demo_kernel [] = Ret 0 k' [] /\
    (p_state <$> k_procs k' !! 1%nat) = Some RUNNABLE /\
    (p_killed <$> k_procs k' !! 1%nat) = Some 1.
Proof.
  destruct (kill_spec 2 demo_kernel []) as [(i & p & k' & Hk & Hp & Hpid & Hf & Hps & _)|[Hn _]];
    [apply demo_cpu_ok | apply not_elem_of_nil | reflexivity | |].
  - exists k'. split; [exact Hk|]. rewrite Hps.
    destruct i as [|[|i]]; [injection Hp as <-; discriminate Hpid | |].
    + injection Hp as <-. split; reflexivity.
    + exfalso. exact (Hf 1%nat _ (ltac:(lia)) eq_refl eq_refl).
  - exfalso. exact (Hn 1%nat _ eq_refl eq_refl).
Defined.

(** C35: [sleep(chan, lk)] called with [lk] as the only lock held, be it
    [ptable.lock] itself or another, gives up the CPU in a state where the
    caller is SLEEPING on [chan] and [ptable.lock] is the only lock held, so
    that from then on any [wakeup(chan)], by any CPU that gets [ptable.lock],
    makes it RUNNABLE; and once the scheduler runs it again it returns with
    [lk] held as the only lock and its [chan] cleared. *)
Theorem sleep_atomic_handover i p ch lk k e :
  cpu_ok (k_cpu k) -> c_held (k_cpu k) = [lk] ->
  c_proc (k_cpu k) = Some i -> k_procs k !! i = Some p -> procs_ok k ->
  exists k1,
    c_held (k_cpu k1) = [L_ptable] /\
    k_procs k1 = <[i := p <| p_chan := Some ch |> <| p_state := SLEEPING |>]> (k_procs k) /\
    (forall c e2, cpu_ok c -> L_ptable ∉ c_held c ->
       exists k2, wakeup ch (k1 <| k_cpu := c |>) e2 = Ret tt k2 e2 /\
         p_state <$> k_procs k2 !! i = Some RUNNABLE) /\
    (forall k2, swtch_loop i k1 e = Parked k2 -> sleep ch (Some lk) k e = Parked k2) /\
    (forall k2 e2, swtch_loop i k1 e = Ret tt k2 e2 ->
       cpu_ok (k_cpu k2) -> c_held (k_cpu k2) = [L_ptable] ->
       exists c, sleep ch (Some lk) k e =
         Ret tt (k2 <| k_cpu := c |>
           <| k_procs := alter (fun p => p <| p_chan := None |>) i (k_procs k2) |>) e2 /\
         c_held c = [lk] /\ c_proc c = c_proc (k_cpu k2)).
Proof.
  intros Hcpu Hheld Hcur Hp Hok.
  assert (forall k1, k_procs k1 = <[i := p <| p_chan := Some ch |> <| p_state := SLEEPING |>]> (k_procs k) ->
    forall c e2, cpu_ok c -> L_ptable ∉ c_held c ->
      exists k2, wakeup ch (k1 <| k_cpu := c |>) e2 = Ret tt k2 e2 /\ p_state <$> k_procs k2 !! i = Some RUNNABLE) as Hw.
  { intros k1 E c e2 Hc Hfree. eexists. split.
    - apply wakeup_run; try done. unfold procs_ok. rsimpl. by rewrite E, length_insert.
    - rsimpl. rewrite list_lookup_fmap, E, list_lookup_insert_eq by (by eapply lookup_lt_Some). simpl. unfold wake. rsimpl.
      by rewrite !bool_decide_true. }
  destruct (decide (lk = L_ptable)) as [->|Hlk].
  - exists (asleep_in i p ch k). rewrite (sleep_ptable_run i p) by done. split_and!; [done|done|by apply Hw|by intros k2 ->|].
    intros k2 e2 -> Hok2 Hh2. eexists. split; [done|]. done.
  - exists (asleep i p ch lk k). rewrite (sleep_run i p) by done. split_and!; [by apply asleep_held|done|by apply Hw|by intros k2 ->|].
    intros k2 e2 -> Hok2 Hh2. edestruct (sleep_resume i lk
      (k2 <| k_cpu := k_cpu k2 <| c_intena := c_intena (k_cpu (asleep i p ch lk k)) |> |>))
      as (c & -> & Hc & Hpr & _); [by destruct Hok2|done|].
    exists c. by rsimpl in Hpr.
Qed.

(** A process in [wait], and one that sleeps for some ticks. *)
Lemma sleep_atomic_handover_witness :
  let k lk := demo_kernel <| k_cpu := mkcpu (Some 0%nat) 1 false false [lk] 0 0 |> in
  (exists k1, c_held (k_cpu k1) = [L_ptable] /\ sleep (Ch_proc 0) (Some L_ptable) (k L_ptable) [] = Parked k1) /\
  exists k1, c_held (k_cpu k1) = [L_ptable] /\ sleep Ch_ticks (Some L_ticks) (k L_ticks) [] = Parked k1.
Proof.
  intros k. split.
  - destruct (sleep_atomic_handover 0 (zero_proc <| p_pid := 1 |> <| p_state := RUNNING |>)
      (Ch_proc 0) L_ptable (k L_ptable) []) as (k1 & Hh & _ & _ & Hpk & _); [|reflexivity..|].
    + split; [reflexivity|apply NoDup_singleton|reflexivity].
    + exists k1. split; [exact Hh|]. apply Hpk. reflexivity.
  - destruct (sleep_atomic_handover 0 (zero_proc <| p_pid := 1 |> <| p_state := RUNNING |>)
      Ch_ticks L_ticks (k L_ticks) []) as (k1 & Hh & _ & _ & Hpk & _); [|reflexivity..|].
    + split; [reflexivity|apply NoDup_singleton|reflexivity].
    + exists k1. split; [exact Hh|]. apply Hpk. reflexivity.
Defined.

(** the scheduling-parameter calls change exactly the parameter they
    name, in exactly the processes with the given pid (in all of them for
    [set_all_bjf_params]), and nothing else of the process table. *)
Theorem set_params_exact pid q t pr ar er k e :
  cpu_ok (k_cpu k) -> L_ptable ∉ c_held (k_cpu k) -> procs_ok k ->
  let upd (f : proc -> proc) p := if p_pid p =? pid then f p else p in
  let res g := Ret tt (k <| k_procs := map g (k_procs k) |>
                         <| k_cpu := cpu_touch (k_cpu k) |>) e in
  set_proc_queue pid q k e = res (upd (fun p => p <| p_queue := q |>)) /\
  set_lottery_params pid t k e = res (upd (fun p => p <| p_tickets := t |>)) /\
  set_a_proc_bjf_params pid pr ar er k e =
    res (upd (fun p => p <| p_priority_ratio := pr |> <| p_arrival_time_ratio := ar |>
                         <| p_executed_cycle_ratio := er |>)) /\
  set_all_bjf_params pr ar er k e =
    res (fun p => p <| p_priority_ratio := pr |> <| p_arrival_time_ratio := ar |>
                    <| p_executed_cycle_ratio := er |>).
Proof.
  intros Hcpu Hfree Hok upd res.
  split_and!; apply (procs_map_section _ _ _ _ Hcpu Hfree Hok); intros j p k' e' Hp';
    first [ exact (upd_if_run _ _ _ p _ _ Hp') | exact (upd_proc_run _ _ p _ _ Hp') ].
Qed.

Lemma set_params_exact_witness :
  exists k', set_proc_queue 2 3 demo_kernel [] = Ret tt k' [] /\
    map p_queue (take 3 (k_procs k')) = [0; 3; 0].
Proof.
  destruct (set_params_exact 2 3 0 0 0 0 demo_kernel []) as [Hq _];
    [apply demo_cpu_ok | apply not_elem_of_nil | reflexivity |].
  eexists. split; [exact Hq | reflexivity].
Defined.
