(* ===== verification/Sched.v ===== *)
(** The scheduler (proc.c): ageing ([fix_queues]), the three queues
    ([round_robin], [lottery], [bjf]), the choice between them and the loop of
    [scheduler], with the pseudo-random numbers the lottery draws. *)

From Stdlib Require Import SpecFloat.
From S2P Require Import Prelude Types Spinlock Float32 Proc.

Definition STARVING_THRESHOLD : Z := 8000.
Definition MIN_BJF_RANK : Z := 1000000.
Definition DEFAULT_MAX_TICKETS : Z := 30.

(** [a % b] on [int]: a zero divisor, and the one quotient that does not fit,
    trap. *)
Definition imod (a b : Z) : K Z :=
  if b =? 0 then undef "division by zero" else
  if (a =? - 2 ^ 31) && (b =? -1) then undef "INT_MIN % -1" else
  mret (Z.rem a b).

Definition generate_random_number (min max : Z) : K Z :=
  if min >=? max then mret (if max >? 0 then max else s32 (- max)) else
  acquire L_ticks ;;
  let diff := s32 (s32 (max - min) + 1) in
  time ← gets (fun k => s32 (k_ticks k));
  release L_ticks ;;
  a ← imod (s32 (time + 2)) diff;
  b ← imod (s32 (1 + s32 (s32 (a * s32 (time + 1)) * 132))) diff;
  c ← imod time max;
  d ← imod (s32 (2 * max)) diff;
  let rand_num := s32 (s32 (s32 (1 + b) * s32 (1 + c)) * s32 (1 + d)) in
  r ← imod rand_num (s32 (s32 (max - min) + 1));
  mret (s32 (r + min)).

(** A loop over [ptable.proc] with local variables. *)
Definition scan_procs {B} (acc : B) (body : nat -> proc -> B -> K B) : K B :=
  for_acc (seq 0 NPROC) acc (fun i acc => p ← get_proc i; body i p acc).

Definition fix_queues : K unit :=
  for_procs (fun i p =>
    if bool_decide (p_state p = RUNNABLE) then
      t ← gets k_ticks;
      if u32 (t - p_entered_queue p) >=? STARVING_THRESHOLD then
        upd_proc i (fun p => p <| p_queue := 1 |>) ;;
        t ← gets k_ticks;
        upd_proc i (fun p => p <| p_entered_queue := s32 t |>)
      else mret tt
    else mret tt).

(** [p->state == RUNNABLE && p->queue == q]. *)
Definition runnable_in (q : Z) (p : proc) : bool :=
  bool_decide (p_state p = RUNNABLE) && (p_queue p =? q).

Definition round_robin : K (option nat) :=
  time ← gets (fun k => s32 (k_ticks k));
  r ← scan_procs (0, None) (fun i p '(starvation_time, min_p) =>
    if negb (runnable_in 1 p) then mret (starvation_time, min_p) else
    let starved_for := s32 (time - p_entered_queue p) in
    if starved_for >? starvation_time then mret (starved_for, Some i)
    else mret (starvation_time, min_p));
  mret (snd r).

(** The products and the first sum are [int], the last sum is [float]. *)
Definition get_rank (p : proc) : spec_float :=
  f32_add
    (f32_of_Z (s32 (s32 (p_priority p * p_priority_ratio p)
                    + s32 (p_entered_queue p * p_arrival_time_ratio p))))
    (f32_mul (p_executed_cycle p) (f32_of_Z (p_executed_cycle_ratio p))).

Definition bjf : K (option nat) :=
  r ← scan_procs (f32_of_Z MIN_BJF_RANK, None) (fun i p '(min_rank, min_p) =>
    if negb (runnable_in 3 p) then mret (min_rank, min_p) else
    if f32_lt (get_rank p) min_rank then mret (get_rank p, Some i)
    else mret (min_rank, min_p));
  mret (snd r).

Definition lottery : K (option nat) :=
  total_tickets ← scan_procs 0 (fun _ p total =>
    if negb (runnable_in 2 p) then mret total else mret (s32 (total + p_tickets p)));
  winning_ticket ← generate_random_number 1 total_tickets;
  r ← scan_procs (winning_ticket, None) (fun i p '(w, found) =>
    match found with
    | Some _ => mret (w, found)
    | None =>
        if negb (runnable_in 2 p) then mret (w, None) else
        let w' := s32 (w - p_tickets p) in
        if w' <=? 0 then mret (w', Some i) else mret (w', None)
    end);
  mret (snd r).

(** The choice [scheduler] makes in one pass of its loop. *)
Definition pick : K (option nat) :=
  fix_queues ;;
  p ← round_robin;
  p ← match p with Some i => mret (Some i) | None => lottery end;
  match p with Some i => mret (Some i) | None => bjf end.

(** ** Switching to the chosen process (vm.c, proc.c) *)

Definition switchkvm : K unit :=
  modify (fun k => k <| k_cpu := k_cpu k <| c_cr3 := V2P (k_kpgdir k) |> |>).

Definition switchuvm (i : nat) : K unit :=
  p ← get_proc i;
  if p_kstack p =? 0 then panic "switchuvm: no kstack" else
  if p_pgdir p =? 0 then panic "switchuvm: no pgdir" else
  pushcli ;;
  modify (fun k => k <| k_cpu := k_cpu k <| c_esp0 := u32 (p_kstack p + KSTACKSIZE) |> |>) ;;
  modify (fun k => k <| k_cpu := k_cpu k <| c_cr3 := V2P (p_pgdir p) |> |>) ;;
  popcli.

(** One time slice of the rest of the system. *)
Definition run_slice : K unit := fun k e =>
  match e with
  | [] => Parked k
  | slice :: e' => Ret tt (slice k) e'
  end.

Definition sti : K unit :=
  modify (fun k => k <| k_cpu := k_cpu k <| c_if := true |> |>).

(** Switching to process [i], and what follows when it switches back; the
    slice is what it does in between. *)
Definition dispatch (i : nat) : K unit :=
  t ← gets k_ticks;
  upd_proc i (fun p => p <| p_entered_queue := s32 t |>) ;;
  modify (fun k => k <| k_cpu := k_cpu k <| c_proc := Some i |> |>) ;;
  switchuvm i ;;
  upd_proc i (fun p => p <| p_state := RUNNING |>) ;;
  run_slice ;;
  switchkvm ;;
  modify (fun k => k <| k_cpu := k_cpu k <| c_proc := None |> |>) ;;
  release L_ptable.

(** One pass of the [for(;;)] of [scheduler]; the slice is what interrupts
    and the other CPUs do while interrupts are on. *)
Definition scheduler_pass : K unit :=
  sti ;;
  run_slice ;;
  acquire L_ptable ;;
  p ← pick;
  match p with
  | None => release L_ptable
  | Some i => dispatch i
  end.

(** [scheduler] never returns; this is its first [n] passes. *)
Definition scheduler (n : nat) : K unit :=
  modify (fun k => k <| k_cpu := k_cpu k <| c_proc := None |> |>) ;;
  for_each (seq 0 n) (fun _ => scheduler_pass).

(** ** Selecting the best of a list *)

Section Select.
  Context {A R : Type} (elig : A -> bool) (rank : A -> R) (better : R -> R -> bool).
  Hypothesis better_irrefl : forall x, better x x = false.
  Hypothesis better_trans : forall x y z,
    better x y = true -> better y z = true -> better x z = true.

Definition select_step (acc : R * option A) (x : A) : R * option A :=
  if negb (elig x) then acc
  else if better (rank x) acc.1 then (rank x, Some x) else acc.

Definition select (b0 : R) (l : list A) : R * option A :=
  fold_left select_step l (b0, None).

Lemma select_snoc b0 l x : select b0 (l ++ [x]) = select_step (select b0 l) x.
Proof. unfold select. by rewrite fold_left_app. Qed.

(** Nothing eligible beats the result, and the result beats the start. *)
Lemma select_spec b0 l :
  match select b0 l with
  | (b, None) => b = b0 /\ forall y, y ∈ l -> elig y = true -> better (rank y) b0 = false
  | (b, Some x) =>
      b = rank x /\ x ∈ l /\ elig x = true /\ better (rank x) b0 = true /\
      forall y, y ∈ l -> elig y = true -> better (rank y) (rank x) = false
  end.
Proof.
  induction l as [|z l IH] using rev_ind; [by split; [|intros ? ?%elem_of_nil]|].
  rewrite select_snoc. destruct (select b0 l) as [b o]. unfold select_step. simpl.
  assert (forall P : A -> Prop, (forall y, y ∈ l -> elig y = true -> P y) ->
    (elig z = true -> P z) -> forall y, y ∈ l ++ [z] -> elig y = true -> P y) as Hsnoc.
  { intros P Hl Hz y [Hy|Hy%list_elem_of_singleton]%elem_of_app; subst; auto. }
  destruct (elig z) eqn:Hz; simpl; [destruct (better (rank z) b) eqn:Hb|].
  - assert (forall y, y ∈ l -> elig y = true -> better (rank y) b = false) as Hl
      by (destruct o; [destruct IH as (-> & _ & _ & _ & IH)|destruct IH as [-> IH]]; auto).
    split_and!; try done; [set_solver| |].
    + destruct o; [destruct IH as (-> & _ & _ & ? & _)|by destruct IH as [-> _]]; eauto.
    + apply Hsnoc; [|by rewrite better_irrefl]. intros y Hy He.
      apply not_true_is_false. intros Hyz. specialize (Hl y Hy He).
      rewrite (better_trans _ _ _ Hyz Hb) in Hl. done.
  - destruct o; [destruct IH as (-> & ? & ? & ? & IH)|destruct IH as [-> IH]].
    + split_and!; try done; [set_solver|]. by apply Hsnoc.
    + split; [done|]. by apply Hsnoc.
  - destruct o; [destruct IH as (-> & ? & ? & ? & IH)|destruct IH as [-> IH]].
    + split_and!; try done; [set_solver|]. by apply Hsnoc.
    + split; [done|]. by apply Hsnoc.
Qed.

(** Where the order is total, the result is the first of the best: it beats
    every eligible element before it. *)
Lemma select_first b0 l b x :
  (forall x y z, better y x = false -> better z x = true -> better z y = true) ->
  select b0 l = (b, Some x) ->
  exists l1 l2, l = l1 ++ x :: l2 /\
    forall y, y ∈ l1 -> elig y = true -> better (rank x) (rank y) = true.
Proof.
  intros Htot. revert b x. induction l as [|z l IH] using rev_ind; intros b x; [done|].
  rewrite select_snoc. pose proof (select_spec b0 l) as Hs.
  destruct (select b0 l) as [b' o]. unfold select_step. simpl.
  destruct (elig z) eqn:Hz; simpl; [destruct (better (rank z) b') eqn:Hb|].
  - intros [= <- <-]. exists l, []. split; [done|]. intros y Hy He.
    apply (Htot b' (rank y) (rank z)); [|done].
    destruct o; [destruct Hs as (-> & _ & _ & _ & Hs)|destruct Hs as [-> Hs]]; auto.
  - intros [= -> ->]. destruct (IH _ _ eq_refl) as (l1 & l2 & -> & H).
    exists l1, (l2 ++ [z]). by rewrite <-app_assoc.
  - intros [= -> ->]. destruct (IH _ _ eq_refl) as (l1 & l2 & -> & H).
    exists l1, (l2 ++ [z]). by rewrite <-app_assoc.
Qed.
End Select.

(** ** Execution of the policies *)

(** The table with the index of each entry, as the loops visit it. *)
Definition indexed (l : list proc) : list (nat * proc) := zip (seq 0 (length l)) l.

Lemma elem_of_indexed l i p : (i, p) ∈ indexed l <-> l !! i = Some p.
Proof.
  unfold indexed. rewrite list_elem_of_lookup. split.
  - intros [j Hj]. apply lookup_zip_Some in Hj as [Hi Hp].
    apply lookup_seq in Hi as [-> _]. done.
  - intros Hp. exists i. apply lookup_zip_Some. split; [|done].
    apply lookup_seq. split; [done|]. by eapply lookup_lt_Some.
Qed.

Lemma lookup_indexed l i : indexed l !! i = (fun p => (i, p)) <$> l !! i.
Proof.
  destruct (l !! i) as [p|] eqn:Hp; simpl.
  - apply lookup_zip_Some. split; [|done]. apply lookup_seq.
    split; [done|by eapply lookup_lt_Some].
  - apply lookup_ge_None. unfold indexed. rewrite length_zip, length_seq.
    apply lookup_ge_None in Hp. lia.
Qed.

Lemma indexed_before l l1 l2 i j p q :
  indexed l = l1 ++ (i, p) :: l2 -> l !! j = Some q -> (j < i)%nat -> (j, q) ∈ l1.
Proof.
  intros Hl Hq Hlt. pose proof (lookup_indexed l (length l1)) as Hi.
  rewrite Hl, list_lookup_middle in Hi by done.
  destruct (l !! length l1) as [p0|]; simpl in Hi; [|done]. injection Hi as -> ->.
  apply list_elem_of_lookup_2 with j.
  rewrite <-(lookup_app_l l1 ((length l1, p0) :: l2)) by done.
  by rewrite <-Hl, lookup_indexed, Hq.
Qed.

Section Exec.
  Implicit Types (k : kernel) (e : env) (i : nat) (p : proc).

Lemma for_acc_procs {B} (f : nat -> proc -> B -> B) (body : nat -> proc -> B -> K B) n :
  (forall i p acc k e, body i p acc k e = Ret (f i p acc) k e) ->
  forall lo acc k e, (lo + n = length (k_procs k))%nat ->
  for_acc (seq lo n) acc (fun i acc => p ← get_proc i; body i p acc) k e =
  Ret (fold_left (fun acc ip => f ip.1 ip.2 acc) (zip (seq lo n) (drop lo (k_procs k))) acc) k e.
Proof.
  intros Hbody. induction n as [|n IH]; intros lo acc k e Hlen; [done|]. simpl.
  destruct (lookup_lt_is_Some_2 (k_procs k) lo) as [p Hp]; [lia|].
  rewrite bind_assoc. mcall get_proc_run; [done|]. mcall Hbody.
  rewrite IH by lia. by rewrite (drop_S _ _ _ Hp).
Qed.

Lemma scan_procs_run {B} (f : nat -> proc -> B -> B) (body : nat -> proc -> B -> K B) acc k e :
  procs_ok k -> (forall i p acc k e, body i p acc k e = Ret (f i p acc) k e) ->
  scan_procs acc body k e =
  Ret (fold_left (fun acc ip => f ip.1 ip.2 acc) (indexed (k_procs k)) acc) k e.
Proof.
  intros Hok Hbody. unfold scan_procs, indexed. rewrite Hok.
  by rewrite (for_acc_procs f) by done.
Qed.

Lemma fold_select {R} (elig : proc -> bool) (rank : proc -> R)
    (better : R -> R -> bool) l (b0 : R) :
  fold_left (fun (acc : R * option nat) (ip : nat * proc) =>
      if negb (elig ip.2) then acc
      else if better (rank ip.2) acc.1 then (rank ip.2, Some ip.1) else acc) l (b0, None) =
  let r := select (fun ip : nat * proc => elig ip.2) (fun ip => rank ip.2) better b0 l in
  (r.1, fst <$> r.2).
Proof.
  induction l as [|[i p] l IH] using rev_ind; [done|].
  rewrite fold_left_app, IH, select_snoc. cbn [fold_left]. unfold select_step. simpl.
  destruct (elig p); simpl; [|done]. by destruct (better _ _).
Qed.

(** The two policies that look for the best process are selections. *)
Definition rr_sel (time : Z) (l : list proc) : Z * option (nat * proc) :=
  select (fun ip : nat * proc => runnable_in 1 ip.2)
    (fun ip => s32 (time - p_entered_queue ip.2)) Z.gtb 0 (indexed l).

Definition bjf_sel (l : list proc) : spec_float * option (nat * proc) :=
  select (fun ip : nat * proc => runnable_in 3 ip.2) (fun ip => get_rank ip.2) f32_lt
    (f32_of_Z MIN_BJF_RANK) (indexed l).

Lemma round_robin_run k e :
  procs_ok k -> round_robin k e = Ret (fst <$> (rr_sel (s32 (k_ticks k)) (k_procs k)).2) k e.
Proof.
  intros Hok. unfold round_robin. mrun.
  mcall (scan_procs_run (fun i p (acc : Z * option nat) =>
    if negb (runnable_in 1 p) then acc
    else if s32 (s32 (k_ticks k) - p_entered_queue p) >? acc.1
    then (s32 (s32 (k_ticks k) - p_entered_queue p), Some i) else acc)); [done| |].
  - intros i p [b o] k' e'. simpl. by repeat case_match.
  - rewrite (fold_select (runnable_in 1)
      (fun p => s32 (s32 (k_ticks k) - p_entered_queue p)) Z.gtb). done.
Qed.

Lemma bjf_run k e :
  procs_ok k -> bjf k e = Ret (fst <$> (bjf_sel (k_procs k)).2) k e.
Proof.
  intros Hok. unfold bjf.
  mcall (scan_procs_run (fun i p (acc : spec_float * option nat) =>
    if negb (runnable_in 3 p) then acc
    else if f32_lt (get_rank p) acc.1 then (get_rank p, Some i) else acc)); [done| |].
  - intros i p [b o] k' e'. simpl. by repeat case_match.
  - by rewrite (fold_select (runnable_in 3) get_rank f32_lt).
Qed.
End Exec.

Lemma runnable_in_true q p :
  runnable_in q p = true <-> p_state p = RUNNABLE /\ p_queue p = q.
Proof.
  unfold runnable_in. rewrite andb_true_iff, bool_decide_eq_true, Z.eqb_eq. done.
Qed.

(** [round_robin] returns the RUNNABLE process of queue 1 that has waited
    longest (the one with the lowest slot among equals), where only a
    positive waiting time counts; it returns null exactly when no RUNNABLE
    process of queue 1 has waited. *)
Theorem round_robin_longest_waiting k e :
  procs_ok k ->
  let wait p := s32 (s32 (k_ticks k) - p_entered_queue p) in
  exists r, round_robin k e = Ret r k e /\
  match r with
  | Some i => exists p, k_procs k !! i = Some p /\ p_state p = RUNNABLE /\ p_queue p = 1 /\
      0 < wait p /\
      forall j q, k_procs k !! j = Some q -> p_state q = RUNNABLE -> p_queue q = 1 ->
        wait q <= wait p /\ ((j < i)%nat -> wait q < wait p)
  | None => forall j q, k_procs k !! j = Some q -> p_state q = RUNNABLE -> p_queue q = 1 ->
      wait q <= 0
  end.
Proof.
  intros Hok wait. eexists. split; [by apply round_robin_run|].
  pose proof (select_spec (fun ip : nat * proc => runnable_in 1 ip.2) (fun ip => wait ip.2)
    Z.gtb ltac:(intros; lia) ltac:(intros; lia) 0 (indexed (k_procs k))) as Hs.
  pose proof (select_first (fun ip : nat * proc => runnable_in 1 ip.2) (fun ip => wait ip.2)
    Z.gtb ltac:(intros; lia) ltac:(intros; lia) 0 (indexed (k_procs k))) as Hf.
  unfold rr_sel. change (fun ip : nat * proc => s32 (s32 (k_ticks k) - p_entered_queue ip.2))
    with (fun ip : nat * proc => wait ip.2).
  destruct (select _ _ _ _ _) as [b [[i p]|]]; simpl.
  - destruct Hs as (_ & Hin%elem_of_indexed & Hp%runnable_in_true & Hpos & Hmax). simpl in *.
    exists p. destruct Hp. split_and!; try done; [lia|].
    intros j q Hq Hst Hqu.
    assert (runnable_in 1 q = true) as Hel by (by apply runnable_in_true).
    specialize (Hmax (j, q) (proj2 (elem_of_indexed _ _ _) Hq) Hel). simpl in Hmax.
    split; [lia|]. intros Hlt.
    destruct (Hf b (i, p)) as (l1 & l2 & Hl & Hbefore); [intros; lia|done|].
    enough ((wait p >? wait q) = true) by lia. apply (Hbefore (j, q)); [|done].
    by eapply indexed_before.
  - destruct Hs as [_ Hs]. intros j q Hq Hst Hqu.
    specialize (Hs (j, q) (proj2 (elem_of_indexed _ _ _) Hq)). simpl in Hs.
    rewrite (proj2 (runnable_in_true 1 q)) in Hs by done. specialize (Hs eq_refl). lia.
Qed.

(** ** The lottery *)

Section Lottery.
  Implicit Types (k : kernel) (e : env) (i : nat) (p : proc).

Lemma imod_run a b k e :
  1 < b -> imod a b k e = Ret (Z.rem a b) k e.
Proof.
  intros Hb. unfold imod. replace (b =? 0) with false by lia.
  by replace (b =? -1) with false by lia; rewrite andb_false_r.
Qed.

Lemma rem_bound a b : 1 < b -> - b < Z.rem a b < b.
Proof.
  intros Hb. pose proof (Z.rem_bound_abs a b). lia.
Qed.

(** The draw is at most [max]; it can be below 1, because the products
    overflow. *)
Lemma random_run max k e :
  cpu_ok (k_cpu k) -> L_ticks ∉ c_held (k_cpu k) -> 1 < max < 2 ^ 31 ->
  exists w c, generate_random_number 1 max k e = Ret w (k <| k_cpu := c |>) e /\
    2 - max <= w <= max /\ (c = cpu_touch (k_cpu k)).
Proof.
  intros Hcpu Hfree Hmax. unfold generate_random_number.
  replace (1 >=? max) with false by lia.
  assert (s32 (s32 (max - 1) + 1) = max) as Hdiff
    by (rewrite (s32_small (max - 1)), s32_small by lia; lia).
  rewrite Hdiff. mcall acquire_run; [done|done|]. mrun.
  mcall release_run; rsimpl; [by apply cpu_acq_ok|apply list_elem_of_here|].
  rewrite cpu_rel_acq by done. do 5 (mcall imod_run; [lia|]). rewrite mret_run.
  do 2 eexists. split; [reflexivity|]. split; [|done].
  match goal with |- context [s32 (Z.rem ?a max + 1)] =>
    pose proof (rem_bound a max); rewrite (s32_small (Z.rem a max + 1)) end; lia.
Qed.

(** The tickets of the RUNNABLE processes of queue 2. *)
Fixpoint tickets_sum (l : list proc) : Z :=
  match l with
  | [] => 0
  | p :: l' => (if runnable_in 2 p then p_tickets p else 0) + tickets_sum l'
  end.

Definition tickets_ok (l : list proc) : Prop :=
  Forall (fun p => runnable_in 2 p = true -> 0 <= p_tickets p) l /\ tickets_sum l < 2 ^ 30.

Lemma tickets_sum_app l1 l2 : tickets_sum (l1 ++ l2) = tickets_sum l1 + tickets_sum l2.
Proof. induction l1 as [|p l1 IH]; simpl; lia. Qed.

Lemma tickets_sum_nonneg l :
  Forall (fun p => runnable_in 2 p = true -> 0 <= p_tickets p) l -> 0 <= tickets_sum l.
Proof. induction 1 as [|p l Hp Hl IH]; simpl; [lia|]. destruct (runnable_in 2 p); lia. Qed.

(** The search loop: the first entry at which the tickets counted so far
    reach [w]. *)
Fixpoint draw (w : Z) (l : list (nat * proc)) : option nat :=
  match l with
  | [] => None
  | (i, p) :: l' =>
      if negb (runnable_in 2 p) then draw w l' else
      if s32 (w - p_tickets p) <=? 0 then Some i else draw (s32 (w - p_tickets p)) l'
  end.

Lemma fold_total l acc lo :
  Forall (fun p => runnable_in 2 p = true -> 0 <= p_tickets p) l ->
  0 <= acc -> acc + tickets_sum l < 2 ^ 30 ->
  fold_left (fun total (ip : nat * proc) =>
    if negb (runnable_in 2 ip.2) then total else s32 (total + p_tickets ip.2))
    (zip (seq lo (length l)) l) acc = acc + tickets_sum l.
Proof.
  intros Hl. revert acc lo. induction Hl as [|p l Hp Hl IH]; intros acc lo Hacc Hs;
    simpl in *; [lia|].
  pose proof (tickets_sum_nonneg l Hl). destruct (runnable_in 2 p); simpl.
  - specialize (Hp eq_refl). rewrite s32_small by lia. rewrite IH; lia.
  - rewrite IH; lia.
Qed.

Lemma fold_draw l w :
  snd (fold_left (fun (acc : Z * option nat) (ip : nat * proc) =>
    match acc.2 with
    | Some _ => acc
    | None =>
        if negb (runnable_in 2 ip.2) then (acc.1, None) else
        if s32 (acc.1 - p_tickets ip.2) <=? 0
        then (s32 (acc.1 - p_tickets ip.2), Some ip.1)
        else (s32 (acc.1 - p_tickets ip.2), None)
    end) l (w, None)) = draw w l.
Proof.
  revert w. induction l as [|[i p] l IH]; intros w; [done|]. simpl.
  destruct (runnable_in 2 p); simpl; [|done].
  destruct (_ <=? 0); [|done]. clear IH. induction l; simpl; auto.
Qed.

(** The run of [lottery] on a table with sane tickets. *)
Lemma lottery_run k e :
  cpu_ok (k_cpu k) -> L_ticks ∉ c_held (k_cpu k) -> procs_ok k -> tickets_ok (k_procs k) ->
  exists w c, lottery k e = Ret (draw w (indexed (k_procs k))) (k <| k_cpu := c |>) e /\
    - 2 ^ 30 < w <= tickets_sum (k_procs k) /\
    (c = k_cpu k \/ c = cpu_touch (k_cpu k)).
Proof.
  intros Hcpu Hfree Hok [Hpos Hlt]. unfold lottery.
  mcall (scan_procs_run (fun _ p total =>
    if negb (runnable_in 2 p) then total else s32 (total + p_tickets p))); [done| |].
  { intros. by case_match. }
  unfold indexed at 1. rewrite fold_total, Z.add_0_l by (done || lia).
  pose proof (tickets_sum_nonneg _ Hpos) as H0.
  assert (exists w c, generate_random_number 1 (tickets_sum (k_procs k)) k e =
    Ret w (k <| k_cpu := c |>) e /\ - 2 ^ 30 < w <= tickets_sum (k_procs k) /\
    (c = k_cpu k \/ c = cpu_touch (k_cpu k))) as (w & c & Hr & Hw & Hc).
  { destruct (decide (1 < tickets_sum (k_procs k))) as [H1|H1].
    - destruct (random_run (tickets_sum (k_procs k)) k e) as (w & c & Hr & Hw & ->);
        [done|done|lia|]. exists w, (cpu_touch (k_cpu k)). split; [done|]. split; [lia|auto].
    - unfold generate_random_number.
      replace (1 >=? tickets_sum (k_procs k)) with true by lia.
      exists (tickets_sum (k_procs k)), (k_cpu k). rewrite mret_run. split; [|split; [lia|auto]].
      replace (k <| k_cpu := k_cpu k |>) with k by (by destruct k). f_equal.
      destruct (_ >? 0) eqn:E; [done|]. rewrite s32_small; lia. }
  exists w, c. split; [|done]. rewrite (bind_Ret _ _ _ _ _ _ _ Hr).
  mcall (scan_procs_run (fun i p (acc : Z * option nat) =>
    match acc.2 with
    | Some _ => acc
    | None =>
        if negb (runnable_in 2 p) then (acc.1, None) else
        if s32 (acc.1 - p_tickets p) <=? 0 then (s32 (acc.1 - p_tickets p), Some i)
        else (s32 (acc.1 - p_tickets p), None)
    end)); [done| |].
  - intros i p [b [o|]] k' e'; simpl; [done|]. by repeat case_match.
  - by rewrite fold_draw, mret_run.
Qed.

Lemma draw_spec l w lo :
  Forall (fun p => runnable_in 2 p = true -> 0 <= p_tickets p) l ->
  - 2 ^ 30 < w < 2 ^ 30 -> tickets_sum l < 2 ^ 30 ->
  match draw w (zip (seq lo (length l)) l) with
  | Some i => exists n p, i = (lo + n)%nat /\ l !! n = Some p /\ runnable_in 2 p = true /\
      w <= tickets_sum (take (S n) l) /\
      forall m q, (m < n)%nat -> l !! m = Some q -> runnable_in 2 q = true ->
        tickets_sum (take (S m) l) < w
  | None => (forall m q, l !! m = Some q -> runnable_in 2 q = true ->
      tickets_sum (take (S m) l) < w)
  end.
Proof.
  intros Hl. revert w lo. induction Hl as [|p l Hp Hl IH]; intros w lo Hw Hs; [done|].
  cbn [draw zip seq length zip_with] in *. cbn [tickets_sum] in Hs.
  pose proof (tickets_sum_nonneg l Hl) as H0.
  assert (forall w' : Z, w' = w - (if runnable_in 2 p then p_tickets p else 0) ->
    (runnable_in 2 p = true -> 0 < w') -> - 2 ^ 30 < w' < 2 ^ 30 ->
    match draw w' (zip (seq (S lo) (length l)) l) with
    | Some i => exists n p0, i = (lo + n)%nat /\ (p :: l) !! n = Some p0 /\
        runnable_in 2 p0 = true /\ w <= tickets_sum (take (S n) (p :: l)) /\
        forall m q, (m < n)%nat -> (p :: l) !! m = Some q -> runnable_in 2 q = true ->
          tickets_sum (take (S m) (p :: l)) < w
    | None => forall m q, (p :: l) !! m = Some q -> runnable_in 2 q = true ->
        tickets_sum (take (S m) (p :: l)) < w
    end) as Hrest.
  { intros w' -> Hpos Hw'. specialize (IH _ (S lo) Hw' ltac:(destruct (runnable_in 2 p); lia)).
    assert (forall (P : nat -> Prop), (forall m q, P m -> l !! m = Some q ->
        runnable_in 2 q = true -> tickets_sum (take (S m) l) <
        w - (if runnable_in 2 p then p_tickets p else 0)) ->
      forall m q, (match m with O => True | S m' => P m' end) ->
      (p :: l) !! m = Some q -> runnable_in 2 q = true ->
      tickets_sum (take (S m) (p :: l)) < w) as Hshift.
    { intros P HP [|m] q HPm Hq He.
      - injection Hq as <-. specialize (Hpos He). simpl. rewrite He in *. lia.
      - cbn [take tickets_sum]. specialize (HP m q HPm Hq He). simpl in HP. lia. }
    destruct (draw _ _) as [i|].
    - destruct IH as (n & p0 & -> & Hn & He & Hle & Hbefore).
      exists (S n), p0. split; [lia|]. split; [done|]. split; [done|]. split.
      + cbn [take tickets_sum] in *. lia.
      + intros m q Hm. apply (Hshift (fun m => (m < n)%nat)); [auto|destruct m; [done|lia]].
    - intros m q. apply (Hshift (fun _ => True)); [eauto|by destruct m]. }
  destruct (runnable_in 2 p) eqn:He; simpl.
  - specialize (Hp eq_refl). rewrite s32_small by lia.
    destruct (w - p_tickets p <=? 0) eqn:Hle.
    + exists 0%nat, p. split_and!; [lia|done|done|simpl; rewrite He; lia|intros; lia].
    + apply Hrest; lia.
  - apply Hrest; [lia|done|lia].
Qed.
End Lottery.

Lemma draw_none l w :
  (forall m q, l !! m = Some q -> runnable_in 2 q = true -> tickets_sum (take (S m) l) < w) ->
  w <= tickets_sum l -> forall q, q ∈ l -> runnable_in 2 q = false.
Proof.
  intros Hm Hw q Hq. revert Hm Hw q Hq.
  induction l as [|z l IH] using rev_ind; intros Hm Hw q Hq; [by apply elem_of_nil in Hq|].
  destruct (runnable_in 2 z) eqn:Hz.
  - specialize (Hm (length l) z (list_lookup_middle _ _ _ _ eq_refl) Hz).
    rewrite take_ge in Hm by (rewrite length_app; simpl; lia). lia.
  - rewrite tickets_sum_app in Hw. simpl in Hw. rewrite Hz in Hw.
    apply elem_of_app in Hq as [Hq|Hq%list_elem_of_singleton]; [|by subst].
    apply IH; [|lia|done]. intros m q' Hq' He. specialize (Hm m q' (lookup_app_l_Some _ _ _ _ Hq') He).
    rewrite take_app_le in Hm; [done|]. apply lookup_lt_Some in Hq'. lia.
Qed.

(** [lottery] draws a number [w] not above the total of the tickets of
    the RUNNABLE processes of queue 2 and returns the process whose range of
    tickets contains it: the first one at which the running total of tickets
    reaches [w].  It returns null only if queue 2 has no RUNNABLE process. *)
Theorem lottery_winner k e :
  cpu_ok (k_cpu k) -> L_ticks ∉ c_held (k_cpu k) -> procs_ok k -> tickets_ok (k_procs k) ->
  exists r w c, lottery k e = Ret r (k <| k_cpu := c |>) e /\
    w <= tickets_sum (k_procs k) /\
    match r with
    | Some i => exists p, k_procs k !! i = Some p /\ p_state p = RUNNABLE /\ p_queue p = 2 /\
        w <= tickets_sum (take (S i) (k_procs k)) /\
        forall j q, (j < i)%nat -> k_procs k !! j = Some q -> runnable_in 2 q = true ->
          tickets_sum (take (S j) (k_procs k)) < w
    | None => forall q, q ∈ k_procs k -> runnable_in 2 q = false
    end.
Proof.
  intros Hcpu Hfree Hok Htk. destruct (lottery_run k e Hcpu Hfree Hok Htk)
    as (w & c & Hrun & [Hlo Hhi] & _).
  eexists _, w, c. split; [exact Hrun|]. split; [done|]. destruct Htk as [Hpos Hlt].
  pose proof (draw_spec (k_procs k) w 0 Hpos ltac:(lia) Hlt) as Hd.
  fold (indexed (k_procs k)) in Hd. destruct (draw w _) as [i|].
  - destruct Hd as (n & p & -> & Hn & He%runnable_in_true & Hle & Hbefore).
    exists p. by destruct He.
  - by apply (draw_none _ w).
Qed.

(** [bjf] returns a RUNNABLE process of queue 3 whose rank is below
    1000000 and such that no RUNNABLE process of queue 3 has a smaller rank;
    it returns null exactly when every such process has a rank that is not
    below 1000000. *)
Theorem bjf_minimal_rank k e :
  procs_ok k ->
  exists r, bjf k e = Ret r k e /\
  let limit := f32_of_Z MIN_BJF_RANK in
  match r with
  | Some i => exists p, k_procs k !! i = Some p /\ p_state p = RUNNABLE /\ p_queue p = 3 /\
      f32_lt (get_rank p) limit = true /\
      forall q, q ∈ k_procs k -> p_state q = RUNNABLE -> p_queue q = 3 ->
        f32_lt (get_rank q) (get_rank p) = false
  | None => forall q, q ∈ k_procs k -> p_state q = RUNNABLE -> p_queue q = 3 ->
      f32_lt (get_rank q) limit = false
  end.
Proof.
  intros Hok. eexists. split; [by apply bjf_run|]. intros limit.
  pose proof (select_spec (fun ip : nat * proc => runnable_in 3 ip.2) (fun ip => get_rank ip.2)
    f32_lt f32_lt_irrefl f32_lt_trans (f32_of_Z MIN_BJF_RANK) (indexed (k_procs k))) as Hs.
  fold (bjf_sel (k_procs k)) in Hs.
  assert (forall (Q : proc -> Prop), (forall y : nat * proc, y ∈ indexed (k_procs k) ->
      runnable_in 3 y.2 = true -> Q y.2) ->
    forall q, q ∈ k_procs k -> p_state q = RUNNABLE -> p_queue q = 3 -> Q q) as Hall.
  { intros Q HQ q [j Hj]%list_elem_of_lookup Hst Hqu.
    apply (HQ (j, q)); [by apply elem_of_indexed|by apply runnable_in_true]. }
  destruct (bjf_sel _) as [b [[i p]|]]; simpl.
  - destruct Hs as (_ & Hin%elem_of_indexed & Hp%runnable_in_true & Hlim & Hmin).
    exists p. destruct Hp. split_and!; try done.
    apply (Hall (fun q => f32_lt (get_rank q) (get_rank p) = false)), Hmin.
  - destruct Hs as [_ Hs]. apply (Hall (fun q => f32_lt (get_rank q) limit = false)), Hs.
Qed.

(** ** Ageing and the choice between the queues *)

(** [fix_queues]'s effect on one entry. *)
Definition age (t : Z) (p : proc) : proc :=
  if bool_decide (p_state p = RUNNABLE)
     && (u32 (t - p_entered_queue p) >=? STARVING_THRESHOLD)
  then p <| p_queue := 1 |> <| p_entered_queue := s32 t |> else p.

Definition aged (k : kernel) : kernel := k <| k_procs := map (age (k_ticks k)) (k_procs k) |>.

Section Pick.
  Implicit Types (k : kernel) (e : env) (i : nat) (p : proc).

Lemma fix_queues_run k e : procs_ok k -> fix_queues k e = Ret tt (aged k) e.
Proof.
  intros Hok. unfold fix_queues.
  rewrite (for_procs_map_inv (fun k' => k_ticks k' = k_ticks k) (age (k_ticks k))); try done.
  - intros i p k' e' Ht Hp. unfold age. rewrite <-Ht.
    case_bool_decide; simpl.
    + mrun. destruct (_ >=? _).
      * mcall upd_proc_run; [done|]. mrun. rewrite (upd_proc_run _ _ (p <| p_queue := 1 |>)).
        { rsimpl. by rewrite list_insert_insert_eq. }
        rsimpl. apply list_lookup_insert_eq. by eapply lookup_lt_Some.
      * rewrite list_insert_id by done. rewrite mret_run. by destruct k'.
    + rewrite list_insert_id by done. rewrite mret_run. by destruct k'.
Qed.

Lemma aged_ok k : procs_ok k -> procs_ok (aged k).
Proof. unfold procs_ok, aged. rsimpl. by rewrite length_map. Qed.

Lemma age_state t p : p_state (age t p) = p_state p.
Proof. unfold age. by case_match. Qed.

Lemma tickets_ok_aged t l : tickets_ok l -> tickets_ok (map (age t) l).
Proof.
  intros [Hpos Hlt]. enough (Forall (fun p => runnable_in 2 p = true -> 0 <= p_tickets p)
    (map (age t) l) /\ tickets_sum (map (age t) l) <= tickets_sum l) by (split; [tauto|lia]).
  clear Hlt. induction Hpos as [|p l Hp Hl [IH1 IH2]]; simpl; [split; [done|lia]|].
  assert (age t p = p \/ runnable_in 2 (age t p) = false) as [->|Hne].
  { unfold age. case_match; [right|by left]. unfold runnable_in. rsimpl. by rewrite andb_false_r. }
  - split; [by constructor|lia].
  - split; [constructor; [by rewrite Hne|done]|]. rewrite Hne.
    destruct (runnable_in 2 p); [specialize (Hp eq_refl)|]; lia.
Qed.

(** When queue 1 has a waiting process, [pick] chooses as [round_robin]. *)
Lemma pick_rr k e i :
  procs_ok k -> round_robin (aged k) e = Ret (Some i) (aged k) e ->
  pick k e = Ret (Some i) (aged k) e.
Proof.
  intros Hok Hrr. unfold pick. mcall fix_queues_run; [done|].
  rewrite (bind_Ret _ _ _ _ _ _ _ Hrr). by mrun.
Qed.
End Pick.

(** A RUNNABLE process of queue 1 that has waited at least one tick. *)
Definition waited (k : kernel) (p : proc) : Prop :=
  p_state p = RUNNABLE /\ p_queue p = 1 /\ 0 < s32 (s32 (k_ticks k) - p_entered_queue p).

Lemma rr_sel_spec k :
  match (rr_sel (s32 (k_ticks k)) (k_procs k)).2 with
  | Some (i, p) => k_procs k !! i = Some p /\ waited k p /\
      forall q, q ∈ k_procs k -> p_state q = RUNNABLE -> p_queue q = 1 ->
        s32 (s32 (k_ticks k) - p_entered_queue q) <= s32 (s32 (k_ticks k) - p_entered_queue p)
  | None => forall q, q ∈ k_procs k -> ~ waited k q
  end.
Proof.
  pose proof (select_spec (fun ip : nat * proc => runnable_in 1 ip.2)
    (fun ip => s32 (s32 (k_ticks k) - p_entered_queue ip.2))
    Z.gtb ltac:(intros; lia) ltac:(intros; lia) 0 (indexed (k_procs k))) as Hs.
  assert (forall (Q : proc -> Prop), (forall y : nat * proc, y ∈ indexed (k_procs k) ->
      runnable_in 1 y.2 = true -> Q y.2) ->
    forall q, q ∈ k_procs k -> p_state q = RUNNABLE -> p_queue q = 1 -> Q q) as Hall.
  { intros Q HQ q [j Hj]%list_elem_of_lookup Hst Hqu.
    apply (HQ (j, q)); [by apply elem_of_indexed|by apply runnable_in_true]. }
  unfold rr_sel. destruct (select _ _ _ _ _) as [b [[i p]|]]; simpl.
  - destruct Hs as (_ & Hin%elem_of_indexed & Hp%runnable_in_true & Hpos & Hmax). simpl in *.
    destruct Hp. split; [done|]. split; [repeat split; try done; lia|].
    apply (Hall (fun q => _ <= _)). intros y Hy He. specialize (Hmax y Hy He). lia.
  - destruct Hs as [_ Hs]. intros q Hq (Hst & Hqu & Hpos). revert Hpos.
    apply Zle_not_lt. revert q Hq Hst Hqu. apply (Hall (fun q => _ <= _)).
    intros y Hy He. specialize (Hs y Hy He). lia.
Qed.

Lemma lottery_sound k e :
  cpu_ok (k_cpu k) -> L_ticks ∉ c_held (k_cpu k) -> cpu_touch (k_cpu k) = k_cpu k ->
  procs_ok k -> tickets_ok (k_procs k) ->
  exists r, lottery k e = Ret r k e /\
    match r with
    | Some i => exists p, k_procs k !! i = Some p /\ runnable_in 2 p = true
    | None => forall q, q ∈ k_procs k -> runnable_in 2 q = false
    end.
Proof.
  intros Hcpu Hfree Hcli Hok Htk. destruct (lottery_run k e Hcpu Hfree Hok Htk)
    as (w & c & Hrun & [Hlo Hhi] & Hc).
  assert (c = k_cpu k) as -> by (rewrite Hcli in Hc; tauto).
  replace (k <| k_cpu := k_cpu k |>) with k in Hrun by (by destruct k).
  eexists. split; [exact Hrun|]. destruct Htk as [Hpos Hlt].
  pose proof (draw_spec (k_procs k) w 0 Hpos ltac:(lia) Hlt) as Hd.
  fold (indexed (k_procs k)) in Hd. destruct (draw w _) as [i|]; [|by apply (draw_none _ w)].
  destruct Hd as (n & p & -> & Hn & He & _). by exists p.
Qed.

Lemma bjf_sound k e :
  procs_ok k -> exists r, bjf k e = Ret r k e /\
  match r with
  | Some i => exists p, k_procs k !! i = Some p /\ p_state p = RUNNABLE /\ p_queue p = 3
  | None => forall q, q ∈ k_procs k -> p_state q = RUNNABLE -> p_queue q = 3 ->
      f32_lt (get_rank q) (f32_of_Z MIN_BJF_RANK) = false
  end.
Proof.
  intros Hok. eexists. split; [by apply bjf_run|].
  pose proof (select_spec (fun ip : nat * proc => runnable_in 3 ip.2) (fun ip => get_rank ip.2)
    f32_lt f32_lt_irrefl f32_lt_trans (f32_of_Z MIN_BJF_RANK) (indexed (k_procs k))) as Hs.
  fold (bjf_sel (k_procs k)) in Hs. destruct (bjf_sel _) as [b [[i p]|]]; simpl.
  - destruct Hs as (_ & Hin%elem_of_indexed & Hp%runnable_in_true & _). eauto.
  - destruct Hs as [_ Hs]. intros q [j Hj]%list_elem_of_lookup Hst Hqu.
    apply (Hs (j, q)); [by apply elem_of_indexed|by apply runnable_in_true].
Qed.

(** The result of one choice on the aged table [l]. *)
Definition chosen (k : kernel) (l : list proc) (r : option nat) : Prop :=
  let q1 := exists q, q ∈ l /\ waited k q in
  let q2 := exists q, q ∈ l /\ p_state q = RUNNABLE /\ p_queue q = 2 in
  match r with
  | Some i => exists p, l !! i = Some p /\ p_state p = RUNNABLE /\
      (p_queue p = 1 /\ q1 \/ p_queue p = 2 /\ ~ q1 /\ q2 \/ p_queue p = 3 /\ ~ q1 /\ ~ q2)
  | None => ~ q1 /\ ~ q2 /\ forall q, q ∈ l -> p_state q = RUNNABLE -> p_queue q = 3 ->
      f32_lt (get_rank q) (f32_of_Z MIN_BJF_RANK) = false
  end.

Lemma pick_run k e :
  cpu_ok (k_cpu k) -> L_ticks ∉ c_held (k_cpu k) -> L_ptable ∈ c_held (k_cpu k) ->
  procs_ok k -> tickets_ok (k_procs k) ->
  exists r, pick k e = Ret r (aged k) e /\ chosen k (k_procs (aged k)) r.
Proof.
  intros Hcpu Hfree Hpt Hok Htk. pose proof (aged_ok _ Hok) as Hok'.
  assert (cpu_touch (k_cpu k) = k_cpu k) as Hcli
    by (apply cpu_touch_cli; destruct (cpu_ok_pos _ _ Hcpu Hpt); lia).
  pose proof (rr_sel_spec (aged k)) as Hrr.
  destruct (rr_sel (s32 (k_ticks (aged k))) (k_procs (aged k))).2 as [[i p]|] eqn:Esel.
  - exists (Some i). destruct Hrr as (Hp & (Hst & Hq & Hw) & _). split.
    + apply pick_rr; [done|]. rewrite round_robin_run by done. by rewrite Esel.
    + exists p. split; [done|]. split; [done|]. left. split; [done|].
      exists p. split; [by eapply list_elem_of_lookup_2|done].
  - assert (~ exists q, q ∈ k_procs (aged k) /\ waited k q) as Hno1
      by (intros (q & Hq & Hw); by apply (Hrr q)).
    destruct (lottery_sound (aged k) e) as (r & Hlot & Hr);
      [done|done|done|done|by apply tickets_ok_aged|].
    destruct (bjf_sound (aged k) e) as (r3 & Hbjf & Hr3); [done|].
    exists (match r with Some i => Some i | None => r3 end). split.
    + unfold pick. mcall fix_queues_run; [done|]. mcall round_robin_run; [done|].
      rewrite Esel. simpl. rewrite (bind_Ret _ _ _ _ _ _ _ Hlot).
      by destruct r; [rewrite mret_run|].
    + destruct r as [i|].
      * destruct Hr as (p & Hp & He%runnable_in_true). destruct He. exists p.
        do 2 (split; [done|]). right; left. split_and!; try done.
        exists p. split; [by eapply list_elem_of_lookup_2|done].
      * assert (~ exists q, q ∈ k_procs (aged k) /\ p_state q = RUNNABLE /\ p_queue q = 2) as Hno2
          by (intros (q & Hq & He%runnable_in_true); rewrite Hr in He; done).
        destruct r3 as [i|]; [|done]. destruct Hr3 as (p & Hp & Hst & Hq). exists p. tauto.
Qed.

(** one choice of [scheduler], made with [ptable.lock] held.  It first
    ages the table; it then returns a RUNNABLE process, from queue 1 whenever
    a process of queue 1 has waited, else from queue 2 whenever queue 2 has a
    RUNNABLE process, else from queue 3; and null only if no process of queue
    1 has waited, queue 2 has no RUNNABLE process and every RUNNABLE process
    of queue 3 has a rank not below 1000000. *)
Theorem pick_priority k e :
  cpu_ok (k_cpu k) -> L_ticks ∉ c_held (k_cpu k) -> L_ptable ∈ c_held (k_cpu k) ->
  procs_ok k -> tickets_ok (k_procs k) ->
  exists r, pick k e = Ret r (aged k) e /\
  let l := k_procs (aged k) in
  let q1 := exists q, q ∈ l /\ waited k q in
  let q2 := exists q, q ∈ l /\ p_state q = RUNNABLE /\ p_queue q = 2 in
  match r with
  | Some i => exists p, l !! i = Some p /\ p_state p = RUNNABLE /\
      (p_queue p = 1 /\ q1 \/ p_queue p = 2 /\ ~ q1 /\ q2 \/ p_queue p = 3 /\ ~ q1 /\ ~ q2)
  | None => ~ q1 /\ ~ q2 /\ forall q, q ∈ l -> p_state q = RUNNABLE -> p_queue q = 3 ->
      f32_lt (get_rank q) (f32_of_Z MIN_BJF_RANK) = false
  end.
Proof. intros. by apply pick_run. Qed.

(** ** One pass of the scheduler *)

Definition switchable (p : proc) : Prop := p_kstack p <> 0 /\ p_pgdir p <> 0.

Lemma switchuvm_run i p k e :
  k_procs k !! i = Some p -> switchable p -> 0 < c_ncli (k_cpu k) -> c_if (k_cpu k) = false ->
  switchuvm i k e = Ret tt (k <| k_cpu := k_cpu k
    <| c_esp0 := u32 (p_kstack p + KSTACKSIZE) |> <| c_cr3 := V2P (p_pgdir p) |> |>) e.
Proof.
  intros Hp [Hks Hpg] Hn Hif. unfold switchuvm. mcall get_proc_run; [done|].
  replace (p_kstack p =? 0) with false by lia. replace (p_pgdir p =? 0) with false by lia.
  mcall pushcli_run. mrun. rewrite cpu_touch_cli by done. rewrite popcli_run by (rsimpl; done || lia).
  rsimpl. replace (c_ncli (k_cpu k) + 1 =? 1) with false by lia. simpl. do 2 f_equal.
  destruct (k_cpu k). unfold set; simpl in *. unfold set_c_ncli, set_c_if, set_c_cr3, set_c_esp0; simpl.
  subst. f_equal. lia.
Qed.

(** The state a chosen process [i] runs in: the table is aged, [i] is RUNNING
    and at the back of its queue, the CPU runs it on its own page table and
    kernel stack, and [ptable.lock] is the only lock held. *)
Record running_state (k0 k1 : kernel) (i : nat) (p : proc) : Prop := {
  rs_procs : k_procs k1 = <[i := p <| p_entered_queue := s32 (k_ticks k0) |>
    <| p_state := RUNNING |>]> (k_procs (aged k0));
  rs_proc : c_proc (k_cpu k1) = Some i;
  rs_cr3 : c_cr3 (k_cpu k1) = V2P (p_pgdir p);
  rs_esp0 : c_esp0 (k_cpu k1) = u32 (p_kstack p + KSTACKSIZE);
  rs_held : c_held (k_cpu k1) = [L_ptable];
  rs_cpu : cpu_ok (k_cpu k1)
}.

Lemma age_switchable t l :
  Forall (fun p => p_state p = RUNNABLE -> switchable p) l ->
  Forall (fun p => p_state p = RUNNABLE -> switchable p) (map (age t) l).
Proof.
  induction 1 as [|p l Hp Hl IH]; constructor; [|done].
  rewrite age_state. intros Hst. specialize (Hp Hst). unfold age. by case_match.
Qed.

(** The state in which [dispatch i] hands the CPU over. *)
Definition dispatched (k : kernel) (i : nat) (p : proc) : kernel :=
  k <| k_procs := <[i := p <| p_entered_queue := s32 (k_ticks k) |>
                           <| p_state := RUNNING |>]> (k_procs k) |>
    <| k_cpu := k_cpu k <| c_proc := Some i |>
         <| c_esp0 := u32 (p_kstack p + KSTACKSIZE) |> <| c_cr3 := V2P (p_pgdir p) |> |>.

Lemma dispatch_run i p k s e :
  k_procs k !! i = Some p -> switchable p -> 0 < c_ncli (k_cpu k) -> c_if (k_cpu k) = false ->
  cpu_ok (k_cpu (s (dispatched k i p))) -> c_held (k_cpu (s (dispatched k i p))) = [L_ptable] ->
  let k2 := s (dispatched k i p) in
  dispatch i k (s :: e) = Ret tt (k2 <| k_cpu := cpu_rel L_ptable
    (k_cpu k2 <| c_cr3 := V2P (k_kpgdir k2) |> <| c_proc := None |>) |>) e.
Proof.
  intros Hp Hsw Hn Hif Hcpu Hheld k2. unfold dispatch.
  rewrite (bind_Ret _ _ _ _ (k_ticks k) k (s :: e)) by done.
  assert (forall q, <[i := q]> (k_procs k) !! i = Some q) as Hi
    by (intros; apply list_lookup_insert_eq; by eapply lookup_lt_Some).
  mcall upd_proc_run; [done|]. mstep. rsimpl.
  mcall switchuvm_run; rsimpl; [apply Hi|done|done|done|].
  mcall upd_proc_run; rsimpl; [apply Hi|]. rsimpl. rewrite list_insert_insert_eq.
  unfold mbind at 1, M_bind at 1, run_slice.
  match goal with |- context [s ?kk] => change (s kk) with k2 end.
  unfold switchkvm. mrun. rsimpl. rewrite release_run; rsimpl.
  - done.
  - by destruct Hcpu.
  - unfold k2. rewrite Hheld. apply list_elem_of_here.
Qed.

(** one pass of [scheduler].  If the choice is null it gives
    [ptable.lock] back and goes on; otherwise it hands the CPU to a process
    that was RUNNABLE, in a state where that process is RUNNING, is the CPU's
    current process on its own page table and kernel stack, has
    [entered_queue] set to the present tick, and [ptable.lock] is held; when
    the process switches back, the pass ends on the kernel page table with no
    current process and [ptable.lock] released. *)
Theorem scheduler_pass_runs k k0 s1 s2 e :
  k0 = s1 (k <| k_cpu := k_cpu k <| c_if := true |> |>) ->
  cpu_ok (k_cpu k0) -> c_held (k_cpu k0) = [] -> procs_ok k0 -> tickets_ok (k_procs k0) ->
  Forall (fun p => p_state p = RUNNABLE -> switchable p) (k_procs k0) ->
  (exists k', scheduler_pass k (s1 :: s2 :: e) = Ret tt k' (s2 :: e) /\
     k_procs k' = k_procs (aged k0) /\ c_held (k_cpu k') = []) \/
  (exists i p k1, k_procs (aged k0) !! i = Some p /\ p_state p = RUNNABLE /\
     running_state k0 k1 i p /\
     forall k2, s2 k1 = k2 -> cpu_ok (k_cpu k2) -> c_held (k_cpu k2) = [L_ptable] ->
     exists k', scheduler_pass k (s1 :: s2 :: e) = Ret tt k' e /\
       k_procs k' = k_procs k2 /\ c_held (k_cpu k') = [] /\
       c_proc (k_cpu k') = None /\ c_cr3 (k_cpu k') = V2P (k_kpgdir k2)).
Proof.
  intros Hk0 Hcpu Hheld Hok Htk Hsw.
  assert (L_ptable ∉ c_held (k_cpu k0)) as Hfree by (rewrite Hheld; apply not_elem_of_nil).
  pose proof (cpu_acq_ok _ _ Hcpu Hfree) as Hacq.
  set (ka := k0 <| k_cpu := cpu_acq L_ptable (k_cpu k0) |>).
  assert (c_held (k_cpu ka) = [L_ptable]) as Hka by (unfold ka, cpu_acq; rsimpl; by rewrite Hheld).
  assert (L_ptable ∈ c_held (k_cpu ka)) as Hpt by (rewrite Hka; apply list_elem_of_here).
  destruct (pick_run ka (s2 :: e)) as (r & Hpick & Hr); try done.
  { rewrite Hka. set_solver. }
  assert (scheduler_pass k (s1 :: s2 :: e) = (match r with
    | None => release L_ptable | Some i => dispatch i end) (aged ka) (s2 :: e)) as Hpass.
  { unfold scheduler_pass, sti. mrun. rewrite <-Hk0.
    mcall acquire_run; [done|done|]. by rewrite (bind_Ret _ _ _ _ _ _ _ Hpick). }
  destruct r as [i|]; [right|left].
  - destruct Hr as (p & Hp & Hst & _). destruct (cpu_ok_pos _ _ Hacq Hpt) as [Hn Hif].
    exists i, p, (dispatched (aged ka) i p). split; [done|]. split; [done|]. split.
    + split; try done. by destruct Hacq.
    + intros k2 <- Hok2 Hh2. eexists. split; [|split; [|split]].
      * rewrite Hpass. apply (dispatch_run i p); try done.
        -- eapply Forall_lookup_1 in Hp; [|by apply age_switchable]. auto.
        -- change (k_cpu (aged ka)) with (k_cpu ka). unfold ka in *. rsimpl. lia.
      * done.
      * rsimpl. unfold cpu_rel. rsimpl. by rewrite Hh2, filter_cons_False by tauto.
      * done.
  - eexists. rewrite Hpass. split; [apply release_run; done|]. split; [done|].
    rsimpl. unfold cpu_rel. rsimpl. change (k_cpu (aged ka)) with (k_cpu ka).
    by rewrite Hka, filter_cons_False by tauto.
Qed.

(** ** Waiting in queue 1 is bounded *)
















(** ** Instances *)

(** Tick 10: a process in queue 1 since tick 5, one since tick 3, one with
    ten tickets in queue 2 and one in queue 3. *)
Definition ready (pid q t tickets : Z) : proc :=
  zero_proc <| p_pid := pid |> <| p_state := RUNNABLE |> <| p_queue := q |>
    <| p_entered_queue := t |> <| p_tickets := tickets |> <| p_kstack := 0x8DFFF000 |>
    <| p_pgdir := 0x8DFFE000 |> <| p_arrival_time_ratio := 1 |>.
Definition demo_table : list proc :=
  [ready 1 1 5 7; ready 2 1 3 9; ready 3 2 4 10; ready 4 3 2 1] ++ replicate 60 zero_proc.
Definition sched_demo : kernel :=
  bare_kernel <| k_procs := demo_table |>
    <| k_ticks := 10 |>
    <| k_cpu := mkcpu None 1 false false [L_ptable] 0 0 |>.

Lemma sched_demo_cpu : cpu_ok (k_cpu sched_demo).
Proof. split; [done|apply NoDup_singleton|done]. Qed.

Lemma demo_tickets : tickets_ok demo_table.
Proof.
  split; [|by vm_compute]. apply Forall_app. split; [|by apply Forall_replicate].
  repeat constructor; intros _; vm_compute; congruence.
Qed.

Lemma sched_demo_ticks : L_ticks ∉ c_held (k_cpu sched_demo).
Proof. simpl. set_solver. Qed.

Lemma round_robin_longest_waiting_witness :
  exists r, round_robin sched_demo [] = Ret r sched_demo [] /\ r = Some 1%nat.
Proof.
  destruct (round_robin_longest_waiting sched_demo [] eq_refl) as (r & Hr & _).
  exists r. split; [exact Hr|]. vm_compute in Hr. injection Hr as <-. reflexivity.
Defined.

Lemma lottery_winner_witness :
  exists r w c, lottery sched_demo [] = Ret r (sched_demo <| k_cpu := c |>) [] /\
    w <= tickets_sum (k_procs sched_demo).
Proof.
  destruct (lottery_winner sched_demo [] sched_demo_cpu sched_demo_ticks eq_refl
    demo_tickets) as (r & w & c & Hr & Hw & _).
  exists r, w, c. split; [exact Hr|exact Hw].
Defined.

Lemma bjf_minimal_rank_witness :
  exists r, bjf sched_demo [] = Ret r sched_demo [] /\ r = Some 3%nat.
Proof.
  destruct (bjf_minimal_rank sched_demo [] eq_refl) as (r & Hr & _).
  exists r. split; [exact Hr|]. vm_compute in Hr. injection Hr as <-. reflexivity.
Defined.

Lemma pick_priority_witness :
  exists r, pick sched_demo [] = Ret r (aged sched_demo) [].
Proof.
  destruct (pick_priority sched_demo [] sched_demo_cpu sched_demo_ticks
    (list_elem_of_here _ _) eq_refl demo_tickets) as (r & Hr & _).
  exists r. exact Hr.
Defined.

(** The CPU comes to the pass without a lock. *)
Definition idle_demo (intr : bool) : kernel :=
  sched_demo <| k_cpu := mkcpu None 0 false intr [] 0 0 |>.

Lemma scheduler_pass_runs_witness :
  exists k', scheduler_pass (idle_demo false) [id; id] = Ret tt k' [] /\
    c_held (k_cpu k') = [] /\ p_state <$> k_procs k' !! 1%nat = Some RUNNING.
Proof.
  destruct (scheduler_pass_runs (idle_demo false) (idle_demo true) id id [])
    as [(k' & Hk & Hp & _)|(i & p & k1 & Hp & Hst & Hrs & Hend)].
  - vm_compute. reflexivity.
  - split; [reflexivity|constructor|done].
  - reflexivity.
  - reflexivity.
  - exact demo_tickets.
  - apply Forall_app. split; [repeat constructor; discriminate|].
    apply Forall_replicate. discriminate.
  - exfalso. vm_compute in Hk. discriminate Hk.
  - destruct (Hend k1 eq_refl (rs_cpu _ _ _ _ Hrs) (rs_held _ _ _ _ Hrs))
      as (k' & Hk & Hps & Hh & _).
    exists k'. split; [exact Hk|]. split; [exact Hh|]. vm_compute in Hk.
    injection Hk as <-. reflexivity.
Defined.





(** the pseudo-random number of [generate_random_number(1, 30)] is not
    always in 1..30: the products overflow, and after 560997 ticks the
    remainder is negative.  [allocproc] stores this number in [tickets]. *)
Theorem random_number_below_min :
  exists w k', generate_random_number 1 DEFAULT_MAX_TICKETS
    (bare_kernel <| k_ticks := 560997 |>) [] = Ret w k' [] /\ w < 1.
Proof. eexists _, _. split; [vm_compute; reflexivity|done]. Qed.
