(* ===== verification/SleepWakeup.v ===== *)
(** The sleep/wakeup protocol under interleaving (proc.c, with the pattern of
    its callers: pipe.c, log.c, sleeplock.c, trap.c).

    Any number of threads run on any number of CPUs.  A waiter runs
    [acquire(lk); while(!cond) sleep(chan, lk); release(lk)], a notifier runs
    [acquire(lk); cond = 1; wakeup(chan); release(lk)].  [sleep] and [wakeup]
    are split at every point where another CPU can run: each lock operation,
    each store, the switch to the scheduler (which releases [ptable.lock] on
    behalf of the sleeper) and the switch back (which takes it). *)

From S2P Require Import Prelude Types.

Inductive wpc : Type :=
| W_acquire          (* acquire(lk) *)
| W_test             (* while(!cond) *)
| W_acquire_ptable   (* sleep: acquire(&ptable.lock) *)
| W_release_lk       (* sleep: release(lk) *)
| W_set_chan         (* sleep: p->chan = chan *)
| W_set_state        (* sleep: p->state = SLEEPING *)
| W_sched            (* sleep: sched(), scheduler releases ptable.lock *)
| W_parked           (* off the CPU *)
| W_clear_chan       (* sleep: p->chan = 0 *)
| W_release_ptable   (* sleep: release(&ptable.lock) *)
| W_release          (* release(lk) *)
| W_done.

Inductive npc : Type :=
| N_acquire          (* acquire(lk) *)
| N_set              (* cond = 1 *)
| N_acquire_ptable   (* wakeup: acquire(&ptable.lock) *)
| N_wakeup1          (* wakeup1(chan) *)
| N_release_ptable   (* wakeup: release(&ptable.lock) *)
| N_release          (* release(lk) *)
| N_done.

Inductive thread : Type :=
| Waiter (pc : wpc) (st : procstate) (on_chan : bool)
| Notifier (pc : npc).

Record state : Type := mkstate {
  s_cond : bool;
  s_lk : option nat;       (* holder of lk *)
  s_pt : option nat;       (* holder of ptable.lock *)
  s_threads : list thread
}.
Definition state_eta (s : state) := mkstate (s_cond s) (s_lk s) (s_pt s) (s_threads s).
#[export] Instance set_s_cond : Setter s_cond := ltac:(mk_setter state_eta).
#[export] Instance set_s_lk : Setter s_lk := ltac:(mk_setter state_eta).
#[export] Instance set_s_pt : Setter s_pt := ltac:(mk_setter state_eta).
#[export] Instance set_s_threads : Setter s_threads := ltac:(mk_setter state_eta).

(** [wakeup1]'s effect on one entry of the process table. *)
Definition awaken (t : thread) : thread :=
  match t with
  | Waiter pc SLEEPING true => Waiter pc RUNNABLE true
  | _ => t
  end.

Definition put (t : nat) (th : thread) (s : state) : state :=
  s <| s_threads := <[t := th]> (s_threads s) |>.

(** The next atomic step of waiter [t]; [None] when it must wait. *)
Definition waiter_step (t : nat) (pc : wpc) (st : procstate) (oc : bool) (s : state)
    : option state :=
  match pc with
  | W_acquire =>
      match s_lk s with
      | None => Some (put t (Waiter W_test st oc) (s <| s_lk := Some t |>))
      | Some _ => None
      end
  | W_test =>
      Some (put t (Waiter (if s_cond s then W_release else W_acquire_ptable) st oc) s)
  | W_acquire_ptable =>
      match s_pt s with
      | None => Some (put t (Waiter W_release_lk st oc) (s <| s_pt := Some t |>))
      | Some _ => None
      end
  | W_release_lk => Some (put t (Waiter W_set_chan st oc) (s <| s_lk := None |>))
  | W_set_chan => Some (put t (Waiter W_set_state st true) s)
  | W_set_state => Some (put t (Waiter W_sched SLEEPING oc) s)
  | W_sched => Some (put t (Waiter W_parked st oc) (s <| s_pt := None |>))
  | W_parked =>
      match st, s_pt s with
      | RUNNABLE, None => Some (put t (Waiter W_clear_chan RUNNING oc) (s <| s_pt := Some t |>))
      | _, _ => None
      end
  | W_clear_chan => Some (put t (Waiter W_release_ptable st false) s)
  | W_release_ptable => Some (put t (Waiter W_acquire st oc) (s <| s_pt := None |>))
  | W_release => Some (put t (Waiter W_done st oc) (s <| s_lk := None |>))
  | W_done => None
  end.

Definition notifier_step (t : nat) (pc : npc) (s : state) : option state :=
  match pc with
  | N_acquire =>
      match s_lk s with
      | None => Some (put t (Notifier N_set) (s <| s_lk := Some t |>))
      | Some _ => None
      end
  | N_set => Some (put t (Notifier N_acquire_ptable) (s <| s_cond := true |>))
  | N_acquire_ptable =>
      match s_pt s with
      | None => Some (put t (Notifier N_wakeup1) (s <| s_pt := Some t |>))
      | Some _ => None
      end
  | N_wakeup1 =>
      Some (put t (Notifier N_release_ptable) (s <| s_threads := map awaken (s_threads s) |>))
  | N_release_ptable => Some (put t (Notifier N_release) (s <| s_pt := None |>))
  | N_release => Some (put t (Notifier N_done) (s <| s_lk := None |>))
  | N_done => None
  end.

Definition thread_step (t : nat) (s : state) : option state :=
  match s_threads s !! t with
  | Some (Waiter pc st oc) => waiter_step t pc st oc s
  | Some (Notifier pc) => notifier_step t pc s
  | None => None
  end.

Inductive reachable (roles : list bool) : state -> Prop :=
| reach_init :
    reachable roles (mkstate false None None
      (map (fun w : bool => if w then Waiter W_acquire RUNNING false
                            else Notifier N_acquire) roles))
| reach_step s t s' :
    reachable roles s -> thread_step t s = Some s' -> reachable roles s'.

(** ** Invariant *)

Definition holds_lk (th : thread) : bool :=
  match th with
  | Waiter (W_test | W_acquire_ptable | W_release_lk | W_release) _ _ => true
  | Notifier (N_set | N_acquire_ptable | N_wakeup1 | N_release_ptable | N_release) => true
  | _ => false
  end.

Definition holds_pt (th : thread) : bool :=
  match th with
  | Waiter (W_release_lk | W_set_chan | W_set_state | W_sched | W_clear_chan
           | W_release_ptable) _ _ => true
  | Notifier (N_wakeup1 | N_release_ptable) => true
  | _ => false
  end.

(** A notifier that has set the condition and not yet woken the sleepers. *)
Definition about_to_wake (th : thread) : bool :=
  match th with Notifier (N_acquire_ptable | N_wakeup1) => true | _ => false end.

(** A waiter that saw the condition false and is on its way to sleep, or
    sleeps. *)
Definition falling_asleep (th : thread) : bool :=
  match th with
  | Waiter (W_acquire_ptable | W_release_lk | W_set_chan | W_set_state) _ _ => true
  | Waiter _ SLEEPING _ => true
  | _ => false
  end.

(** The [state] and [chan] fields agree with the program counter. *)
Definition thread_ok (th : thread) : bool :=
  match th with
  | Waiter W_sched SLEEPING true => true
  | Waiter W_parked (SLEEPING | RUNNABLE) true => true
  | Waiter W_clear_chan RUNNING true | Waiter W_set_state RUNNING true => true
  | Waiter (W_sched | W_parked | W_clear_chan | W_set_state) _ _ => false
  | Waiter _ RUNNING false => true
  | Waiter _ _ _ => false
  | Notifier _ => true
  end.

Record inv (s : state) : Prop := {
  inv_lk t th : s_threads s !! t = Some th -> holds_lk th = true <-> s_lk s = Some t;
  inv_pt t th : s_threads s !! t = Some th -> holds_pt th = true <-> s_pt s = Some t;
  inv_thread t th : s_threads s !! t = Some th -> thread_ok th = true;
  inv_wake t th : s_threads s !! t = Some th -> falling_asleep th = true ->
    s_cond s = false \/
    exists n th', s_threads s !! n = Some th' /\ about_to_wake th' = true
}.

Lemma lookup_put t th th0 s j :
  s_threads s !! t = Some th0 ->
  s_threads (put t th s) !! j = if decide (t = j) then Some th else s_threads s !! j.
Proof.
  intros Ht. unfold put. rsimpl. rewrite list_lookup_insert.
  apply lookup_lt_Some in Ht. repeat case_decide; tauto.
Qed.

(** A lock whose holder is [o] before and [o1] after a step of [t], which
    holds it before iff [h] and after iff [h']. *)
Definition lock_step (h h' : bool) (o o1 : option nat) (t : nat) : Prop :=
  if h then o1 = if h' then o else None
  else if h' then o = None /\ o1 = Some t else o1 = o.

Lemma lock_step_holder h h' o o1 t :
  lock_step h h' o o1 t -> (h = true <-> o = Some t) ->
  (h' = true <-> o1 = Some t) /\
  forall (hj : bool) j, t <> j -> (hj = true <-> o = Some j) -> (hj = true <-> o1 = Some j).
Proof.
  unfold lock_step. intros Hl Ht.
  assert (o1 = if h' then (if h then o else Some t) else if h then None else o) as ->
    by (destruct h, h'; naive_solver).
  split; [|intros hj j Hj Hh]; destruct h, h'; naive_solver.
Qed.

(** A step of thread [t] that leaves the other threads alone preserves the
    invariant if the new locks are the ones the new program point holds, and
    [t] does not fall asleep, or cancel a wakeup, while the condition holds. *)
Lemma put_inv s s1 t th th' :
  inv s -> s_threads s !! t = Some th -> s_threads s1 = s_threads s ->
  thread_ok th' = true ->
  lock_step (holds_lk th) (holds_lk th') (s_lk s) (s_lk s1) t ->
  lock_step (holds_pt th) (holds_pt th') (s_pt s) (s_pt s1) t ->
  (s_cond s1 = s_cond s \/ about_to_wake th' = true) ->
  (about_to_wake th = true -> about_to_wake th' = true) ->
  (falling_asleep th' = true -> falling_asleep th = true \/ s_cond s1 = false) ->
  inv (put t th' s1).
Proof.
  intros Hinv Ht Hths Hok Hlk Hpt Hcond Habout Hfall.
  pose proof (lock_step_holder _ _ _ _ _ Hlk (inv_lk _ Hinv _ _ Ht)) as Hlk'.
  pose proof (lock_step_holder _ _ _ _ _ Hpt (inv_pt _ Hinv _ _ Ht)) as Hpt'.
  assert (s_threads s1 !! t = Some th) as Ht1 by (by rewrite Hths).
  assert (forall f : bool, (f = true -> s_cond s = false \/
      exists n th', s_threads s !! n = Some th' /\ about_to_wake th' = true) ->
    f = true -> s_cond s1 = false \/ exists n th0, s_threads (put t th' s1) !! n = Some th0 /\
      about_to_wake th0 = true) as Hwake.
  { intros f Hf Hf1. destruct (Hf Hf1) as [Hc|(n & thn & Hn & Hab)].
    - destruct Hcond as [->|Hc']; [by left|right]. exists t, th'.
      by rewrite (lookup_put _ _ th), decide_True by done.
    - right. destruct (decide (t = n)) as [<-|Hne].
      + exists t, th'. rewrite (lookup_put _ _ th), decide_True by done.
        split; [done|]. apply Habout. congruence.
      + exists n, thn. by rewrite (lookup_put _ _ th), decide_False, Hths by done. }
  split; intros j thj; rewrite (lookup_put t th' th s1 j Ht1), Hths;
    case_decide as Hj; try subst j;
    [intros [= <-]|intros Hthj|intros [= <-]|intros Hthj|intros [= <-]|intros Hthj
    |intros [= <-] Hf|intros Hthj].
  - exact (proj1 Hlk').
  - apply (proj2 Hlk'); [done|by apply (inv_lk _ Hinv)].
  - exact (proj1 Hpt').
  - apply (proj2 Hpt'); [done|by apply (inv_pt _ Hinv)].
  - done.
  - by apply (inv_thread _ Hinv) in Hthj.
  - destruct (Hfall Hf) as [Hf'|Hc]; [|by left].
    by apply (Hwake (falling_asleep th)); [apply (inv_wake _ Hinv t)|].
  - by apply Hwake, (inv_wake _ Hinv j).
Qed.

Lemma waiter_step_inv s s' t pc st oc :
  inv s -> s_threads s !! t = Some (Waiter pc st oc) ->
  waiter_step t pc st oc s = Some s' -> inv s'.
Proof.
  intros Hinv Ht Hs. pose proof (inv_thread _ Hinv _ _ Ht) as Hok.
  destruct pc; simpl in Hs; try discriminate Hs; repeat case_match; simplify_eq;
    (eapply put_inv; [exact Hinv | exact Ht | reflexivity | ..]);
    unfold lock_step; simpl in *; repeat case_match; naive_solver.
Qed.

Lemma awaken_lookup s j th :
  map awaken (s_threads s) !! j = Some th ->
  exists th0, s_threads s !! j = Some th0 /\ th = awaken th0.
Proof. intros H. apply list_lookup_fmap_Some in H as (th0 & -> & H). eauto. Qed.

Lemma awaken_holds th :
  holds_lk (awaken th) = holds_lk th /\ holds_pt (awaken th) = holds_pt th.
Proof. destruct th as [pc [] []|]; by destruct pc. Qed.

(** [wakeup1] leaves no sleeper, and no thread on its way to sleep. *)
Lemma wakeup1_inv s t :
  inv s -> s_threads s !! t = Some (Notifier N_wakeup1) ->
  inv (put t (Notifier N_release_ptable) (s <| s_threads := map awaken (s_threads s) |>)).
Proof.
  intros Hinv Ht.
  pose proof (proj1 (inv_lk _ Hinv _ _ Ht) eq_refl) as Hlk.
  pose proof (proj1 (inv_pt _ Hinv _ _ Ht) eq_refl) as Hpt.
  assert (s_threads (s <| s_threads := map awaken (s_threads s) |>) !! t
    = Some (awaken (Notifier N_wakeup1))) as Ht1
    by (rsimpl; by rewrite list_lookup_fmap, Ht).
  split; intros j th; rewrite (lookup_put t _ _ _ j Ht1); case_decide as Hj; try subst j;
    unfold put; rsimpl; try (intros [= <-]; simpl; intuition discriminate);
    intros (th0 & Hth0 & ->)%awaken_lookup;
    pose proof (inv_lk _ Hinv _ _ Hth0) as Hlk0; pose proof (inv_pt _ Hinv _ _ Hth0) as Hpt0;
    pose proof (inv_thread _ Hinv _ _ Hth0) as Hok0.
  - by rewrite (proj1 (awaken_holds th0)).
  - by rewrite (proj2 (awaken_holds th0)).
  - assert (holds_pt th0 = false) as Hp
      by (rewrite Hpt in Hpt0; destruct (holds_pt th0); naive_solver).
    destruct th0 as [pc st oc|]; [|done]. by destruct pc, st, oc.
  - assert (holds_lk th0 = false /\ holds_pt th0 = false) as [Hl Hp].
    { rewrite Hlk in Hlk0. rewrite Hpt in Hpt0.
      destruct (holds_lk th0), (holds_pt th0); naive_solver. }
    destruct th0 as [pc st oc|]; [|done]. by destruct pc, st, oc.
Qed.

Lemma notifier_step_inv s s' t pc :
  inv s -> s_threads s !! t = Some (Notifier pc) ->
  notifier_step t pc s = Some s' -> inv s'.
Proof.
  intros Hinv Ht Hs. destruct pc; simpl in Hs; try discriminate Hs;
    repeat case_match; simplify_eq; try (by apply wakeup1_inv);
    (eapply put_inv; [exact Hinv | exact Ht | reflexivity | ..]);
    unfold lock_step; simpl; naive_solver.
Qed.

Lemma init_inv roles :
  inv (mkstate false None None
      (map (fun w : bool => if w then Waiter W_acquire RUNNING false
                            else Notifier N_acquire) roles)).
Proof.
  split; intros t th Hth; simpl in *; apply list_lookup_fmap_Some in Hth as ([] & -> & _);
    simpl; naive_solver.
Qed.

Lemma reachable_inv roles s : reachable roles s -> inv s.
Proof.
  induction 1 as [|s t s' _ IH Hst]; [apply init_inv|].
  unfold thread_step in Hst.
  destruct (s_threads s !! t) as [[pc st oc|pc]|] eqn:Ht; [| |done].
  - by eapply waiter_step_inv.
  - by eapply notifier_step_inv.
Qed.

(** C33: no wakeup is lost.  In any interleaving of any number of waiters and
    notifiers, once the condition holds and no notifier is still between
    setting it and finishing [wakeup1], no waiter sleeps or is on its way to
    sleep: each of them is about to test the condition again, or done. *)
Theorem no_lost_wakeup roles s :
  reachable roles s -> s_cond s = true ->
  (forall n th, s_threads s !! n = Some th -> about_to_wake th = false) ->
  forall t pc st oc, s_threads s !! t = Some (Waiter pc st oc) ->
  st <> SLEEPING /\
  pc ∉ [W_acquire_ptable; W_release_lk; W_set_chan; W_set_state; W_sched].
Proof.
  intros Hr Hc Hn t pc st oc Ht. apply reachable_inv in Hr as Hinv.
  pose proof (inv_thread _ Hinv _ _ Ht) as Hok.
  assert (falling_asleep (Waiter pc st oc) = false) as Hf.
  { apply not_true_is_false. intros Hf.
    destruct (inv_wake _ Hinv _ _ Ht Hf) as [?|(n & th & Hth & Hab)]; [congruence|].
    specialize (Hn _ _ Hth). congruence. }
  split; [intros ->; by destruct pc|].
  intros Hin. destruct pc; try discriminate Hf; try (clear - Hin; set_solver).
  by destruct st, oc.
Qed.

(** A schedule: the thread that moves at each step. *)
Fixpoint run (sched : list nat) (s : state) : option state :=
  match sched with
  | [] => Some s
  | t :: sched' => match thread_step t s with Some s' => run sched' s' | None => None end
  end.

Lemma run_reachable roles sched s s' :
  reachable roles s -> run sched s = Some s' -> reachable roles s'.
Proof.
  revert s. induction sched as [|t sched IH]; intros s Hr Hrun; simpl in Hrun; simplify_eq; [done|].
  destruct (thread_step t s) as [s1|] eqn:E; [|done].
  apply (IH s1); [|done]. by eapply reach_step.
Qed.

(** The waiter goes to sleep first, then the notifier runs to its end. *)
Lemma no_lost_wakeup_witness :
  exists s pc st oc, reachable [true; false] s /\ s_cond s = true /\
    s_threads s !! 0%nat = Some (Waiter pc st oc) /\ st <> SLEEPING.
Proof.
  assert (exists s, run (replicate 7 0%nat ++ replicate 6 1%nat)
    (mkstate false None None [Waiter W_acquire RUNNING false; Notifier N_acquire]) = Some s /\
    s_cond s = true /\ s_threads s = [Waiter W_parked RUNNABLE true; Notifier N_done])
    as (s & Hrun & Hc & Hths) by (eexists; split; [reflexivity|split; reflexivity]).
  pose proof (run_reachable [true; false] _ _ _ (reach_init _) Hrun) as Hr.
  exists s, W_parked, RUNNABLE, true. split; [exact Hr|]. split; [exact Hc|].
  split; [rewrite Hths; reflexivity|].
  refine (proj1 (no_lost_wakeup [true; false] s Hr Hc _ 0%nat W_parked RUNNABLE true _)).
  - rewrite Hths. intros [|[|n]] th H; simpl in H; [| |discriminate H];
      injection H as <-; reflexivity.
  - rewrite Hths. reflexivity.
Defined.
