(* ===== verification/Sem.v ===== *)
(** Semaphores (proc.c): [sem_init], [sem_acquire], [sem_release], the ring of
    waiting processes they keep, and what they guarantee to the processes
    that use them. *)

From S2P Require Import Prelude Types Spinlock Proc.

Definition MAX_SEMAPHORE_PROC : Z := Z.of_nat NPROC.
Definition MAX_SEMAPHORE : nat := 5.

(** [semtable[i]]: the index comes from user space unchecked. *)
Definition get_sem (i : Z) : K semaphore :=
  if (i <? 0) then undef "semtable index" else
  s ← gets (fun k : kernel => k_sems k !! Z.to_nat i); deref "semtable index" s.

Definition upd_sem (i : Z) (f : semaphore -> semaphore) : K unit :=
  _ ← get_sem i;
  modify (fun k => k <| k_sems := alter f (Z.to_nat i) (k_sems k) |>).

(** [queue[index]], out of range of the array undefined. *)
Definition queue_store (index : Z) (p : option nat) (s : semaphore) : semaphore :=
  s <| sem_queue := <[Z.to_nat index := p]> (sem_queue s) |>.

Definition sem_init (i value : Z) : K unit :=
  upd_sem i (fun s => s <| sem_value := value |>) ;;
  upd_sem i (fun s => s <| sem_front := 0 |>) ;;
  upd_sem i (fun s => s <| sem_size := 0 |>).

Definition sem_acquire (i : Z) : K unit :=
  acquire (L_sem (Z.to_nat i)) ;;
  s ← get_sem i;
  (if sem_value s <=? 0 then
     p ← myproc;
     let index := Z.rem (s32 (sem_front s + sem_size s)) MAX_SEMAPHORE_PROC in
     upd_sem i (fun s => s <| sem_size := s32 (sem_size s + 1) |>) ;;
     (if (index <? 0) then undef "queue index" else
      upd_sem i (queue_store index p)) ;;
     match p with
     | None => panic "sleep"
     | Some j => sleep (Ch_pid j) (Some (L_sem (Z.to_nat i)))
     end
   else mret tt) ;;
  upd_sem i (fun s => s <| sem_value := s32 (sem_value s - 1) |>) ;;
  release (L_sem (Z.to_nat i)).

Definition sem_release (i : Z) : K unit :=
  acquire (L_sem (Z.to_nat i)) ;;
  upd_sem i (fun s => s <| sem_value := s32 (sem_value s + 1) |>) ;;
  s ← get_sem i;
  (if (0 <? sem_value s) && (0 <? sem_size s) then
     let index := sem_front s in
     upd_sem i (fun s => s <| sem_front := Z.rem (s32 (sem_front s + 1)) MAX_SEMAPHORE_PROC |>) ;;
     upd_sem i (fun s => s <| sem_size := s32 (sem_size s - 1) |>) ;;
     q ← deref "queue index" (sem_queue s !! Z.to_nat index);
     j ← deref "queue[index] is null" q;
     wakeup (Ch_pid j)
   else mret tt) ;;
  release (L_sem (Z.to_nat i)).

(** ** The ring as a queue *)

(** The invariant of a semaphore's ring. *)
Record sem_ok (s : semaphore) : Prop := {
  so_len : length (sem_queue s) = NPROC;
  so_front : 0 <= sem_front s < MAX_SEMAPHORE_PROC;
  so_size : 0 <= sem_size s <= MAX_SEMAPHORE_PROC
}.

Definition slot (s : semaphore) (j : nat) : nat :=
  Z.to_nat ((sem_front s + Z.of_nat j) mod MAX_SEMAPHORE_PROC).

(** The processes waiting, the one to wake first at the head. *)
Definition waiting (s : semaphore) : list (option nat) :=
  map (fun j => default None (sem_queue s !! slot s j)) (seq 0 (Z.to_nat (sem_size s))).

(** What the two ring operations do to the semaphore. *)
Definition enqueue (p : option nat) (s : semaphore) : semaphore :=
  queue_store (Z.rem (s32 (sem_front s + sem_size s)) MAX_SEMAPHORE_PROC) p
    (s <| sem_size := s32 (sem_size s + 1) |>).
Definition dequeue (s : semaphore) : semaphore :=
  s <| sem_front := Z.rem (s32 (sem_front s + 1)) MAX_SEMAPHORE_PROC |>
    <| sem_size := s32 (sem_size s - 1) |>.

Lemma max_proc : MAX_SEMAPHORE_PROC = 64.
Proof. done. Qed.

Lemma ring_index a : 0 <= a < 1000 -> Z.rem (s32 a) 64 = a mod 64.
Proof. intros. rewrite s32_small by lia. apply Z.rem_mod_nonneg; lia. Qed.

Lemma slot_64 s j : slot s j = Z.to_nat ((sem_front s + Z.of_nat j) mod 64).
Proof. done. Qed.

Lemma waiting_enqueue p s :
  sem_ok s -> sem_size s < MAX_SEMAPHORE_PROC ->
  sem_ok (enqueue p s) /\ waiting (enqueue p s) = waiting s ++ [p].
Proof.
  rewrite max_proc. intros [Hlen Hf Hs] Hlt. rewrite max_proc in *.
  unfold enqueue. rewrite max_proc, ring_index by lia.
  rewrite (s32_small (sem_size s + 1)) by lia. split.
  - split; unfold queue_store; rsimpl; rewrite ?length_insert, ?max_proc; lia.
  - unfold waiting, queue_store. rsimpl.
    replace (Z.to_nat (sem_size s + 1)) with (S (Z.to_nat (sem_size s))) by lia.
    rewrite seq_S, map_app. simpl. f_equal.
    + apply map_ext_in. intros j [_ Hj]%in_seq. f_equal. rewrite !slot_64. rsimpl.
      apply list_lookup_insert_ne. intros Heq. Z.to_euclidean_division_equations. lia.
    + f_equal. rewrite slot_64. rsimpl. rewrite Z2Nat.id by lia.
      rewrite list_lookup_insert_eq; [done|]. rewrite Hlen.
      pose proof (Z.mod_pos_bound (sem_front s + sem_size s) 64). unfold NPROC. lia.
Qed.

Lemma waiting_dequeue s :
  sem_ok s -> 0 < sem_size s ->
  exists p, waiting s = p :: waiting (dequeue s) /\ sem_ok (dequeue s) /\
    sem_queue s !! Z.to_nat (sem_front s) = Some p.
Proof.
  intros [Hlen Hf Hs] Hpos. rewrite max_proc in *.
  destruct (lookup_lt_is_Some_2 (sem_queue s) (Z.to_nat (sem_front s))) as [p Hp];
    [rewrite Hlen; unfold NPROC; lia|].
  exists p. unfold dequeue. rewrite max_proc, ring_index by lia.
  rewrite (s32_small (sem_size s - 1)) by lia. split; [|split; [|done]].
  - unfold waiting. rsimpl.
    replace (Z.to_nat (sem_size s)) with (S (Z.to_nat (sem_size s - 1))) by lia.
    simpl. f_equal.
    + rewrite slot_64, Z.add_0_r, Z.mod_small by lia. by rewrite Hp.
    + rewrite <-seq_shift, map_map. apply map_ext_in. intros j _. rewrite !slot_64. rsimpl.
      do 3 f_equal. Z.to_euclidean_division_equations. lia.
  - split; rsimpl; rewrite ?max_proc; try done; [|lia]. apply Z.mod_pos_bound. lia.
Qed.

(** ** Execution *)

Section Run.
  Context (n : nat) (s : semaphore) (k : kernel).
  Hypothesis Hs : k_sems k !! n = Some s.

Lemma get_sem_run e : get_sem (Z.of_nat n) k e = Ret s k e.
Proof.
  unfold get_sem. rewrite (proj2 (Z.ltb_ge _ _)) by lia. rewrite Nat2Z.id. mrun. by rewrite Hs.
Qed.

Lemma upd_sem_run f e :
  upd_sem (Z.of_nat n) f k e = Ret tt (k <| k_sems := <[n := f s]> (k_sems k) |>) e.
Proof.
  unfold upd_sem. mcall get_sem_run. rewrite Nat2Z.id. unfold modify.
  by rewrite (list_alter_lookup _ _ _ s).
Qed.
End Run.

Lemma sem_insert (n : nat) (s s' : semaphore) (l : list semaphore) :
  l !! n = Some s -> <[n := s']> l !! n = Some s'.
Proof. intros. apply list_lookup_insert_eq. by eapply lookup_lt_Some. Qed.

(** The part of [sem_release] that takes the first process and wakes it. *)
Lemma wake_first_run (n : nat) s k e j :
  cpu_ok (k_cpu k) -> L_ptable ∉ c_held (k_cpu k) -> procs_ok k ->
  k_sems k !! n = Some s -> sem_queue s !! Z.to_nat (sem_front s) = Some (Some j) ->
  0 < c_ncli (k_cpu k) ->
  (upd_sem (Z.of_nat n) (fun s => s <| sem_front :=
     Z.rem (s32 (sem_front s + 1)) MAX_SEMAPHORE_PROC |>) ;;
   upd_sem (Z.of_nat n) (fun s => s <| sem_size := s32 (sem_size s - 1) |>) ;;
   q ← deref "queue index" (sem_queue s !! Z.to_nat (sem_front s));
   j ← deref "queue[index] is null" q;
   wakeup (Ch_pid j)) k e =
  Ret tt (k <| k_sems := <[n := dequeue s]> (k_sems k) |>
            <| k_procs := map (wake (Ch_pid j)) (k_procs k) |>) e.
Proof.
  intros Hcpu Hpt Hok Hs Hq Hn.
  mcall upd_sem_run; [exact Hs|]. mcall upd_sem_run; [by apply (sem_insert n s)|].
  rewrite Hq. mrun. rsimpl. rewrite list_insert_insert_eq.
  rewrite wakeup_run by done. by rewrite cpu_touch_cli.
Qed.

(** [sem_release] on a semaphore with waiting processes and a value that
    becomes positive takes the process that has waited longest out of the
    queue and wakes it, and only it; otherwise it only increments the value.
    It always returns, with the semaphore's lock released. *)
Theorem sem_release_fifo (n : nat) s k e :
  cpu_ok (k_cpu k) -> L_sem n ∉ c_held (k_cpu k) -> L_ptable ∉ c_held (k_cpu k) ->
  procs_ok k -> k_sems k !! n = Some s -> sem_ok s -> Forall is_Some (waiting s) ->
  - 2 ^ 31 <= sem_value s < 2 ^ 31 - 1 ->
  exists k' s', sem_release (Z.of_nat n) k e = Ret tt k' e /\
    c_held (k_cpu k') = c_held (k_cpu k) /\
    k_sems k' = <[n := s']> (k_sems k) /\ sem_ok s' /\ sem_value s' = sem_value s + 1 /\
    match waiting s with
    | Some j :: rest =>
        if 0 <? sem_value s + 1
        then waiting s' = rest /\ k_procs k' = map (wake (Ch_pid j)) (k_procs k)
        else waiting s' = waiting s /\ k_procs k' = k_procs k
    | _ => waiting s' = [] /\ k_procs k' = k_procs k
    end.
Proof.
  intros Hcpu Hfree Hpt Hok Hs Hsem Hsome Hv.
  pose proof (cpu_acq_ok _ _ Hcpu Hfree) as Hacq.
  assert (c_held (cpu_touch (k_cpu k)) = c_held (k_cpu k)) as Hh by apply cpu_touch_held.
  set (s1 := s <| sem_value := sem_value s + 1 |>). assert (sem_ok s1) as Hsem1 by (by destruct Hsem).
  unfold sem_release. rewrite Nat2Z.id. mcall acquire_run; [done|done|].
  mcall upd_sem_run; [exact Hs|]. rewrite s32_small by lia. fold s1. rsimpl.
  mcall get_sem_run; [by apply (sem_insert n s)|]. change (sem_size s1) with (sem_size s).
  change (sem_value s1) with (sem_value s + 1).
  destruct (Z.ltb_spec 0 (sem_size s)) as [Hpos|Hzero].
  - destruct (waiting_dequeue s1) as (q & Hq & Hok1 & Hlook); [by destruct Hsem|done|].
    change (waiting s1) with (waiting s) in Hq. rewrite Hq in *.
    apply Forall_cons in Hsome as [[j ->] _].
    destruct (0 <? sem_value s + 1); simpl.
    + mcall (wake_first_run n s1 _ _ j); rsimpl;
        [done|unfold cpu_acq; rsimpl; set_solver|done|by apply (sem_insert n s)|done
        |unfold cpu_acq; rsimpl; pose proof (cpu_ok_sane _ Hcpu) as []; lia|].
      rsimpl. rewrite release_run; rsimpl; [|done|apply list_elem_of_here].
      rewrite cpu_rel_acq, list_insert_insert_eq by done.
      exists (k <| k_sems := <[n := dequeue s1]> (k_sems k) |>
        <| k_procs := map (wake (Ch_pid j)) (k_procs k) |> <| k_cpu := cpu_touch (k_cpu k) |>),
        (dequeue s1). done.
    + mrun. rewrite release_run; rsimpl; [|done|apply list_elem_of_here].
      rewrite cpu_rel_acq by done.
      exists (k <| k_sems := <[n := s1]> (k_sems k) |> <| k_cpu := cpu_touch (k_cpu k) |>), s1. done.
  - rewrite andb_false_r. mrun. rewrite release_run; rsimpl; [|done|apply list_elem_of_here].
    rewrite cpu_rel_acq by done.
    exists (k <| k_sems := <[n := s1]> (k_sems k) |> <| k_cpu := cpu_touch (k_cpu k) |>), s1.
    assert (waiting s = [] /\ waiting s1 = []) as [-> Hw1]
      by (unfold waiting; unfold s1; rsimpl; by replace (Z.to_nat (sem_size s)) with 0%nat by lia).
    done.
Qed.

(** The state in which [sem_acquire] gives up the CPU. *)
Definition sem_asleep (n j : nat) (p : proc) (s : semaphore) (k : kernel) : kernel :=
  asleep j p (Ch_pid j) (L_sem n)
    (k <| k_cpu := cpu_acq (L_sem n) (k_cpu k) |>
       <| k_sems := <[n := enqueue (Some j) s]> (k_sems k) |>).

Lemma sem_dec_run (n : nat) s k e :
  cpu_ok (k_cpu k) -> L_sem n ∈ c_held (k_cpu k) -> k_sems k !! n = Some s ->
  (upd_sem (Z.of_nat n) (fun s => s <| sem_value := s32 (sem_value s - 1) |>) ;;
   release (L_sem n)) k e =
  Ret tt (k <| k_sems := <[n := s <| sem_value := s32 (sem_value s - 1) |>]> (k_sems k) |>
            <| k_cpu := cpu_rel (L_sem n) (k_cpu k) |>) e.
Proof.
  intros Hcpu Hh Hs. mcall upd_sem_run; [exact Hs|]. by rewrite release_run.
Qed.

Lemma sem_acquire_sleep_run (n j : nat) p s k e :
  cpu_ok (k_cpu k) -> c_held (k_cpu k) = [] -> c_proc (k_cpu k) = Some j ->
  k_procs k !! j = Some p -> k_sems k !! n = Some s -> sem_ok s -> sem_value s <= 0 ->
  sem_acquire (Z.of_nat n) k e =
  match swtch_loop j (sem_asleep n j p s k) e with
  | Ret _ k' e' =>
      ((upd_proc j (fun p => p <| p_chan := None |>) ;; release L_ptable ;; acquire (L_sem n)) ;;
       upd_sem (Z.of_nat n) (fun s => s <| sem_value := s32 (sem_value s - 1) |>) ;;
       release (L_sem n))
        (k' <| k_cpu := k_cpu k' <| c_intena := c_intena (k_cpu (sem_asleep n j p s k)) |> |>) e'
  | Panic m k' => Panic m k'
  | Parked k' => Parked k'
  | Undef w => Undef w
  end.
Proof.
  intros Hcpu Hh Hcur Hp Hs Hsem Hv.
  assert (L_sem n ∉ c_held (k_cpu k)) as Hfree by (rewrite Hh; apply not_elem_of_nil).
  pose proof (cpu_acq_ok _ _ Hcpu Hfree) as Hacq.
  assert (0 < c_ncli (cpu_acq (L_sem n) (k_cpu k))) as Hn
    by (unfold cpu_acq; rsimpl; pose proof (cpu_ok_sane _ Hcpu) as []; lia).
  unfold sem_acquire. rewrite Nat2Z.id. mcall acquire_run; [done|done|].
  mcall get_sem_run; [exact Hs|]. replace (sem_value s <=? 0) with true by lia.
  rewrite bind_assoc. mcall myproc_run; [by apply cpu_ok_sane|]. rsimpl.
  rewrite (cpu_touch_cli (cpu_acq _ _)) by done.
  replace (c_proc (cpu_acq (L_sem n) (k_cpu k))) with (Some j)
    by (unfold cpu_acq; rsimpl; by rewrite cpu_touch_proc).
  rewrite bind_assoc. mcall upd_sem_run; [exact Hs|]. rewrite bind_assoc.
  rewrite (proj2 (Z.ltb_ge _ _)) by (rewrite max_proc, ring_index by (destruct Hsem as [_ ? ?];
    rewrite max_proc in *; lia); apply Z.mod_pos_bound; lia).
  mcall upd_sem_run; [by apply (sem_insert n s)|]. rsimpl. rewrite list_insert_insert_eq.
  fold (enqueue (Some j) s).
  unfold mbind at 1, M_bind at 1. erewrite (sleep_run j p); rsimpl; try done.
  - fold (sem_asleep n j p s k). unfold sem_asleep.
    destruct (swtch_loop _ _ _); [|done..].
    unfold mbind, M_bind. done.
  - unfold cpu_acq. rsimpl. by rewrite Hh.
  - unfold cpu_acq. rsimpl. by rewrite cpu_touch_proc.
Qed.

(** [sem_acquire].  With a positive value it decrements the value and
    returns at once.  Otherwise the caller is appended to the waiting queue
    and gives up the CPU, SLEEPING on its own pid, the semaphore's lock
    released and [ptable.lock] held; whenever it is resumed, it returns with
    the value decremented, whatever the value is by then. *)
Theorem sem_acquire_spec (n j : nat) p s k e :
  cpu_ok (k_cpu k) -> c_held (k_cpu k) = [] -> c_proc (k_cpu k) = Some j ->
  k_procs k !! j = Some p -> k_sems k !! n = Some s -> sem_ok s ->
  sem_size s < MAX_SEMAPHORE_PROC -> sem_value s < 2 ^ 31 ->
  if 0 <? sem_value s then
    exists c, sem_acquire (Z.of_nat n) k e =
      Ret tt (k <| k_sems := <[n := s <| sem_value := sem_value s - 1 |>]> (k_sems k) |>
                <| k_cpu := c |>) e /\ c_held c = []
  else exists k1 s1,
    k_sems k1 = <[n := s1]> (k_sems k) /\ sem_ok s1 /\ sem_value s1 = sem_value s /\ waiting s1 = waiting s ++ [Some j] /\
    k_procs k1 = <[j := p <| p_chan := Some (Ch_pid j) |> <| p_state := SLEEPING |>]> (k_procs k) /\
    c_held (k_cpu k1) = [L_ptable] /\
    (swtch_loop j k1 e = Parked k1 -> sem_acquire (Z.of_nat n) k e = Parked k1) /\
    forall k2 e2 s2, swtch_loop j k1 e = Ret tt k2 e2 ->
      cpu_ok (k_cpu k2) -> c_held (k_cpu k2) = [L_ptable] -> k_sems k2 !! n = Some s2 ->
      exists c, sem_acquire (Z.of_nat n) k e =
        Ret tt (k2 <| k_procs := alter (fun p => p <| p_chan := None |>) j (k_procs k2) |>
          <| k_sems := <[n := s2 <| sem_value := s32 (sem_value s2 - 1) |>]> (k_sems k2) |>
          <| k_cpu := c |>) e2 /\ c_held c = [].
Proof.
  intros Hcpu Hh Hcur Hp Hs Hsem Hlt Hmax.
  assert (L_sem n ∉ c_held (k_cpu k)) as Hfree by (rewrite Hh; apply not_elem_of_nil).
  pose proof (cpu_acq_ok _ _ Hcpu Hfree) as Hacq.
  destruct (Z.ltb_spec 0 (sem_value s)) as [Hpos|Hneg].
  - unfold sem_acquire. rewrite Nat2Z.id. mcall acquire_run; [done|done|].
    mcall get_sem_run; [exact Hs|]. replace (sem_value s <=? 0) with false by lia.
    rewrite (bind_Ret (mret tt) _ _ _ _ _ _ eq_refl).
    rewrite (sem_dec_run n s); [|done|apply list_elem_of_here|done]. rewrite s32_small by lia.
    exists (cpu_touch (k_cpu k)). rsimpl. rewrite cpu_rel_acq by done.
    by rewrite cpu_touch_held.
  - destruct (waiting_enqueue (Some j) s Hsem Hlt) as [Hok1 Hw].
    exists (sem_asleep n j p s k), (enqueue (Some j) s). do 5 (split; [done|]). split.
    { apply asleep_held; [|done]. unfold cpu_acq. rsimpl. by rewrite Hh. }
    pose proof (sem_acquire_sleep_run n j p s k e Hcpu Hh Hcur Hp Hs Hsem Hneg) as ->.
    split; [by intros ->|]. intros k2 e2 s2 -> Hok2 Hh2 Hs2.
    destruct (sleep_resume j (L_sem n) (k2 <| k_cpu := k_cpu k2
      <| c_intena := c_intena (k_cpu (sem_asleep n j p s k)) |> |>) e2)
      as (c & Hres & Hc & _ & Hcok); [by destruct Hok2|done|].
    rewrite (bind_Ret _ _ _ _ _ _ _ Hres). rsimpl.
    rewrite (sem_dec_run n s2); rsimpl; [|done|rewrite Hc; apply list_elem_of_here|done].
    exists (cpu_rel (L_sem n) c). split; [done|]. unfold cpu_rel. rsimpl.
    by rewrite Hc, filter_cons_False by tauto.
Qed.

(** ** Mutual exclusion fails *)

(** Process [i] running on the CPU, outside any lock. *)
Definition on_cpu (i : nat) (k : kernel) : kernel :=
  k <| k_procs := alter (fun p => p <| p_state := RUNNING |>) i (k_procs k) |>
    <| k_cpu := mkcpu (Some i) 0 false true [] 0 0 |>.

(** The scheduler having switched to process [i] inside [sched]. *)
Definition resumed (i : nat) (k : kernel) : kernel :=
  k <| k_procs := alter (fun p => p <| p_state := RUNNING |>) i (k_procs k) |>
    <| k_cpu := mkcpu (Some i) 1 false false [L_ptable] 0 0 |>.

Definition sem_demo : kernel :=
  bare_kernel <| k_procs := map (fun pid => zero_proc <| p_pid := pid |>
    <| p_state := RUNNABLE |>) [1; 2; 3] ++ replicate 61 zero_proc |>.

(** C38: a semaphore with initial value 1 does not exclude: process 0 acquires
    it, process 1 sleeps in [sem_acquire], process 0 releases it (which wakes
    process 1), process 2 acquires it before process 1 runs, and process 1
    then returns from [sem_acquire] as well, because it does not test the
    value again; processes 1 and 2 are both inside and the value is -1. *)
Theorem sem_barging :
  exists k1 k2 k3 k4 k5,
    (sem_init 0 1 ;; sem_acquire 0) (on_cpu 0 sem_demo) [] = Ret tt k1 [] /\
    sem_acquire 0 (on_cpu 1 k1) [] = Parked k2 /\
    sem_release 0 (on_cpu 0 k2) [] = Ret tt k3 [] /\
    sem_acquire 0 (on_cpu 2 k3) [] = Ret tt k4 [] /\
    p_state <$> k_procs k4 !! 1%nat = Some RUNNABLE /\
    sem_acquire 0 (on_cpu 1 k1) [fun _ => resumed 1 k4] = Ret tt k5 [] /\
    sem_value <$> k_sems k5 !! 0%nat = Some (-1).
Proof.
  do 5 eexists. split; [vm_compute; reflexivity|]. split; [vm_compute; reflexivity|].
  split; [vm_compute; reflexivity|]. split; [vm_compute; reflexivity|].
  split; [vm_compute; reflexivity|]. split; vm_compute; reflexivity.
Qed.

(** ** The protocol of well-behaved processes *)

(** A process as the semaphore sees it, and the semaphore with the queue of
    waiting processes.  A step is one critical section of [semtable[i].lock].
    The processes of this relation release only what they have acquired and
    are not killed while they sleep, as the philosophers of Phil; [ustep]
    below has every use. *)
Inductive sproc : Type := Idle | Waiting | Woken | Inside.

Record sstate : Type := mksstate { ss_value : Z; ss_queue : list nat; ss_procs : list sproc }.

Inductive sstep : sstate -> sstate -> Prop :=
| S_acquire v q ps i :
    ps !! i = Some Idle -> 0 < v ->
    sstep (mksstate v q ps) (mksstate (v - 1) q (<[i := Inside]> ps))
| S_block v q ps i :
    ps !! i = Some Idle -> v <= 0 ->
    sstep (mksstate v q ps) (mksstate v (q ++ [i]) (<[i := Waiting]> ps))
| S_resume v q ps i :
    ps !! i = Some Woken ->
    sstep (mksstate v q ps) (mksstate (v - 1) q (<[i := Inside]> ps))
| S_release v q ps i :
    ps !! i = Some Inside -> (v + 1 <= 0 \/ q = []) ->
    sstep (mksstate v q ps) (mksstate (v + 1) q (<[i := Idle]> ps))
| S_release_wake v j q ps i :
    ps !! i = Some Inside -> 0 < v + 1 ->
    sstep (mksstate v (j :: q) ps)
      (mksstate (v + 1) q (<[j := Woken]> (<[i := Idle]> ps))).

Inductive sreach (v0 : Z) (n : nat) : sstate -> Prop :=
| sreach_init : sreach v0 n (mksstate v0 [] (replicate n Idle))
| sreach_step s s' : sreach v0 n s -> sstep s s' -> sreach v0 n s'.

Definition one (x p : sproc) : Z :=
  match p, x with
  | Idle, Idle | Waiting, Waiting | Woken, Woken | Inside, Inside => 1
  | _, _ => 0
  end.

Definition count (x : sproc) (ps : list sproc) : Z :=
  fold_right (fun p n => one x p + n) 0 ps.

Lemma count_insert x ps i p p' :
  ps !! i = Some p -> count x (<[i := p']> ps) = count x ps - one x p + one x p'.
Proof.
  revert i. induction ps as [|q ps IH]; intros [|i] Hi; simplify_eq/=; [lia|].
  rewrite (IH i Hi). lia.
Qed.

Lemma count_nonneg x ps : 0 <= count x ps.
Proof. induction ps as [|p ps IH]; simpl; [lia|]. destruct p, x; simpl; lia. Qed.

Record sinv (v0 : Z) (s : sstate) : Prop := {
  si_tokens : ss_value s + count Inside (ss_procs s) = v0;
  si_queue i : i ∈ ss_queue s <-> ss_procs s !! i = Some Waiting;
  si_nodup : NoDup (ss_queue s);
  si_free : ss_queue s <> [] -> ss_value s <= count Woken (ss_procs s)
}.

Lemma waiting_insert (q : list nat) (ps : list sproc) i p p' :
  (forall j, j ∈ q <-> ps !! j = Some Waiting) -> ps !! i = Some p ->
  p <> Waiting -> p' <> Waiting ->
  forall j, j ∈ q <-> <[i := p']> ps !! j = Some Waiting.
Proof.
  intros Hq Hi Hp Hp' j. rewrite Hq, list_lookup_insert. apply lookup_lt_Some in Hi as Hlt.
  case_decide as Hd; [destruct Hd; subst|done]. split; congruence.
Qed.

Lemma sstep_inv v0 s s' : sinv v0 s -> sstep s s' -> sinv v0 s'.
Proof.
  intros [Ht Hq Hn Hf] Hst. destruct Hst as [v q ps i Hi Hv|v q ps i Hi Hv|v q ps i Hi
    |v q ps i Hi Hv|v j q ps i Hi Hv]; simpl in *.
  1-4: split; simpl; rewrite ?(count_insert _ _ i Idle), ?(count_insert _ _ i Woken),
    ?(count_insert _ _ i Inside) by done; simpl; try lia; try done;
    try (by eapply waiting_insert).
  - intros Hne. specialize (Hf Hne). lia.
  - intros j. rewrite elem_of_app, list_elem_of_singleton, list_lookup_insert.
    apply lookup_lt_Some in Hi as Hlt. case_decide as Hd; [naive_solver|].
    rewrite Hq. split; [|tauto]. intros [?| ->]; [done|]. tauto.
  - apply NoDup_app. split; [done|]. split; [|apply NoDup_singleton].
    intros j Hj ->%list_elem_of_singleton. apply Hq in Hj. congruence.
  - pose proof (count_nonneg Woken ps). lia.
  - intros Hne. specialize (Hf Hne). lia.
  - intros Hne. pose proof (count_nonneg Woken ps). destruct Hv; [lia|done].
  - assert (ps !! j = Some Waiting) as Hj by (apply Hq, list_elem_of_here).
    assert (<[i := Idle]> ps !! j = Some Waiting) as Hj'
      by (rewrite list_lookup_insert_ne by congruence; done).
    apply NoDup_cons in Hn as [Hjq Hn].
    split; simpl; rewrite ?(count_insert _ _ j Waiting), ?(count_insert _ _ i Inside) by done;
      simpl; try lia; try done.
    + intros m. rewrite list_lookup_insert, length_insert. apply lookup_lt_Some in Hj as Hlt.
      case_decide as Hd; [destruct Hd as [<- _]; split; congruence|].
      rewrite <-(waiting_insert _ _ i Inside Idle Hq Hi), elem_of_cons by done.
      split; [tauto|]. intros [->|?]; [tauto|done].
    + intros _. specialize (Hf ltac:(done)). lia.
Qed.

(** ** Any use of a semaphore *)

(** A process of the table outside [sem_acquire], asleep in it, and resumed
    in it but not yet past the semaphore's lock. *)
Inductive uproc : Type := Free | Asleep | Up.
#[export] Instance uproc_eq_dec : EqDecision uproc.
Proof. solve_decision. Defined.

(** The semaphore and the processes after [sem_init], with the number of
    returned [sem_acquire]s and [sem_release]s and of stray wakeups. *)
Record use_state : Type := mkuse {
  us_value : Z; us_queue : list nat; us_procs : list uproc;
  us_taken : Z; us_given : Z; us_strays : Z
}.

Definition wake_entry (j : nat) (ps : list uproc) : list uproc :=
  if decide (ps !! j = Some Asleep) then <[j := Up]> ps else ps.

(** A step is one critical section of [semtable[i].lock], by any process, or a
    wakeup of a sleeper that no [sem_release] of this semaphore made: [kill],
    or a release of another semaphore whose queue still has the slot of a
    process that was killed.  Any process releases, whether it has acquired
    or not.  The entry that [sem_release] takes may be the one of a process
    that does not sleep any more.  The queue has room: with all entries of the
    ring in use, [sem_acquire] would overwrite the first.  The value has not
    left the range of [int]. *)
Inductive ustep : use_state -> use_state -> Prop :=
| U_acquire v q ps t g x i :
    ps !! i = Some Free -> 0 < v ->
    ustep (mkuse v q ps t g x) (mkuse (v - 1) q ps (t + 1) g x)
| U_block v q ps t g x i :
    ps !! i = Some Free -> v <= 0 -> Z.of_nat (length q) < MAX_SEMAPHORE_PROC ->
    ustep (mkuse v q ps t g x) (mkuse v (q ++ [i]) (<[i := Asleep]> ps) t g x)
| U_resume v q ps t g x i :
    ps !! i = Some Up ->
    ustep (mkuse v q ps t g x) (mkuse (v - 1) q (<[i := Free]> ps) (t + 1) g x)
| U_release v q ps t g x i :
    ps !! i = Some Free -> v + 1 <= 0 \/ q = [] ->
    ustep (mkuse v q ps t g x) (mkuse (v + 1) q ps t (g + 1) x)
| U_release_wake v j q ps t g x i :
    ps !! i = Some Free -> 0 < v + 1 ->
    ustep (mkuse v (j :: q) ps t g x) (mkuse (v + 1) q (wake_entry j ps) t (g + 1) x)
| U_stray v q ps t g x i :
    ps !! i = Some Asleep ->
    ustep (mkuse v q ps t g x) (mkuse v q (<[i := Up]> ps) t g (x + 1)).

Inductive ureach (v0 : Z) (n : nat) : use_state -> Prop :=
| ureach_init : ureach v0 n (mkuse v0 [] (replicate n Free) 0 0 0)
| ureach_step s s' : ureach v0 n s -> ustep s s' -> ureach v0 n s'.

(** The processes in a given place, by slot. *)
Definition placed (x : uproc) (ps : list uproc) : list nat :=
  filter (fun i => ps !! i = Some x) (seq 0 (length ps)).
Definition num (x : uproc) (ps : list uproc) : Z := Z.of_nat (length (placed x ps)).

Lemma elem_of_placed x ps i : i ∈ placed x ps <-> ps !! i = Some x.
Proof.
  unfold placed. rewrite list_elem_of_filter, elem_of_seq. split; [by intros []|].
  intros Hi. split; [done|]. apply lookup_lt_Some in Hi. lia.
Qed.

Lemma NoDup_placed x ps : NoDup (placed x ps).
Proof. apply NoDup_filter, NoDup_seq. Qed.

(** A process that changes its place leaves one and enters the other. *)
Lemma num_enter x ps i y :
  ps !! i = Some y -> y <> x -> num x (<[i := x]> ps) = num x ps + 1.
Proof.
  intros Hi Hy. apply lookup_lt_Some in Hi as Hlt. unfold num.
  enough (placed x (<[i := x]> ps) ≡ₚ i :: placed x ps) as -> by (simpl; lia).
  apply NoDup_Permutation.
  - apply NoDup_placed.
  - constructor; [rewrite elem_of_placed; congruence|apply NoDup_placed].
  - intros j. rewrite elem_of_cons, !elem_of_placed.
    destruct (decide (i = j)) as [<-|Hne].
    + rewrite list_lookup_insert_eq by done. naive_solver.
    + rewrite list_lookup_insert_ne by done. naive_solver.
Qed.

Lemma num_leave x ps i y :
  ps !! i = Some x -> y <> x -> num x (<[i := y]> ps) = num x ps - 1.
Proof.
  intros Hi Hy. apply lookup_lt_Some in Hi as Hlt.
  pose proof (num_enter x (<[i := y]> ps) i y) as H.
  rewrite list_insert_insert_eq, (list_insert_id ps i x Hi) in H.
  rewrite H; [lia| |done]. by apply list_lookup_insert_eq.
Qed.

Lemma num_stay x ps i y z :
  ps !! i = Some y -> y <> x -> z <> x -> num x (<[i := z]> ps) = num x ps.
Proof.
  intros Hi Hy Hz. apply lookup_lt_Some in Hi as Hlt.
  pose proof (num_enter x ps i y Hi Hy) as H1.
  pose proof (num_leave x (<[i := x]> ps) i z) as H2. rewrite list_insert_insert_eq in H2.
  rewrite H2, H1; [lia|by apply list_lookup_insert_eq|done].
Qed.

Lemma num_nonneg x ps : 0 <= num x ps.
Proof. unfold num. lia. Qed.

Record uinv (v0 : Z) (s : use_state) : Prop := {
  ui_tokens : us_value s + us_taken s - us_given s = v0;
  ui_queued i : us_procs s !! i = Some Asleep -> i ∈ us_queue s;
  ui_strays : Z.of_nat (length (us_queue s)) <= num Asleep (us_procs s) + us_strays s;
  ui_free : us_queue s <> [] -> us_value s + Z.of_nat (length (us_queue s))
    <= num Asleep (us_procs s) + num Up (us_procs s) + us_strays s
}.

(** A process that was not asleep keeps the queue complete. *)
Lemma queued_insert (q : list nat) (ps : list uproc) i p :
  (forall j, ps !! j = Some Asleep -> j ∈ q) -> p <> Asleep ->
  forall j, <[i := p]> ps !! j = Some Asleep -> j ∈ q.
Proof.
  intros Hq Hp j. rewrite list_lookup_insert. case_decide; [congruence|apply Hq].
Qed.

(** Taking the first entry off the queue. *)
Lemma wake_entry_inv j q ps :
  (forall i, ps !! i = Some Asleep -> i ∈ j :: q) ->
  (forall i, wake_entry j ps !! i = Some Asleep -> i ∈ q) /\
  num Asleep (wake_entry j ps) + num Up (wake_entry j ps) = num Asleep ps + num Up ps /\
  num Asleep ps - 1 <= num Asleep (wake_entry j ps).
Proof.
  intros Hq. unfold wake_entry. case_decide as Hj.
  - rewrite (num_leave Asleep _ _ Up Hj), (num_enter Up _ _ Asleep Hj) by done. split; [|lia].
    intros i. destruct (decide (i = j)) as [->|Hne].
    + rewrite list_lookup_insert_eq by (by eapply lookup_lt_Some). done.
    + rewrite list_lookup_insert_ne by done. intros Hi%Hq. set_solver.
  - split; [|lia]. intros i Hi. specialize (Hq i Hi). set_solver.
Qed.

Lemma ustep_inv v0 s s' : uinv v0 s -> ustep s s' -> uinv v0 s'.
Proof.
  intros [Ht Hq Hn Hf] Hst. destruct Hst as [v q ps t g x i Hi Hv|v q ps t g x i Hi Hv _
    |v q ps t g x i Hi|v q ps t g x i Hi Hv|v j q ps t g x i Hi Hv|v q ps t g x i Hi]; simpl in *.
  - split; simpl; [lia|done|done|]. intros Hne. specialize (Hf Hne). lia.
  - pose proof (num_nonneg Up ps). split; simpl; rewrite ?length_app; simpl;
      rewrite ?(num_enter Asleep _ _ Free Hi), ?(num_stay Up _ _ Free Asleep Hi) by done; try lia.
    intros j. rewrite elem_of_app, list_elem_of_singleton, list_lookup_insert.
    case_decide as Hd; [naive_solver|]. auto.
  - split; simpl; [lia|by apply queued_insert|..];
      rewrite ?(num_stay Asleep _ _ Up Free Hi), ?(num_leave Up _ _ Free Hi) by done; [done|].
    intros Hne. specialize (Hf Hne). lia.
  - pose proof (num_nonneg Up ps). split; simpl; [lia|done|done|].
    intros Hne. specialize (Hf Hne). destruct Hv; [lia|done].
  - destruct (wake_entry_inv j q ps Hq) as (Hq' & Hsum & Hle). specialize (Hf ltac:(done)).
    split; simpl; [lia|done|lia|lia].
  - split; simpl; [lia|by apply queued_insert|..];
      rewrite ?(num_leave Asleep _ _ Up Hi), ?(num_enter Up _ _ Asleep Hi) by done; [lia|].
    intros Hne. specialize (Hf Hne). lia.
Qed.

Lemma ureach_inv v0 n s : ureach v0 n s -> uinv v0 s.
Proof.
  induction 1 as [|s s' _ IH Hst]; [|by eapply ustep_inv].
  split; simpl; [lia| |unfold num; lia|done]. intros i [? _]%lookup_replicate. done.
Qed.

(** The sleepers are entries of the queue. *)
Lemma asleep_queued v0 s : uinv v0 s -> placed Asleep (us_procs s) ⊆+ us_queue s.
Proof.
  intros Hi. apply NoDup_submseteq; [apply NoDup_placed|]. intros i.
  rewrite elem_of_placed. apply Hi.
Qed.

(** C37: for any use of a semaphore after [sem_init] by any number of processes,
    in every interleaving of their critical sections, and with processes killed
    while they sleep, as long as the ring of 64 entries has room for who
    blocks and the value is in the range of [int]: the value is the initial one less the acquisitions that
    returned plus the releases; every process asleep in [sem_acquire] is in the
    queue, which has at most one further entry for every stray wakeup; and
    while the queue is not empty, the value is at most the number of the
    processes that have been woken and have not run yet, plus the number of
    the entries of stray wakeups that a release has taken off the queue.  So as
    long as nobody is killed, the queue holds exactly the sleeping processes,
    each once, so that 64 processes always find room, and no token is lost
    while one sleeps. *)
Theorem sem_accounting v0 n s :
  ureach v0 n s ->
  us_value s + us_taken s - us_given s = v0 /\
  (forall i, us_procs s !! i = Some Asleep -> i ∈ us_queue s) /\
  num Asleep (us_procs s) <= Z.of_nat (length (us_queue s))
    <= num Asleep (us_procs s) + us_strays s /\
  (us_queue s <> [] -> us_value s <= num Up (us_procs s) +
    (us_strays s - (Z.of_nat (length (us_queue s)) - num Asleep (us_procs s)))) /\
  (us_strays s = 0 -> NoDup (us_queue s) /\
    (forall i, i ∈ us_queue s <-> us_procs s !! i = Some Asleep) /\
    (us_queue s <> [] -> us_value s <= num Up (us_procs s))).
Proof.
  intros Hr%ureach_inv. pose proof (asleep_queued _ _ Hr) as Hsub.
  pose proof (submseteq_length _ _ Hsub) as Hlen. destruct Hr as [Ht Hq Hn Hf]. unfold num in *.
  split_and!; [done|done|lia|done|intros Hne; specialize (Hf Hne); lia|].
  intros Hx. assert (placed Asleep (us_procs s) ≡ₚ us_queue s) as Hp
    by (apply submseteq_length_Permutation; [done|lia]).
  split_and!.
  - rewrite <-Hp. apply NoDup_placed.
  - intros i. by rewrite <-Hp, elem_of_placed.
  - intros Hne. specialize (Hf Hne). lia.
Qed.

(** Process 0 takes the only token, process 1 sleeps for one and is killed,
    process 2 sleeps for one: the entry of process 1 is still in the queue. *)
Lemma sem_accounting_witness :
  exists s, ureach 1 3 s /\ us_value s + us_taken s - us_given s = 1 /\
    us_queue s = [1; 2]%nat /\ us_procs s !! 1%nat = Some Free.
Proof.
  exists (mkuse (-1) [1; 2]%nat [Free; Free; Asleep] 2 0 1).
  assert (ureach 1 3 (mkuse (-1) [1; 2]%nat [Free; Free; Asleep] 2 0 1)) as Hr.
  { eapply ureach_step; [eapply ureach_step; [eapply ureach_step; [eapply ureach_step; [eapply ureach_step;
    [apply ureach_init|]|]|]|]|].
    - apply (U_acquire 1 [] [Free; Free; Free] 0 0 0 0); [reflexivity|lia].
    - apply (U_block 0 [] [Free; Free; Free] 1 0 0 1); [reflexivity|lia|reflexivity].
    - apply (U_stray 0 [1%nat] [Free; Asleep; Free] 1 0 0 1); reflexivity.
    - apply (U_resume 0 [1%nat] [Free; Up; Free] 1 0 1 1); reflexivity.
    - apply (U_block (-1) [1%nat] [Free; Free; Free] 2 0 1 2); [reflexivity|lia|reflexivity]. }
  split; [exact Hr|]. split; [exact (proj1 (sem_accounting 1 3 _ Hr))|]. split; reflexivity.
Defined.

(** *** The steps are those of the code *)







(** Processes 1 and 2 wait for a semaphore whose value is 0; process 1 came
    first. *)
Definition fifo_demo : kernel :=
  on_cpu 0 sem_demo <| k_sems := [mksem 0 63 2 (<[63%nat := Some 1%nat]>
    (<[0%nat := Some 2%nat]> (replicate NPROC None)))] |>.

Lemma idle_cpu_ok i : cpu_ok (mkcpu (Some i) 0 false true [] 0 0).
Proof. split; [done|constructor|done]. Qed.

Lemma sem_release_fifo_witness :
  exists k' s', sem_release (Z.of_nat 0) fifo_demo [] = Ret tt k' [] /\
    waiting s' = [Some 2%nat].
Proof.
  destruct (sem_release_fifo 0 (mksem 0 63 2 (<[63%nat := Some 1%nat]>
    (<[0%nat := Some 2%nat]> (replicate NPROC None)))) fifo_demo [])
    as (k' & s' & Hr & _ & _ & _ & _ & Hw & _).
  - exact (idle_cpu_ok 0).
  - apply not_elem_of_nil.
  - apply not_elem_of_nil.
  - reflexivity.
  - reflexivity.
  - split; vm_compute; [reflexivity|split; congruence|split; congruence].
  - vm_compute. repeat constructor; eexists; reflexivity.
  - vm_compute. split; congruence.
  - exists k', s'. split; [exact Hr|exact Hw].
Defined.

Lemma sem_acquire_spec_witness :
  exists k1 s1, k_sems k1 = <[0%nat := s1]> (k_sems fifo_demo) /\
    sem_acquire (Z.of_nat 0) fifo_demo [] = Parked k1.
Proof.
  destruct (sem_acquire_spec 0 0 (zero_proc <| p_pid := 1 |> <| p_state := RUNNING |>)
    (mksem 0 63 2 (<[63%nat := Some 1%nat]> (<[0%nat := Some 2%nat]> (replicate NPROC None))))
    fifo_demo []) as (k1 & s1 & Hs & _ & _ & _ & _ & _ & Hpk & _).
  - exact (idle_cpu_ok 0).
  - reflexivity.
  - reflexivity.
  - reflexivity.
  - reflexivity.
  - split; vm_compute; [reflexivity|split; congruence|split; congruence].
  - reflexivity.
  - reflexivity.
  - exists k1, s1. split; [exact Hs|]. apply Hpk. reflexivity.
Defined.



