(* ===== verification/Phil.v ===== *)
(** The dining philosophers (phillsofs.c) on the semaphores of the kernel: five
    processes that run [philosopher], as a transition system over the
    protocol of [sem_acquire] and [sem_release] of Sem. *)

From S2P Require Import Prelude Types Spinlock Proc Sem.

Definition SEMCOUNT : nat := 5.
Definition EATROUND : nat := 5.

(** ** The semaphore calls of one process *)

(** What process [i] does next in [sem_acquire]: it takes the token or goes to
    sleep; once woken it goes on.  The flag says that the call returned. *)
Definition acquire_step (i : nat) (s : sstate) : option (sstate * bool) :=
  match ss_procs s !! i with
  | Some Idle =>
      if 0 <? ss_value s
      then Some (mksstate (ss_value s - 1) (ss_queue s) (<[i := Inside]> (ss_procs s)), true)
      else Some (mksstate (ss_value s) (ss_queue s ++ [i]) (<[i := Waiting]> (ss_procs s)), false)
  | Some Woken => Some (mksstate (ss_value s - 1) (ss_queue s) (<[i := Inside]> (ss_procs s)), true)
  | _ => None
  end.

Definition release_step (i : nat) (s : sstate) : option sstate :=
  match ss_procs s !! i with
  | Some Inside =>
      let ps := <[i := Idle]> (ss_procs s) in
      match ss_queue s with
      | j :: q =>
          if 0 <? ss_value s + 1 then Some (mksstate (ss_value s + 1) q (<[j := Woken]> ps))
          else Some (mksstate (ss_value s + 1) (j :: q) ps)
      | [] => Some (mksstate (ss_value s + 1) [] ps)
      end
  | _ => None
  end.

(** ** One philosopher *)

(** Where a philosopher is in the loop of [philosopher]: at the first or the
    second [sem_acquire], in [sleep(30 * id)], in [sleep(300)] after having
    said that it eats, at [sem_release(l)], at [sem_release(r)], at the last
    [printf]; or it has left the loop. *)
Inductive place : Type := First | Second | Sitting | Eating | Put_l | Put_r | Told | Left_table.
#[export] Instance place_eq : EqDecision place.
Proof. solve_decision. Defined.

Record phil : Type := mkphil { ph_place : place; ph_round : nat }.

(** The arguments [l] and [r] of philosopher [i + 1], and the order in which it
    takes them: [if(id % 2 == 0)]. *)
Definition fork_l (i : nat) : nat := i.
Definition fork_r (i : nat) : nat := ((i + 1) mod SEMCOUNT)%nat.
Definition fork1 (i : nat) : nat := if ((i + 1) mod 2 =? 0)%nat then fork_l i else fork_r i.
Definition fork2 (i : nat) : nat := if ((i + 1) mod 2 =? 0)%nat then fork_r i else fork_l i.

Record table : Type := mktable { tb_forks : list sstate; tb_phils : list phil }.

Definition acquire_fork (i f : nat) (p p' : phil) (t : table) : option table :=
  s ← tb_forks t !! f;
  r ← acquire_step i s;
  Some (mktable (<[f := fst r]> (tb_forks t)) (<[i := if snd r : bool then p' else p]> (tb_phils t))).

Definition release_fork (i f : nat) (p' : phil) (t : table) : option table :=
  s ← tb_forks t !! f;
  s' ← release_step i s;
  Some (mktable (<[f := s']> (tb_forks t)) (<[i := p']> (tb_phils t))).

Definition move (i : nat) (p' : phil) (t : table) : option table :=
  Some (mktable (tb_forks t) (<[i := p']> (tb_phils t))).

(** The next thing that philosopher [i] does, if it can do anything. *)
Definition philosopher (i : nat) (t : table) : option table :=
  p ← tb_phils t !! i;
  let n := ph_round p in
  match ph_place p with
  | First => acquire_fork i (fork1 i) p (mkphil Second n) t
  | Second => acquire_fork i (fork2 i) p (mkphil Sitting n) t
  | Sitting => move i (mkphil Eating n) t
  | Eating => move i (mkphil Put_l n) t
  | Put_l => release_fork i (fork_l i) (mkphil Put_r n) t
  | Put_r => release_fork i (fork_r i) (mkphil Told n) t
  | Told => move i (if (S n <? EATROUND)%nat then mkphil First (S n) else mkphil Left_table (S n)) t
  | Left_table => None
  end.

(** [init_game], and the five processes that [start_game] forks. *)
Definition init_game : list sstate := replicate SEMCOUNT (mksstate 1 [] (replicate SEMCOUNT Idle)).
Definition start_game : table := mktable init_game (replicate SEMCOUNT (mkphil First 0)).

(** The processes run in the order of a schedule. *)
Fixpoint play (sched : list nat) (t : table) : option table :=
  match sched with
  | [] => Some t
  | i :: sched => t ← philosopher i t; play sched t
  end.

Definition all_left (t : table) : Prop :=
  Forall (fun p => p = mkphil Left_table EATROUND) (tb_phils t).

(** ** The semaphore protocol *)

Definition outside (p : sproc) : bool := match p with Inside => false | _ => true end.

Lemma acquire_step_spec i s s' b : acquire_step i s = Some (s', b) ->
  sstep s s' /\ (forall j, j <> i -> ss_procs s' !! j = ss_procs s !! j) /\
  (exists p, ss_procs s !! i = Some p /\ outside p = true /\ p <> Waiting) /\
  ss_procs s' !! i = Some (if b then Inside else Waiting).
Proof.
  destruct s as [v q ps]. unfold acquire_step. simpl. intros E.
  destruct (ps !! i) as [p|] eqn:Hi; [|done]. pose proof (lookup_lt_Some _ _ _ Hi).
  destruct p; try done; [destruct (0 <? v) eqn:Hv|]; injection E as <- <-; simpl;
    rewrite list_lookup_insert_eq by done;
    (split; [|split; [intros j Hj; by rewrite list_lookup_insert_ne|split; [by eexists|done]]]).
  - constructor; [done|lia].
  - constructor; [done|lia].
  - by constructor.
Qed.

(** A release may wake the first process of the queue. *)
Lemma release_step_spec v0 i s s' : sinv v0 s -> release_step i s = Some s' ->
  sstep s s' /\ ss_procs s' !! i = Some Idle /\
  forall j, j <> i -> ss_procs s' !! j = ss_procs s !! j \/
                      ss_procs s !! j = Some Waiting /\ ss_procs s' !! j = Some Woken.
Proof.
  intros Hs. destruct s as [v q ps]. unfold release_step. simpl. intros E.
  destruct (ps !! i) as [p|] eqn:Hi; [|done]. pose proof (lookup_lt_Some _ _ _ Hi) as Hlt.
  destruct p; try done. destruct q as [|m q]; [|destruct (0 <? v + 1) eqn:Hv]; injection E as <-; simpl.
  2: { assert (ps !! m = Some Waiting) as Hm by (apply (si_queue _ _ Hs), list_elem_of_here).
       assert (m <> i) by congruence. apply lookup_lt_Some in Hm as Hlm.
       split_and!; [constructor; [done|lia]|by rewrite list_lookup_insert_ne, list_lookup_insert_eq by done|].
       intros j Hj. destruct (decide (j = m)) as [->|].
       - right. split; [done|]. by rewrite list_lookup_insert_eq by (by rewrite length_insert).
       - left. by rewrite !list_lookup_insert_ne by done. }
  all: rewrite list_lookup_insert_eq by done; split_and!; [constructor; [done|auto with lia]|done|];
    intros j Hj; left; by rewrite list_lookup_insert_ne.
Qed.

Definition idle (p : sproc) : bool := match p with Idle => true | _ => false end.

(** ** The invariant of the table *)

(** What philosopher [i] at place [pl] may be for fork [f]. *)
Definition allowed (pl : place) (i f : nat) (p : sproc) : bool :=
  let here x := (f =? x)%nat in
  match pl with
  | First => if here (fork1 i) then outside p else idle p
  | Second => if here (fork1 i) then negb (outside p) else if here (fork2 i) then outside p else idle p
  | Sitting | Eating | Put_l =>
      if here (fork1 i) || here (fork2 i) then negb (outside p) else idle p
  | Put_r => if here (fork_r i) then negb (outside p) else idle p
  | Told | Left_table => idle p
  end.

Record table_ok (t : table) : Prop := {
  to_phils : length (tb_phils t) = SEMCOUNT;
  to_forks : length (tb_forks t) = SEMCOUNT;
  to_sems f s : tb_forks t !! f = Some s -> sinv 1 s /\ length (ss_procs s) = SEMCOUNT;
  to_place i p f s : tb_phils t !! i = Some p -> tb_forks t !! f = Some s ->
    exists st, ss_procs s !! i = Some st /\ allowed (ph_place p) i f st = true;
  to_round i p : tb_phils t !! i = Some p ->
    if bool_decide (ph_place p = Left_table) then ph_round p = EATROUND else (ph_round p < EATROUND)%nat
}.

Lemma sstep_length s s' : sstep s s' -> length (ss_procs s') = length (ss_procs s).
Proof. intros []; simpl; by rewrite !length_insert. Qed.

Lemma allowed_wake pl i f : allowed pl i f Waiting = true -> allowed pl i f Woken = true.
Proof. destruct pl; simpl; repeat case_match; done. Qed.

Lemma forks_differ i : (i < SEMCOUNT)%nat -> fork1 i <> fork2 i.
Proof. unfold SEMCOUNT. intros Hi. do 5 (destruct i as [|i]; [done|]). lia. Qed.
Lemma forks_lr i f : f = fork1 i \/ f = fork2 i <-> f = fork_l i \/ f = fork_r i.
Proof. unfold fork1, fork2. destruct (_ =? _)%nat; tauto. Qed.

(** What philosopher [i] may be after a step at fork [f]. *)
Lemma table_ok_fork t i f p p' s s' :
  table_ok t -> tb_phils t !! i = Some p -> tb_forks t !! f = Some s -> sstep s s' ->
  (forall j, j <> i -> ss_procs s' !! j = ss_procs s !! j \/
                       ss_procs s !! j = Some Waiting /\ ss_procs s' !! j = Some Woken) ->
  (exists st, ss_procs s' !! i = Some st /\ allowed (ph_place p') i f st = true) ->
  (forall g st, g <> f -> allowed (ph_place p) i g st = true -> allowed (ph_place p') i g st = true) ->
  ph_place p' <> Left_table -> ph_place p <> Left_table -> ph_round p' = ph_round p ->
  table_ok (mktable (<[f := s']> (tb_forks t)) (<[i := p']> (tb_phils t))).
Proof.
  intros [Hlp Hlf Hs Ha Hr] Hp Hf Hst Hoth Hhere Helse Hp1 Hp2 Er.
  pose proof (lookup_lt_Some _ _ _ Hp) as Hli. pose proof (lookup_lt_Some _ _ _ Hf) as Hlf'.
  split; simpl; rewrite ?length_insert; try done.
  - intros g sg. rewrite list_lookup_insert. case_decide as E; [destruct E as [-> _]|by apply Hs].
    intros [= <-]. destruct (Hs _ _ Hf) as [Hi Hl]. split; [by eapply sstep_inv|]. by rewrite (sstep_length s).
  - intros j q g sg Hq Hg.
    assert (forall q0, tb_phils t !! j = Some q0 -> j <> i -> exists st, ss_procs sg !! j = Some st /\ allowed (ph_place q0) j g st = true) as Hother.
    { intros q0 Hq0 Hj. rewrite list_lookup_insert in Hg. case_decide as E; [destruct E as [<- _]|by apply Ha].
      injection Hg as <-. destruct (Ha j q0 f s Hq0 Hf) as (st & Hst0 & Hal).
      destruct (Hoth j Hj) as [E|[E1 E2]]; [exists st; by rewrite E|]. exists Woken. split; [done|].
      apply allowed_wake. congruence. }
    rewrite list_lookup_insert in Hq. case_decide as E; [destruct E as [<- _]|].
    + injection Hq as <-. destruct (decide (g = f)) as [->|Hne].
      * rewrite list_lookup_insert_eq in Hg by done. by injection Hg as <-.
      * rewrite list_lookup_insert_ne in Hg by done. destruct (Ha i p g sg Hp Hg) as (st & ? & ?). eauto.
    + apply Hother; [done|]. intros ->. tauto.
  - intros j q. rewrite list_lookup_insert. case_decide as E; [destruct E as [<- _]|by apply Hr].
    intros [= <-]. specialize (Hr i p Hp). rewrite bool_decide_eq_false_2 in Hr |- * by done. by rewrite Er.
Qed.

Lemma table_ok_move t i p p' :
  table_ok t -> tb_phils t !! i = Some p ->
  (forall g st, allowed (ph_place p) i g st = true -> allowed (ph_place p') i g st = true) ->
  (if bool_decide (ph_place p' = Left_table) then ph_round p' = EATROUND else (ph_round p' < EATROUND)%nat) ->
  table_ok (mktable (tb_forks t) (<[i := p']> (tb_phils t))).
Proof.
  intros [Hlp Hlf Hs Ha Hr] Hp Hall Hrd. split; simpl; rewrite ?length_insert; try done.
  - intros j q g sg. rewrite list_lookup_insert. destruct (decide (i = j /\ _)) as [[<- _]|]; [|by apply Ha].
    intros [= <-] Hg. destruct (Ha i p g sg Hp Hg) as (st & ? & ?). eauto.
  - intros j q. rewrite list_lookup_insert. destruct (decide (i = j /\ _)) as [[<- _]|]; [|by apply Hr]. by intros [= <-].
Qed.

(** ** The work that is left *)

Definition weight (p : sproc) : nat := match p with Idle => 2 | Waiting => 1 | _ => 0 end.
Definition fork_work (s : sstate) : nat := sum_list_with weight (ss_procs s).
Definition steps_left (p : phil) : nat :=
  (7 * (EATROUND - ph_round p) -
   match ph_place p with
   | First => 0 | Second => 1 | Sitting => 2 | Eating => 3 | Put_l => 4 | Put_r => 5 | Told => 6 | Left_table => 0
   end)%nat.
Definition work (t : table) : nat :=
  (4 * sum_list_with steps_left (tb_phils t) + sum_list_with fork_work (tb_forks t))%nat.

Lemma sum_insert {A} (w : A -> nat) l i x y :
  l !! i = Some x -> (sum_list_with w (<[i := y]> l) + w x = sum_list_with w l + w y)%nat.
Proof. revert i. induction l as [|z l IH]; intros [|i] Hi; simplify_eq/=; [lia|]. specialize (IH _ Hi). lia. Qed.

Lemma acquire_work i s s' b : acquire_step i s = Some (s', b) ->
  (fork_work s' + (if b then 0 else 1) <= fork_work s)%nat.
Proof.
  unfold acquire_step, fork_work. destruct (ss_procs s !! i) as [p|] eqn:Hi; [|done].
  intros E. destruct p; try done; [destruct (0 <? ss_value s)|]; injection E as <- <-; simpl.
  - pose proof (sum_insert weight _ i _ Inside Hi). simpl in *. lia.
  - pose proof (sum_insert weight _ i _ Waiting Hi). simpl in *. lia.
  - pose proof (sum_insert weight _ i _ Inside Hi). simpl in *. lia.
Qed.

Lemma release_work v0 i s s' : sinv v0 s -> release_step i s = Some s' -> (fork_work s' <= fork_work s + 2)%nat.
Proof.
  intros Hs. unfold release_step, fork_work. destruct (ss_procs s !! i) as [p|] eqn:Hi; [|done].
  destruct p; try done. pose proof (sum_insert weight _ i _ Idle Hi) as E1. simpl in E1.
  destruct (ss_queue s) as [|m q] eqn:Hq; [|destruct (0 <? ss_value s + 1)]; intros [= <-]; simpl; try lia.
  assert (ss_procs s !! m = Some Waiting) as Hm by (apply (si_queue _ _ Hs); rewrite Hq; apply list_elem_of_here).
  assert (<[i := Idle]> (ss_procs s) !! m = Some Waiting) as Hm'.
  { rewrite list_lookup_insert_ne; [done|]. congruence. }
  pose proof (sum_insert weight _ m _ Woken Hm'). simpl in *. lia.
Qed.

Lemma fork_update_work t i f p p' s s' :
  tb_phils t !! i = Some p -> tb_forks t !! f = Some s ->
  (4 * steps_left p' + fork_work s' < 4 * steps_left p + fork_work s)%nat ->
  (work (mktable (<[f := s']> (tb_forks t)) (<[i := p']> (tb_phils t))) < work t)%nat.
Proof.
  intros Hp Hs Hlt. unfold work. simpl.
  pose proof (sum_insert steps_left _ i _ p' Hp). pose proof (sum_insert fork_work _ f _ s' Hs). lia.
Qed.

(** ** Every step keeps the invariant and does some of the work *)

Lemma acquire_fork_ok t i f p p' t' :
  table_ok t -> tb_phils t !! i = Some p -> acquire_fork i f p p' t = Some t' ->
  (allowed (ph_place p) i f Waiting = true) -> allowed (ph_place p') i f Inside = true ->
  (forall g st, g <> f -> allowed (ph_place p) i g st = true -> allowed (ph_place p') i g st = true) ->
  ph_place p' <> Left_table -> ph_place p <> Left_table -> ph_round p' = ph_round p ->
  (steps_left p' < steps_left p)%nat ->
  table_ok t' /\ (work t' < work t)%nat.
Proof.
  intros Ht Hp Hr Hw Hin Hel Hp1 Hp2 Er Hlt. unfold acquire_fork in Hr.
  destruct (tb_forks t !! f) as [s|] eqn:Hf; [|done]. simpl in Hr.
  destruct (acquire_step i s) as [[s' b]|] eqn:E; [|done]. injection Hr as <-. simpl.
  pose proof (acquire_work _ _ _ _ E) as Hwk. apply acquire_step_spec in E as (Hst & Hoth & _ & Hi).
  split.
  - apply (table_ok_fork t i f p _ s s'); try done; destruct b; auto; eauto.
  - apply (fork_update_work t i f p _ s s' Hp Hf). destruct b; lia.
Qed.

Lemma release_fork_ok t i f p p' t' :
  table_ok t -> tb_phils t !! i = Some p -> release_fork i f p' t = Some t' ->
  allowed (ph_place p') i f Idle = true ->
  (forall g st, g <> f -> allowed (ph_place p) i g st = true -> allowed (ph_place p') i g st = true) ->
  ph_place p' <> Left_table -> ph_place p <> Left_table -> ph_round p' = ph_round p ->
  (steps_left p' < steps_left p)%nat ->
  table_ok t' /\ (work t' < work t)%nat.
Proof.
  intros Ht Hp Hr Hid Hel Hp1 Hp2 Er Hlt. unfold release_fork in Hr.
  destruct (tb_forks t !! f) as [s|] eqn:Hf; [|done]. simpl in Hr.
  destruct (release_step i s) as [s'|] eqn:E; [|done]. injection Hr as <-.
  destruct (to_sems _ Ht _ _ Hf) as [Hs _]. pose proof (release_work _ _ _ _ Hs E) as Hwk.
  apply (release_step_spec 1) in E as (Hst & Hi & Hoth); [|done]. split.
  - apply (table_ok_fork t i f p p' s s'); eauto.
  - apply (fork_update_work t i f p p' s s' Hp Hf). lia.
Qed.

Lemma move_ok t i p p' t' :
  table_ok t -> tb_phils t !! i = Some p -> move i p' t = Some t' ->
  (forall g st, allowed (ph_place p) i g st = true -> allowed (ph_place p') i g st = true) ->
  (if bool_decide (ph_place p' = Left_table) then ph_round p' = EATROUND else (ph_round p' < EATROUND)%nat) ->
  (steps_left p' < steps_left p)%nat ->
  table_ok t' /\ (work t' < work t)%nat.
Proof.
  intros Ht Hp [= <-] Hall Hr Hlt. split; [by apply (table_ok_move t i p)|].
  unfold work. simpl. pose proof (sum_insert steps_left _ i _ p' Hp). lia.
Qed.

(** The cases of [allowed] at a fork. *)
Ltac at_fork :=
  simpl; repeat match goal with |- context [(?a =? ?b)%nat] => destruct (Nat.eqb_spec a b) end; simpl; try done; try congruence.

Lemma allowed_put_l i g st : g <> fork_l i -> allowed Put_l i g st = true -> allowed Put_r i g st = true.
Proof.
  intros Hne. simpl. destruct (g =? fork1 i)%nat eqn:E1; [|destruct (g =? fork2 i)%nat eqn:E2]; simpl.
  1-2: assert (g = fork_r i) as -> by (apply Nat.eqb_eq in E1 || apply Nat.eqb_eq in E2;
    destruct (proj1 (forks_lr i g)); tauto); by rewrite Nat.eqb_refl.
  destruct (g =? fork_r i)%nat eqn:E; [|done]. apply Nat.eqb_eq in E. apply Nat.eqb_neq in E1, E2.
  destruct (proj2 (forks_lr i g)); tauto.
Qed.

Lemma philosopher_ok i t t' : table_ok t -> philosopher i t = Some t' -> table_ok t' /\ (work t' < work t)%nat.
Proof.
  intros Ht Hr. unfold philosopher in Hr. destruct (tb_phils t !! i) as [[pl n]|] eqn:Hp; [|done]. simpl in Hr.
  pose proof (to_round _ Ht _ _ Hp) as Hrd. pose proof (lookup_lt_Some _ _ _ Hp) as Hi. rewrite (to_phils _ Ht) in Hi.
  pose proof (forks_differ i Hi) as Hd. simpl in Hrd.
  destruct pl; rewrite ?bool_decide_eq_false_2 in Hrd by done; unfold EATROUND in Hrd; try done.
  - eapply acquire_fork_ok; try done; unfold steps_left, EATROUND; simpl; try lia; [by at_fork..|].
    intros g st Hg. at_fork; by destruct st.
  - eapply acquire_fork_ok; try done; unfold steps_left, EATROUND; simpl; try lia; [by at_fork..|].
    intros g st Hg. at_fork.
  - eapply move_ok; try done; unfold steps_left, EATROUND; simpl; lia.
  - eapply move_ok; try done; unfold steps_left, EATROUND; simpl; lia.
  - eapply release_fork_ok; try done; unfold steps_left, EATROUND; simpl; try lia; [|by intros; apply allowed_put_l].
    destruct (fork_l i =? fork_r i)%nat eqn:E; [|done]. apply Nat.eqb_eq in E. revert Hd. unfold fork1, fork2.
    rewrite E. by case_match.
  - eapply release_fork_ok; try done; unfold steps_left, EATROUND; simpl; try lia. intros g st Hg. at_fork.
  - eapply move_ok; try done; unfold steps_left, EATROUND; destruct (S n <? 5)%nat eqn:E; simpl;
      apply Nat.ltb_lt in E || apply Nat.ltb_ge in E; try done; try lia.
    intros g st. at_fork; by destruct st.
Qed.

Lemma start_game_ok : table_ok start_game.
Proof.
  split; try done.
  - intros f s [-> _]%lookup_replicate. split; [|done]. split; simpl; [done| |constructor|done].
    intros i. split; [by intros ?%elem_of_nil|]. by do 5 (destruct i as [|i]; [done|]).
  - intros i p f s [-> Hi]%lookup_replicate [-> _]%lookup_replicate. exists Idle.
    split; [by apply (lookup_replicate SEMCOUNT)|]. simpl. by case_match.
  - intros i p [-> _]%lookup_replicate. unfold EATROUND. simpl. lia.
Qed.

Lemma play_ok sched t t' : table_ok t -> play sched t = Some t' -> table_ok t' /\ (length sched + work t' <= work t)%nat.
Proof.
  revert t. induction sched as [|i sched IH]; intros t Ht Hr; simpl in *; [simplify_eq; auto with lia|].
  destruct (philosopher i t) as [t1|] eqn:E; [|done]. simpl in Hr.
  destruct (philosopher_ok i t t1 Ht E) as [Ht1 Hw]. destruct (IH t1 Ht1 Hr). split; [done|lia].
Qed.

(** ** Nobody waits for ever *)

(** Each philosopher takes the fork of lower rank first. *)
Definition rank (f : nat) : nat := nth f [1; 0; 1; 0; 2]%nat 0%nat.
Lemma rank_rises i : (i < SEMCOUNT)%nat -> (rank (fork1 i) < rank (fork2 i) <= 2)%nat.
Proof. unfold SEMCOUNT. intros Hi. do 5 (destruct i as [|i]; [vm_compute; lia|]). lia. Qed.
Lemma fork_bound i : (i < SEMCOUNT)%nat -> (fork1 i < SEMCOUNT /\ fork2 i < SEMCOUNT)%nat.
Proof. unfold SEMCOUNT. intros Hi. do 5 (destruct i as [|i]; [vm_compute; lia|]). lia. Qed.

Definition waits (t : table) (i f : nat) : Prop := exists s, tb_forks t !! f = Some s /\ ss_procs s !! i = Some Waiting.

(** A philosopher that cannot go on has left, or sleeps at one of its forks. *)
Lemma stuck_waits t i p : table_ok t -> tb_phils t !! i = Some p -> philosopher i t = None ->
  match ph_place p with
  | First => waits t i (fork1 i)
  | Second => waits t i (fork2 i)
  | Left_table => True
  | _ => False
  end.
Proof.
  intros Ht Hp Hn. pose proof (lookup_lt_Some _ _ _ Hp) as Hi. rewrite (to_phils _ Ht) in Hi.
  pose proof (forks_differ i Hi) as Hd. destruct (fork_bound i Hi) as [B1 B2].
  assert (forall f, (f < SEMCOUNT)%nat -> exists s st, tb_forks t !! f = Some s /\ ss_procs s !! i = Some st /\
    allowed (ph_place p) i f st = true) as Hfork.
  { intros f Hf. destruct (lookup_lt_is_Some_2 (tb_forks t) f) as [s Hs]; [by rewrite (to_forks _ Ht)|].
    destruct (to_place _ Ht _ _ _ _ Hp Hs) as (st & ? & ?). eauto 6. }
  assert (fork_l i < SEMCOUNT /\ fork_r i < SEMCOUNT)%nat as [Bl Br].
  { split; [done|]. apply Nat.mod_upper_bound. done. }
  unfold philosopher in Hn. rewrite Hp in Hn. simpl in Hn. unfold acquire_fork, release_fork, move in Hn.
  destruct p as [pl n]. destruct pl; simpl in *; try done.
  - destruct (Hfork _ B1) as (s & st & Hs & Hst & Ha). exists s. split; [done|]. rewrite Hs in Hn. simpl in Hn.
    unfold acquire_step in Hn. rewrite Hst in *. rewrite Nat.eqb_refl in Ha. by destruct st; try case_match.
  - destruct (Hfork _ B2) as (s & st & Hs & Hst & Ha). exists s. split; [done|]. rewrite Hs in Hn. simpl in Hn.
    unfold acquire_step in Hn. rewrite Hst in *. rewrite Nat.eqb_refl in Ha.
    rewrite (proj2 (Nat.eqb_neq _ _)) in Ha by congruence. by destruct st; try case_match.
  - destruct (Hfork _ Bl) as (s & st & Hs & Hst & Ha). rewrite Hs in Hn. simpl in Hn.
    assert ((fork_l i =? fork1 i)%nat || (fork_l i =? fork2 i)%nat = true) as E.
    { apply orb_true_iff. rewrite !Nat.eqb_eq. apply forks_lr. by left. }
    rewrite E in Ha. destruct st; try done. unfold release_step in Hn. rewrite Hst in Hn. by repeat case_match.
  - destruct (Hfork _ Br) as (s & st & Hs & Hst & Ha). rewrite Hs in Hn. simpl in Hn.
    rewrite Nat.eqb_refl in Ha. destruct st; try done. unfold release_step in Hn. rewrite Hst in Hn. by repeat case_match.
Qed.

Lemma count_pos x ps : 0 < count x ps -> exists j, ps !! j = Some x.
Proof.
  induction ps as [|p ps IH]; simpl; [lia|]. intros H. destruct (one x p =? 0) eqn:E.
  - destruct IH as [j Hj]; [lia|]. by exists (S j).
  - exists 0%nat. by destruct p, x.
Qed.

(** Whoever waits for a fork waits for somebody who holds it and waits for a
    fork of higher rank. *)
Lemma waits_up t i f : table_ok t -> (forall j, philosopher j t = None) -> waits t i f ->
  exists j, waits t j (fork2 j) /\ fork1 j = f /\ (j < SEMCOUNT)%nat.
Proof.
  intros Ht Hn (s & Hs & Hw). destruct (to_sems _ Ht _ _ Hs) as [Hinv Hl].
  assert (forall j st, ss_procs s !! j = Some st -> exists p, tb_phils t !! j = Some p /\ allowed (ph_place p) j f st = true /\
    match ph_place p with First => waits t j (fork1 j) | Second => waits t j (fork2 j) | Left_table => True | _ => False end) as Hall.
  { intros j st Hj. destruct (lookup_lt_is_Some_2 (tb_phils t) j) as [p Hp].
    { rewrite (to_phils _ Ht), <-Hl. by eapply lookup_lt_Some. }
    exists p. split; [done|]. destruct (to_place _ Ht _ _ _ _ Hp Hs) as (st' & ? & ?). simplify_eq.
    split; [done|]. by apply stuck_waits. }
  assert (count Woken (ss_procs s) = 0) as Hwk.
  { pose proof (count_nonneg Woken (ss_procs s)). destruct (Z.eq_dec (count Woken (ss_procs s)) 0) as [|Hnz]; [done|].
    destruct (count_pos Woken (ss_procs s)) as [j Hj]; [lia|]. destruct (Hall j _ Hj) as (p & Hp & Ha & Hst).
    destruct p as [[] n]; simpl in *; try done;
      repeat match goal with H : context [(?a =? ?b)%nat] |- _ => destruct (Nat.eqb_spec a b); simpl in H end; subst; try done;
      destruct Hst as (s' & ? & ?); congruence. }
  destruct (count_pos Inside (ss_procs s)) as [j Hj].
  { pose proof (si_tokens _ _ Hinv). pose proof (si_free _ _ Hinv) as Hf.
    assert (ss_queue s <> []) as Hq; [|specialize (Hf Hq); lia].
    intros E. apply (si_queue _ _ Hinv) in Hw. rewrite E in Hw. by apply elem_of_nil in Hw. }
  exists j. destruct (Hall j _ Hj) as (p & Hp & Ha & Hst).
  split_and!; [| |rewrite <-Hl; by eapply lookup_lt_Some];
    destruct p as [[] n]; simpl in *; try done;
    repeat match goal with H : context [(?a =? ?b)%nat] |- _ => destruct (Nat.eqb_spec a b); simpl in H end; done.
Qed.

Lemma nobody_waits t : table_ok t -> (forall j, philosopher j t = None) -> forall n i f, (2 - rank f < n)%nat -> ~ waits t i f.
Proof.
  intros Ht Hn n. induction n as [|n IH]; intros i f Hf Hw; [lia|].
  destruct (waits_up t i f Ht Hn Hw) as (j & Hj & <- & Hlt). pose proof (rank_rises j Hlt).
  apply (IH j (fork2 j)); [lia|done].
Qed.

(** C14: the five philosophers never deadlock and all finish: whatever the
    order in which the processes run, no run is longer than 750 steps, and a
    run that cannot go on has all five away from the table after their five
    rounds. *)
Theorem philosophers_finish sched t :
  play sched start_game = Some t ->
  (length sched <= 750)%nat /\ (all_left t \/ exists i, is_Some (philosopher i t)).
Proof.
  intros Hr. destruct (play_ok _ _ _ start_game_ok Hr) as [Ht Hw]. split; [vm_compute (work start_game) in Hw; lia|].
  destruct (decide (Exists (fun i => is_Some (philosopher i t)) (seq 0 SEMCOUNT))) as [H|H].
  { right. apply Exists_exists in H as (i & _ & Hi). by exists i. }
  left. assert (forall i, philosopher i t = None) as Hn.
  { intros i. destruct (decide (i < SEMCOUNT)%nat) as [Hi|Hi].
    - apply eq_None_not_Some. intros Hs. apply H, Exists_exists. exists i. split; [by apply elem_of_seq; lia|done].
    - unfold philosopher. rewrite lookup_ge_None_2; [done|]. rewrite (to_phils _ Ht). lia. }
  apply Forall_lookup. intros i p Hp. pose proof (stuck_waits t i p Ht Hp (Hn i)) as Hs.
  pose proof (to_round _ Ht _ _ Hp) as Hrd. destruct p as [[] m]; simpl in *; try done;
    [by apply (nobody_waits t Ht Hn 3) in Hs; [|lia]..|by rewrite Hrd].
Qed.

(** but two neighbours can eat at the same time, with the fork between
    them in the hands of both: a philosopher that puts the fork down and comes
    back at once takes it although it has been given to the neighbour that
    was woken, which does not look again. *)
Theorem neighbours_eat_together : exists sched t,
  play sched start_game = Some t /\ fork_r 0 = fork_l 1 /\
  ph_place <$> tb_phils t !! 0%nat = Some Eating /\ ph_place <$> tb_phils t !! 1%nat = Some Eating.
Proof. exists [0; 0; 1; 0; 0; 0; 0; 0; 0; 0; 0; 1; 1; 1]%nat. eexists. split; [vm_compute; reflexivity|done]. Qed.

(** The round in which only the first philosopher has eaten. *)
Lemma philosophers_finish_witness : exists t,
  play [0; 0; 0; 0; 0; 0; 0]%nat start_game = Some t /\ (length [0; 0; 0; 0; 0; 0; 0]%nat <= 750)%nat /\
  (all_left t \/ exists i, is_Some (philosopher i t)).
Proof.
  eexists. split; [vm_compute; reflexivity|].
  apply (philosophers_finish [0; 0; 0; 0; 0; 0; 0]%nat). vm_compute. reflexivity.
Defined.
