(* ===== verification/Prime.v ===== *)
(** [find_largest_prime_factor] (proc.c), a system call of its own.

    The loops are translated with fuel; [int] arithmetic wraps. *)

From Stdlib Require Import Znumtheory.
From S2P Require Import Prelude.

(** [while (n % d == 0) { maxPrime = d; n = n / d; }], returning [n] and
    [maxPrime]; [None] when the fuel is used up. *)
Fixpoint strip (fuel : nat) (d n maxPrime : Z) : option (Z * Z) :=
  match fuel with
  | O => None
  | S fuel =>
      if Z.rem n d =? 0 then strip fuel d (Z.quot n d) d else Some (n, maxPrime)
  end.

(** [for (int i = 5; i <= n; i += 6) ...], at most [fuel] passes, with [inner]
    as the fuel of its two loops. *)
Fixpoint wheel (inner fuel : nat) (i n maxPrime : Z) : option (Z * Z) :=
  match fuel with
  | O => None
  | S fuel =>
      if i <=? n then
        '(n, maxPrime) ← strip inner i n maxPrime;
        '(n, maxPrime) ← strip inner (s32 (i + 2)) n maxPrime;
        wheel inner fuel (s32 (i + 6)) n maxPrime
      else Some (n, maxPrime)
  end.

Definition find_largest_prime_factor (fuel : nat) (n : Z) : option Z :=
  '(n, maxPrime) ← strip fuel 2 n (-1);
  '(n, maxPrime) ← strip fuel 3 n maxPrime;
  '(n, maxPrime) ← wheel fuel fuel 5 n maxPrime;
  Some (if n >? 4 then n else maxPrime).

(** ** Primes *)

Lemma prime_two_le q : prime q -> 2 <= q.
Proof. intros [? _]. lia. Qed.

Lemma prime_factor n : 1 < n -> exists q, prime q /\ (q | n).
Proof.
  intros Hn. assert (0 <= n) as H0 by lia. revert Hn.
  pattern n. apply Z_lt_induction; [|done]. clear n H0. intros n IH Hn.
  destruct (prime_dec n) as [Hp|Hp]; [by exists n|].
  destruct (not_prime_divide n Hn Hp) as (d & Hd & Hdn).
  destruct (IH d ltac:(lia) ltac:(lia)) as (q & Hq & Hqd).
  exists q. split; [done|]. by transitivity d.
Qed.

(** All prime factors of [n] are at least [b]. *)
Definition rough (b n : Z) : Prop := forall q, prime q -> (q | n) -> b <= q.

(** A candidate that divides a number without smaller prime factors is prime. *)
Lemma rough_prime d n : 1 < d -> rough d n -> (d | n) -> prime d.
Proof.
  intros Hd Hr Hdn. destruct (prime_dec d) as [|Hp]; [done|].
  destruct (not_prime_divide d Hd Hp) as (m & Hm & Hmd).
  destruct (prime_factor m ltac:(lia)) as (q & Hq & Hqm).
  assert (q <= m) by (apply Z.divide_pos_le; lia || done).
  specialize (Hr q Hq (Z.divide_trans _ _ _ (Z.divide_trans _ _ _ Hqm Hmd) Hdn)). lia.
Qed.

Lemma rough_skip b n c : rough b n -> (c | b) -> 1 < c < b -> rough (b + 1) n.
Proof.
  intros Hr Hc Hcb q Hq Hqn. specialize (Hr q Hq Hqn).
  destruct (decide (q = b)) as [->|]; [|lia].
  destruct Hq as [_ Hrel]. destruct (Hrel c ltac:(lia)) as [_ _ Hgcd].
  pose proof (Z.divide_pos_le c 1 ltac:(lia) (Hgcd c (Z.divide_refl c) Hc)). lia.
Qed.

(** ** The loops *)

(** What is known of [n] and [maxPrime] at each point: [n] is what is left of
    [n0], its prime factors are at least [b], the prime factors of [n0] that
    are gone are at most [maxPrime], which is one of them (or -1 if none is). *)
Record progress (n0 b n m : Z) : Prop := {
  pg_pos : 1 <= n <= n0;
  pg_div : (n | n0);
  pg_rough : rough b n;
  pg_cover q : prime q -> (q | n0) -> (q | n) \/ q <= m;
  pg_max : m = -1 \/ (prime m /\ (m | n0));
  pg_le : m <= b
}.

Lemma progress_factor n0 d c m :
  1 < d -> progress n0 d (c * d) m -> progress n0 d c d.
Proof.
  intros Hd [Hpos Hdiv Hr Hcov Hmax Hle].
  assert (prime d) as Hprime by (apply (rough_prime d (c * d)); [lia|done|by exists c]).
  assert ((c | c * d)) as Hc by (exists d; lia).
  split.
  - nia.
  - by transitivity (c * d).
  - intros q Hq Hqc. apply Hr; [done|]. by transitivity c.
  - intros q Hq Hq0. destruct (Hcov q Hq Hq0) as [Hqcd|?]; [|lia].
    destruct (proj1 (Z.divide_prime_mul c d q (proj2 (prime_alt q) Hq)) Hqcd) as [?|Hqd]; [by left|right].
    apply Z.divide_pos_le; [lia|done].
  - right. split; [done|]. transitivity (c * d); [by exists c|done].
  - lia.
Qed.

Lemma strip_progress n0 d :
  1 < d -> forall fuel n m, n < Z.of_nat fuel -> progress n0 d n m ->
  exists n' m', strip fuel d n m = Some (n', m') /\ progress n0 (d + 1) n' m' /\ n' <= n.
Proof.
  intros Hd. induction fuel as [|fuel IH]; intros n m Hfuel Hp; [destruct Hp; lia|].
  pose proof (pg_pos _ _ _ _ Hp) as Hn. cbn [strip].
  rewrite Z.rem_mod_nonneg, Z.quot_div_nonneg by lia.
  destruct (Z.eqb_spec (n mod d) 0) as [H0|H0].
  - apply Z.mod_divide in H0; [|lia]. destruct H0 as [c ->]. rewrite Z.div_mul by lia.
    assert (1 <= c < c * d) as Hc by nia.
    destruct (IH c d ltac:(lia) (progress_factor _ _ _ _ Hd Hp)) as (n' & m' & -> & Hp' & Hle).
    exists n', m'. split; [done|]. split; [done|lia].
  - exists n, m. split; [done|]. split; [|lia]. destruct Hp as [? ? Hr ? ? ?].
    split; try done; [|lia]. intros q Hq Hqn. specialize (Hr q Hq Hqn).
    destruct (decide (q = d)) as [->|]; [|lia]. by apply Z.mod_divide in Hqn; [|lia].
Qed.

(** Candidates that are multiples of [c] are skipped. *)
Lemma progress_skip n0 b n m c :
  progress n0 b n m -> (c | b) -> 1 < c < b -> progress n0 (b + 1) n m.
Proof.
  intros [] ? ?. split; try done; [by eapply rough_skip|lia].
Qed.

Lemma wheel_progress n0 inner :
  n0 <= 2 ^ 31 - 7 -> forall fuel i n m, n < Z.of_nat inner -> i mod 6 = 5 -> 5 <= i ->
  (0 < fuel)%nat -> n + 6 < i + 6 * Z.of_nat fuel -> progress n0 i n m ->
  exists n' m' b, wheel inner fuel i n m = Some (n', m') /\ progress n0 b n' m' /\ n' < b.
Proof.
  intros Hmax. induction fuel as [|fuel IH]; intros i n m Hf Hi Hi5 H0 Hfuel Hp;
    [lia|].
  pose proof (pg_pos _ _ _ _ Hp) as Hn. cbn [wheel].
  destruct (Z.leb_spec i n) as [Hle|Hgt]; [|by exists n, m, i].
  destruct (strip_progress n0 i ltac:(lia) inner n m Hf Hp) as (n1 & m1 & E1 & Hp1 & Hle1).
  assert (exists a, i = 6 * a + 5) as [a Ha] by (exists (i / 6); pose proof (Z.div_mod i 6); lia).
  apply (progress_skip _ _ _ _ 2) in Hp1; [|exists (3 * a + 3); lia|lia].
  replace (i + 1 + 1) with (i + 2) in Hp1 by lia.
  destruct (strip_progress n0 (i + 2) ltac:(lia) inner n1 m1 ltac:(lia) Hp1)
    as (n2 & m2 & E2 & Hp2 & Hle2).
  apply (progress_skip _ _ _ _ 2) in Hp2; [|exists (3 * a + 4); lia|lia].
  apply (progress_skip _ _ _ _ 3) in Hp2; [|exists (2 * a + 3); lia|lia].
  apply (progress_skip _ _ _ _ 2) in Hp2; [|exists (3 * a + 5); lia|lia].
  replace (i + 2 + 1 + 1 + 1 + 1) with (i + 6) in Hp2 by lia.
  rewrite E1. cbn [mbind option_bind]. rewrite (s32_small (i + 2)), E2 by lia.
  cbn [mbind option_bind]. rewrite (s32_small (i + 6)) by lia.
  pose proof (pg_pos _ _ _ _ Hp2).
  destruct (decide (i + 6 <= n2)) as [Hgo|Hstop].
  - apply IH; [lia|by rewrite <-Hi; replace (i + 6) with (i + 1 * 6) by lia; rewrite Z.mod_add
      |lia|lia|lia|done].
  - destruct fuel as [|fuel]; [lia|]. cbn [wheel]. replace (i + 6 <=? n2) with false by lia.
    exists n2, m2, (i + 6). split; [done|]. split; [done|lia].
Qed.

(** C39: [find_largest_prime_factor(n)] returns the largest prime factor of
    [n], for every [n] from 2 to 2147483641 (above that [i += 6] can
    overflow); the loops end after at most [n] passes each. *)
Theorem largest_prime_factor_correct n fuel :
  2 <= n <= 2 ^ 31 - 7 -> n < Z.of_nat fuel ->
  exists p, find_largest_prime_factor fuel n = Some p /\ prime p /\ (p | n) /\
    forall q, prime q -> (q | n) -> q <= p.
Proof.
  intros Hn Hfuel. unfold find_largest_prime_factor.
  assert (progress n 2 n (-1)) as H0.
  { split; try lia; [done|intros q Hq; pose proof (prime_two_le q Hq); lia|tauto]. }
  destruct (strip_progress n 2 ltac:(lia) fuel n (-1) Hfuel H0) as (n1 & m1 & -> & H1 & L1). simpl.
  destruct (strip_progress n 3 ltac:(lia) fuel n1 m1 ltac:(lia) H1) as (n2 & m2 & -> & H2 & L2).
  simpl. apply (progress_skip _ _ _ _ 2) in H2; [|by exists 2|lia].
  destruct (wheel_progress n fuel ltac:(lia) fuel 5 n2 m2) as (n3 & m3 & b & -> & H3 & L3);
    [lia|done|lia|lia|lia|done|]. simpl.
  assert (n3 = 1) as ->.
  { destruct (decide (1 < n3)) as [H|]; [|destruct (pg_pos _ _ _ _ H3); lia].
    destruct (prime_factor n3 H) as (q & Hq & Hqn). pose proof (pg_rough _ _ _ _ H3 q Hq Hqn).
    apply Z.divide_pos_le in Hqn; lia. }
  exists m3. split; [done|].
  assert (forall q, prime q -> (q | n) -> q <= m3) as Hall.
  { intros q Hq Hqn. destruct (pg_cover _ _ _ _ H3 q Hq Hqn) as [Hq1|?]; [|done].
    apply Z.divide_pos_le in Hq1; [|lia]. pose proof (prime_two_le q Hq). lia. }
  destruct (pg_max _ _ _ _ H3) as [->|[? ?]]; [|done].
  destruct (prime_factor n ltac:(lia)) as (q & Hq & Hqn).
  specialize (Hall q Hq Hqn). pose proof (prime_two_le q Hq). lia.
Qed.

Lemma largest_prime_factor_correct_witness :
  find_largest_prime_factor 100 84 = Some 7 /\
  exists p, find_largest_prime_factor 100 84 = Some p /\ prime p /\ (p | 84) /\
    forall q, prime q -> (q | 84) -> q <= p.
Proof.
  split; [reflexivity|]. apply (largest_prime_factor_correct 84 100); lia.
Defined.

(** the system call never returns for 0: the first loop divides 0 by 2
    for ever, whatever the number of passes allowed. *)
Theorem largest_prime_factor_zero_diverges fuel : find_largest_prime_factor fuel 0 = None.
Proof.
  unfold find_largest_prime_factor.
  assert (forall m, strip fuel 2 0 m = None) as ->; [|done].
  induction fuel as [|fuel IH]; intros m; [done|]. apply IH.
Qed.
