(* ===== verification/Trace.v ===== *)
(** The trace of system calls (proc.c, sysproc.c): [push_pid_in_stack] records
    each call, [get_callers] prints the record of one system call. *)

From S2P Require Import Prelude Types Spinlock Cprintf.

Definition NUM_OF_SYSCALLS : Z := 50.
Definition MAX_PID_NUM_SAVED : nat := 1000.
Definition MAX_PID_TRACED : Z := 1000.
Definition MAX_PID_OUTPUT_IN_ONE_LINE : Z := 11.

(** [a[i]] for an [int] array indexed by an unchecked [int]. *)
Definition row_of {A} (why : string) (i : Z) (a : list A) : K A :=
  if i <? 0 then undef why else deref why (a !! Z.to_nat i).

(** [for (i = 0; row[i] != 0; i++) {}]: the first zero of the row, if it has
    one; the loop runs past the end of the row otherwise. *)
Fixpoint first_zero (row : list Z) (i : nat) : option nat :=
  match row with
  | [] => None
  | x :: row' => if x =? 0 then Some i else first_zero row' (S i)
  end.

Definition push_pid_in_stack (pid num : Z) : K unit :=
  tr ← gets k_trace;
  row ← row_of "syscalls_pid_stack[num]" num (tr_pids tr);
  i ← deref "row overflow" (first_zero row 0);
  modify (fun k => k <| k_trace := k_trace k
    <| tr_pids := alter (fun r => <[i := pid]> r) (Z.to_nat num) (tr_pids (k_trace k)) |> |>) ;;
  n ← row_of "pid_num_of_calls[pid]" pid (tr_calls tr);
  modify (fun k => k <| k_trace := k_trace k
    <| tr_calls := <[Z.to_nat pid := s32 (n + 1)]> (tr_calls (k_trace k)) |> |>) ;;
  modify (fun k => k <| k_trace := k_trace k
    <| tr_orders := alter (fun r => <[i := s32 (n + 1)]> r) (Z.to_nat num)
                      (tr_orders (k_trace k)) |> |>).

(** The loop of [get_callers] from index [i] on; the row is left at its first
    zero, and reading [row[i+1]] past the end is out of bounds. *)
Fixpoint print_callers (n : nat) (i : nat) (pids orders : list Z) : K unit :=
  match n with
  | O => mret tt
  | S n' =>
      pid ← deref "row overflow" (pids !! i);
      if pid =? 0 then mret tt else
      (if Z.rem (Z.of_nat i) MAX_PID_OUTPUT_IN_ONE_LINE =? 0
       then cprintf [NL] [] else mret tt) ;;
      next ← deref "row overflow" (pids !! S i);
      ord ← deref "row overflow" (orders !! i);
      (if negb (next =? 0)
       then cprintf (bytes "%d:%d ,") [PInt pid; PInt ord]
       else cprintf (bytes "%d:%d" ++ [NL]) [PInt pid; PInt ord]) ;;
      print_callers n' (S i) pids orders
  end.

Definition get_callers (syscall_number : Z) : K unit :=
  tr ← gets k_trace;
  pids ← row_of "syscalls_pid_stack[num]" syscall_number (tr_pids tr);
  orders ← row_of "syscalls_order_pid_stack[num]" syscall_number (tr_orders tr);
  pid0 ← deref "row overflow" (pids !! 0%nat);
  if pid0 =? 0 then cprintf (bytes "this syscall is not called yet!!!" ++ [NL]) [] else
  cprintf (bytes "pid: order that pid called this syscall" ++ [NL]) [] ;;
  print_callers (S MAX_PID_NUM_SAVED) 0 pids orders.

(** ** The abstract trace *)

(** The calls made so far, oldest first: system call number and pid. *)
Abbreviation log := (list (Z * Z)).

Definition calls_of (num : Z) (l : log) : list Z :=
  map snd (filter (fun c : Z * Z => c.1 = num) l).

(** For each call of [num]: how many calls its pid had made by then. *)
Fixpoint orders_of (num : Z) (before l : log) : list Z :=
  match l with
  | [] => []
  | (m, pid) :: l' =>
      let before' := before ++ [(m, pid)] in
      let ord := Z.of_nat (length (filter (fun c : Z * Z => c.2 = pid) before')) in
      (if decide (m = num) then [ord] else []) ++ orders_of num before' l'
  end.

Definition padded (l : list Z) : list Z := l ++ replicate (MAX_PID_NUM_SAVED - length l) 0.

(** The tables hold the trace [l]. *)
Record represents (tr : trace) (l : log) : Prop := {
  rp_valid : Forall (fun c : Z * Z => 0 <= c.1 < NUM_OF_SYSCALLS /\ 0 < c.2 < MAX_PID_TRACED) l;
  rp_short num : (length (calls_of num l) <= MAX_PID_NUM_SAVED)%nat;
  rp_small : Z.of_nat (length l) < 2 ^ 31 - 1;
  rp_pids num : 0 <= num < NUM_OF_SYSCALLS ->
    tr_pids tr !! Z.to_nat num = Some (padded (calls_of num l));
  rp_orders num : 0 <= num < NUM_OF_SYSCALLS ->
    tr_orders tr !! Z.to_nat num = Some (padded (orders_of num [] l));
  rp_calls pid : 0 <= pid < MAX_PID_TRACED ->
    tr_calls tr !! Z.to_nat pid =
      Some (Z.of_nat (length (filter (fun c : Z * Z => c.2 = pid) l)))
}.

Lemma calls_of_app num l1 l2 : calls_of num (l1 ++ l2) = calls_of num l1 ++ calls_of num l2.
Proof. unfold calls_of. by rewrite filter_app, map_app. Qed.

Lemma calls_of_one num m pid : calls_of num [(m, pid)] = if decide (m = num) then [pid] else [].
Proof. unfold calls_of. rewrite filter_cons. simpl. by case_decide. Qed.

Lemma orders_of_app num b l1 l2 :
  orders_of num b (l1 ++ l2) = orders_of num b l1 ++ orders_of num (b ++ l1) l2.
Proof.
  revert b. induction l1 as [|[m pid] l1 IH]; intros b; simpl; [by rewrite app_nil_r|].
  rewrite IH, <-!app_assoc. done.
Qed.

Lemma orders_of_length num b l : length (orders_of num b l) = length (calls_of num l).
Proof.
  revert b. induction l as [|[m pid] l IH]; intros b; [done|].
  change ((m, pid) :: l) with ([(m, pid)] ++ l). rewrite calls_of_app, calls_of_one.
  simpl. rewrite !length_app, IH. by case_decide.
Qed.

Lemma first_zero_padded l i :
  Forall (fun x => x <> 0) l -> (length l < MAX_PID_NUM_SAVED)%nat ->
  first_zero (padded l) i = Some (i + length l)%nat.
Proof.
  intros Hl Hlt. unfold padded.
  destruct (MAX_PID_NUM_SAVED - length l)%nat as [|n] eqn:E; [lia|]. clear E Hlt.
  revert i. induction Hl as [|x l Hx Hl IH]; intros i; simpl; [f_equal; lia|].
  replace (x =? 0) with false by lia. rewrite IH. f_equal. lia.
Qed.

Lemma first_zero_none l i : Forall (fun x => x <> 0) l -> first_zero l i = None.
Proof.
  intros Hl. revert i. induction Hl as [|x l Hx Hl IH]; intros i; simpl; [done|].
  replace (x =? 0) with false by lia. apply IH.
Qed.

Lemma padded_insert l x :
  (length l < MAX_PID_NUM_SAVED)%nat -> <[length l := x]> (padded l) = padded (l ++ [x]).
Proof.
  intros Hlt. unfold padded. rewrite length_app. simpl.
  destruct (MAX_PID_NUM_SAVED - length l)%nat as [|n] eqn:E; [lia|].
  replace (MAX_PID_NUM_SAVED - (length l + 1))%nat with n by lia.
  rewrite insert_app_r_alt, Nat.sub_diag by lia. simpl. by rewrite <-app_assoc.
Qed.

Lemma calls_nonzero tr l num : represents tr l -> Forall (fun x => x <> 0) (calls_of num l).
Proof.
  intros Hr. apply Forall_fmap, Forall_forall. intros c [_ Hc]%list_elem_of_filter.
  pose proof (rp_valid _ _ Hr) as Hv. rewrite Forall_forall in Hv.
  specialize (Hv c Hc). simpl. lia.
Qed.

(** The tables after a call is recorded. *)
Definition pushed (tr : trace) (l : log) (pid num : Z) : trace :=
  let i := length (calls_of num l) in
  let n := Z.of_nat (length (filter (fun c : Z * Z => c.2 = pid) l)) + 1 in
  tr <| tr_pids := alter (fun r => <[i := pid]> r) (Z.to_nat num) (tr_pids tr) |>
     <| tr_calls := <[Z.to_nat pid := n]> (tr_calls tr) |>
     <| tr_orders := alter (fun r => <[i := n]> r) (Z.to_nat num) (tr_orders tr) |>.

Lemma count_pid_le (l : log) pid :
  (length (filter (fun c : Z * Z => c.2 = pid) l) <= length l)%nat.
Proof. apply length_filter. Qed.

Lemma push_run l pid num k e :
  represents (k_trace k) l -> 0 <= num < NUM_OF_SYSCALLS -> 0 < pid < MAX_PID_TRACED ->
  (length (calls_of num l) < MAX_PID_NUM_SAVED)%nat ->
  push_pid_in_stack pid num k e = Ret tt (k <| k_trace := pushed (k_trace k) l pid num |>) e.
Proof.
  intros Hr Hnum Hpid Hlt. unfold push_pid_in_stack, row_of.
  replace (num <? 0) with false by lia. replace (pid <? 0) with false by lia. mrun.
  rewrite (rp_pids _ _ Hr num Hnum). mrun.
  rewrite first_zero_padded by (done || by eapply calls_nonzero). mrun.
  rewrite (rp_calls _ _ Hr pid ltac:(lia)). mrun. unfold modify. rsimpl.
  rewrite s32_small; [done|].
  pose proof (rp_small _ _ Hr). pose proof (count_pid_le l pid). lia.
Qed.

Lemma filter_pid_snoc (l : log) m q pid :
  length (filter (fun c : Z * Z => c.2 = pid) (l ++ [(m, q)])) =
  (length (filter (fun c : Z * Z => c.2 = pid) l) + if decide (q = pid) then 1 else 0)%nat.
Proof. rewrite filter_app, length_app, filter_cons. simpl. by case_decide. Qed.

Lemma alter_row (rows : list (list Z)) (num m : Z) f row :
  0 <= num -> 0 <= m -> rows !! Z.to_nat m = Some row ->
  alter f (Z.to_nat num) rows !! Z.to_nat m = Some (if decide (m = num) then f row else row).
Proof.
  intros Hn Hm Hr. destruct (decide (m = num)) as [->|Hne].
  - by rewrite list_lookup_alter_eq, Hr.
  - by rewrite list_lookup_alter_ne by lia.
Qed.

Lemma pushed_represents tr l pid num :
  represents tr l -> 0 <= num < NUM_OF_SYSCALLS -> 0 < pid < MAX_PID_TRACED ->
  (length (calls_of num l) < MAX_PID_NUM_SAVED)%nat -> Z.of_nat (length l) < 2 ^ 31 - 2 ->
  represents (pushed tr l pid num) (l ++ [(num, pid)]).
Proof.
  intros Hr Hnum Hpid Hlt Hsmall. split.
  - apply Forall_app. split; [apply Hr|]. by constructor.
  - intros m. rewrite calls_of_app, calls_of_one, length_app.
    pose proof (rp_short _ _ Hr m). case_decide; subst; simpl; lia.
  - rewrite length_app. simpl. lia.
  - intros m Hm. unfold pushed. rsimpl. rewrite (alter_row _ _ _ _ _ (proj1 Hnum) (proj1 Hm)
      (rp_pids _ _ Hr m Hm)), calls_of_app, calls_of_one. f_equal.
    destruct (decide (m = num)) as [->|Hne].
    + rewrite decide_True by done. by apply padded_insert.
    + by rewrite decide_False, app_nil_r by congruence.
  - intros m Hm. unfold pushed. rsimpl. rewrite (alter_row _ _ _ _ _ (proj1 Hnum) (proj1 Hm)
      (rp_orders _ _ Hr m Hm)), orders_of_app. f_equal. simpl.
    rewrite filter_pid_snoc. destruct (decide (pid = pid)) as [_|]; [|done].
    destruct (decide (m = num)) as [->|Hne].
    + rewrite decide_True by done. rewrite <-(orders_of_length num [] l).
      rewrite padded_insert by (by rewrite orders_of_length).
      rewrite Nat2Z.inj_add. done.
    + by rewrite decide_False, app_nil_r by congruence.
  - intros q Hq. unfold pushed. rsimpl. rewrite filter_pid_snoc.
    pose proof (rp_calls _ _ Hr q Hq) as Hc. destruct (decide (pid = q)) as [->|Hne].
    + rewrite list_lookup_insert_eq by (by eapply lookup_lt_Some). f_equal. lia.
    + rewrite list_lookup_insert_ne by lia. rewrite Hc. f_equal. lia.
Qed.

(** as long as a system call has fewer than 1000 recorded calls,
    [push_pid_in_stack] appends the call to the trace: the tables hold, for
    every system call, the pids that called it in the order of the calls, and
    with each of them the number of calls its pid had made by then. *)
Theorem push_pid_appends l pid num k e :
  represents (k_trace k) l -> 0 <= num < NUM_OF_SYSCALLS -> 0 < pid < MAX_PID_TRACED ->
  (length (calls_of num l) < MAX_PID_NUM_SAVED)%nat -> Z.of_nat (length l) < 2 ^ 31 - 2 ->
  exists tr', push_pid_in_stack pid num k e = Ret tt (k <| k_trace := tr' |>) e /\
    represents tr' (l ++ [(num, pid)]).
Proof.
  intros. eexists. split; [by apply push_run|]. by apply pushed_represents.
Qed.

(** the thousand-and-first call of the same system call runs past the end
    of its row, and so does the first call of a process with a pid of 1000 or
    more in [pid_num_of_calls]. *)
Theorem push_pid_overflow l pid num k e :
  represents (k_trace k) l -> 0 <= num < NUM_OF_SYSCALLS ->
  length (tr_calls (k_trace k)) = 1000%nat ->
  length (calls_of num l) = MAX_PID_NUM_SAVED \/ MAX_PID_TRACED <= pid ->
  exists why, push_pid_in_stack pid num k e = Undef why.
Proof.
  intros Hr Hnum Hlen Hcase. unfold push_pid_in_stack, row_of.
  replace (num <? 0) with false by lia. mrun. rewrite (rp_pids _ _ Hr num Hnum). mrun.
  destruct (first_zero _ 0) as [i|] eqn:E; mrun; [|by eexists].
  destruct Hcase as [Hfull|Hbig].
  - exfalso. unfold padded in E. rewrite Hfull, Nat.sub_diag, app_nil_r in E.
    by rewrite first_zero_none in E by (by eapply calls_nonzero).
  - unfold MAX_PID_TRACED in Hbig. replace (pid <? 0) with false by lia.
    rewrite lookup_ge_None_2 by lia. by eexists.
Qed.

(** ** What get_callers prints *)

(** "pid:order" for each recorded call, eleven to a line. *)
Fixpoint callers_text (i : nat) (pids orders : list Z) : list Z :=
  match pids, orders with
  | pid :: pids', ord :: orders' =>
      (if Z.rem (Z.of_nat i) MAX_PID_OUTPUT_IN_ONE_LINE =? 0 then [NL] else []) ++
      (if match pids' with [] => false | _ => true end
       then int_chars true pid 10 true ++ 58 :: int_chars true ord 10 true ++ bytes " ,"
       else int_chars true pid 10 true ++ 58 :: int_chars true ord 10 true ++ [NL]) ++
      callers_text (S i) pids' orders'
  | _, _ => []
  end.

Lemma print_callers_prints pids orders zeros n pre_p pre_o :
  Forall (fun x => x <> 0) pids -> length orders = length pids -> (0 < zeros)%nat ->
  (length pids < n)%nat -> length pre_o = length pre_p ->
  prints (print_callers n (length pre_p) (pre_p ++ pids ++ replicate zeros 0)
            (pre_o ++ orders ++ replicate zeros 0))
    (callers_text (length pre_p) pids orders).
Proof.
  intros Hp. revert orders n pre_p pre_o.
  induction Hp as [|pid pids Hpid Hp IH]; intros orders n pre_p pre_o Hlen Hz Hn Hpre.
  - destruct n as [|n]; [simpl in Hn; lia|]. destruct orders; [|done].
    destruct zeros as [|zeros]; [lia|]. cbn [print_callers app replicate].
    rewrite (list_lookup_middle pre_p _ _ (length pre_p) eq_refl). apply prints_nil.
  - destruct n as [|n]; [simpl in Hn; lia|]. destruct orders as [|ord orders]; [done|].
    cbn [print_callers app]. rewrite (list_lookup_middle pre_p _ _ (length pre_p) eq_refl).
    rewrite (list_lookup_middle pre_o _ _ (length pre_p)) by done.
    assert (exists next, (pre_p ++ pid :: pids ++ replicate zeros 0) !! S (length pre_p) = Some next /\
      negb (next =? 0) = match pids with [] => false | _ => true end) as (next & -> & Hnext).
    { replace (S (length pre_p)) with (length (pre_p ++ [pid])) by (rewrite length_app; simpl; lia).
      replace (pre_p ++ pid :: pids ++ replicate zeros 0)
        with ((pre_p ++ [pid]) ++ pids ++ replicate zeros 0) by (by rewrite <-app_assoc).
      destruct Hp as [|x pids Hx Hp]; simpl.
      - destruct zeros as [|zeros]; [lia|]. exists 0. split; [|done]. by apply list_lookup_middle.
      - exists x. split; [by apply list_lookup_middle|]. by replace (x =? 0) with false by lia. }
    cbn [deref]. change (prints (if pid =? 0 then mret tt else
      (if Z.rem (Z.of_nat (length pre_p)) MAX_PID_OUTPUT_IN_ONE_LINE =? 0
       then cprintf [NL] [] else mret tt) ;;
      (if negb (next =? 0) then cprintf (bytes "%d:%d ,") [PInt pid; PInt ord]
       else cprintf (bytes "%d:%d" ++ [NL]) [PInt pid; PInt ord]) ;;
      print_callers n (S (length pre_p)) (pre_p ++ pid :: pids ++ replicate zeros 0)
        (pre_o ++ ord :: orders ++ replicate zeros 0))
      (callers_text (length pre_p) (pid :: pids) (ord :: orders))).
    replace (pid =? 0) with false by lia. rewrite Hnext. cbn [callers_text].
    apply prints_seq; [auto with xv6|]. apply prints_seq; [auto with xv6|].
    specialize (IH orders n (pre_p ++ [pid]) (pre_o ++ [ord])).
    rewrite !length_app, <-!app_assoc in IH. simpl in IH. rewrite !Nat.add_1_r in IH.
    apply IH; simpl in *; lia.
Qed.

(** [get_callers(num)] prints the trace of system call [num]: every
    recorded call, oldest first, as "pid:order", eleven to a line (or that
    the call was never made), and changes nothing else. *)
Theorem get_callers_prints l num k e :
  represents (k_trace k) l -> 0 <= num < NUM_OF_SYSCALLS ->
  (length (calls_of num l) < MAX_PID_NUM_SAVED)%nat ->
  cpu_ok (k_cpu k) -> L_cons ∉ c_held (k_cpu k) -> cons_ok (k_cons k) ->
  let text := match calls_of num l with
    | [] => bytes "this syscall is not called yet!!!" ++ [NL]
    | pids => (bytes "pid: order that pid called this syscall" ++ [NL]) ++
        callers_text 0 pids (orders_of num [] l)
    end in
  exists c, get_callers num k e = Ret tt (k <| k_cons := emit text (k_cons k) |> <| k_cpu := c |>) e /\
    c_held c = c_held (k_cpu k).
Proof.
  intros Hr Hnum Hlt Hcpu Hfree Hok. unfold get_callers, row_of.
  replace (num <? 0) with false by lia. mrun.
  rewrite (rp_pids _ _ Hr num Hnum), (rp_orders _ _ Hr num Hnum). mrun.
  pose proof (calls_nonzero _ _ num Hr) as Hnz. pose proof (orders_of_length num [] l) as Hol.
  assert (forall cs m, prints m cs -> exists c,
    m k e = Ret tt (k <| k_cons := emit cs (k_cons k) |> <| k_cpu := c |>) e /\
    c_held c = c_held (k_cpu k)) as Hgo.
  { intros cs m Hm. destruct (Hm k e Hcpu Hfree Hok) as (c & E & Hc). exists c. split; [done|].
    by apply touched_ok. }
  unfold padded. rewrite Hol. destruct (calls_of num l) as [|pid pids] eqn:Ec.
  - cbn [app length]. rewrite lookup_replicate_2 by (unfold MAX_PID_NUM_SAVED; lia). mrun.
    apply (Hgo _ (cprintf _ [])), prints_cprintf. reflexivity.
  - cbn [lookup list_lookup]. mrun. inversion Hnz; subst.
    match goal with |- context [if ?b then _ else _] => replace b with false by (simpl; lia) end.
    apply Hgo.
    apply prints_seq; [apply prints_cprintf; reflexivity|].
    apply (print_callers_prints (pid :: pids) (orders_of num [] l)
      (MAX_PID_NUM_SAVED - length (pid :: pids)) (S MAX_PID_NUM_SAVED) [] []); auto; lia.
Qed.

(** The empty tables hold the empty trace. *)
Lemma zero_represents : represents zero_trace [].
Proof.
  split; [constructor|intros; simpl; lia|simpl; lia| | |];
    intros m Hm; unfold zero_trace; cbn [tr_pids tr_orders tr_calls];
    apply lookup_replicate_2; unfold NUM_OF_SYSCALLS, MAX_PID_TRACED in Hm; lia.
Qed.

Lemma push_pid_appends_witness :
  exists tr', push_pid_in_stack 3 5 boot_kernel [] = Ret tt (boot_kernel <| k_trace := tr' |>) [] /\
    represents tr' [(5, 3)].
Proof.
  apply (push_pid_appends [] 3 5 boot_kernel []);
    [exact zero_represents | unfold NUM_OF_SYSCALLS; lia | unfold MAX_PID_TRACED; lia
    | unfold MAX_PID_NUM_SAVED; simpl; lia | simpl; lia].
Defined.

Lemma push_pid_overflow_witness :
  exists why, push_pid_in_stack 1000 5 boot_kernel [] = Undef why.
Proof.
  apply (push_pid_overflow [] 1000 5 boot_kernel []);
    [exact zero_represents | unfold NUM_OF_SYSCALLS; lia | reflexivity | right; reflexivity].
Defined.

Lemma get_callers_prints_witness :
  exists c, get_callers 5 boot_kernel [] =
    Ret tt (boot_kernel <| k_cons := emit (bytes "this syscall is not called yet!!!" ++ [NL])
      (k_cons boot_kernel) |> <| k_cpu := c |>) [] /\ c_held c = [].
Proof.
  apply (get_callers_prints [] 5 boot_kernel []);
    [exact zero_represents | unfold NUM_OF_SYSCALLS; lia | unfold MAX_PID_NUM_SAVED; simpl; lia
    | split; [reflexivity|constructor|reflexivity] | apply not_elem_of_nil | by split].
Defined.
