(* ===== verification/Str.v ===== *)
(** Memory and strings (string.c, and the string instructions of x86.h).

    Memory is a function from addresses to bytes.  Objects do not wrap around
    the end of the address space, so pointers are plain integers. *)

From S2P Require Import Prelude.

Abbreviation mem := (Z -> Z).

Definition store (a v : Z) (m : mem) : mem := fun x => if x =? a then v else m x.

(** ** x86.h *)

(** [rep stosb]: [cnt] bytes. *)
Fixpoint stosb (addr data : Z) (cnt : nat) (m : mem) : mem :=
  match cnt with
  | O => m
  | S cnt => stosb (addr + 1) data cnt (store addr (u8 data) m)
  end.

(** A little-endian 32-bit store and load. *)
Definition store32 (a v : Z) (m : mem) : mem :=
  store (a + 3) (u8 (Z.shiftr v 24)) (store (a + 2) (u8 (Z.shiftr v 16))
    (store (a + 1) (u8 (Z.shiftr v 8)) (store a (u8 v) m))).
Definition load32 (a : Z) (m : mem) : Z :=
  u8 (m a) + 2 ^ 8 * u8 (m (a + 1)) + 2 ^ 16 * u8 (m (a + 2)) + 2 ^ 24 * u8 (m (a + 3)).

(** [rep stosl]: [cnt] words. *)
Fixpoint stosl (addr data : Z) (cnt : nat) (m : mem) : mem :=
  match cnt with
  | O => m
  | S cnt => stosl (addr + 4) data cnt (store32 addr data m)
  end.

(** ** string.c *)

Definition memset (dst c n : Z) (m : mem) : mem :=
  if (Z.rem (s32 dst) 4 =? 0) && (n mod 4 =? 0) then
    let c := Z.land c 0xFF in
    stosl dst (Z.lor (Z.lor (Z.lor (Z.shiftl c 24) (Z.shiftl c 16)) (Z.shiftl c 8)) c)
      (Z.to_nat (n / 4)) m
  else stosb dst c (Z.to_nat n) m.

Fixpoint memcmp_loop (s1 s2 : Z) (n : nat) (m : mem) : Z :=
  match n with
  | O => 0
  | S n =>
      if negb (u8 (m s1) =? u8 (m s2)) then u8 (m s1) - u8 (m s2)
      else memcmp_loop (s1 + 1) (s2 + 1) n m
  end.
Definition memcmp (v1 v2 n : Z) (m : mem) : Z := memcmp_loop v1 v2 (Z.to_nat n) m.

Fixpoint copy_up (d s : Z) (n : nat) (m : mem) : mem :=
  match n with
  | O => m
  | S n => copy_up (d + 1) (s + 1) n (store d (m s) m)
  end.
Fixpoint copy_down (d s : Z) (n : nat) (m : mem) : mem :=
  match n with
  | O => m
  | S n => copy_down (d - 1) (s - 1) n (store (d - 1) (m (s - 1)) m)
  end.
Definition memmove (dst src n : Z) (m : mem) : mem :=
  if (src <? dst) && (src + n >? dst)
  then copy_down (dst + n) (src + n) (Z.to_nat n) m
  else copy_up dst src (Z.to_nat n) m.

Fixpoint strncmp_loop (p q : Z) (n : nat) (m : mem) : Z :=
  match n with
  | O => 0
  | S n' =>
      if negb (m p =? 0) && (m p =? m q) then strncmp_loop (p + 1) (q + 1) n' m
      else u8 (m p) - u8 (m q)
  end.
Definition strncmp (p q n : Z) (m : mem) : Z := strncmp_loop p q (Z.to_nat n) m.

Fixpoint strncpy_loop (s t : Z) (n : nat) (m : mem) : mem :=
  match n with
  | O => m
  | S n =>
      let m' := store s (m t) m in
      if m t =? 0 then stosb (s + 1) 0 n m' else strncpy_loop (s + 1) (t + 1) n m'
  end.
Definition strncpy (s t n : Z) (m : mem) : mem := strncpy_loop s t (Z.to_nat n) m.

(** The loop of [safestrcpy], which copies up to and including a NUL but at
    most [n] bytes, and the store of the final NUL. *)
Fixpoint safestrcpy_loop (s t : Z) (n : nat) (m : mem) : mem :=
  match n with
  | O => store s 0 m
  | S n =>
      let m' := store s (m t) m in
      if m t =? 0 then store (s + 1) 0 m' else safestrcpy_loop (s + 1) (t + 1) n m'
  end.
Definition safestrcpy (s t n : Z) (m : mem) : mem :=
  if n <=? 0 then m else safestrcpy_loop s t (Z.to_nat (n - 1)) m.

(** [None]: no NUL within the fuel. *)
Fixpoint strlen_loop (fuel : nat) (s n : Z) (m : mem) : option Z :=
  match fuel with
  | O => None
  | S fuel => if m (s + n) =? 0 then Some n else strlen_loop fuel s (n + 1) m
  end.
Definition strlen (fuel : nat) (s : Z) (m : mem) : option Z := strlen_loop fuel s 0 m.

(** ** What they do *)

Lemma store_eq a v m : store a v m a = v.
Proof. unfold store. by rewrite Z.eqb_refl. Qed.

Lemma store_ne a v m x : x <> a -> store a v m x = m x.
Proof. intros. unfold store. by replace (x =? a) with false by lia. Qed.

Lemma stosb_spec addr data cnt m x :
  stosb addr data cnt m x =
  if (addr <=? x) && (x <? addr + Z.of_nat cnt) then u8 data else m x.
Proof.
  revert addr m. induction cnt as [|cnt IH]; intros addr m; cbn [stosb].
  - by zcases.
  - rewrite IH. unfold store. by zcases.
Qed.

(** The four bytes of the word [memset] builds are the byte. *)
Definition splat (b : Z) : Z :=
  Z.lor (Z.lor (Z.lor (Z.shiftl b 24) (Z.shiftl b 16)) (Z.shiftl b 8)) b.

Lemma splat_bytes b :
  0 <= b < 256 ->
  u8 (splat b) = b /\ u8 (Z.shiftr (splat b) 8) = b /\
  u8 (Z.shiftr (splat b) 16) = b /\ u8 (Z.shiftr (splat b) 24) = b.
Proof.
  intros Hb. enough ((u8 (splat b) =? b) && (u8 (Z.shiftr (splat b) 8) =? b) &&
    (u8 (Z.shiftr (splat b) 16) =? b) && (u8 (Z.shiftr (splat b) 24) =? b) = true) by lia.
  revert b Hb. apply forall_byte. vm_compute. reflexivity.
Qed.

Lemma stosl_spec addr b cnt m x :
  0 <= b < 256 ->
  stosl addr (splat b) cnt m x =
  if (addr <=? x) && (x <? addr + 4 * Z.of_nat cnt) then b else m x.
Proof.
  intros Hb. destruct (splat_bytes b Hb) as (H0 & H8 & H16 & H24).
  revert addr m. induction cnt as [|cnt IH]; intros addr m; cbn [stosl].
  - by zcases.
  - rewrite IH. unfold store32. rewrite H0, H8, H16, H24. unfold store.
    by zcases.
Qed.

Lemma memset_run dst c n m x :
  0 <= n ->
  memset dst c n m x = if (dst <=? x) && (x <? dst + n) then u8 c else m x.
Proof.
  intros Hn. unfold memset. destruct ((Z.rem (s32 dst) 4 =? 0) && (n mod 4 =? 0)) eqn:E.
  - assert (Z.land c 0xFF = u8 c) as -> by (apply (Z.land_ones c 8); lia).
    change (Z.lor (Z.lor (Z.lor (Z.shiftl (u8 c) 24) (Z.shiftl (u8 c) 16)) (Z.shiftl (u8 c) 8)) (u8 c))
      with (splat (u8 c)).
    rewrite stosl_spec by apply u8_range.
    replace (4 * Z.of_nat (Z.to_nat (n / 4))) with n; [done|].
    apply andb_true_iff in E as [_ E]. apply Z.eqb_eq in E.
    rewrite Z2Nat.id by (apply Z.div_pos; lia). pose proof (Z.div_mod n 4). lia.
  - rewrite stosb_spec. by rewrite Z2Nat.id by lia.
Qed.

(** [memset] fills exactly the [n] bytes at [dst] with the low byte of
    [c], on its word-at-a-time path as well as on its byte path. *)
Theorem memset_fills dst c n m x :
  0 <= n ->
  memset dst c n m x = if (dst <=? x) && (x <? dst + n) then u8 c else m x.
Proof. apply memset_run. Qed.

Lemma copy_up_spec d s n m x :
  (d <= s \/ s + Z.of_nat n <= d) ->
  copy_up d s n m x =
  if (d <=? x) && (x <? d + Z.of_nat n) then m (s + (x - d)) else m x.
Proof.
  revert d s m. induction n as [|n IH]; intros d s m Hov; cbn [copy_up].
  - by zcases.
  - rewrite IH by lia. unfold store. zcases; f_equal; lia.
Qed.

Lemma copy_down_spec d s n m x :
  s <= d ->
  copy_down d s n m x =
  if (d - Z.of_nat n <=? x) && (x <? d) then m (s + (x - d)) else m x.
Proof.
  revert d s m. induction n as [|n IH]; intros d s m Hov; cbn [copy_down].
  - by zcases.
  - rewrite IH by lia. unfold store. zcases; f_equal; lia.
Qed.

Lemma memmove_run dst src n m x :
  0 <= n ->
  memmove dst src n m x =
  if (dst <=? x) && (x <? dst + n) then m (src + (x - dst)) else m x.
Proof.
  intros Hn. unfold memmove. rewrite Z.gtb_ltb.
  destruct (Z.ltb_spec src dst), (Z.ltb_spec dst (src + n)); cbn [andb];
    rewrite ?copy_down_spec, ?copy_up_spec; rewrite ?Z2Nat.id; try lia;
    zcases; f_equal; lia.
Qed.

(** [memmove] copies the [n] bytes at [src] as they were before the call
    to [dst], whether or not the two regions overlap, and changes nothing
    else. *)
Theorem memmove_copies dst src n m x :
  0 <= n ->
  memmove dst src n m x =
  if (dst <=? x) && (x <? dst + n) then m (src + (x - dst)) else m x.
Proof. apply memmove_run. Qed.

(** ** C strings in memory *)

(** The bytes [l] at address [a]. *)
Definition holds_at (m : mem) (a : Z) (l : list Z) : Prop :=
  forall i x, l !! i = Some x -> m (a + Z.of_nat i) = x.

(** The C string [l] at address [a], with its NUL. *)
Definition cstr (m : mem) (a : Z) (l : list Z) : Prop :=
  Forall (fun c => c <> 0 /\ 0 <= c < 256) l /\ holds_at m a (l ++ [0]).

Lemma holds_cons m a x l : holds_at m a (x :: l) <-> m a = x /\ holds_at m (a + 1) l.
Proof.
  split.
  - intros H. split.
    + rewrite <-(Z.add_0_r a). by apply (H 0%nat).
    + intros i y Hy. specialize (H (S i) y Hy). rewrite <-H. f_equal. lia.
  - intros [<- H] [|i] y Hy; simplify_eq/=; [f_equal; lia|]. rewrite <-(H i y Hy). f_equal. lia.
Qed.

Lemma cstr_nil m a : cstr m a [] <-> m a = 0.
Proof.
  unfold cstr. simpl. rewrite holds_cons. split; [tauto|]. intros H.
  split; [constructor|]. split; [done|]. by intros i x Hx.
Qed.

Lemma cstr_cons m a c l :
  cstr m a (c :: l) <-> (c <> 0 /\ 0 <= c < 256) /\ m a = c /\ cstr m (a + 1) l.
Proof. unfold cstr. simpl. rewrite Forall_cons, holds_cons. tauto. Qed.

Lemma holds_ext m m' a l :
  (forall x, a <= x < a + Z.of_nat (length l) -> m' x = m x) -> holds_at m a l -> holds_at m' a l.
Proof.
  intros Heq H i x Hx. rewrite Heq; [by apply H|]. apply lookup_lt_Some in Hx. lia.
Qed.

Lemma cstr_ext m m' a l :
  (forall x, a <= x < a + Z.of_nat (length l) + 1 -> m' x = m x) -> cstr m a l -> cstr m' a l.
Proof.
  intros Heq [Hl Hh]. split; [done|]. apply (holds_ext m); [|done].
  intros x Hx. rewrite length_app in Hx. simpl in Hx. apply Heq. lia.
Qed.

Lemma strlen_run fuel s l m n :
  cstr m (s + n) l -> (length l < fuel)%nat ->
  strlen_loop fuel s n m = Some (n + Z.of_nat (length l)).
Proof.
  revert fuel n. induction l as [|c l IH]; intros [|fuel] n Hs Hf; simpl in Hf; try lia;
    cbn [strlen_loop].
  - apply cstr_nil in Hs. rewrite Hs. simpl. f_equal. lia.
  - apply cstr_cons in Hs as ((? & _) & -> & Hs). replace (c =? 0) with false by lia.
    rewrite IH; [f_equal; simpl; lia| |lia]. by rewrite Z.add_assoc.
Qed.

Lemma strncmp_eq p q lp lq n m :
  cstr m p lp -> cstr m q lq ->
  strncmp_loop p q n m = 0 <-> take n (lp ++ [0]) = take n (lq ++ [0]).
Proof.
  revert p q lp lq. induction n as [|n IH]; intros p q lp lq Hp Hq; cbn [strncmp_loop]; [done|].
  assert (forall a l, cstr m a l -> exists c l', l ++ [0] = c :: l' /\ m a = c /\ 0 <= c < 256)
    as Hhd.
  { intros a [|c l] Ha.
    - apply cstr_nil in Ha. exists 0, []. split_and!; done || lia.
    - apply cstr_cons in Ha as ((_ & ?) & ? & _). by exists c, (l ++ [0]). }
  destruct lp as [|c lp].
  - apply cstr_nil in Hp. rewrite Hp. simpl.
    destruct (Hhd q lq Hq) as (c' & l' & El & -> & Hc'). rewrite El. simpl.
    rewrite (u8_small c') by done. rewrite u8_small by lia.
    split; [intros H|intros [= <- _]; lia]. assert (c' = 0) as -> by lia.
    destruct lq as [|x lq]; [injection El as <-; by destruct n|].
    apply cstr_cons in Hq as ((? & _) & _). injection El as -> _. done.
  - apply cstr_cons in Hp as ((Hc & Hc256) & -> & Hp). replace (c =? 0) with false by lia. simpl.
    destruct lq as [|c' lq].
    + apply cstr_nil in Hq. rewrite Hq. replace (c =? 0) with false by lia.
      rewrite !u8_small by lia. simpl. split; [lia|]. intros [= -> _]. done.
    + apply cstr_cons in Hq as ((Hc' & Hc256') & -> & Hq). simpl.
      destruct (Z.eqb_spec c c') as [->|Hne].
      * rewrite (IH _ _ lp lq) by done. split; [by intros ->|by intros [= ->]].
      * rewrite !u8_small by lia. split; [lia|]. by intros [= -> _].
Qed.

(** ** prefix_predict.c *)

(** [starts_with(pre, str)]; [None] when [pre] has no NUL within the fuel. *)
Definition starts_with (fuel : nat) (pre str : Z) (m : mem) : option Z :=
  n ← strlen fuel pre m;
  Some (if strncmp str pre n m =? 0 then 1 else 0).

(** [starts_with(pre, str)] is 1 exactly when the string [pre] is a
    prefix of the string [str], and 0 otherwise. *)
Theorem starts_with_prefix fuel pre str lp ls m :
  cstr m pre lp -> cstr m str ls -> (length lp < fuel)%nat ->
  starts_with fuel pre str m = Some (if decide (lp `prefix_of` ls) then 1 else 0).
Proof.
  intros Hp Hs Hf. unfold starts_with, strlen.
  rewrite (strlen_run fuel pre lp) by (rewrite ?Z.add_0_r; done).
  cbn [mbind option_bind]. f_equal.
  unfold strncmp. rewrite ?Z.add_0_l, Nat2Z.id.
  pose proof (strncmp_eq str pre ls lp (length lp) m Hs Hp) as Heq.
  rewrite (take_app_length lp) in Heq.
  assert (take (length lp) (ls ++ [0]) = lp <-> lp `prefix_of` ls) as Hpre.
  { split.
    - intros H. destruct (decide (length lp <= length ls)%nat) as [Hle|Hgt].
      + rewrite take_app_le in H by lia. exists (drop (length lp) ls). by rewrite <-H, take_drop at 1.
      + rewrite take_ge in H by (rewrite length_app; simpl; lia). subst lp.
        destruct Hp as [Hp _]. apply Forall_app in Hp as [_ Hp]. inversion Hp. tauto.
    - intros [r ->]. by rewrite <-app_assoc, take_app_length. }
  case_decide as Hd.
  - by rewrite (proj2 Heq (proj2 Hpre Hd)).
  - destruct (Z.eqb_spec (strncmp_loop str pre (length lp) m) 0); tauto.
Qed.

Lemma safestrcpy_loop_spec s t l n m :
  cstr m t l -> (s + Z.of_nat n < t \/ t + Z.of_nat (length l) < s) ->
  cstr (safestrcpy_loop s t n m) s (take n l) /\
  forall x, x < s \/ s + Z.of_nat n < x -> safestrcpy_loop s t n m x = m x.
Proof.
  revert s t l m. induction n as [|n IH]; intros s t l m Ht Hd; cbn [safestrcpy_loop].
  - split; [by apply cstr_nil, store_eq|]. intros x Hx. apply store_ne. lia.
  - destruct l as [|c l].
    + apply cstr_nil in Ht. rewrite Ht. simpl. split.
      * apply cstr_nil. rewrite store_ne by lia. apply store_eq.
      * intros x Hx. rewrite !store_ne by lia. done.
    + simpl in Hd. apply cstr_cons in Ht as (Hc & -> & Ht). replace (c =? 0) with false by lia.
      destruct (IH (s + 1) (t + 1) l (store s c m)) as [Hs Hx].
      { apply (cstr_ext m); [|done]. intros x Hx. apply store_ne. lia. }
      { lia. }
      split.
      * simpl. apply cstr_cons. split; [done|]. split; [|done]. rewrite Hx by lia. apply store_eq.
      * intros x Hx'. rewrite Hx by lia. apply store_ne. lia.
Qed.

(** [safestrcpy(s, t, n)] with [n > 0] leaves at [s] the C string of the
    first [n - 1] characters of the string [t] (all of it when it is
    shorter), always terminated, and writes nothing outside the [n] bytes
    at [s]. *)
Theorem safestrcpy_terminates s t l n m :
  0 < n -> cstr m t l -> (s + n <= t \/ t + Z.of_nat (length l) < s) ->
  cstr (safestrcpy s t n m) s (take (Z.to_nat (n - 1)) l) /\
  forall x, x < s \/ s + n <= x -> safestrcpy s t n m x = m x.
Proof.
  intros Hn Ht Hd. unfold safestrcpy. replace (n <=? 0) with false by lia.
  destruct (safestrcpy_loop_spec s t l (Z.to_nat (n - 1)) m Ht) as [Hs Hx]; [lia|].
  split; [done|]. intros x ?. apply Hx. lia.
Qed.

(** ** Instances *)

(** "sh" at address 16, "shell" at address 32, NUL elsewhere. *)
Definition demo_mem : mem :=
  store 16 115 (store 17 104 (store 32 115 (store 33 104 (store 34 101 (store 35 108
    (store 36 108 (fun _ => 0))))))).

Lemma demo_cstr : cstr demo_mem 16 [115; 104] /\ cstr demo_mem 32 [115; 104; 101; 108; 108].
Proof.
  split; repeat (apply cstr_cons; split; [lia|split; [reflexivity|]]); by apply cstr_nil.
Qed.

Lemma memset_fills_witness :
  memset 1000 0x141 8 demo_mem 1003 =
  (if (1000 <=? 1003) && (1003 <? 1000 + 8) then u8 0x141 else demo_mem 1003).
Proof. apply (memset_fills 1000 0x141 8 demo_mem 1003). lia. Defined.

(** An overlapping copy, two bytes up. *)
Lemma memmove_copies_witness :
  memmove 34 32 5 demo_mem 36 = demo_mem 34.
Proof.
  rewrite (memmove_copies 34 32 5 demo_mem 36); [reflexivity|lia].
Defined.

Lemma starts_with_prefix_witness : starts_with 8 16 32 demo_mem = Some 1.
Proof.
  rewrite (starts_with_prefix 8 16 32 _ _ demo_mem (proj1 demo_cstr) (proj2 demo_cstr));
    [reflexivity|simpl; lia].
Defined.

(** Room for three characters of "shell". *)
Lemma safestrcpy_terminates_witness :
  cstr (safestrcpy 100 32 4 demo_mem) 100 [115; 104; 101].
Proof.
  apply (safestrcpy_terminates 100 32 [115; 104; 101; 108; 108] 4 demo_mem);
    [lia | exact (proj2 demo_cstr) | simpl; lia].
Defined.
