(* ===== verification/Sleeplock.v ===== *)
(** Sleep locks (sleeplock.c): the locks of buffers and inodes, which a
    process may hold while it sleeps. *)

From S2P Require Import Prelude Types Spinlock Proc.

(** The sleep lock of a buffer or of an inode. *)
Inductive slid : Type := SL_buf (b : nat) | SL_inode (i : nat).

Definition sl_spin (l : slid) : lockid :=
  match l with SL_buf b => L_bufsl b | SL_inode i => L_inodesl i end.
Definition sl_chan (l : slid) : chan :=
  match l with SL_buf b => Ch_bufsl b | SL_inode i => Ch_inodesl i end.

Definition sl_lookup (l : slid) (k : kernel) : option sleeplock :=
  match l with
  | SL_buf b => b_lock <$> k_bufs k !! b
  | SL_inode i => i_lock <$> k_inodes k !! i
  end.
Definition sl_update (l : slid) (v : sleeplock) (k : kernel) : kernel :=
  match l with
  | SL_buf b => k <| k_bufs := alter (fun r => r <| b_lock := v |>) b (k_bufs k) |>
  | SL_inode i => k <| k_inodes := alter (fun r => r <| i_lock := v |>) i (k_inodes k) |>
  end.

Definition get_sl (l : slid) : K sleeplock :=
  s ← gets (sl_lookup l); deref "bad sleeplock pointer" s.
Definition set_sl (l : slid) (v : sleeplock) : K unit := modify (sl_update l v).

Definition initsleeplock (l : slid) : K unit := set_sl l (mksl 0 0).

(** [while(lk->locked) sleep(lk, &lk->lk)].  Each pass that goes on sleeping
    consumes at least one slice, so as many passes as there are slices, and
    one more, are enough. *)
Fixpoint wait_unlocked (n : nat) (l : slid) : K unit :=
  match n with
  | O => park
  | S n =>
      s ← get_sl l;
      if sl_locked s =? 0 then mret tt else
      sleep (sl_chan l) (Some (sl_spin l)) ;;
      wait_unlocked n l
  end.

Definition acquiresleep (l : slid) : K unit := fun k e =>
  (acquire (sl_spin l) ;;
   wait_unlocked (S (length e)) l ;;
   i ← curproc;
   p ← get_proc i;
   set_sl l (mksl 1 (p_pid p)) ;;
   release (sl_spin l)) k e.

Definition releasesleep (l : slid) : K unit :=
  acquire (sl_spin l) ;;
  set_sl l (mksl 0 0) ;;
  wakeup (sl_chan l) ;;
  release (sl_spin l).

Definition holdingsleep (l : slid) : K bool :=
  acquire (sl_spin l) ;;
  s ← get_sl l;
  i ← curproc;
  p ← get_proc i;
  release (sl_spin l) ;;
  mret (negb (sl_locked s =? 0) && (sl_pid s =? p_pid p)).

(** ** A process in the kernel, outside any spin lock *)

(** Process [p] in slot [i] runs kernel code and holds no spin lock; the saved
    interrupt flag is current, so that a critical section leaves the CPU as
    it was. *)
Record calm (i : nat) (p : proc) (k : kernel) : Prop := {
  calm_cpu : cpu_ok (k_cpu k);
  calm_held : c_held (k_cpu k) = [];
  calm_touch : cpu_touch (k_cpu k) = k_cpu k;
  calm_proc : c_proc (k_cpu k) = Some i;
  calm_procs : procs_ok k;
  calm_p : k_procs k !! i = Some p
}.

(** Nobody sleeps on [ch]. *)
Definition unwaited (ch : chan) (k : kernel) : Prop :=
  Forall (fun p => ~ (p_state p = SLEEPING /\ p_chan p = Some ch)) (k_procs k).

Lemma wake_unwaited ch l :
  Forall (fun p => ~ (p_state p = SLEEPING /\ p_chan p = Some ch)) l -> map (wake ch) l = l.
Proof.
  induction 1 as [|p l Hp Hl IH]; simpl; [done|]. rewrite IH. unfold wake.
  repeat case_bool_decide; simpl; [tauto|done..].
Qed.

Section Calm.
  Context (i : nat) (p : proc).
  Implicit Types (k : kernel) (e : env).

Lemma set_cpu_id k : k <| k_cpu := k_cpu k |> = k.
Proof. by destruct k. Qed.

Lemma calm_free k lk : calm i p k -> lk ∉ c_held (k_cpu k).
Proof. intros Hc. rewrite (calm_held _ _ _ Hc). apply not_elem_of_nil. Qed.

Lemma calm_acq_ok k lk : calm i p k -> cpu_ok (cpu_acq lk (k_cpu k)).
Proof. intros Hc. apply cpu_acq_ok; [apply Hc|by apply calm_free]. Qed.

Lemma calm_rel_acq k lk : calm i p k -> cpu_rel lk (cpu_acq lk (k_cpu k)) = k_cpu k.
Proof.
  intros Hc. rewrite cpu_rel_acq; [apply Hc|apply Hc|by apply calm_free].
Qed.

(** [myproc()] inside a critical section of a calm process. *)
Lemma curproc_in lk k k' e :
  calm i p k -> k_cpu k' = cpu_acq lk (k_cpu k) -> curproc k' e = Ret i k' e.
Proof.
  intros Hc Hk'. pose proof (cpu_ok_sane _ (calm_acq_ok k lk Hc)) as Hs.
  assert (0 < c_ncli (k_cpu k')) as Hn.
  { rewrite Hk'. unfold cpu_acq. rsimpl. pose proof (cpu_ok_sane _ (calm_cpu _ _ _ Hc)) as []. lia. }
  rewrite (curproc_run i); [|by rewrite Hk'|].
  - rewrite cpu_touch_cli by done. by rewrite set_cpu_id.
  - rewrite Hk'. unfold cpu_acq. rsimpl. rewrite cpu_touch_proc. apply Hc.
Qed.

Lemma curproc_calm k e : calm i p k -> curproc k e = Ret i k e.
Proof.
  intros Hc. rewrite (curproc_run i); [|apply cpu_ok_sane, Hc|apply Hc].
  rewrite (calm_touch _ _ _ Hc). by rewrite set_cpu_id.
Qed.

Lemma acquire_calm lk k e :
  calm i p k -> acquire lk k e = Ret tt (k <| k_cpu := cpu_acq lk (k_cpu k) |>) e.
Proof. intros Hc. apply acquire_run; [apply Hc|by apply calm_free]. Qed.

(** Leaving the section gives the calm CPU back. *)
Lemma release_calm lk k k' e :
  calm i p k -> k_cpu k' = cpu_acq lk (k_cpu k) ->
  release lk k' e = Ret tt (k' <| k_cpu := k_cpu k |>) e.
Proof.
  intros Hc Hk'. rewrite release_run; rewrite Hk'.
  - by rewrite (calm_rel_acq _ _ Hc).
  - by apply calm_acq_ok.
  - apply list_elem_of_here.
Qed.

Lemma wakeup_in lk ch k k' e :
  calm i p k -> k_cpu k' = cpu_acq lk (k_cpu k) -> lk <> L_ptable -> procs_ok k' ->
  unwaited ch k' -> wakeup ch k' e = Ret tt k' e.
Proof.
  intros Hc Hk' Hlk Hok Hw. rewrite wakeup_run; [| | |done].
  - rewrite (wake_unwaited _ _ Hw), Hk', cpu_touch_cli.
    + rewrite <-Hk'. by destruct k'.
    + unfold cpu_acq. rsimpl. pose proof (cpu_ok_sane _ (calm_cpu _ _ _ Hc)) as []. lia.
  - rewrite Hk'. by apply calm_acq_ok.
  - rewrite Hk'. unfold cpu_acq. rsimpl. rewrite (calm_held _ _ _ Hc). set_solver.
Qed.

Lemma sl_update_cpu l v k c : sl_update l v (k <| k_cpu := c |>) = sl_update l v k <| k_cpu := c |>.
Proof. by destruct l. Qed.

Lemma sl_update_k_cpu l v k : k_cpu (sl_update l v k) = k_cpu k.
Proof. by destruct l. Qed.

Lemma sl_update_procs l v k : k_procs (sl_update l v k) = k_procs k.
Proof. by destruct l. Qed.

Lemma sl_lookup_cpu l k c : sl_lookup l (k <| k_cpu := c |>) = sl_lookup l k.
Proof. by destruct l. Qed.

Lemma get_sl_run l s k e : sl_lookup l k = Some s -> get_sl l k e = Ret s k e.
Proof. intros Hs. unfold get_sl. mrun. by rewrite Hs. Qed.

Lemma set_cpu_back k k' : k_cpu k' = k_cpu k -> forall c, k' <| k_cpu := c |> <| k_cpu := k_cpu k |> = k'.
Proof. intros H c. rewrite <-H. by destruct k'. Qed.

Lemma acquiresleep_run l s k e :
  calm i p k -> sl_lookup l k = Some s -> sl_locked s = 0 ->
  acquiresleep l k e = Ret tt (sl_update l (mksl 1 (p_pid p)) k) e.
Proof.
  intros Hc Hs H0. unfold acquiresleep. mcall (acquire_calm (sl_spin l)); [done|].
  cbn [wait_unlocked]. rewrite bind_assoc.
  mcall get_sl_run; [by rewrite sl_lookup_cpu|]. rewrite H0. cbn [Z.eqb]. mrun.
  mcall (curproc_in (sl_spin l) k); [done|done|]. mcall get_proc_run; [apply Hc|].
  unfold set_sl, modify. mrun. rewrite sl_update_cpu.
  rewrite (release_calm _ k) by done. f_equal.
  apply set_cpu_back, sl_update_k_cpu.
Qed.

(** A caller that finds the lock taken sleeps on it, the lock's own spin lock
    released; [at_door] is the state in which it hands the CPU over. *)
Definition at_door (l : slid) (k : kernel) : kernel :=
  asleep i p (sl_chan l) (sl_spin l) (k <| k_cpu := cpu_acq (sl_spin l) (k_cpu k) |>).

Lemma sleep_at_door l k e :
  calm i p k ->
  sleep (sl_chan l) (Some (sl_spin l)) (k <| k_cpu := cpu_acq (sl_spin l) (k_cpu k) |>) e =
  match swtch_loop i (at_door l k) e with
  | Ret _ k' e' =>
      (upd_proc i (fun p => p <| p_chan := None |>) ;; release L_ptable ;; acquire (sl_spin l))
        (k' <| k_cpu := k_cpu k' <| c_intena := c_intena (k_cpu (at_door l k)) |> |>) e'
  | o => o
  end.
Proof.
  intros Hc. apply (sleep_run i p); [by apply calm_acq_ok| |by destruct l| |apply Hc];
    unfold cpu_acq; rsimpl.
  - by rewrite (calm_held _ _ _ Hc).
  - rewrite cpu_touch_proc. apply Hc.
Qed.

Lemma acquiresleep_waits l s k e :
  calm i p k -> sl_lookup l k = Some s -> sl_locked s <> 0 ->
  acquiresleep l k e =
  (sleep (sl_chan l) (Some (sl_spin l)) ;;
   wait_unlocked (length e) l ;;
   i ← curproc;
   p ← get_proc i;
   set_sl l (mksl 1 (p_pid p)) ;;
   release (sl_spin l)) (k <| k_cpu := cpu_acq (sl_spin l) (k_cpu k) |>) e.
Proof.
  intros Hc Hs H1. unfold acquiresleep. mcall (acquire_calm (sl_spin l)); [done|].
  cbn [wait_unlocked]. rewrite bind_assoc.
  mcall get_sl_run; [by rewrite sl_lookup_cpu|]. rewrite (proj2 (Z.eqb_neq _ _) H1).
  by rewrite bind_assoc.
Qed.

Lemma acquiresleep_parks l s k e k2 :
  calm i p k -> sl_lookup l k = Some s -> sl_locked s <> 0 ->
  swtch_loop i (at_door l k) e = Parked k2 -> acquiresleep l k e = Parked k2.
Proof.
  intros Hc Hs H1 Hw. rewrite (acquiresleep_waits l s) by done.
  unfold mbind at 1, M_bind at 1. by rewrite sleep_at_door, Hw by done.
Qed.

Lemma swtch_loop_Ret k e k2 e2 :
  swtch_loop i k e = Ret tt k2 e2 -> c_proc (k_cpu k2) = Some i /\ (0 < length e)%nat.
Proof.
  revert k. induction e as [|s e IH]; intros k; simpl; [done|].
  repeat case_bool_decide; simpl; try (intros H'; split; [by apply (IH _ H')|lia]).
  intros [= <- <-]. split; [done|lia].
Qed.

(** A sleeper that is resumed when the lock is free takes it. *)
Lemma acquiresleep_resumes l s k e k2 e2 s2 q :
  calm i p k -> sl_lookup l k = Some s -> sl_locked s <> 0 ->
  swtch_loop i (at_door l k) e = Ret tt k2 e2 ->
  cpu_ok (k_cpu k2) ->
  c_held (k_cpu k2) = [L_ptable] ->
  sl_lookup l k2 = Some s2 -> sl_locked s2 = 0 -> k_procs k2 !! i = Some q ->
  exists c, c_held c = [] /\
    acquiresleep l k e = Ret tt (sl_update l (mksl 1 (p_pid q))
      (k2 <| k_cpu := c |> <| k_procs := <[i := q <| p_chan := None |>]> (k_procs k2) |>)) e2.
Proof.
  intros Hc Hs H1 Hw Hcpu Hheld Hs2 H0 Hq.
  destruct (swtch_loop_Ret _ _ _ _ Hw) as [Hpr Hlen].
  rewrite (acquiresleep_waits l s) by done.
  destruct (sleep_resume i (sl_spin l)
    (k2 <| k_cpu := k_cpu k2 <| c_intena := c_intena (k_cpu (at_door l k)) |> |>) e2)
    as (c & Hr & Hc1 & Hc2 & Hc3); [by destruct Hcpu|done|].
  assert (sl_spin l ∈ c_held c) as Hin by (rewrite Hc1; apply list_elem_of_here).
  exists (cpu_rel (sl_spin l) c). split.
  { unfold cpu_rel. rsimpl. rewrite Hc1. by rewrite filter_cons_False by tauto. }
  unfold mbind at 1, M_bind at 1. rewrite sleep_at_door, Hw, Hr by done. cbv beta match. rsimpl.
  rewrite (list_alter_lookup _ _ _ _ Hq). destruct (length e) as [|n] eqn:He; [lia|].
  assert (c_ncli c = 1) as Hn by (by rewrite (cpu_ncli _ Hc3), Hc1).
  cbn [wait_unlocked]. rewrite bind_assoc.
  mcall get_sl_run; [by destruct l|]. rewrite H0. cbn [Z.eqb]. mrun.
  mcall (curproc_run i); [by apply cpu_ok_sane|exact (eq_trans Hc2 Hpr)|].
  rsimpl. rewrite cpu_touch_cli by lia.
  mcall get_proc_run; [apply list_lookup_insert_eq; by eapply lookup_lt_Some|].
  unfold set_sl, modify. mrun. rewrite release_run; [by destruct l|by destruct l|by destruct l].
Qed.

Lemma releasesleep_run l k e :
  calm i p k -> unwaited (sl_chan l) k ->
  releasesleep l k e = Ret tt (sl_update l (mksl 0 0) k) e.
Proof.
  intros Hc Hw. unfold releasesleep. mcall (acquire_calm (sl_spin l)); [done|].
  unfold set_sl, modify. mrun. rewrite sl_update_cpu.
  mcall (wakeup_in (sl_spin l) _ k); [done|done|by destruct l| | |].
  - unfold procs_ok. rsimpl. rewrite sl_update_procs. apply Hc.
  - unfold unwaited. rsimpl. by rewrite sl_update_procs.
  - rewrite (release_calm _ k) by done. f_equal. apply set_cpu_back, sl_update_k_cpu.
Qed.

Lemma holdingsleep_run l s k e :
  calm i p k -> sl_lookup l k = Some s ->
  holdingsleep l k e = Ret (negb (sl_locked s =? 0) && (sl_pid s =? p_pid p)) k e.
Proof.
  intros Hc Hs. unfold holdingsleep. mcall (acquire_calm (sl_spin l)); [done|].
  mcall get_sl_run; [by rewrite sl_lookup_cpu|].
  mcall (curproc_in (sl_spin l) k); [done|done|]. mcall get_proc_run; [apply Hc|].
  mcall (release_calm _ k); [done|done|]. rewrite mret_run. rsimpl. by rewrite set_cpu_id.
Qed.
End Calm.

(** ** Instances *)

(** One process, in slot 0, running in the kernel. *)
Definition solo_proc : proc := zero_proc <| p_pid := 1 |> <| p_state := RUNNING |>.
Definition solo_kernel : kernel :=
  bare_kernel <| k_cpu := mkcpu (Some 0%nat) 0 true true [] 0 0 |>
    <| k_procs := solo_proc :: replicate (NPROC - 1) zero_proc |>.

Lemma solo_calm : calm 0 solo_proc solo_kernel.
Proof. constructor; try done. constructor; [done|constructor|done]. Qed.

Lemma solo_unwaited ch : unwaited ch solo_kernel.
Proof. unfold unwaited. constructor; [intros [? _]; done|]. apply Forall_replicate. intros [? _]. done. Qed.
