(* ===== verification/Ring.v ===== *)
(** Doubly linked rings, as the buffer cache keeps them: links [nx] and [pv]
    as functions on node numbers, a head [h], and the list of the other nodes
    in order. *)

From S2P Require Import Prelude.

Definition upd (x v : nat) (f : nat -> nat) : nat -> nat :=
  fun y => if decide (y = x) then v else f y.

Lemma upd_eq x v f : upd x v f x = v.
Proof. unfold upd. by rewrite decide_True. Qed.
Lemma upd_ne x v f y : y <> x -> upd x v f y = f y.
Proof. intros. unfold upd. by rewrite decide_False. Qed.

(** Consecutive nodes of [l] are linked both ways. *)
Fixpoint linked (nx pv : nat -> nat) (l : list nat) : Prop :=
  match l with
  | x :: ((y :: _) as t) => nx x = y /\ pv y = x /\ linked nx pv t
  | _ => True
  end.

#[export] Instance linked_dec nx pv l : Decision (linked nx pv l).
Proof.
  induction l as [|x l IH]; [by left|]. destruct l as [|y l]; [by left|].
  simpl. apply and_dec; [apply _|apply and_dec; [apply _|exact IH]].
Defined.

Record ring (nx pv : nat -> nat) (h : nat) (o : list nat) : Prop := {
  ring_linked : linked nx pv (h :: o ++ [h]);
  ring_nodup : NoDup (h :: o)
}.

Section Ring.
  Implicit Types (nx pv : nat -> nat) (l o : list nat) (x y h b : nat).

Lemma linked_app nx pv l1 x l2 :
  linked nx pv (l1 ++ x :: l2) <-> linked nx pv (l1 ++ [x]) /\ linked nx pv (x :: l2).
Proof.
  induction l1 as [|y l1 IH]; [simpl; tauto|].
  destruct l1 as [|z l1]; simpl in *; [tauto|]. rewrite IH. tauto.
Qed.

Lemma linked_ext nx pv nx' pv' l z w :
  linked nx pv (z :: l ++ [w]) ->
  (forall x, x ∈ z :: l -> nx' x = nx x) -> (forall x, x ∈ l ++ [w] -> pv' x = pv x) ->
  linked nx' pv' (z :: l ++ [w]).
Proof.
  revert z. induction l as [|y l IH]; intros z Hl Hn Hp; simpl in *.
  - destruct Hl as (H1 & H2 & _). split_and!; [|rewrite Hp by set_solver; done|done].
    rewrite Hn by set_solver. done.
  - destruct Hl as (H1 & H2 & Hl). split_and!.
    + rewrite Hn by set_solver. done.
    + rewrite Hp by set_solver. done.
    + apply IH; [done|intros; apply Hn; set_solver|intros; apply Hp; set_solver].
Qed.

Lemma linked_rev nx pv l : linked nx pv l -> linked pv nx (rev l).
Proof.
  induction l as [|x l IH]; [done|]. intros Hl. simpl.
  destruct l as [|y l]; [done|]. destruct Hl as (Hn & Hp & Hl). specialize (IH Hl).
  simpl in *. rewrite <-app_assoc. simpl. apply linked_app. split; [done|]. done.
Qed.

Lemma ring_rev nx pv h o : ring nx pv h o -> ring pv nx h (rev o).
Proof.
  intros [Hl Hn]. split.
  - apply linked_rev in Hl. simpl in Hl. rewrite rev_app_distr in Hl. done.
  - by rewrite <-Permutation_rev.
Qed.

(** Taking node [b] out: [nx b] and [pv b] are linked to each other. *)
Lemma ring_unlink nx pv h o1 b o2 :
  ring nx pv h (o1 ++ b :: o2) ->
  ring (upd (pv b) (nx b) nx) (upd (nx b) (pv b) pv) h (o1 ++ o2).
Proof.
  intros [Hl Hn]. destruct (exists_last (l := h :: o1)) as (l1 & p & Ep); [done|].
  destruct (o2 ++ [h]) as [|n l2] eqn:En; [by destruct o2|].
  assert (h :: (o1 ++ b :: o2) ++ [h] = l1 ++ p :: b :: n :: l2) as Eall.
  { rewrite <-app_assoc. simpl. rewrite En. change (h :: o1 ++ b :: n :: l2)
      with ((h :: o1) ++ b :: n :: l2). rewrite Ep, <-app_assoc. done. }
  rewrite Eall in Hl. apply linked_app in Hl as [Hl1 (Hpb & Hbp & Hbn & Hnb & Hl2)].
  rewrite Hbp, Hbn.
  assert (NoDup ((h :: o1) ++ b :: o2)) as Hn' by done.
  apply NoDup_app in Hn' as (Hn1 & Hdis & Hn2). apply NoDup_cons in Hn2 as [Hb2 Hn2].
  assert (p ∈ h :: o1) as Hp by (rewrite Ep; set_solver).
  assert (n ∉ o1) as Hno1.
  { assert (n ∈ o2 ++ [h]) as Hin by (rewrite En; set_solver). intros Hno.
    apply elem_of_app in Hin as [Hin|Hin%list_elem_of_singleton].
    - apply (Hdis n); set_solver.
    - apply NoDup_cons in Hn1 as [Hh _]. congruence. }
  split.
  - replace (h :: (o1 ++ o2) ++ [h]) with (l1 ++ p :: n :: l2).
    2: { rewrite <-app_assoc, En. change (h :: o1 ++ n :: l2) with ((h :: o1) ++ n :: l2).
         by rewrite Ep, <-app_assoc. }
    apply linked_app. split.
    + destruct l1 as [|z l1]; [done|]. simpl in Ep. injection Ep as <- Eo1.
      apply linked_ext with nx pv; [done| |].
      * intros x Hx. apply upd_ne. intros ->. rewrite Eo1 in Hn1.
        change (h :: l1 ++ [p]) with ((h :: l1) ++ [p]) in Hn1.
        apply NoDup_app in Hn1 as (_ & Hd & _). apply (Hd p); set_solver.
      * intros x Hx. apply upd_ne. intros ->. by rewrite Eo1 in Hno1.
    + split; [apply upd_eq|]. split; [apply upd_eq|].
      destruct o2 as [|y o2]; simpl in En; injection En as <- <-; [done|].
      apply linked_ext with nx pv; [done| |].
      * intros x Hx. apply upd_ne. intros ->. apply (Hdis p); set_solver.
      * intros x Hx. apply upd_ne. intros ->. apply NoDup_cons in Hn2 as [Hy _].
        apply elem_of_app in Hx as [Hx|Hx%list_elem_of_singleton]; [done|]. subst y.
        apply (Hdis h); set_solver.
  - change (h :: o1 ++ o2) with ((h :: o1) ++ o2). apply NoDup_app. split_and!; try done.
    intros x Hx Hx2. apply (Hdis x); set_solver.
Qed.

(** Putting a node in at the front. *)
Lemma ring_push nx pv h o b :
  ring nx pv h o -> b ∉ h :: o ->
  ring (upd h b (upd b (nx h) nx)) (upd (nx h) b (upd b h pv)) h (b :: o).
Proof.
  intros [Hl Hn] Hb. destruct (o ++ [h]) as [|n l2] eqn:En; [by destruct o|].
  destruct Hl as (Hnx & Hpv & Hl2). rewrite Hnx.
  apply not_elem_of_cons in Hb as [Hbh Hbo]. apply NoDup_cons in Hn as [Hho Hno].
  assert (n <> b) as Hnb.
  { intros ->. assert (b ∈ o ++ [h]) as Hin by (rewrite En; set_solver). set_solver. }
  split.
  - simpl. rewrite En. split; [apply upd_eq|]. split; [rewrite upd_ne by done; apply upd_eq|].
    split; [rewrite upd_ne by done; apply upd_eq|]. split; [apply upd_eq|].
    destruct o as [|y o]; simpl in En; injection En as <- <-; [done|].
    apply linked_ext with nx pv; [done| |].
    + intros x Hx. rewrite !upd_ne; set_solver.
    + intros x Hx. rewrite !upd_ne; [done|set_solver|]. intros ->.
      apply NoDup_cons in Hno as [Hy _]. set_solver.
  - apply NoDup_cons. split; [set_solver|]. apply NoDup_cons. done.
Qed.

(** Following [f] from [b] visits the nodes of [l] and then [h]. *)
Fixpoint walk (f : nat -> nat) (h b : nat) (l : list nat) : Prop :=
  match l with
  | [] => b = h
  | x :: l => b = x /\ x <> h /\ walk f h (f x) l
  end.

Lemma linked_walk nx pv h x l :
  linked nx pv (x :: l ++ [h]) -> h ∉ l -> walk nx h (nx x) l.
Proof.
  revert x. induction l as [|y l IH]; intros x Hl Hh; simpl in *; [tauto|].
  apply not_elem_of_cons in Hh as [Hy Hh]. destruct Hl as (Hx & _ & Hl).
  split; [done|]. split; [done|]. by apply IH.
Qed.

Lemma ring_walk nx pv h o : ring nx pv h o -> walk nx h (nx h) o.
Proof. intros [Hl Hn]. apply NoDup_cons in Hn as [Hh _]. by eapply linked_walk. Qed.

(** The successor and the predecessor of a node are nodes, and not itself
    unless it is the head alone. *)
Lemma ring_next nx pv h o1 b o2 :
  ring nx pv h (o1 ++ b :: o2) -> nx b ∈ h :: o2.
Proof.
  intros [Hl _]. rewrite <-app_assoc in Hl.
  apply (linked_app _ _ (h :: o1) b (o2 ++ [h])) in Hl as [_ Hl].
  destruct o2 as [|y o2]; simpl in Hl; destruct Hl as (-> & _); set_solver.
Qed.

Lemma ring_prev nx pv h o1 b o2 :
  ring nx pv h (o1 ++ b :: o2) -> pv b ∈ h :: o1.
Proof.
  intros Hr%ring_rev. rewrite rev_app_distr in Hr. simpl in Hr. rewrite <-app_assoc in Hr.
  simpl in Hr. apply ring_next in Hr. by rewrite <-Permutation_rev in Hr.
Qed.

Lemma ring_first nx pv h o : ring nx pv h o -> nx h ∈ h :: o.
Proof. intros [Hl _]. destruct o as [|y o]; simpl in Hl; destruct Hl as (-> & _); set_solver. Qed.

Lemma ring_next_ne nx pv h o1 b o2 :
  ring nx pv h (o1 ++ b :: o2) -> nx b <> b.
Proof.
  intros Hr E. pose proof (ring_next _ _ _ _ _ _ Hr) as Hin. rewrite E in Hin.
  destruct Hr as [_ Hn]. change (h :: o1 ++ b :: o2) with ((h :: o1) ++ b :: o2) in Hn.
  apply NoDup_app in Hn as (_ & Hd & Hn2). apply NoDup_cons in Hn2 as [Hb _].
  apply elem_of_cons in Hin as [->|Hin]; [|done]. apply (Hd h); set_solver.
Qed.

Lemma ring_ext nx pv nx' pv' h o :
  ring nx pv h o -> (forall x, x ∈ h :: o -> nx' x = nx x) ->
  (forall x, x ∈ h :: o -> pv' x = pv x) -> ring nx' pv' h o.
Proof.
  intros [Hl Hn] H1 H2. split; [|done]. apply linked_ext with nx pv; [done..|].
  intros x Hx. apply H2. set_solver.
Qed.
End Ring.
