(* ===== verification/Bio.v ===== *)
(** The buffer cache (bio.c) over the in-memory disk driver (memide.c).

    The cached buffers form a ring through [prev] and [next] with [bcache.head]
    in it, most recently used first.  Buffer [HEAD] of the table is
    [bcache.head]. *)

From S2P Require Import Prelude Types Spinlock Proc Sleeplock Ring.

Definition B_VALID : Z := 2.
Definition B_DIRTY : Z := 4.

Definition get_buf (b : nat) : K buf :=
  r ← gets (fun k : kernel => k_bufs k !! b); deref "bad buf pointer" r.
Definition upd_buf (b : nat) (f : buf -> buf) : K unit :=
  modify (fun k => k <| k_bufs := alter f b (k_bufs k) |>).

(** ** memide.c *)

(** What a disk driver promises: a call [iderw(b)] on a buffer of disk 1 that
    the caller holds locked writes it to the disk when it is dirty, reads it
    when it is not valid, and leaves it valid and clean. *)
Class DiskDriver (iderw : nat -> K unit) : Prop := iderw_law :
  forall i p b r d k e,
    calm i p k -> k_bufs k !! b = Some r -> b_lock r = mksl 1 (p_pid p) ->
    b_dev r = 1 -> 0 <= b_blockno r -> k_disk k !! Z.to_nat (b_blockno r) = Some d ->
    (b_flags r = 0 ->
       iderw b k e = Ret tt (k <| k_bufs := <[b := r <| b_data := d |> <| b_flags := B_VALID |>]>
         (k_bufs k) |>) e) /\
    (b_flags r = Z.lor B_VALID B_DIRTY ->
       iderw b k e = Ret tt (k <| k_bufs := <[b := r <| b_flags := B_VALID |>]> (k_bufs k) |>
         <| k_disk := <[Z.to_nat (b_blockno r) := b_data r]> (k_disk k) |>
         <| k_writes := k_writes k ++ [(b_blockno r, b_data r)] |>) e).

Definition iderw (b : nat) : K unit :=
  h ← holdingsleep (SL_buf b);
  if negb h then panic "iderw: buf not locked" else
  r ← get_buf b;
  if Z.land (b_flags r) (Z.lor B_VALID B_DIRTY) =? B_VALID then panic "iderw: nothing to do" else
  if negb (b_dev r =? 1) then panic "iderw: request not for disk 1" else
  disksize ← gets (fun k => Z.of_nat (length (k_disk k)));
  if b_blockno r >=? disksize then panic "iderw: block out of range" else
  (if negb (Z.land (b_flags r) B_DIRTY =? 0) then
     upd_buf b (fun r => r <| b_flags := Z.land (b_flags r) (Z.lnot B_DIRTY) |>) ;;
     modify (fun k => k
       <| k_disk := <[Z.to_nat (b_blockno r) := b_data r]> (k_disk k) |>
       <| k_writes := k_writes k ++ [(b_blockno r, b_data r)] |>)
   else
     d ← gets (fun k : kernel => k_disk k !! Z.to_nat (b_blockno r));
     d ← deref "memdisk" d;
     upd_buf b (fun r => r <| b_data := d |>)) ;;
  upd_buf b (fun r => r <| b_flags := Z.lor (b_flags r) B_VALID |>).

(** The handler of the disk's interrupt: the disk in memory has none. *)
Definition memide_intr : K unit := mret tt.

(** ** bio.c *)

(** [b->next->prev = b->prev; b->prev->next = b->next]. *)
Definition unlink (b : nat) : K unit :=
  r ← get_buf b;
  upd_buf (b_next r) (fun n => n <| b_prev := b_prev r |>) ;;
  r ← get_buf b;
  upd_buf (b_prev r) (fun n => n <| b_next := b_next r |>).

(** [head.next->prev = b; head.next = b] after [b]'s own links point to the
    old first buffer and to [head]. *)
Definition link_front (b : nat) : K unit :=
  h ← get_buf HEAD;
  upd_buf b (fun r => r <| b_next := b_next h |>) ;;
  upd_buf b (fun r => r <| b_prev := HEAD |>) ;;
  h ← get_buf HEAD;
  upd_buf (b_next h) (fun r => r <| b_prev := b |>) ;;
  upd_buf HEAD (fun r => r <| b_next := b |>).

Definition binit : K unit :=
  upd_buf HEAD (fun r => r <| b_prev := HEAD |>) ;;
  upd_buf HEAD (fun r => r <| b_next := HEAD |>) ;;
  for_each (seq 0 NBUF) (fun b =>
    h ← get_buf HEAD;
    upd_buf b (fun r => r <| b_next := b_next h |>) ;;
    upd_buf b (fun r => r <| b_prev := HEAD |>) ;;
    initsleeplock (SL_buf b) ;;
    h ← get_buf HEAD;
    upd_buf (b_next h) (fun r => r <| b_prev := b |>) ;;
    upd_buf HEAD (fun r => r <| b_next := b |>)).

(** [for(b = start; b != &bcache.head; b = b->dir)]: the ring has [NBUF]
    buffers; a chain that does not come back to the head in as many steps is
    not a ring. *)
Fixpoint chase {R} (fuel : nat) (dir : buf -> nat) (b : nat) (body : nat -> buf -> K (option R))
    : K (option R) :=
  if decide (b = HEAD) then mret None else
  match fuel with
  | O => undef "buffer list is not a ring"
  | S fuel =>
      r ← get_buf b;
      v ← body b r;
      match v with
      | Some v => mret (Some v)
      | None => r ← get_buf b; chase fuel dir (dir r) body
      end
  end.

Definition bget (dev blockno : Z) : K nat :=
  acquire L_bcache ;;
  h ← get_buf HEAD;
  found ← chase NBUF b_next (b_next h) (fun b r =>
    if (b_dev r =? dev) && (b_blockno r =? blockno) then
      upd_buf b (fun r => r <| b_refcnt := u32 (b_refcnt r + 1) |>) ;;
      release L_bcache ;;
      acquiresleep (SL_buf b) ;;
      mret (Some b)
    else mret None);
  match found with
  | Some b => mret b
  | None =>
      h ← get_buf HEAD;
      found ← chase NBUF b_prev (b_prev h) (fun b r =>
        if (b_refcnt r =? 0) && (Z.land (b_flags r) B_DIRTY =? 0) then
          upd_buf b (fun r => r <| b_dev := dev |>) ;;
          upd_buf b (fun r => r <| b_blockno := blockno |>) ;;
          upd_buf b (fun r => r <| b_flags := 0 |>) ;;
          upd_buf b (fun r => r <| b_refcnt := 1 |>) ;;
          release L_bcache ;;
          acquiresleep (SL_buf b) ;;
          mret (Some b)
        else mret None);
      match found with
      | Some b => mret b
      | None => panic "bget: no buffers"
      end
  end.

Definition bread (dev blockno : Z) : K nat :=
  b ← bget dev blockno;
  r ← get_buf b;
  (if Z.land (b_flags r) B_VALID =? 0 then iderw b else mret tt) ;;
  mret b.

Definition bwrite (b : nat) : K unit :=
  h ← holdingsleep (SL_buf b);
  if negb h then panic "bwrite" else
  upd_buf b (fun r => r <| b_flags := Z.lor (b_flags r) B_DIRTY |>) ;;
  iderw b.

Definition brelse (b : nat) : K unit :=
  h ← holdingsleep (SL_buf b);
  if negb h then panic "brelse" else
  releasesleep (SL_buf b) ;;
  acquire L_bcache ;;
  upd_buf b (fun r => r <| b_refcnt := u32 (b_refcnt r - 1) |>) ;;
  r ← get_buf b;
  (if b_refcnt r =? 0 then
     unlink b ;;
     link_front b
   else mret tt) ;;
  release L_bcache.

(** ** Execution *)

Section Run.
  Context (i : nat) (p : proc).
  Implicit Types (k : kernel) (e : env) (b : nat) (r : buf) (bs : list buf).

Lemma set_bufs_bufs k bs bs' :
  k <| k_bufs := bs |> <| k_bufs := bs' |> = k <| k_bufs := bs' |>.
Proof. reflexivity. Qed.

Lemma set_bufs_id k : k <| k_bufs := k_bufs k |> = k.
Proof. by destruct k. Qed.

Lemma calm_bufs k bs : calm i p k -> calm i p (k <| k_bufs := bs |>).
Proof. intros []. by constructor. Qed.

Lemma get_buf_run b r bs k e :
  bs !! b = Some r -> get_buf b (k <| k_bufs := bs |>) e = Ret r (k <| k_bufs := bs |>) e.
Proof. intros Hb. unfold get_buf. mrun. rsimpl. by rewrite Hb. Qed.

Lemma upd_buf_run b r f bs k e :
  bs !! b = Some r ->
  upd_buf b f (k <| k_bufs := bs |>) e = Ret tt (k <| k_bufs := <[b := f r]> bs |>) e.
Proof. intros Hb. unfold upd_buf, modify. rsimpl. by rewrite (list_alter_lookup _ _ _ _ Hb). Qed.

Lemma upd_buf_alter b f bs k e :
  upd_buf b f (k <| k_bufs := bs |>) e = Ret tt (k <| k_bufs := alter f b bs |>) e.
Proof. reflexivity. Qed.

Lemma acquire_bufs lk bs k e :
  calm i p k ->
  acquire lk (k <| k_bufs := bs |>) e
  = Ret tt (k <| k_cpu := cpu_acq lk (k_cpu k) |> <| k_bufs := bs |>) e.
Proof. intros Hc. by rewrite (acquire_calm i p) by by apply calm_bufs. Qed.

Lemma release_bufs lk bs k e :
  calm i p k ->
  release lk (k <| k_cpu := cpu_acq lk (k_cpu k) |> <| k_bufs := bs |>) e
  = Ret tt (k <| k_bufs := bs |>) e.
Proof.
  intros Hc. rewrite (release_calm i p lk k) by done. by destruct k.
Qed.

Lemma acquiresleep_buf b r bs k e :
  calm i p k -> bs !! b = Some r -> sl_locked (b_lock r) = 0 ->
  acquiresleep (SL_buf b) (k <| k_bufs := bs |>) e
  = Ret tt (k <| k_bufs := <[b := r <| b_lock := mksl 1 (p_pid p) |>]> bs |>) e.
Proof.
  intros Hc Hb H0. rewrite (acquiresleep_run i p _ (b_lock r)); [|by apply calm_bufs| |done].
  - simpl. by rewrite (list_alter_lookup _ _ _ _ Hb).
  - simpl. by rewrite Hb.
Qed.

Lemma releasesleep_buf b r bs k e :
  calm i p k -> bs !! b = Some r -> unwaited (Ch_bufsl b) k ->
  releasesleep (SL_buf b) (k <| k_bufs := bs |>) e
  = Ret tt (k <| k_bufs := <[b := r <| b_lock := mksl 0 0 |>]> bs |>) e.
Proof.
  intros Hc Hb H0. rewrite (releasesleep_run i p); [|by apply calm_bufs|done].
  simpl. by rewrite (list_alter_lookup _ _ _ _ Hb).
Qed.

Lemma holdingsleep_buf b r bs k e :
  calm i p k -> bs !! b = Some r -> b_lock r = mksl 1 (p_pid p) ->
  holdingsleep (SL_buf b) (k <| k_bufs := bs |>) e = Ret true (k <| k_bufs := bs |>) e.
Proof.
  intros Hc Hb Hl. rewrite (holdingsleep_run i p _ (b_lock r)); [|by apply calm_bufs|].
  - rewrite Hl. simpl. by rewrite Z.eqb_refl.
  - simpl. by rewrite Hb.
Qed.

(** A walk over the ring whose test fails on every buffer. *)
Lemma chase_miss {R} dir (t : buf -> bool) (act : nat -> K (option R)) bs k e l : forall fuel b,
  walk (fun x => from_option dir 0%nat (bs !! x)) HEAD b l -> (length l <= fuel)%nat ->
  Forall (fun x => exists r, bs !! x = Some r /\ t r = false) l ->
  chase fuel dir b (fun b r => if t r then act b else mret None) (k <| k_bufs := bs |>) e
  = Ret None (k <| k_bufs := bs |>) e.
Proof.
  induction l as [|x l IH]; intros fuel b Hw Hf Ht.
  - simpl in Hw. subst b. by destruct fuel.
  - destruct Hw as (-> & Hx & Hw). destruct fuel as [|fuel]; simpl in Hf; [lia|].
    inversion_clear Ht as [|? ? (r & Hr & Htr) Hl]. simpl. rewrite decide_False by done.
    mcall get_buf_run; [done|]. rewrite Htr. mrun.
    mcall get_buf_run; [done|]. apply IH; [|lia|done]. by rewrite Hr in Hw.
Qed.

(** A walk that stops at the first buffer that passes the test; the test's
    action does not ask for the walk to go on. *)
Lemma chase_hit {R} dir (t : buf -> bool) (act : nat -> K (option R)) bs k e x r l1 l2 :
  forall fuel b,
  walk (fun x => from_option dir 0%nat (bs !! x)) HEAD b (l1 ++ x :: l2) ->
  (length (l1 ++ x :: l2) <= fuel)%nat ->
  Forall (fun y => exists r, bs !! y = Some r /\ t r = false) l1 ->
  bs !! x = Some r -> t r = true ->
  (forall k' e', act x (k <| k_bufs := bs |>) e <> Ret None k' e') ->
  chase fuel dir b (fun b r => if t r then act b else mret None) (k <| k_bufs := bs |>) e
  = act x (k <| k_bufs := bs |>) e.
Proof.
  induction l1 as [|y l1 IH]; intros fuel b Hw Hf Ht Hx Htx Ha;
    destruct Hw as (-> & Hy & Hw); (destruct fuel as [|fuel]; simpl in Hf; [lia|]);
    simpl; rewrite decide_False by done.
  - mcall get_buf_run; [done|]. rewrite Htx. unfold mbind at 1, M_bind at 1.
    destruct (act _ (k <| k_bufs := bs |>) e) as [[v|] k' e'| | |] eqn:E; [done|by destruct (Ha k' e')|done..].
  - inversion_clear Ht as [|? ? (s & Hs & Hts) Hl].
    mcall get_buf_run; [done|]. rewrite Hts. mrun.
    mcall get_buf_run; [done|]. apply IH; [|lia|done..]. by rewrite Hs in Hw.
Qed.
End Run.

#[global] Opaque get_buf upd_buf.

(** ** The least-recently-used order *)

Definition nxt (bs : list buf) (x : nat) : nat := from_option b_next 0%nat (bs !! x).
Definition prv (bs : list buf) (x : nat) : nat := from_option b_prev 0%nat (bs !! x).

(** The ring of [bs] holds the [NBUF] buffers in the order [o]. *)
Record lru (bs : list buf) (o : list nat) : Prop := {
  lru_length : length bs = S NBUF;
  lru_ring : ring (nxt bs) (prv bs) HEAD o;
  lru_perm : o ≡ₚ seq 0 NBUF
}.

(** The first of the entries [o] of a table that passes [t]. *)
Fixpoint pick {A} (t : A -> bool) (bs : list A) (o : list nat) : option nat :=
  match o with
  | [] => None
  | x :: o => if from_option t false (bs !! x) then Some x else pick t bs o
  end.

(** The buffer holds block [n] of [dev]; nobody refers to it and it is clean. *)
Definition hit (dev n : Z) (r : buf) : bool := (b_dev r =? dev) && (b_blockno r =? n).
Definition idle (r : buf) : bool := (b_refcnt r =? 0) && (Z.land (b_flags r) B_DIRTY =? 0).

(** What [bget] makes of the buffer it returns. *)
Definition referred (r : buf) : buf := r <| b_refcnt := u32 (b_refcnt r + 1) |>.
Definition taken (pid : Z) (r : buf) : buf := referred r <| b_lock := mksl 1 pid |>.
Definition recycled (pid dev n : Z) (r : buf) : buf :=
  r <| b_dev := dev |> <| b_blockno := n |> <| b_flags := 0 |> <| b_refcnt := 1 |>
    <| b_lock := mksl 1 pid |>.

Lemma pick_Some {A} (t : A -> bool) bs o x :
  pick t bs o = Some x ->
  exists l1 l2 r, o = l1 ++ x :: l2 /\ bs !! x = Some r /\ t r = true /\
    Forall (fun y => from_option t false (bs !! y) = false) l1.
Proof.
  induction o as [|y o IH]; simpl; [done|]. destruct (bs !! y) as [s|] eqn:Hy; simpl.
  - destruct (t s) eqn:Hs.
    + intros [= <-]. exists [], o, s. by repeat split.
    + intros (l1 & l2 & r & -> & ? & ? & ?)%IH. exists (y :: l1), l2, r. split_and!; try done.
      constructor; [by rewrite Hy|done].
  - intros (l1 & l2 & r & -> & ? & ? & ?)%IH. exists (y :: l1), l2, r. split_and!; try done.
    constructor; [by rewrite Hy|done].
Qed.

Lemma pick_None {A} (t : A -> bool) bs o :
  pick t bs o = None <-> Forall (fun y => from_option t false (bs !! y) = false) o.
Proof.
  induction o as [|y o IH]; simpl; [done|]. rewrite Forall_cons, <-IH.
  destruct (from_option t false (bs !! y)); intuition congruence.
Qed.

Section Lru.
  Context (i : nat) (p : proc).
  Implicit Types (k : kernel) (e : env) (b : nat) (r : buf) (bs : list buf) (o : list nat).

Lemma lru_elem bs o b : lru bs o -> b ∈ o <-> (b < NBUF)%nat.
Proof. intros Ho. rewrite (lru_perm _ _ Ho), elem_of_seq. lia. Qed.

Lemma lru_buf bs o b : lru bs o -> b ∈ o -> exists r, bs !! b = Some r.
Proof.
  intros Ho Hb%(lru_elem _ _ _ Ho). apply lookup_lt_is_Some_2.
  rewrite (lru_length _ _ Ho). unfold NBUF in *. lia.
Qed.

Lemma lru_head bs o : lru bs o -> exists h, bs !! HEAD = Some h.
Proof. intros Ho. apply lookup_lt_is_Some_2. rewrite (lru_length _ _ Ho). unfold HEAD, NBUF. lia. Qed.

Lemma lru_len_o bs o : lru bs o -> length o = NBUF.
Proof. intros Ho. by rewrite (lru_perm _ _ Ho), length_seq. Qed.

Lemma lru_walk_next bs o h :
  lru bs o -> bs !! HEAD = Some h -> walk (nxt bs) HEAD (b_next h) o.
Proof.
  intros Ho Hh. pose proof (ring_walk _ _ _ _ (lru_ring _ _ Ho)) as Hw.
  unfold nxt in Hw at 2. by rewrite Hh in Hw.
Qed.

Lemma lru_walk_prev bs o h :
  lru bs o -> bs !! HEAD = Some h -> walk (prv bs) HEAD (b_prev h) (rev o).
Proof.
  intros Ho Hh. pose proof (ring_walk _ _ _ _ (ring_rev _ _ _ _ (lru_ring _ _ Ho))) as Hw.
  unfold prv in Hw at 2. by rewrite Hh in Hw.
Qed.

(** Tests that fail on the buffers of a part of the order. *)
Lemma lru_fail bs o t l :
  lru bs o -> (forall x, x ∈ l -> x ∈ o) ->
  Forall (fun y => from_option t false (bs !! y) = false) l ->
  Forall (fun y => exists r, bs !! y = Some r /\ t r = false) l.
Proof.
  intros Ho Hl Hf. apply Forall_forall. intros x Hx.
  destruct (lru_buf _ _ _ Ho (Hl x Hx)) as (r & Hr). exists r. split; [done|].
  rewrite Forall_forall in Hf. specialize (Hf x Hx). by rewrite Hr in Hf.
Qed.

Lemma chase_next_miss {R} t (act : nat -> K (option R)) bs o h k e :
  lru bs o -> bs !! HEAD = Some h -> pick t bs o = None ->
  chase NBUF b_next (b_next h) (fun b r => if t r then act b else mret None)
    (k <| k_bufs := bs |>) e = Ret None (k <| k_bufs := bs |>) e.
Proof.
  intros Ho Hh Hp%pick_None. apply chase_miss with o.
  - by apply lru_walk_next.
  - by rewrite (lru_len_o _ _ Ho).
  - by apply lru_fail with o.
Qed.

Lemma chase_prev_miss {R} t (act : nat -> K (option R)) bs o h k e :
  lru bs o -> bs !! HEAD = Some h -> pick t bs (rev o) = None ->
  chase NBUF b_prev (b_prev h) (fun b r => if t r then act b else mret None)
    (k <| k_bufs := bs |>) e = Ret None (k <| k_bufs := bs |>) e.
Proof.
  intros Ho Hh Hp%pick_None. apply chase_miss with (rev o).
  - by apply lru_walk_prev.
  - by rewrite length_rev, (lru_len_o _ _ Ho).
  - apply lru_fail with o; [done| |done]. intros x. by rewrite <-Permutation_rev.
Qed.

Lemma chase_next_hit {R} t (act : nat -> K (option R)) bs o h b k e :
  lru bs o -> bs !! HEAD = Some h -> pick t bs o = Some b ->
  (forall k' e', act b (k <| k_bufs := bs |>) e <> Ret None k' e') ->
  chase NBUF b_next (b_next h) (fun b r => if t r then act b else mret None)
    (k <| k_bufs := bs |>) e = act b (k <| k_bufs := bs |>) e.
Proof.
  intros Ho Hh (l1 & l2 & r & E & Hr & Ht & Hf)%pick_Some Ha.
  eapply (chase_hit b_next t act bs k e b r l1 l2); try done.
  - rewrite <-E. by apply lru_walk_next.
  - by rewrite <-E, (lru_len_o _ _ Ho).
  - apply lru_fail with o; [done| |done]. set_solver.
Qed.

Lemma chase_prev_hit {R} t (act : nat -> K (option R)) bs o h b k e :
  lru bs o -> bs !! HEAD = Some h -> pick t bs (rev o) = Some b ->
  (forall k' e', act b (k <| k_bufs := bs |>) e <> Ret None k' e') ->
  chase NBUF b_prev (b_prev h) (fun b r => if t r then act b else mret None)
    (k <| k_bufs := bs |>) e = act b (k <| k_bufs := bs |>) e.
Proof.
  intros Ho Hh (l1 & l2 & r & E & Hr & Ht & Hf)%pick_Some Ha.
  eapply (chase_hit b_prev t act bs k e b r l1 l2); try done.
  - rewrite <-E. by apply lru_walk_prev.
  - by rewrite <-E, length_rev, (lru_len_o _ _ Ho).
  - apply lru_fail with o; [done| |done]. intros x Hx.
    rewrite (Permutation_rev o), E. set_solver.
Qed.

(** The buffer is not locked. *)
Definition unlocked (bs : list buf) (b : nat) : Prop :=
  forall r, bs !! b = Some r -> sl_locked (b_lock r) = 0.

(** [bget] takes the sleep lock of the buffer it found when it holds
    [bcache.lock] no longer. *)
Lemma bget_found dev n bs o b k e :
  calm i p k -> lru bs o -> pick (hit dev n) bs o = Some b ->
  bget dev n (k <| k_bufs := bs |>) e
  = (acquiresleep (SL_buf b) ;; mret b) (k <| k_bufs := alter referred b bs |>) e.
Proof.
  intros Hc Ho Hp. unfold bget. mcall (acquire_bufs i p); [done|].
  destruct (lru_head _ _ Ho) as (h & Hh). mcall get_buf_run; [done|].
  set (K := (acquiresleep (SL_buf b) ;; mret (Some b)) : K (option nat)).
  assert (forall k' e', K (k <| k_bufs := alter referred b bs |>) e <> Ret None k' e') as HK.
  { intros k' e'. unfold K, mbind, M_bind. by destruct (acquiresleep _ _ _). }
  unfold mbind at 1, M_bind at 1. rewrite (chase_next_hit (hit dev n) _ bs o h b); [|done..|].
  - mcall upd_buf_alter. mcall (release_bufs i p); [done|]. unfold mbind, M_bind.
    by destruct (acquiresleep _ _ _).
  - intros k' e'. mcall upd_buf_alter. mcall (release_bufs i p); [done|]. apply HK.
Qed.

Lemma bget_hit dev n bs o b k e :
  calm i p k -> lru bs o -> pick (hit dev n) bs o = Some b -> unlocked bs b ->
  bget dev n (k <| k_bufs := bs |>) e
  = Ret b (k <| k_bufs := alter (taken (p_pid p)) b bs |>) e.
Proof.
  intros Hc Ho Hp Hu. rewrite (bget_found dev n bs o b) by done.
  destruct (pick_Some _ _ _ _ Hp) as (_ & _ & r & _ & Hr & _).
  rewrite !(list_alter_lookup _ _ _ _ Hr).
  mcall acquiresleep_buf; [done|apply list_lookup_insert_eq; by eapply lookup_lt_Some
    |exact (Hu r Hr)|].
  by rewrite mret_run, list_insert_insert_eq.
Qed.

Lemma bget_recycle dev n bs o b k e :
  calm i p k -> lru bs o -> pick (hit dev n) bs o = None ->
  pick idle bs (rev o) = Some b -> unlocked bs b ->
  bget dev n (k <| k_bufs := bs |>) e
  = Ret b (k <| k_bufs := alter (recycled (p_pid p) dev n) b bs |>) e.
Proof.
  intros Hc Ho Hmiss Hp Hu. unfold bget. mcall (acquire_bufs i p); [done|].
  destruct (lru_head _ _ Ho) as (h & Hh). mcall get_buf_run; [done|].
  destruct (pick_Some _ _ _ _ Hp) as (_ & _ & r & _ & Hr & _).
  assert (forall v : buf, (<[b := v]> bs) !! b = Some v) as Hin.
  { intros v. apply list_lookup_insert_eq. by eapply lookup_lt_Some. }
  erewrite bind_Ret; [|by eapply (chase_next_miss (hit dev n))]. cbv beta match.
  mcall get_buf_run; [done|].
  match goal with |- context [chase _ _ _ (fun b r => if _ then @?A b else _)] => set (act := A) end.
  assert (act b (k <| k_cpu := cpu_acq L_bcache (k_cpu k) |> <| k_bufs := bs |>) e
    = Ret (Some b) (k <| k_bufs := alter (recycled (p_pid p) dev n) b bs |>) e) as Ha.
  { unfold act. mcall upd_buf_run; [done|]. do 3 (mcall upd_buf_run; [apply Hin|];
      rewrite list_insert_insert_eq).
    mcall (release_bufs i p); [done|].
    mcall acquiresleep_buf; [done|apply Hin|exact (Hu r Hr)|].
    by rewrite mret_run, list_insert_insert_eq, (list_alter_lookup _ _ _ _ Hr). }
  erewrite bind_Ret; [|rewrite (chase_prev_hit idle act bs o h b); [exact Ha|done..|]]; [done|].
  intros k' e'. by rewrite Ha.
Qed.

Lemma bget_full dev n bs o k e :
  calm i p k -> lru bs o -> pick (hit dev n) bs o = None -> pick idle bs (rev o) = None ->
  bget dev n (k <| k_bufs := bs |>) e
  = Panic "bget: no buffers" (k <| k_cpu := cpu_acq L_bcache (k_cpu k) |> <| k_bufs := bs |>).
Proof.
  intros Hc Ho Hmiss Hp. unfold bget. mcall (acquire_bufs i p); [done|].
  destruct (lru_head _ _ Ho) as (h & Hh). mcall get_buf_run; [done|].
  erewrite bind_Ret; [|by eapply (chase_next_miss (hit dev n))]. cbv beta match.
  mcall get_buf_run; [done|].
  by erewrite bind_Ret; [|by eapply (chase_prev_miss idle)].
Qed.

(** A buffer that is locked is one that somebody refers to, since its
    reference is counted before its lock is taken and is given back after the
    lock is. *)
Definition locks_counted (bs : list buf) (b : nat) : Prop :=
  forall r, bs !! b = Some r -> sl_locked (b_lock r) <> 0 -> b_refcnt r <> 0.

Lemma idle_unlocked bs o b :
  Forall (locks_counted bs) o -> pick idle bs (rev o) = Some b -> unlocked bs b.
Proof.
  intros Hl (l1 & l2 & r & E & Hr & Ht & _)%pick_Some r' Hr'. simplify_eq.
  rewrite Forall_forall in Hl. assert (b ∈ o) as Hb by (rewrite (Permutation_rev o), E; set_solver).
  apply andb_true_iff in Ht as [H0%Z.eqb_eq _].
  destruct (decide (sl_locked (b_lock r) = 0)) as [|H1]; [done|]. by destruct (Hl b Hb r Hr H1).
Qed.

(** Where a caller waits for the lock of the buffer [b] it has found. *)
Definition at_buf (b : nat) (bs : list buf) (k : kernel) : kernel :=
  at_door i p (SL_buf b) (k <| k_bufs := alter referred b bs |>).

Lemma bget_parks dev n bs o b r k e k2 :
  calm i p k -> lru bs o -> pick (hit dev n) bs o = Some b ->
  bs !! b = Some r -> sl_locked (b_lock r) <> 0 ->
  swtch_loop i (at_buf b bs k) e = Parked k2 ->
  bget dev n (k <| k_bufs := bs |>) e = Parked k2.
Proof.
  intros Hc Ho Hp Hr H1 Hw. rewrite (bget_found dev n bs o b) by done.
  unfold mbind, M_bind. rewrite (acquiresleep_parks i p _ (b_lock r) _ _ k2); try done.
  - by apply calm_bufs.
  - simpl. rewrite list_lookup_alter_eq. by rewrite Hr.
Qed.

Lemma bget_resumes dev n bs o b r k e k2 e2 r2 q :
  calm i p k -> lru bs o -> pick (hit dev n) bs o = Some b ->
  bs !! b = Some r -> sl_locked (b_lock r) <> 0 ->
  swtch_loop i (at_buf b bs k) e = Ret tt k2 e2 ->
  cpu_ok (k_cpu k2) -> c_held (k_cpu k2) = [L_ptable] ->
  k_bufs k2 !! b = Some r2 -> sl_locked (b_lock r2) = 0 -> k_procs k2 !! i = Some q ->
  exists c, c_held c = [] /\
    bget dev n (k <| k_bufs := bs |>) e =
    Ret b (k2 <| k_cpu := c |> <| k_procs := <[i := q <| p_chan := None |>]> (k_procs k2) |>
      <| k_bufs := <[b := r2 <| b_lock := mksl 1 (p_pid q) |>]> (k_bufs k2) |>) e2.
Proof.
  intros Hc Ho Hp Hr H1 Hw Hcpu Hh Hr2 H0 Hq. rewrite (bget_found dev n bs o b) by done.
  edestruct (acquiresleep_resumes i p (SL_buf b) (b_lock r)) as (c & Hc0 & Ha);
    [by apply calm_bufs| |done|exact Hw|done|done|simpl; by rewrite Hr2|done|done|].
  - simpl. rewrite list_lookup_alter_eq. by rewrite Hr.
  - exists c. split; [done|]. rewrite (bind_Ret _ _ _ _ _ _ _ Ha), mret_run. simpl.
    by rewrite (list_alter_lookup _ _ _ _ Hr2).
Qed.

(** C23: [bget] implements a cache with least-recently-used replacement, in any
    state of the cache in which locked buffers are referred to.  When a buffer
    of the block is in the cache it is returned, locked and with one more
    reference.  When another process has that buffer locked, the caller first
    sleeps on it, its reference counted already so that nobody recycles the
    buffer, and returns it locked once it is resumed with the lock free.
    Otherwise the buffer that comes last in the order among those that nobody
    refers to and that are clean is recycled for the block, marked not valid; no
    other buffer changes.  Only when every buffer is in use or dirty does it
    panic. *)
Theorem bget_least_recently_used dev n bs o k e :
  calm i p k -> lru bs o -> Forall (locks_counted bs) o ->
  match pick (hit dev n) bs o, pick idle bs (rev o) with
  | Some b, _ => exists r, bs !! b = Some r /\
      (sl_locked (b_lock r) = 0 ->
       bget dev n (k <| k_bufs := bs |>) e
       = Ret b (k <| k_bufs := alter (taken (p_pid p)) b bs |>) e) /\
      (sl_locked (b_lock r) <> 0 -> exists k1,
       k_bufs k1 = alter referred b bs /\ c_held (k_cpu k1) = [L_ptable] /\
       k_procs k1 = <[i := p <| p_chan := Some (Ch_bufsl b) |> <| p_state := SLEEPING |>]> (k_procs k) /\
       (forall k2, swtch_loop i k1 e = Parked k2 ->
        bget dev n (k <| k_bufs := bs |>) e = Parked k2) /\
       (forall k2 e2 r2 q, swtch_loop i k1 e = Ret tt k2 e2 ->
        cpu_ok (k_cpu k2) -> c_held (k_cpu k2) = [L_ptable] ->
        k_bufs k2 !! b = Some r2 -> sl_locked (b_lock r2) = 0 -> k_procs k2 !! i = Some q ->
        exists c, c_held c = [] /\
          bget dev n (k <| k_bufs := bs |>) e =
          Ret b (k2 <| k_cpu := c |> <| k_procs := <[i := q <| p_chan := None |>]> (k_procs k2) |>
            <| k_bufs := <[b := r2 <| b_lock := mksl 1 (p_pid q) |>]> (k_bufs k2) |>) e2))
  | None, Some b =>
      bget dev n (k <| k_bufs := bs |>) e
      = Ret b (k <| k_bufs := alter (recycled (p_pid p) dev n) b bs |>) e
  | None, None =>
      bget dev n (k <| k_bufs := bs |>) e
      = Panic "bget: no buffers" (k <| k_cpu := cpu_acq L_bcache (k_cpu k) |> <| k_bufs := bs |>)
  end.
Proof.
  intros Hc Ho Hl. destruct (pick (hit dev n) bs o) as [b|] eqn:Eh.
  - destruct (pick_Some _ _ _ _ Eh) as (_ & _ & r & _ & Hr & _). exists r. split_and!; [done| |].
    + intros H0. apply bget_hit with o; try done. intros r' Hr'. by simplify_eq.
    + intros H1. exists (at_buf b bs k). split_and!; [done| |done| |].
      * apply asleep_held; [|done]. unfold cpu_acq. rsimpl. by rewrite (calm_held _ _ _ Hc).
      * intros k2. by apply bget_parks with o r.
      * intros k2 e2 r2 q. by apply bget_resumes with o r.
  - destruct (pick idle bs (rev o)) as [b|] eqn:Ei.
    + apply bget_recycle with o; try done. by apply idle_unlocked with o.
    + by apply bget_full with o.
Qed.

(** ** Releasing a buffer *)

Definition set_next (x v : nat) (bs : list buf) : list buf :=
  alter (fun r => r <| b_next := v |>) x bs.
Definition set_prev (x v : nat) (bs : list buf) : list buf :=
  alter (fun r => r <| b_prev := v |>) x bs.

(** The contents of the buffers, their links aside. *)
Definition core (r : buf) : buf := r <| b_next := 0%nat |> <| b_prev := 0%nat |>.

Lemma core_eq r r' : core r' = core r ->
  b_flags r' = b_flags r /\ b_dev r' = b_dev r /\ b_blockno r' = b_blockno r /\
  b_lock r' = b_lock r /\ b_refcnt r' = b_refcnt r /\ b_data r' = b_data r.
Proof. destruct r, r'. unfold core. rsimpl. by intros [= -> -> -> -> -> ->]. Qed.

Lemma nxt_set_next x v bs y : (x < length bs)%nat -> nxt (set_next x v bs) y = upd x v (nxt bs) y.
Proof.
  intros Hx. unfold nxt, set_next, upd. case_decide as Hy.
  - subst y. rewrite list_lookup_alter_eq. apply lookup_lt_is_Some_2 in Hx as [r ->]. done.
  - by rewrite list_lookup_alter_ne.
Qed.

Lemma prv_set_prev x v bs y : (x < length bs)%nat -> prv (set_prev x v bs) y = upd x v (prv bs) y.
Proof.
  intros Hx. unfold prv, set_prev, upd. case_decide as Hy.
  - subst y. rewrite list_lookup_alter_eq. apply lookup_lt_is_Some_2 in Hx as [r ->]. done.
  - by rewrite list_lookup_alter_ne.
Qed.

Lemma prv_set_next x v bs y : prv (set_next x v bs) y = prv bs y.
Proof.
  unfold prv, set_next. destruct (decide (x = y)) as [->|Hy].
  - rewrite list_lookup_alter_eq. by destruct (bs !! y).
  - by rewrite list_lookup_alter_ne.
Qed.

Lemma nxt_set_prev x v bs y : nxt (set_prev x v bs) y = nxt bs y.
Proof.
  unfold nxt, set_prev. destruct (decide (x = y)) as [->|Hy].
  - rewrite list_lookup_alter_eq. by destruct (bs !! y).
  - by rewrite list_lookup_alter_ne.
Qed.

Lemma core_alter f x bs : (forall r, core (f r) = core r) -> map core (alter f x bs) = map core bs.
Proof.
  intros Hf. apply list_eq. intros y. rewrite !list_lookup_fmap.
  destruct (decide (x = y)) as [->|Hy].
  - rewrite list_lookup_alter_eq. destruct (bs !! y); simpl; [by rewrite Hf|done].
  - by rewrite list_lookup_alter_ne.
Qed.

(** [link_front] on a ring that [b] is not in. *)
Lemma link_front_run b bs o :
  ring (nxt bs) (prv bs) HEAD o -> b ∉ HEAD :: o -> (forall x, x ∈ b :: HEAD :: o -> (x < length bs)%nat) ->
  exists bs', (forall k e, link_front b (k <| k_bufs := bs |>) e = Ret tt (k <| k_bufs := bs' |>) e) /\
    ring (nxt bs') (prv bs') HEAD (b :: o) /\ map core bs' = map core bs /\ length bs' = length bs.
Proof.
  intros Hr Hb Hlt. set (n := nxt bs HEAD).
  set (bs1 := set_prev b HEAD (set_next b n bs)).
  exists (set_next HEAD b (set_prev n b bs1)).
  assert (b < length bs /\ HEAD < length bs)%nat as [Hlb Hlh] by (split; apply Hlt; set_solver).
  assert (n < length bs)%nat as Hln by (apply Hlt; pose proof (ring_first _ _ _ _ Hr); set_solver).
  assert (length bs1 = length bs) as Hl1 by (unfold bs1, set_prev, set_next; by rewrite !length_alter).
  assert (b <> HEAD) as Hbh by set_solver.
  split_and!.
  - intros k e. unfold link_front. destruct (lookup_lt_is_Some_2 bs HEAD Hlh) as [h Hh].
    assert (b_next h = n) as Hn by (unfold n, nxt; by rewrite Hh).
    mcall get_buf_run; [done|]. do 2 (mcall upd_buf_alter; []). rewrite Hn. fold (set_next b n bs).
    fold (set_prev b HEAD (set_next b n bs)). fold bs1.
    mcall get_buf_run.
    { unfold bs1, set_prev, set_next. rewrite !list_lookup_alter_ne by done. done. }
    mcall upd_buf_alter. rewrite upd_buf_alter, Hn. done.
  - eapply ring_ext; [by apply (ring_push _ _ _ _ b Hr)|..]; intros x _.
    + rewrite nxt_set_next by (unfold set_prev; rewrite length_alter; lia).
      fold n. unfold upd at 1 2. case_decide; [done|]. unfold bs1.
      rewrite !nxt_set_prev. by rewrite nxt_set_next.
    + fold n. rewrite prv_set_next, prv_set_prev by lia. unfold upd at 1 2. case_decide; [done|].
      unfold bs1. rewrite prv_set_prev by (unfold set_next; rewrite length_alter; lia).
      unfold upd. case_decide; [done|]. apply prv_set_next.
  - unfold bs1, set_prev, set_next. by rewrite !core_alter.
  - unfold set_next, set_prev. by rewrite !length_alter.
Qed.

(** What [brelse] makes of a buffer that its caller alone refers to. *)
Definition released (r : buf) : buf := r <| b_lock := mksl 0 0 |> <| b_refcnt := 0 |>.

Lemma links_insert b r bs : 
  bs !! b = Some r -> forall v, b_next v = b_next r -> b_prev v = b_prev r -> forall x,
  nxt (<[b := v]> bs) x = nxt bs x /\ prv (<[b := v]> bs) x = prv bs x.
Proof.
  intros Hb v Hn Hp x. unfold nxt, prv. destruct (decide (b = x)) as [<-|Hx].
  - rewrite list_lookup_insert_eq by (by eapply lookup_lt_Some). by rewrite Hb.
  - by rewrite list_lookup_insert_ne.
Qed.

(** Taking [b] out of the ring. *)
Lemma unlink_run b r bs o1 o2 :
  ring (nxt bs) (prv bs) HEAD (o1 ++ b :: o2) -> bs !! b = Some r ->
  (forall x, x ∈ HEAD :: o1 ++ b :: o2 -> (x < length bs)%nat) ->
  exists bs', (forall k e, unlink b (k <| k_bufs := bs |>) e = Ret tt (k <| k_bufs := bs' |>) e) /\
    ring (nxt bs') (prv bs') HEAD (o1 ++ o2) /\ map core bs' = map core bs /\ length bs' = length bs.
Proof.
  intros Hr Hb Hlt. set (n := nxt bs b). set (q := prv bs b).
  assert (b_next r = n /\ b_prev r = q) as [En Eq] by (unfold n, q, nxt, prv; by rewrite Hb).
  assert (n <> b) as Hn by by eapply ring_next_ne.
  assert (n < length bs)%nat as Hln.
  { apply Hlt. pose proof (ring_next _ _ _ _ _ _ Hr) as Hin. fold n in Hin. set_solver. }
  assert (q < length bs)%nat as Hlq.
  { apply Hlt. pose proof (ring_prev _ _ _ _ _ _ Hr) as Hin. fold q in Hin. set_solver. }
  exists (set_next q n (set_prev n q bs)). split_and!.
  - intros k e. unfold unlink. mcall get_buf_run; [done|].
    mcall upd_buf_alter. mcall get_buf_run; [by rewrite list_lookup_alter_ne, Hb by congruence|].
    rewrite upd_buf_alter. by rewrite En, Eq.
  - eapply ring_ext; [by apply (ring_unlink _ _ _ _ _ _ Hr)|..]; intros x _; fold n q.
    + rewrite nxt_set_next by (unfold set_prev; by rewrite length_alter).
      unfold upd. case_decide; [done|]. apply nxt_set_prev.
    + by rewrite prv_set_next, prv_set_prev.
  - unfold set_next, set_prev. by rewrite !core_alter.
  - unfold set_next, set_prev. by rewrite !length_alter.
Qed.

Lemma brelse_run b r bs o1 o2 k e :
  calm i p k -> lru bs (o1 ++ b :: o2) -> unwaited (Ch_bufsl b) k ->
  bs !! b = Some r -> b_lock r = mksl 1 (p_pid p) -> b_refcnt r = 1 ->
  exists bs', brelse b (k <| k_bufs := bs |>) e = Ret tt (k <| k_bufs := bs' |>) e /\
    lru bs' (b :: o1 ++ o2) /\ map core bs' = map core (alter released b bs).
Proof.
  intros Hc Ho Hw Hb Hl Hrc. pose proof Ho as [Hlen Hr Hperm].
  assert (b < length bs)%nat as Hlt by by eapply lookup_lt_Some.
  set (bs2 := <[b := released r]> bs).
  assert (forall x, nxt bs2 x = nxt bs x /\ prv bs2 x = prv bs x) as Hx by by apply links_insert with r.
  assert (ring (nxt bs2) (prv bs2) HEAD (o1 ++ b :: o2)) as Hr2.
  { eapply ring_ext; [done|..]; intros x _; apply Hx. }
  assert (forall x, x ∈ HEAD :: o1 ++ b :: o2 -> (x < length bs2)%nat) as Hin.
  { intros x Hxo. unfold bs2. rewrite length_insert, Hlen.
    apply elem_of_cons in Hxo as [->|Hxo%(lru_elem _ _ _ Ho)]; [unfold HEAD|]; lia. }
  assert (bs2 !! b = Some (released r)) as Hb2 by by apply list_lookup_insert_eq.
  destruct (unlink_run b (released r) bs2 o1 o2) as (bs3 & Hu & Hr3 & Hc3 & Hl3); [done..|].
  pose proof (ring_nodup _ _ _ _ Hr2) as Hnd.
  destruct (link_front_run b bs3 (o1 ++ o2)) as (bs4 & Hf & Hr4 & Hc4 & Hl4); [done|..].
  - rewrite <-Permutation_middle in Hnd. apply NoDup_cons in Hnd as [Hh [Hb' _]%NoDup_cons].
    set_solver.
  - intros x Hx3. rewrite Hl3. apply Hin. set_solver.
  - exists bs4. split_and!.
    + unfold brelse. mcall (holdingsleep_buf i p); [done..|]. cbn [negb].
      mcall (releasesleep_buf i p); [done..|]. mcall (acquire_bufs i p); [done|].
      mcall upd_buf_run; [by apply list_lookup_insert_eq|]. rewrite list_insert_insert_eq.
      replace (_ <| b_refcnt := _ |>) with (released r) by (unfold released; by rsimpl; rewrite Hrc).
      fold bs2. mcall get_buf_run; [done|]. change (b_refcnt (released r) =? 0) with true.
      cbv match. rewrite bind_assoc.
      mcall Hu. mcall Hf. by rewrite (release_bufs i p).
    + constructor; [|done|].
      * rewrite Hl4, Hl3. unfold bs2. by rewrite length_insert.
      * by rewrite <-Hperm, Permutation_middle.
    + by rewrite Hc4, Hc3, (list_alter_lookup _ _ _ _ Hb).
Qed.

(** C24: A buffer that its last user releases becomes the most recently used
    one.  [brelse] unlocks it, drops the reference and moves it to the front
    of the ring, which stays a ring of the same buffers in the same order
    otherwise; nothing but the links of the other buffers changes. *)
Theorem brelse_moves_to_front b r bs o1 o2 k e :
  calm i p k -> lru bs (o1 ++ b :: o2) -> unwaited (Ch_bufsl b) k ->
  bs !! b = Some r -> b_lock r = mksl 1 (p_pid p) -> b_refcnt r = 1 ->
  exists bs', brelse b (k <| k_bufs := bs |>) e = Ret tt (k <| k_bufs := bs' |>) e /\
    lru bs' (b :: o1 ++ o2) /\ map core bs' = map core (alter released b bs).
Proof. apply brelse_run. Qed.
End Lru.

(** [binit] builds the ring. *)
Lemma binit_run k e :
  exists bs, binit (k <| k_bufs := replicate (S NBUF) zero_buf |>) e
    = Ret tt (k <| k_bufs := bs |>) e /\ lru bs (rev (seq 0 NBUF)) /\
    map core bs = replicate (S NBUF) zero_buf.
Proof.
  eexists. split; [vm_compute; reflexivity|]. split; [|reflexivity]. constructor.
  - reflexivity.
  - split; apply (bool_decide_unpack _); vm_compute; exact I.
  - by rewrite <-Permutation_rev.
Qed.

(** ** Instances *)

(** A block that is not cached, while nothing is in use; and a block whose
    buffer another process has locked. *)
Lemma bget_least_recently_used_witness :
  (exists bs o, lru bs o /\
    bget 1 7 (solo_kernel <| k_bufs := bs |>) [] =
      Ret 0%nat (solo_kernel <| k_bufs := alter (recycled 1 1 7) 0%nat bs |>) []) /\
  (exists bs o k1, lru bs o /\ bget 0 0 (solo_kernel <| k_bufs := bs |>) [] = Parked k1 /\
    k_bufs k1 = alter referred 29%nat bs).
Proof.
  destruct (binit_run solo_kernel []) as (bs & _ & Ho & Hb).
  assert (forall b r, bs !! b = Some r -> core r = core zero_buf) as Hz.
  { intros b r Hr. assert (map core bs !! b = Some (core r)) as E by by rewrite list_lookup_fmap, Hr.
    rewrite Hb in E. apply lookup_replicate in E as [-> _]. done. }
  split.
  - exists bs, (rev (seq 0 NBUF)). split; [done|].
    assert (forall b, from_option (hit 1 7) false (bs !! b) = false) as Hmiss.
    { intros b. destruct (bs !! b) as [r|] eqn:Hr; [|done]. simpl.
      unfold hit. by destruct (core_eq _ _ (Hz b r Hr)) as (_ & -> & _). }
    pose proof (bget_least_recently_used 0 solo_proc 1 7 bs (rev (seq 0 NBUF)) solo_kernel []) as Hg.
    rewrite (proj2 (pick_None _ _ _)) in Hg by (by apply Forall_forall).
    rewrite rev_involutive in Hg. simpl in Hg.
    destruct (lru_buf bs _ 0 Ho) as (r & Hr); [apply (lru_elem bs _ _ Ho); unfold NBUF; lia|].
    rewrite Hr in Hg. simpl in Hg. unfold idle in Hg.
    destruct (core_eq _ _ (Hz _ r Hr)) as (Ef & _ & _ & _ & Ec & _). rewrite Ef, Ec in Hg.
    apply Hg; [apply solo_calm|done|]. apply Forall_forall. intros b _ s Hs H1.
    destruct (core_eq _ _ (Hz b s Hs)) as (_ & _ & _ & E & _). by rewrite E in H1.
  - destruct (lru_buf bs _ 29 Ho) as (r & Hr); [apply (lru_elem bs _ _ Ho); unfold NBUF; lia|].
    set (r' := r <| b_lock := mksl 1 9 |> <| b_refcnt := 1 |>).
    assert ((<[29%nat := r']> bs) !! 29%nat = Some r') as Hr'
      by (apply list_lookup_insert_eq; by eapply lookup_lt_Some).
    assert (lru (<[29%nat := r']> bs) (rev (seq 0 NBUF))) as Ho'.
    { destruct Ho as [Hl Hri Hp]. constructor; [by rewrite length_insert| |done].
      eapply ring_ext; [done|..]; intros x _; by apply (links_insert 29 r bs Hr r'). }
    exists (<[29%nat := r']> bs), (rev (seq 0 NBUF)).
    pose proof (bget_least_recently_used 0 solo_proc 0 0 (<[29%nat := r']> bs) (rev (seq 0 NBUF)) solo_kernel []) as Hg.
    assert (pick (hit 0 0) (<[29%nat := r']> bs) (rev (seq 0 NBUF)) = Some 29%nat) as Hp.
    { change (rev (seq 0 NBUF)) with (29%nat :: rev (seq 0 29)). cbn [pick]. rewrite Hr'. unfold hit. simpl.
      by destruct (core_eq _ _ (Hz _ r Hr)) as (_ & -> & -> & _). }
    rewrite Hp in Hg.
    destruct Hg as (s & Hs & _ & Hg); [apply solo_calm|done| |].
    + apply Forall_forall. intros b _ s Hs H1. destruct (decide (b = 29%nat)) as [->|Hne]; [by simplify_eq|].
      rewrite list_lookup_insert_ne in Hs by done.
      destruct (core_eq _ _ (Hz b s Hs)) as (_ & _ & _ & E & _). by rewrite E in H1.
    + rewrite Hr' in Hs. simplify_eq. destruct Hg as (k1 & Hk & _ & _ & Hg & _); [done|]. exists k1.
      split_and!; [done|by apply Hg|done].
Defined.

Lemma brelse_moves_to_front_witness :
  exists bs bs', brelse 3 (solo_kernel <| k_bufs := bs |>) [] = Ret tt (solo_kernel <| k_bufs := bs' |>) [] /\
    lru bs' (3%nat :: rev (seq 4 26) ++ rev (seq 0 3)).
Proof.
  destruct (binit_run solo_kernel []) as (bs0 & _ & Ho & Hb).
  destruct (lru_buf bs0 _ 3 Ho) as (r & Hr); [apply (lru_elem bs0 _ _ Ho); unfold NBUF; lia|].
  set (r' := r <| b_lock := mksl 1 1 |> <| b_refcnt := 1 |>). exists (<[3%nat := r']> bs0).
  destruct (brelse_moves_to_front 0 solo_proc 3 r' (<[3%nat := r']> bs0) (rev (seq 4 26)) (rev (seq 0 3))
    solo_kernel []) as (bs' & Hrun & Ho' & _).
  - apply solo_calm.
  - change (rev (seq 4 26) ++ 3%nat :: rev (seq 0 3)) with (rev (seq 0 NBUF)).
    destruct Ho as [Hl Hri Hp]. constructor; [by rewrite length_insert| |done].
    eapply ring_ext; [done|..]; intros x _; by apply (links_insert 3 r bs0 Hr r').
  - apply solo_unwaited.
  - apply list_lookup_insert_eq. by eapply lookup_lt_Some.
  - done.
  - done.
  - by exists bs'.
Defined.
