(* ===== verification/Cache.v ===== *)
(** The buffer cache as the file system's code sees it (bio.c, memide.c): one
    process reads blocks into locked buffers, changes them, writes them and
    releases them.  [bc] is the invariant of the cache between the calls, and
    [view] the contents of the disk seen through the cache. *)

From S2P Require Import Prelude Types Spinlock Proc Sleeplock Ring Bio.

(** ** The invariant *)

(** A buffer holds no block, or a valid one, clean or dirty.  The buffers of
    [H] are held by process [pid]; the others are free, and agree with the
    disk when clean. *)
Record buf_ok (pid : Z) (H : list nat) (disk : list block) (b : nat) (r : buf) : Prop := {
  ok_flags : (b_flags r = 0 /\ b_dev r = 0) \/
    ((b_flags r = B_VALID \/ b_flags r = Z.lor B_VALID B_DIRTY) /\ b_dev r = 1 /\
     0 <= b_blockno r < Z.of_nat (length disk));
  ok_data : length (b_data r) = BSIZE;
  ok_held : b ∈ H -> b_lock r = mksl 1 pid /\ b_refcnt r = 1 /\ b_flags r <> 0;
  ok_free : b ∉ H -> sl_locked (b_lock r) = 0 /\ b_refcnt r = 0 /\
    (b_flags r = B_VALID -> disk !! Z.to_nat (b_blockno r) = Some (b_data r))
}.

Record bc (pid : Z) (H : list nat) (bs : list buf) (disk : list block) : Prop := {
  bc_lru : exists o, lru bs o;
  bc_held : forall b, b ∈ H -> (b < NBUF)%nat;
  bc_uniq : forall b c r s, (b < NBUF)%nat -> (c < NBUF)%nat ->
    bs !! b = Some r -> bs !! c = Some s -> b_dev r = 1 -> b_dev s = 1 ->
    b_blockno r = b_blockno s -> b = c;
  bc_buf : forall b r, (b < NBUF)%nat -> bs !! b = Some r -> buf_ok pid H disk b r;
  bc_disk : Forall (fun d => length d = BSIZE) disk
}.

(** Block [n] of the disk, through the cache. *)
Definition view (bs : list buf) (disk : list block) (n : Z) : option block :=
  match pick (hit 1 n) bs (seq 0 NBUF) with
  | Some b => b_data <$> bs !! b
  | None => disk !! Z.to_nat n
  end.

(** A dirty buffer holds block [n]. *)
Definition dirty (bs : list buf) (n : Z) : Prop :=
  exists b r, (b < NBUF)%nat /\ bs !! b = Some r /\ b_dev r = 1 /\ b_blockno r = n /\
    b_flags r = Z.lor B_VALID B_DIRTY.

(** A buffer that [bget] may recycle. *)
Definition room (H : list nat) (bs : list buf) : Prop :=
  exists b r, (b < NBUF)%nat /\ bs !! b = Some r /\ (b ∉ H) /\ b_flags r <> Z.lor B_VALID B_DIRTY.

(** Buffer [b] holds block [n] with contents [d] and flags [f]. *)
Definition has (bs : list buf) (b : nat) (n : Z) (d : block) (f : Z) : Prop :=
  exists r, bs !! b = Some r /\ b_blockno r = n /\ b_data r = d /\ b_flags r = f.

(** ** The driver *)

Lemma iderw_read i p b r d k e :
  calm i p k -> k_bufs k !! b = Some r -> b_lock r = mksl 1 (p_pid p) ->
  b_dev r = 1 -> 0 <= b_blockno r -> k_disk k !! Z.to_nat (b_blockno r) = Some d ->
  b_flags r = 0 ->
  iderw b k e = Ret tt (k <| k_bufs := <[b := r <| b_data := d |> <| b_flags := B_VALID |>]>
    (k_bufs k) |>) e.
Proof.
  intros Hc Hb Hl Hd H0 Hk Hf. rewrite <-(set_bufs_id k) at 1. unfold iderw.
  mcall (holdingsleep_buf i p); [done..|]. cbn [negb]. mcall get_buf_run; [done|].
  rewrite Hf, Hd. change (Z.land 0 (Z.lor B_VALID B_DIRTY) =? B_VALID) with false.
  change (negb (1 =? 1)) with false. cbv match. mrun. rsimpl.
  pose proof (lookup_lt_Some _ _ _ Hk) as Hlt. rewrite Z.geb_leb, (proj2 (Z.leb_gt _ _)) by lia.
  change (negb (Z.land 0 B_DIRTY =? 0)) with false. cbv match. rewrite bind_assoc. mrun. rsimpl.
  rewrite Hk. mrun.
  mcall upd_buf_run; [done|]. rewrite upd_buf_run with (r := r <| b_data := d |>).
  - rewrite list_insert_insert_eq. rsimpl. by rewrite Hf.
  - apply list_lookup_insert_eq. by eapply lookup_lt_Some.
Qed.

Lemma iderw_write i p b r d k e :
  calm i p k -> k_bufs k !! b = Some r -> b_lock r = mksl 1 (p_pid p) ->
  b_dev r = 1 -> 0 <= b_blockno r -> k_disk k !! Z.to_nat (b_blockno r) = Some d ->
  b_flags r = Z.lor B_VALID B_DIRTY ->
  iderw b k e = Ret tt (k <| k_bufs := <[b := r <| b_flags := B_VALID |>]> (k_bufs k) |>
    <| k_disk := <[Z.to_nat (b_blockno r) := b_data r]> (k_disk k) |>
    <| k_writes := k_writes k ++ [(b_blockno r, b_data r)] |>) e.
Proof.
  intros Hc Hb Hl Hd H0 Hk Hf. rewrite <-(set_bufs_id k) at 1. unfold iderw.
  mcall (holdingsleep_buf i p); [done..|]. cbn [negb]. mcall get_buf_run; [done|].
  rewrite Hf, Hd. change (Z.land _ (Z.lor B_VALID B_DIRTY) =? B_VALID) with false.
  change (negb (1 =? 1)) with false. cbv match. mrun. rsimpl.
  pose proof (lookup_lt_Some _ _ _ Hk) as Hlt. rewrite Z.geb_leb, (proj2 (Z.leb_gt _ _)) by lia.
  change (negb (Z.land _ B_DIRTY =? 0)) with true. cbv match. rewrite bind_assoc.
  mcall upd_buf_run; [done|]. unfold modify at 1. mrun. rewrite Hf.
  match goal with |- upd_buf b ?f ?k' e = _ => change k' with
    (k <| k_disk := <[Z.to_nat (b_blockno r) := b_data r]> (k_disk k) |>
       <| k_writes := k_writes k ++ [(b_blockno r, b_data r)] |>
       <| k_bufs := <[b := r <| b_flags := B_VALID |>]> (k_bufs k) |>) end.
  rewrite upd_buf_run with (r := r <| b_flags := B_VALID |>).
  - by rewrite list_insert_insert_eq.
  - apply list_lookup_insert_eq. by eapply lookup_lt_Some.
Qed.

(** memide.c keeps the promise of a disk driver. *)
#[export] Instance memide_driver : DiskDriver iderw.
Proof. split; intros; [by eapply iderw_read|by eapply iderw_write]. Qed.

(** ** The view *)

Section View.
  Context (pid : Z).
  Implicit Types (H : list nat) (bs : list buf) (disk : list block) (b : nat) (r : buf) (n m : Z).

Lemma hit_dev n r : hit 1 n r = true -> b_dev r = 1 /\ b_blockno r = n.
Proof. unfold hit. rewrite andb_true_iff, !Z.eqb_eq. done. Qed.

Lemma bc_lookup H bs disk b : bc pid H bs disk -> (b < NBUF)%nat -> exists r, bs !! b = Some r.
Proof.
  intros Hbc Hb. destruct (bc_lru _ _ _ _ Hbc) as [o Ho].
  apply (lru_buf bs o b Ho). by apply (lru_elem bs o b Ho).
Qed.

Lemma pick_uniq H bs disk o b r n :
  bc pid H bs disk -> (forall x, x ∈ o <-> (x < NBUF)%nat) ->
  (b < NBUF)%nat -> bs !! b = Some r -> b_dev r = 1 -> b_blockno r = n ->
  pick (hit 1 n) bs o = Some b.
Proof.
  intros Hbc Ho Hb Hr Hd Hn. assert (hit 1 n r = true) as Ht.
  { unfold hit. by rewrite Hd, Hn, !Z.eqb_refl. }
  destruct (pick (hit 1 n) bs o) as [c|] eqn:E.
  - apply pick_Some in E as (l1 & l2 & s & El & Hs & [Hsd Hsn]%hit_dev & _). f_equal.
    apply (bc_uniq _ _ _ _ Hbc) with s r; try done; [|congruence].
    apply Ho. rewrite El. set_solver.
  - rewrite pick_None, Forall_forall in E. specialize (E b (proj2 (Ho b) Hb)).
    rewrite Hr in E. simpl in E. congruence.
Qed.

Lemma seq_elem x : x ∈ seq 0 NBUF <-> (x < NBUF)%nat.
Proof. rewrite elem_of_seq. lia. Qed.

Lemma view_hit H bs disk b r n :
  bc pid H bs disk -> (b < NBUF)%nat -> bs !! b = Some r -> b_dev r = 1 -> b_blockno r = n ->
  view bs disk n = Some (b_data r).
Proof.
  intros Hbc Hb Hr Hd Hn. unfold view.
  rewrite (pick_uniq H bs disk (seq 0 NBUF) b r n); [by rewrite Hr|done|apply seq_elem|done..].
Qed.

(** The view of a block that no buffer holds. *)
Definition uncached bs n : Prop :=
  forall b r, (b < NBUF)%nat -> bs !! b = Some r -> b_dev r = 1 -> b_blockno r <> n.

Lemma view_miss bs disk n : uncached bs n -> view bs disk n = disk !! Z.to_nat n.
Proof.
  intros Hu. unfold view. destruct (pick _ _ _) as [b|] eqn:E; [|done].
  apply pick_Some in E as (l1 & l2 & r & El & Hr & [Hd Hn]%hit_dev & _).
  exfalso. apply (Hu b r); try done. apply seq_elem. rewrite El. set_solver.
Qed.

(** Either a buffer holds block [n] or none does. *)
Lemma cached_or bs n :
  (exists b r, (b < NBUF)%nat /\ bs !! b = Some r /\ b_dev r = 1 /\ b_blockno r = n) \/ uncached bs n.
Proof.
  destruct (pick (hit 1 n) bs (seq 0 NBUF)) as [b|] eqn:E.
  - left. apply pick_Some in E as (l1 & l2 & r & El & Hr & [Hd Hn]%hit_dev & _).
    exists b, r. split_and!; try done. apply seq_elem. rewrite El. set_solver.
  - right. intros b r Hb Hr Hd Hn. rewrite pick_None, Forall_forall in E.
    specialize (E b (proj2 (seq_elem b) Hb)). rewrite Hr in E. simpl in E.
    unfold hit in E. rewrite Hd, Hn, !Z.eqb_refl in E. done.
Qed.

Lemma uncached_pick bs o n :
  (forall x, x ∈ o -> (x < NBUF)%nat) -> uncached bs n -> pick (hit 1 n) bs o = None.
Proof.
  intros Ho Hu. apply pick_None, Forall_forall. intros x Hx.
  destruct (bs !! x) as [r|] eqn:Hr; [|done]. simpl. destruct (hit 1 n r) eqn:Hh; [|done].
  apply hit_dev in Hh as [Hd Hn]. exfalso. by apply (Hu x r (Ho x Hx)).
Qed.

(** When every buffer is held or dirty, they hold [NBUF] different blocks. *)
Lemma full_blocks H bs disk :
  bc pid H bs disk ->
  (forall b r, (b < NBUF)%nat -> bs !! b = Some r -> b ∈ H \/ b_flags r = Z.lor B_VALID B_DIRTY) ->
  NoDup (map (fun b => from_option b_blockno 0 (bs !! b)) (seq 0 NBUF)).
Proof.
  intros Hbc Hb. apply NoDup_fmap_2_strong; [|apply NoDup_seq].
  assert (forall b r, (b < NBUF)%nat -> bs !! b = Some r -> b_dev r = 1) as Hdev.
  { intros b r Hb' Hr. pose proof (bc_buf _ _ _ _ Hbc b r Hb' Hr) as Hok.
    destruct (ok_flags _ _ _ _ _ Hok) as [[Hf _]|(_ & Hd & _)]; [|done].
    destruct (Hb b r Hb' Hr) as [HbH|Hf']; [|rewrite Hf in Hf'; done].
    by apply (ok_held _ _ _ _ _ Hok) in HbH as (_ & _ & ?). }
  intros b c Hb1%seq_elem Hc1%seq_elem Ebc.
  destruct (bc_lookup _ _ _ _ Hbc Hb1) as [r Hr], (bc_lookup _ _ _ _ Hbc Hc1) as [s Hs].
  rewrite Hr, Hs in Ebc. apply (bc_uniq _ _ _ _ Hbc) with r s; eauto.
Qed.

(** The blocks of held and of dirty buffers among fewer than [NBUF] leave room. *)
Lemma room_count H bs disk (L : list Z) :
  bc pid H bs disk -> (length L < NBUF)%nat ->
  (forall b r, (b < NBUF)%nat -> bs !! b = Some r ->
     b ∈ H \/ b_flags r = Z.lor B_VALID B_DIRTY -> b_blockno r ∈ L) ->
  room H bs.
Proof.
  intros Hbc HL Hin.
  set (f := fun b => from_option (fun r => bool_decide (b ∉ H) &&
    negb (b_flags r =? Z.lor B_VALID B_DIRTY)) false (bs !! b)).
  destruct (decide (Exists (fun b => f b = true) (seq 0 NBUF))) as [He|Hne].
  - apply Exists_exists in He as (b & Hb%seq_elem & Hr). unfold f in Hr.
    destruct (bs !! b) as [r|] eqn:E; [|done]. exists b, r. simpl in Hr.
    apply andb_true_iff in Hr as [HbH%bool_decide_eq_true Hf%negb_true_iff%Z.eqb_neq]. done.
  - exfalso. apply not_Exists_Forall in Hne; [|apply _]. rewrite Forall_forall in Hne.
    assert (forall b r, (b < NBUF)%nat -> bs !! b = Some r ->
      b ∈ H \/ b_flags r = Z.lor B_VALID B_DIRTY) as Hb.
    { intros b r Hb Hr. specialize (Hne b (proj2 (seq_elem b) Hb)). unfold compose, f in Hne.
      rewrite Hr in Hne. simpl in Hne. destruct (decide (b ∈ H)) as [|HbH]; [by left|].
      right. apply dec_stable. intros Hf. apply Hne.
      rewrite (bool_decide_eq_true_2 _ HbH), (proj2 (Z.eqb_neq _ _) Hf). done. }
    pose proof (full_blocks _ _ _ Hbc Hb) as Hnd.
    apply (NoDup_submseteq _ L) in Hnd.
    + apply submseteq_length in Hnd. rewrite length_map, length_seq in Hnd. lia.
    + intros x (b & -> & Hb1%seq_elem)%list_elem_of_fmap.
      destruct (bc_lookup _ _ _ _ Hbc Hb1) as [r Hr]. rewrite Hr. simpl. eauto.
Qed.
End View.

(** ** The calls *)

Section Calls.
  Context (i : nat) (p : proc).
  Implicit Types (H : list nat) (bs : list buf) (disk : list block) (b : nat) (r : buf) (n m : Z)
    (k : kernel) (e : env).
  Abbreviation pid := (p_pid p).

Lemma lru_insert bs o b r r' :
  lru bs o -> bs !! b = Some r -> b_next r' = b_next r -> b_prev r' = b_prev r ->
  lru (<[b := r']> bs) o.
Proof.
  intros [Hl Hr Hp] Hb Hn Hv. constructor; [by rewrite length_insert| |done].
  eapply ring_ext; [done|..]; intros x _; by apply (links_insert b r bs Hb r').
Qed.

Lemma bc_insert H H' bs disk disk' b r r' :
  bc pid H bs disk -> (b < NBUF)%nat -> bs !! b = Some r ->
  b_next r' = b_next r -> b_prev r' = b_prev r -> buf_ok pid H' disk' b r' ->
  (forall c s, (c < NBUF)%nat -> c <> b -> bs !! c = Some s -> buf_ok pid H' disk' c s) ->
  (b_dev r' = 1 -> forall c s, (c < NBUF)%nat -> c <> b -> bs !! c = Some s ->
     b_dev s = 1 -> b_blockno s <> b_blockno r') ->
  (forall c, c ∈ H' -> (c < NBUF)%nat) -> Forall (fun d => length d = BSIZE) disk' ->
  bc pid H' (<[b := r']> bs) disk'.
Proof.
  intros Hbc Hb Hr Hn Hp Hok Hoth Hu HH Hdisk.
  assert (b < length bs)%nat as Hlt by by eapply lookup_lt_Some.
  constructor; try done.
  - destruct (bc_lru _ _ _ _ Hbc) as [o Ho]. exists o. by eapply lru_insert.
  - intros c d s t Hc Hd Hs Ht Hsd Htd E.
    destruct (decide (c = b)) as [->|Hcb], (decide (d = b)) as [->|Hdb]; [done|..].
    + rewrite list_lookup_insert_eq in Hs by done. injection Hs as <-.
      rewrite list_lookup_insert_ne in Ht by done. exfalso. by eapply (Hu Hsd d t).
    + rewrite list_lookup_insert_eq in Ht by done. injection Ht as <-.
      rewrite list_lookup_insert_ne in Hs by done. exfalso. by eapply (Hu Htd c s).
    + rewrite list_lookup_insert_ne in Hs, Ht by done. by eapply (bc_uniq _ _ _ _ Hbc).
  - intros c s Hc Hs. destruct (decide (c = b)) as [->|Hcb].
    + rewrite list_lookup_insert_eq in Hs by done. by injection Hs as <-.
    + rewrite list_lookup_insert_ne in Hs by done. by apply Hoth.
Qed.

(** The view and the dirty blocks when a buffer is rewritten for its block. *)
Lemma view_rewrite H H' bs disk disk' b r r' m :
  bc pid H bs disk -> bc pid H' (<[b := r']> bs) disk' -> (b < NBUF)%nat -> bs !! b = Some r ->
  b_dev r = 1 -> b_dev r' = 1 -> b_blockno r' = b_blockno r ->
  (m <> b_blockno r -> disk' !! Z.to_nat m = disk !! Z.to_nat m) ->
  view (<[b := r']> bs) disk' m = if decide (m = b_blockno r) then Some (b_data r') else view bs disk m.
Proof.
  intros Hbc Hbc' Hb Hr Hd Hd' Hn Hm.
  assert (b < length bs)%nat as Hlt by by eapply lookup_lt_Some.
  case_decide as Em.
  - apply (view_hit pid H' _ _ b r'); try done; [by apply list_lookup_insert_eq|congruence].
  - destruct (cached_or bs m) as [(c & s & Hc & Hs & Hsd & Hsm)|Hu].
    + assert (c <> b) by (intros ->; congruence).
      rewrite (view_hit pid H bs disk c s m) by done.
      apply (view_hit pid H' _ _ c s); try done. by rewrite list_lookup_insert_ne.
    + rewrite (view_miss bs) by done. rewrite view_miss; [by apply Hm|].
      intros c s Hc Hs Hsd. destruct (decide (c = b)) as [->|Hcb].
      * rewrite list_lookup_insert_eq in Hs by done. injection Hs as <-. congruence.
      * rewrite list_lookup_insert_ne in Hs by done. by apply (Hu c s).
Qed.

Lemma dirty_rewrite H bs disk b r r' m :
  bc pid H bs disk -> (b < NBUF)%nat -> bs !! b = Some r ->
  b_dev r = 1 -> b_dev r' = 1 -> b_blockno r' = b_blockno r ->
  dirty (<[b := r']> bs) m <->
  (if decide (m = b_blockno r) then b_flags r' = Z.lor B_VALID B_DIRTY else dirty bs m).
Proof.
  intros Hbc Hb Hr Hd Hd' Hn. assert (b < length bs)%nat as Hlt by by eapply lookup_lt_Some.
  case_decide as Em.
  - split.
    + intros (c & s & Hc & Hs & Hsd & Hsm & Hf). destruct (decide (c = b)) as [->|Hcb].
      * rewrite list_lookup_insert_eq in Hs by done. congruence.
      * rewrite list_lookup_insert_ne in Hs by done. exfalso. apply Hcb.
        eapply (bc_uniq _ _ _ _ Hbc); try done. congruence.
    + intros Hf. exists b, r'. split_and!; try done; [by apply list_lookup_insert_eq|congruence].
  - split; intros (c & s & Hc & Hs & Hsd & Hsm & Hf).
    + destruct (decide (c = b)) as [->|Hcb].
      * rewrite list_lookup_insert_eq in Hs by done. congruence.
      * rewrite list_lookup_insert_ne in Hs by done. by exists c, s.
    + exists c, s. rewrite list_lookup_insert_ne by congruence. done.
Qed.

(** What [bread] of block [n] gives: a buffer that was free is held and has
    the block; the view and the dirty blocks do not change. *)
Record bread_post (H : list nat) (bs : list buf) (disk : list block) (n : Z) (b : nat) (r' : buf)
    : Prop := {
  br_new : b ∉ H;
  br_lt : (b < NBUF)%nat;
  br_bc : bc pid (b :: H) (<[b := r']> bs) disk;
  br_n : b_blockno r' = n;
  br_data : view bs disk n = Some (b_data r');
  br_view : forall m, view (<[b := r']> bs) disk m = view bs disk m;
  br_dirty : forall m, dirty (<[b := r']> bs) m <-> dirty bs m
}.

Lemma buf_ok_held H disk c s b :
  buf_ok pid H disk c s -> c <> b -> buf_ok pid (b :: H) disk c s.
Proof.
  intros [Hf Hd Hh Hfr] Hcb. constructor; try done.
  - intros [->|?]%elem_of_cons; [done|by apply Hh].
  - intros [_ ?]%not_elem_of_cons. by apply Hfr.
Qed.

Lemma held_cons H bs disk b :
  bc pid H bs disk -> (b < NBUF)%nat -> forall c, c ∈ b :: H -> (c < NBUF)%nat.
Proof. intros Hbc Hb c [->|Hc]%elem_of_cons; [done|by apply (bc_held _ _ _ _ Hbc)]. Qed.

(** Reading a block that a free buffer holds. *)
Lemma bread_cached H n bs b r k e :
  calm i p k -> bc pid H bs (k_disk k) -> b ∉ H -> (b < NBUF)%nat -> bs !! b = Some r ->
  b_dev r = 1 -> b_blockno r = n ->
  bread 1 n (k <| k_bufs := bs |>) e = Ret b (k <| k_bufs := <[b := taken pid r]> bs |>) e /\
  bread_post H bs (k_disk k) n b (taken pid r).
Proof.
  intros Hc Hbc HbH Hb Hr Hd Hn. destruct (bc_lru _ _ _ _ Hbc) as [o Ho].
  pose proof (bc_buf _ _ _ _ Hbc b r Hb Hr) as Hok.
  destruct (ok_free _ _ _ _ _ Hok HbH) as (Hl & Hrc & Hcl).
  destruct (ok_flags _ _ _ _ _ Hok) as [[Hf Hd0]|(Hf & _ & Hrange)]; [congruence|].
  assert (bc pid (b :: H) (<[b := taken pid r]> bs) (k_disk k)) as Hbc'.
  { eapply bc_insert; try done.
    - constructor; unfold taken, referred; rsimpl.
      + by right.
      + apply Hok.
      + intros _. rewrite Hrc. split_and!; try done. by destruct Hf as [-> | ->].
      + intros []%not_elem_of_cons. done.
    - intros c s Hc' Hcb Hs. apply buf_ok_held; [|done]. by apply (bc_buf _ _ _ _ Hbc).
    - unfold taken, referred. rsimpl. intros _ c s Hc' Hcb Hs Hsd E. apply Hcb.
      by apply (bc_uniq _ _ _ _ Hbc) with s r.
    - by eapply held_cons.
    - apply Hbc. }
  split.
  - unfold bread. mcall (bget_hit i p 1 n bs o b).
    { done. } { done. }
    { apply (pick_uniq pid H bs (k_disk k) o b r n); try done. intros x. by apply lru_elem with bs. }
    { intros s Hs. rewrite Hr in Hs. by injection Hs as <-. }
    rewrite (list_alter_lookup _ _ _ _ Hr). mcall get_buf_run.
    { apply list_lookup_insert_eq. by eapply lookup_lt_Some. }
    unfold taken, referred. rsimpl. by destruct Hf as [-> | ->].
  - constructor; try done.
    + by apply (view_hit pid H bs _ b r).
    + intros m. rewrite (view_rewrite H (b :: H) bs (k_disk k) (k_disk k) b r) by done.
      case_decide; [|done]. symmetry. by apply (view_hit pid H bs _ b r).
    + intros m. rewrite (dirty_rewrite H bs (k_disk k) b r) by done. case_decide as Em; [|done].
      subst m. unfold taken, referred. rsimpl. split.
      * intros Hf6. by exists b, r.
      * intros (c & s & Hc' & Hs & Hsd & Hsm & Hsf).
        assert (c = b) as -> by (eapply (bc_uniq _ _ _ _ Hbc); try done; congruence). congruence.
Qed.

(** The buffer that [bget] recycles when there is room. *)
Lemma pick_idle H bs disk o :
  bc pid H bs disk -> lru bs o -> room H bs ->
  exists b r, pick idle bs (rev o) = Some b /\ (b < NBUF)%nat /\ (b ∉ H) /\ bs !! b = Some r /\
    b_flags r <> Z.lor B_VALID B_DIRTY.
Proof.
  intros Hbc Ho (c & s & Hc & Hs & HcH & Hsf).
  assert (forall x, x ∈ rev o <-> (x < NBUF)%nat) as Hx.
  { intros x. rewrite <-Permutation_rev. by apply lru_elem with bs. }
  destruct (pick idle bs (rev o)) as [b|] eqn:E.
  - apply pick_Some in E as (l1 & l2 & r & El & Hr & Hi & _).
    assert (b < NBUF)%nat as Hb by (apply Hx; rewrite El; set_solver).
    unfold idle in Hi. apply andb_true_iff in Hi as [Hrc%Z.eqb_eq Hd%Z.eqb_eq].
    exists b, r. split_and!; try done.
    + intros HbH. apply (ok_held _ _ _ _ _ (bc_buf _ _ _ _ Hbc b r Hb Hr)) in HbH as (_ & ? & _). lia.
    + intros Hf. rewrite Hf in Hd. done.
  - exfalso. rewrite pick_None, Forall_forall in E. specialize (E c (proj2 (Hx c) Hc)).
    rewrite Hs in E. simpl in E. pose proof (bc_buf _ _ _ _ Hbc c s Hc Hs) as Hok.
    destruct (ok_free _ _ _ _ _ Hok HcH) as (_ & Hrc & _). unfold idle in E. rewrite Hrc in E.
    destruct (ok_flags _ _ _ _ _ Hok) as [[Hf _]|([Hf|Hf] & _)]; rewrite Hf in E; done.
Qed.

(** Recycling a free clean buffer does not change the view. *)
Lemma view_recycle H bs disk b r r' n d m :
  bc pid H bs disk -> bc pid (b :: H) (<[b := r']> bs) disk -> (b < NBUF)%nat -> b ∉ H ->
  bs !! b = Some r -> b_flags r <> Z.lor B_VALID B_DIRTY -> uncached bs n ->
  disk !! Z.to_nat n = Some d -> b_dev r' = 1 -> b_blockno r' = n -> b_data r' = d ->
  view (<[b := r']> bs) disk m = view bs disk m.
Proof.
  intros Hbc Hbc' Hb HbH Hr Hf Hu Hd Hd' Hn' Hdata.
  assert (b < length bs)%nat as Hlt by by eapply lookup_lt_Some.
  destruct (decide (m = n)) as [->|Hmn].
  { rewrite (view_hit pid (b :: H) _ _ b r'); try done; [|by apply list_lookup_insert_eq].
    rewrite (view_miss bs) by done. congruence. }
  destruct (cached_or bs m) as [(c & s & Hc & Hs & Hsd & Hsm)|Hum].
  - rewrite (view_hit pid H bs disk c s m) by done. destruct (decide (c = b)) as [->|Hcb].
    + rewrite Hr in Hs. injection Hs as <-. pose proof (bc_buf _ _ _ _ Hbc b r Hb Hr) as Hok.
      destruct (ok_flags _ _ _ _ _ Hok) as [[? ?]|([Hf2|?] & _)]; [congruence| |done].
      destruct (ok_free _ _ _ _ _ Hok HbH) as (_ & _ & Hcl). rewrite <-(Hcl Hf2), Hsm.
      apply view_miss. intros c t Hc' Ht Htd Htm. destruct (decide (c = b)) as [->|Hcb].
      * rewrite list_lookup_insert_eq in Ht by done. congruence.
      * rewrite list_lookup_insert_ne in Ht by done. apply Hcb.
        by apply (bc_uniq _ _ _ _ Hbc) with t r; try done; congruence.
    + apply (view_hit pid (b :: H) _ _ c s); try done. by rewrite list_lookup_insert_ne.
  - rewrite (view_miss bs) by done. apply view_miss. intros c t Hc' Ht Htd Htm.
    destruct (decide (c = b)) as [->|Hcb].
    + rewrite list_lookup_insert_eq in Ht by done. congruence.
    + rewrite list_lookup_insert_ne in Ht by done. by apply (Hum c t).
Qed.

Lemma dirty_recycle bs b r r' m :
  (b < NBUF)%nat -> bs !! b = Some r -> b_flags r <> Z.lor B_VALID B_DIRTY ->
  b_flags r' <> Z.lor B_VALID B_DIRTY -> dirty (<[b := r']> bs) m <-> dirty bs m.
Proof.
  intros Hb Hr Hf Hf'. assert (b < length bs)%nat as Hlt by by eapply lookup_lt_Some.
  split; intros (c & s & Hc & Hs & Hsd & Hsm & Hsf); exists c, s.
  - destruct (decide (c = b)) as [->|Hcb].
    + rewrite list_lookup_insert_eq in Hs by done. congruence.
    + by rewrite list_lookup_insert_ne in Hs.
  - rewrite list_lookup_insert_ne; [done|congruence].
Qed.

(** Reading a block that no buffer holds. *)
Lemma bread_uncached H n bs k e :
  calm i p k -> bc pid H bs (k_disk k) -> 0 <= n < Z.of_nat (length (k_disk k)) ->
  uncached bs n -> room H bs ->
  exists b r', bread 1 n (k <| k_bufs := bs |>) e = Ret b (k <| k_bufs := <[b := r']> bs |>) e /\
  bread_post H bs (k_disk k) n b r'.
Proof.
  intros Hc Hbc Hn Hu Hroom. destruct (bc_lru _ _ _ _ Hbc) as [o Ho].
  destruct (pick_idle _ _ _ _ Hbc Ho Hroom) as (b & r & Hp & Hb & HbH & Hr & Hf).
  destruct (lookup_lt_is_Some_2 (k_disk k) (Z.to_nat n)) as [d Hd]; [lia|].
  assert (b < length bs)%nat as Hlt by by eapply lookup_lt_Some.
  set (r1 := recycled pid 1 n r). set (r' := r1 <| b_data := d |> <| b_flags := B_VALID |>).
  assert (bc pid (b :: H) (<[b := r']> bs) (k_disk k)) as Hbc'.
  { eapply bc_insert; try done.
    - constructor; unfold r', r1, recycled; rsimpl.
      + right. split; [by left|done].
      + by apply (proj1 (Forall_lookup _ _) (bc_disk _ _ _ _ Hbc) _ _ Hd).
      + done.
      + intros []%not_elem_of_cons. done.
    - intros c s Hc' Hcb Hs. apply buf_ok_held; [|done]. by apply (bc_buf _ _ _ _ Hbc).
    - intros _ c s Hc' _ Hs Hsd. by apply (Hu c s).
    - by eapply held_cons.
    - apply Hbc. }
  exists b, r'. split.
  - unfold bread. mcall (bget_recycle i p 1 n bs o b).
    { done. } { done. }
    { apply uncached_pick; [|done]. intros x. by apply lru_elem with bs. }
    { done. }
    { intros s Hs. rewrite Hr in Hs. injection Hs as <-.
      apply (ok_free _ _ _ _ _ (bc_buf _ _ _ _ Hbc b r Hb Hr) HbH). }
    rewrite (list_alter_lookup _ _ _ _ Hr). fold r1.
    assert (<[b := r1]> bs !! b = Some r1) as Hr1 by by apply list_lookup_insert_eq.
    mcall get_buf_run; [done|]. change (Z.land (b_flags r1) B_VALID =? 0) with true. cbv match.
    mcall (proj1 (iderw_law i p b r1 d (k <| k_bufs := <[b:=r1]> bs |>) e
      (calm_bufs i p k _ Hc) Hr1 eq_refl eq_refl (proj1 Hn) Hd)); [done|].
    rewrite mret_run. rsimpl. by rewrite list_insert_insert_eq.
  - constructor; try done.
    + by rewrite view_miss.
    + intros m. by apply (view_recycle H bs (k_disk k) b r r' n d m).
    + intros m. by apply (dirty_recycle bs b r r').
Qed.

(** [bread] of a block that its caller does not hold yet. *)
Lemma bread_run H n bs k e :
  calm i p k -> bc pid H bs (k_disk k) -> 0 <= n < Z.of_nat (length (k_disk k)) ->
  (forall b r, b ∈ H -> bs !! b = Some r -> b_blockno r <> n) -> dirty bs n \/ room H bs ->
  exists b r', bread 1 n (k <| k_bufs := bs |>) e = Ret b (k <| k_bufs := <[b := r']> bs |>) e /\
  bread_post H bs (k_disk k) n b r'.
Proof.
  intros Hc Hbc Hn Hnh Hor.
  destruct (cached_or bs n) as [(b & r & Hb & Hr & Hd & Hbn)|Hu].
  - exists b, (taken pid r). apply bread_cached; try done. intros HbH. by apply (Hnh b r).
  - apply bread_uncached; try done. destruct Hor as [(b & r & Hb & Hr & Hd & Hbn & _)|]; [|done].
    exfalso. by apply (Hu b r).
Qed.

(** What is known of a held buffer. *)
Lemma bc_mine H bs disk b r :
  bc pid H bs disk -> b ∈ H -> bs !! b = Some r ->
  (b < NBUF)%nat /\ b_lock r = mksl 1 pid /\ b_refcnt r = 1 /\ b_dev r = 1 /\
  0 <= b_blockno r < Z.of_nat (length disk) /\ length (b_data r) = BSIZE /\
  (b_flags r = B_VALID \/ b_flags r = Z.lor B_VALID B_DIRTY).
Proof.
  intros Hbc HbH Hr. pose proof (bc_held _ _ _ _ Hbc b HbH) as Hb.
  pose proof (bc_buf _ _ _ _ Hbc b r Hb Hr) as Hok.
  destruct (ok_held _ _ _ _ _ Hok HbH) as (Hl & Hrc & Hf0).
  destruct (ok_flags _ _ _ _ _ Hok) as [[? _]|(Hf & Hd & Hn)]; [done|].
  split_and!; try done; try apply Hn. apply Hok.
Qed.

(** Changing the contents and the flags of a held buffer. *)
Lemma held_update H bs disk b r d f :
  bc pid H bs disk -> b ∈ H -> bs !! b = Some r -> length d = BSIZE ->
  f = B_VALID \/ f = Z.lor B_VALID B_DIRTY ->
  let bs' := <[b := r <| b_data := d |> <| b_flags := f |>]> bs in
  bc pid H bs' disk /\
  (forall m, view bs' disk m = if decide (m = b_blockno r) then Some d else view bs disk m) /\
  (forall m, dirty bs' m <-> if decide (m = b_blockno r) then f = Z.lor B_VALID B_DIRTY else dirty bs m).
Proof.
  intros Hbc HbH Hr Hd Hf bs'.
  destruct (bc_mine _ _ _ _ _ Hbc HbH Hr) as (Hb & Hl & Hrc & Hdev & Hn & _ & _).
  assert (bc pid H bs' disk) as Hbc'.
  { eapply bc_insert; try done.
    - constructor; rsimpl; try done; [by right|]. intros _. split_and!; try done.
      by destruct Hf as [-> | ->].
    - intros c s Hc Hcb Hs. by apply (bc_buf _ _ _ _ Hbc).
    - rsimpl. intros _ c s Hc Hcb Hs Hsd E. apply Hcb. by apply (bc_uniq _ _ _ _ Hbc) with s r.
    - apply Hbc.
    - apply Hbc. }
  split_and!; [done|..]; intros m.
  - unfold bs'. by rewrite (view_rewrite H H bs disk disk b r) by done.
  - unfold bs'. by rewrite (dirty_rewrite H bs disk b r) by done.
Qed.

(** Writing a held buffer to the disk. *)
Lemma bwrite_run H bs b r k e :
  calm i p k -> bc pid H bs (k_disk k) -> b ∈ H -> bs !! b = Some r ->
  let disk' := <[Z.to_nat (b_blockno r) := b_data r]> (k_disk k) in
  let bs' := <[b := r <| b_flags := B_VALID |>]> bs in
  bwrite b (k <| k_bufs := bs |>) e =
    Ret tt (k <| k_disk := disk' |> <| k_writes := k_writes k ++ [(b_blockno r, b_data r)] |>
              <| k_bufs := bs' |>) e /\
  bc pid H bs' disk' /\
  (forall m, 0 <= m -> view bs' disk' m = view bs (k_disk k) m) /\
  (forall m, dirty bs' m <-> m <> b_blockno r /\ dirty bs m).
Proof.
  intros Hc Hbc HbH Hr disk' bs'.
  destruct (bc_mine _ _ _ _ _ Hbc HbH Hr) as (Hb & Hl & Hrc & Hdev & Hn & Hdl & Hf).
  assert (b < length bs)%nat as Hlt by by eapply lookup_lt_Some.
  assert (bc pid H bs' disk') as Hbc'.
  { eapply bc_insert; try done.
    - constructor; rsimpl; try done. right. unfold disk'. rewrite length_insert. split; [by left|done].
    - intros c s Hc' Hcb Hs. destruct (bc_buf _ _ _ _ Hbc c s Hc' Hs) as [Hsf Hsd Hsh Hsr].
      unfold disk'. constructor; rewrite ?length_insert; try done. intros HcH.
      destruct (Hsr HcH) as (? & ? & Hcl). split_and!; try done. intros Hf2.
      rewrite list_lookup_insert_ne; [by apply Hcl|].
      destruct Hsf as [[Hf0 _]|(_ & Hsdev & Hsn)]; [by rewrite Hf2 in Hf0|]. intros E. apply Hcb.
      apply (bc_uniq _ _ _ _ Hbc) with s r; try done. lia.
    - rsimpl. intros _ c s Hc' Hcb Hs Hsd E. apply Hcb. by apply (bc_uniq _ _ _ _ Hbc) with s r.
    - apply Hbc.
    - apply Forall_insert; [apply Hbc|done]. }
  split_and!; [|done|..].
  - unfold bwrite. mcall (holdingsleep_buf i p); [done..|]. cbn [negb].
    mcall upd_buf_run; [done|].
    set (r1 := r <| b_flags := Z.lor (b_flags r) B_DIRTY |>).
    destruct (lookup_lt_is_Some_2 (k_disk k) (Z.to_nat (b_blockno r))) as [d Hd]; [lia|].
    assert (<[b := r1]> bs !! b = Some r1) as Hr1 by by apply list_lookup_insert_eq.
    rewrite (proj2 (iderw_law i p b r1 d (k <| k_bufs := <[b:=r1]> bs |>) e
      (calm_bufs i p k _ Hc) Hr1 Hl Hdev (proj1 Hn) Hd)).
    + rsimpl. by rewrite list_insert_insert_eq.
    + unfold r1. rsimpl. by destruct Hf as [-> | ->].
  - intros m Hm. unfold bs', disk'.
    rewrite (view_rewrite H H bs (k_disk k) disk' b r) by
      (try done; intros; unfold disk'; rewrite list_lookup_insert_ne by lia; done).
    case_decide as Em; [|done]. rsimpl. by rewrite (view_hit pid H bs _ b r).
  - intros m. unfold bs'. rewrite (dirty_rewrite H bs (k_disk k) b r) by done.
    case_decide as Em; rsimpl; [|by intuition]. split; [done|]. intros [? _]. done.
Qed.

Lemma core_lookup bs bs' b r :
  map core bs' = map core bs -> bs !! b = Some r -> exists r', bs' !! b = Some r' /\ core r' = core r.
Proof.
  intros E Hr. assert (map core bs' !! b = Some (core r)) as Hb.
  { by rewrite E, list_lookup_fmap, Hr. }
  apply list_lookup_fmap_Some in Hb as (r' & -> & ->). eauto.
Qed.

Lemma bc_core H bs bs' disk :
  bc pid H bs disk -> map core bs' = map core bs -> (exists o, lru bs' o) -> bc pid H bs' disk.
Proof.
  intros Hbc E Ho. symmetry in E. constructor; [done|apply Hbc| | |apply Hbc].
  - intros b c r s Hb Hc Hr Hs Hrd Hsd Hn.
    destruct (core_lookup _ _ _ _ E Hr) as (r' & Hr' & Er), (core_lookup _ _ _ _ E Hs) as (s' & Hs' & Es).
    apply core_eq in Er as (_ & ? & ? & _), Es as (_ & ? & ? & _).
    apply (bc_uniq _ _ _ _ Hbc) with r' s'; congruence.
  - intros b r Hb Hr. destruct (core_lookup _ _ _ _ E Hr) as (r' & Hr' & Er).
    destruct (bc_buf _ _ _ _ Hbc b r' Hb Hr') as [Hf Hd Hh Hfr].
    apply core_eq in Er as (Ef & Ed & En & El & Ec & Edt).
    rewrite Ef, Ed, En in Hf. rewrite Edt in Hd, Hfr. rewrite El, Ec, Ef in Hh, Hfr. rewrite En in Hfr.
    by constructor.
Qed.

Lemma pick_core t bs bs' o :
  map core bs' = map core bs -> (forall r r', core r' = core r -> t r' = t r) ->
  pick t bs' o = pick t bs o.
Proof.
  intros E Ht. induction o as [|x o IH]; [done|]. simpl. rewrite IH.
  replace (from_option t false (bs' !! x)) with (from_option t false (bs !! x)); [done|].
  destruct (bs !! x) as [r|] eqn:Hx.
  - destruct (core_lookup _ _ _ _ E Hx) as (r' & -> & Er). simpl. symmetry. by apply Ht.
  - apply lookup_ge_None in Hx. assert (length bs' = length bs) as El.
    { apply (f_equal length) in E. by rewrite !length_map in E. }
    rewrite (lookup_ge_None_2 bs') by lia. done.
Qed.

Lemma view_core bs bs' disk m : map core bs' = map core bs -> view bs' disk m = view bs disk m.
Proof.
  intros E. unfold view. rewrite (pick_core _ _ _ _ E).
  - destruct (pick (hit 1 m) bs (seq 0 NBUF)) as [b|] eqn:Ep; [|done].
    apply pick_Some in Ep as (_ & _ & r & _ & Hr & _). rewrite Hr.
    destruct (core_lookup _ _ _ _ E Hr) as (r' & -> & Er). simpl. f_equal. by apply core_eq.
  - intros r r' (_ & Hd & Hn & _)%core_eq. unfold hit. by rewrite Hd, Hn.
Qed.

Lemma dirty_core bs bs' m : map core bs' = map core bs -> dirty bs m -> dirty bs' m.
Proof.
  intros E (b & r & Hb & Hr & Hd & Hm & Hf).
  destruct (core_lookup _ _ _ _ E Hr) as (r' & Hr' & Er). apply core_eq in Er as (Ef & Ed & En & _).
  exists b, r'. split_and!; try done; congruence.
Qed.

Lemma has_core bs bs' b n d f : map core bs' = map core bs -> has bs b n d f -> has bs' b n d f.
Proof.
  intros E (r & Hr & Hn & Hd & Hf). destruct (core_lookup _ _ _ _ E Hr) as (r' & Hr' & Er).
  apply core_eq in Er as (Ef & _ & En & _ & _ & Ed). exists r'. split_and!; try done; congruence.
Qed.

(** Releasing a held buffer whose contents are on the disk or marked dirty. *)
Lemma brelse_spec H bs b r k e :
  calm i p k -> bc pid (b :: H) bs (k_disk k) -> b ∉ H -> unwaited (Ch_bufsl b) k ->
  bs !! b = Some r ->
  b_flags r = Z.lor B_VALID B_DIRTY \/ k_disk k !! Z.to_nat (b_blockno r) = Some (b_data r) ->
  exists bs', brelse b (k <| k_bufs := bs |>) e = Ret tt (k <| k_bufs := bs' |>) e /\
    bc pid H bs' (k_disk k) /\
    (forall m, view bs' (k_disk k) m = view bs (k_disk k) m) /\
    (forall m, dirty bs' m <-> dirty bs m) /\
    (forall c n d f, has bs c n d f -> has bs' c n d f).
Proof.
  intros Hc Hbc HbH Hw Hr Hor. pose proof (list_elem_of_here b H) as Hin.
  destruct (bc_mine _ _ _ _ _ Hbc Hin Hr) as (Hb & Hl & Hrc & Hdev & Hn & Hdl & Hf).
  destruct (bc_lru _ _ _ _ Hbc) as [o Ho].
  destruct (list_elem_of_split o b) as (o1 & o2 & ->); [by apply (lru_elem bs)|].
  destruct (brelse_run i p b r bs o1 o2 k e) as (bs' & Hrun & Ho' & Hcore); try done.
  rewrite (list_alter_lookup _ _ _ _ Hr) in Hcore. exists bs'. split; [done|].
  assert (bc pid H (<[b := released r]> bs) (k_disk k)) as Hbc1.
  { eapply bc_insert; try done.
    - constructor; unfold released; rsimpl; try done; [by right|]. intros _. split_and!; try done.
      intros Hf2. destruct Hor as [Hf6|]; [rewrite Hf2 in Hf6|]; done.
    - intros c s Hc' Hcb Hs. destruct (bc_buf _ _ _ _ Hbc c s Hc' Hs) as [Hsf Hsd Hsh Hsr].
      constructor; try done.
      + intros HcH. apply Hsh. by right.
      + intros HcH. apply Hsr. by apply not_elem_of_cons.
    - unfold released. rsimpl. intros _ c s Hc' Hcb Hs Hsd E. apply Hcb.
      by apply (bc_uniq _ _ _ _ Hbc) with s r.
    - intros c HcH. apply (bc_held _ _ _ _ Hbc). by right.
    - apply Hbc. }
  split_and!.
  - by eapply bc_core; [done..|eauto].
  - intros m. rewrite (view_core _ _ _ m Hcore), (view_rewrite (b :: H) H bs _ (k_disk k) b r) by done.
    case_decide as Em; [|done]. symmetry. by apply (view_hit pid (b :: H) bs _ b r).
  - intros m. transitivity (dirty (<[b := released r]> bs) m).
    + split; by apply dirty_core.
    + rewrite (dirty_rewrite (b :: H) bs (k_disk k) b r) by done.
      case_decide as Em; [|done]. subst m. split; [intros; by exists b, r|].
      intros (c & s & Hc' & Hs & Hsd & Hsm & Hsf).
      assert (c = b) as -> by (eapply (bc_uniq _ _ _ _ Hbc); done).
      unfold released. rsimpl. congruence.
  - intros c n d f Hhas. eapply has_core; [done|]. destruct Hhas as (s & Hs & ? & ? & ?).
    destruct (decide (c = b)) as [->|Hcb].
    + rewrite Hr in Hs. injection Hs as <-. exists (released r).
      rewrite list_lookup_insert_eq by (by eapply lookup_lt_Some). done.
    + exists s. by rewrite list_lookup_insert_ne.
Qed.
End Calls.
