(* ===== verification/Bytes.v ===== *)
(** Typed access to the bytes of a block: the casts of [b->data] to pointers
    to structures, on a little-endian machine. *)

From S2P Require Import Prelude.

Definition byte_at (d : list Z) (o : nat) : Z := u8 (default 0 (d !! o)).

Definition get16 (d : list Z) (o : nat) : Z := byte_at d o + 2 ^ 8 * byte_at d (o + 1).
Definition get32 (d : list Z) (o : nat) : Z :=
  byte_at d o + 2 ^ 8 * byte_at d (o + 1) + 2 ^ 16 * byte_at d (o + 2) + 2 ^ 24 * byte_at d (o + 3).

Definition put16 (o : nat) (v : Z) (d : list Z) : list Z :=
  <[(o + 1)%nat := u8 (Z.shiftr v 8)]> (<[o := u8 v]> d).
Definition put32 (o : nat) (v : Z) (d : list Z) : list Z :=
  <[(o + 3)%nat := u8 (Z.shiftr v 24)]> (<[(o + 2)%nat := u8 (Z.shiftr v 16)]>
    (<[(o + 1)%nat := u8 (Z.shiftr v 8)]> (<[o := u8 v]> d))).

Section Bytes.
  Implicit Types (d : list Z) (o : nat) (v : Z).

Lemma length_put16 o v d : length (put16 o v d) = length d.
Proof. unfold put16. by rewrite !length_insert. Qed.
Lemma length_put32 o v d : length (put32 o v d) = length d.
Proof. unfold put32. by rewrite !length_insert. Qed.

Lemma byte_at_insert o v d x :
  (o < length d)%nat -> byte_at (<[o := v]> d) x = if decide (x = o) then u8 v else byte_at d x.
Proof.
  intros Ho. unfold byte_at. case_decide as E.
  - subst x. by rewrite list_lookup_insert_eq.
  - by rewrite list_lookup_insert_ne.
Qed.

Lemma u8_u8 z : u8 (u8 z) = u8 z.
Proof. unfold u8. by rewrite Z.mod_mod. Qed.

Lemma byte_at_put32 o v d x :
  (o + 3 < length d)%nat ->
  byte_at (put32 o v d) x =
    if decide (x = o) then u8 v else if decide (x = o + 1)%nat then u8 (Z.shiftr v 8)
    else if decide (x = o + 2)%nat then u8 (Z.shiftr v 16)
    else if decide (x = o + 3)%nat then u8 (Z.shiftr v 24) else byte_at d x.
Proof.
  intros Ho. unfold put32. rewrite !byte_at_insert by (rewrite ?length_insert; lia).
  rewrite !u8_u8. repeat case_decide; (done || lia).
Qed.

Lemma byte_at_put16 o v d x :
  (o + 1 < length d)%nat ->
  byte_at (put16 o v d) x =
    if decide (x = o) then u8 v else if decide (x = o + 1)%nat then u8 (Z.shiftr v 8)
    else byte_at d x.
Proof.
  intros Ho. unfold put16. rewrite !byte_at_insert by (rewrite ?length_insert; lia).
  rewrite !u8_u8. repeat case_decide; (done || lia).
Qed.

(** The bytes of a word give it back. *)
Lemma bytes_u32 v :
  u8 v + 2 ^ 8 * u8 (Z.shiftr v 8) + 2 ^ 16 * u8 (Z.shiftr v 16) + 2 ^ 24 * u8 (Z.shiftr v 24) = u32 v.
Proof.
  unfold u8, u32. rewrite !Z.shiftr_div_pow2 by lia.
  change (2 ^ 8) with 256. change (2 ^ 16) with (256 * 256). change (2 ^ 24) with (256 * 256 * 256).
  change (2 ^ 32) with (256 * 256 * 256 * 256). Z.div_mod_to_equations. lia.
Qed.

Lemma bytes_u16 v : u8 v + 2 ^ 8 * u8 (Z.shiftr v 8) = u16 v.
Proof.
  unfold u8, u16. rewrite !Z.shiftr_div_pow2 by lia.
  change (2 ^ 8) with 256. change (2 ^ 16) with (256 * 256). Z.div_mod_to_equations. lia.
Qed.

Ltac bytes := repeat first [rewrite decide_True by lia | rewrite decide_False by lia].

Lemma get32_put32 o v d : (o + 3 < length d)%nat -> get32 (put32 o v d) o = u32 v.
Proof. intros Ho. unfold get32. rewrite !byte_at_put32 by done. bytes. apply bytes_u32. Qed.

Lemma get32_put32_ne o v d x :
  (o + 3 < length d)%nat -> (x + 4 <= o \/ o + 4 <= x)%nat -> get32 (put32 o v d) x = get32 d x.
Proof. intros Ho Hx. unfold get32. rewrite !byte_at_put32 by done. by bytes. Qed.

Lemma get16_put32_ne o v d x :
  (o + 3 < length d)%nat -> (x + 2 <= o \/ o + 4 <= x)%nat -> get16 (put32 o v d) x = get16 d x.
Proof. intros Ho Hx. unfold get16. rewrite !byte_at_put32 by done. by bytes. Qed.

Lemma get16_put16 o v d : (o + 1 < length d)%nat -> get16 (put16 o v d) o = u16 v.
Proof. intros Ho. unfold get16. rewrite !byte_at_put16 by done. bytes. apply bytes_u16. Qed.

Lemma get16_put16_ne o v d x :
  (o + 1 < length d)%nat -> (x + 2 <= o \/ o + 2 <= x)%nat -> get16 (put16 o v d) x = get16 d x.
Proof. intros Ho Hx. unfold get16. rewrite !byte_at_put16 by done. by bytes. Qed.

Lemma get32_put16_ne o v d x :
  (o + 1 < length d)%nat -> (x + 4 <= o \/ o + 2 <= x)%nat -> get32 (put16 o v d) x = get32 d x.
Proof. intros Ho Hx. unfold get32. rewrite !byte_at_put16 by done. by bytes. Qed.

Lemma get32_range d o : 0 <= get32 d o < 2 ^ 32.
Proof.
  unfold get32, byte_at. pose proof (u8_range (default 0 (d !! o))).
  pose proof (u8_range (default 0 (d !! (o + 1)%nat))). pose proof (u8_range (default 0 (d !! (o + 2)%nat))).
  pose proof (u8_range (default 0 (d !! (o + 3)%nat))). lia.
Qed.
End Bytes.
