(* ===== verification/Disk.v ===== *)
(** The disk behind the cache as one abstract state (bio.c): what the blocks
    hold ([V]), which of them are pinned dirty in the cache ([D]), which
    buffers are held for which blocks ([H]) and the writes the disk has
    received ([W]).  The lemmas give each call of bio.c as a step on that
    state. *)

From S2P Require Import Prelude Types Spinlock Proc Sleeplock Ring Bio Cache.

(** The disk after a sequence of block writes. *)
Fixpoint wr (ws : list (Z * block)) (disk : list block) : list block :=
  match ws with
  | [] => disk
  | (n, d) :: ws => wr ws (<[Z.to_nat n := d]> disk)
  end.

(** The kernel after the disk has received [ws]. *)
Definition kw (k : kernel) (ws : list (Z * block)) : kernel :=
  k <| k_disk := wr ws (k_disk k) |> <| k_writes := k_writes k ++ ws |>.

(** A function on block numbers changed at [n]. *)
Definition fupd {A} (n : Z) (v : A) (V : Z -> A) : Z -> A := fun m => if m =? n then v else V m.

Lemma fupd_eq {A} n (v : A) V : fupd n v V n = v.
Proof. unfold fupd. by rewrite Z.eqb_refl. Qed.
Lemma fupd_ne {A} n (v : A) V m : m <> n -> fupd n v V m = V m.
Proof. intros. unfold fupd. by rewrite (proj2 (Z.eqb_neq _ _)). Qed.

Lemma wr_app ws ws' disk : wr (ws ++ ws') disk = wr ws' (wr ws disk).
Proof. revert disk. induction ws as [|[n d] ws IH]; intros disk; simpl; [done|apply IH]. Qed.

Lemma length_wr ws disk : length (wr ws disk) = length disk.
Proof.
  revert disk. induction ws as [|[n d] ws IH]; intros disk; simpl; [done|].
  rewrite IH. apply length_insert.
Qed.

Lemma wr_other ws disk m :
  0 <= m -> Forall (fun w => 0 <= fst w /\ fst w <> m) ws -> wr ws disk !! Z.to_nat m = disk !! Z.to_nat m.
Proof.
  intros Hm. revert disk. induction ws as [|[n d] ws IH]; intros disk Hws; [done|].
  inversion_clear Hws as [|? ? Hn Hws']. simpl in *. rewrite IH by done.
  apply list_lookup_insert_ne. lia.
Qed.

Lemma wr_in ws disk n d :
  NoDup (map fst ws) -> Forall (fun w => 0 <= fst w < Z.of_nat (length disk)) ws -> (n, d) ∈ ws ->
  wr ws disk !! Z.to_nat n = Some d.
Proof.
  revert disk. induction ws as [|[m x] ws IH]; intros disk Hnd Hr Hin; [by apply not_elem_of_nil in Hin|].
  simpl in *. apply NoDup_cons in Hnd as [Hm Hnd]. inversion_clear Hr as [|? ? Hmr Hr']. simpl in *.
  apply elem_of_cons in Hin as [[= -> ->]|Hin].
  - rewrite wr_other; [apply list_lookup_insert_eq; lia|lia|]. apply Forall_forall. intros w Hw.
    rewrite Forall_forall in Hr'. split; [by apply Hr'|]. intros <-. apply Hm, list_elem_of_fmap. by exists w.
  - apply IH; [done| |done]. by rewrite length_insert.
Qed.

Lemma kw_app k ws ws' : kw (kw k ws) ws' = kw k (ws ++ ws').
Proof. unfold kw. rsimpl. by rewrite wr_app, app_assoc. Qed.

Lemma kw_nil k : kw k [] = k.
Proof. unfold kw. rewrite app_nil_r. by destruct k. Qed.

Section Disk.
  Context (i : nat) (p : proc) (k0 : kernel).
  Context (Hcalm : calm i p k0) (Hunw : forall b, unwaited (Ch_bufsl b) k0).
  Implicit Types (H : list (nat * Z)) (W : list (Z * block)) (V : Z -> option block)
    (D : Z -> Prop) (k : kernel) (e : env) (bs : list buf) (b : nat) (n m : Z) (d : block).
  Abbreviation disk W := (wr W (k_disk k0)).

Record fsys_bs H W V D bs : Prop := {
  fb_bc : bc (p_pid p) (map fst H) bs (disk W);
  fb_nodup : NoDup (map fst H);
  fb_held : forall b n, (b, n) ∈ H -> exists r, bs !! b = Some r /\ b_blockno r = n;
  fb_view : forall m, 0 <= m -> view bs (disk W) m = V m;
  fb_dirty : forall m, dirty bs m <-> D m
}.

(** The state [k], reached from [k0] by the writes [W]. *)
Definition fsys H W V D k : Prop :=
  exists bs, k = kw k0 W <| k_bufs := bs |> /\ fsys_bs H W V D bs.

Lemma calm_kw W : calm i p (kw k0 W).
Proof. destruct Hcalm. by constructor. Qed.
Lemma unwaited_kw W b : unwaited (Ch_bufsl b) (kw k0 W).
Proof. apply Hunw. Qed.
Hint Resolve calm_kw unwaited_kw : core.

Lemma fsys_disk H W V D k : fsys H W V D k -> k_disk k = disk W.
Proof. by intros (bs & -> & _). Qed.

(** Only the values of [V] at block numbers, and [D] up to equivalence, matter. *)
Lemma fsys_ext H W V V' D D' k :
  fsys H W V D k -> (forall m, 0 <= m -> V m = V' m) -> (forall m, D m <-> D' m) -> fsys H W V' D' k.
Proof.
  intros (bs & -> & Hf) HV HD. exists bs. split; [done|]. destruct Hf. constructor; try done.
  - intros m Hm. rewrite <-HV by done. auto.
  - intros m. rewrite <-HD. auto.
Qed.

Lemma held_elem H b n : (b, n) ∈ H -> b ∈ map fst H.
Proof. intros Hin. apply list_elem_of_fmap. by exists (b, n). Qed.

(** A held buffer. *)
Lemma fsys_held H W V D k b n :
  fsys H W V D k -> (b, n) ∈ H ->
  exists d, V n = Some d /\ length d = BSIZE /\ 0 <= n < Z.of_nat (length (k_disk k0)) /\
    forall e, exists r, get_buf b k e = Ret r k e /\ b_blockno r = n /\ b_data r = d.
Proof.
  intros (bs & -> & Hf) Hin. destruct (fb_held _ _ _ _ _ Hf b n Hin) as (r & Hr & Hn).
  destruct (bc_mine _ _ _ _ _ _ (fb_bc _ _ _ _ _ Hf) (held_elem _ _ _ Hin) Hr)
    as (Hb & _ & _ & Hdev & Hrange & Hlen & _). rewrite Hn, length_wr in Hrange.
  exists (b_data r). split_and!; try done; try apply Hrange.
  - rewrite <-(fb_view _ _ _ _ _ Hf) by apply Hrange. by eapply view_hit; [apply Hf|..].
  - intros e. exists r. by rewrite (get_buf_run b r).
Qed.

(** At most as many blocks as [L] has are dirty: with the buffers held, there
    is room for one more. *)
Lemma fsys_room H W V D bs (L : list Z) :
  fsys_bs H W V D bs -> (forall m, D m -> m ∈ L) -> (length L + length H < NBUF)%nat ->
  room (map fst H) bs.
Proof.
  intros Hf HL Hlt. apply (room_count (p_pid p) _ _ (disk W) (L ++ map snd H)).
  - apply Hf.
  - rewrite length_app, length_map. lia.
  - intros b r Hb Hr [Hin|Hfl].
    + apply list_elem_of_fmap in Hin as ([b' n] & E & Hin). simpl in E. subst b'.
      destruct (fb_held _ _ _ _ _ Hf b n Hin) as (r' & Hr' & Hn). apply elem_of_app. right.
      apply list_elem_of_fmap. exists (b, n). split; [|done]. simpl. congruence.
    + apply elem_of_app. left. apply HL, (fb_dirty _ _ _ _ _ Hf). exists b, r.
      split_and!; try done. pose proof (bc_buf _ _ _ _ (fb_bc _ _ _ _ _ Hf) b r Hb Hr) as Hok.
      destruct (ok_flags _ _ _ _ _ Hok) as [[E _]|(_ & ? & _)]; [by rewrite Hfl in E|done].
Qed.

Lemma bread_fsys H W V D k e n (L : list Z) :
  fsys H W V D k -> 0 <= n < Z.of_nat (length (k_disk k0)) -> n ∉ map snd H ->
  D n \/ ((forall m, D m -> m ∈ L) /\ (length L + length H < NBUF)%nat) ->
  exists b k', bread 1 n k e = Ret b k' e /\ fsys ((b, n) :: H) W V D k' /\ b ∉ map fst H.
Proof.
  intros (bs & -> & Hf) Hn Hnh Hroom.
  destruct (bread_run i p (map fst H) n bs (kw k0 W) e) as (b & r' & Hrun & []); try done.
  - apply Hf.
  - change (k_disk (kw k0 W)) with (disk W). by rewrite length_wr.
  - intros b r Hin Hr E. apply Hnh. apply list_elem_of_fmap in Hin as ([b' m] & E' & Hin).
    simpl in E'. subst b'. destruct (fb_held _ _ _ _ _ Hf b m Hin) as (r1 & Hr1 & Hm).
    apply list_elem_of_fmap. exists (b, m). split; [|done]. simpl. congruence.
  - destruct Hroom as [HD|[HL Hlt]]; [left; by apply Hf|right].
    by eapply fsys_room.
  - change (k_disk (kw k0 W)) with (disk W) in *.
    exists b, (kw k0 W <| k_bufs := <[b := r']> bs |>). split_and!; try done.
    exists (<[b := r']> bs). split; [done|]. constructor.
    + done.
    + simpl. apply NoDup_cons. split; [done|]. apply Hf.
    + intros c m [[= -> ->]|Hin]%elem_of_cons.
      * exists r'. split; [|done]. apply list_lookup_insert_eq.
        destruct (bc_lookup _ _ _ _ _ (fb_bc _ _ _ _ _ Hf) br_lt) as [r Hr]. by eapply lookup_lt_Some.
      * destruct (fb_held _ _ _ _ _ Hf c m Hin) as (r & Hr & Hm). exists r. split; [|done].
        rewrite list_lookup_insert_ne; [done|]. intros ->. by apply br_new, held_elem with m.
    + intros m Hm. rewrite br_view. by apply Hf.
    + intros m. rewrite br_dirty. apply Hf.
Qed.

Lemma bc_perm H H' bs dk :
  bc (p_pid p) (map fst H) bs dk -> H ≡ₚ H' -> bc (p_pid p) (map fst H') bs dk.
Proof.
  intros [Hl Hh Hu Hb Hd] HP. assert (forall b, b ∈ map fst H' <-> b ∈ map fst H) as E.
  { intros b. by rewrite (fmap_Permutation fst _ _ HP). }
  constructor; try done.
  - intros b. rewrite E. apply Hh.
  - intros b r Hlt Hr. destruct (Hb b r Hlt Hr). constructor; try done; by rewrite E.
Qed.

Lemma fsys_perm H H' W V D k : fsys H W V D k -> H ≡ₚ H' -> fsys H' W V D k.
Proof.
  intros (bs & -> & [Hbc Hnd Hh Hv Hd]) HP. exists bs. split; [done|]. constructor; try done.
  - by eapply bc_perm.
  - by rewrite <-(fmap_Permutation fst _ _ HP).
  - intros b n. rewrite <-HP. apply Hh.
Qed.

(** The flags of a held buffer tell whether its block is dirty. *)
Lemma held_dirty H W V D bs b n r :
  fsys_bs H W V D bs -> (b, n) ∈ H -> bs !! b = Some r -> b_blockno r = n ->
  D n <-> b_flags r = Z.lor B_VALID B_DIRTY.
Proof.
  intros Hf Hin Hr Hn. rewrite <-(fb_dirty _ _ _ _ _ Hf n).
  destruct (bc_mine _ _ _ _ _ _ (fb_bc _ _ _ _ _ Hf) (held_elem _ _ _ Hin) Hr)
    as (Hb & _ & _ & Hdev & _). split.
  - intros (c & s & Hc & Hs & Hsd & Hsn & Hsf).
    assert (c = b) as -> by (eapply (bc_uniq _ _ _ _ (fb_bc _ _ _ _ _ Hf)); try done; congruence).
    congruence.
  - intros Hfl. by exists b, r.
Qed.

(** Other held buffers when one of them is rewritten for its block. *)
Lemma held_insert H W V D bs b r r' :
  fsys_bs H W V D bs -> bs !! b = Some r -> b_blockno r' = b_blockno r ->
  forall c n, (c, n) ∈ H -> exists s, <[b := r']> bs !! c = Some s /\ b_blockno s = n.
Proof.
  intros Hf Hr E c n Hin. destruct (fb_held _ _ _ _ _ Hf c n Hin) as (s & Hs & Hn).
  destruct (decide (c = b)) as [->|Hcb].
  - exists r'. rewrite list_lookup_insert_eq by (by eapply lookup_lt_Some). split; congruence.
  - exists s. by rewrite list_lookup_insert_ne.
Qed.

(** Rewriting the contents of a held buffer. *)
Lemma upd_data_fsys H W V D k e b n d (f : block -> block) :
  fsys H W V D k -> (b, n) ∈ H -> V n = Some d -> length (f d) = BSIZE ->
  exists k', upd_buf b (fun r => r <| b_data := f (b_data r) |>) k e = Ret tt k' e /\
    fsys H W (fupd n (Some (f d)) V) D k'.
Proof.
  intros Hs Hin HV Hl. destruct (fsys_held _ _ _ _ _ _ _ Hs Hin) as (d' & HV' & _ & Hn & _).
  destruct Hs as (bs & -> & Hf). destruct (fb_held _ _ _ _ _ Hf b n Hin) as (r & Hr & Hrn).
  destruct (bc_mine _ _ _ _ _ _ (fb_bc _ _ _ _ _ Hf) (held_elem _ _ _ Hin) Hr)
    as (Hb & _ & _ & Hdev & _ & _ & Hfl).
  assert (b_data r = d) as Hd.
  { pose proof (view_hit _ _ _ _ _ _ _ (fb_bc _ _ _ _ _ Hf) Hb Hr Hdev Hrn) as E.
    rewrite (fb_view _ _ _ _ _ Hf) in E by lia. congruence. }
  eexists. rewrite (upd_buf_run b r _ bs) by done. split; [done|]. rewrite Hd.
  replace (r <| b_data := f d |>) with (r <| b_data := f d |> <| b_flags := b_flags r |>)
    by (by destruct r).
  destruct (held_update p (map fst H) bs (disk W) b r (f d) (b_flags r)) as (Hbc & Hv & Hdt);
    [apply Hf|by eapply held_elem|done..|].
  eexists. split; [done|]. rewrite Hrn in Hv, Hdt. constructor; try done; [apply Hf| | |].
  - by apply (held_insert _ _ _ _ _ _ r _ Hf Hr).
  - intros m Hm. rewrite Hv. unfold fupd. case_decide as E.
    + subst m. by rewrite Z.eqb_refl.
    + rewrite (proj2 (Z.eqb_neq _ _)) by done. by apply Hf.
  - intros m. rewrite Hdt. case_decide as E; [|apply Hf]. subst m. symmetry.
    by apply (held_dirty H W V D bs b).
Qed.

(** Marking a held buffer dirty. *)
Lemma mark_dirty_fsys H W V D k e b n :
  fsys H W V D k -> (b, n) ∈ H ->
  exists k', upd_buf b (fun r => r <| b_flags := Z.lor (b_flags r) B_DIRTY |>) k e = Ret tt k' e /\
    fsys H W V (fun m => m = n \/ D m) k'.
Proof.
  intros (bs & -> & Hf) Hin. destruct (fb_held _ _ _ _ _ Hf b n Hin) as (r & Hr & Hrn).
  destruct (bc_mine _ _ _ _ _ _ (fb_bc _ _ _ _ _ Hf) (held_elem _ _ _ Hin) Hr)
    as (Hb & _ & _ & Hdev & Hrg & Hlen & Hfl).
  eexists. rewrite (upd_buf_run b r _ bs) by done. split; [done|].
  replace (r <| b_flags := _ |>) with (r <| b_data := b_data r |> <| b_flags := Z.lor B_VALID B_DIRTY |>)
    by (destruct r; rsimpl; rsimpl in Hfl; by destruct Hfl as [-> | ->]).
  destruct (held_update p (map fst H) bs (disk W) b r (b_data r) (Z.lor B_VALID B_DIRTY))
    as (Hbc & Hv & Hdt); [apply Hf|by eapply held_elem|done|done|by right|].
  eexists. split; [done|]. rewrite Hrn in Hv, Hdt. constructor; try done; [apply Hf| | |].
  - by apply (held_insert _ _ _ _ _ _ r _ Hf Hr).
  - intros m Hm. rewrite Hv. case_decide as E; [|by apply Hf]. subst m.
    rewrite <-(fb_view _ _ _ _ _ Hf) by done. symmetry. by eapply view_hit; [apply Hf|..].
  - intros m. rewrite Hdt. case_decide as E; [|rewrite (fb_dirty _ _ _ _ _ Hf m)]; tauto.
Qed.

Lemma bwrite_fsys H W V D k e b n d :
  fsys H W V D k -> (b, n) ∈ H -> V n = Some d ->
  exists k', bwrite b k e = Ret tt k' e /\ fsys H (W ++ [(n, d)]) V (fun m => m <> n /\ D m) k'.
Proof.
  intros Hs Hin HV. destruct Hs as (bs & -> & Hf).
  destruct (fb_held _ _ _ _ _ Hf b n Hin) as (r & Hr & Hrn).
  destruct (bc_mine _ _ _ _ _ _ (fb_bc _ _ _ _ _ Hf) (held_elem _ _ _ Hin) Hr)
    as (Hb & _ & _ & Hdev & Hrg & _).
  assert (b_data r = d) as Hd.
  { pose proof (view_hit _ _ _ _ _ _ _ (fb_bc _ _ _ _ _ Hf) Hb Hr Hdev Hrn) as E.
    rewrite (fb_view _ _ _ _ _ Hf) in E by lia. congruence. }
  destruct (bwrite_run i p (map fst H) bs b r (kw k0 W) e) as (Hrun & Hbc & Hv & Hdt);
    [done|apply Hf|by eapply held_elem|done|].
  rewrite Hrn, Hd in *. change (k_disk (kw k0 W)) with (disk W) in *.
  assert (<[Z.to_nat n := d]> (disk W) = disk (W ++ [(n, d)])) as Edisk by by rewrite wr_app.
  eexists. split; [exact Hrun|]. exists (<[b := r <| b_flags := B_VALID |>]> bs).
  rewrite Edisk in *. split.
  - rewrite <-kw_app. unfold kw at 2. rsimpl. by rewrite <-Edisk.
  - constructor; try done; [apply Hf| | |].
    + by apply (held_insert _ _ _ _ _ _ r _ Hf Hr).
    + intros m Hm. rewrite Hv by done. by apply Hf.
    + intros m. rewrite Hdt, (fb_dirty _ _ _ _ _ Hf m). done.
Qed.

Lemma brelse_fsys H W V D k e b n :
  fsys ((b, n) :: H) W V D k -> D n \/ disk W !! Z.to_nat n = V n ->
  exists k', brelse b k e = Ret tt k' e /\ fsys H W V D k'.
Proof.
  intros (bs & -> & Hf) Hor. pose proof (list_elem_of_here (b, n) H) as Hin.
  destruct (fb_held _ _ _ _ _ Hf b n Hin) as (r & Hr & Hrn).
  destruct (bc_mine _ _ _ _ _ _ (fb_bc _ _ _ _ _ Hf) (held_elem _ _ _ Hin) Hr)
    as (Hb & _ & _ & Hdev & Hrg & _). pose proof (fb_nodup _ _ _ _ _ Hf) as Hnd.
  simpl in Hnd. apply NoDup_cons in Hnd as [HbH Hnd].
  destruct (brelse_spec i p (map fst H) bs b r (kw k0 W) e) as (bs' & Hrun & Hbc & Hv & Hdt & Hhas);
    try done.
  - apply Hf.
  - change (k_disk (kw k0 W)) with (disk W). destruct Hor as [HD|E].
    + left. by apply (held_dirty _ _ _ _ _ b n r Hf).
    + right. rewrite Hrn, E, <-(fb_view _ _ _ _ _ Hf n) by lia.
      by eapply view_hit; [apply Hf|..].
  - change (k_disk (kw k0 W)) with (disk W) in *.
    eexists. split; [exact Hrun|]. exists bs'. split; [done|]. constructor; try done.
    + intros c m Hc. destruct (fb_held _ _ _ _ _ Hf c m) as (s & Hs & Hm); [by right|].
      destruct (Hhas c m (b_data s) (b_flags s)) as (s' & Hs' & ? & _); [by exists s|]. by exists s'.
    + intros m Hm. rewrite Hv. by apply Hf.
    + intros m. rewrite Hdt. apply Hf.
Qed.

(** Outside of the dirty blocks and of the held ones the disk is what the
    cache shows. *)
Lemma fsys_unheld H W V D k m :
  fsys H W V D k -> 0 <= m -> ~ D m -> m ∉ map snd H -> V m = disk W !! Z.to_nat m.
Proof.
  intros (bs & -> & Hf) Hm HD HmH. rewrite <-(fb_view _ _ _ _ _ Hf) by done.
  destruct (cached_or bs m) as [(b & r & Hb & Hr & Hd & Hn)|Hu]; [|by apply view_miss].
  rewrite (view_hit _ _ _ _ _ _ _ (fb_bc _ _ _ _ _ Hf) Hb Hr Hd Hn).
  pose proof (bc_buf _ _ _ _ (fb_bc _ _ _ _ _ Hf) b r Hb Hr) as Hok.
  destruct (ok_free _ _ _ _ _ Hok) as (_ & _ & Hcl).
  { intros ([c n] & -> & Hin)%list_elem_of_fmap. apply HmH, list_elem_of_fmap. exists (c, n).
    split; [|done]. destruct (fb_held _ _ _ _ _ Hf c n Hin) as (s & Hs & <-). simpl in *. congruence. }
  destruct (ok_flags _ _ _ _ _ Hok) as [[_ E]|([E|E] & _)]; [congruence| |].
  - rewrite <-Hn. symmetry. by apply Hcl.
  - exfalso. apply HD, (fb_dirty _ _ _ _ _ Hf). by exists b, r.
Qed.

Lemma fsys_clean W V D k m :
  fsys [] W V D k -> 0 <= m -> ~ D m -> V m = disk W !! Z.to_nat m.
Proof. intros. apply (fsys_unheld [] W V D k); try done. apply not_elem_of_nil. Qed.

(** Every block of the disk has contents. *)
Lemma fsys_some H W V D k n :
  fsys H W V D k -> 0 <= n < Z.of_nat (length (k_disk k0)) -> exists d, V n = Some d /\ length d = BSIZE.
Proof.
  intros (bs & -> & Hf) Hn. rewrite <-(fb_view _ _ _ _ _ Hf) by lia.
  destruct (cached_or bs n) as [(b & r & Hb & Hr & Hd & Hbn)|Hu].
  - exists (b_data r). rewrite (view_hit _ _ _ _ _ _ _ (fb_bc _ _ _ _ _ Hf) Hb Hr Hd Hbn). split; [done|].
    apply (ok_data _ _ _ _ _ (bc_buf _ _ _ _ (fb_bc _ _ _ _ _ Hf) b r Hb Hr)).
  - rewrite view_miss by done. destruct (lookup_lt_is_Some_2 (disk W) (Z.to_nat n)) as [d Hd].
    { rewrite length_wr. lia. }
    exists d. split; [done|]. by apply (proj1 (Forall_lookup _ _) (bc_disk _ _ _ _ (fb_bc _ _ _ _ _ Hf)) _ _ Hd).
Qed.
End Disk.

(** A change of the in-memory log. *)
Lemma fsys_log p k0 H W V D k f :
  fsys p k0 H W V D k ->
  fsys p (k0 <| k_log := f (k_log k0) |>) H W V D (k <| k_log := f (k_log k) |>).
Proof. intros (bs & -> & Hf). exists bs. split; [done|]. destruct Hf. by constructor. Qed.
