(* ===== verification/Log.v ===== *)
(** The write-ahead log of the file system (log.c), and the superblock it
    finds its place by (fs.c, [readsb]). *)

From S2P Require Import Prelude Types Spinlock Proc Sleeplock Ring Bio Cache Disk Bytes.

(** ** fs.c, [readsb] *)

(** [memmove(sb, bp->data, sizeof( *sb))]: seven 32-bit words. *)
Definition sb_of_block (d : block) : superblock :=
  mksb (get32 d 0) (get32 d 4) (get32 d 8) (get32 d 12) (get32 d 16) (get32 d 20) (get32 d 24).

Definition readsb (dev : Z) : K superblock :=
  bp ← bread (u32 dev) 1;
  r ← get_buf bp;
  brelse bp ;;
  mret (sb_of_block (b_data r)).

(** ** log.c *)

Definition get_log : K log := gets k_log.
Definition upd_log (f : log -> log) : K unit := modify (fun k => k <| k_log := f (k_log k) |>).

(** [log.lh.block[i]]: outside the array the behaviour is undefined. *)
Definition get_lh_block (i : nat) : K Z :=
  lg ← get_log; deref "log.lh.block" (l_block lg !! i).
Definition set_lh_block (i : nat) (v : Z) : K unit :=
  _ ← get_lh_block i; upd_log (fun lg => lg <| l_block := <[i := v]> (l_block lg) |>).

(** [memmove(dst->data, src->data, BSIZE)] *)
Definition copy_data (dst src : nat) : K unit :=
  r ← get_buf src; upd_buf dst (fun t => t <| b_data := b_data r |>).

(** [for (tail = 0; tail < log.lh.n; tail++)]: the bodies leave [log.lh.n]. *)
Definition for_logged (body : nat -> K unit) : K unit :=
  lg ← get_log; for_each (seq 0 (Z.to_nat (l_n lg))) body.

Definition install_trans : K unit :=
  for_logged (fun tail =>
    lg ← get_log;
    lbuf ← bread (u32 (l_dev lg)) (u32 (l_start lg + Z.of_nat tail + 1));
    n ← get_lh_block tail;
    dbuf ← bread (u32 (l_dev lg)) (u32 n);
    copy_data dbuf lbuf ;;
    bwrite dbuf ;;
    brelse lbuf ;;
    brelse dbuf).

(** The words of [struct logheader] in the header block. *)
Definition lh_n : nat := 0.
Definition lh_block (i : nat) : nat := (4 + 4 * i)%nat.

Definition read_head : K unit :=
  lg ← get_log;
  b ← bread (u32 (l_dev lg)) (u32 (l_start lg));
  lh ← get_buf b;
  upd_log (fun lg => lg <| l_n := s32 (get32 (b_data lh) lh_n) |>) ;;
  for_logged (fun i =>
    lh ← get_buf b;
    set_lh_block i (s32 (get32 (b_data lh) (lh_block i)))) ;;
  brelse b.

Definition write_head : K unit :=
  lg ← get_log;
  b ← bread (u32 (l_dev lg)) (u32 (l_start lg));
  upd_buf b (fun hb => hb <| b_data := put32 lh_n (l_n lg) (b_data hb) |>) ;;
  for_logged (fun i =>
    n ← get_lh_block i;
    upd_buf b (fun hb => hb <| b_data := put32 (lh_block i) n (b_data hb) |>)) ;;
  bwrite b ;;
  brelse b.

Definition recover_from_log : K unit :=
  read_head ;;
  install_trans ;;
  upd_log (fun lg => lg <| l_n := 0 |>) ;;
  write_head.

(** [sizeof(struct logheader) >= BSIZE] is decided by the constants. *)
Definition initlog (dev : Z) : K unit :=
  if 4 + 4 * LOGSIZE >=? Z.of_nat BSIZE then panic "initlog: too big logheader" else
  sb ← readsb dev;
  upd_log (fun lg => lg <| l_start := s32 (sb_logstart sb) |>) ;;
  upd_log (fun lg => lg <| l_size := s32 (sb_nlog sb) |>) ;;
  upd_log (fun lg => lg <| l_dev := dev |>) ;;
  recover_from_log.

(** [log.lh.n + (log.outstanding+1)*MAXOPBLOCKS > LOGSIZE] *)
Definition log_full (lg : log) : bool :=
  l_n lg + (l_outstanding lg + 1) * MAXOPBLOCKS >? LOGSIZE.
(** [log.lh.n >= LOGSIZE || log.lh.n >= log.size - 1] *)
Definition too_big (lg : log) : bool := (l_n lg >=? LOGSIZE) || (l_n lg >=? l_size lg - 1).

(** Each pass that goes on sleeping consumes a slice. *)
Fixpoint begin_op_loop (fuel : nat) : K unit :=
  match fuel with
  | O => park
  | S fuel =>
      lg ← get_log;
      if negb (l_committing lg =? 0) then
        sleep Ch_log (Some L_log) ;; begin_op_loop fuel
      else if log_full lg then
        sleep Ch_log (Some L_log) ;; begin_op_loop fuel
      else
        upd_log (fun lg => lg <| l_outstanding := l_outstanding lg + 1 |>) ;;
        release L_log
  end.
Definition begin_op : K unit := fun k e =>
  (acquire L_log ;; begin_op_loop (S (length e))) k e.

Definition write_log : K unit :=
  for_logged (fun tail =>
    lg ← get_log;
    to ← bread (u32 (l_dev lg)) (u32 (l_start lg + Z.of_nat tail + 1));
    n ← get_lh_block tail;
    from ← bread (u32 (l_dev lg)) (u32 n);
    copy_data to from ;;
    bwrite to ;;
    brelse from ;;
    brelse to).

Definition commit : K unit :=
  lg ← get_log;
  if l_n lg >? 0 then
    write_log ;;
    write_head ;;
    install_trans ;;
    upd_log (fun lg => lg <| l_n := 0 |>) ;;
    write_head
  else mret tt.

Definition end_op : K unit :=
  acquire L_log ;;
  upd_log (fun lg => lg <| l_outstanding := l_outstanding lg - 1 |>) ;;
  lg ← get_log;
  if negb (l_committing lg =? 0) then panic "log.committing" else
  do_commit ← (if l_outstanding lg =? 0 then
      upd_log (fun lg => lg <| l_committing := 1 |>) ;; mret true
    else wakeup Ch_log ;; mret false);
  release L_log ;;
  if do_commit : bool then
    commit ;;
    acquire L_log ;;
    upd_log (fun lg => lg <| l_committing := 0 |>) ;;
    wakeup Ch_log ;;
    release L_log
  else mret tt.

(** The index the loop of [log_write] stops at: the position of the block in
    the log, or [log.lh.n]. *)
Fixpoint absorb (bl : list Z) (blockno : Z) (n : nat) : nat :=
  match n, bl with
  | S n, x :: bl => if u32 x =? blockno then 0%nat else S (absorb bl blockno n)
  | n, _ => n
  end.

(** The loop and the two assignments that enter a block into [log.lh]. *)
Definition log_record (blockno : Z) : K unit :=
  lg ← get_log;
  let i := absorb (l_block lg) blockno (Z.to_nat (l_n lg)) in
  set_lh_block i (s32 blockno) ;;
  if Z.of_nat i =? l_n lg then upd_log (fun lg => lg <| l_n := l_n lg + 1 |>) else mret tt.

Definition log_write (b : nat) : K unit :=
  lg ← get_log;
  if too_big lg then panic "too big a transaction" else
  if l_outstanding lg <? 1 then panic "log_write outside of trans" else
  acquire L_log ;;
  r ← get_buf b;
  log_record (b_blockno r) ;;
  upd_buf b (fun r => r <| b_flags := Z.lor (b_flags r) B_DIRTY |>) ;;
  release L_log.

(** ** The log as the file system uses it *)

(** The log [lg] lists the blocks [L] of a disk of [len] blocks: the header
    block and the log blocks lie on the disk, and the listed blocks outside of
    them. *)
Record log_ok (lg : log) (L : list Z) (len : nat) : Prop := {
  lk_dev : l_dev lg = 1;
  lk_n : l_n lg = Z.of_nat (length L);
  lk_block : length (l_block lg) = Z.to_nat LOGSIZE;
  lk_list : take (length L) (l_block lg) = L;
  lk_nodup : NoDup L;
  lk_size : Z.of_nat (length L) < l_size lg <= LOGSIZE;
  lk_start : 0 <= l_start lg;
  lk_end : l_start lg + l_size lg <= Z.of_nat len;
  lk_len : Z.of_nat len < 2 ^ 31;
  lk_home : forall n, n ∈ L -> 0 <= n < Z.of_nat len /\
    ~ (l_start lg <= n < l_start lg + l_size lg)
}.

Section Commit.
  Context (i : nat) (p : proc) (k0 : kernel) (L : list Z).
  Context (Hcalm : calm i p k0) (Hunw : forall b, unwaited (Ch_bufsl b) k0).
  Context (Hlog : log_ok (k_log k0) L (length (k_disk k0))).
  Implicit Types (W : list (Z * block)) (V : Z -> option block) (D : Z -> Prop) (k : kernel)
    (e : env) (n m : Z) (d : block) (t : nat).
  Abbreviation start := (l_start (k_log k0)).

Lemma fsys_k_log H W V D k : fsys p k0 H W V D k -> k_log k = k_log k0.
Proof. by intros (bs & -> & _). Qed.

Lemma get_log_fsys H W V D k e : fsys p k0 H W V D k -> get_log k e = Ret (k_log k0) k e.
Proof. intros Hf. unfold get_log, gets. by rewrite (fsys_k_log _ _ _ _ _ Hf). Qed.

Lemma lh_block_lookup t n : L !! t = Some n -> l_block (k_log k0) !! t = Some n.
Proof.
  intros Ht. pose proof (lookup_lt_Some _ _ _ Ht). rewrite <-(lk_list _ _ _ Hlog) in Ht.
  by rewrite lookup_take_lt in Ht.
Qed.

Lemma get_lh_block_fsys H W V D k e t n :
  fsys p k0 H W V D k -> L !! t = Some n -> get_lh_block t k e = Ret n k e.
Proof.
  intros Hf Ht. unfold get_lh_block. mcall get_log_fsys; [done|]. by rewrite (lh_block_lookup _ _ Ht).
Qed.

Lemma home_block n : n ∈ L ->
  0 <= n < Z.of_nat (length (k_disk k0)) /\ ~ (start <= n < start + l_size (k_log k0)) /\ u32 n = n.
Proof.
  intros Hn. destruct (lk_home _ _ _ Hlog n Hn) as [H1 H2]. pose proof (lk_len _ _ _ Hlog).
  rewrite u32_small by lia. done.
Qed.

Lemma log_block t : (t < length L)%nat ->
  u32 (start + Z.of_nat t + 1) = start + 1 + Z.of_nat t /\
  0 <= start + 1 + Z.of_nat t < Z.of_nat (length (k_disk k0)) /\
  start <= start + 1 + Z.of_nat t < start + l_size (k_log k0).
Proof.
  intros Ht. destruct Hlog. rewrite u32_small by lia. lia.
Qed.

Lemma dev_1 : u32 (l_dev (k_log k0)) = 1.
Proof. by rewrite (lk_dev _ _ _ Hlog). Qed.

Lemma L_short : (length L < NBUF)%nat.
Proof. pose proof (lk_size _ _ _ Hlog). unfold LOGSIZE, MAXOPBLOCKS, NBUF in *. lia. Qed.

(** [memmove] between held buffers. *)
Lemma copy_data_fsys H W V D k e b c n m d :
  fsys p k0 H W V D k -> (b, n) ∈ H -> (c, m) ∈ H -> V m = Some d ->
  exists k', copy_data b c k e = Ret tt k' e /\ fsys p k0 H W (fupd n (Some d) V) D k'.
Proof.
  intros Hf Hb Hc HV. destruct (fsys_held p k0 _ _ _ _ _ _ _ Hf Hc) as (d' & HV' & Hlen & _ & Hget).
  destruct (Hget e) as (r & Hr & _ & Hd). rewrite HV in HV'. injection HV' as <-.
  destruct (fsys_held p k0 _ _ _ _ _ _ _ Hf Hb) as (db & HVb & _).
  unfold copy_data. rewrite (bind_Ret _ _ _ _ _ _ _ Hr), Hd.
  by apply (upd_data_fsys p k0 H W V D k e b n db (fun _ => d)).
Qed.

(** One round of [write_log]: the block is copied to its place in the log. *)
Lemma write_log_step W V D k e t n d :
  fsys p k0 [] W V D k -> L !! t = Some n -> V n = Some d -> (forall m, D m <-> m ∈ L) ->
  exists k', (
    lg ← get_log;
    to ← bread (u32 (l_dev lg)) (u32 (l_start lg + Z.of_nat t + 1));
    n ← get_lh_block t;
    from ← bread (u32 (l_dev lg)) (u32 n);
    copy_data to from ;; bwrite to ;; brelse from ;; brelse to) k e = Ret tt k' e /\
    fsys p k0 [] (W ++ [(start + 1 + Z.of_nat t, d)])
      (fupd (start + 1 + Z.of_nat t) (Some d) V) D k'.
Proof.
  intros Hf Ht HV HD. pose proof (lookup_lt_Some _ _ _ Ht) as Hlt.
  pose proof (list_elem_of_lookup_2 _ _ _ Ht) as Hin.
  destruct (log_block t Hlt) as (Eu & Hrg & Hinlog). destruct (home_block n Hin) as (Hnr & Hout & En).
  set (lt := start + 1 + Z.of_nat t) in *. assert (n <> lt) as Hne by (unfold lt in *; lia).
  mcall get_log_fsys; [done|]. rewrite dev_1, Eu.
  destruct (bread_fsys i p k0 Hcalm [] W V D k e lt L) as (to & k1 & Hr1 & Hf1 & _);
    [done|done|apply not_elem_of_nil|right; split; [by intros; apply HD|]|].
  { simpl. pose proof L_short. lia. }
  rewrite (bind_Ret _ _ _ _ _ _ _ Hr1). mcall get_lh_block_fsys; [done..|]. rewrite En.
  destruct (bread_fsys i p k0 Hcalm [(to, lt)] W V D k1 e n L) as (from & k2 & Hr2 & Hf2 & _);
    [done|done|set_solver|left; by apply HD|].
  rewrite (bind_Ret _ _ _ _ _ _ _ Hr2).
  destruct (copy_data_fsys _ W V D k2 e to from lt n d Hf2) as (k3 & Hr3 & Hf3); [set_solver..|done|].
  rewrite (bind_Ret _ _ _ _ _ _ _ Hr3).
  destruct (bwrite_fsys i p k0 Hcalm _ W _ D k3 e to lt d Hf3) as (k4 & Hr4 & Hf4);
    [set_solver|apply fupd_eq|].
  rewrite (bind_Ret _ _ _ _ _ _ _ Hr4).
  destruct (brelse_fsys i p k0 Hcalm Hunw _ _ _ _ k4 e from n Hf4) as (k5 & Hr5 & Hf5).
  { left. split; [done|by apply HD]. }
  rewrite (bind_Ret _ _ _ _ _ _ _ Hr5).
  destruct (brelse_fsys i p k0 Hcalm Hunw _ _ _ _ k5 e to lt Hf5) as (k6 & Hr6 & Hf6).
  { right. rewrite wr_app, fupd_eq. simpl. apply list_lookup_insert_eq. rewrite length_wr. lia. }
  exists k6. split; [done|]. eapply fsys_ext; [done|done|]. intros m. rewrite !HD. split; [tauto|].
  intros Hm. split; [|done]. intros ->. by destruct (home_block lt Hm) as (_ & ? & _).
Qed.

(** One round of [install_trans]: the logged copy goes to its home block. *)
Lemma install_step W V D k e t n d :
  fsys p k0 [] W V D k -> L !! t = Some n -> V (start + 1 + Z.of_nat t) = Some d ->
  (forall m, D m -> m ∈ L) -> D n \/ (forall m, ~ D m) ->
  exists k', (
    lg ← get_log;
    lbuf ← bread (u32 (l_dev lg)) (u32 (l_start lg + Z.of_nat t + 1));
    n ← get_lh_block t;
    dbuf ← bread (u32 (l_dev lg)) (u32 n);
    copy_data dbuf lbuf ;; bwrite dbuf ;; brelse lbuf ;; brelse dbuf) k e = Ret tt k' e /\
    fsys p k0 [] (W ++ [(n, d)]) (fupd n (Some d) V) (fun m => m <> n /\ D m) k'.
Proof.
  intros Hf Ht HV HD HDn. pose proof (lookup_lt_Some _ _ _ Ht) as Hlt.
  pose proof (list_elem_of_lookup_2 _ _ _ Ht) as Hin.
  destruct (log_block t Hlt) as (Eu & Hrg & Hinlog). destruct (home_block n Hin) as (Hnr & Hout & En).
  set (lt := start + 1 + Z.of_nat t) in *. assert (n <> lt) as Hne by (unfold lt in *; lia).
  assert (V lt = wr W (k_disk k0) !! Z.to_nat lt) as Hclean.
  { apply (fsys_clean p k0 W V D k); [done|lia|]. intros Hm%HD. by destruct (home_block lt Hm) as (_ & ? & _). }
  mcall get_log_fsys; [done|]. rewrite dev_1, Eu.
  destruct (bread_fsys i p k0 Hcalm [] W V D k e lt L) as (lb & k1 & Hr1 & Hf1 & _);
    [done|done|apply not_elem_of_nil|right; split; [done|]|].
  { simpl. pose proof L_short. lia. }
  rewrite (bind_Ret _ _ _ _ _ _ _ Hr1). mcall get_lh_block_fsys; [done..|]. rewrite En.
  destruct (bread_fsys i p k0 Hcalm [(lb, lt)] W V D k1 e n []) as (db & k2 & Hr2 & Hf2 & _);
    [done|done|set_solver| |].
  { destruct HDn as [HDn|HDn]; [by left|right]. split; [by intros m Hm%HDn|simpl; unfold NBUF; lia]. }
  rewrite (bind_Ret _ _ _ _ _ _ _ Hr2).
  destruct (copy_data_fsys _ W V D k2 e db lb n lt d Hf2) as (k3 & Hr3 & Hf3); [set_solver..|done|].
  rewrite (bind_Ret _ _ _ _ _ _ _ Hr3).
  destruct (bwrite_fsys i p k0 Hcalm _ W _ D k3 e db n d Hf3) as (k4 & Hr4 & Hf4);
    [set_solver|apply fupd_eq|].
  rewrite (bind_Ret _ _ _ _ _ _ _ Hr4). eapply fsys_perm in Hf4; [|apply perm_swap].
  destruct (brelse_fsys i p k0 Hcalm Hunw _ _ _ _ k4 e lb lt Hf4) as (k5 & Hr5 & Hf5).
  { right. rewrite wr_app, fupd_ne by done. simpl. rewrite list_lookup_insert_ne by lia. done. }
  rewrite (bind_Ret _ _ _ _ _ _ _ Hr5).
  destruct (brelse_fsys i p k0 Hcalm Hunw _ _ _ _ k5 e db n Hf5) as (k6 & Hr6 & Hf6).
  { right. rewrite wr_app, fupd_eq. simpl. apply list_lookup_insert_eq. rewrite length_wr. lia. }
  by exists k6.
Qed.

(** The header block that [write_head] writes over [h]. *)
Fixpoint put_blocks (l : list Z) (j : nat) (h : block) : block :=
  match l with
  | [] => h
  | n :: l => put_blocks l (S j) (put32 (lh_block j) n h)
  end.
Definition put_head (l : list Z) (h : block) : block :=
  put_blocks l 0 (put32 lh_n (Z.of_nat (length l)) h).

Lemma put_blocks_snoc l n : forall j h,
  put_blocks (l ++ [n]) j h = put32 (lh_block (j + length l)) n (put_blocks l j h).
Proof.
  induction l as [|x l IH]; intros j h; simpl; [by rewrite Nat.add_0_r|].
  rewrite IH. by rewrite Nat.add_succ_r.
Qed.

Lemma length_put_blocks l : forall j h, length (put_blocks l j h) = length h.
Proof. induction l as [|x l IH]; intros j h; simpl; [done|]. rewrite IH. apply length_put32. Qed.

Lemma length_put_head l h : length (put_head l h) = length h.
Proof. unfold put_head. by rewrite length_put_blocks, length_put32. Qed.

Lemma start_block : u32 start = start /\ 0 <= start < Z.of_nat (length (k_disk k0)) /\ start ∉ L.
Proof.
  pose proof (lk_size _ _ _ Hlog) as [? _]. destruct Hlog as [_ _ _ _ _ _ ? ? ? Hh].
  rewrite u32_small by lia. split_and!; try lia. intros Hin%Hh. lia.
Qed.

(** [write_head] writes the list of logged blocks into the header block. *)
Lemma write_head_run W V D k e h :
  fsys p k0 [] W V D k -> V start = Some h -> (forall m, D m -> m ∈ L) ->
  exists k', write_head k e = Ret tt k' e /\
    fsys p k0 [] (W ++ [(start, put_head L h)]) (fupd start (Some (put_head L h)) V) D k'.
Proof.
  intros Hf HV HD. destruct start_block as (Eu & Hrg & Hst). unfold write_head.
  mcall get_log_fsys; [done|]. rewrite dev_1, Eu.
  destruct (bread_fsys i p k0 Hcalm [] W V D k e start L) as (b & k1 & Hr1 & Hf1 & _);
    [done|done|apply not_elem_of_nil|right; split; [done|]|].
  { simpl. pose proof L_short. lia. }
  rewrite (bind_Ret _ _ _ _ _ _ _ Hr1).
  pose proof (list_elem_of_here (b, start) []) as Hbin.
  destruct (fsys_held p k0 _ _ _ _ _ _ _ Hf1 Hbin) as (h' & HV' & Hlen & _).
  rewrite HV in HV'. injection HV' as <-.
  destruct (upd_data_fsys p k0 _ W V D k1 e b start h (put32 lh_n (l_n (k_log k0))) Hf1 Hbin HV)
    as (k2 & Hr2 & Hf2); [by rewrite length_put32|].
  rewrite (bind_Ret _ _ _ _ _ _ _ Hr2). set (h1 := put32 lh_n (l_n (k_log k0)) h) in *.
  unfold for_logged. rewrite bind_assoc. mcall get_log_fsys; [done|].
  rewrite (lk_n _ _ _ Hlog), Nat2Z.id.
  set (I := fun t k => fsys p k0 [(b, start)] W (fupd start (Some (put_blocks (take t L) 0 h1)) V) D k).
  for_inv I as (k3 & Hr3 & Hf3); [done| |].
  - intros t k' Ht HI. destruct (lookup_lt_is_Some_2 L t) as [n Hn]; [lia|].
    unfold I in HI. mcall get_lh_block_fsys; [done..|].
    destruct (upd_data_fsys p k0 _ W _ D k' e b start _ (put32 (lh_block t) n) HI Hbin (fupd_eq _ _ _))
      as (k'' & Hr' & Hf'); [by rewrite length_put32, length_put_blocks; unfold h1; rewrite length_put32|].
    exists k''. split; [done|]. eapply fsys_ext; [done| |done]. intros m _.
    rewrite (take_S_r _ _ _ Hn), put_blocks_snoc, length_take_le by lia. simpl.
    unfold fupd. by destruct (m =? start).
  - rewrite (bind_Ret _ _ _ _ _ _ _ Hr3). simpl in Hf3. unfold I in Hf3. rewrite take_ge in Hf3 by lia.
    replace (put_blocks L 0 h1) with (put_head L h) in Hf3 by
      (unfold put_head, h1; by rewrite (lk_n _ _ _ Hlog)).
    destruct (bwrite_fsys i p k0 Hcalm _ W _ D k3 e b start _ Hf3 Hbin (fupd_eq _ _ _)) as (k4 & Hr4 & Hf4).
    rewrite (bind_Ret _ _ _ _ _ _ _ Hr4).
    destruct (brelse_fsys i p k0 Hcalm Hunw _ _ _ _ k4 e b start Hf4) as (k5 & Hr5 & Hf5).
    { right. rewrite wr_app, fupd_eq. simpl. apply list_lookup_insert_eq. rewrite length_wr. lia. }
    exists k5. split; [done|]. eapply fsys_ext; [done|done|]. intros m. split; [tauto|]. intros Hm.
    split; [|done]. intros ->. by apply Hst, HD.
Qed.

(** The writes of [write_log] and of [install_trans] for the contents [ds]. *)
Definition log_writes (s : Z) (ds : list block) : list (Z * block) :=
  imap (fun t d => (s + 1 + Z.of_nat t, d)) ds.
Definition home_writes (ds : list block) : list (Z * block) := zip L ds.

Lemma log_writes_snoc s ds d :
  log_writes s (ds ++ [d]) = log_writes s ds ++ [(s + 1 + Z.of_nat (length ds), d)].
Proof. unfold log_writes. rewrite imap_app. simpl. by rewrite Nat.add_0_r. Qed.

(** [write_log] copies the blocks of the log into the log blocks. *)
Lemma write_log_run W V D k e ds :
  fsys p k0 [] W V D k -> (forall m, D m <-> m ∈ L) -> length ds = length L ->
  (forall t n d, L !! t = Some n -> ds !! t = Some d -> V n = Some d) ->
  exists k' V', write_log k e = Ret tt k' e /\ fsys p k0 [] (W ++ log_writes start ds) V' D k' /\
    (forall m, ~ (start < m < start + l_size (k_log k0)) -> V' m = V m) /\
    (forall t d, ds !! t = Some d -> V' (start + 1 + Z.of_nat t) = Some d).
Proof.
  intros Hf HD Hlen HV. unfold write_log, for_logged. mcall get_log_fsys; [done|].
  rewrite (lk_n _ _ _ Hlog), Nat2Z.id.
  set (I := fun (t : nat) k => exists V', fsys p k0 [] (W ++ log_writes start (take t ds)) V' D k /\
    (forall m, ~ (start < m < start + l_size (k_log k0)) -> V' m = V m) /\
    (forall j d, (j < t)%nat -> ds !! j = Some d -> V' (start + 1 + Z.of_nat j) = Some d)).
  for_inv I as (k1 & Hr1 & V' & Hf1 & HV1 & HV2); cycle 2.
  - exists k1, V'. rewrite take_ge in Hf1 by (simpl; lia). split_and!; [exact Hr1|done|done|].
    intros t d Ht. apply HV2; [|done]. apply lookup_lt_Some in Ht. simpl. lia.
  - exists V. rewrite app_nil_r. split_and!; try done. intros; lia.
  - intros t k' Ht (V' & Hf' & HV1 & HV2).
    destruct (lookup_lt_is_Some_2 L t) as [n Hn]; [lia|].
    destruct (lookup_lt_is_Some_2 ds t) as [d Hd]; [lia|].
    destruct (home_block n) as (_ & Hout & _); [by eapply list_elem_of_lookup_2|].
    destruct (write_log_step _ V' D k' e t n d Hf' Hn) as (k2 & Hr2 & Hf2); [|done|].
    { rewrite HV1 by lia. by eapply HV. }
    exists k2. split; [exact Hr2|]. eexists. split_and!.
    + rewrite (take_S_r _ _ _ Hd), log_writes_snoc, length_take_le by lia. rewrite app_assoc. done.
    + intros m Hm. destruct (log_block t) as (_ & _ & Hin); [lia|]. rewrite fupd_ne by lia. by apply HV1.
    + intros j d' Hj Hd'. destruct (decide (j = t)) as [->|Hjt].
      * rewrite fupd_eq. congruence.
      * rewrite fupd_ne by lia. apply HV2; [lia|done].
Qed.

(** [install_trans] copies the log blocks to their home blocks: after a
    commit, when these are pinned in the cache, and in recovery, when none is
    dirty. *)
Lemma install_run W V D k e ds :
  fsys p k0 [] W V D k -> (forall m, D m <-> m ∈ L) \/ (forall m, ~ D m) -> length ds = length L ->
  (forall t d, ds !! t = Some d -> V (start + 1 + Z.of_nat t) = Some d) ->
  exists k' V', install_trans k e = Ret tt k' e /\
    fsys p k0 [] (W ++ home_writes ds) V' (fun _ => False) k' /\
    (forall m, m ∉ L -> V' m = V m) /\
    (forall t n d, L !! t = Some n -> ds !! t = Some d -> V' n = Some d).
Proof.
  intros Hf HD Hlen HV. unfold install_trans, for_logged. mcall get_log_fsys; [done|].
  rewrite (lk_n _ _ _ Hlog), Nat2Z.id.
  set (I := fun (t : nat) k => exists V',
    fsys p k0 [] (W ++ take t (home_writes ds)) V' (fun m => (m ∉ take t L) /\ D m) k /\
    (forall m, m ∉ take t L -> V' m = V m) /\
    (forall j n d, (j < t)%nat -> L !! j = Some n -> ds !! j = Some d -> V' n = Some d)).
  for_inv I as (k1 & Hr1 & V' & Hf1 & HV1 & HV2); cycle 2.
  - assert (length (home_writes ds) = length L) by (unfold home_writes; rewrite length_zip; lia).
    rewrite (take_ge L), (take_ge (home_writes ds)) in Hf1 by (simpl; lia).
    rewrite take_ge in HV1 by (simpl; lia).
    exists k1, V'. split_and!; [exact Hr1| |done|].
    + eapply fsys_ext; [done|done|]. intros m. split; [|done]. intros [Hm Hd]. destruct HD as [HD|HD].
      * by apply Hm, HD.
      * by apply (HD m).
    + intros t n d Ht. apply HV2; [|done]. apply lookup_lt_Some in Ht. simpl. lia.
  - exists V. rewrite app_nil_r. split_and!; try done; [|intros; lia].
    eapply fsys_ext; [done|done|]. intros m. split; [|tauto]. intros; split; [apply not_elem_of_nil|done].
  - intros t k' Ht (V' & Hf' & HV1 & HV2).
    destruct (lookup_lt_is_Some_2 L t) as [n Hn]; [lia|].
    destruct (lookup_lt_is_Some_2 ds t) as [d Hd]; [lia|].
    assert (n ∉ take t L) as Hnt.
    { intros (j & Hj)%list_elem_of_lookup. apply lookup_take_Some in Hj as [Hj Hjt].
      pose proof (NoDup_lookup _ _ _ _ (lk_nodup _ _ _ Hlog) Hj Hn). lia. }
    destruct (install_step _ V' _ k' e t n d Hf' Hn) as (k2 & Hr2 & Hf2).
    { rewrite HV1; [by apply HV|]. intros Hin%elem_of_take. destruct Hin as (j & Hj & _).
      destruct (log_block t) as (_ & _ & Hin'); [lia|].
      destruct (home_block (start + 1 + Z.of_nat t)) as (_ & ? & _); [by eapply list_elem_of_lookup_2|]. lia. }
    { intros m [_ Hm]. destruct HD as [HD|HD]; [by apply HD|by apply HD in Hm]. }
    { destruct HD as [HD|HD]; [left; split; [done|]; apply HD; by eapply list_elem_of_lookup_2|right].
      intros m [_ Hm]. by apply HD in Hm. }
    exists k2. split; [exact Hr2|]. eexists. split_and!.
    + rewrite (take_S_r _ _ (n, d)), app_assoc.
      * eapply fsys_ext; [done|done|]. intros m. rewrite (take_S_r _ _ _ Hn). set_solver.
      * unfold home_writes. apply lookup_zip_Some. done.
    + intros m Hm. rewrite (take_S_r _ _ _ Hn) in Hm. rewrite fupd_ne by set_solver. apply HV1. set_solver.
    + intros j m d' Hj Hm Hd'. destruct (decide (j = t)) as [->|Hjt].
      * rewrite Hn in Hm. injection Hm as <-. rewrite fupd_eq. congruence.
      * rewrite fupd_ne; [apply (HV2 j); [lia|done..]|]. intros ->. apply Hjt.
        by apply (NoDup_lookup _ _ _ _ (lk_nodup _ _ _ Hlog) Hm Hn).
Qed.
End Commit.

(** ** Commit and recovery *)

Section Recover.
  Context (i : nat) (p : proc).
  Implicit Types (W : list (Z * block)) (V : Z -> option block) (D : Z -> Prop) (k : kernel)
    (e : env) (n m : Z) (d h : block) (t : nat) (L : list Z) (ds : list block).

(** The log with no block. *)
Definition no_log (lg : log) : log := lg <| l_n := 0 |>.

Lemma log_ok_nil lg L len : log_ok lg L len -> log_ok (no_log lg) [] len.
Proof.
  intros []. constructor; unfold no_log; rsimpl; try done; simpl; [constructor|lia|].
  intros n []%not_elem_of_nil.
Qed.

(** Clearing the log: the in-memory count, then the header block. *)
Lemma clear_run k0 L W V k e h :
  calm i p k0 -> (forall b, unwaited (Ch_bufsl b) k0) -> log_ok (k_log k0) L (length (k_disk k0)) ->
  fsys p k0 [] W V (fun _ => False) k -> V (l_start (k_log k0)) = Some h ->
  exists k', (upd_log (fun lg => lg <| l_n := 0 |>) ;; write_head) k e = Ret tt k' e /\
    fsys p (k0 <| k_log := no_log (k_log k0) |>) []
      (W ++ [(l_start (k_log k0), put_head [] h)])
      (fupd (l_start (k_log k0)) (Some (put_head [] h)) V) (fun _ => False) k'.
Proof.
  intros Hc Hw Hl Hf HV. apply (fsys_log p k0 _ _ _ _ _ no_log) in Hf. unfold upd_log, modify. mrun.
  assert (calm i p (k0 <| k_log := no_log (k_log k0) |>)) as Hc' by (by destruct Hc).
  exact (write_head_run i p (k0 <| k_log := no_log (k_log k0) |>) [] Hc' Hw (log_ok_nil _ _ _ Hl)
    W V _ _ e h Hf HV (fun m Hm => match Hm with end)).
Qed.

(** The writes of a commit of the blocks [L] with contents [ds], over a header
    block [h]. *)
Definition commit_writes (s : Z) L ds h : list (Z * block) :=
  log_writes s ds ++ [(s, put_head L h)] ++ home_writes L ds ++ [(s, put_head [] (put_head L h))].

Lemma commit_run k0 L V D k e ds h :
  calm i p k0 -> (forall b, unwaited (Ch_bufsl b) k0) -> log_ok (k_log k0) L (length (k_disk k0)) ->
  L <> [] -> fsys p k0 [] [] V D k -> (forall m, D m <-> m ∈ L) -> length ds = length L ->
  (forall t n d, L !! t = Some n -> ds !! t = Some d -> V n = Some d) ->
  V (l_start (k_log k0)) = Some h ->
  exists k' V', commit k e = Ret tt k' e /\
    fsys p (k0 <| k_log := no_log (k_log k0) |>) [] (commit_writes (l_start (k_log k0)) L ds h)
      V' (fun _ => False) k' /\
    (forall m, ~ (l_start (k_log k0) <= m < l_start (k_log k0) + l_size (k_log k0)) -> V' m = V m).
Proof.
  intros Hc Hw Hl Hne Hf HD Hlen HV Hh. set (s := l_start (k_log k0)) in *.
  destruct (start_block k0 L Hl) as (_ & Hs & HsL). fold s in Hs, HsL.
  unfold commit. mcall get_log_fsys; [done|]. rewrite (lk_n _ _ _ Hl).
  destruct L as [|n0 L0] eqn:EL; [done|]. rewrite <-EL in *. rewrite Z.gtb_ltb, (proj2 (Z.ltb_lt _ _))
    by (rewrite EL; simpl; lia).
  destruct (write_log_run i p k0 L Hc Hw Hl [] V D k e ds Hf HD Hlen HV) as (k1 & V1 & Hr1 & Hf1 & HV1 & HV1').
  rewrite (bind_Ret _ _ _ _ _ _ _ Hr1).
  destruct (write_head_run i p k0 L Hc Hw Hl _ V1 D k1 e h Hf1) as (k2 & Hr2 & Hf2).
  { rewrite HV1 by lia. done. } { intros m. by apply HD. }
  rewrite (bind_Ret _ _ _ _ _ _ _ Hr2).
  edestruct (install_run i p k0 L Hc Hw Hl _ _ D k2 e ds Hf2) as (k3 & V3 & Hr3 & Hf3 & HV3 & HV3').
  { by left. } { done. }
  { intros t d Ht. rewrite fupd_ne by (fold s; lia). by apply HV1'. }
  rewrite (bind_Ret _ _ _ _ _ _ _ Hr3).
  destruct (clear_run k0 L _ V3 k3 e (put_head L h) Hc Hw Hl Hf3) as (k4 & Hr4 & Hf4).
  { fold s. rewrite HV3 by done. apply fupd_eq. }
  exists k4. eexists. split_and!; [exact Hr4| |].
  - unfold commit_writes. rewrite !app_assoc in *. exact Hf4.
  - intros m Hm. rewrite fupd_ne by (fold s; pose proof (lk_size _ _ _ Hl); lia).
    destruct (decide (m ∈ L)) as [(t & Ht)%list_elem_of_lookup|HmL].
    + pose proof (lookup_lt_Some _ _ _ Ht). destruct (lookup_lt_is_Some_2 ds t) as [d Hd]; [lia|].
      rewrite (HV3' t m d), (HV t m d); done.
    + rewrite HV3, fupd_ne by (done || fold s; pose proof (lk_size _ _ _ Hl); lia). apply HV1. fold s. lia.
Qed.

(** The in-memory log after the list [L] was read from the header block. *)
Definition load_log (lg : log) L : log :=
  lg <| l_n := Z.of_nat (length L) |> <| l_block := L ++ drop (length L) (l_block lg) |>.

(** The header block [h] lists [L]. *)
Definition head_lists h L : Prop :=
  s32 (get32 h lh_n) = Z.of_nat (length L) /\
  (forall t n, L !! t = Some n -> s32 (get32 h (lh_block t)) = n).

Lemma calm_log k f : calm i p k -> calm i p (k <| k_log := f |>).
Proof. intros []. by constructor. Qed.

Lemma insert_take_drop {A} (l B : list A) t x :
  l !! t = Some x -> (length l <= length B)%nat ->
  <[t := x]> (take t l ++ drop t B) = take (S t) l ++ drop (S t) B.
Proof.
  intros Hx Hl. pose proof (lookup_lt_Some _ _ _ Hx).
  destruct (lookup_lt_is_Some_2 B t) as [y Hy]; [lia|].
  rewrite (drop_S _ _ _ Hy), (take_S_r _ _ _ Hx), <-app_assoc.
  replace t with (length (take t l) + 0)%nat at 1 by (rewrite length_take_le; lia).
  by rewrite insert_app_r.
Qed.

Lemma read_head_run k0 L W V k e h :
  calm i p k0 -> (forall b, unwaited (Ch_bufsl b) k0) ->
  length (l_block (k_log k0)) = Z.to_nat LOGSIZE ->
  log_ok (load_log (k_log k0) L) L (length (k_disk k0)) ->
  fsys p k0 [] W V (fun _ => False) k -> V (l_start (k_log k0)) = Some h -> head_lists h L ->
  exists k', read_head k e = Ret tt k' e /\
    fsys p (k0 <| k_log := load_log (k_log k0) L |>) [] W V (fun _ => False) k'.
Proof.
  intros Hc Hw H30 Hl Hf HV [Hn HL]. set (s := l_start (k_log k0)) in *.
  set (kl := k0 <| k_log := load_log (k_log k0) L |>) in *.
  destruct (start_block kl L Hl) as (Eu & Hs & _). pose proof (dev_1 kl L Hl) as E1.
  pose proof (lk_size _ _ _ Hl) as Hsz. pose proof (fsys_clean p k0 _ _ _ _ s Hf (proj1 Hs) (fun x => x)) as Hcl.
  unfold read_head. mcall get_log_fsys; [done|].
  change (l_dev (k_log k0)) with (l_dev (k_log kl)). change (l_start (k_log kl)) with s in *.
  rewrite E1. fold s. rewrite Eu.
  destruct (bread_fsys i p k0 Hc [] W V (fun _ => False) k e s []) as (b & k1 & Hr1 & Hf1 & _);
    [done|done|apply not_elem_of_nil|right; split; [done|unfold NBUF; simpl; lia]|].
  rewrite (bind_Ret _ _ _ _ _ _ _ Hr1). pose proof (list_elem_of_here (b, s) []) as Hbin.
  destruct (fsys_held p k0 _ _ _ _ _ _ _ Hf1 Hbin) as (h' & HV' & _ & _ & Hget).
  rewrite HV in HV'. injection HV' as <-. destruct (Hget e) as (r & Hr & _ & Hd).
  rewrite (bind_Ret _ _ _ _ _ _ _ Hr), Hd, Hn. unfold upd_log at 1, modify. mrun.
  set (I := fun (t : nat) k => fsys p (k0 <| k_log := k_log k0 <| l_n := Z.of_nat (length L) |>
    <| l_block := take t L ++ drop t (l_block (k_log k0)) |> |>) [(b, s)] W V (fun _ => False) k).
  assert (I 0%nat (k1 <| k_log := k_log k1 <| l_n := Z.of_nat (length L) |> |>)) as HI0.
  { unfold I. simpl. pose proof (fsys_log p k0 _ _ _ _ _ (fun lg => lg <| l_n := Z.of_nat (length L) |>) Hf1) as Hf2.
    replace (k_log k0 <| l_n := _ |> <| l_block := _ |>) with (k_log k0 <| l_n := Z.of_nat (length L) |>)
      by (by destruct (k_log k0)). exact Hf2. }
  unfold for_logged. rewrite bind_assoc. mcall get_log_fsys; [exact HI0|]. rsimpl. rewrite Nat2Z.id.
  for_inv I as (k3 & Hr3 & Hf3); [done| |].
  - intros t k' Ht HI. destruct (lookup_lt_is_Some_2 L t) as [n Hnt]; [lia|].
    unfold I in HI. destruct (fsys_held _ _ _ _ _ _ _ _ _ HI Hbin) as (h' & HV' & _ & _ & Hget').
    rewrite HV in HV'. injection HV' as <-. destruct (Hget' e) as (r' & Hr' & _ & Hd').
    rewrite (bind_Ret _ _ _ _ _ _ _ Hr'), Hd', (HL t n Hnt).
    unfold set_lh_block, get_lh_block. rewrite bind_assoc. mcall get_log_fsys; [done|]. rsimpl.
    destruct (lookup_lt_is_Some_2 (take t L ++ drop t (l_block (k_log k0))) t) as [y Hy].
    { rewrite length_app, length_take, length_drop. unfold LOGSIZE, MAXOPBLOCKS in *. lia. }
    rewrite Hy. eexists. split; [reflexivity|]. unfold I. rewrite <-insert_take_drop with (x := n);
      [|done|unfold LOGSIZE, MAXOPBLOCKS in *; lia].
    pose proof (fsys_log _ _ _ _ _ _ _ (fun lg => lg <| l_block := <[t:=n]> (l_block lg) |>) HI) as Hf2.
    exact Hf2.
  - rewrite (bind_Ret _ _ _ _ _ _ _ Hr3). simpl in Hf3. unfold I in Hf3. rewrite take_ge in Hf3 by lia.
    destruct (brelse_fsys i p kl (calm_log k0 _ Hc) Hw
      [] W V (fun _ => False) k3 e b s Hf3) as (k4 & Hr4 & Hf4).
    { right. exact (eq_sym Hcl). }
    by exists k4.
Qed.

(** Recovery from a disk whose header lists [L], with the log blocks [ds]. *)
Lemma recover_run k0 L V k e h ds :
  calm i p k0 -> (forall b, unwaited (Ch_bufsl b) k0) ->
  length (l_block (k_log k0)) = Z.to_nat LOGSIZE ->
  log_ok (load_log (k_log k0) L) L (length (k_disk k0)) ->
  fsys p k0 [] [] V (fun _ => False) k -> V (l_start (k_log k0)) = Some h -> head_lists h L ->
  length ds = length L ->
  (forall t d, ds !! t = Some d -> V (l_start (k_log k0) + 1 + Z.of_nat t) = Some d) ->
  exists k' V', recover_from_log k e = Ret tt k' e /\
    fsys p (k0 <| k_log := no_log (load_log (k_log k0) L) |>) []
      (home_writes L ds ++ [(l_start (k_log k0), put_head [] h)]) V' (fun _ => False) k' /\
    (forall m, m ∉ L -> m <> l_start (k_log k0) -> V' m = V m) /\
    (forall t n d, L !! t = Some n -> ds !! t = Some d -> V' n = Some d).
Proof.
  intros Hc Hw H30 Hl Hf HV Hh Hlen Hds.
  destruct (read_head_run k0 L [] V k e h Hc Hw H30 Hl Hf HV Hh) as (k1 & Hr1 & Hf1).
  set (kl := k0 <| k_log := load_log (k_log k0) L |>) in *.
  destruct (start_block kl L Hl) as (_ & Hs & HsL). change (l_start (k_log kl)) with (l_start (k_log k0)) in *.
  unfold recover_from_log. rewrite (bind_Ret _ _ _ _ _ _ _ Hr1).
  destruct (install_run i p kl L (calm_log _ _ Hc) Hw Hl [] V (fun _ => False) k1 e ds Hf1)
    as (k2 & V2 & Hr2 & Hf2 & HV2 & HV2'); [by right; intros m []|done|done|].
  rewrite (bind_Ret _ _ _ _ _ _ _ Hr2).
  destruct (clear_run kl L _ V2 k2 e h (calm_log _ _ Hc) Hw Hl Hf2) as (k3 & Hr3 & Hf3).
  { change (l_start (k_log kl)) with (l_start (k_log k0)). by rewrite HV2. }
  exists k3. eexists. split_and!; [exact Hr3|exact Hf3|..];
    change (l_start (k_log kl)) with (l_start (k_log k0)).
  - intros m HmL Hms. rewrite fupd_ne by done. by apply HV2.
  - intros t n d Ht Hd. rewrite fupd_ne; [by eapply HV2'|]. intros ->.
    by apply HsL, list_elem_of_lookup_2 with t.
Qed.

(** Reading the superblock leaves the state as it was. *)
Lemma readsb_run k0 V k e d :
  calm i p k0 -> (forall b, unwaited (Ch_bufsl b) k0) -> (1 < length (k_disk k0))%nat ->
  fsys p k0 [] [] V (fun _ => False) k -> V 1 = Some d ->
  exists k', readsb 1 k e = Ret (sb_of_block d) k' e /\ fsys p k0 [] [] V (fun _ => False) k'.
Proof.
  intros Hc Hw Hlen Hf HV. unfold readsb. change (u32 1) with 1.
  destruct (bread_fsys i p k0 Hc [] [] V (fun _ => False) k e 1 []) as (b & k1 & Hr1 & Hf1 & _);
    [done|lia|apply not_elem_of_nil|right; split; [done|unfold NBUF; simpl; lia]|].
  rewrite (bind_Ret _ _ _ _ _ _ _ Hr1). pose proof (list_elem_of_here (b, 1) []) as Hbin.
  destruct (fsys_held p k0 _ _ _ _ _ _ _ Hf1 Hbin) as (h' & HV' & _ & _ & Hget).
  rewrite HV in HV'. injection HV' as <-. destruct (Hget e) as (r & Hr & _ & Hd).
  rewrite (bind_Ret _ _ _ _ _ _ _ Hr), Hd.
  destruct (brelse_fsys i p k0 Hc Hw [] [] V (fun _ => False) k1 e b 1 Hf1) as (k2 & Hr2 & Hf2).
  { right. symmetry. apply (fsys_clean p k0 [] V (fun _ => False) k); [done|lia|tauto]. }
  exists k2. by rewrite (bind_Ret _ _ _ _ _ _ _ Hr2).
Qed.
End Recover.
