(* ===== verification/Crash.v ===== *)
(** Crash safety of the log (log.c): a commit that is cut off after any of
    its disk writes, followed by a reboot and [initlog], leaves the file
    system either as it was before the transaction or as it is after it. *)

From S2P Require Import Prelude Types Spinlock Proc Sleeplock Ring Bio Cache Disk Bytes Log.

(** ** The header block *)

Section Head.
  Implicit Types (L : list Z) (h : block) (t j : nat) (n : Z).

Lemma get32_put_blocks_lt L j h o :
  (o + 4 <= lh_block j)%nat -> (lh_block (j + length L) <= length h)%nat ->
  get32 (put_blocks L j h) o = get32 h o.
Proof.
  revert j h. induction L as [|n L IH]; intros j h Ho Hl; [done|]. simpl in *. unfold lh_block in *.
  rewrite IH; unfold lh_block; [|lia|rewrite length_put32; lia].
  apply get32_put32_ne; lia.
Qed.

Lemma get32_put_blocks L j h t n :
  L !! t = Some n -> (lh_block (j + length L) <= length h)%nat ->
  get32 (put_blocks L j h) (lh_block (j + t)) = u32 n.
Proof.
  revert j h t. induction L as [|x L IH]; intros j h t Ht Hl; [done|]. simpl in *.
  destruct t as [|t]; simpl in Ht.
  - injection Ht as ->. rewrite Nat.add_0_r. unfold lh_block in *.
    rewrite get32_put_blocks_lt; [apply get32_put32; lia|unfold lh_block; lia|].
    unfold lh_block. rewrite length_put32. lia.
  - rewrite Nat.add_succ_r. apply (IH (S j)); [done|]. rewrite length_put32. unfold lh_block in *. lia.
Qed.

(** The header that [write_head] writes lists the log. *)
Lemma put_head_lists L h :
  length h = BSIZE -> (length L <= Z.to_nat LOGSIZE)%nat -> Forall (fun n => 0 <= n < 2 ^ 31) L ->
  head_lists (put_head L h) L.
Proof.
  intros Hh HL Hr. unfold put_head, head_lists.
  assert (lh_block (0 + length L) <= length h)%nat as Hl.
  { unfold lh_block, BSIZE, LOGSIZE, MAXOPBLOCKS in *. lia. }
  split.
  - rewrite get32_put_blocks_lt; [|unfold lh_n, lh_block; lia|by rewrite length_put32].
    rewrite get32_put32 by (unfold lh_n, lh_block in *; lia).
    unfold LOGSIZE, MAXOPBLOCKS in *. rewrite u32_small, s32_small by lia. done.
  - intros t n Ht. change (lh_block t) with (lh_block (0 + t)).
    rewrite (get32_put_blocks _ _ _ _ n) by (try done; by rewrite length_put32).
    rewrite Forall_lookup in Hr. specialize (Hr t n Ht). rewrite u32_small, s32_small by lia. done.
Qed.
End Head.

(** ** Reboot *)

(** A machine that has just started from [disk], with the buffer cache as
    [binit] leaves it. *)
Record rebooted (i : nat) (p : proc) (k : kernel) (disk : list block) : Prop := {
  rb_calm : calm i p k;
  rb_unwaited : forall b, unwaited (Ch_bufsl b) k;
  rb_disk : k_disk k = disk;
  rb_ring : exists o, lru (k_bufs k) o;
  rb_bufs : map core (k_bufs k) = replicate (S NBUF) zero_buf;
  rb_block : length (l_block (k_log k)) = Z.to_nat LOGSIZE
}.

Lemma fresh_buf bs b r :
  map core bs = replicate (S NBUF) zero_buf -> bs !! b = Some r ->
  b_flags r = 0 /\ b_dev r = 0 /\ b_lock r = mksl 0 0 /\ b_refcnt r = 0 /\ length (b_data r) = BSIZE.
Proof.
  intros E Hr. assert (core r = core zero_buf) as Hc.
  { assert (map core bs !! b = Some (core r)) as Hb by by rewrite list_lookup_fmap, Hr.
    rewrite E in Hb. apply lookup_replicate in Hb as [<- _]. done. }
  apply core_eq in Hc as (-> & -> & _ & -> & -> & ->). done.
Qed.

(** The empty cache shows the disk. *)
Lemma fresh_fsys p k :
  (exists o, lru (k_bufs k) o) -> map core (k_bufs k) = replicate (S NBUF) zero_buf ->
  Forall (fun d => length d = BSIZE) (k_disk k) ->
  fsys p k [] [] (fun m => k_disk k !! Z.to_nat m) (fun _ => False) k.
Proof.
  intros Ho Hb Hd. exists (k_bufs k). split; [by rewrite kw_nil, set_bufs_id|].
  assert (forall m, uncached (k_bufs k) m) as Hu.
  { intros m b r _ Hr Hdev. apply (fresh_buf _ _ _ Hb) in Hr as (_ & ? & _). lia. }
  constructor; simpl; try done.
  - constructor; try done.
    + by intros b ?%not_elem_of_nil.
    + intros b c r s _ _ Hr _ Hdev. apply (fresh_buf _ _ _ Hb) in Hr as (_ & ? & _). lia.
    + intros b r _ Hr. apply (fresh_buf _ _ _ Hb) in Hr as (Hf & Hdev & Hl & Hrc & Hlen).
      constructor; [by left|done|by intros ?%not_elem_of_nil|]. rewrite Hl, Hf. done.
  - constructor.
  - by intros b n ?%not_elem_of_nil.
  - intros m _. by apply view_miss.
  - intros m. split; [|done]. intros (b & r & _ & Hr & Hdev & _).
    apply (fresh_buf _ _ _ Hb) in Hr as (_ & ? & _). lia.
Qed.

(** The place of the log that the superblock [d] gives. *)
Definition placed (d : block) (lg : log) : Prop :=
  s32 (sb_logstart (sb_of_block d)) = l_start lg /\ s32 (sb_nlog (sb_of_block d)) = l_size lg.

Lemma log_ok_load lg lg' L len :
  log_ok lg L len -> length (l_block lg') = Z.to_nat LOGSIZE -> l_start lg' = l_start lg ->
  l_size lg' = l_size lg -> l_dev lg' = 1 -> log_ok (load_log lg' L) L len.
Proof.
  intros [Hd Hn Hb Hl Hnd Hs H0 He Hlen Hh] Hb' Es Ez Ed. unfold load_log.
  constructor; rsimpl; rewrite ?Es, ?Ez; try done; try lia.
  - rewrite length_app, length_drop. unfold LOGSIZE, MAXOPBLOCKS in *. lia.
  - by rewrite take_app_length.
Qed.

Lemma initlog_run i p k e disk d1 lg L h ds :
  rebooted i p k disk -> Forall (fun d => length d = BSIZE) disk -> log_ok lg L (length disk) ->
  disk !! 1%nat = Some d1 -> placed d1 lg -> disk !! Z.to_nat (l_start lg) = Some h ->
  head_lists h L -> length ds = length L ->
  (forall t d, ds !! t = Some d -> disk !! Z.to_nat (l_start lg + 1 + Z.of_nat t) = Some d) ->
  exists k', initlog 1 k e = Ret tt k' e /\
    (forall m, 0 <= m -> m ∉ L -> m <> l_start lg -> k_disk k' !! Z.to_nat m = disk !! Z.to_nat m) /\
    (forall t n d, L !! t = Some n -> ds !! t = Some d -> k_disk k' !! Z.to_nat n = Some d).
Proof.
  intros [Hc Hw Hdk Ho Hb H30] Hlen Hl Hd1 [Es Ez] Hh Hhl Hds Hlb. subst disk.
  pose proof (fresh_fsys p k Ho Hb Hlen) as Hf.
  assert (1 < length (k_disk k))%nat as H1 by (apply lookup_lt_Some in Hd1; lia).
  destruct (readsb_run i p k _ k e d1 Hc Hw H1 Hf Hd1) as (k1 & Hr1 & Hf1).
  set (f := fun lg' : log => lg' <| l_start := l_start lg |> <| l_size := l_size lg |> <| l_dev := 1 |>).
  apply (fsys_log p k _ _ _ _ _ f) in Hf1. set (kb := k <| k_log := f (k_log k) |>) in *.
  assert (log_ok (load_log (k_log kb) L) L (length (k_disk kb))) as Hl' by by apply log_ok_load with lg.
  destruct (recover_run i p kb L _ _ e h ds (calm_log i p k _ Hc) Hw H30 Hl' Hf1 Hh Hhl Hds Hlb)
    as (k2 & V2 & Hr2 & Hf2 & HV2 & HV2').
  exists k2. split; [|split].
  - unfold initlog. change (4 + 4 * LOGSIZE >=? Z.of_nat BSIZE) with false. cbv match.
    rewrite (bind_Ret _ _ _ _ _ _ _ Hr1), Es, Ez. unfold upd_log, modify. mrun. exact Hr2.
  - intros m Hm HmL Hms. rewrite (fsys_disk _ _ _ _ _ _ _ Hf2).
    rewrite <-(fsys_clean p _ _ _ _ _ m Hf2 Hm) by tauto. by rewrite HV2.
  - intros t n d Ht Hd. rewrite (fsys_disk _ _ _ _ _ _ _ Hf2).
    destruct (lk_home _ _ _ Hl n) as [Hn _]; [by apply list_elem_of_lookup_2 with t|].
    rewrite <-(fsys_clean p _ _ _ _ _ n Hf2) by (lia || tauto). by eapply HV2'.
Qed.

(** ** Prefixes of a commit *)

Section Prefix.
  Context (disk : list block) (lg : log) (L : list Z) (ds : list block) (h : block).
  Context (Hlog : log_ok lg L (length disk)) (Hds : length ds = length L).
  Implicit Types (W : list (Z * block)) (m n : Z) (d : block) (t : nat).
  Abbreviation s := (l_start lg).

(** The blocks of the log. *)
Definition in_log (lg : log) (m : Z) : Prop := l_start lg <= m < l_start lg + l_size lg.

Lemma log_writes_elem m d :
  (m, d) ∈ log_writes s ds -> exists t, m = s + 1 + Z.of_nat t /\ ds !! t = Some d.
Proof.
  unfold log_writes. intros (t & Ht)%list_elem_of_lookup. rewrite list_lookup_imap in Ht.
  destruct (ds !! t) as [d'|] eqn:E; simpl in Ht; [|done]. injection Ht as <- <-. eauto.
Qed.

Lemma log_writes_in_log w : w ∈ log_writes s ds -> 0 <= fst w /\ s < fst w < s + l_size lg.
Proof.
  destruct w as [m d]. intros (t & -> & Ht)%log_writes_elem. apply lookup_lt_Some in Ht. simpl.
  pose proof (lk_size _ _ _ Hlog). pose proof (lk_start _ _ _ Hlog). lia.
Qed.

Lemma home_writes_elem w : w ∈ home_writes L ds -> fst w ∈ L.
Proof. destruct w as [m d]. by intros Hm%elem_of_zip_l. Qed.

(** Writes to the log area leave the other blocks alone. *)
Lemma wr_log_area W m :
  0 <= m -> ~ in_log lg m -> (forall w, w ∈ W -> 0 <= fst w /\ in_log lg (fst w)) ->
  wr W disk !! Z.to_nat m = disk !! Z.to_nat m.
Proof.
  intros Hm Hout HW. apply wr_other; [done|]. apply Forall_forall. intros w Hw.
  destruct (HW w Hw) as [? Hin]. split; [done|]. by intros <-.
Qed.

Lemma log_writes_nodup : NoDup (map fst (log_writes s ds)).
Proof.
  apply NoDup_alt. intros i j x Hi Hj. unfold log_writes in *.
  rewrite list_lookup_fmap, list_lookup_imap in Hi, Hj.
  destruct (ds !! i), (ds !! j); simpl in *; try done. injection Hi. injection Hj. lia.
Qed.

Lemma log_writes_lookup W t d :
  ds !! t = Some d -> Forall (fun w => 0 <= fst w /\ ~ (s < fst w < s + l_size lg)) W ->
  wr (log_writes s ds ++ W) disk !! Z.to_nat (s + 1 + Z.of_nat t) = Some d.
Proof.
  intros Ht HW. pose proof (lookup_lt_Some _ _ _ Ht). pose proof (lk_size _ _ _ Hlog).
  pose proof (lk_start _ _ _ Hlog). pose proof (lk_end _ _ _ Hlog). rewrite wr_app, wr_other.
  - apply wr_in; [apply log_writes_nodup| |].
    + apply Forall_forall. intros w Hw%log_writes_in_log. lia.
    + apply list_elem_of_lookup. exists t. unfold log_writes. by rewrite list_lookup_imap, Ht.
  - lia.
  - eapply Forall_impl; [done|]. intros w [? Hw]. split; [done|]. intros E. apply Hw. lia.
Qed.

(** The contents of the home blocks after the whole of [install_trans]. *)
Lemma home_writes_lookup W W' t n d :
  L !! t = Some n -> ds !! t = Some d -> Forall (fun w => 0 <= fst w /\ fst w ∉ L) W' ->
  wr (W ++ home_writes L ds ++ W') disk !! Z.to_nat n = Some d.
Proof.
  intros Hn Hd HW. pose proof (list_elem_of_lookup_2 _ _ _ Hn) as Hin.
  destruct (lk_home _ _ _ Hlog n Hin) as [Hr _]. rewrite app_assoc, wr_app, wr_other, wr_app.
  - apply wr_in.
    + unfold home_writes. rewrite fst_zip by lia. apply Hlog.
    + apply Forall_forall. intros w Hw%home_writes_elem. rewrite length_wr. by apply (lk_home _ _ _ Hlog).
    + apply list_elem_of_lookup. exists t. unfold home_writes. by rewrite lookup_zip_Some.
  - lia.
  - eapply Forall_impl; [done|]. intros w [? Hw]. split; [done|]. intros E. apply Hw. by rewrite E.
Qed.

(** Where a commit can be cut off: before the header is written, while the
    home blocks are, or after everything. *)
Lemma commit_prefix W1 W2 :
  commit_writes s L ds h = W1 ++ W2 ->
  ((length W1 <= length L)%nat /\ exists W, log_writes s ds = W1 ++ W) \/
  ((length L < length W1)%nat /\ exists j, W1 = log_writes s ds ++ (s, put_head L h) :: take j (home_writes L ds)) \/
  ((length L < length W1)%nat /\ W1 = commit_writes s L ds h).
Proof.
  unfold commit_writes. assert (length (log_writes s ds) = length L) as E.
  { unfold log_writes. by rewrite length_imap. }
  intros Hw. assert (W1 = take (length W1) (W1 ++ W2)) as E1 by by rewrite take_app_length.
  rewrite <-Hw in E1. destruct (decide (length W1 <= length L)%nat) as [Hle|Hgt].
  - left. split; [done|]. rewrite take_app_le in E1 by lia.
    exists (drop (length W1) (log_writes s ds)). rewrite E1 at 1. symmetry. apply take_drop.
  - right. rewrite take_app_ge in E1 by lia. rewrite E in E1.
    destruct (length W1 - length L)%nat as [|j] eqn:Ej; [lia|]. simpl in E1.
    destruct (decide (j <= length (home_writes L ds))%nat) as [Hj|Hj].
    + left. split; [lia|]. exists j. by rewrite take_app_le in E1 by lia.
    + right. split; [lia|]. rewrite take_ge in E1; [done|]. rewrite length_app. simpl. lia.
Qed.
End Prefix.

Lemma wr_bsize W disk :
  Forall (fun d : block => length d = BSIZE) disk -> Forall (fun w => length (snd w) = BSIZE) W ->
  Forall (fun d => length d = BSIZE) (wr W disk).
Proof.
  intros Hd HW. revert disk Hd. induction HW as [|[n d] W Hw HW IH]; intros disk Hd; [done|].
  simpl. apply IH, Forall_insert; done.
Qed.

Section Crash.
  Context (disk : list block) (lg : log) (L : list Z) (ds : list block) (h d1 : block)
    (V : Z -> option block).
  Context (Hlog : log_ok lg L (length disk)) (Hds : length ds = length L).
  Context (Hdb : Forall (fun d => length d = BSIZE) disk) (Hsb : Forall (fun d => length d = BSIZE) ds).
  Context (Hh : disk !! Z.to_nat (l_start lg) = Some h) (Hempty : head_lists h []).
  Context (Hd1 : disk !! 1%nat = Some d1) (Hplaced : placed d1 lg) (H1L : 1 ∉ L) (H1 : ~ in_log lg 1).
  Context (HVL : forall t n d, L !! t = Some n -> ds !! t = Some d -> V n = Some d).
  Context (HVo : forall m, 0 <= m -> m ∉ L -> V m = disk !! Z.to_nat m).
  Implicit Types (W : list (Z * block)) (m n : Z) (k : kernel).
  Abbreviation s := (l_start lg).

Lemma h_bsize : length h = BSIZE.
Proof. by apply (proj1 (Forall_lookup _ _) Hdb _ _ Hh). Qed.

Lemma log_writes_bsize : Forall (fun w => length (snd w) = BSIZE) (log_writes s ds).
Proof.
  apply Forall_forall. intros [m d] (t & _ & Ht)%log_writes_elem. simpl.
  by apply (proj1 (Forall_lookup _ _) Hsb _ _ Ht).
Qed.

Lemma home_writes_bsize : Forall (fun w => length (snd w) = BSIZE) (home_writes L ds).
Proof.
  apply Forall_forall. intros [m d] Hin%elem_of_zip_r. simpl.
  by apply (proj1 (Forall_forall _ _) Hsb).
Qed.

Lemma home_head j :
  Forall (fun w => 0 <= fst w /\ ~ (s < fst w < s + l_size lg))
    ((s, put_head L h) :: take j (home_writes L ds)).
Proof.
  pose proof (lk_start _ _ _ Hlog). constructor; [simpl; lia|].
  apply Forall_take, Forall_forall. intros w Hw%home_writes_elem.
  destruct (lk_home _ _ _ Hlog _ Hw). lia.
Qed.

(** A crash before the header is written: the transaction has not happened. *)
Lemma crash_before i p k e W1 W :
  log_writes s ds = W1 ++ W -> rebooted i p k (wr W1 disk) ->
  exists k', initlog 1 k e = Ret tt k' e /\
    forall m, 0 <= m -> ~ in_log lg m -> k_disk k' !! Z.to_nat m = disk !! Z.to_nat m.
Proof.
  intros E Hb. pose proof (lk_start _ _ _ Hlog) as Hs0. pose proof (lk_size _ _ _ Hlog) as Hsz.
  assert (forall w, w ∈ W1 -> 0 <= fst w /\ s < fst w < s + l_size lg) as HW.
  { intros w Hw. apply (log_writes_in_log disk lg L ds Hlog Hds). rewrite E. set_solver. }
  assert (forall m, 0 <= m -> m = s \/ ~ in_log lg m -> wr W1 disk !! Z.to_nat m = disk !! Z.to_nat m) as Hsame.
  { intros m Hm Hor. apply wr_other; [done|]. apply Forall_forall. intros w Hw.
    destruct (HW w Hw). split; [done|]. unfold in_log in Hor. lia. }
  assert (length (l_block lg) = Z.to_nat LOGSIZE) by apply Hlog.
  destruct (initlog_run i p k e (wr W1 disk) d1 (no_log lg) [] h []) as (k' & Hr & Hk & _).
  - done.
  - apply wr_bsize; [done|]. pose proof log_writes_bsize as Hl. rewrite E in Hl. by apply Forall_app in Hl as [? _].
  - rewrite length_wr. by apply log_ok_nil with L.
  - rewrite <-Hd1. apply (Hsame 1); [lia|by right].
  - done.
  - rewrite <-Hh. apply (Hsame s); [done|by left].
  - done.
  - done.
  - done.
  - exists k'. split; [done|]. intros m Hm Hout. rewrite Hk.
    + apply Hsame; [done|by right].
    + done.
    + apply not_elem_of_nil.
    + change (l_start (no_log lg)) with s. unfold in_log in Hout. lia.
Qed.

(** A crash after the header is written, while the home blocks are: recovery
    completes the transaction. *)
Lemma crash_during i p k e j :
  rebooted i p k (wr (log_writes s ds ++ (s, put_head L h) :: take j (home_writes L ds)) disk) ->
  exists k', initlog 1 k e = Ret tt k' e /\
    forall m, 0 <= m -> ~ in_log lg m -> k_disk k' !! Z.to_nat m = V m.
Proof.
  set (W2 := take j (home_writes L ds)). set (W := log_writes s ds ++ (s, put_head L h) :: W2).
  intros Hb. pose proof (lk_start _ _ _ Hlog) as Hs0. pose proof (lk_size _ _ _ Hlog) as Hsz.
  pose proof (lk_end _ _ _ Hlog) as Hse. pose proof (lk_len _ _ _ Hlog) as Hlen.
  assert (forall w, w ∈ W2 -> fst w ∈ L) as HW2.
  { intros w Hw. apply home_writes_elem with ds. unfold W2 in Hw. apply elem_of_take in Hw as (x & Hx & _).
    by apply list_elem_of_lookup_2 with x. }
  assert (forall m, 0 <= m -> m ∉ L -> ~ in_log lg m -> wr W disk !! Z.to_nat m = disk !! Z.to_nat m) as Hsame.
  { intros m Hm HmL Hout. apply wr_other; [done|]. apply Forall_forall. intros w Hw. unfold W in Hw.
    apply elem_of_app in Hw as [Hw|[->|Hw]%elem_of_cons].
    - destruct (log_writes_in_log disk lg L ds Hlog Hds w Hw). unfold in_log in Hout. lia.
    - simpl. unfold in_log in Hout. lia.
    - apply HW2 in Hw. destruct (lk_home _ _ _ Hlog _ Hw). split; [lia|]. by intros E; rewrite E in Hw. }
  destruct (initlog_run i p k e (wr W disk) d1 lg L (put_head L h) ds) as (k' & Hr & Hk & HkL).
  - done.
  - apply wr_bsize; [done|]. apply Forall_app. split; [apply log_writes_bsize|].
    constructor; [simpl; rewrite length_put_head; apply h_bsize|]. apply Forall_take, home_writes_bsize.
  - by rewrite length_wr.
  - rewrite <-Hd1. by apply (Hsame 1).
  - done.
  - unfold W. rewrite wr_app. simpl. rewrite wr_other.
    + apply list_lookup_insert_eq. rewrite length_wr. lia.
    + done.
    + apply Forall_forall. intros w Hw%HW2. destruct (lk_home _ _ _ Hlog _ Hw). lia.
  - apply put_head_lists; [apply h_bsize|lia|]. apply Forall_forall. intros n Hn.
    destruct (lk_home _ _ _ Hlog n Hn). lia.
  - done.
  - intros t d Ht. apply (log_writes_lookup disk lg L ds Hlog Hds); [done|]. apply home_head.
  - exists k'. split; [done|]. intros m Hm Hout.
    destruct (decide (m ∈ L)) as [(t & Ht)%list_elem_of_lookup|HmL].
    + pose proof (lookup_lt_Some _ _ _ Ht). destruct (lookup_lt_is_Some_2 ds t) as [d Hd]; [lia|].
      rewrite (HkL t m d Ht Hd). symmetry. by apply HVL with t.
    + rewrite Hk, Hsame, HVo; try done. unfold in_log in Hout. lia.
Qed.

(** A crash after the last write: there is nothing to recover. *)
Lemma crash_after i p k e :
  rebooted i p k (wr (commit_writes s L ds h) disk) ->
  exists k', initlog 1 k e = Ret tt k' e /\
    forall m, 0 <= m -> ~ in_log lg m -> k_disk k' !! Z.to_nat m = V m.
Proof.
  set (W := commit_writes s L ds h). set (h0 := put_head [] (put_head L h)).
  intros Hb. pose proof (lk_start _ _ _ Hlog) as Hs0. pose proof (lk_size _ _ _ Hlog) as Hsz.
  pose proof (lk_end _ _ _ Hlog) as Hse.
  assert (forall w, w ∈ W -> fst w ∈ L \/ in_log lg (fst w)) as HW.
  { intros w Hw. unfold W, commit_writes in Hw. unfold in_log.
    apply elem_of_app in Hw as [Hw|[->|Hw]%elem_of_cons]; [|simpl; lia|].
    - destruct (log_writes_in_log disk lg L ds Hlog Hds w Hw). lia.
    - simpl in Hw. apply elem_of_app in Hw as [Hw%home_writes_elem|Hw%list_elem_of_singleton]; [by left|].
      subst w. simpl. lia. }
  assert (forall m, 0 <= m -> m ∉ L -> ~ in_log lg m -> wr W disk !! Z.to_nat m = disk !! Z.to_nat m) as Hsame.
  { intros m Hm HmL Hout. apply wr_other; [done|]. apply Forall_forall. intros w Hw.
    destruct (HW w Hw) as [HwL|Hwl].
    - destruct (lk_home _ _ _ Hlog _ HwL). split; [lia|]. by intros E; rewrite E in HwL.
    - split; [unfold in_log in Hwl; lia|]. by intros E; rewrite E in Hwl. }
  destruct (initlog_run i p k e (wr W disk) d1 (no_log lg) [] h0 []) as (k' & Hr & Hk & _).
  - done.
  - apply wr_bsize; [done|]. unfold W, commit_writes. rewrite !Forall_app. split_and!.
    + apply log_writes_bsize.
    + apply Forall_singleton. simpl. rewrite length_put_head. apply h_bsize.
    + apply home_writes_bsize.
    + apply Forall_singleton. simpl. rewrite !length_put_head. apply h_bsize.
  - rewrite length_wr. by apply log_ok_nil with L.
  - rewrite <-Hd1. by apply (Hsame 1).
  - done.
  - unfold W, commit_writes. rewrite !app_assoc, wr_app. simpl. apply list_lookup_insert_eq.
    rewrite length_wr. lia.
  - apply put_head_lists; [rewrite length_put_head; apply h_bsize|simpl; lia|constructor].
  - done.
  - done.
  - exists k'. split; [done|]. intros m Hm Hout. rewrite Hk; [|done|apply not_elem_of_nil|].
    + destruct (decide (m ∈ L)) as [(t & Ht)%list_elem_of_lookup|HmL].
      * pose proof (lookup_lt_Some _ _ _ Ht). destruct (lookup_lt_is_Some_2 ds t) as [d Hd]; [lia|].
        rewrite (HVL t m d Ht Hd). unfold W, commit_writes. rewrite app_assoc.
        apply (home_writes_lookup disk lg L ds Hlog Hds) with t; [done..|].
        apply Forall_singleton. simpl. split; [done|]. intros Hin%(lk_home _ _ _ Hlog). lia.
      * rewrite Hsame, HVo; done.
    + change (l_start (no_log lg)) with s. unfold in_log in Hout. lia.
Qed.
End Crash.

(** ** Crash atomicity *)

(** The contents of the logged blocks. *)
Lemma logged_contents p k0 V D k L :
  fsys p k0 [] [] V D k -> log_ok (k_log k0) L (length (k_disk k0)) ->
  exists ds, length ds = length L /\ Forall (fun d => length d = BSIZE) ds /\
    forall t n d, L !! t = Some n -> ds !! t = Some d -> V n = Some d.
Proof.
  intros Hf Hl. assert (Forall (fun n => exists d, V n = Some d /\ length d = BSIZE) L) as HL.
  { apply Forall_forall. intros n [Hn _]%(lk_home _ _ _ Hl). by apply (fsys_some p k0 [] [] V D k). }
  clear Hl. induction HL as [|n L (d & Hd & Hlen) _ (ds & E & Hb & IH)].
  - exists []. by split_and!.
  - exists (d :: ds). split_and!; [simpl; congruence|by constructor|].
    intros [|t] m d'; simpl; [by intros [= <-] [= <-]|apply IH].
Qed.

Lemma fsys_bsize p k0 H W V D k :
  fsys p k0 H W V D k -> Forall (fun d => length d = BSIZE) (wr W (k_disk k0)).
Proof. intros (bs & _ & Hf). apply (bc_disk _ _ _ _ (fb_bc _ _ _ _ _ _ _ Hf)). Qed.

(** C1: Transactions are atomic with respect to crashes.  [commit], with the
    logged blocks pinned in the cache, returns and leaves the disk with the
    contents the cache had.  Cut it off after any number of its disk writes,
    reboot with an empty cache and run [initlog]: it returns, and every block
    outside the log area is as before the commit when at most the log blocks
    were written, and as after the commit as soon as the header block was. *)
Theorem commit_crash_atomic i p k0 L V k e d1 h :
  calm i p k0 -> (forall b, unwaited (Ch_bufsl b) k0) ->
  log_ok (k_log k0) L (length (k_disk k0)) -> L <> [] ->
  fsys p k0 [] [] V (fun m => m ∈ L) k ->
  k_disk k0 !! 1%nat = Some d1 -> placed d1 (k_log k0) -> 1 ∉ L -> ~ in_log (k_log k0) 1 ->
  k_disk k0 !! Z.to_nat (l_start (k_log k0)) = Some h -> head_lists h [] ->
  exists W k', commit k e = Ret tt k' e /\ k_writes k' = k_writes k ++ W /\
    (forall m, 0 <= m -> ~ in_log (k_log k0) m -> k_disk k' !! Z.to_nat m = V m) /\
    forall W1 W2, W = W1 ++ W2 -> forall j q kb e', rebooted j q kb (wr W1 (k_disk k)) ->
    exists kr, initlog 1 kb e' = Ret tt kr e' /\
      forall m, 0 <= m -> ~ in_log (k_log k0) m ->
        k_disk kr !! Z.to_nat m =
          if decide (length W1 <= length L)%nat then k_disk k !! Z.to_nat m else V m.
Proof.
  intros Hc Hw Hl Hne Hf Hd1 Hp H1L H1 Hh Hhl.
  destruct (logged_contents _ _ _ _ _ _ Hf Hl) as (ds & Hlen & Hb & HV).
  pose proof (fsys_bsize _ _ _ _ _ _ _ Hf) as Hdb. simpl in Hdb.
  pose proof (lk_start _ _ _ Hl) as Hs0. destruct (start_block k0 L Hl) as (_ & _ & HsL).
  assert (V (l_start (k_log k0)) = Some h) as HVs.
  { rewrite (fsys_clean p k0 [] V _ k _ Hf Hs0); [done|]. done. }
  assert (forall m, 0 <= m -> m ∉ L -> V m = k_disk k0 !! Z.to_nat m) as HVo.
  { intros m Hm HmL. by rewrite (fsys_clean p k0 [] V _ k m Hf Hm HmL). }
  assert (k_disk k = k_disk k0 /\ k_writes k = k_writes k0) as [Ed Ew].
  { destruct Hf as (bs & -> & _). rewrite kw_nil. done. }
  destruct (commit_run i p k0 L V _ k e ds h Hc Hw Hl Hne Hf (fun m => iff_refl _) Hlen HV HVs)
    as (k' & V' & Hr & Hf' & HV').
  exists (commit_writes (l_start (k_log k0)) L ds h), k'. split_and!; [done|..].
  - rewrite Ew. by destruct Hf' as (bs & -> & _).
  - intros m Hm Hout. rewrite (fsys_disk _ _ _ _ _ _ _ Hf').
    rewrite <-(fsys_clean p _ _ _ _ _ m Hf' Hm) by tauto. by apply HV'.
  - intros W1 W2 E j q kb e' Hkb. rewrite Ed in *.
    destruct (commit_prefix (k_log k0) L ds h Hlen W1 W2 E) as [[Hle [W EW]]|[[Hgt [x EW]]|[Hgt EW]]].
    + destruct (decide (length W1 <= length L)%nat); [|lia]. by eapply (crash_before (k_disk k0) (k_log k0) L ds h d1); eauto.
    + destruct (decide (length W1 <= length L)%nat); [lia|]. rewrite EW in Hkb.
      by eapply (crash_during (k_disk k0) (k_log k0) L ds h d1); eauto.
    + destruct (decide (length W1 <= length L)%nat); [lia|]. rewrite EW in Hkb.
      by eapply (crash_after (k_disk k0) (k_log k0) L ds h d1); eauto.
Qed.

(** ** An instance: a disk of 40 blocks with its log in blocks 2 to 31, and a
    transaction that has changed block 35. *)

Definition demo_disk : list block :=
  <[1%nat := put32 12 30 (put32 16 2 (replicate BSIZE 0))]> (replicate 40 (replicate BSIZE 0)).
Definition demo_log : log := mklog 2 30 1 0 1 1 (35 :: replicate 29 0).

Lemma demo_log_ok : log_ok demo_log [35] (length demo_disk).
Proof.
  constructor; try done; [repeat constructor; apply not_elem_of_nil|].
  intros n ->%list_elem_of_singleton. simpl. lia.
Qed.

Lemma demo_bsize : Forall (fun d : block => length d = BSIZE) demo_disk.
Proof. apply Forall_insert; [by apply Forall_replicate|done]. Qed.

(** The machine with an empty cache. *)
Lemma solo_rebooted disk :
  exists k, rebooted 0 solo_proc (k <| k_disk := disk |>) disk /\ k_log k = demo_log.
Proof.
  destruct (binit_run solo_kernel []) as (bs & _ & Ho & Hb).
  exists (solo_kernel <| k_bufs := bs |> <| k_log := demo_log |>). split; [|done].
  destruct solo_calm. constructor; try done; [intros b; apply solo_unwaited|by eexists].
Qed.

Lemma commit_crash_atomic_witness :
  exists k V W k', commit k [] = Ret tt k' [] /\ k_writes k' = k_writes k ++ W /\
    k_disk k' !! 35%nat = V 35 /\
    exists kb kr, initlog 1 kb [] = Ret tt kr [] /\ k_disk kr !! 35%nat = k_disk k !! 35%nat.
Proof.
  destruct (solo_rebooted demo_disk) as (k0 & [Hc Hw Hd Ho Hb H30] & Hlg).
  set (k1 := k0 <| k_disk := demo_disk |>) in *.
  pose proof (fresh_fsys solo_proc k1 Ho Hb demo_bsize) as Hf0.
  set (V := fun m : Z => k_disk k1 !! Z.to_nat m) in Hf0.
  destruct (bread_fsys 0 solo_proc k1 Hc [] [] V (fun _ => False) k1 [] 35 []) as (b & k2 & _ & Hf2 & _);
    [done|simpl; lia|apply not_elem_of_nil|right; split; [done|unfold NBUF; simpl; lia]|].
  destruct (mark_dirty_fsys solo_proc k1 _ _ _ _ k2 [] b 35 Hf2) as (k3 & _ & Hf3); [by left|].
  destruct (brelse_fsys 0 solo_proc k1 Hc Hw _ _ _ _ k3 [] b 35 Hf3) as (k & _ & Hf4); [by left; left|].
  assert (fsys solo_proc k1 [] [] V (fun m => m ∈ [35]) k) as Hf.
  { eapply fsys_ext; [done|done|]. intros m. rewrite list_elem_of_singleton. tauto. }
  assert (log_ok (k_log k1) [35] (length (k_disk k1))) as Hl.
  { change (log_ok (k_log k0) [35] (length demo_disk)). rewrite Hlg. apply demo_log_ok. }
  assert (k_log k1 = demo_log) as E by done.
  destruct (commit_crash_atomic 0 solo_proc k1 [35] V k []
    (put32 12 30 (put32 16 2 (replicate BSIZE 0))) (replicate BSIZE 0)) as (W & k' & Hr & Hwr & Hnew & Hcrash);
    [done|done|done|done|done|done|rewrite E; done|set_solver|rewrite E; unfold in_log; simpl; lia
    |rewrite E; done|by split; [|intros [|t] n]|].
  exists k, V, W, k'. split_and!; [done|done|apply (Hnew 35); [lia|rewrite E; unfold in_log; simpl; lia]|].
  destruct (solo_rebooted (k_disk k)) as (kb & Hkb & _).
  destruct (Hcrash [] W eq_refl 0%nat solo_proc _ [] Hkb) as (kr & Hrr & Hkr).
  exists (kb <| k_disk := k_disk k |>), kr. split; [done|].
  apply (Hkr 35); [lia|rewrite E; unfold in_log; simpl; lia].
Defined.
