(* ===== verification/LogWrite.v ===== *)
(** Transactions of the file system (log.c): what [log_write] adds to the log,
    and the log space that [begin_op] reserves. *)

From S2P Require Import Prelude Types Spinlock Proc Sleeplock Ring Bio Cache Disk Bytes Log.

(** ** [log_write] *)

(** The list of logged blocks after [log_write] of block [n]: a block that is
    in the log already is absorbed. *)
Definition logged (n : Z) (L : list Z) : list Z := if decide (n ∈ L) then L else L ++ [n].

Section LogWrite.
  Context (i : nat) (p : proc) (k0 : kernel) (L : list Z).
  Context (Hcalm : calm i p k0).
  Context (Hlog : log_ok (k_log k0) L (length (k_disk k0))).
  Implicit Types (n m : Z) (k : kernel) (e : env) (lg : log).

(** The loop stops at the block's place in the log, or at the end. *)
Lemma absorb_in bl n t : NoDup L -> (forall x, x ∈ L -> u32 x = x) ->
  take (length L) bl = L -> L !! t = Some n -> absorb bl n (length L) = t.
Proof.
  clear Hlog. revert bl t. induction L as [|x l IH]; intros bl t Hnd Hu Hbl Ht; [done|].
  destruct bl as [|y bl]; [done|]. simpl in Hbl. injection Hbl as -> Hbl. simpl.
  apply NoDup_cons in Hnd as [Hx Hnd]. rewrite (Hu x) by set_solver. destruct t as [|t]; simpl in Ht.
  - injection Ht as ->. by rewrite Z.eqb_refl.
  - assert (x <> n) as Hne by (intros ->; by apply Hx, list_elem_of_lookup_2 with t).
    rewrite (proj2 (Z.eqb_neq _ _) Hne). f_equal. apply IH; try done. intros z Hz. apply Hu. by right.
Qed.

Lemma absorb_new bl n : (forall x, x ∈ L -> u32 x = x) ->
  take (length L) bl = L -> n ∉ L -> absorb bl n (length L) = length L.
Proof.
  clear Hlog. revert bl. induction L as [|x l IH]; intros bl Hu Hbl Hn; [by destruct bl|].
  destruct bl as [|y bl]; [done|]. simpl in Hbl. injection Hbl as -> Hbl. simpl.
  apply not_elem_of_cons in Hn as [Hne Hn]. rewrite (Hu x) by set_solver.
  rewrite (proj2 (Z.eqb_neq _ _)) by done. f_equal. apply IH; try done. intros z Hz. apply Hu. by right.
Qed.

(** The in-memory log after [log_write] of block [n]. *)
Definition log_add lg n : log :=
  let j := absorb (l_block lg) n (Z.to_nat (l_n lg)) in
  let lg := lg <| l_block := <[j := n]> (l_block lg) |> in
  if Z.of_nat j =? l_n lg then lg <| l_n := l_n lg + 1 |> else lg.

Lemma log_add_ok n :
  0 <= n < Z.of_nat (length (k_disk k0)) ->
  ~ (l_start (k_log k0) <= n < l_start (k_log k0) + l_size (k_log k0)) ->
  Z.of_nat (length L) < l_size (k_log k0) - 1 ->
  log_ok (log_add (k_log k0) n) (logged n L) (length (k_disk k0)).
Proof.
  intros Hn Hout Hroom. pose proof Hlog as [Hd Hln H30 Hl Hnd Hsz Hst Hen Hlen Hh].
  assert (forall x, x ∈ L -> u32 x = x) as Hu.
  { intros x Hx. destruct (Hh x Hx) as [? _]. apply u32_small. lia. }
  unfold log_add, logged. rewrite Hln, Nat2Z.id. case_decide as Hin.
  - apply list_elem_of_lookup in Hin as (t & Ht). rewrite (absorb_in _ n t) by done.
    pose proof (lookup_lt_Some _ _ _ Ht). rewrite (proj2 (Z.eqb_neq _ _)) by (rsimpl; lia).
    rewrite list_insert_id by (rewrite <-Hl in Ht; by rewrite lookup_take_lt in Ht).
    by constructor.
  - rewrite absorb_new by done. rsimpl. rewrite Hln, Z.eqb_refl.
    unfold LOGSIZE, MAXOPBLOCKS in *. constructor; rsimpl; try done.
    + rewrite length_app. simpl. lia.
    + by rewrite length_insert.
    + rewrite length_app. simpl. rewrite Nat.add_1_r, (take_S_r _ _ n).
      * rewrite take_insert_ge by lia. by rewrite Hl.
      * apply list_lookup_insert_eq. lia.
    + apply NoDup_app. split_and!; [done|set_solver|apply NoDup_singleton].
    + rewrite length_app. simpl. unfold LOGSIZE, MAXOPBLOCKS. lia.
    + intros x [Hx|Hx%list_elem_of_singleton]%elem_of_app; [by apply Hh|by subst x].
Qed.

Lemma log_record_run k e n :
  0 <= n < 2 ^ 31 ->
  (absorb (l_block (k_log k)) n (Z.to_nat (l_n (k_log k))) < length (l_block (k_log k)))%nat ->
  log_record n k e = Ret tt (k <| k_log := log_add (k_log k) n |>) e.
Proof.
  intros Hn Hj. unfold log_record, get_log. mrun. rewrite s32_small by lia.
  unfold set_lh_block, get_lh_block, get_log. rewrite bind_assoc. mrun.
  set (j := absorb _ _ _) in *. destruct (lookup_lt_is_Some_2 _ _ Hj) as [y Hy]. rewrite Hy.
  unfold log_add. fold j. unfold upd_log. mrun.
  change (l_n (k_log k <| l_block := _ |>)) with (l_n (k_log k)).
  by destruct (Z.of_nat j =? l_n (k_log k)).
Qed.

(** A log with room has a place for the block. *)
Lemma absorb_lt n :
  Z.of_nat (length L) < l_size (k_log k0) - 1 ->
  (absorb (l_block (k_log k0)) n (Z.to_nat (l_n (k_log k0))) < length (l_block (k_log k0)))%nat.
Proof.
  intros Hroom. destruct Hlog as [Hd Hln H30 Hl Hnd Hsz Hst Hen Hlen Hh].
  assert (forall x, x ∈ L -> u32 x = x) as Hu.
  { intros x Hx. destruct (Hh x Hx) as [? _]. apply u32_small. lia. }
  rewrite Hln, Nat2Z.id, H30. unfold LOGSIZE, MAXOPBLOCKS in *.
  destruct (decide (n ∈ L)) as [(t & Ht)%list_elem_of_lookup|HnL].
  - rewrite (absorb_in _ n t) by done. apply lookup_lt_Some in Ht. lia.
  - rewrite absorb_new by done. lia.
Qed.

Lemma fsys_calm H W V D k : fsys p k0 H W V D k -> calm i p k.
Proof. intros (bs & -> & _). destruct Hcalm. by constructor. Qed.

(** Pinning the buffer and adding its block to the log are one step. *)
Lemma log_write_fsys H W V k e b n :
  fsys p k0 H W V (fun m => m ∈ L) k -> (b, n) ∈ H -> 1 <= l_outstanding (k_log k0) ->
  Z.of_nat (length L) < l_size (k_log k0) - 1 ->
  exists k', log_write b k e = Ret tt k' e /\
    fsys p (k0 <| k_log := log_add (k_log k0) n |>) H W V (fun m => m ∈ logged n L) k'.
Proof.
  intros Hf Hin Hout Hroom. pose proof Hlog as [Hd Hln H30 Hl Hnd Hsz Hst Hen Hlen Hh].
  destruct (fsys_held p k0 _ _ _ _ _ _ _ Hf Hin) as (d & _ & _ & Hn & _).
  pose proof (fsys_calm _ _ _ _ _ Hf) as Hck.
  assert (k_log k = k_log k0) as Elog by (by destruct Hf as (bs & -> & _)).
  assert (k_cpu k = k_cpu k0) as Ecpu by (by destruct Hf as (bs & -> & _)).
  unfold log_write. mcall (get_log_fsys p k0); [done|].
  assert (too_big (k_log k0) = false) as ->.
  { unfold too_big. apply orb_false_iff. rewrite !Z.geb_leb, !Z.leb_gt. lia. }
  rewrite (proj2 (Z.ltb_ge _ _)) by lia.
  mcall (acquire_calm i p); [done|]. set (c := cpu_acq L_log (k_cpu k)).
  assert (forall lg, fsys p (k0 <| k_log := lg |> <| k_cpu := c |>) H W V (fun m => m ∈ L)
    (k <| k_cpu := c |> <| k_log := lg |>)) as Hf1.
  { intros lg. destruct Hf as (bs & -> & Hf). exists bs. split; [done|]. destruct Hf. by constructor. }
  assert (fsys p (k0 <| k_cpu := c |>) H W V (fun m => m ∈ L) (k <| k_cpu := c |>)) as Hf0.
  { destruct Hf as (bs & -> & Hf). exists bs. split; [done|]. destruct Hf. by constructor. }
  destruct (fsys_held p _ _ _ _ _ _ _ _ Hf0 Hin) as (d' & _ & _ & _ & Hget).
  destruct (Hget e) as (r & Hr & Hrn & _). rewrite (bind_Ret _ _ _ _ _ _ _ Hr), Hrn.
  mcall log_record_run; [lia|rsimpl; rewrite Elog; by apply absorb_lt|]. rsimpl. rewrite Elog.
  destruct (mark_dirty_fsys p _ _ _ _ _ _ e b n (Hf1 (log_add (k_log k0) n)) Hin) as (k3 & Hr3 & Hf3).
  rewrite (bind_Ret _ _ _ _ _ _ _ Hr3).
  rewrite (release_calm i p L_log k k3 e Hck) by (by destruct Hf3 as (bs & -> & _)).
  eexists. split; [done|]. rewrite Ecpu.
  destruct Hf3 as (bs & -> & Hf3). exists bs. split; [by destruct k0|]. destruct Hf3. constructor; try done.
  intros m. rewrite fb_dirty. unfold logged. case_decide; set_solver.
Qed.
End LogWrite.

(** ** Log space

    Any number of processes run file system operations at the same time.  The
    part of the system's state that the accounting of log space is about: the
    in-memory log, and for each operation between its [begin_op] and its
    [end_op] the number of times it has called [log_write], which is at most
    [MAXOPBLOCKS]. *)

Record space : Type := mkspace { sp_log : log; sp_ops : list nat }.

Inductive space_step : space -> space -> Prop :=
| space_begin lg ops :
    l_committing lg = 0 -> log_full lg = false ->
    space_step (mkspace lg ops)
      (mkspace (lg <| l_outstanding := l_outstanding lg + 1 |>) (0%nat :: ops))
| space_write lg ops1 u ops2 n :
    Z.of_nat u < MAXOPBLOCKS -> too_big lg = false ->
    space_step (mkspace lg (ops1 ++ u :: ops2)) (mkspace (log_add lg n) (ops1 ++ S u :: ops2))
| space_end lg ops1 u ops2 :
    ops1 ++ ops2 <> [] ->
    space_step (mkspace lg (ops1 ++ u :: ops2))
      (mkspace (lg <| l_outstanding := l_outstanding lg - 1 |>) (ops1 ++ ops2))
| space_commit lg u :
    space_step (mkspace lg [u]) (mkspace (lg <| l_outstanding := l_outstanding lg - 1 |> <| l_n := 0 |>) []).

(** The log after [initlog] on the disk that mkfs makes: no operation, no
    block, [LOGSIZE] blocks of log. *)
Definition idle_log (lg : log) : Prop :=
  l_outstanding lg = 0 /\ l_n lg = 0 /\ l_committing lg = 0 /\ l_size lg = LOGSIZE /\
  length (l_block lg) = Z.to_nat LOGSIZE.

Definition reachable (lg : log) : space -> Prop := rtc space_step (mkspace lg []).

(** The log space that the operations may still use. *)
Definition budget (ops : list nat) : Z :=
  Z.of_nat (sum_list_with (fun u => Z.to_nat (MAXOPBLOCKS - Z.of_nat u)) ops).

Record space_inv (s : space) : Prop := {
  si_out : l_outstanding (sp_log s) = Z.of_nat (length (sp_ops s));
  si_n : 0 <= l_n (sp_log s);
  si_fits : l_n (sp_log s) + budget (sp_ops s) <= LOGSIZE
}.

Lemma budget_app ops1 ops2 : budget (ops1 ++ ops2) = budget ops1 + budget ops2.
Proof. unfold budget. rewrite sum_list_with_app. lia. Qed.

Lemma budget_cons u ops : budget (u :: ops) = Z.max 0 (MAXOPBLOCKS - Z.of_nat u) + budget ops.
Proof. unfold budget. simpl. lia. Qed.

Lemma budget_nonneg ops : 0 <= budget ops.
Proof. unfold budget. lia. Qed.

Lemma log_add_n lg n :
  l_n lg <= l_n (log_add lg n) <= l_n lg + 1 /\ l_outstanding (log_add lg n) = l_outstanding lg.
Proof. unfold log_add. destruct (_ =? _); rsimpl; lia. Qed.

Lemma budget_le ops : budget ops <= MAXOPBLOCKS * Z.of_nat (length ops).
Proof.
  induction ops as [|u ops IH]; [unfold budget; simpl; lia|]. rewrite budget_cons. simpl length.
  unfold MAXOPBLOCKS in *. lia.
Qed.

Lemma space_step_inv s s' : space_step s s' -> space_inv s -> space_inv s'.
Proof.
  intros Hs [Ho Hn Hf]. destruct Hs as [lg ops Hc Hfull|lg ops1 u ops2 n Hu Hbig|lg ops1 u ops2 Hne|lg u];
    simpl in *; constructor; simpl; rsimpl; try done.
  - lia.
  - unfold log_full in Hfull. rewrite Z.gtb_ltb, Z.ltb_ge in Hfull. rewrite budget_cons.
    pose proof (budget_le ops). unfold MAXOPBLOCKS in *. lia.
  - destruct (log_add_n lg n) as [_ ->]. rewrite Ho, !length_app. done.
  - pose proof (log_add_n lg n). lia.
  - pose proof (log_add_n lg n). rewrite budget_app, budget_cons in *. lia.
  - rewrite Ho, !length_app. simpl. lia.
  - rewrite budget_app in *. rewrite budget_cons in Hf. lia.
  - lia.
Qed.

Lemma space_inv_reachable lg s : idle_log lg -> reachable lg s -> space_inv s.
Proof.
  intros (Ho & Hn & _) Hr. assert (space_inv (mkspace lg [])) as H0.
  { constructor; simpl; [lia|lia|unfold budget; simpl; unfold LOGSIZE, MAXOPBLOCKS; lia]. }
  induction Hr as [|x y z Hs _ IH]; [done|]. apply IH. by eapply space_step_inv.
Qed.

(** C25: The in-memory log never overflows: whatever the interleaving of the
    operations, as long as each calls [log_write] at most [MAXOPBLOCKS] times
    the log holds at most [LOGSIZE] blocks, and the blocks in it together with
    those that the running operations may still log fit into it. *)
Theorem log_space_reserved lg s :
  idle_log lg -> reachable lg s ->
  0 <= l_n (sp_log s) <= LOGSIZE /\ l_n (sp_log s) + budget (sp_ops s) <= LOGSIZE.
Proof.
  intros Hi Hr. destruct (space_inv_reachable _ _ Hi Hr) as [_ Hn Hf].
  pose proof (budget_nonneg (sp_ops s)). lia.
Qed.

(** Executable steps, for a concrete run. *)
Inductive event : Type := E_begin | E_write (op : nat) (n : Z).

Definition space_exec (ev : event) (s : space) : option space :=
  let 'mkspace lg ops := s in
  match ev with
  | E_begin =>
      if (l_committing lg =? 0) && negb (log_full lg) then
        Some (mkspace (lg <| l_outstanding := l_outstanding lg + 1 |>) (0%nat :: ops))
      else None
  | E_write op n =>
      match ops !! op with
      | Some u =>
          if (Z.of_nat u <? MAXOPBLOCKS) && negb (too_big lg) then
            Some (mkspace (log_add lg n) (<[op := S u]> ops))
          else None
      | None => None
      end
  end.

Lemma space_exec_sound ev s s' : space_exec ev s = Some s' -> space_step s s'.
Proof.
  destruct s as [lg ops], ev as [|op n]; simpl; intros E.
  - destruct (_ =? 0) eqn:E1; [|done]. destruct (log_full lg) eqn:E2; [done|]. injection E as <-.
    apply space_begin; [by apply Z.eqb_eq|done].
  - destruct (ops !! op) as [u|] eqn:Hu; [|done]. destruct (_ <? _) eqn:E1; [|done].
    destruct (too_big lg) eqn:E2; [done|]. injection E as <-. apply Z.ltb_lt in E1.
    apply list_elem_of_split_length in Hu as (l1 & l2 & -> & ->).
    rewrite insert_app_r_alt, Nat.sub_diag by done. by apply space_write.
Qed.

Fixpoint space_run (evs : list event) (s : space) : option space :=
  match evs with
  | [] => Some s
  | ev :: evs => s' ← space_exec ev s; space_run evs s'
  end.

Lemma space_run_sound evs s s' : space_run evs s = Some s' -> rtc space_step s s'.
Proof.
  revert s. induction evs as [|ev evs IH]; simpl; intros s E.
  - injection E as ->. done.
  - destruct (space_exec ev s) as [s1|] eqn:E1; [|done]. simpl in E.
    eapply rtc_l; [by eapply space_exec_sound|by apply IH].
Qed.

(** The log of a disk made by mkfs, with [nlog = LOGSIZE] and the log at
    block 2. *)
Definition mkfs_log : log := mklog 2 LOGSIZE 0 0 1 0 (replicate (Z.to_nat LOGSIZE) 0).

(** Three operations log ten, ten and nine blocks. *)
Definition crowded : list event :=
  [E_begin; E_begin; E_begin] ++
  map (fun j => E_write (j / 10) (100 + Z.of_nat j)) (seq 0 29).

Lemma crowded_runs :
  exists s, reachable mkfs_log s /\ sp_ops s = [10; 10; 9]%nat /\
    too_big (sp_log s) = true.
Proof.
  assert ((fun s => (sp_ops s, too_big (sp_log s))) <$> space_run crowded (mkspace mkfs_log [])
    = Some ([10; 10; 9]%nat, true)) as E by (vm_compute; reflexivity).
  apply fmap_Some in E as (s & Hs & [= H1 H2]). exists s.
  split; [exact (space_run_sound _ _ _ Hs)|clear Hs; by split].
Qed.

(** C26: The reservation of [begin_op] is one block short of what [log_write]
    asks for.  mkfs makes the log [LOGSIZE] blocks long, of which the header
    takes one; three operations that each stay within [MAXOPBLOCKS] can reach
    a state where the next [log_write] of one of them panics. *)
Theorem log_space_one_short :
  exists s u, reachable mkfs_log s /\ u ∈ sp_ops s /\ Z.of_nat u < MAXOPBLOCKS /\
    forall b k e, k_log k = sp_log s -> log_write b k e = Panic "too big a transaction" k.
Proof.
  destruct crowded_runs as (s & E & Hops & Hbig).
  exists s, 9%nat. split_and!.
  - done.
  - rewrite Hops. set_solver.
  - done.
  - intros b k e Hk. unfold log_write, get_log. mrun. by rewrite Hk, Hbig.
Qed.

Lemma log_space_reserved_witness :
  exists s, sp_ops s = [10; 10; 9]%nat /\
    (0 <= l_n (sp_log s) <= LOGSIZE /\ l_n (sp_log s) + budget (sp_ops s) <= LOGSIZE).
Proof.
  destruct crowded_runs as (s & E & Hops & Hbig).
  exists s. split; [done|].
  by apply (log_space_reserved mkfs_log).
Defined.
