(* ===== verification/Fs.v ===== *)
(** The file system (fs.c): blocks, inodes, their contents, directories and
    path names.  An inode pointer is an index of the inode cache. *)

From S2P Require Import Prelude Types Spinlock Proc Sleeplock Bio Bytes Log Str Cprintf.

(** ** fs.h and stat.h *)

Definition ROOTINO : Z := 1.
Definition NINDIRECT : nat := 128.
Definition MAXFILE : Z := Z.of_nat (NDIRECT + NINDIRECT).
Definition IPB : Z := 8.
Definition IBLOCK (i : Z) (sb : superblock) : Z := u32 (i / IPB + sb_inodestart sb).
Definition BPB : Z := 4096.
Definition BBLOCK (b : Z) (sb : superblock) : Z := u32 (b / BPB + sb_bmapstart sb).
Definition T_DIR : Z := 1.
Definition T_FILE : Z := 2.
Definition T_DEV : Z := 3.

(** [struct stat] *)
Record stat : Type := mkstat {
  st_type : Z; st_dev : Z; st_ino : Z; st_nlink : Z; st_size : Z
}.

(** [struct dirent], as its 16 bytes: [inum] and [name]. *)
Definition DIRENT : Z := 16.
Definition de_inum (de : list Z) : Z := get16 de 0.
Definition de_name (de : list Z) : list Z := drop 2 de.

(** The words of [struct dinode]: the offset of inode [inum] in its block,
    then of its fields. *)
Definition di_off (inum : Z) : nat := Z.to_nat (inum mod IPB * 64).
Definition di_addr (o : nat) (j : nat) : nat := (o + 12 + 4 * j)%nat.

(** ** Blocks *)

Definition get_sb : K superblock := gets k_sb.
Definition data_byte (r : buf) (j : Z) : Z := byte_at (b_data r) (Z.to_nat j).
Definition set_data (b : nat) (f : block -> block) : K unit :=
  upd_buf b (fun r => r <| b_data := f (b_data r) |>).

Definition bzero (dev bno : Z) : K unit :=
  bp ← bread (u32 dev) (u32 bno);
  set_data bp (fun _ => replicate BSIZE 0) ;;
  log_write bp ;;
  brelse bp.

(** [for(b = 0; b < sb.size; b += BPB)]; [for(bi = 0; bi < BPB && b + bi <
    sb.size; bi++)]. *)
Definition bitmap_blocks (sb : superblock) : list Z :=
  map (fun j => BPB * Z.of_nat j) (seq 0 (Z.to_nat ((sb_size sb + BPB - 1) / BPB))).
Definition bitmap_bits (sb : superblock) (b : Z) : list Z :=
  map Z.of_nat (seq 0 (Z.to_nat (Z.min BPB (sb_size sb - b)))).

Definition balloc (dev : Z) : K Z :=
  sb ← get_sb;
  r ← for_loop (bitmap_blocks sb) (fun b =>
    bp ← bread dev (BBLOCK b sb);
    found ← for_loop (bitmap_bits sb b) (fun bi =>
      let m := Z.shiftl 1 (Z.rem bi 8) in
      r ← get_buf bp;
      if Z.land (data_byte r (Z.quot bi 8)) m =? 0 then
        set_data bp (fun d => <[Z.to_nat (Z.quot bi 8) :=
          u8 (Z.lor (byte_at d (Z.to_nat (Z.quot bi 8))) m)]> d) ;;
        log_write bp ;;
        brelse bp ;;
        bzero dev (b + bi) ;;
        mret (Some (b + bi))
      else mret None);
    match found with
    | Some v => mret (Some v)
    | None => brelse bp ;; mret None
    end);
  match r with
  | Some v => mret v
  | None => panic "balloc: out of blocks"
  end.

Definition bfree (dev b : Z) : K unit :=
  sb ← get_sb;
  bp ← bread (u32 dev) (BBLOCK b sb);
  let bi := b mod BPB in
  let m := Z.shiftl 1 (Z.rem bi 8) in
  r ← get_buf bp;
  if Z.land (data_byte r (Z.quot bi 8)) m =? 0 then panic "freeing free block" else
  set_data bp (fun d => <[Z.to_nat (Z.quot bi 8) :=
    u8 (Z.land (byte_at d (Z.to_nat (Z.quot bi 8))) (Z.lnot m))]> d) ;;
  log_write bp ;;
  brelse bp.

(** ** Inodes *)

Definition get_inode (i : nat) : K inode :=
  r ← gets (fun k : kernel => k_inodes k !! i); deref "bad inode pointer" r.
Definition upd_inode (i : nat) (f : inode -> inode) : K unit :=
  modify (fun k => k <| k_inodes := alter f i (k_inodes k) |>).

Definition iinit (dev : Z) : K unit :=
  for_each (seq 0 NINODE) (fun i => initsleeplock (SL_inode i)) ;;
  sb ← readsb dev;
  modify (fun k => k <| k_sb := sb |>) ;;
  cprintf (bytes "sb: size %d nblocks %d ninodes %d nlog %d logstart %d inodestart %d bmap start %d" ++ [10])
    [PInt (sb_size sb); PInt (sb_nblocks sb); PInt (sb_ninodes sb); PInt (sb_nlog sb);
     PInt (sb_logstart sb); PInt (sb_inodestart sb); PInt (sb_bmapstart sb)].

(** The search of [iget]: the entry of the inode, or the first free one. *)
Fixpoint iget_loop (l : list nat) (dev inum : Z) (empty : option nat) : K (nat + option nat) :=
  match l with
  | [] => mret (inr empty)
  | i :: l =>
      r ← get_inode i;
      if (0 <? i_ref r) && (i_dev r =? dev) && (i_inum r =? inum) then
        upd_inode i (fun r => r <| i_ref := i_ref r + 1 |>) ;;
        release L_icache ;;
        mret (inl i)
      else
        iget_loop l dev inum
          (match empty with
           | Some j => Some j
           | None => if i_ref r =? 0 then Some i else None
           end)
  end.

Definition iget (dev inum : Z) : K nat :=
  acquire L_icache ;;
  r ← iget_loop (seq 0 NINODE) dev inum None;
  match r with
  | inl i => mret i
  | inr None => panic "iget: no inodes"
  | inr (Some i) =>
      upd_inode i (fun r => r <| i_dev := dev |>) ;;
      upd_inode i (fun r => r <| i_inum := inum |>) ;;
      upd_inode i (fun r => r <| i_ref := 1 |>) ;;
      upd_inode i (fun r => r <| i_valid := 0 |>) ;;
      release L_icache ;;
      mret i
  end.

(** The inode numbers [1 <= inum < sb.ninodes]. *)
Definition inums (sb : superblock) : list Z := map Z.of_nat (seq 1 (Z.to_nat (sb_ninodes sb - 1))).

Definition ialloc (dev type : Z) : K nat :=
  sb ← get_sb;
  r ← for_loop (inums sb) (fun inum =>
    bp ← bread dev (IBLOCK inum sb);
    let o := di_off inum in
    r ← get_buf bp;
    if get16 (b_data r) o =? 0 then
      set_data bp (fun d => take o d ++ replicate 64 0 ++ drop (o + 64) d) ;;
      set_data bp (put16 o type) ;;
      log_write bp ;;
      brelse bp ;;
      i ← iget dev inum;
      mret (Some i)
    else
      brelse bp ;;
      mret None);
  match r with
  | Some i => mret i
  | None => panic "ialloc: no inodes"
  end.

(** [memmove(dip->addrs, ip->addrs, sizeof(ip->addrs))] and back. *)
Fixpoint put_addrs (o : nat) (l : list Z) (d : block) : block :=
  match l with
  | [] => d
  | a :: l => put_addrs (o + 4) l (put32 o a d)
  end.
Definition get_addrs (o : nat) (d : block) : list Z :=
  map (fun j => get32 d (o + 4 * j)) (seq 0 (NDIRECT + 1)).

Definition iupdate (i : nat) : K unit :=
  sb ← get_sb;
  ip ← get_inode i;
  bp ← bread (i_dev ip) (IBLOCK (i_inum ip) sb);
  ip ← get_inode i;
  let o := di_off (i_inum ip) in
  set_data bp (put16 o (i_type ip)) ;;
  set_data bp (put16 (o + 2) (i_major ip)) ;;
  set_data bp (put16 (o + 4) (i_minor ip)) ;;
  set_data bp (put16 (o + 6) (i_nlink ip)) ;;
  set_data bp (put32 (o + 8) (i_size ip)) ;;
  set_data bp (put_addrs (o + 12) (i_addrs ip)) ;;
  log_write bp ;;
  brelse bp.

Definition idup (i : nat) : K nat :=
  acquire L_icache ;;
  upd_inode i (fun r => r <| i_ref := i_ref r + 1 |>) ;;
  release L_icache ;;
  mret i.

Definition ilock (ip : option nat) : K unit :=
  match ip with
  | None => panic "ilock"
  | Some i =>
      r ← get_inode i;
      if i_ref r <? 1 then panic "ilock" else
      acquiresleep (SL_inode i) ;;
      r ← get_inode i;
      if i_valid r =? 0 then
        sb ← get_sb;
        bp ← bread (i_dev r) (IBLOCK (i_inum r) sb);
        b ← get_buf bp;
        let d := b_data b in
        let o := di_off (i_inum r) in
        upd_inode i (fun r => r <| i_type := s16 (get16 d o) |>) ;;
        upd_inode i (fun r => r <| i_major := s16 (get16 d (o + 2)) |>) ;;
        upd_inode i (fun r => r <| i_minor := s16 (get16 d (o + 4)) |>) ;;
        upd_inode i (fun r => r <| i_nlink := s16 (get16 d (o + 6)) |>) ;;
        upd_inode i (fun r => r <| i_size := get32 d (o + 8) |>) ;;
        upd_inode i (fun r => r <| i_addrs := get_addrs (o + 12) d |>) ;;
        brelse bp ;;
        upd_inode i (fun r => r <| i_valid := 1 |>) ;;
        r ← get_inode i;
        if i_type r =? 0 then panic "ilock: no type" else mret tt
      else mret tt
  end.

Definition iunlock (ip : option nat) : K unit :=
  match ip with
  | None => panic "iunlock"
  | Some i =>
      h ← holdingsleep (SL_inode i);
      r ← get_inode i;
      if negb h || (i_ref r <? 1) then panic "iunlock" else
      releasesleep (SL_inode i)
  end.

(** ** The contents of inodes *)

(** [ip->addrs[j]]: outside the array the behaviour is undefined. *)
Definition get_addr (i : nat) (j : nat) : K Z :=
  r ← get_inode i; deref "ip->addrs" (i_addrs r !! j).
Definition set_addr (i : nat) (j : nat) (v : Z) : K unit :=
  upd_inode i (fun r => r <| i_addrs := <[j := v]> (i_addrs r) |>).

(** [if((addr = ip->addrs[j]) == 0) ip->addrs[j] = addr = balloc(ip->dev)] *)
Definition addr_or_alloc (i : nat) (j : nat) : K Z :=
  addr ← get_addr i j;
  if addr =? 0 then
    r ← get_inode i;
    addr ← balloc (i_dev r);
    set_addr i j addr ;;
    mret addr
  else mret addr.

Definition bmap (i : nat) (bn : Z) : K Z :=
  if bn <? Z.of_nat NDIRECT then addr_or_alloc i (Z.to_nat bn) else
  let bn := bn - Z.of_nat NDIRECT in
  if bn <? Z.of_nat NINDIRECT then
    addr ← addr_or_alloc i NDIRECT;
    r ← get_inode i;
    bp ← bread (i_dev r) addr;
    b ← get_buf bp;
    let addr := get32 (b_data b) (4 * Z.to_nat bn) in
    addr ← (if addr =? 0 then
        r ← get_inode i;
        addr ← balloc (i_dev r);
        set_data bp (put32 (4 * Z.to_nat bn) addr) ;;
        log_write bp ;;
        mret addr
      else mret addr);
    brelse bp ;;
    mret addr
  else panic "bmap: out of range".

Definition itrunc (i : nat) : K unit :=
  for_each (seq 0 NDIRECT) (fun j =>
    a ← get_addr i j;
    if negb (a =? 0) then
      r ← get_inode i;
      bfree (s32 (i_dev r)) a ;;
      set_addr i j 0
    else mret tt) ;;
  a ← get_addr i NDIRECT;
  (if negb (a =? 0) then
     r ← get_inode i;
     bp ← bread (i_dev r) a;
     for_each (seq 0 NINDIRECT) (fun j =>
       b ← get_buf bp;
       let x := get32 (b_data b) (4 * j) in
       if negb (x =? 0) then r ← get_inode i; bfree (s32 (i_dev r)) x else mret tt) ;;
     brelse bp ;;
     r ← get_inode i;
     a ← get_addr i NDIRECT;
     bfree (s32 (i_dev r)) a ;;
     set_addr i NDIRECT 0
   else mret tt) ;;
  upd_inode i (fun r => r <| i_size := 0 |>) ;;
  iupdate i.

Definition iput (i : nat) : K unit :=
  acquiresleep (SL_inode i) ;;
  r ← get_inode i;
  (if negb (i_valid r =? 0) && (i_nlink r =? 0) then
     acquire L_icache ;;
     r ← get_inode i;
     let ref := i_ref r in
     release L_icache ;;
     if ref =? 1 then
       itrunc i ;;
       upd_inode i (fun r => r <| i_type := 0 |>) ;;
       iupdate i ;;
       upd_inode i (fun r => r <| i_valid := 0 |>)
     else mret tt
   else mret tt) ;;
  releasesleep (SL_inode i) ;;
  acquire L_icache ;;
  upd_inode i (fun r => r <| i_ref := i_ref r - 1 |>) ;;
  release L_icache.

Definition iunlockput (i : nat) : K unit := iunlock (Some i) ;; iput i.

Definition stati (i : nat) : K stat :=
  r ← get_inode i;
  mret (mkstat (i_type r) (s32 (i_dev r)) (i_inum r) (i_nlink r) (i_size r)).
