(* ===== verification/FsIo.v ===== *)
(** Reading and writing inodes, directories and path names (fs.c).

    Destination and source buffers are byte lists: [readi] returns the bytes
    it stores at [dst] with its return value, [writei] gets the bytes at
    [src]. *)

From S2P Require Import Prelude Types Spinlock Proc Sleeplock Bio Bytes Log Str Cprintf Fs.

(** ** Devices

    [devsw] of file.c: the read and the write routine of each device, which a
    driver installs. *)
Class Devsw : Type := {
  dev_read : Z -> option (nat -> Z -> K (Z * list Z));
  dev_write : Z -> option (nat -> list Z -> Z -> K Z)
}.

Section FsIo.
  Context `{Devsw}.

(** The copying loop of [readi]: [for(tot=0; tot<n; tot+=m, off+=m, dst+=m)].
    A pass copies at least one byte, and all but the first and the last copy a
    block. *)
Fixpoint readi_loop (fuel : nat) (i : nat) (tot off n : Z) (dst : list Z) : K (list Z) :=
  if tot <? n then
    match fuel with
    | O => undef "readi: fuel"
    | S fuel =>
        r ← get_inode i;
        bn ← bmap i (off / Z.of_nat BSIZE);
        bp ← bread (i_dev r) bn;
        let m := Z.min (n - tot) (Z.of_nat BSIZE - off mod Z.of_nat BSIZE) in
        b ← get_buf bp;
        let d := take (Z.to_nat m) (drop (Z.to_nat (off mod Z.of_nat BSIZE)) (b_data b)) in
        brelse bp ;;
        readi_loop fuel i (tot + m) (off + m) n (dst ++ d)
    end
  else mret dst.

Definition io_fuel (n : Z) : nat := Z.to_nat (n / Z.of_nat BSIZE + 2).

Definition readi (i : nat) (off n : Z) : K (Z * list Z) :=
  ip ← get_inode i;
  if i_type ip =? T_DEV then
    if (i_major ip <? 0) || (i_major ip >=? NDEV) then mret (-1, []) else
    match dev_read (i_major ip) with
    | None => mret (-1, [])
    | Some f => f i n
    end
  else if (off >? i_size ip) || (u32 (off + n) <? off) then mret (-1, []) else
  let n := if u32 (off + n) >? i_size ip then u32 (i_size ip - off) else n in
  d ← readi_loop (io_fuel n) i 0 off n [];
  mret (s32 n, d).

(** [memmove(bp->data + o, src, m)] *)
Definition put_bytes (o : nat) (src d : list Z) : list Z :=
  take o d ++ src ++ drop (o + length src) d.

Fixpoint writei_loop (fuel : nat) (i : nat) (tot off n : Z) (src : list Z) : K Z :=
  if tot <? n then
    match fuel with
    | O => undef "writei: fuel"
    | S fuel =>
        r ← get_inode i;
        bn ← bmap i (off / Z.of_nat BSIZE);
        bp ← bread (i_dev r) bn;
        let m := Z.min (n - tot) (Z.of_nat BSIZE - off mod Z.of_nat BSIZE) in
        set_data bp (put_bytes (Z.to_nat (off mod Z.of_nat BSIZE)) (take (Z.to_nat m) src)) ;;
        log_write bp ;;
        brelse bp ;;
        writei_loop fuel i (tot + m) (off + m) n (drop (Z.to_nat m) src)
    end
  else mret off.

Definition writei (i : nat) (src : list Z) (off n : Z) : K Z :=
  ip ← get_inode i;
  if i_type ip =? T_DEV then
    if (i_major ip <? 0) || (i_major ip >=? NDEV) then mret (-1) else
    match dev_write (i_major ip) with
    | None => mret (-1)
    | Some f => f i src n
    end
  else if (off >? i_size ip) || (u32 (off + n) <? off) then mret (-1) else
  if u32 (off + n) >? MAXFILE * Z.of_nat BSIZE then mret (-1) else
  off ← writei_loop (io_fuel n) i 0 off n src;
  ip ← get_inode i;
  (if (n >? 0) && (off >? i_size ip) then
     upd_inode i (fun r => r <| i_size := off |>) ;;
     iupdate i
   else mret tt) ;;
  mret (s32 n).

(** ** Directories *)

(** Two strings in memory, as the string routines see them. *)
Definition at_0 : Z := 0.
Definition at_64 : Z := 64.
Definition two_strings (s t : list Z) : mem := fun a =>
  if a <? at_64 then default 0 (s !! Z.to_nat a) else default 0 (t !! Z.to_nat (a - at_64)).

Definition namecmp (s t : list Z) : Z := strncmp at_0 at_64 (Z.of_nat DIRSIZ) (two_strings s t).

(** The loop over the entries: [off < dp->size], one entry every 16 bytes. *)
Fixpoint dirlookup_loop (fuel : nat) (dp : nat) (name : list Z) (off : Z) : K (option (nat * Z)) :=
  r ← get_inode dp;
  if off <? i_size r then
    match fuel with
    | O => undef "dirlookup: fuel"
    | S fuel =>
        rd ← readi dp off DIRENT;
        let '(n, de) := rd in
        if negb (n =? DIRENT) then panic "dirlookup read" else
        if de_inum de =? 0 then dirlookup_loop fuel dp name (off + DIRENT) else
        if namecmp name (de_name de) =? 0 then
          r ← get_inode dp;
          i ← iget (i_dev r) (de_inum de);
          mret (Some (i, off))
        else dirlookup_loop fuel dp name (off + DIRENT)
    end
  else mret None.

Definition dir_fuel (size : Z) : nat := Z.to_nat (size / DIRENT + 1).

(** The inode with its [*poff]. *)
Definition dirlookup (dp : nat) (name : list Z) : K (option (nat * Z)) :=
  r ← get_inode dp;
  if negb (i_type r =? T_DIR) then panic "dirlookup not DIR" else
  dirlookup_loop (dir_fuel (i_size r)) dp name 0.

(** The offset of the first free entry, or the end of the directory. *)
Fixpoint free_entry (fuel : nat) (dp : nat) (off : Z) : K Z :=
  r ← get_inode dp;
  if u32 off <? i_size r then
    match fuel with
    | O => undef "dirlink: fuel"
    | S fuel =>
        rd ← readi dp (u32 off) DIRENT;
        let '(n, de) := rd in
        if negb (n =? DIRENT) then panic "dirlink read" else
        if de_inum de =? 0 then mret off else free_entry fuel dp (off + DIRENT)
    end
  else mret off.

(** [strncpy(de.name, name, DIRSIZ)]: the 14 bytes of the entry's name. *)
Definition strncpy_name (name : list Z) : list Z :=
  let m := strncpy at_0 at_64 (Z.of_nat DIRSIZ) (two_strings [] name) in
  map (fun j => m (Z.of_nat j)) (seq 0 DIRSIZ).

Definition dirlink (dp : nat) (name : list Z) (inum : Z) : K Z :=
  l ← dirlookup dp name;
  match l with
  | Some (ip, _) => iput ip ;; mret (-1)
  | None =>
      r ← get_inode dp;
      off ← free_entry (dir_fuel (i_size r)) dp 0;
      let de := put16 0 inum (replicate 2 0) ++ strncpy_name name in
      n ← writei dp de (u32 off) DIRENT;
      if negb (n =? DIRENT) then panic "dirlink" else mret 0
  end.

(** ** Path names

    A path is the list of its bytes, without the NUL; a pointer into it is
    the rest of the list. *)

Definition SLASH : Z := 47.

Fixpoint skip_slashes (path : list Z) : list Z :=
  match path with
  | c :: path' => if c =? SLASH then skip_slashes path' else path
  | [] => []
  end.

(** [while( *path != '/' && *path != 0) path++]: the bytes passed over, and
    the rest. *)
Fixpoint span_elem (path : list Z) : list Z * list Z :=
  match path with
  | c :: path' => if c =? SLASH then ([], path) else let '(s, r) := span_elem path' in (c :: s, r)
  | [] => ([], [])
  end.

(** [name] is the buffer of [DIRSIZ] bytes; [None] is the null pointer. *)
Definition skipelem (path name : list Z) : option (list Z * list Z) :=
  match skip_slashes path with
  | [] => None
  | path =>
      let '(s, path) := span_elem path in
      let name :=
        if (DIRSIZ <=? length s)%nat then put_bytes 0 (take DIRSIZ s) name
        else put_bytes 0 (s ++ [0]) name in
      Some (skip_slashes path, name)
  end.

Fixpoint namex_loop (fuel : nat) (ip : nat) (path : list Z) (nameiparent : bool) (name : list Z)
    : K (option nat * list Z) :=
  match skipelem path name with
  | None => if nameiparent then iput ip ;; mret (None, name) else mret (Some ip, name)
  | Some (path, name) =>
      match fuel with
      | O => undef "namex: fuel"
      | S fuel =>
          ilock (Some ip) ;;
          r ← get_inode ip;
          if negb (i_type r =? T_DIR) then iunlockput ip ;; mret (None, name) else
          if nameiparent && bool_decide (path = []) then iunlock (Some ip) ;; mret (Some ip, name) else
          next ← dirlookup ip name;
          match next with
          | None => iunlockput ip ;; mret (None, name)
          | Some (next, _) => iunlockput ip ;; namex_loop fuel next path nameiparent name
          end
      end
  end.

Definition namex (path : list Z) (nameiparent : bool) (name : list Z) : K (option nat * list Z) :=
  ip ← (if bool_decide (head path = Some SLASH) then iget ROOTDEV ROOTINO
        else i ← curproc; p ← get_proc i; cwd ← deref "cwd" (p_cwd p); idup cwd);
  namex_loop (length path) ip path nameiparent name.

(** The local buffer of [namei] is not initialised; its contents do not
    matter, as [skipelem] terminates every name shorter than the buffer. *)
Definition namei (path : list Z) : K (option nat) :=
  r ← namex path false (replicate DIRSIZ 0); mret (fst r).

Definition nameiparent (path name : list Z) : K (option nat * list Z) := namex path true name.
End FsIo.
