(* ===== verification/Path.v ===== *)
(** Path names (fs.c, [skipelem] and [namex]): the elements a path is walked
    by, against a reference definition. *)

From S2P Require Import Prelude Types Str Fs FsIo.

(** ** Reference: the non-empty parts between the slashes *)

Fixpoint split_slash (path : list Z) : list (list Z) :=
  match path with
  | [] => [[]]
  | c :: path =>
      if c =? SLASH then [] :: split_slash path
      else match split_slash path with
           | s :: l => (c :: s) :: l
           | [] => [[c]]
           end
  end.

Definition elements (path : list Z) : list (list Z) := filter (fun s => s <> []) (split_slash path).

(** The buffer [name] holds element [s]: all of it and a NUL, or its first
    [DIRSIZ] bytes. *)
Definition holds_name (name s : list Z) : Prop :=
  if (DIRSIZ <=? length s)%nat then take DIRSIZ name = take DIRSIZ s
  else take (length s + 1) name = s ++ [0].

Section Path.
  Implicit Types (path name s : list Z).

Lemma split_slash_cons path : exists s l, split_slash path = s :: l.
Proof.
  destruct path as [|c path]; simpl; [by exists [], []|]. destruct (c =? SLASH); [by eexists _, _|].
  destruct (split_slash path); by eexists _, _.
Qed.

Lemma elements_skip path : elements (skip_slashes path) = elements path.
Proof.
  induction path as [|c path IH]; [done|]. simpl. destruct (c =? SLASH) eqn:E; [|done].
  rewrite IH. unfold elements. simpl. rewrite E. by rewrite filter_cons_False by auto.
Qed.

Lemma skip_slashes_head path : head (skip_slashes path) <> Some SLASH.
Proof.
  induction path as [|c path IH]; [done|]. simpl. destruct (c =? SLASH) eqn:E; [done|].
  simpl. apply Z.eqb_neq in E. congruence.
Qed.

Lemma skip_slashes_length path : (length (skip_slashes path) <= length path)%nat.
Proof. induction path as [|c path IH]; [done|]. simpl. destruct (c =? SLASH); simpl; lia. Qed.

(** One element off the front of a path that does not start with a slash. *)
Lemma span_elem_spec path s rest :
  span_elem path = (s, rest) ->
  path = s ++ rest /\ split_slash path = s :: tail (split_slash path) /\
  (rest = [] /\ tail (split_slash path) = [] \/
   exists r, rest = SLASH :: r /\ tail (split_slash path) = split_slash r).
Proof.
  revert s rest. induction path as [|c path IH]; intros s rest E; simpl in *.
  { injection E as <- <-. split_and!; [done|done|by left]. }
  destruct (c =? SLASH) eqn:Ec.
  - injection E as <- <-. apply Z.eqb_eq in Ec. subst c. split_and!; [done|done|right; by eexists].
  - destruct (span_elem path) as [s' r'] eqn:E'. injection E as <- <-.
    destruct (IH s' r' eq_refl) as (Hp & Hs & Hr). rewrite Hs. simpl. split_and!; [by rewrite Hp at 1|done|].
    destruct Hr as [Hr|(r & Hr & Ht)]; [by left|right; by exists r].
Qed.

Lemma span_elem_cons c path : c <> SLASH -> exists s rest, span_elem (c :: path) = (c :: s, rest).
Proof.
  intros Hc. simpl. rewrite (proj2 (Z.eqb_neq _ _) Hc). destruct (span_elem path) as [s rest]. eauto.
Qed.

Lemma put_bytes_prefix s name :
  take (length s) (put_bytes 0 s name) = s.
Proof. unfold put_bytes. simpl. by rewrite take_app_length. Qed.

Lemma length_put_bytes o s d : (o + length s <= length d)%nat -> length (put_bytes o s d) = length d.
Proof. intros. unfold put_bytes. rewrite !length_app, length_take, length_drop. lia. Qed.

Lemma holds_name_put s name :
  length name = DIRSIZ ->
  let name' := if (DIRSIZ <=? length s)%nat then put_bytes 0 (take DIRSIZ s) name
               else put_bytes 0 (s ++ [0]) name in
  holds_name name' s /\ length name' = DIRSIZ.
Proof.
  intros Hl. unfold holds_name. destruct (DIRSIZ <=? length s)%nat eqn:E; simpl.
  - apply Nat.leb_le in E. assert (length (take DIRSIZ s) = DIRSIZ) as Ht by (rewrite length_take; lia).
    split; [|rewrite length_put_bytes; lia].
    rewrite <-Ht at 1. apply put_bytes_prefix.
  - apply Nat.leb_gt in E. assert (length (s ++ [0]) = (length s + 1)%nat) as Ht by (by rewrite length_app).
    split; [|rewrite length_put_bytes; lia]. rewrite <-Ht. apply put_bytes_prefix.
Qed.

(** C28: [skipelem] walks a path by its elements.  With [elements path] the
    non-empty parts of the path between its slashes, [skipelem] returns the
    null pointer exactly when there is none; otherwise the name buffer holds
    the first element, cut to [DIRSIZ] bytes or terminated, and the returned
    path has the remaining elements, does not start with a slash, is empty
    exactly when the element was the last, and is shorter, so that the loop of
    [namex] ends. *)
Theorem skipelem_elements path name :
  length name = DIRSIZ ->
  match skipelem path name with
  | None => elements path = []
  | Some (rest, name') =>
      exists s, elements path = s :: elements rest /\ holds_name name' s /\ length name' = DIRSIZ /\
        head rest <> Some SLASH /\ (rest = [] <-> elements rest = []) /\ (length rest < length path)%nat
  end.
Proof.
  intros Hl. unfold skipelem. rewrite <-(elements_skip path).
  pose proof (skip_slashes_head path) as Hh. pose proof (skip_slashes_length path) as Hlen.
  destruct (skip_slashes path) as [|c path'] eqn:Ep; [done|].
  assert (c <> SLASH) as Hc by (intros ->; done).
  destruct (span_elem_cons c path' Hc) as (s & rest & Es). rewrite Es.
  destruct (span_elem_spec _ _ _ Es) as (Hp & Hs & Hr).
  exists (c :: s). destruct (holds_name_put (c :: s) name Hl) as [Hn Hn'].
  assert (elements (c :: path') = (c :: s) :: elements (skip_slashes rest)) as He.
  { unfold elements. rewrite Hs, filter_cons_True by done. f_equal.
    destruct Hr as [(-> & Ht)|(r & -> & Ht)]; rewrite Ht; [done|].
    change (filter (fun s => s <> []) (split_slash r)) with (elements r).
    change (filter _ (split_slash (skip_slashes (SLASH :: r)))) with (elements (skip_slashes (SLASH :: r))).
    simpl. by rewrite elements_skip. }
  split_and!; try done.
  - apply skip_slashes_head.
  - split; [by intros ->|]. intros He0. destruct (skip_slashes rest) as [|x y] eqn:Ex; [done|]. exfalso.
    pose proof (skip_slashes_head rest) as Hx. rewrite Ex in Hx.
    destruct (span_elem_cons x y) as (s1 & r1 & E1); [intros ->; done|].
    destruct (span_elem_spec _ _ _ E1) as (_ & Hs1 & _). unfold elements in He0. rewrite Hs1 in He0.
    by rewrite filter_cons_True in He0.
  - apply (f_equal length) in Hp. rewrite length_app in Hp. simpl in *.
    pose proof (skip_slashes_length rest). lia.
Qed.
End Path.

Lemma skipelem_elements_witness :
  match skipelem (bytes "///a//bb") (replicate DIRSIZ 0) with
  | None => elements (bytes "///a//bb") = []
  | Some (rest, name') =>
      exists s, elements (bytes "///a//bb") = s :: elements rest /\ holds_name name' s /\
        length name' = DIRSIZ /\ head rest <> Some SLASH /\ (rest = [] <-> elements rest = []) /\
        (length rest < length (bytes "///a//bb"))%nat
  end.
Proof. apply (skipelem_elements (bytes "///a//bb") (replicate DIRSIZ 0)). reflexivity. Defined.
