(* ===== verification/Tx.v ===== *)
(** Code inside a transaction (between [begin_op] and [end_op]): the calls of
    bio.c and log.c as steps on the abstract state of Disk.v, with the list of
    logged blocks and the inode cache. *)

From S2P Require Import Prelude Types Spinlock Proc Sleeplock Ring Bio Cache Disk Bytes Log LogWrite Str Cprintf Fs.

Section Tx.
  Context (i : nat) (p : proc) (k0 : kernel) (W : list (Z * block)).
  Context (Hcalm : calm i p k0) (Hunw : forall b, unwaited (Ch_bufsl b) k0).
  Implicit Types (lg : log) (ino : list inode) (L : list Z) (V : Z -> option block)
    (H : list (nat * Z)) (k : kernel) (e : env) (b : nat) (n m a : Z) (d : block).

(** The process's kernel state apart from the cache: the log and the inode
    cache change, the rest stays. *)
Definition base lg ino : kernel := k0 <| k_log := lg |> <| k_inodes := ino |>.

(** In a transaction: [L] is logged, [H] is held, [V] is what the blocks hold. *)
Record tx lg ino L V H k : Prop := {
  tx_fsys : fsys p (base lg ino) H W V (fun m => m ∈ L) k;
  tx_log : log_ok lg L (length (k_disk k0));
  tx_out : 1 <= l_outstanding lg
}.

Lemma calm_base lg ino : calm i p (base lg ino).
Proof. destruct Hcalm. by constructor. Qed.

Lemma unw_base lg ino b : unwaited (Ch_bufsl b) (base lg ino).
Proof. apply Hunw. Qed.
Hint Resolve calm_base unw_base : core.

Lemma tx_calm lg ino L V H k : tx lg ino L V H k -> calm i p k.
Proof. intros [Hf _ _]. by apply (fsys_calm i p (base lg ino) (calm_base lg ino) _ _ _ _ _ Hf). Qed.

Lemma tx_ext lg ino L V V' H k :
  tx lg ino L V H k -> (forall m, 0 <= m -> V m = V' m) -> tx lg ino L V' H k.
Proof. intros [Hf Hl Ho] HV. constructor; try done. by eapply fsys_ext. Qed.

Lemma tx_perm lg ino L V H H' k : tx lg ino L V H k -> H ≡ₚ H' -> tx lg ino L V H' k.
Proof. intros [Hf Hl Ho] HP. constructor; try done. by eapply fsys_perm. Qed.

(** Fewer than [NBUF] buffers are logged or held. *)
Definition spare L H : Prop := (length L + length H < NBUF)%nat.

Lemma bread_tx lg ino L V H k e a :
  tx lg ino L V H k -> 0 <= a < Z.of_nat (length (k_disk k0)) -> a ∉ map snd H ->
  a ∈ L \/ spare L H ->
  exists b k', bread 1 a k e = Ret b k' e /\ tx lg ino L V ((b, a) :: H) k'.
Proof.
  intros [Hf Hl Ho] Ha HaH Hs.
  destruct (bread_fsys i p (base lg ino) (calm_base lg ino) H W V (fun m => m ∈ L) k e a L)
    as (b & k' & Hr & Hf' & _); [done|done|done| |].
  - destruct Hs as [Hs|Hs]; [by left|by right].
  - exists b, k'. by split_and!.
Qed.

Lemma get_buf_tx lg ino L V H k e b a :
  tx lg ino L V H k -> (b, a) ∈ H ->
  exists r d, get_buf b k e = Ret r k e /\ V a = Some d /\ b_data r = d /\ b_blockno r = a /\
    length d = BSIZE /\ 0 <= a < Z.of_nat (length (k_disk k0)).
Proof.
  intros [Hf _ _] Hin. destruct (fsys_held p (base lg ino) _ _ _ _ _ _ _ Hf Hin) as (d & HV & Hl & Ha & Hg).
  destruct (Hg e) as (r & Hr & Hn & Hd). by exists r, d.
Qed.

Lemma set_data_tx lg ino L V H k e b a d f :
  tx lg ino L V H k -> (b, a) ∈ H -> V a = Some d -> length (f d) = BSIZE ->
  exists k', set_data b f k e = Ret tt k' e /\ tx lg ino L (fupd a (Some (f d)) V) H k'.
Proof.
  intros [Hf Hl Ho] Hin HV Hlen.
  destruct (upd_data_fsys p (base lg ino) H W V (fun m => m ∈ L) k e b a d f Hf Hin HV Hlen) as (k' & Hr & Hf').
  by exists k'.
Qed.

Lemma log_write_tx lg ino L V H k e b a :
  tx lg ino L V H k -> (b, a) ∈ H -> ~ (l_start lg <= a < l_start lg + l_size lg) ->
  Z.of_nat (length L) < l_size lg - 1 ->
  exists k', log_write b k e = Ret tt k' e /\ tx (log_add lg a) ino (logged a L) V H k'.
Proof.
  intros [Hf Hl Ho] Hin Hout Hroom.
  destruct (fsys_held p (base lg ino) _ _ _ _ _ _ _ Hf Hin) as (d & _ & _ & Ha & _).
  destruct (log_write_fsys i p (base lg ino) L (calm_base lg ino) Hl H W V k e b a Hf Hin Ho Hroom)
    as (k' & Hr & Hf').
  exists k'. split; [done|]. constructor.
  - exact Hf'.
  - exact (log_add_ok i p (base lg ino) L (calm_base lg ino) Hl a Ha Hout Hroom).
  - pose proof (log_add_n lg a) as [_ ->]. done.
Qed.

Lemma brelse_tx lg ino L V H k e b a :
  tx lg ino L V ((b, a) :: H) k -> a ∈ L \/ wr W (k_disk k0) !! Z.to_nat a = V a ->
  exists k', brelse b k e = Ret tt k' e /\ tx lg ino L V H k'.
Proof.
  intros [Hf Hl Ho] Hor.
  destruct (brelse_fsys i p (base lg ino) (calm_base lg ino) (unw_base lg ino) H W V
    (fun m => m ∈ L) k e b a Hf Hor) as (k' & Hr & Hf').
  by exists k'.
Qed.

Lemma tx_unheld lg ino L V H k a :
  tx lg ino L V H k -> 0 <= a -> a ∉ L -> a ∉ map snd H -> V a = wr W (k_disk k0) !! Z.to_nat a.
Proof. intros [Hf _ _] Ha HaL HaH. by apply (fsys_unheld p (base lg ino) H W V (fun m => m ∈ L) k a Hf). Qed.

(** Reading a block and letting it go again. *)
Lemma read_tx lg ino L V H k e a :
  tx lg ino L V H k -> 0 <= a < Z.of_nat (length (k_disk k0)) -> a ∉ map snd H -> a ∈ L \/ spare L H ->
  exists b k1 r d k2, bread 1 a k e = Ret b k1 e /\ get_buf b k1 e = Ret r k1 e /\
    V a = Some d /\ b_data r = d /\ length d = BSIZE /\
    brelse b k1 e = Ret tt k2 e /\ tx lg ino L V H k2.
Proof.
  intros Ht Ha HaH Hs. destruct (bread_tx _ _ _ _ _ _ e a Ht Ha HaH Hs) as (b & k1 & Hr1 & Ht1).
  pose proof (list_elem_of_here (b, a) H) as Hin.
  destruct (get_buf_tx _ _ _ _ _ _ e b a Ht1 Hin) as (r & d & Hg & HV & Hd & _ & Hl & _).
  destruct (brelse_tx _ _ _ _ _ _ e b a Ht1) as (k2 & Hr2 & Ht2).
  - destruct (decide (a ∈ L)) as [|HaL]; [by left|right].
    symmetry. by apply (tx_unheld lg ino L V H k a Ht (proj1 Ha)).
  - by exists b, k1, r, d, k2.
Qed.

(** The inode cache. *)
Lemma tx_inodes lg ino L V H k : tx lg ino L V H k -> k_inodes k = ino.
Proof. by intros [(bs & -> & _) _ _]. Qed.

Lemma get_inode_tx lg ino L V H k e j ip :
  tx lg ino L V H k -> ino !! j = Some ip -> get_inode j k e = Ret ip k e.
Proof.
  intros Ht Hj. unfold get_inode. mrun. rewrite (tx_inodes _ _ _ _ _ _ Ht). by rewrite Hj.
Qed.

Lemma upd_inode_tx lg ino L V H k e j f :
  tx lg ino L V H k ->
  exists k', upd_inode j f k e = Ret tt k' e /\ tx lg (alter f j ino) L V H k'.
Proof.
  intros Ht. pose proof (tx_inodes _ _ _ _ _ _ Ht) as Ei. unfold upd_inode, modify. rewrite Ei.
  eexists. split; [done|]. destruct Ht as [(bs & -> & Hf) Hl Ho]. constructor; try done.
  exists bs. split; [done|]. destruct Hf. by constructor.
Qed.

Lemma get_sb_tx lg ino L V H k e : tx lg ino L V H k -> get_sb k e = Ret (k_sb k0) k e.
Proof. by intros [(bs & -> & _) _ _]. Qed.
End Tx.
