(* ===== verification/FileData.v ===== *)
(** The contents of files (fs.c, [bmap], [readi] and [writei]), against the
    file as one sequence of bytes. *)

From S2P Require Import Prelude Types Spinlock Proc Sleeplock Ring Bio Cache Disk Bytes Log LogWrite Str Cprintf Fs FsIo Tx Crash.

(** ** Block maps *)

(** Block [bn] of the file of inode [ip], in a file system with contents [V]:
    a direct block or an entry of the indirect block. *)
Definition block_of (ip : inode) (V : Z -> option block) (bn : nat) : option Z :=
  if (bn <? NDIRECT)%nat then i_addrs ip !! bn
  else a ← i_addrs ip !! NDIRECT; d ← V a; Some (get32 d (4 * (bn - NDIRECT))).

(** The file has block [bn] at [a], on a disk of [len] blocks. *)
Record mapped (ip : inode) (V : Z -> option block) (len : nat) (bn : nat) (a : Z) : Prop := {
  mp_block : block_of ip V bn = Some a;
  mp_range : 0 < a < Z.of_nat len;
  mp_bn : (bn < NDIRECT + NINDIRECT)%nat;
  mp_ind : (NDIRECT <= bn)%nat -> exists x, i_addrs ip !! NDIRECT = Some x /\ 0 < x < Z.of_nat len
}.

(** The file is [f]: its length is the inode's size, and each of its blocks is
    mapped to a disk block that holds that part of [f]. *)
Record holds_file (ip : inode) (V : Z -> option block) (len : nat) (f : list Z) : Prop := {
  hf_size : i_size ip = Z.of_nat (length f);
  hf_block : forall bn, (bn * BSIZE < length f)%nat ->
    exists a d, mapped ip V len bn a /\ V a = Some d /\
      forall o, (bn * BSIZE + o < length f)%nat -> (o < BSIZE)%nat -> d !! o = f !! (bn * BSIZE + o)%nat
}.

Section Data.
  Context (i : nat) (p : proc) (k0 : kernel) (W : list (Z * block)).
  Context (Hcalm : calm i p k0) (Hunw : forall b, unwaited (Ch_bufsl b) k0).
  Context `{Devsw}.
  Implicit Types (lg : log) (ino : list inode) (L : list Z) (V : Z -> option block)
    (k : kernel) (e : env) (a : Z) (d : block) (j bn : nat) (ip : inode) (f : list Z).
  Abbreviation tx := (tx p k0 W).
  Abbreviation len := (length (k_disk k0)).

(** [bmap] of a mapped block gives its address and changes nothing. *)
Lemma bmap_mapped lg ino L V k e j ip bn a :
  tx lg ino L V [] k -> ino !! j = Some ip -> i_dev ip = 1 -> mapped ip V len bn a ->
  spare L [] ->
  exists k', bmap j (Z.of_nat bn) k e = Ret a k' e /\ tx lg ino L V [] k'.
Proof.
  intros Ht Hj Hd [Hb Hr Hbn Hi] Hs. unfold bmap, block_of in *.
  destruct (bn <? NDIRECT)%nat eqn:E.
  - apply Nat.ltb_lt in E. rewrite (proj2 (Z.ltb_lt _ _)) by lia. rewrite Nat2Z.id.
    unfold addr_or_alloc, get_addr. rewrite bind_assoc. mcall (get_inode_tx p k0 W); [done..|].
    rewrite Hb. mrun. rewrite (proj2 (Z.eqb_neq _ _)) by lia. by exists k.
  - apply Nat.ltb_ge in E. rewrite (proj2 (Z.ltb_ge _ _)) by lia.
    rewrite (proj2 (Z.ltb_lt _ _)) by lia. destruct (Hi E) as (x & Hx & Hxr).
    rewrite Hx in Hb. cbn [mbind option_bind] in Hb. destruct (V x) as [d|] eqn:HV; [|done].
    cbn [mbind option_bind] in Hb. apply (inj Some) in Hb as Ha.
    unfold addr_or_alloc, get_addr. rewrite !bind_assoc. mcall (get_inode_tx p k0 W); [done..|].
    rewrite Hx. mrun. rewrite (proj2 (Z.eqb_neq x 0)) by lia. mrun.
    mcall (get_inode_tx p k0 W); [done..|]. rewrite Hd.
    destruct (read_tx i p k0 W Hcalm Hunw lg ino L V [] k e x Ht) as
      (b & k1 & r & d' & k2 & Hr1 & Hg & HV' & Hd' & _ & Hr2 & Ht2); [lia|apply not_elem_of_nil|by right|].
    rewrite HV in HV'. injection HV' as <-.
    rewrite (bind_Ret _ _ _ _ _ _ _ Hr1), (bind_Ret _ _ _ _ _ _ _ Hg), Hd'.
    replace (Z.to_nat (Z.of_nat bn - Z.of_nat NDIRECT)) with (bn - NDIRECT)%nat by lia.
    rewrite Ha, (proj2 (Z.eqb_neq a 0)) by lia. mrun. by exists k2.
Qed.

(** The bytes of the file that one pass of the loop of [readi] copies. *)
Lemma file_slice ip V f d bn o m :
  (forall x, (bn * BSIZE + x < length f)%nat -> (x < BSIZE)%nat -> d !! x = f !! (bn * BSIZE + x)%nat) ->
  length d = BSIZE -> (o + m <= BSIZE)%nat -> (bn * BSIZE + o + m <= length f)%nat ->
  take m (drop o d) = take m (drop (bn * BSIZE + o) f).
Proof.
  intros Hd Hl Hm Hf. apply list_eq. intros x. destruct (decide (x < m)%nat) as [Hx|Hx].
  - rewrite !lookup_take_lt, !lookup_drop by done. rewrite Hd by lia. f_equal. lia.
  - rewrite !lookup_take_ge by lia. done.
Qed.

Lemma take_drop_add (f : list Z) off t m :
  take t (drop off f) ++ take m (drop (off + t) f) = take (t + m) (drop off f).
Proof. by rewrite <-drop_drop, take_take_drop. Qed.

Lemma readi_loop_run lg ino L V j ip f off n :
  ino !! j = Some ip -> i_dev ip = 1 -> holds_file ip V len f -> spare L [] ->
  (off + n <= length f)%nat -> forall fuel t k e,
  tx lg ino L V [] k -> (t <= n)%nat ->
  t = n \/ (n - t + (off + t) mod BSIZE <= BSIZE * fuel)%nat ->
  exists k', readi_loop fuel j (Z.of_nat t) (Z.of_nat (off + t)) (Z.of_nat n) (take t (drop off f)) k e
    = Ret (take n (drop off f)) k' e /\ tx lg ino L V [] k'.
Proof.
  intros Hj Hd Hfile Hs Hn fuel. induction fuel as [|fuel IH]; intros t k e Ht Hle Hfuel.
  - assert (t = n) as -> by (destruct Hfuel; lia). simpl. rewrite Z.ltb_irrefl. by exists k.
  - simpl. destruct (decide (t = n)) as [->|Hne]; [rewrite Z.ltb_irrefl; by exists k|].
    rewrite (proj2 (Z.ltb_lt _ _)) by lia. mcall (get_inode_tx p k0 W); [done..|].
    set (bn := ((off + t) / BSIZE)%nat). set (o := ((off + t) mod BSIZE)%nat).
    assert (off + t = bn * BSIZE + o /\ o < BSIZE)%nat as [Hoff Ho].
    { unfold bn, o. rewrite Nat.mul_comm. split; [apply Nat.div_mod_eq|].
      apply Nat.mod_upper_bound. unfold BSIZE. lia. }
    destruct (hf_block _ _ _ _ Hfile bn) as (a & d & Hmap & HV & Hdata); [lia|].
    replace (Z.of_nat (off + t) / Z.of_nat BSIZE) with (Z.of_nat bn) by (unfold bn; by rewrite Nat2Z.inj_div).
    destruct (bmap_mapped lg ino L V k e j ip bn a Ht Hj Hd Hmap Hs) as (k1 & Hr1 & Ht1).
    rewrite (bind_Ret _ _ _ _ _ _ _ Hr1), Hd.
    destruct (read_tx i p k0 W Hcalm Hunw lg ino L V [] k1 e a Ht1) as
      (b & k2 & r & d' & k3 & Hr2 & Hg & HV' & Hd' & Hdl & Hr3 & Ht3);
      [destruct Hmap; lia|apply not_elem_of_nil|by right|].
    rewrite HV in HV'. injection HV' as <-.
    rewrite (bind_Ret _ _ _ _ _ _ _ Hr2), (bind_Ret _ _ _ _ _ _ _ Hg), Hd', (bind_Ret _ _ _ _ _ _ _ Hr3).
    replace (Z.of_nat (off + t) mod Z.of_nat BSIZE) with (Z.of_nat o) by (unfold o; by rewrite Nat2Z.inj_mod).
    set (m := Nat.min (n - t) (BSIZE - o)).
    replace (Z.min (Z.of_nat n - Z.of_nat t) (Z.of_nat BSIZE - Z.of_nat o)) with (Z.of_nat m) by lia.
    rewrite !Nat2Z.id. rewrite (file_slice ip V f d bn o m Hdata Hdl) by lia.
    rewrite <-Hoff, take_drop_add.
    replace (Z.of_nat t + Z.of_nat m) with (Z.of_nat (t + m)) by lia.
    replace (Z.of_nat (off + t) + Z.of_nat m) with (Z.of_nat (off + (t + m))) by lia.
    apply IH; [done|lia|].
    destruct (decide (m = BSIZE - o)%nat) as [Em|Em].
    + right. replace (off + (t + m))%nat with ((bn + 1) * BSIZE)%nat by lia.
      rewrite Nat.Div0.mod_mul. fold o in Hfuel. destruct Hfuel; lia.
    + left. lia.
Qed.

(** [readi] returns the part of the file it is asked for, cut at the end of the
    file, and leaves the file system as it was. *)
Lemma readi_run lg ino L V k e j ip f off n :
  tx lg ino L V [] k -> ino !! j = Some ip -> i_dev ip = 1 -> i_type ip <> T_DEV ->
  holds_file ip V len f -> spare L [] -> Z.of_nat (length f) < 2 ^ 31 ->
  0 <= off <= Z.of_nat (length f) -> 0 <= n -> off + n < 2 ^ 32 ->
  let m := Z.min n (Z.of_nat (length f) - off) in
  exists k', readi j off n k e = Ret (m, take (Z.to_nat m) (drop (Z.to_nat off) f)) k' e /\
    tx lg ino L V [] k'.
Proof.
  intros Ht Hj Hd Hty Hfile Hs Hlen Hoff Hn Hov m. pose proof (hf_size _ _ _ _ Hfile) as Hsz.
  unfold readi. mcall (get_inode_tx p k0 W); [done..|]. rewrite (proj2 (Z.eqb_neq _ _) Hty), Hsz.
  rewrite (u32_small (off + n)) by lia.
  assert ((off >? Z.of_nat (length f)) || (off + n <? off) = false) as ->.
  { apply orb_false_iff. rewrite Z.gtb_ltb, !Z.ltb_ge. lia. }
  assert ((if off + n >? Z.of_nat (length f) then u32 (Z.of_nat (length f) - off) else n) = m) as ->.
  { unfold m. destruct (Z.gtb_spec (off + n) (Z.of_nat (length f))); [rewrite u32_small|]; lia. }
  destruct (readi_loop_run lg ino L V j ip f (Z.to_nat off) (Z.to_nat m) Hj Hd Hfile Hs) with (io_fuel m) 0%nat k e
    as (k' & Hr & Ht'); [lia|done|lia| |].
  - right. unfold io_fuel. pose proof (Nat.mod_upper_bound (Z.to_nat off + 0) BSIZE).
    pose proof (Z.div_mod m (Z.of_nat BSIZE)). pose proof (Z.mod_pos_bound m (Z.of_nat BSIZE)).
    unfold BSIZE in *. lia.
  - rewrite Nat.add_0_r in Hr. change (Z.of_nat 0) with 0 in Hr. rewrite !Z2Nat.id in Hr by lia.
    change (take 0 (drop (Z.to_nat off) f)) with (@nil Z) in Hr.
    rewrite (bind_Ret _ _ _ _ _ _ _ Hr), mret_run. exists k'. split; [|done]. do 2 f_equal.
    apply s32_small. lia.
Qed.

(** ** Writing *)

Lemma put_bytes_lookup o (s d : list Z) x :
  (o + length s <= length d)%nat ->
  put_bytes o s d !! x = if decide (o <= x < o + length s)%nat then s !! (x - o)%nat else d !! x.
Proof.
  intros Hl. unfold put_bytes. assert (length (take o d) = o) as Ht by (rewrite length_take; lia).
  case_decide as E.
  - rewrite lookup_app_r, Ht by lia. apply lookup_app_l. lia.
  - destruct (decide (x < o)%nat) as [Hx|Hx].
    + rewrite lookup_app_l by lia. by apply lookup_take_lt.
    + rewrite lookup_app_r, Ht by lia. rewrite lookup_app_r, lookup_drop by lia. f_equal. lia.
Qed.

Lemma length_put_bytes' o (s d : list Z) : (o + length s <= length d)%nat -> length (put_bytes o s d) = length d.
Proof. intros. unfold put_bytes. rewrite !length_app, length_take, length_drop. lia. Qed.

(** Writing two adjacent pieces. *)
Lemma put_bytes_app o (s t f : list Z) :
  (o + length s + length t <= length f)%nat ->
  put_bytes (o + length s) t (put_bytes o s f) = put_bytes o (s ++ t) f.
Proof.
  intros Hl. apply list_eq. intros x.
  rewrite (put_bytes_lookup (o + length s)) by (rewrite length_put_bytes'; lia).
  rewrite !put_bytes_lookup by (rewrite ?length_app; lia). rewrite length_app.
  destruct (decide (o + length s <= x < o + length s + length t)%nat);
    destruct (decide (o <= x < o + length s)%nat);
    destruct (decide (o <= x < o + (length s + length t))%nat); try lia; try done.
  - rewrite lookup_app_r by lia. f_equal. lia.
  - by rewrite lookup_app_l by lia.
Qed.

(** The blocks of the file do not overlap, lie outside the log, and none is
    the indirect block. *)
Record own_blocks (ip : inode) V lg : Prop := {
  ob_inj : forall bn bn' a, mapped ip V len bn a -> mapped ip V len bn' a -> bn = bn';
  ob_ind : forall bn a, mapped ip V len bn a -> i_addrs ip !! NDIRECT <> Some a;
  ob_log : forall bn a, mapped ip V len bn a -> ~ (l_start lg <= a < l_start lg + l_size lg)
}.

Lemma mapped_fupd ip V bn a v :
  i_addrs ip !! NDIRECT <> Some a -> forall bn' a',
  mapped ip (fupd a v V) len bn' a' <-> mapped ip V len bn' a'.
Proof.
  intros Ha bn' a'. assert (block_of ip (fupd a v V) bn' = block_of ip V bn') as E.
  { unfold block_of. destruct (bn' <? NDIRECT)%nat; [done|].
    destruct (i_addrs ip !! NDIRECT) as [x|] eqn:Ex; [|done]. cbn [mbind option_bind].
    rewrite fupd_ne by congruence. done. }
  split; intros []; constructor; (done || congruence).
Qed.

Lemma own_blocks_fupd ip V lg lg' a v :
  i_addrs ip !! NDIRECT <> Some a -> l_start lg' = l_start lg -> l_size lg' = l_size lg ->
  own_blocks ip V lg -> own_blocks ip (fupd a v V) lg'.
Proof.
  intros Ha E1 E2 [H1 H2 H3]. constructor.
  - intros bn bn' a' Hm Hm'. rewrite mapped_fupd in Hm, Hm' by done. eauto.
  - intros bn a' Hm. rewrite mapped_fupd in Hm by done. eauto.
  - intros bn a' Hm. rewrite mapped_fupd in Hm by done. rewrite E1, E2. eauto.
Qed.

(** Writing a piece of one block writes that piece of the file. *)
Lemma holds_file_write ip V lg f bn a d o c :
  holds_file ip V len f -> own_blocks ip V lg -> mapped ip V len bn a -> V a = Some d ->
  length d = BSIZE -> (o + length c <= BSIZE)%nat -> (bn * BSIZE + o + length c <= length f)%nat ->
  (forall x, (bn * BSIZE + x < length f)%nat -> (x < BSIZE)%nat -> d !! x = f !! (bn * BSIZE + x)%nat) ->
  holds_file ip (fupd a (Some (put_bytes o c d)) V) len (put_bytes (bn * BSIZE + o) c f).
Proof.
  intros [Hsz Hb] Hob Hm HV Hdl Ho Hf Hd. pose proof (ob_ind _ _ _ Hob _ _ Hm) as Hind.
  constructor; [by rewrite length_put_bytes' by lia|]. rewrite length_put_bytes' by lia.
  intros bn' Hbn'. destruct (decide (bn' = bn)) as [->|Hne].
  - exists a, (put_bytes o c d). split_and!; [by apply mapped_fupd|apply fupd_eq|].
    intros x Hx Hxb. rewrite !put_bytes_lookup by lia.
    destruct (decide (o <= x < o + length c)%nat), (decide (bn * BSIZE + o <= bn * BSIZE + x < bn * BSIZE + o + length c)%nat);
      try lia; [f_equal; lia|by apply Hd].
  - destruct (Hb bn' Hbn') as (a' & d' & Hm' & HV' & Hd'). exists a', d'.
    assert (a' <> a) as Ha by (intros ->; apply Hne; by apply (ob_inj _ _ _ Hob) with a).
    split_and!; [by apply mapped_fupd|by rewrite fupd_ne|].
    intros x Hx Hxb. rewrite put_bytes_lookup by lia. rewrite decide_False; [by apply Hd'|].
    intros Hr. apply Hne. unfold BSIZE in *. lia.
Qed.

Lemma log_add_place lg a : l_start (log_add lg a) = l_start lg /\ l_size (log_add lg a) = l_size lg.
Proof. unfold log_add. by destruct (_ =? _). Qed.

Lemma length_logged a L : (length (logged a L) <= length L + 1)%nat.
Proof. unfold logged. case_decide; [lia|]. rewrite length_app. simpl. lia. Qed.

(** One pass of the loop of [writei] on a mapped block. *)
Lemma writei_step lg ino L V k e j ip bn a f o c :
  tx lg ino L V [] k -> ino !! j = Some ip -> i_dev ip = 1 ->
  holds_file ip V len f -> own_blocks ip V lg -> mapped ip V len bn a ->
  Z.of_nat (length L) < l_size lg - 1 -> (bn * BSIZE < length f)%nat ->
  (o + length c <= BSIZE)%nat -> (bn * BSIZE + o + length c <= length f)%nat ->
  exists b k1 k2 k3 k4 k5 V', bmap j (Z.of_nat bn) k e = Ret a k1 e /\ bread 1 a k1 e = Ret b k2 e /\
    set_data b (put_bytes o c) k2 e = Ret tt k3 e /\ log_write b k3 e = Ret tt k4 e /\
    brelse b k4 e = Ret tt k5 e /\ tx (log_add lg a) ino (logged a L) V' [] k5 /\
    holds_file ip V' len (put_bytes (bn * BSIZE + o) c f) /\ own_blocks ip V' (log_add lg a) /\
    (forall m, m <> a -> V' m = V m) /\
    (forall bn' a', mapped ip V' len bn' a' <-> mapped ip V len bn' a').
Proof.
  intros Ht Hj Hd Hfile Hob Hm Hroom Hbn Ho Hf.
  assert (spare L []) as Hs.
  { unfold spare. simpl. pose proof (lk_size _ _ _ (tx_log _ _ _ _ _ _ _ _ _ Ht)).
    unfold LOGSIZE, MAXOPBLOCKS, NBUF in *. lia. }
  destruct (hf_block _ _ _ _ Hfile bn Hbn) as (a' & d & Hm' & HV & Hdata).
  assert (a' = a) as -> by (destruct Hm as [E1], Hm' as [E2]; congruence).
  pose proof (ob_ind _ _ _ Hob _ _ Hm) as Hind.
  destruct (bmap_mapped lg ino L V k e j ip bn a Ht Hj Hd Hm Hs) as (k1 & Hr1 & Ht1).
  destruct (bread_tx i p k0 W Hcalm lg ino L V [] k1 e a Ht1) as (b & k2 & Hr2 & Ht2);
    [destruct Hm; lia|apply not_elem_of_nil|by right|].
  pose proof (list_elem_of_here (b, a) []) as Hin.
  destruct (get_buf_tx p k0 W lg ino L V _ k2 e b a Ht2 Hin) as (_ & d' & _ & HV' & _ & _ & Hdl & _).
  rewrite HV in HV'. injection HV' as <-.
  destruct (set_data_tx p k0 W lg ino L V _ k2 e b a d (put_bytes o c) Ht2 Hin HV) as (k3 & Hr3 & Ht3);
    [rewrite length_put_bytes'; lia|].
  destruct (log_write_tx i p k0 W Hcalm lg ino L _ _ k3 e b a Ht3 Hin) as (k4 & Hr4 & Ht4);
    [by apply (ob_log _ _ _ Hob bn)|done|].
  destruct (brelse_tx i p k0 W Hcalm Hunw _ _ _ _ [] k4 e b a Ht4) as (k5 & Hr5 & Ht5).
  { left. unfold logged. case_decide; [done|set_solver]. }
  destruct (log_add_place lg a) as [E1 E2].
  exists b, k1, k2, k3, k4, k5. eexists. split_and!; try done.
  - by apply holds_file_write with lg.
  - by apply own_blocks_fupd with lg.
  - intros m Hne. by apply fupd_ne.
  - intros bn' a'. by apply mapped_fupd.
Qed.

(** What [writei] has done to the file system: the file is [f'], and only
    blocks of the file have changed. *)
Record written ip V lg f' lg' V' : Prop := {
  wt_file : holds_file ip V' len f';
  wt_own : own_blocks ip V' lg';
  wt_other : forall m, (forall bn, ~ mapped ip V len bn m) -> V' m = V m;
  wt_mapped : forall bn a, mapped ip V' len bn a <-> mapped ip V len bn a;
  wt_place : l_start lg' = l_start lg /\ l_size lg' = l_size lg
}.

Lemma writei_loop_run lg0 ino V0 j ip f off src :
  ino !! j = Some ip -> i_dev ip = 1 -> (off + length src <= length f)%nat ->
  forall fuel t lg L V k e,
  tx lg ino L V [] k -> (t <= length src)%nat -> written ip V0 lg0 (put_bytes off (take t src) f) lg V ->
  Z.of_nat (length L + fuel) <= l_size lg - 1 ->
  t = length src \/ (length src - t + (off + t) mod BSIZE <= BSIZE * fuel)%nat ->
  exists k' lg' L' V', writei_loop fuel j (Z.of_nat t) (Z.of_nat (off + t)) (Z.of_nat (length src)) (drop t src) k e
    = Ret (Z.of_nat (off + length src)) k' e /\ tx lg' ino L' V' [] k' /\
    written ip V0 lg0 (put_bytes off src f) lg' V'.
Proof.
  intros Hj Hd Hn fuel. induction fuel as [|fuel IH]; intros t lg L V k e Ht Hle Hw Hroom Hfuel.
  - assert (t = length src) as -> by (destruct Hfuel; lia). simpl. rewrite Z.ltb_irrefl.
    exists k, lg, L, V. split_and!; [done|done|]. by rewrite take_ge in Hw by lia.
  - simpl. destruct (decide (t = length src)) as [->|Hne].
    { rewrite Z.ltb_irrefl. exists k, lg, L, V. split_and!; [done|done|]. by rewrite take_ge in Hw by lia. }
    rewrite (proj2 (Z.ltb_lt _ _)) by lia. mcall (get_inode_tx p k0 W); [done..|].
    set (bn := ((off + t) / BSIZE)%nat). set (o := ((off + t) mod BSIZE)%nat).
    assert (off + t = bn * BSIZE + o /\ o < BSIZE)%nat as [Hoff Ho].
    { unfold bn, o. rewrite Nat.mul_comm. split; [apply Nat.div_mod_eq|].
      apply Nat.mod_upper_bound. unfold BSIZE. lia. }
    set (m := Nat.min (length src - t) (BSIZE - o)). set (c := take m (drop t src)).
    assert (length c = m) as Hc by (unfold c; rewrite length_take, length_drop; lia).
    assert (length (put_bytes off (take t src) f) = length f) as Hlf.
    { apply length_put_bytes'. rewrite length_take. lia. }
    destruct (hf_block _ _ _ _ (wt_file _ _ _ _ _ _ Hw) bn) as (a & _ & Hmap & _); [lia|].
    replace (Z.of_nat (off + t) / Z.of_nat BSIZE) with (Z.of_nat bn) by (unfold bn; by rewrite Nat2Z.inj_div).
    replace (Z.of_nat (off + t) mod Z.of_nat BSIZE) with (Z.of_nat o) by (unfold o; by rewrite Nat2Z.inj_mod).
    destruct (writei_step lg ino L V k e j ip bn a _ o c Ht Hj Hd (wt_file _ _ _ _ _ _ Hw)
      (wt_own _ _ _ _ _ _ Hw) Hmap) as
      (b & k1 & k2 & k3 & k4 & k5 & V' & Hr1 & Hr2 & Hr3 & Hr4 & Hr5 & Ht5 & Hf' & Hob' & HV' & Hmp');
      [lia|lia|lia|lia|].
    rewrite (bind_Ret _ _ _ _ _ _ _ Hr1), Hd, (bind_Ret _ _ _ _ _ _ _ Hr2).
    replace (Z.min (Z.of_nat (length src) - Z.of_nat t) (Z.of_nat BSIZE - Z.of_nat o)) with (Z.of_nat m) by lia.
    rewrite !Nat2Z.id. fold c.
    rewrite (bind_Ret _ _ _ _ _ _ _ Hr3), (bind_Ret _ _ _ _ _ _ _ Hr4), (bind_Ret _ _ _ _ _ _ _ Hr5).
    replace (Z.of_nat t + Z.of_nat m) with (Z.of_nat (t + m)) by lia.
    replace (Z.of_nat (off + t) + Z.of_nat m) with (Z.of_nat (off + (t + m))) by lia.
    rewrite drop_drop. destruct (log_add_place lg a) as [E1 E2]. destruct (wt_place _ _ _ _ _ _ Hw) as [E3 E4].
    assert (written ip V0 lg0 (put_bytes off (take (t + m) src) f) (log_add lg a) V') as Hw'.
    { constructor.
      - replace (take (t + m) src) with (take t src ++ c) by (unfold c; by rewrite take_take_drop).
        rewrite <-put_bytes_app by (rewrite length_take, Hc; lia).
        replace (off + length (take t src))%nat with (bn * BSIZE + o)%nat by (rewrite length_take; lia). done.
      - done.
      - intros x Hx. rewrite HV'; [by apply (wt_other _ _ _ _ _ _ Hw)|]. intros ->.
        apply (Hx bn). by apply (wt_mapped _ _ _ _ _ _ Hw).
      - intros bn' a'. rewrite Hmp'. apply (wt_mapped _ _ _ _ _ _ Hw).
      - split; congruence. }
    destruct (IH (t + m)%nat _ _ V' k5 e Ht5) as (k' & lg' & L' & V'' & Hr & Ht' & Hw''); [lia|done| | |].
    + pose proof (length_logged a L). rewrite E2. lia.
    + destruct (decide (m = BSIZE - o)%nat) as [Em|Em]; [right|left; lia].
      replace (off + (t + m))%nat with ((bn + 1) * BSIZE)%nat by lia.
      rewrite Nat.Div0.mod_mul. fold o in Hfuel. destruct Hfuel; lia.
    + by exists k', lg', L', V''.
Qed.

(** [writei] inside the file replaces the bytes at [off]. *)
Lemma writei_run lg ino L V k e j ip f off src :
  tx lg ino L V [] k -> ino !! j = Some ip -> i_dev ip = 1 -> i_type ip <> T_DEV ->
  holds_file ip V len f -> own_blocks ip V lg -> (off + length src <= length f)%nat ->
  Z.of_nat (length f) <= MAXFILE * Z.of_nat BSIZE ->
  Z.of_nat (length L) + Z.of_nat (length src) / Z.of_nat BSIZE + 2 <= l_size lg - 1 ->
  exists k' lg' L' V', writei j src (Z.of_nat off) (Z.of_nat (length src)) k e
    = Ret (Z.of_nat (length src)) k' e /\ tx lg' ino L' V' [] k' /\
    written ip V lg (put_bytes off src f) lg' V'.
Proof.
  intros Ht Hj Hd Hty Hfile Hob Hn Hmax Hroom. pose proof (hf_size _ _ _ _ Hfile) as Hsz.
  assert (MAXFILE * Z.of_nat BSIZE < 2 ^ 31) as Hmax' by reflexivity.
  unfold writei. mcall (get_inode_tx p k0 W); [done..|]. rewrite (proj2 (Z.eqb_neq _ _) Hty), Hsz.
  rewrite u32_small by lia. replace (_ || _) with false by (symmetry; apply orb_false_iff; zcases; lia).
  rewrite Z.gtb_ltb, (proj2 (Z.ltb_ge _ _)) by lia.
  destruct (writei_loop_run lg ino V j ip f off src Hj Hd Hn (io_fuel (Z.of_nat (length src))) 0%nat lg L V k e)
    as (k' & lg' & L' & V' & Hr & Ht' & Hw); [done|lia| | | |].
  - constructor; try done. unfold put_bytes. simpl. by rewrite Nat.add_0_r, take_drop.
  - unfold io_fuel. assert (0 <= Z.of_nat (length src) / Z.of_nat BSIZE) by (apply Z.div_pos; unfold BSIZE; lia).
    lia.
  - right. unfold io_fuel. pose proof (Nat.mod_upper_bound (off + 0) BSIZE).
    pose proof (Z.div_mod (Z.of_nat (length src)) (Z.of_nat BSIZE)).
    pose proof (Z.mod_pos_bound (Z.of_nat (length src)) (Z.of_nat BSIZE)). unfold BSIZE in *. lia.
  - rewrite Nat.add_0_r in Hr. change (Z.of_nat 0) with 0 in Hr. change (drop 0 src) with src in Hr.
    rewrite (bind_Ret _ _ _ _ _ _ _ Hr). mcall (get_inode_tx p k0 W); [done..|].
    rewrite Hsz, (Z.gtb_ltb (Z.of_nat (off + length src))), (proj2 (Z.ltb_ge _ _)) by lia.
    rewrite andb_false_r. mrun. exists k', lg', L', V'. split_and!; [|done|done].
    f_equal. apply s32_small. lia.
Qed.

(** C2: Files behave as byte sequences.  Take a file whose blocks are mapped
    to distinct blocks outside the log, with contents [f].  Writing [src] at
    [off] inside the file returns its length; reading any range afterwards
    returns that range of [f] with [src] in place, cut at the end of the file;
    and no block that is not the file's changes. *)
Theorem file_write_read lg ino L V k e j ip f off src off' n :
  tx lg ino L V [] k -> ino !! j = Some ip -> i_dev ip = 1 -> i_type ip <> T_DEV ->
  holds_file ip V len f -> own_blocks ip V lg -> (off + length src <= length f)%nat ->
  Z.of_nat (length f) <= MAXFILE * Z.of_nat BSIZE ->
  Z.of_nat (length L) + Z.of_nat (length src) / Z.of_nat BSIZE + 2 <= l_size lg - 1 ->
  (off' <= length f)%nat -> 0 <= n < 2 ^ 31 ->
  let m := Z.min n (Z.of_nat (length f) - Z.of_nat off') in
  exists k' lg' L' V',
    (w ← writei j src (Z.of_nat off) (Z.of_nat (length src));
     r ← readi j (Z.of_nat off') n; mret (w, r)) k e
    = Ret (Z.of_nat (length src), (m, take (Z.to_nat m) (drop off' (put_bytes off src f)))) k' e /\
    tx lg' ino L' V' [] k' /\ forall b, (forall bn, ~ mapped ip V len bn b) -> V' b = V b.
Proof.
  intros Ht Hj Hd Hty Hfile Hob Hn Hmax Hroom Hoff' Hn' m.
  destruct (writei_run lg ino L V k e j ip f off src) as (k1 & lg' & L' & V' & Hr1 & Ht1 & Hw); try done.
  assert (length (put_bytes off src f) = length f) as El by (by apply length_put_bytes').
  assert (MAXFILE * Z.of_nat BSIZE < 2 ^ 31) as Hmax' by reflexivity.
  destruct (readi_run lg' ino L' V' k1 e j ip (put_bytes off src f) (Z.of_nat off') n)
    as (k2 & Hr2 & Ht2); try done; try lia; [apply Hw| |].
  { unfold spare. simpl. pose proof (lk_size _ _ _ (tx_log _ _ _ _ _ _ _ _ _ Ht1)).
    unfold LOGSIZE, MAXOPBLOCKS, NBUF in *. lia. }
  exists k2, lg', L', V'. split_and!; [|done|apply Hw].
  rewrite (bind_Ret _ _ _ _ _ _ _ Hr1), (bind_Ret _ _ _ _ _ _ _ Hr2), mret_run.
  by rewrite El, Nat2Z.id.
Qed.
End Data.

(** ** An instance: a file of 600 zero bytes in blocks 33 and 34 *)

#[local] Instance no_devices : Devsw := {| dev_read := fun _ => None; dev_write := fun _ => None |}.

Definition demo_inode : inode :=
  mkinode 1 5 1 (mksl 1 1) 1 T_FILE 0 0 1 600 (33 :: 34 :: replicate 11 0).
Definition open_log : log := mklog 2 30 1 0 1 0 (replicate 30 0).

Lemma demo_mapped V bn a :
  mapped demo_inode V 40 bn a <-> (bn = 0%nat /\ a = 33) \/ (bn = 1%nat /\ a = 34).
Proof.
  split.
  - intros [Hb Hr Hbn Hi]. destruct (decide (NDIRECT <= bn)%nat) as [Hge|Hlt].
    + destruct (Hi Hge) as (x & Hx & Hx0). simpl in Hx. injection Hx as <-. lia.
    + unfold block_of in Hb. rewrite (proj2 (Nat.ltb_lt _ _)) in Hb by lia.
      destruct bn as [|[|bn]]; simpl in Hb; [injection Hb as <-; tauto..|].
      change (replicate 11 0 !! bn = Some a) in Hb. apply lookup_replicate in Hb as [-> _]. lia.
  - intros [[-> ->]|[-> ->]]; (constructor; [done|simpl; lia|unfold NDIRECT; lia|unfold NDIRECT; lia]).
Qed.

Lemma demo_holds V :
  V 33 = Some (replicate BSIZE 0) -> V 34 = Some (replicate BSIZE 0) ->
  holds_file demo_inode V 40 (replicate 600 0).
Proof.
  intros H1 H2. constructor; [done|]. rewrite length_replicate. intros bn Hbn. unfold BSIZE in Hbn.
  assert (exists a, mapped demo_inode V 40 bn a /\ V a = Some (replicate BSIZE 0)) as (a & Hm & HV).
  { destruct bn as [|[|bn]]; [exists 33|exists 34|lia]; (split; [apply demo_mapped; tauto|done]). }
  exists a, (replicate BSIZE 0). split_and!; try done.
  intros o Ho Hb. transitivity (Some 0); [|symmetry]; by apply lookup_replicate_2.
Qed.

Lemma file_write_read_witness :
  exists k k', (w ← writei 0 [104; 105] 511 2; r ← readi 0 510 4; mret (w, r)) k []
    = Ret (2, (4, [0; 104; 105; 0])) k' [].
Proof.
  destruct (solo_rebooted demo_disk) as (k1 & [Hc Hw Hd Ho Hb H30] & _).
  set (k0 := k1 <| k_disk := demo_disk |> <| k_log := open_log |> <| k_inodes := [demo_inode] |>).
  pose proof (fresh_fsys solo_proc k0 Ho Hb demo_bsize) as Hf.
  set (V := fun m : Z => k_disk k0 !! Z.to_nat m) in Hf.
  assert (calm 0 solo_proc k0) as Hc0 by (by destruct Hc).
  assert (tx solo_proc k0 [] open_log [demo_inode] [] V [] k0) as Ht.
  { constructor; [|constructor; try done; [constructor|by intros n ?%not_elem_of_nil]|done].
    eapply fsys_ext; [exact Hf|done|]. intros m. by rewrite elem_of_nil. }
  destruct (file_write_read 0 solo_proc k0 [] Hc0 Hw open_log [demo_inode] [] V k0 [] 0 demo_inode
    (replicate 600 0) 511 [104; 105] 510 4) as (k' & lg' & L' & V' & Hr & _); try done.
  - by apply demo_holds.
  - constructor.
    + intros bn bn' a H1%demo_mapped H2%demo_mapped. destruct H1 as [[-> ->]|[-> ->]], H2 as [[-> ?]|[-> ?]]; done.
    + intros bn a [[_ ->]|[_ ->]]%demo_mapped; done.
    + intros bn a [[_ ->]|[_ ->]]%demo_mapped; simpl; lia.
  - rewrite length_replicate. simpl. lia.
  - rewrite length_replicate. lia.
  - exists k0, k'. exact Hr.
Defined.
