(* ===== verification/ICache.v ===== *)
(** The inode cache (fs.c, [iget] and [idup]): at most one entry per inode. *)

From S2P Require Import Prelude Types Spinlock Proc Sleeplock Ring Bio Bytes Log Str Cprintf Fs.

(** The entry is in use for inode [inum] of [dev]; it is free. *)
Definition is_ino (dev inum : Z) (r : inode) : bool :=
  (0 <? i_ref r) && (i_dev r =? dev) && (i_inum r =? inum).
Definition free_ino (r : inode) : bool := i_ref r =? 0.

(** The invariant of the cache: reference counts are not negative, and the
    entries in use are for different inodes. *)
Record icache_ok (inos : list inode) : Prop := {
  ic_len : length inos = NINODE;
  ic_ref : Forall (fun r => 0 <= i_ref r) inos;
  ic_uniq : forall a b r s, inos !! a = Some r -> inos !! b = Some s -> 0 < i_ref r -> 0 < i_ref s ->
    i_dev r = i_dev s -> i_inum r = i_inum s -> a = b
}.

(** What [iget] makes of a recycled entry. *)
Definition fresh_ino (dev inum : Z) (r : inode) : inode :=
  r <| i_dev := dev |> <| i_inum := inum |> <| i_ref := 1 |> <| i_valid := 0 |>.

Section ICache.
  Context (i : nat) (p : proc).
  Implicit Types (k : kernel) (e : env) (inos : list inode) (r s : inode) (dev inum : Z).

Lemma is_ino_spec dev inum r :
  is_ino dev inum r = true <-> 0 < i_ref r /\ i_dev r = dev /\ i_inum r = inum.
Proof. unfold is_ino. rewrite !andb_true_iff, Z.ltb_lt, !Z.eqb_eq. tauto. Qed.

Lemma get_inode_run j r k e : k_inodes k !! j = Some r -> get_inode j k e = Ret r k e.
Proof. intros Hj. unfold get_inode. mrun. by rewrite Hj. Qed.

Lemma upd_inode_alter j f inos k e :
  upd_inode j f (k <| k_inodes := inos |>) e = Ret tt (k <| k_inodes := alter f j inos |>) e.
Proof. reflexivity. Qed.

Lemma set_inodes_id k : k <| k_inodes := k_inodes k |> = k.
Proof. by destruct k. Qed.

(** The search under [icache.lock], in a state [k1] of the section entered
    from [k]. *)
Lemma iget_loop_run dev inum k k1 e l : forall empty,
  calm i p k -> k_cpu k1 = cpu_acq L_icache (k_cpu k) ->
  Forall (fun j => (j < length (k_inodes k1))%nat) l ->
  iget_loop l dev inum empty k1 e =
  match pick (is_ino dev inum) (k_inodes k1) l with
  | Some j => Ret (inl j) (k1 <| k_inodes := alter (fun r => r <| i_ref := i_ref r + 1 |>) j (k_inodes k1) |>
                              <| k_cpu := k_cpu k |>) e
  | None => Ret (inr (match empty with
                      | Some j => Some j
                      | None => pick free_ino (k_inodes k1) l
                      end)) k1 e
  end.
Proof.
  induction l as [|j l IH]; intros empty Hc Hcpu Hl; simpl.
  - by destruct empty.
  - inversion_clear Hl as [|? ? Hj Hl']. apply lookup_lt_is_Some_2 in Hj as [r Hr].
    mcall get_inode_run; [done|]. rewrite Hr. simpl. fold (is_ino dev inum r).
    destruct (is_ino dev inum r).
    + unfold upd_inode, modify. mrun. mcall (release_calm i p L_icache k); [done|done|]. done.
    + rewrite IH by done. destruct (pick (is_ino dev inum) (k_inodes k1) l); [done|].
      unfold free_ino at 2. destruct empty; [done|]. by destruct (i_ref r =? 0).
Qed.

Lemma iget_run dev inum k e :
  calm i p k -> length (k_inodes k) = NINODE ->
  iget dev inum k e =
  match pick (is_ino dev inum) (k_inodes k) (seq 0 NINODE), pick free_ino (k_inodes k) (seq 0 NINODE) with
  | Some j, _ => Ret j (k <| k_inodes := alter (fun r => r <| i_ref := i_ref r + 1 |>) j (k_inodes k) |>) e
  | None, Some j => Ret j (k <| k_inodes := alter (fresh_ino dev inum) j (k_inodes k) |>) e
  | None, None => Panic "iget: no inodes" (k <| k_cpu := cpu_acq L_icache (k_cpu k) |>)
  end.
Proof.
  intros Hc Hlen. unfold iget. mcall (acquire_calm i p); [done|].
  set (k1 := k <| k_cpu := cpu_acq L_icache (k_cpu k) |>).
  pose proof (iget_loop_run dev inum k k1 e (seq 0 NINODE) None Hc eq_refl) as Hloop.
  change (k_inodes k1) with (k_inodes k) in Hloop.
  assert (Forall (fun j => (j < length (k_inodes k))%nat) (seq 0 NINODE)) as Hl.
  { apply Forall_forall. intros j Hj%elem_of_seq. lia. }
  specialize (Hloop Hl). destruct (pick (is_ino dev inum) (k_inodes k) (seq 0 NINODE)) as [j|];
    rewrite (bind_Ret _ _ _ _ _ _ _ Hloop).
  - unfold k1. rewrite mret_run. by destruct k.
  - destruct (pick free_ino (k_inodes k) (seq 0 NINODE)) as [j|] eqn:E; [|done].
    apply pick_Some in E as (_ & _ & r & _ & Hr & _).
    rewrite <-(set_inodes_id k1). do 4 (mcall upd_inode_alter; []).
    mcall (release_calm i p L_icache k); [done|done|].
    rewrite mret_run, !list_alter_alter. by destruct k.
Qed.

(** Changing one entry keeps the invariant when it stays, or becomes, the only
    one for its inode. *)
Lemma icache_ok_alter inos j r f :
  icache_ok inos -> inos !! j = Some r -> 0 <= i_ref (f r) ->
  (forall b s, b <> j -> inos !! b = Some s -> 0 < i_ref s -> 0 < i_ref (f r) ->
     ~ (i_dev s = i_dev (f r) /\ i_inum s = i_inum (f r))) ->
  icache_ok (alter f j inos).
Proof.
  intros [Hlen Href Hu] Hj Hf Hne. rewrite (list_alter_lookup _ _ _ _ Hj).
  assert (j < length inos)%nat as Hlt by by eapply lookup_lt_Some.
  constructor; [by rewrite length_insert|by apply Forall_insert|].
  intros a b x y Ha Hb Hx Hy Ed Ei.
  destruct (decide (a = j)) as [->|Haj], (decide (b = j)) as [->|Hbj]; [done|..].
  - rewrite list_lookup_insert_eq in Ha by done. injection Ha as <-.
    rewrite list_lookup_insert_ne in Hb by done. exfalso. by apply (Hne b y).
  - rewrite list_lookup_insert_eq in Hb by done. injection Hb as <-.
    rewrite list_lookup_insert_ne in Ha by done. exfalso. by apply (Hne a x).
  - rewrite list_lookup_insert_ne in Ha, Hb by done. by apply (Hu a b x y).
Qed.

Lemma no_entry dev inum inos :
  length inos = NINODE -> pick (is_ino dev inum) inos (seq 0 NINODE) = None ->
  forall b s, inos !! b = Some s -> ~ (0 < i_ref s /\ i_dev s = dev /\ i_inum s = inum).
Proof.
  intros Hlen Hp b s Hb Hs. rewrite pick_None, Forall_forall in Hp.
  specialize (Hp b). rewrite Hb in Hp. apply is_ino_spec in Hs.
  assert (b ∈ seq 0 NINODE) as Hin by (apply elem_of_seq; apply lookup_lt_Some in Hb; lia).
  specialize (Hp Hin). simpl in Hp. congruence.
Qed.

(** C27: The inode cache has at most one entry per inode.  [iget] returns the
    entry of the inode with one more reference when there is one; otherwise it
    recycles an entry without references and marks it not valid; it panics
    only when there is no entry for the inode and none is free.  No other
    entry changes, and the invariant is kept. *)
Theorem iget_one_entry dev inum k e :
  calm i p k -> icache_ok (k_inodes k) ->
  (exists j r f, iget dev inum k e = Ret j (k <| k_inodes := alter f j (k_inodes k) |>) e /\
     k_inodes k !! j = Some r /\ icache_ok (alter f j (k_inodes k)) /\
     (i_dev (f r) = dev /\ i_inum (f r) = inum /\ i_ref (f r) = i_ref r + 1) /\
     (forall b s, k_inodes k !! b = Some s -> is_ino dev inum s = true -> b = j /\ f s = s <| i_ref := i_ref s + 1 |>) /\
     (is_ino dev inum r = false -> i_ref r = 0 /\ i_valid (f r) = 0)) \/
  (exists k', iget dev inum k e = Panic "iget: no inodes" k' /\
     forall b s, k_inodes k !! b = Some s -> is_ino dev inum s = false /\ 0 < i_ref s).
Proof.
  intros Hc Hok. pose proof Hok as [Hlen Href Hu]. rewrite (iget_run dev inum k e Hc Hlen).
  destruct (pick (is_ino dev inum) (k_inodes k) (seq 0 NINODE)) as [j|] eqn:E1.
  - left. apply pick_Some in E1 as (_ & _ & r & _ & Hr & Ht & _). pose proof Ht as (H0 & Hd & Hi)%is_ino_spec.
    exists j, r, (fun r => r <| i_ref := i_ref r + 1 |>). split_and!; try done.
    + apply icache_ok_alter with r; rsimpl; try done; [lia|].
      intros b s Hb Hs Hs0 _ [Ed Ei]. apply Hb. by apply (Hu b j s r).
    + intros b s Hb (Hs0 & Hsd & Hsi)%is_ino_spec. split; [|done]. apply (Hu b j s r); congruence.
    + congruence.
  - pose proof (no_entry _ _ _ Hlen E1) as Hno.
    destruct (pick free_ino (k_inodes k) (seq 0 NINODE)) as [j|] eqn:E2; [left|right].
    + apply pick_Some in E2 as (_ & _ & r & _ & Hr & Ht & _). unfold free_ino in Ht. apply Z.eqb_eq in Ht.
      exists j, r, (fresh_ino dev inum). unfold fresh_ino at 3 4 5 6. rsimpl. split_and!; try done.
      * apply icache_ok_alter with r; unfold fresh_ino; rsimpl; try done.
        intros b s Hb Hs Hs0 _ [Ed Ei]. by apply (Hno b s Hs).
      * lia.
      * intros b s Hb Hs%is_ino_spec. by destruct (Hno b s Hb).
    + eexists. split; [done|]. intros b s Hb. split.
      * destruct (is_ino dev inum s) eqn:Es; [|done]. apply is_ino_spec in Es. by destruct (Hno b s Hb).
      * rewrite pick_None, Forall_forall in E2. specialize (E2 b). rewrite Hb in E2. simpl in E2.
        assert (b ∈ seq 0 NINODE) as Hin by (apply elem_of_seq; apply lookup_lt_Some in Hb; lia).
        specialize (E2 Hin). unfold free_ino in E2. apply Z.eqb_neq in E2.
        rewrite Forall_forall in Href. pose proof (Href s (list_elem_of_lookup_2 _ _ _ Hb)). lia.
Qed.
End ICache.

Lemma iget_one_entry_witness :
  exists k', iget 1 7 solo_kernel [] = Ret 0%nat k' [] /\ icache_ok (k_inodes k').
Proof.
  assert (icache_ok (k_inodes solo_kernel)) as Hok.
  { change (icache_ok (replicate NINODE zero_inode)). constructor; [done|by apply Forall_replicate|].
    intros a b r s Ha. apply lookup_replicate in Ha as [-> _]. simpl. lia. }
  destruct (iget_one_entry 0 solo_proc 1 7 solo_kernel [] solo_calm Hok) as
    [(j & r & f & Hr & _ & Hok' & _)|(k' & Hr & _)].
  - exists (solo_kernel <| k_inodes := alter f j (k_inodes solo_kernel) |>).
    assert (j = 0%nat) as ->; [|done].
    rewrite (iget_run 0 solo_proc 1 7 solo_kernel [] solo_calm eq_refl) in Hr.
    vm_compute in Hr. by injection Hr.
  - rewrite (iget_run 0 solo_proc 1 7 solo_kernel [] solo_calm eq_refl) in Hr. done.
Defined.
