(* ===== verification/Kalloc.v ===== *)
(** The physical page allocator (kalloc.c).  Pages are named by the kernel
    virtual addresses of their first bytes; a free page's first word is the
    address of the next free page. *)

From S2P Require Import Prelude Types Spinlock Proc Sleeplock Str.

Section Kalloc.
  (** [end], the first address after the kernel, from the linker script. *)
  Context (kend : Z).

Definition when {A} (b : bool) (m : K A) : K unit := if b then m ;; mret tt else mret tt.

Definition upd_mem (f : mem -> mem) : K unit := modify (fun k => k <| k_mem := f (k_mem k) |>).
Definition set_freelist (r : Z) : K unit :=
  modify (fun k => k <| k_kmem := k_kmem k <| km_freelist := r |> |>).

Definition kfree (v : Z) : K unit :=
  if negb (u32 v mod PGSIZE =? 0) || (v <? kend) || (V2P v >=? PHYSTOP) then panic "kfree" else
  upd_mem (memset v 1 PGSIZE) ;;
  km ← gets k_kmem;
  when (km_use_lock km) (acquire L_kmem) ;;
  km ← gets k_kmem;
  upd_mem (store32 v (km_freelist km)) ;;
  set_freelist v ;;
  km ← gets k_kmem;
  when (km_use_lock km) (release L_kmem).

Definition kalloc : K Z :=
  km ← gets k_kmem;
  when (km_use_lock km) (acquire L_kmem) ;;
  km ← gets k_kmem;
  let r := km_freelist km in
  (if negb (r =? 0) then
     m ← gets k_mem;
     set_freelist (load32 r m)
   else mret tt) ;;
  km ← gets k_kmem;
  when (km_use_lock km) (release L_kmem) ;;
  mret r.

(** [for(; p + PGSIZE <= (char* )vend; p += PGSIZE)] *)
Definition pages (p vend : Z) : list Z :=
  map (fun j => p + PGSIZE * Z.of_nat j) (seq 0 (Z.to_nat ((vend - p) / PGSIZE))).

Definition freerange (vstart vend : Z) : K unit := for_each (pages (PGROUNDUP vstart) vend) kfree.

Definition kinit1 (vstart vend : Z) : K unit :=
  modify (fun k => k <| k_kmem := k_kmem k <| km_use_lock := false |> |>) ;;
  freerange vstart vend.

Definition kinit2 (vstart vend : Z) : K unit :=
  freerange vstart vend ;;
  modify (fun k => k <| k_kmem := k_kmem k <| km_use_lock := true |> |>).
End Kalloc.

(** ** The free list *)

(** A page the allocator manages, with [kend] the end of the kernel. *)
Definition page (kend v : Z) : Prop :=
  v mod PGSIZE = 0 /\ kend <= v /\ KERNBASE <= v < KERNBASE + PHYSTOP /\ 0 < v.

(** The free list from [r] is [l]. *)
Fixpoint chain (m : mem) (r : Z) (l : list Z) : Prop :=
  match l with
  | [] => r = 0
  | v :: l => r = v /\ chain m (load32 v m) l
  end.

(** The allocator's state is the list [l] of free pages. *)
Record free_pages (kend : Z) (k : kernel) (l : list Z) : Prop := {
  fp_chain : chain (k_mem k) (km_freelist (k_kmem k)) l;
  fp_pages : Forall (page kend) l;
  fp_nodup : NoDup l
}.

Lemma load32_store32 a v m : load32 a (store32 a v m) = u32 v.
Proof.
  unfold load32, store32, store. zcases; try lia.
  unfold u8, u32. rewrite !Z.mod_mod by lia. rewrite !Z.shiftr_div_pow2 by lia.
  change (2 ^ 8) with 256. change (2 ^ 16) with (256 * 256). change (2 ^ 24) with (256 * 256 * 256).
  change (2 ^ 32) with (256 * 256 * 256 * 256). Z.div_mod_to_equations. lia.
Qed.

Lemma load32_ext m m' a : (forall x, a <= x < a + 4 -> m' x = m x) -> load32 a m' = load32 a m.
Proof. intros E. unfold load32. rewrite !E by lia. done. Qed.

Lemma chain_ext m m' r l :
  chain m r l -> (forall v x, v ∈ l -> v <= x < v + 4 -> m' x = m x) -> chain m' r l.
Proof.
  revert r. induction l as [|v l IH]; intros r; simpl; [done|]. intros [-> Hc] E. split; [done|].
  rewrite (load32_ext m) by (intros; apply (E v); [by left|done]). apply IH; [done|].
  intros w x Hw. apply E. by right.
Qed.

(** Different pages do not overlap. *)
Lemma page_disjoint kend v w x :
  page kend v -> page kend w -> v <> w -> v <= x < v + 4 -> ~ (w <= x < w + PGSIZE).
Proof.
  intros (Hv & _) (Hw & _) Hne Hx Hx'. unfold PGSIZE in *. Z.div_mod_to_equations. lia.
Qed.

(** The CPU is in the kernel and holds no spin lock, and nothing but memory
    and the free list has changed since the state [kb]. *)
Record idle (kb k : kernel) : Prop := {
  idle_cpu : cpu_ok (k_cpu k);
  idle_held : c_held (k_cpu k) = [];
  idle_touch : cpu_touch (k_cpu k) = k_cpu k;
  idle_same : exists m f, k = kb <| k_mem := m |> <| k_kmem := f |>
}.

Lemma idle_start k : cpu_ok (k_cpu k) -> c_held (k_cpu k) = [] -> cpu_touch (k_cpu k) = k_cpu k -> idle k k.
Proof. intros H1 H2 H3. constructor; [done..|]. exists (k_mem k), (k_kmem k). by destruct k. Qed.

Lemma acquire_idle kb lk k e : idle kb k -> acquire lk k e = Ret tt (k <| k_cpu := cpu_acq lk (k_cpu k) |>) e.
Proof. intros [Hc Hh _ _]. apply acquire_run; [done|]. rewrite Hh. apply not_elem_of_nil. Qed.

Lemma release_idle kb lk k k' e : idle kb k -> k_cpu k' = cpu_acq lk (k_cpu k) ->
  release lk k' e = Ret tt (k' <| k_cpu := k_cpu k |>) e.
Proof.
  intros [Hc Hh Ht _] Hk'. assert (lk ∉ c_held (k_cpu k)) as Hn by (rewrite Hh; apply not_elem_of_nil).
  rewrite release_run; rewrite Hk'; [|by apply cpu_acq_ok|apply list_elem_of_here].
  by rewrite cpu_rel_acq, Ht by done.
Qed.

Lemma idle_mem kb k m : idle kb k -> idle kb (k <| k_mem := m |>).
Proof. intros [Hc Hh Ht (m0 & f & ->)]. constructor; [done..|]. by exists m, f. Qed.
Lemma idle_kmem kb k m f : idle kb k -> idle kb (k <| k_mem := m |> <| k_kmem := f |>).
Proof. intros [Hc Hh Ht (m0 & f0 & ->)]. constructor; [done..|]. by exists m, f. Qed.

Section Run.
  Context (kb : kernel) (kend : Z).
  Implicit Types (k : kernel) (e : env) (v : Z) (l : list Z) (m : mem).

Lemma page_checks v : page kend v ->
  negb (u32 v mod PGSIZE =? 0) || (v <? kend) || (V2P v >=? PHYSTOP) = false.
Proof.
  intros (Ha & Hk & Hr & H0). unfold V2P, KERNBASE, PHYSTOP in *.
  rewrite (u32_small v), (u32_small (v - _)), Ha by lia. simpl. apply orb_false_iff. zcases; lia.
Qed.

Lemma kfree_mem k v x :
  ~ (v <= x < v + PGSIZE) -> store32 v (km_freelist (k_kmem k)) (memset v 1 PGSIZE (k_mem k)) x = k_mem k x.
Proof.
  intros Hx. unfold store32. unfold PGSIZE in *. rewrite !store_ne by lia. rewrite memset_run by lia.
  by zcases.
Qed.

Lemma kfree_run k e v l :
  idle kb k -> free_pages kend k l -> page kend v -> v ∉ l ->
  exists m', kfree kend v k e = Ret tt (k <| k_mem := m' |> <| k_kmem := k_kmem k <| km_freelist := v |> |>) e /\
    free_pages kend (k <| k_mem := m' |> <| k_kmem := k_kmem k <| km_freelist := v |> |>) (v :: l) /\
    forall x, ~ (v <= x < v + PGSIZE) -> m' x = k_mem k x.
Proof.
  intros Hc [Hch Hpg Hnd] Hv Hvl. exists (store32 v (km_freelist (k_kmem k)) (memset v 1 PGSIZE (k_mem k))).
  split; [|split].
  - unfold kfree. rewrite page_checks by done. unfold upd_mem, set_freelist, when. mrun. rsimpl.
    destruct (km_use_lock (k_kmem k)) eqn:El.
    + rewrite bind_assoc. mcall (acquire_idle kb); [by apply idle_mem|]. mrun. rsimpl. rewrite El.
      mcall (release_idle kb L_kmem k); [done|done|]. rewrite mret_run. by destruct k.
    + mrun. rsimpl. rewrite El. mrun. by destruct k.
  - assert (0 <= v < 2 ^ 32) as Hv32 by (destruct Hv as (_ & _ & ? & _); unfold KERNBASE, PHYSTOP in *; lia).
    constructor; rsimpl.
    + simpl. split; [done|]. rewrite load32_store32.
      assert (u32 (km_freelist (k_kmem k)) = km_freelist (k_kmem k)) as ->.
      { destruct l as [|w l]; simpl in Hch; [by rewrite Hch|]. destruct Hch as [-> _].
        inversion_clear Hpg as [|? ? (_ & _ & Hw & _)]. apply u32_small. unfold KERNBASE, PHYSTOP in *. lia. }
      apply (chain_ext (k_mem k)); [done|]. intros w x Hw Hx. apply kfree_mem.
      rewrite Forall_forall in Hpg. apply (page_disjoint kend w); [by apply Hpg|done| |done].
      intros ->. done.
    + by constructor.
    + by apply NoDup_cons.
  - intros x Hx. by apply kfree_mem.
Qed.

Lemma kalloc_run k e l :
  idle kb k -> free_pages kend k l ->
  kalloc k e = match l with
  | [] => Ret 0 k e
  | v :: _ => Ret v (k <| k_kmem := k_kmem k <| km_freelist := load32 v (k_mem k) |> |>) e
  end.
Proof.
  intros Hc [Hch Hpg Hnd]. unfold kalloc, set_freelist, when. mrun.
  destruct (km_use_lock (k_kmem k)) eqn:El.
  - rewrite bind_assoc. mcall (acquire_idle kb); [done|]. mrun. rsimpl.
    destruct l as [|v l]; simpl in Hch.
    + rewrite Hch. simpl. mrun. rsimpl. rewrite El, bind_assoc.
      mcall (release_idle kb L_kmem k); [done|done|]. mrun. by destruct k.
    + destruct Hch as [-> Hch]. inversion_clear Hpg as [|? ? (_ & _ & _ & Hv)].
      rewrite (proj2 (Z.eqb_neq v 0)) by lia. simpl. mrun. rsimpl. rewrite El, bind_assoc.
      mcall (release_idle kb L_kmem k); [done|done|]. mrun. by destruct k.
  - mrun. destruct l as [|v l]; simpl in Hch.
    + rewrite Hch. simpl. mrun. by rewrite El.
    + destruct Hch as [-> Hch]. inversion_clear Hpg as [|? ? (_ & _ & _ & Hv)].
      rewrite (proj2 (Z.eqb_neq v 0)) by lia. simpl. mrun. rsimpl. by rewrite El.
Qed.
End Run.

Section Spec.
  Context (kb : kernel) (kend : Z).
  Implicit Types (k : kernel) (e : env) (v : Z) (l : list Z) (m : mem).

(** After [kalloc] the rest of the list is free, and memory is as it was. *)
Lemma kalloc_free k v l :
  free_pages kend k (v :: l) ->
  free_pages kend (k <| k_kmem := k_kmem k <| km_freelist := load32 v (k_mem k) |> |>) l.
Proof.
  intros [Hch Hpg Hnd]. destruct Hch as [_ Hch]. inversion_clear Hpg. apply NoDup_cons in Hnd as [_ Hnd].
  by constructor.
Qed.

(** C30: The page allocator implements a list of free pages.  [kalloc] hands
    out the first page of the list, which is then not free any more, or 0 when
    the list is empty, and changes no memory; [kfree] of a page that is not
    free puts it in front and changes no other page; [kfree] of an address that is
    not a page above the kernel and below [PHYSTOP] panics.  So no page is ever
    handed out twice without having been freed. *)
Theorem page_allocator_list k e l :
  idle kb k -> free_pages kend k l ->
  (exists k', kalloc k e = Ret (default 0 (head l)) k' e /\ free_pages kend k' (tail l) /\
     k_mem k' = k_mem k /\ idle kb k' /\ default 0 (head l) ∉ tail l) /\
  (forall v, page kend v -> v ∉ l -> exists k', kfree kend v k e = Ret tt k' e /\
     free_pages kend k' (v :: l) /\ idle kb k' /\
     forall x, ~ (v <= x < v + PGSIZE) -> k_mem k' x = k_mem k x) /\
  (forall v, 0 <= v < 2 ^ 32 -> ~ page kend v -> kfree kend v k e = Panic "kfree" k).
Proof.
  intros Hc Hf. split_and!.
  - rewrite (kalloc_run kb kend k e l Hc Hf). destruct l as [|v l]; simpl.
    + exists k. split_and!; try done. apply not_elem_of_nil.
    + eexists. split; [done|]. split_and!; [by apply kalloc_free|done|by apply (idle_kmem _ _ (k_mem k))|].
      apply (fp_nodup _ _ _) in Hf. by apply NoDup_cons in Hf as [? _].
  - intros v Hv Hvl. destruct (kfree_run kb kend k e v l Hc Hf Hv Hvl) as (m' & Hr & Hf' & Hm).
    eexists. split_and!; [exact Hr|exact Hf'|by apply idle_kmem|exact Hm].
  - intros v Hv Hnp. unfold kfree.
    assert (negb (u32 v mod PGSIZE =? 0) || (v <? kend) || (V2P v >=? PHYSTOP) = true) as ->; [|done].
    apply not_false_iff_true. intros E. apply Hnp.
    apply orb_false_iff in E as [[E1%negb_false_iff%Z.eqb_eq E2%Z.ltb_ge]%orb_false_iff E3].
    rewrite u32_small in E1 by lia. unfold V2P, u32 in E3. rewrite Z.geb_leb, Z.leb_gt in E3.
    unfold page, KERNBASE, PHYSTOP in *. split; [done|]. Z.div_mod_to_equations. lia.
Qed.

(** [freerange] frees the pages of the range, the last one on top. *)
Lemma free_all_run vs : forall k e l,
  idle kb k -> free_pages kend k l -> Forall (page kend) vs -> NoDup (rev vs ++ l) ->
  exists k', for_each vs (kfree kend) k e = Ret tt k' e /\ free_pages kend k' (rev vs ++ l) /\ idle kb k' /\
    forall x, (forall v, v ∈ vs -> ~ (v <= x < v + PGSIZE)) -> k_mem k' x = k_mem k x.
Proof.
  induction vs as [|v vs IH]; intros k e l Hc Hf Hv Hnd; simpl in *.
  - by exists k.
  - inversion_clear Hv as [|? ? Hv1 Hvs]. rewrite <-app_assoc in Hnd. simpl in Hnd.
    destruct (kfree_run kb kend k e v l Hc Hf Hv1) as (m' & Hr & Hf' & Em).
    { apply NoDup_app in Hnd as (_ & _ & Hn). by apply NoDup_cons in Hn as [? _]. }
    rewrite (bind_Ret _ _ _ _ _ _ _ Hr). rewrite <-app_assoc. simpl.
    match type of Hr with _ = Ret _ ?s _ => set (k1 := s) in * end.
    destruct (IH k1 e (v :: l)) as (k' & Hr' & Hf2 & Hc' & E); [by apply idle_kmem|done|done|done|].
    exists k'. split_and!; [done|done|done|]. intros x Hx. rewrite E by set_solver. apply Em. set_solver.
Qed.

Lemma NoDup_pages p vend : NoDup (pages p vend).
Proof. unfold pages. apply NoDup_fmap_2_strong; [|apply NoDup_seq]. unfold PGSIZE. lia. Qed.

Lemma elem_of_rev_pages (w p vend : Z) l : w ∈ rev (pages p vend) ++ l <-> w ∈ pages p vend \/ w ∈ l.
Proof. by rewrite elem_of_app, <-Permutation_rev. Qed.

Lemma NoDup_freed p vend l : NoDup l -> (forall w, w ∈ pages p vend -> w ∉ l) -> NoDup (rev (pages p vend) ++ l).
Proof.
  intros Hl Hw. apply NoDup_app. split_and!; [rewrite <-Permutation_rev; apply NoDup_pages| |done].
  intros w. rewrite <-Permutation_rev. apply Hw.
Qed.

(** [freerange] puts exactly the whole pages of the range on the free
    list: those from [vstart] rounded up that end at or before [vend]. *)
Theorem freerange_frees k e l vstart vend :
  idle kb k -> free_pages kend k l ->
  Forall (page kend) (pages (PGROUNDUP vstart) vend) ->
  Forall (fun v => v ∉ l) (pages (PGROUNDUP vstart) vend) ->
  exists k', freerange kend vstart vend k e = Ret tt k' e /\
    free_pages kend k' (rev (pages (PGROUNDUP vstart) vend) ++ l) /\
    forall v, v ∈ pages (PGROUNDUP vstart) vend <->
      exists j, v = PGROUNDUP vstart + PGSIZE * Z.of_nat j /\ v + PGSIZE <= vend.
Proof.
  intros Hc Hf Hp Hl. destruct (free_all_run (pages (PGROUNDUP vstart) vend) k e l Hc Hf Hp) as (k' & Hr & Hf' & _).
  - apply NoDup_freed; [apply Hf|]. rewrite Forall_forall in Hl. exact Hl.
  - exists k'. split_and!; [done|done|]. intros v. unfold pages. rewrite list_elem_of_fmap.
    split; intros (j & -> & Hj); exists j; (split; [done|]).
    + apply elem_of_seq in Hj. unfold PGSIZE in *. Z.div_mod_to_equations. lia.
    + apply elem_of_seq. unfold PGSIZE in *. Z.div_mod_to_equations. lia.
Qed.
End Spec.

(** ** Instances: two free pages after a kernel of one megabyte *)

Definition demo_kend : Z := KERNBASE + 0x200000.
Definition page_at (j : Z) : Z := demo_kend + PGSIZE * j.
Definition demo_free : kernel :=
  solo_kernel <| k_mem := store32 (page_at 3) 0 (store32 (page_at 1) (page_at 3) (fun _ => 0)) |>
    <| k_kmem := mkkmem true (page_at 1) |>.

Lemma solo_idle : idle solo_kernel solo_kernel.
Proof. apply idle_start; apply solo_calm. Qed.

Lemma demo_page j : 0 <= j < 1000 -> page demo_kend (page_at j).
Proof.
  intros Hj. unfold page, page_at, demo_kend, KERNBASE, PGSIZE, PHYSTOP. split_and!; try lia.
  Z.div_mod_to_equations. lia.
Qed.

Lemma demo_free_pages : free_pages demo_kend demo_free [page_at 1; page_at 3].
Proof.
  constructor.
  - vm_compute. done.
  - repeat constructor; apply demo_page; lia.
  - apply (bool_decide_unpack _). vm_compute. exact I.
Qed.

Lemma page_allocator_list_witness :
  exists k', kalloc demo_free [] = Ret (page_at 1) k' [] /\ free_pages demo_kend k' [page_at 3].
Proof.
  assert (idle solo_kernel demo_free) as Hc by (unfold demo_free; apply idle_kmem, solo_idle).
  destruct (page_allocator_list solo_kernel demo_kend demo_free [] _ Hc demo_free_pages) as [(k' & Hr & Hf & _) _].
  by exists k'.
Defined.

Lemma freerange_frees_witness :
  exists k', freerange demo_kend (page_at 4 + 5) (page_at 7 + 9) demo_free [] = Ret tt k' [] /\
    free_pages demo_kend k' [page_at 6; page_at 5; page_at 1; page_at 3].
Proof.
  assert (idle solo_kernel demo_free) as Hc by (unfold demo_free; apply idle_kmem, solo_idle).
  assert (pages (PGROUNDUP (page_at 4 + 5)) (page_at 7 + 9) = [page_at 5; page_at 6]) as E by done.
  destruct (freerange_frees solo_kernel demo_kend demo_free [] [page_at 1; page_at 3] (page_at 4 + 5) (page_at 7 + 9)
    Hc demo_free_pages) as (k' & Hr & Hf & _).
  - rewrite E. repeat constructor; apply demo_page; lia.
  - rewrite E. repeat constructor; apply (bool_decide_unpack _); vm_compute; exact I.
  - rewrite E in Hf. by exists k'.
Defined.
