(* ===== verification/Pipe.v ===== *)
(** Pipes (pipe.c).  The pipe in the page at [p] is entry [p] of a table of
    pipes. *)

From S2P Require Import Prelude Types Spinlock Proc Sleeplock Str Kalloc.

Definition PIPESIZE : Z := 512.

Definition get_pipe (p : Z) : K pipe :=
  r ← gets (fun k : kernel => k_pipes k !! p); deref "bad pipe pointer" r.
Definition upd_pipe (p : Z) (f : pipe -> pipe) : K unit :=
  modify (fun k => k <| k_pipes := alter f p (k_pipes k) |>).

Definition myproc_killed : K bool :=
  i ← curproc; p ← get_proc i; mret (negb (p_killed p =? 0)).

(** [kfree((char* )p)] on the page of a pipe ends the pipe. *)
Definition free_pipe (kend p : Z) : K unit :=
  kfree kend p ;; modify (fun k => k <| k_pipes := delete p (k_pipes k) |>).

Definition pipeclose (kend p : Z) (writable : bool) : K unit :=
  acquire (L_pipe p) ;;
  (if writable then
     upd_pipe p (fun r => r <| pi_writeopen := 0 |>) ;;
     wakeup (Ch_nread p)
   else
     upd_pipe p (fun r => r <| pi_readopen := 0 |>) ;;
     wakeup (Ch_nwrite p)) ;;
  r ← get_pipe p;
  if (pi_readopen r =? 0) && (pi_writeopen r =? 0) then
    release (L_pipe p) ;;
    free_pipe kend p
  else release (L_pipe p).

(** [while(p->nwrite == p->nread + PIPESIZE)]: [false] when the writer gives
    up.  Each pass that goes on sleeping consumes a slice. *)
Fixpoint wait_room (fuel : nat) (p : Z) : K bool :=
  match fuel with
  | O => park
  | S fuel =>
      r ← get_pipe p;
      if pi_nwrite r =? u32 (pi_nread r + PIPESIZE) then
        killed ← (if pi_readopen r =? 0 then mret true else myproc_killed);
        if (killed : bool) then release (L_pipe p) ;; mret false else
        wakeup (Ch_nread p) ;;
        sleep (Ch_nwrite p) (Some (L_pipe p)) ;;
        wait_room fuel p
      else mret true
  end.

Definition await_room (p : Z) : K bool := fun k e => wait_room (S (length e)) p k e.

Fixpoint pipewrite_loop (p : Z) (addr : list Z) : K bool :=
  match addr with
  | [] => mret true
  | c :: addr =>
      ok ← await_room p;
      if (ok : bool) then
        r ← get_pipe p;
        upd_pipe p (fun r => r <| pi_data := <[Z.to_nat (pi_nwrite r mod PIPESIZE) := c]> (pi_data r) |>
                               <| pi_nwrite := u32 (pi_nwrite r + 1) |>) ;;
        pipewrite_loop p addr
      else mret false
  end.

(** [addr] is the [n] bytes at [addr]; none when [n] is negative. *)
Definition pipewrite (p : Z) (addr : list Z) (n : Z) : K Z :=
  acquire (L_pipe p) ;;
  ok ← pipewrite_loop p addr;
  if (ok : bool) then
    wakeup (Ch_nread p) ;;
    release (L_pipe p) ;;
    mret n
  else mret (-1).

(** [while(p->nread == p->nwrite && p->writeopen)] *)
Fixpoint wait_data (fuel : nat) (p : Z) : K bool :=
  match fuel with
  | O => park
  | S fuel =>
      r ← get_pipe p;
      if (pi_nread r =? pi_nwrite r) && negb (pi_writeopen r =? 0) then
        killed ← myproc_killed;
        if (killed : bool) then release (L_pipe p) ;; mret false else
        sleep (Ch_nread p) (Some (L_pipe p)) ;;
        wait_data fuel p
      else mret true
  end.

Definition await_data (p : Z) : K bool := fun k e => wait_data (S (length e)) p k e.

Fixpoint piperead_loop (p : Z) (n : nat) : K (list Z) :=
  match n with
  | O => mret []
  | S n =>
      r ← get_pipe p;
      if pi_nread r =? pi_nwrite r then mret [] else
      let c := default 0 (pi_data r !! Z.to_nat (pi_nread r mod PIPESIZE)) in
      upd_pipe p (fun r => r <| pi_nread := u32 (pi_nread r + 1) |>) ;;
      l ← piperead_loop p n;
      mret (c :: l)
  end.

(** The return value and the bytes stored at [addr]. *)
Definition piperead (p n : Z) : K (Z * list Z) :=
  acquire (L_pipe p) ;;
  ok ← await_data p;
  if (ok : bool) then
    l ← piperead_loop p (Z.to_nat n);
    wakeup (Ch_nwrite p) ;;
    release (L_pipe p) ;;
    mret (Z.of_nat (length l), l)
  else mret (-1, []).

(** ** The pipe as a queue *)

(** The bytes written and not read yet.  The counters wrap around at 2^32, a
    multiple of the size of the buffer. *)
Definition used (r : pipe) : nat := Z.to_nat (u32 (pi_nwrite r - pi_nread r)).
Definition byte_of_pipe (r : pipe) (j : nat) : Z :=
  default 0 (pi_data r !! Z.to_nat (u32 (pi_nread r + Z.of_nat j) mod PIPESIZE)).
Definition queue (r : pipe) : list Z := map (byte_of_pipe r) (seq 0 (used r)).

Record pipe_ok (r : pipe) : Prop := {
  po_len : length (pi_data r) = Z.to_nat PIPESIZE;
  po_nread : 0 <= pi_nread r < 2 ^ 32;
  po_nwrite : 0 <= pi_nwrite r < 2 ^ 32;
  po_used : (used r <= Z.to_nat PIPESIZE)%nat
}.

(** One byte in, one byte out, as the loops do it. *)
Definition push (c : Z) (r : pipe) : pipe :=
  r <| pi_data := <[Z.to_nat (pi_nwrite r mod PIPESIZE) := c]> (pi_data r) |>
    <| pi_nwrite := u32 (pi_nwrite r + 1) |>.
Definition pop (r : pipe) : pipe := r <| pi_nread := u32 (pi_nread r + 1) |>.

Section Queue.
  Implicit Types (r : pipe) (c : Z) (j : nat).

(** Positions in the buffer do not depend on the wrap-around of the counters. *)
Lemma u32_mod z : u32 z mod PIPESIZE = z mod PIPESIZE.
Proof.
  unfold u32, PIPESIZE. change (2 ^ 32) with (512 * 8388608). rewrite Z.rem_mul_r by lia.
  rewrite Z.mul_comm, Z.mod_add by lia. by rewrite Z.mod_mod by lia.
Qed.

Lemma used_eq r : pipe_ok r -> u32 (pi_nwrite r - pi_nread r) = Z.of_nat (used r).
Proof. intros _. unfold used. pose proof (u32_range (pi_nwrite r - pi_nread r)). lia. Qed.

Lemma nwrite_eq r : pipe_ok r -> pi_nwrite r = u32 (pi_nread r + Z.of_nat (used r)).
Proof.
  intros [_ Hr Hw _]. unfold used. rewrite Z2Nat.id by apply u32_range. unfold u32.
  rewrite Z.add_mod_idemp_r by lia. replace (pi_nread r + (pi_nwrite r - pi_nread r)) with (pi_nwrite r) by lia.
  by rewrite Z.mod_small.
Qed.

Lemma full_iff r : pipe_ok r -> (pi_nwrite r =? u32 (pi_nread r + PIPESIZE)) = true <-> used r = Z.to_nat PIPESIZE.
Proof.
  intros Hok. rewrite Z.eqb_eq, (nwrite_eq r Hok) at 1. destruct Hok as [_ Hr Hw Hu].
  unfold PIPESIZE, u32 in *. split; intros E; [|rewrite E; done]. Z.div_mod_to_equations. lia.
Qed.

Lemma empty_iff r : pipe_ok r -> (pi_nread r =? pi_nwrite r) = true <-> used r = 0%nat.
Proof.
  intros Hok. rewrite Z.eqb_eq, (nwrite_eq r Hok) at 1. destruct Hok as [_ Hr Hw Hu].
  unfold PIPESIZE, u32 in *. split; intros E.
  - Z.div_mod_to_equations. lia.
  - rewrite E. rewrite Z.add_0_r. by rewrite Z.mod_small.
Qed.

Lemma used_push c r : pipe_ok r -> (used r < Z.to_nat PIPESIZE)%nat -> used (push c r) = S (used r).
Proof.
  intros Hok Hu. pose proof (used_eq r Hok) as E. destruct Hok as [_ Hr Hw _].
  unfold used, push. rsimpl. unfold PIPESIZE, u32 in *. Z.div_mod_to_equations. lia.
Qed.

Lemma used_pop r : pipe_ok r -> (0 < used r)%nat -> used r = S (used (pop r)).
Proof.
  intros Hok Hu. pose proof (used_eq r Hok) as E. destruct Hok as [_ Hr Hw Hu'].
  unfold used, pop in *. rsimpl. unfold PIPESIZE, u32 in *. Z.div_mod_to_equations. lia.
Qed.

Lemma pos_lt r z : pipe_ok r -> (Z.to_nat (z mod PIPESIZE) < length (pi_data r))%nat.
Proof.
  intros [Hl _ _ _]. rewrite Hl. unfold PIPESIZE. pose proof (Z.mod_pos_bound z 512). lia.
Qed.

Lemma push_ok c r : pipe_ok r -> (used r < Z.to_nat PIPESIZE)%nat -> pipe_ok (push c r).
Proof.
  intros Hok Hu. pose proof (used_push c r Hok Hu) as E. destruct Hok as [Hl Hr Hw _].
  constructor; [unfold push; rsimpl; by rewrite length_insert|done|apply u32_range|lia].
Qed.

Lemma pop_ok r : pipe_ok r -> (0 < used r)%nat -> pipe_ok (pop r).
Proof.
  intros Hok Hu. pose proof (used_pop r Hok Hu) as E. destruct Hok as [Hl Hr Hw Hu'].
  constructor; [done|apply u32_range|done|lia].
Qed.

Lemma queue_push c r :
  pipe_ok r -> (used r < Z.to_nat PIPESIZE)%nat -> queue (push c r) = queue r ++ [c].
Proof.
  intros Hok Hu. unfold queue. rewrite (used_push c r Hok Hu), seq_S, map_app. simpl.
  pose proof (nwrite_eq r Hok) as Ew. f_equal.
  - apply map_ext_in. intros j Hj%in_seq. unfold byte_of_pipe, push. rsimpl.
    rewrite list_lookup_insert_ne; [done|]. intros E. rewrite Ew, !u32_mod in E.
    assert ((pi_nread r + Z.of_nat (used r)) mod PIPESIZE = (pi_nread r + Z.of_nat j) mod PIPESIZE) as E'.
    { pose proof (Z.mod_pos_bound (pi_nread r + Z.of_nat (used r)) PIPESIZE).
      pose proof (Z.mod_pos_bound (pi_nread r + Z.of_nat j) PIPESIZE). unfold PIPESIZE in *. lia. }
    unfold PIPESIZE in *. Z.div_mod_to_equations. lia.
  - f_equal. unfold byte_of_pipe, push. rsimpl. rewrite <-Ew.
    rewrite list_lookup_insert_eq; [done|by apply pos_lt].
Qed.

Lemma queue_pop r :
  pipe_ok r -> (0 < used r)%nat ->
  queue r = default 0 (pi_data r !! Z.to_nat (pi_nread r mod PIPESIZE)) :: queue (pop r).
Proof.
  intros Hok Hu. unfold queue. rewrite (used_pop r Hok Hu). cbn [seq map]. f_equal.
  - unfold byte_of_pipe. rewrite Z.add_0_r, u32_mod. done.
  - rewrite <-seq_shift, map_map. apply map_ext. intros j. unfold byte_of_pipe, pop. rsimpl.
    rewrite !u32_mod, <-(Z.add_mod_idemp_l (u32 (pi_nread r + 1))), u32_mod by done.
    rewrite Z.add_mod_idemp_l by done. do 4 f_equal. lia.
Qed.

Lemma queue_length r : length (queue r) = used r.
Proof. unfold queue. by rewrite length_map, length_seq. Qed.
End Queue.

(** ** Writing and reading *)

Section Run.
  Context (i : nat) (pr : proc) (p : Z).
  Implicit Types (k : kernel) (e : env) (r : pipe) (c : Z) (src : list Z).

Lemma get_pipe_run k e r : k_pipes k !! p = Some r -> get_pipe p k e = Ret r k e.
Proof. intros Hr. unfold get_pipe. mrun. by rewrite Hr. Qed.

Lemma upd_pipe_run f k e r :
  k_pipes k !! p = Some r -> upd_pipe p f k e = Ret tt (k <| k_pipes := <[p := f r]> (k_pipes k) |>) e.
Proof.
  intros Hr. unfold upd_pipe, modify. do 2 f_equal. f_equal.
  rewrite <-(insert_id (k_pipes k) p r) at 1 by done. apply alter_insert_eq.
Qed.

Lemma set_pipes_pipes k m m' : k <| k_pipes := m |> <| k_pipes := m' |> = k <| k_pipes := m' |>.
Proof. reflexivity. Qed.

Lemma await_room_run k e r :
  k_pipes k !! p = Some r -> pipe_ok r -> (used r < Z.to_nat PIPESIZE)%nat ->
  await_room p k e = Ret true k e.
Proof.
  intros Hr Hok Hu. unfold await_room. cbn [wait_room]. mcall get_pipe_run; [done|].
  assert ((pi_nwrite r =? u32 (pi_nread r + PIPESIZE)) = false) as ->; [|done].
  apply not_true_iff_false. rewrite full_iff by done. lia.
Qed.

Lemma await_data_run k e r :
  k_pipes k !! p = Some r -> pipe_ok r -> (0 < used r)%nat \/ pi_writeopen r = 0 ->
  await_data p k e = Ret true k e.
Proof.
  intros Hr Hok Hu. unfold await_data. cbn [wait_data]. mcall get_pipe_run; [done|].
  destruct Hu as [Hu|Hu].
  - assert ((pi_nread r =? pi_nwrite r) = false) as ->; [|done].
    apply not_true_iff_false. rewrite empty_iff by done. lia.
  - rewrite Hu, andb_false_r. done.
Qed.

(** The bytes of [src] go to the end of the queue. *)
Lemma pipewrite_loop_run src : forall k e r,
  k_pipes k !! p = Some r -> pipe_ok r -> (used r + length src <= Z.to_nat PIPESIZE)%nat ->
  exists r', pipewrite_loop p src k e = Ret true (k <| k_pipes := <[p := r']> (k_pipes k) |>) e /\
    pipe_ok r' /\ queue r' = queue r ++ src /\ pi_writeopen r' = pi_writeopen r.
Proof.
  induction src as [|c src IH]; intros k e r Hr Hok Hu; simpl in *.
  - exists r. rewrite insert_id by done. split_and!; try done; [by destruct k|by rewrite app_nil_r].
  - mcall await_room_run; [done|done|lia|]. mcall get_pipe_run; [done|]. mcall upd_pipe_run; [done|].
    fold (push c r).
    destruct (IH (k <| k_pipes := <[p := push c r]> (k_pipes k) |>) e (push c r)) as (r' & Hrun & Hok' & Hq & Hw).
    + rsimpl. by rewrite lookup_insert_eq.
    + apply push_ok; [done|lia].
    + rewrite used_push by (done || lia). lia.
    + exists r'. rewrite Hrun. rsimpl. rewrite insert_insert_eq. split_and!; try done.
      rewrite Hq, queue_push by (done || lia). by rewrite <-app_assoc.
Qed.

(** Up to [n] bytes come from the front of the queue. *)
Lemma piperead_loop_run n : forall k e r,
  k_pipes k !! p = Some r -> pipe_ok r ->
  exists r', piperead_loop p n k e = Ret (take n (queue r)) (k <| k_pipes := <[p := r']> (k_pipes k) |>) e /\
    pipe_ok r' /\ queue r' = drop n (queue r) /\ pi_writeopen r' = pi_writeopen r.
Proof.
  induction n as [|n IH]; intros k e r Hr Hok; simpl.
  - exists r. rewrite insert_id by done. split_and!; try done. by destruct k.
  - mcall get_pipe_run; [done|]. destruct (pi_nread r =? pi_nwrite r) eqn:E.
    + apply empty_iff in E; [|done]. assert (queue r = []) as Hq.
      { apply nil_length_inv. by rewrite queue_length. }
      exists r. rewrite Hq, insert_id by done. split_and!; try done. by destruct k.
    + assert (0 < used r)%nat as Hu.
      { apply not_true_iff_false in E. rewrite empty_iff in E by done. lia. }
      mcall upd_pipe_run; [done|]. fold (pop r).
      destruct (IH (k <| k_pipes := <[p := pop r]> (k_pipes k) |>) e (pop r)) as (r' & Hrun & Hok' & Hq & Hw).
      * rsimpl. by rewrite lookup_insert_eq.
      * by apply pop_ok.
      * rewrite (bind_Ret _ _ _ _ _ _ _ Hrun), mret_run. exists r'. rsimpl. rewrite insert_insert_eq.
        rewrite (queue_pop r) by done. simpl. by split_and!.
Qed.

Lemma unwaited_pipes k ch m : unwaited ch k -> unwaited ch (k <| k_pipes := m |>).
Proof. done. Qed.

Lemma calm_pipes k m : calm i pr k -> calm i pr (k <| k_pipes := m |>).
Proof. intros []. by constructor. Qed.

Lemma pipewrite_run src k e r :
  calm i pr k -> unwaited (Ch_nread p) k -> k_pipes k !! p = Some r -> pipe_ok r ->
  (used r + length src <= Z.to_nat PIPESIZE)%nat ->
  exists r', pipewrite p src (Z.of_nat (length src)) k e
      = Ret (Z.of_nat (length src)) (k <| k_pipes := <[p := r']> (k_pipes k) |>) e /\
    pipe_ok r' /\ queue r' = queue r ++ src /\ pi_writeopen r' = pi_writeopen r.
Proof.
  intros Hc Hw Hr Hok Hu. unfold pipewrite. mcall (acquire_calm i pr); [done|].
  set (k1 := k <| k_cpu := cpu_acq (L_pipe p) (k_cpu k) |>).
  destruct (pipewrite_loop_run src k1 e r Hr Hok Hu)
    as (r' & Hrun & Hok' & Hq & Hwo).
  rewrite (bind_Ret _ _ _ _ _ _ _ Hrun). mcall (wakeup_in i pr (L_pipe p) (Ch_nread p) k); [done|done|done|apply Hc|done|].
  mcall (release_calm i pr (L_pipe p) k); [done|done|].
  exists r'. rewrite mret_run. split_and!; try done.
Qed.

Lemma piperead_run n k e r :
  calm i pr k -> unwaited (Ch_nwrite p) k -> k_pipes k !! p = Some r -> pipe_ok r ->
  (0 < used r)%nat \/ pi_writeopen r = 0 -> 0 <= n ->
  exists r', piperead p n k e
      = Ret (Z.of_nat (length (take (Z.to_nat n) (queue r))), take (Z.to_nat n) (queue r))
            (k <| k_pipes := <[p := r']> (k_pipes k) |>) e /\
    pipe_ok r' /\ queue r' = drop (Z.to_nat n) (queue r).
Proof.
  intros Hc Hw Hr Hok Hu Hn. unfold piperead. mcall (acquire_calm i pr); [done|].
  set (k1 := k <| k_cpu := cpu_acq (L_pipe p) (k_cpu k) |>).
  mcall await_data_run; [exact Hr|done|done|].
  destruct (piperead_loop_run (Z.to_nat n) k1 e r Hr Hok)
    as (r' & Hrun & Hok' & Hq & Hwo).
  rewrite (bind_Ret _ _ _ _ _ _ _ Hrun). mcall (wakeup_in i pr (L_pipe p) (Ch_nwrite p) k); [done|done|done|apply Hc|done|].
  mcall (release_calm i pr (L_pipe p) k); [done|done|].
  exists r'. rewrite mret_run. split_and!; try done.
Qed.

(** C31: Pipes are first-in first-out.  In a pipe that holds the bytes [queue r],
    writing [src] when there is room and reading [n] bytes returns the first
    [n] bytes of [queue r ++ src], as many as there are, and leaves the rest
    in the pipe in order, also when the unsigned counters wrap around. *)
Theorem pipe_fifo src n k e r :
  calm i pr k -> unwaited (Ch_nread p) k -> unwaited (Ch_nwrite p) k ->
  k_pipes k !! p = Some r -> pipe_ok r ->
  (used r + length src <= Z.to_nat PIPESIZE)%nat -> (0 < used r + length src)%nat -> 0 <= n ->
  exists r', (w ← pipewrite p src (Z.of_nat (length src)); x ← piperead p n; mret (w, x)) k e
    = Ret (Z.of_nat (length src), (Z.of_nat (length (take (Z.to_nat n) (queue r ++ src))),
        take (Z.to_nat n) (queue r ++ src))) (k <| k_pipes := <[p := r']> (k_pipes k) |>) e /\
    pipe_ok r' /\ queue r' = drop (Z.to_nat n) (queue r ++ src).
Proof.
  intros Hc Hw1 Hw2 Hr Hok Hu Hne Hn.
  destruct (pipewrite_run src k e r Hc Hw1 Hr Hok Hu) as (r1 & Hrun & Hok1 & Hq & _).
  assert (used r1 = used r + length src)%nat as Eu by (by rewrite <-queue_length, Hq, length_app, queue_length).
  destruct (piperead_run n (k <| k_pipes := <[p := r1]> (k_pipes k) |>) e r1) as (r2 & Hrun2 & Hok2 & Hq2).
  - by apply calm_pipes.
  - done.
  - rsimpl. by rewrite lookup_insert_eq.
  - done.
  - left. lia.
  - done.
  - exists r2. rewrite (bind_Ret _ _ _ _ _ _ _ Hrun), (bind_Ret _ _ _ _ _ _ _ Hrun2), mret_run.
    rsimpl. rewrite insert_insert_eq, Hq. rewrite Hq in Hq2. by split_and!.
Qed.
End Run.

(** An instance in which the write counter wraps around. *)
Definition wrap_pipe : pipe := mkpipe (replicate 512 65) (2 ^ 32 - 3) (2 ^ 32 - 1) 1 1.

Lemma pipe_fifo_witness :
  exists r', (w ← pipewrite 4096 [66; 67; 68] 3; x ← piperead 4096 4; mret (w, x))
      (solo_kernel <| k_pipes := {[4096 := wrap_pipe]} |>) []
    = Ret (3, (4, [65; 65; 66; 67])) (solo_kernel <| k_pipes := <[4096 := r']> {[4096 := wrap_pipe]} |>) [] /\
    queue r' = [68].
Proof.
  destruct (pipe_fifo 0 solo_proc 4096 [66; 67; 68] 4 (solo_kernel <| k_pipes := {[4096 := wrap_pipe]} |>) [] wrap_pipe)
    as (r' & Hr & _ & Hq).
  - apply calm_pipes, solo_calm.
  - apply unwaited_pipes, solo_unwaited.
  - apply unwaited_pipes, solo_unwaited.
  - done.
  - constructor; vm_compute; done || (split; [intros E; discriminate E|reflexivity]) || lia.
  - vm_compute. lia.
  - vm_compute. lia.
  - lia.
  - exists r'. split; [exact Hr|exact Hq].
Defined.
