(* ===== verification/File.v ===== *)
(** Open files (file.c), and the allocation of pipes (pipe.c).  A file pointer
    is an index of the table of files. *)

From S2P Require Import Prelude Types Spinlock Proc Sleeplock Bio Bytes Log Str Cprintf Fs FsIo Kalloc Pipe.

Definition get_file (f : nat) : K file :=
  r ← gets (fun k : kernel => k_files k !! f); deref "bad file pointer" r.
Definition upd_file (f : nat) (g : file -> file) : K unit :=
  modify (fun k => k <| k_files := alter g f (k_files k) |>).

Definition filealloc : K (option nat) :=
  acquire L_ftable ;;
  found ← for_loop (seq 0 NFILE) (fun f =>
    r ← get_file f;
    if f_ref r =? 0 then
      upd_file f (fun r => r <| f_ref := 1 |>) ;;
      release L_ftable ;;
      mret (Some f)
    else mret None);
  match found with
  | Some f => mret (Some f)
  | None => release L_ftable ;; mret None
  end.

Definition filedup (f : nat) : K nat :=
  acquire L_ftable ;;
  r ← get_file f;
  if f_ref r <? 1 then panic "filedup" else
  upd_file f (fun r => r <| f_ref := f_ref r + 1 |>) ;;
  release L_ftable ;;
  mret f.

Section File.
  Context (kend : Z) `{Devsw}.

Definition fileclose (f : nat) : K unit :=
  acquire L_ftable ;;
  r ← get_file f;
  if f_ref r <? 1 then panic "fileclose" else
  upd_file f (fun r => r <| f_ref := f_ref r - 1 |>) ;;
  r ← get_file f;
  if f_ref r >? 0 then release L_ftable else
  let ff := r in
  upd_file f (fun r => r <| f_ref := 0 |>) ;;
  upd_file f (fun r => r <| f_type := FD_NONE |>) ;;
  release L_ftable ;;
  match f_type ff with
  | FD_PIPE => p ← deref "f->pipe" (f_pipe ff); pipeclose kend p (negb (f_writable ff =? 0))
  | FD_INODE =>
      begin_op ;;
      i ← deref "f->ip" (f_ip ff);
      iput i ;;
      end_op
  | FD_NONE => mret tt
  end.

(** The return value and [*st]. *)
Definition filestat (f : nat) : K (Z * option stat) :=
  r ← get_file f;
  match f_type r with
  | FD_INODE =>
      ilock (f_ip r) ;;
      i ← deref "f->ip" (f_ip r);
      st ← stati i;
      iunlock (f_ip r) ;;
      mret (0, Some st)
  | _ => mret (-1, None)
  end.

(** The return value and the bytes stored at [addr]. *)
Definition fileread (f : nat) (n : Z) : K (Z * list Z) :=
  r ← get_file f;
  if f_readable r =? 0 then mret (-1, []) else
  match f_type r with
  | FD_PIPE => p ← deref "f->pipe" (f_pipe r); piperead p n
  | FD_INODE =>
      ilock (f_ip r) ;;
      i ← deref "f->ip" (f_ip r);
      r ← get_file f;
      rd ← readi i (f_off r) (u32 n);
      (if fst rd >? 0 then upd_file f (fun r => r <| f_off := u32 (f_off r + fst rd) |>) else mret tt) ;;
      iunlock (Some i) ;;
      mret rd
  | FD_NONE => panic "fileread"
  end.

(** [((MAXOPBLOCKS-1-1-2) / 2) * 512] *)
Definition write_max : Z := Z.quot (MAXOPBLOCKS - 1 - 1 - 2) 2 * 512.

(** The loop over the pieces of a write: a piece is at least one byte. *)
Fixpoint filewrite_loop (fuel : nat) (f i : nat) (j n : Z) (addr : list Z) : K Z :=
  if j <? n then
    match fuel with
    | O => undef "filewrite: fuel"
    | S fuel =>
        let n1 := if n - j >? write_max then write_max else n - j in
        begin_op ;;
        ilock (Some i) ;;
        r ← get_file f;
        w ← writei i (take (Z.to_nat n1) addr) (f_off r) n1;
        (if w >? 0 then upd_file f (fun r => r <| f_off := u32 (f_off r + w) |>) else mret tt) ;;
        iunlock (Some i) ;;
        end_op ;;
        if w <? 0 then mret j else
        if negb (w =? n1) then panic "short filewrite" else
        filewrite_loop fuel f i (j + w) n (drop (Z.to_nat w) addr)
    end
  else mret j.

Definition filewrite (f : nat) (addr : list Z) (n : Z) : K Z :=
  r ← get_file f;
  if f_writable r =? 0 then mret (-1) else
  match f_type r with
  | FD_PIPE => p ← deref "f->pipe" (f_pipe r); pipewrite p addr n
  | FD_INODE =>
      i ← deref "f->ip" (f_ip r);
      j ← filewrite_loop (Z.to_nat n) f i 0 n addr;
      mret (if j =? n then n else -1)
  | FD_NONE => panic "filewrite"
  end.

Definition file_inode_exists (path : list Z) : K Z :=
  ip ← namei path;
  match ip with
  | None => cprintf (bytes "file error: file not found" ++ [10]) [] ;; mret 0
  | Some i =>
      r ← get_inode i;
      if i_type r =? T_FILE then mret 1 else
      if i_type r =? T_DIR then
        cprintf (bytes "file error: file is a directory" ++ [10]) [] ;; mret 0 else
      if i_type r =? T_DEV then
        cprintf (bytes "file error: file is a device" ++ [10]) [] ;; mret 0 else
      cprintf (bytes "file error: file is of unknown type" ++ [10]) [] ;; mret 0
  end.

(** The writes of zeros: [for (int i = old_size; i < length; i += BSIZE)]. *)
Fixpoint zero_tail (fuel : nat) (ip : nat) (i len : Z) : K unit :=
  if i <? len then
    match fuel with
    | O => undef "change_file_size: fuel"
    | S fuel =>
        let n := len - i in
        let n := if n >? Z.of_nat BSIZE then Z.of_nat BSIZE else n in
        writei ip (replicate (Z.to_nat n) 0) (u32 i) (u32 n) ;;
        zero_tail fuel ip (i + Z.of_nat BSIZE) len
    end
  else mret tt.

Definition change_file_size (path : list Z) (len : Z) : K Z :=
  if len <? 0 then
    cprintf (bytes "change_file_size: length is negative" ++ [10]) [] ;; mret (-1) else
  ex ← file_inode_exists path;
  if ex =? 0 then mret (-1) else
  begin_op ;;
  ip ← namei path;
  ilock ip ;;
  i ← deref "change_file_size: ip" ip;
  r ← get_inode i;
  (if i_size r <? u32 len then
     let old_size := s32 (i_size r) in
     buf ← kalloc;
     (if buf =? 0 then undef "change_file_size: memset(0, ...)" else mret tt) ;;
     upd_mem (memset buf 0 (Z.of_nat BSIZE)) ;;
     zero_tail (Z.to_nat (len - old_size)) i old_size len ;;
     upd_inode i (fun r => r <| i_size := u32 len |>) ;;
     iupdate i
   else if i_size r >? u32 len then
     upd_inode i (fun r => r <| i_size := u32 len |>) ;;
     iupdate i
   else mret tt) ;;
  iunlock (Some i) ;;
  end_op ;;
  mret 0.

(** [pipealloc]: the two files; [None] when it returns -1. *)
Definition pipealloc : K (option (nat * nat)) :=
  f0 ← filealloc;
  f1 ← (match f0 with Some _ => filealloc | None => mret None end);
  p ← (match f1 with Some _ => kalloc | None => mret 0 end);
  match f0, f1 with
  | Some f0, Some f1 =>
      if negb (p =? 0) then
        modify (fun k => k <| k_pipes := <[p := mkpipe (replicate (Z.to_nat PIPESIZE) 0) 0 0 1 1]> (k_pipes k) |>) ;;
        upd_file f0 (fun r => r <| f_type := FD_PIPE |> <| f_readable := 1 |> <| f_writable := 0 |>
                                <| f_pipe := Some p |>) ;;
        upd_file f1 (fun r => r <| f_type := FD_PIPE |> <| f_readable := 0 |> <| f_writable := 1 |>
                                <| f_pipe := Some p |>) ;;
        mret (Some (f0, f1))
      else
        fileclose f0 ;; fileclose f1 ;; mret None
  | Some f0, None => fileclose f0 ;; mret None
  | None, _ => mret None
  end.
End File.
