(* ===== verification/Vm.v ===== *)
(** Page tables (vm.c).  A page directory and its page tables are pages of the
    kernel's memory [k_mem], addressed by kernel virtual addresses, with
    little-endian 32-bit entries. *)

From S2P Require Import Prelude Types Spinlock Proc Sleeplock Bio Bytes Log Str Cprintf Fs FsIo Kalloc Sched.

(** ** mmu.h *)

Definition PDX (va : Z) : Z := Z.land (Z.shiftr va 22) 0x3FF.
Definition PTX (va : Z) : Z := Z.land (Z.shiftr va 12) 0x3FF.
Definition PGADDR (d t o : Z) : Z := u32 (Z.lor (Z.lor (Z.shiftl d 22) (Z.shiftl t 12)) o).
Definition NPDENTRIES : nat := 1024.
Definition PTE_P : Z := 1.
Definition PTE_W : Z := 2.
Definition PTE_U : Z := 4.
Definition PTE_ADDR (pte : Z) : Z := Z.land pte (Z.lnot 0xFFF).
Definition PTE_FLAGS (pte : Z) : Z := Z.land pte 0xFFF.

(** ** Access to memory *)

Definition mem32 (a : Z) : K Z := gets (fun k => load32 a (k_mem k)).
Definition set_mem32 (a v : Z) : K unit := upd_mem (store32 a v).

(** [memmove(a, l, n)] from the bytes [l] of another object. *)
Definition store_bytes (a : Z) (l : list Z) (m : mem) : mem := fun x =>
  if (a <=? x) && (x <? a + Z.of_nat (length l)) then default 0 (l !! Z.to_nat (x - a)) else m x.

Lemma store_bytes_in a bs m x : a <= x < a + Z.of_nat (length bs) ->
  store_bytes a bs m x = default 0 (bs !! Z.to_nat (x - a)).
Proof. intros H. unfold store_bytes. by replace ((a <=? x) && (x <? a + Z.of_nat (length bs))) with true by lia. Qed.
Lemma store_bytes_out a bs m x : ~ (a <= x < a + Z.of_nat (length bs)) -> store_bytes a bs m x = m x.
Proof. intros H. unfold store_bytes. by replace ((a <=? x) && (x <? a + Z.of_nat (length bs))) with false by lia. Qed.

(** ** vm.c *)

Section Vm.
  (** [end] and [data], from the linker script. *)
  Context (kend kdata : Z).

(** The address of the entry; 0 is the null pointer. *)
Definition walkpgdir (pgdir va : Z) (alloc : bool) : K Z :=
  let pde := pgdir + 4 * PDX va in
  v ← mem32 pde;
  if negb (Z.land v PTE_P =? 0) then mret (P2V (PTE_ADDR v) + 4 * PTX va)
  else if negb alloc then mret 0 else
  pgtab ← kalloc;
  if pgtab =? 0 then mret 0 else
  upd_mem (memset pgtab 0 PGSIZE) ;;
  set_mem32 pde (Z.lor (Z.lor (Z.lor (V2P pgtab) PTE_P) PTE_W) PTE_U) ;;
  mret (pgtab + 4 * PTX va).

(** One pass per page from [a] to [last]. *)
Fixpoint mappages_loop (n : nat) (pgdir a pa perm : Z) : K Z :=
  pte ← walkpgdir pgdir a true;
  if pte =? 0 then mret (-1) else
  v ← mem32 pte;
  if negb (Z.land v PTE_P =? 0) then panic "remap" else
  set_mem32 pte (Z.lor (Z.lor pa perm) PTE_P) ;;
  match n with
  | O => mret 0
  | S n => mappages_loop n pgdir (u32 (a + PGSIZE)) (u32 (pa + PGSIZE)) perm
  end.

Definition mappages (pgdir va size pa perm : Z) : K Z :=
  let a := PGROUNDDOWN va in
  let last := PGROUNDDOWN (u32 (va + size - 1)) in
  mappages_loop (Z.to_nat (u32 (last - a) / PGSIZE)) pgdir a pa perm.

(** Each pass moves [a] on by a page or more. *)
Fixpoint deallocuvm_loop (fuel : nat) (pgdir a oldsz : Z) : K unit :=
  if a <? oldsz then
    match fuel with
    | O => undef "deallocuvm: fuel"
    | S fuel =>
        pte ← walkpgdir pgdir a false;
        if pte =? 0 then
          deallocuvm_loop fuel pgdir (u32 (PGADDR (PDX a + 1) 0 0 - PGSIZE + PGSIZE)) oldsz
        else
          v ← mem32 pte;
          (if negb (Z.land v PTE_P =? 0) then
             let pa := PTE_ADDR v in
             if pa =? 0 then panic "kfree" else
             kfree kend (P2V pa) ;;
             set_mem32 pte 0
           else mret tt) ;;
          deallocuvm_loop fuel pgdir (u32 (a + PGSIZE)) oldsz
    end
  else mret tt.

Definition deallocuvm (pgdir oldsz newsz : Z) : K Z :=
  if newsz >=? oldsz then mret oldsz else
  let a := PGROUNDUP newsz in
  deallocuvm_loop (Z.to_nat ((oldsz - a) / PGSIZE + 1)) pgdir a oldsz ;;
  mret newsz.

Definition freevm (pgdir : Z) : K unit :=
  if pgdir =? 0 then panic "freevm: no pgdir" else
  deallocuvm pgdir KERNBASE 0 ;;
  for_each (seq 0 NPDENTRIES) (fun i =>
    v ← mem32 (pgdir + 4 * Z.of_nat i);
    if negb (Z.land v PTE_P =? 0) then kfree kend (P2V (PTE_ADDR v)) else mret tt) ;;
  kfree kend pgdir.

(** [struct kmap]: virtual address, physical range, permissions. *)
Definition kmap : list (Z * Z * Z * Z) :=
  [(KERNBASE, 0, EXTMEM, PTE_W);
   (KERNLINK, V2P KERNLINK, V2P kdata, 0);
   (kdata, V2P kdata, PHYSTOP, PTE_W);
   (DEVSPACE, DEVSPACE, 0, PTE_W)].

Definition setupkvm : K Z :=
  pgdir ← kalloc;
  if pgdir =? 0 then mret 0 else
  upd_mem (memset pgdir 0 PGSIZE) ;;
  if P2V PHYSTOP >? DEVSPACE then panic "PHYSTOP too high" else
  r ← for_loop kmap (fun '(virt, phys_start, phys_end, perm) =>
    r ← mappages pgdir virt (u32 (phys_end - phys_start)) phys_start perm;
    if r <? 0 then freevm pgdir ;; mret (Some 0) else mret None);
  match r with
  | Some v => mret v
  | None => mret pgdir
  end.

Definition kvmalloc : K unit :=
  pgdir ← setupkvm;
  modify (fun k => k <| k_kpgdir := pgdir |>) ;;
  switchkvm.

(** [init] is the [sz] bytes at [init]. *)
Definition inituvm (pgdir : Z) (init : list Z) : K unit :=
  if Z.of_nat (length init) >=? PGSIZE then panic "inituvm: more than a page" else
  mem ← kalloc;
  (if mem =? 0 then undef "inituvm: memset(0, ...)" else mret tt) ;;
  upd_mem (memset mem 0 PGSIZE) ;;
  mappages pgdir 0 PGSIZE (V2P mem) (Z.lor PTE_W PTE_U) ;;
  upd_mem (store_bytes mem init).

Definition allocuvm_fail (pgdir newsz oldsz : Z) (msg : string) : K unit :=
  cprintf (bytes msg ++ [10]) [] ;;
  deallocuvm pgdir newsz oldsz ;;
  mret tt.

Fixpoint allocuvm_loop (fuel : nat) (pgdir a oldsz newsz : Z) : K Z :=
  if a <? newsz then
    match fuel with
    | O => undef "allocuvm: fuel"
    | S fuel =>
        mem ← kalloc;
        if mem =? 0 then
          allocuvm_fail pgdir newsz oldsz "allocuvm out of memory" ;; mret 0
        else
          upd_mem (memset mem 0 PGSIZE) ;;
          r ← mappages pgdir a PGSIZE (V2P mem) (Z.lor PTE_W PTE_U);
          if r <? 0 then
            allocuvm_fail pgdir newsz oldsz "allocuvm out of memory (2)" ;;
            kfree kend mem ;;
            mret 0
          else allocuvm_loop fuel pgdir (u32 (a + PGSIZE)) oldsz newsz
    end
  else mret newsz.

Definition allocuvm (pgdir oldsz newsz : Z) : K Z :=
  if newsz >=? KERNBASE then mret 0 else
  if newsz <? oldsz then mret oldsz else
  let a := PGROUNDUP oldsz in
  allocuvm_loop (Z.to_nat ((newsz - a) / PGSIZE + 1)) pgdir a oldsz newsz.

Definition clearpteu (pgdir uva : Z) : K unit :=
  pte ← walkpgdir pgdir uva false;
  if pte =? 0 then panic "clearpteu" else
  v ← mem32 pte;
  set_mem32 pte (Z.land v (Z.lnot PTE_U)).

(** The loop of [copyuvm]; [false] is the jump to [bad]. *)
Fixpoint copyuvm_loop (fuel : nat) (pgdir d i sz : Z) : K bool :=
  if i <? sz then
    match fuel with
    | O => undef "copyuvm: fuel"
    | S fuel =>
        pte ← walkpgdir pgdir i false;
        if pte =? 0 then panic "copyuvm: pte should exist" else
        v ← mem32 pte;
        if Z.land v PTE_P =? 0 then panic "copyuvm: page not present" else
        let pa := PTE_ADDR v in
        let flags := PTE_FLAGS v in
        mem ← kalloc;
        if mem =? 0 then mret false else
        upd_mem (memmove mem (P2V pa) PGSIZE) ;;
        r ← mappages d i PGSIZE (V2P mem) flags;
        if r <? 0 then kfree kend mem ;; mret false else
        copyuvm_loop fuel pgdir d (u32 (i + PGSIZE)) sz
    end
  else mret true.

Definition copyuvm (pgdir sz : Z) : K Z :=
  d ← setupkvm;
  if d =? 0 then mret 0 else
  ok ← copyuvm_loop (Z.to_nat (sz / PGSIZE + 1)) pgdir d 0 sz;
  if (ok : bool) then mret d else freevm d ;; mret 0.

(** [uva2ka] reads through the pointer that [walkpgdir] returns without
    checking it. *)
Definition uva2ka (pgdir uva : Z) : K Z :=
  pte ← walkpgdir pgdir uva false;
  (if pte =? 0 then undef "uva2ka: null pte" else mret tt) ;;
  v ← mem32 pte;
  if Z.land v PTE_P =? 0 then mret 0 else
  if Z.land v PTE_U =? 0 then mret 0 else
  mret (P2V (PTE_ADDR v)).

(** [p] is the [len] bytes at [p]. *)
Fixpoint copyout_loop (fuel : nat) (pgdir va : Z) (p : list Z) : K Z :=
  match p with
  | [] => mret 0
  | _ =>
      match fuel with
      | O => undef "copyout: fuel"
      | S fuel =>
          let va0 := PGROUNDDOWN va in
          pa0 ← uva2ka pgdir va0;
          if pa0 =? 0 then mret (-1) else
          let n := Z.to_nat (Z.min (PGSIZE - (va - va0)) (Z.of_nat (length p))) in
          upd_mem (store_bytes (pa0 + (va - va0)) (take n p)) ;;
          copyout_loop fuel pgdir (u32 (va0 + PGSIZE)) (drop n p)
      end
  end.

Definition copyout (pgdir va : Z) (p : list Z) : K Z := copyout_loop (length p) pgdir va p.

Section Load.
  Context `{Devsw}.

(** Each pass reads a page into the memory it is mapped to. *)
Fixpoint loaduvm_loop (fuel : nat) (pgdir addr : Z) (ip : nat) (offset i sz : Z) : K Z :=
  if i <? sz then
    match fuel with
    | O => undef "loaduvm: fuel"
    | S fuel =>
        pte ← walkpgdir pgdir (u32 (addr + i)) false;
        if pte =? 0 then panic "loaduvm: address should exist" else
        v ← mem32 pte;
        let pa := PTE_ADDR v in
        let n := if sz - i <? PGSIZE then sz - i else PGSIZE in
        rd ← readi ip (u32 (offset + i)) n;
        upd_mem (store_bytes (P2V pa) (snd rd)) ;;
        if negb (u32 (fst rd) =? n) then mret (-1) else
        loaduvm_loop fuel pgdir addr ip offset (u32 (i + PGSIZE)) sz
    end
  else mret 0.

Definition loaduvm (pgdir addr : Z) (ip : nat) (offset sz : Z) : K Z :=
  if negb (addr mod PGSIZE =? 0) then panic "loaduvm: addr must be page aligned" else
  loaduvm_loop (Z.to_nat (sz / PGSIZE + 1)) pgdir addr ip offset 0 sz.
End Load.
End Vm.
