(* ===== verification/PageTable.v ===== *)
(** The page tables of an address space as a finite map from pages to
    entries, and what [mappages], [uva2ka] and [copyout] of vm.c do to it. *)

From S2P Require Import Prelude Types Spinlock Proc Sleeplock Bio Bytes Log Str Cprintf Fs FsIo Kalloc Sched Vm.

(** The page table for the directory index [d], and the entry that the
    hardware finds at index [t] of it. *)
Definition present (v : Z) : bool := negb (Z.land v PTE_P =? 0).

Definition pgtab (m : mem) (pgdir d : Z) : option Z :=
  let v := load32 (pgdir + 4 * d) m in
  if present v then Some (P2V (PTE_ADDR v)) else None.

Definition entry (m : mem) (pgdir d t : Z) : option Z :=
  tab ← pgtab m pgdir d;
  let v := load32 (tab + 4 * t) m in
  if present v then Some v else None.

(** The entry for the page of a virtual address. *)
Definition translate (m : mem) (pgdir va : Z) : option Z := entry m pgdir (PDX va) (PTX va).

(** The directory and its tables are different pages, none of them free. *)
Record pgdir_ok (kend : Z) (k : kernel) (pgdir : Z) (l : list Z) : Prop := {
  pd_free : free_pages kend k l;
  pd_page : page kend pgdir /\ pgdir ∉ l;
  pd_tabs : forall d tab, (0 <= d < 1024) -> pgtab (k_mem k) pgdir d = Some tab ->
    page kend tab /\ (tab ∉ l) /\ tab <> pgdir;
  pd_inj : forall d d' tab, 0 <= d < 1024 -> 0 <= d' < 1024 ->
    pgtab (k_mem k) pgdir d = Some tab -> pgtab (k_mem k) pgdir d' = Some tab -> d = d'
}.

(** Pages with other contents. *)
Definition outside (kend : Z) (k : kernel) (pgdir : Z) (l : list Z) (w : Z) : Prop :=
  page kend w /\ (w ∉ l) /\ w <> pgdir /\ forall d, 0 <= d < 1024 -> pgtab (k_mem k) pgdir d <> Some w.

(** The state [k'] keeps them; there are no others then, and the memory of the
    kernel itself is as it was. *)
Definition keeps_pages (kend pgdir : Z) (k : kernel) (l : list Z) (k' : kernel) (l' : list Z) : Prop :=
  forall w, outside kend k pgdir l w -> outside kend k' pgdir l' w /\
    forall x, w <= x < w + PGSIZE -> k_mem k' x = k_mem k x.
Definition keeps_others (kend pgdir : Z) (k : kernel) (l : list Z) (k' : kernel) (l' : list Z) : Prop :=
  keeps_pages kend pgdir k l k' l' /\ (forall w, outside kend k' pgdir l' w -> outside kend k pgdir l w) /\
  forall x, x < kend -> k_mem k' x = k_mem k x.

Lemma keeps_pages_trans kend pgdir k1 l1 k2 l2 k3 l3 :
  keeps_pages kend pgdir k1 l1 k2 l2 -> keeps_pages kend pgdir k2 l2 k3 l3 -> keeps_pages kend pgdir k1 l1 k3 l3.
Proof.
  intros H1 H2 w Hw. destruct (H1 w Hw) as [Hw2 E1], (H2 w Hw2) as [Hw3 E2]. split; [done|]. intros x Hx. by rewrite E2, E1.
Qed.

Lemma keeps_others_refl kend pgdir k l : keeps_others kend pgdir k l k l.
Proof. split_and!; [by intros w Hw|done|done]. Qed.

Lemma keeps_others_trans kend pgdir k1 l1 k2 l2 k3 l3 :
  keeps_others kend pgdir k1 l1 k2 l2 -> keeps_others kend pgdir k2 l2 k3 l3 -> keeps_others kend pgdir k1 l1 k3 l3.
Proof.
  intros (H1 & H1' & E1) (H2 & H2' & E2). split_and!; [by eapply keeps_pages_trans|intros w Hw; by apply H1', H2'|].
  intros x Hx. by rewrite E2, E1.
Qed.

(** ** Addresses *)

Lemma PDX_div va : 0 <= va < 2 ^ 32 -> PDX va = va / 2 ^ 22.
Proof.
  intros H. unfold PDX. change 0x3FF with (Z.ones 10). rewrite Z.land_ones, Z.shiftr_div_pow2 by lia.
  apply Z.mod_small. split; [apply Z.div_pos; lia|]. apply Z.div_lt_upper_bound; lia.
Qed.
Lemma PTX_mod va : 0 <= va -> PTX va = (va / 4096) mod 1024.
Proof.
  intros H. unfold PTX. change 0x3FF with (Z.ones 10). rewrite Z.land_ones, Z.shiftr_div_pow2 by lia. done.
Qed.
Lemma PDX_bound va : 0 <= PDX va < 1024.
Proof. unfold PDX. change 0x3FF with (Z.ones 10). rewrite Z.land_ones by lia. apply Z.mod_pos_bound. lia. Qed.
Lemma PTX_bound va : 0 <= PTX va < 1024.
Proof. unfold PTX. change 0x3FF with (Z.ones 10). rewrite Z.land_ones by lia. apply Z.mod_pos_bound. lia. Qed.

Ltac idx :=
  lazymatch goal with
  | |- 0 <= PDX _ < _ => apply PDX_bound
  | |- 0 <= PTX _ < _ => apply PTX_bound
  end.

(** The two indices name the page. *)
Lemma PDX_PTX_page va x : 0 <= va < 2 ^ 32 -> 0 <= x < 2 ^ 32 ->
  (PDX va = PDX x /\ PTX va = PTX x) <-> va / PGSIZE = x / PGSIZE.
Proof.
  intros H1 H2. rewrite !PDX_div, !PTX_mod by lia. unfold PGSIZE. change (2 ^ 22) with (4096 * 1024).
  rewrite <-!Z.div_div by lia. split; [intros [E1 E2]|by intros ->].
  rewrite (Z.div_mod (va / 4096) 1024), (Z.div_mod (x / 4096) 1024) by lia. congruence.
Qed.

Lemma PGROUNDDOWN_mod a : PGROUNDDOWN a = a - a mod PGSIZE.
Proof.
  unfold PGROUNDDOWN, PGSIZE. change (4096 - 1) with (Z.ones 12). rewrite <-Z.ldiff_land, Z.ldiff_ones_r by lia.
  rewrite Z.shiftl_mul_pow2, Z.shiftr_div_pow2 by lia. change (2 ^ 12) with 4096. Z.div_mod_to_equations. lia.
Qed.
Lemma PTE_ADDR_mod a : PTE_ADDR a = a - a mod PGSIZE.
Proof. apply PGROUNDDOWN_mod. Qed.

(** An entry made of a page address and flags. *)
Lemma PTE_parts a f : a mod PGSIZE = 0 -> 0 <= f < PGSIZE ->
  PTE_ADDR (Z.lor a f) = a /\ PTE_FLAGS (Z.lor a f) = f /\ Z.lor a f = a + f.
Proof.
  intros Ha Hf. assert (Z.land a f = 0) as Hd.
  { unfold PGSIZE in *. apply Z.bits_inj'. intros n Hn. rewrite Z.land_spec, Z.bits_0.
    destruct (Z.lt_ge_cases n 12).
    - rewrite (Z.div_mod a 4096), Ha, Z.add_0_r by lia. rewrite Z.mul_comm. change 4096 with (2 ^ 12).
      by rewrite Z.mul_pow2_bits_low by lia.
    - rewrite (Z.bits_above_log2 f), andb_false_r; [done|lia|].
      destruct (Z.eq_dec f 0) as [->|]; [simpl; lia|]. apply Z.log2_lt_pow2; [lia|].
      apply Z.lt_le_trans with (2 ^ 12); [lia|]. by apply Z.pow_le_mono_r; lia. }
  assert (Z.lor a f = a + f) as E by (rewrite <-Z.add_lor_land; lia).
  rewrite E. split_and!; [| |done].
  - rewrite PTE_ADDR_mod. unfold PGSIZE in *. Z.div_mod_to_equations. lia.
  - unfold PTE_FLAGS. change 0xFFF with (Z.ones 12). rewrite Z.land_ones by lia. unfold PGSIZE in *.
    change (2 ^ 12) with 4096. Z.div_mod_to_equations. lia.
Qed.

Lemma P2V_V2P v : 0 <= v < 2 ^ 32 -> P2V (V2P v) = v.
Proof. intros. unfold P2V, V2P, u32, KERNBASE. rewrite Zplus_mod_idemp_l, Z.sub_add. apply Z.mod_small. lia. Qed.

(** ** Words in memory *)

Lemma load32_store32_ne a b v m : a + 4 <= b \/ b + 4 <= a -> load32 b (store32 a v m) = load32 b m.
Proof. intros H. apply load32_ext. intros x Hx. unfold store32. by rewrite !store_ne by lia. Qed.

Lemma store32_other a v m x : ~ (a <= x < a + 4) -> store32 a v m x = m x.
Proof. intros H. unfold store32. by rewrite !store_ne by lia. Qed.

Lemma load32_memset0 a n b m : 0 <= n -> a <= b -> b + 4 <= a + n -> load32 b (memset a 0 n m) = 0.
Proof.
  intros Hn H1 H2. unfold load32. rewrite !memset_run by done. by zcases; try lia.
Qed.

(** The bytes of different pages are different. *)
Lemma page_apart kend v w x : page kend v -> page kend w -> v <> w -> v <= x < v + PGSIZE ->
  ~ (w <= x < w + PGSIZE).
Proof. intros (Hv & _) (Hw & _) Hne Hx Hx'. unfold PGSIZE in *. Z.div_mod_to_equations. lia. Qed.

Section Space.
  Context (kend : Z).
  Implicit Types (k : kernel) (m : mem) (l : list Z).

(** The words of the directory and of the tables decide the map. *)
Lemma pgtab_ext m m' pgdir d :
  (forall x, pgdir <= x < pgdir + PGSIZE -> m' x = m x) -> 0 <= d < 1024 ->
  pgtab m' pgdir d = pgtab m pgdir d.
Proof.
  intros E Hd. unfold pgtab. rewrite (load32_ext m); [done|]. intros x Hx. apply E. unfold PGSIZE. lia.
Qed.

Lemma entry_ext m m' pgdir d t :
  (forall x, pgdir <= x < pgdir + PGSIZE -> m' x = m x) -> 0 <= d < 1024 -> 0 <= t < 1024 ->
  (forall tab x, pgtab m pgdir d = Some tab -> tab <= x < tab + PGSIZE -> m' x = m x) ->
  entry m' pgdir d t = entry m pgdir d t.
Proof.
  intros E Hd Ht Et. unfold entry. rewrite (pgtab_ext m m') by done.
  destruct (pgtab m pgdir d) as [tab|] eqn:Htab; [|done]. cbn. rewrite (load32_ext m); [done|].
  intros x Hx. apply (Et tab); [done|]. unfold PGSIZE. lia.
Qed.

(** Writing the entry at index [(d, t)]. *)
Lemma set_entry k pgdir l d t tab w m' :
  pgdir_ok kend k pgdir l -> 0 <= d < 1024 -> 0 <= t < 1024 ->
  pgtab (k_mem k) pgdir d = Some tab -> m' = store32 (tab + 4 * t) w (k_mem k) ->
  pgdir_ok kend (k <| k_mem := m' |>) pgdir l /\
  (forall d', 0 <= d' < 1024 -> pgtab m' pgdir d' = pgtab (k_mem k) pgdir d') /\
  forall d' t', 0 <= d' < 1024 -> 0 <= t' < 1024 ->
    entry m' pgdir d' t' = if (d' =? d) && (t' =? t) then (if present (u32 w) then Some (u32 w) else None)
                           else entry (k_mem k) pgdir d' t'.
Proof.
  intros [Hf [Hpd Hpl] Ht Hi] Hd Htb Htab ->. destruct (Ht d tab Hd Htab) as (Htp & Htl & Hne).
  assert (forall v x, page kend v -> v <> tab -> v <= x < v + PGSIZE ->
    store32 (tab + 4 * t) w (k_mem k) x = k_mem k x) as E.
  { intros v x Hv Hvt Hx. apply store32_other. intros Hx'. apply (page_apart kend v tab x Hv Htp Hvt Hx).
    unfold PGSIZE. lia. }
  assert (forall d', 0 <= d' < 1024 ->
    pgtab (store32 (tab + 4 * t) w (k_mem k)) pgdir d' = pgtab (k_mem k) pgdir d') as Ed.
  { intros d' Hd'. apply pgtab_ext; [|done]. intros x. by apply E. }
  split_and!; [constructor| |]; rsimpl.
  - destruct Hf as [Hc Hp Hn]. constructor; rsimpl; [|done..]. apply (chain_ext (k_mem k)); [done|].
    intros v x Hv Hx. rewrite Forall_forall in Hp. apply (E v); [by apply Hp|by intros ->|unfold PGSIZE; lia].
  - done.
  - intros d' tab' Hd' E'. rewrite Ed in E' by done. by apply (Ht d').
  - intros d1 d2 tab' H1 H2. rewrite !Ed by done. by apply Hi.
  - done.
  - intros d' t' Hd' Ht'. destruct (Z.eqb_spec d' d) as [->|Hdd]; simpl.
    + unfold entry. rewrite Ed, Htab by done. cbn. zcases; [subst; by rewrite load32_store32|].
      by rewrite load32_store32_ne by lia.
    + apply entry_ext; [intros x; by apply E|done|done|]. intros tab' x Ht2 Hx.
      destruct (Ht d' tab' Hd' Ht2) as (Hp' & _). apply (E tab'); [done| |done].
      intros ->. apply Hdd. by apply (Hi d' d tab).
Qed.

(** The directory entry [walkpgdir] makes for a new table. *)
Definition new_pde (v : Z) : Z := Z.lor (Z.lor (Z.lor (V2P v) PTE_P) PTE_W) PTE_U.

Lemma new_pde_parts v : page kend v -> present (u32 (new_pde v)) = true /\ P2V (PTE_ADDR (u32 (new_pde v))) = v.
Proof.
  intros (Hv & _ & Hr & _).
  assert (V2P v = v - KERNBASE) as EV by (unfold V2P; apply u32_small; unfold KERNBASE, PHYSTOP in *; lia).
  assert (V2P v mod PGSIZE = 0) as Hm.
  { rewrite EV. unfold KERNBASE, PGSIZE in *. Z.div_mod_to_equations. lia. }
  unfold new_pde. rewrite <-!Z.lor_assoc. change (Z.lor PTE_P (Z.lor PTE_W PTE_U)) with 7.
  destruct (PTE_parts (V2P v) 7 Hm) as (E1 & _ & E3); [done|].
  assert (u32 (Z.lor (V2P v) 7) = Z.lor (V2P v) 7) as ->.
  { rewrite E3, EV. apply u32_small. unfold KERNBASE, PHYSTOP in *. lia. }
  rewrite E1. split; [|apply P2V_V2P; unfold KERNBASE, PHYSTOP in *; lia].
  unfold present, PTE_P. rewrite Z.land_lor_distr_l. apply negb_true_iff, Z.eqb_neq.
  intros [_ H]%Z.lor_eq_0_iff. done.
Qed.

Lemma new_table_mem k pgdir v l d m' :
  pgdir_ok kend k pgdir (v :: l) -> 0 <= d < 1024 -> pgtab (k_mem k) pgdir d = None ->
  m' = store32 (pgdir + 4 * d) (new_pde v) (memset v 0 PGSIZE (k_mem k)) ->
  (forall x, ~ (v <= x < v + PGSIZE) -> ~ (pgdir + 4 * d <= x < pgdir + 4 * d + 4) -> m' x = k_mem k x) /\
  (forall d', 0 <= d' < 1024 -> pgtab m' pgdir d' = if d' =? d then Some v else pgtab (k_mem k) pgdir d') /\
  (forall d' t, 0 <= d' < 1024 -> 0 <= t < 1024 -> entry m' pgdir d' t = entry (k_mem k) pgdir d' t).
Proof.
  intros [Hf [Hpd Hpl] Ht Hi] Hd Hnone ->. pose proof (fp_pages _ _ _ Hf) as Hv%Forall_inv.
  assert (pgdir <> v) as Hpv by (intros ->; apply Hpl; by left).
  assert (forall x, ~ (v <= x < v + PGSIZE) -> ~ (pgdir + 4 * d <= x < pgdir + 4 * d + 4) ->
    store32 (pgdir + 4 * d) (new_pde v) (memset v 0 PGSIZE (k_mem k)) x = k_mem k x) as E.
  { intros x H1 H2. rewrite store32_other by done. rewrite memset_run by done. zcases; lia. }
  assert (forall x, pgdir <= x < pgdir + PGSIZE -> ~ (v <= x < v + PGSIZE)) as Hout.
  { intros x. by apply (page_apart kend). }
  assert (forall d', 0 <= d' < 1024 -> pgtab (store32 (pgdir + 4 * d) (new_pde v) (memset v 0 PGSIZE (k_mem k))) pgdir d' =
    if d' =? d then Some v else pgtab (k_mem k) pgdir d') as Ed.
  { intros d' Hd'. unfold pgtab. zcases.
    - subst. rewrite load32_store32. destruct (new_pde_parts v Hv) as [-> ->]. done.
    - rewrite (load32_ext (k_mem k)); [done|]. intros x Hx. apply E; [apply Hout; unfold PGSIZE|]; lia. }
  split_and!; [exact E|exact Ed|]. intros d' t Hd' Ht'. unfold entry at 1. rewrite Ed by done. zcases.
  - subst. unfold entry. rewrite Hnone. cbn. rewrite load32_store32_ne.
    + by rewrite load32_memset0 by (unfold PGSIZE; lia).
    + destruct Hpd as (Ha & _), Hv as (Hb & _). unfold PGSIZE in *. Z.div_mod_to_equations. lia.
  - unfold entry. destruct (pgtab (k_mem k) pgdir d') as [tab|] eqn:Htab; [|done]. cbn.
    rewrite (load32_ext (k_mem k)); [done|]. intros x Hx. destruct (Ht d' tab Hd' Htab) as (Hp & Hn & Hne).
    assert (tab <= x < tab + PGSIZE) as Hx' by (unfold PGSIZE; lia). apply E.
    + apply (page_apart kend tab); [done|done| |done]. intros ->. apply Hn. by left.
    + pose proof (page_apart kend tab pgdir x Hp Hpd Hne Hx'). unfold PGSIZE in *. lia.
Qed.

Lemma new_table k pgdir v l d m' :
  pgdir_ok kend k pgdir (v :: l) -> 0 <= d < 1024 -> pgtab (k_mem k) pgdir d = None ->
  m' = store32 (pgdir + 4 * d) (new_pde v) (memset v 0 PGSIZE (k_mem k)) ->
  pgdir_ok kend (k <| k_kmem := k_kmem k <| km_freelist := load32 v (k_mem k) |> |> <| k_mem := m' |>) pgdir l.
Proof.
  intros Hok Hd Hnone Em. destruct (new_table_mem k pgdir v l d m' Hok Hd Hnone Em) as (E & Ed & _).
  destruct Hok as [Hf [Hpd Hpl] Ht Hi]. pose proof (fp_pages _ _ _ Hf) as Hv%Forall_inv.
  pose proof (fp_nodup _ _ _ Hf) as [Hvl _]%NoDup_cons. pose proof (kalloc_free kend k v l Hf) as Hf'.
  constructor; rsimpl.
  - destruct Hf' as [Hc Hp Hn]. constructor; rsimpl; [|done..]. apply (chain_ext (k_mem k)); [done|].
    intros w x Hw Hx. rewrite Forall_forall in Hp. assert (w <= x < w + PGSIZE) as Hx' by (unfold PGSIZE; lia). apply E.
    + apply (page_apart kend w); [by apply Hp|done|by intros ->|done].
    + assert (w <> pgdir) as Hne by (intros ->; apply Hpl; by right).
      pose proof (page_apart kend w pgdir x (Hp w Hw) Hpd Hne Hx'). unfold PGSIZE in *. lia.
  - split; [done|]. set_solver.
  - intros d' tab Hd'. rewrite Ed by done. zcases; [intros [= <-]|intros Htab].
    + split_and!; [done|done|]. intros ->. apply Hpl. by left.
    + destruct (Ht d' tab Hd' Htab) as (? & Hn & ?). set_solver.
  - intros d1 d2 tab H1 H2. rewrite !Ed by done. zcases; subst; try done; try (by apply Hi).
    + intros [= <-] Htab. destruct (Ht d2 v H2 Htab) as (_ & Hn & _). set_solver.
    + intros Htab [= <-]. destruct (Ht d1 v H1 Htab) as (_ & Hn & _). set_solver.
Qed.

Lemma new_table_others k pgdir v l d m' :
  pgdir_ok kend k pgdir (v :: l) -> 0 <= d < 1024 -> pgtab (k_mem k) pgdir d = None ->
  m' = store32 (pgdir + 4 * d) (new_pde v) (memset v 0 PGSIZE (k_mem k)) ->
  keeps_others kend pgdir k (v :: l)
    (k <| k_kmem := k_kmem k <| km_freelist := load32 v (k_mem k) |> |> <| k_mem := m' |>) l.
Proof.
  intros Hok Hd Hnone Em. destruct (new_table_mem k pgdir v l d m' Hok Hd Hnone Em) as (E & Ed & _).
  destruct Hok as [Hf [Hpd Hpl] Ht Hi]. pose proof (fp_pages _ _ _ Hf) as Hv%Forall_inv.
  split; [|split; [|intros x Hx; apply E; destruct Hv as (_ & ? & _), Hpd as (_ & ? & _); lia]];
    intros w (Hw & Hwl & Hwp & Hwt); unfold outside; rsimpl; split_and!; [done|set_solver|done| | |done| |done|].
  - intros d' Hd'. rewrite Ed by done. zcases; [intros [= ->]; set_solver|by apply Hwt].
  - intros x Hx. apply E.
    + apply (page_apart kend w); [done|done|set_solver|done].
    + pose proof (page_apart kend w pgdir x Hw Hpd Hwp Hx). unfold PGSIZE in *. lia.
  - pose proof (Hwt d Hd) as Hwv. revert Hwv. rsimpl. rewrite Ed, Z.eqb_refl by done. set_solver.
  - intros d' Hd' E'. destruct (Z.eq_dec d' d) as [->|Hne]; [by rewrite Hnone in E'|].
    apply (Hwt d' Hd'). rsimpl. rewrite Ed by done. by rewrite (proj2 (Z.eqb_neq d' d) Hne).
Qed.

Lemma set_entry_others k pgdir l d t tab w m' :
  pgdir_ok kend k pgdir l -> 0 <= d < 1024 -> 0 <= t < 1024 ->
  pgtab (k_mem k) pgdir d = Some tab -> m' = store32 (tab + 4 * t) w (k_mem k) ->
  keeps_others kend pgdir k l (k <| k_mem := m' |>) l.
Proof.
  intros Hok Hd Ht Htab Em. destruct (set_entry k pgdir l d t tab w m' Hok Hd Ht Htab Em) as (_ & Ed & _).
  destruct (pd_tabs _ _ _ _ Hok d tab Hd Htab) as (Htp & _). subst m'.
  split; [|split; [|intros x Hx; apply store32_other; destruct Htp as (_ & ? & _); lia]];
    intros v (Hv & Hvl & Hvp & Hvt); unfold outside; rsimpl; split_and!; [done|done|done| | |done|done|done|].
  1: intros d' Hd'; rewrite Ed by done; by apply Hvt.
  2: intros d' Hd'; rewrite <-Ed by done; by apply Hvt.
  - intros x Hx. apply store32_other. intros Hx'. apply (page_apart kend v tab x); [done|done| |done|unfold PGSIZE; lia].
    intros ->. by apply (Hvt d).
Qed.
End Space.

(** ** Walking and mapping *)

Section Map.
  Context (kb : kernel) (kend : Z).
  Implicit Types (k : kernel) (e : env) (m : mem) (l : list Z).

Lemma pgdir_idle k f m : idle kb k -> idle kb (k <| k_kmem := f |> <| k_mem := m |>).
Proof. intros [Hc Hh Ht (m0 & f0 & ->)]. constructor; [done..|]. by exists m, f. Qed.

Lemma walk_found k e pgdir va alloc tab :
  pgtab (k_mem k) pgdir (PDX va) = Some tab -> walkpgdir pgdir va alloc k e = Ret (tab + 4 * PTX va) k e.
Proof.
  unfold pgtab, walkpgdir, mem32. intros E. mrun. unfold present in E.
  destruct (negb _); [by injection E as <-|done].
Qed.

Lemma walk_missing k e pgdir va :
  pgtab (k_mem k) pgdir (PDX va) = None -> walkpgdir pgdir va false k e = Ret 0 k e.
Proof.
  unfold pgtab, walkpgdir, mem32. intros E. mrun. unfold present in E. by destruct (negb _).
Qed.

(** [walkpgdir] with [alloc] finds the table or makes an empty one; it fails
    only when it needs a page and none is free. *)
Lemma walk_alloc k e pgdir va l :
  idle kb k -> pgdir_ok kend k pgdir l ->
  (l = [] /\ walkpgdir pgdir va true k e = Ret 0 k e) \/
  exists k' tab l', walkpgdir pgdir va true k e = Ret (tab + 4 * PTX va) k' e /\
    idle kb k' /\ pgdir_ok kend k' pgdir l' /\ pgtab (k_mem k') pgdir (PDX va) = Some tab /\
    keeps_others kend pgdir k l k' l' /\
    (forall d, 0 <= d < 1024 -> d <> PDX va -> pgtab (k_mem k') pgdir d = pgtab (k_mem k) pgdir d) /\
    forall d t, 0 <= d < 1024 -> 0 <= t < 1024 -> entry (k_mem k') pgdir d t = entry (k_mem k) pgdir d t.
Proof.
  intros Hc Hok. destruct (pgtab (k_mem k) pgdir (PDX va)) as [tab|] eqn:Htab.
  { right. exists k, tab, l. rewrite (walk_found k e pgdir va true tab Htab).
    split_and!; try done; apply keeps_others_refl. }
  assert (present (load32 (pgdir + 4 * PDX va) (k_mem k)) = false) as Hnp.
  { unfold pgtab in Htab. by destruct (present _). }
  unfold present in Hnp. pose proof (kalloc_run kb kend k e l Hc (pd_free _ _ _ _ Hok)) as Hk.
  destruct l as [|v l].
  - left. split; [done|]. unfold walkpgdir, mem32. mrun. rewrite Hnp. cbn. by mrun.
  - right. set (m' := store32 (pgdir + 4 * PDX va) (new_pde v) (memset v 0 PGSIZE (k_mem k))).
    set (k' := k <| k_kmem := k_kmem k <| km_freelist := load32 v (k_mem k) |> |> <| k_mem := m' |>).
    destruct (new_table_mem kend k pgdir v l (PDX va) m' Hok (PDX_bound va) Htab eq_refl) as (_ & Ed & Ee).
    exists k', v, l. split_and!.
    + unfold walkpgdir, mem32, upd_mem, set_mem32. mrun. rewrite Hnp. cbn. mrun.
      pose proof (fp_pages _ _ _ (pd_free _ _ _ _ Hok)) as (_ & _ & _ & Hv)%Forall_inv.
      rewrite (proj2 (Z.eqb_neq v 0)) by lia. unfold upd_mem. mrun. by rsimpl.
    + by apply pgdir_idle.
    + by apply (new_table kend k pgdir v l (PDX va)); [|apply PDX_bound| |].
    + unfold k'. rsimpl. rewrite Ed by apply PDX_bound. by rewrite Z.eqb_refl.
    + by apply (new_table_others kend k pgdir v l (PDX va)); [|apply PDX_bound| |].
    + intros d Hd Hne. unfold k'. rsimpl. rewrite Ed by done. by rewrite (proj2 (Z.eqb_neq d (PDX va)) Hne).
    + exact Ee.
Qed.

(** One pass of [mappages]. *)
Lemma map_one k e pgdir a w l :
  idle kb k -> pgdir_ok kend k pgdir l -> 0 <= a < 2 ^ 32 -> translate (k_mem k) pgdir a = None ->
  present w = true -> 0 <= w < 2 ^ 32 ->
  exists k' l', idle kb k' /\ pgdir_ok kend k' pgdir l' /\ keeps_others kend pgdir k l k' l' /\
    (forall d, 0 <= d < 1024 -> d <> PDX a -> pgtab (k_mem k') pgdir d = pgtab (k_mem k) pgdir d) /\
    ((k' = k /\ l' = [] /\ walkpgdir pgdir a true k e = Ret 0 k e) \/
     (exists pte k1, walkpgdir pgdir a true k e = Ret pte k1 e /\ pte <> 0 /\
        present (load32 pte (k_mem k1)) = false /\ k' = k1 <| k_mem := store32 pte w (k_mem k1) |> /\
        forall x, 0 <= x < 2 ^ 32 -> translate (k_mem k') pgdir x =
          if x / PGSIZE =? a / PGSIZE then Some w else translate (k_mem k) pgdir x)).
Proof.
  intros Hc Hok Ha Hnone Hw Hw32.
  destruct (walk_alloc k e pgdir a l Hc Hok) as [[-> Hr]|(k1 & tab & l' & Hr & Hc1 & Hok1 & Htab & Ho & Ep & Ee)].
  { exists k, []. split_and!; [done|done|apply keeps_others_refl|done|by left]. }
  set (pte := tab + 4 * PTX a). set (k' := k1 <| k_mem := store32 pte w (k_mem k1) |>).
  destruct (set_entry kend k1 pgdir l' (PDX a) (PTX a) tab w _ Hok1 (PDX_bound a) (PTX_bound a) Htab eq_refl)
    as (Hok' & Ep' & Ee').
  pose proof (set_entry_others kend k1 pgdir l' (PDX a) (PTX a) tab w _ Hok1 (PDX_bound a) (PTX_bound a) Htab eq_refl) as Ho'.
  exists k', l'. split_and!; [by apply idle_mem|done| | |right].
  - by eapply keeps_others_trans.
  - intros d Hd Hne. unfold k'. rsimpl. rewrite Ep' by done. by apply Ep.
  - exists pte, k1. split_and!; [done| | |done|].
    + destruct (pd_tabs _ _ _ _ Hok1 _ _ (PDX_bound a) Htab) as ((_ & _ & _ & ?) & _).
      pose proof (PTX_bound a). unfold pte. lia.
    + unfold translate in Hnone. rewrite <-Ee in Hnone by idx.
      unfold entry in Hnone. rewrite Htab in Hnone. cbn in Hnone. by destruct (present _).
    + intros x Hx. unfold translate, k'. rsimpl. fold pte in Ee'.
      rewrite Ee', Ee by idx.
      rewrite (u32_small w), Hw by done. destruct (PDX_PTX_page x a Hx Ha) as [H1 H2].
      zcases; simpl; try done; tauto.
Qed.

(** The entry [mappages] writes for the page at [a + q] of a range. *)
Lemma map_entry pa perm : pa mod PGSIZE = 0 -> 0 <= pa < 2 ^ 32 -> 0 <= perm < PGSIZE ->
  present (Z.lor (Z.lor pa perm) PTE_P) = true /\ 0 <= Z.lor (Z.lor pa perm) PTE_P < 2 ^ 32.
Proof.
  intros Hm Hpa Hp. split.
  - unfold present. rewrite Z.land_lor_distr_l. apply negb_true_iff, Z.eqb_neq.
    intros [_ H]%Z.lor_eq_0_iff. done.
  - assert (0 <= Z.lor perm PTE_P < PGSIZE) as Hq.
    { split; [apply Z.lor_nonneg; unfold PTE_P; lia|]. unfold PGSIZE, PTE_P in *. change 4096 with (2 ^ 12).
      destruct (Z.eq_dec (Z.lor perm 1) 0) as [->|]; [done|].
      assert (0 <= Z.lor perm 1) by (apply Z.lor_nonneg; lia).
      apply Z.log2_lt_pow2; [lia|]. rewrite Z.log2_lor by lia. apply Z.max_lub_lt; [|done].
      destruct (Z.eq_dec perm 0) as [->|]; [done|]. apply Z.log2_lt_pow2; lia. }
    rewrite <-Z.lor_assoc. destruct (PTE_parts pa _ Hm Hq) as (_ & _ & ->).
    unfold PGSIZE in *. Z.div_mod_to_equations. lia.
Qed.

Lemma same_page a x : a mod PGSIZE = 0 ->
  (x / PGSIZE =? a / PGSIZE) = (a <=? x) && (x <? a + 1 * PGSIZE).
Proof. intros H. unfold PGSIZE in *. zcases; Z.div_mod_to_equations; lia. Qed.

Lemma mappages_pass n k e pgdir a pa perm pte k1 :
  walkpgdir pgdir a true k e = Ret pte k1 e -> pte <> 0 -> present (load32 pte (k_mem k1)) = false ->
  let k' := k1 <| k_mem := store32 pte (Z.lor (Z.lor pa perm) PTE_P) (k_mem k1) |> in
  mappages_loop n pgdir a pa perm k e =
    match n with
    | O => Ret 0 k' e
    | S n => mappages_loop n pgdir (u32 (a + PGSIZE)) (u32 (pa + PGSIZE)) perm k' e
    end.
Proof.
  intros Hr Hp Hn k'. unfold present in Hn.
  destruct n; cbn [mappages_loop]; rewrite (bind_Ret _ _ _ _ _ _ _ Hr), (proj2 (Z.eqb_neq pte 0)) by done;
    unfold mem32, set_mem32, upd_mem; mrun; by rewrite Hn.
Qed.

(** The pages [a .. a + PGSIZE * j] of [m'] are mapped to those from [pa]
    on, and all other pages as in [m]. *)
Definition maps_range (m : mem) (pgdir a pa perm j : Z) (m' : mem) : Prop :=
  forall x, 0 <= x < 2 ^ 32 -> translate m' pgdir x =
    if (a <=? x) && (x <? a + j * PGSIZE)
    then Some (Z.lor (Z.lor (pa + PGROUNDDOWN (x - a)) perm) PTE_P) else translate m pgdir x.

(** A page and then the range behind it. *)
Lemma maps_range_cons m1 m2 m3 pgdir a pa perm j :
  a mod PGSIZE = 0 -> 0 <= j ->
  (forall x, 0 <= x < 2 ^ 32 -> translate m2 pgdir x =
     if x / PGSIZE =? a / PGSIZE then Some (Z.lor (Z.lor pa perm) PTE_P) else translate m1 pgdir x) ->
  maps_range m2 pgdir (a + PGSIZE) (pa + PGSIZE) perm j m3 ->
  maps_range m1 pgdir a pa perm (j + 1) m3.
Proof.
  intros Ha Hj E1 E2 x Hx. rewrite (E2 x Hx), (E1 x Hx), same_page, !PGROUNDDOWN_mod by done.
  assert ((x - (a + PGSIZE)) mod PGSIZE = (x - a) mod PGSIZE) as ->.
  { unfold PGSIZE. rewrite <-(Z.mod_add (x - (a + 4096)) 1) by lia. f_equal. lia. }
  unfold PGSIZE in *. zcases; simpl; try lia; try done.
  - do 3 f_equal. lia.
  - do 3 f_equal. rewrite Z.mod_small by lia. lia.
Qed.

Lemma mappages_loop_run perm : 0 <= perm < PGSIZE -> forall n k e pgdir a pa l,
  idle kb k -> pgdir_ok kend k pgdir l ->
  a mod PGSIZE = 0 -> 0 <= a -> a + (Z.of_nat n + 1) * PGSIZE <= 2 ^ 32 ->
  pa mod PGSIZE = 0 -> 0 <= pa -> pa + (Z.of_nat n + 1) * PGSIZE <= 2 ^ 32 ->
  (forall x, a <= x < a + (Z.of_nat n + 1) * PGSIZE -> translate (k_mem k) pgdir x = None) ->
  exists r k' l' j, mappages_loop n pgdir a pa perm k e = Ret r k' e /\
    idle kb k' /\ pgdir_ok kend k' pgdir l' /\ keeps_others kend pgdir k l k' l' /\
    (r = 0 /\ j = Z.of_nat n + 1 \/ r = -1 /\ 0 <= j <= Z.of_nat n /\ l' = []) /\
    (forall d, 0 <= d < 1024 -> (forall x, a <= x < a + (Z.of_nat n + 1) * PGSIZE -> PDX x <> d) ->
       pgtab (k_mem k') pgdir d = pgtab (k_mem k) pgdir d) /\
    maps_range (k_mem k) pgdir a pa perm j (k_mem k').
Proof.
  intros Hperm. induction n as [|n IH]; intros k e pgdir a pa l Hc Hok Ham Ha0 Ha Hpm Hp0 Hp Hnone.
  all: destruct (map_entry pa perm) as [Hw1 Hw2]; [done|unfold PGSIZE in *; lia|done|].
  all: destruct (map_one k e pgdir a (Z.lor (Z.lor pa perm) PTE_P) l Hc Hok) as
    (k' & l' & Hc' & Hok' & Ho & Ep & [(-> & -> & Hr)|(pte & k1 & Hr & Hpte & Hnp & Ek & Et)]);
    [unfold PGSIZE in *; lia|apply Hnone; unfold PGSIZE in *; lia|done|done| |].
  1, 3: exists (-1), k, [], 0; cbn [mappages_loop]; rewrite (bind_Ret _ _ _ _ _ _ _ Hr); split_and!;
    [done|done|done|done|right; split_and!; (done || lia)|done|intros x Hx; unfold PGSIZE; zcases; try lia; done].
  all: rewrite (mappages_pass _ k e pgdir a pa perm pte k1 Hr Hpte Hnp), <-Ek.
  - exists 0, k', l', 1. split_and!; [done|done|done|done|by left| |].
    { intros d Hd Hx. apply Ep; [done|]. intros ->. apply (Hx a); [unfold PGSIZE; lia|done]. }
    apply (maps_range_cons _ (k_mem k') _ _ _ _ _ 0 Ham); [done|done|].
    intros x Hx. unfold PGSIZE. zcases; try lia; done.
  - rewrite !u32_small by (unfold PGSIZE in *; lia).
    destruct (IH k' e pgdir (a + PGSIZE) (pa + PGSIZE) l' Hc' Hok') as (r & k2 & l2 & j & Hr2 & Hc2 & Hok2 & Ho2 & Hj & Ep2 & Em);
      [unfold PGSIZE in *; Z.div_mod_to_equations; lia..| |].
    + intros x Hx. rewrite Et by (unfold PGSIZE in *; lia). rewrite same_page by done.
      zcases; try lia; apply Hnone; unfold PGSIZE in *; lia.
    + exists r, k2, l2, (j + 1). split_and!; [done|done|done| | | |apply (maps_range_cons _ (k_mem k')); [done|lia|done|done]].
      3: { intros d Hd Hx. rewrite Ep2; [apply Ep; [done|]|done|intros x Hx'; apply Hx; unfold PGSIZE in *; lia].
           intros ->. apply (Hx a); [unfold PGSIZE; lia|done]. }
      2: { destruct Hj as [[-> ->]|(-> & ? & ->)]; [left|right]; split_and!; (done || lia). }
      by eapply keeps_others_trans.
Qed.

(** [mappages] of whole pages makes a pass per page. *)
Lemma mappages_eq pgdir va size pa perm : va mod PGSIZE = 0 -> size mod PGSIZE = 0 -> 0 < size -> 0 <= va ->
  va + size <= 2 ^ 32 -> mappages pgdir va size pa perm = mappages_loop (Z.to_nat (size / PGSIZE - 1)) pgdir va pa perm.
Proof.
  intros Hva Hsz Hsz0 Hva0 Hva32. unfold mappages.
  rewrite (u32_small (va + size - 1)), !PGROUNDDOWN_mod, Hva, Z.sub_0_r by lia.
  rewrite u32_small by (unfold PGSIZE in *; Z.div_mod_to_equations; lia).
  do 2 f_equal. unfold PGSIZE in *. Z.div_mod_to_equations. lia.
Qed.

(** C29: [mappages] extends the map of an address space.  The pages of the
    range are those that hold an address from [va] to [va + size - 1]; [va] and
    [size] need not be page-aligned, [pa] is, as it is a page's address with
    every caller.  When none of these pages is mapped, either [mappages]
    returns 0 and each of them is mapped to the corresponding page from [pa]
    on, with the permissions [perm], or it returns -1, which happens only when
    no page is free, and a first part of them is mapped.  The mapping of every
    other page, the contents of every page that is neither free nor one of the
    space's own tables, and the kernel's own memory stay as they were. *)
Theorem mappages_extends k e pgdir va size pa perm l :
  let first := va / PGSIZE in
  let n := (va + size - 1) / PGSIZE - first + 1 in
  idle kb k -> pgdir_ok kend k pgdir l -> 0 <= perm < PGSIZE ->
  0 < size -> 0 <= va -> va + size <= 2 ^ 32 ->
  pa mod PGSIZE = 0 -> 0 <= pa -> pa + n * PGSIZE <= 2 ^ 32 ->
  (forall x, first <= x / PGSIZE < first + n -> translate (k_mem k) pgdir x = None) ->
  exists r k' l' j, mappages pgdir va size pa perm k e = Ret r k' e /\
    idle kb k' /\ pgdir_ok kend k' pgdir l' /\ keeps_others kend pgdir k l k' l' /\
    (r = 0 /\ j = n \/ r = -1 /\ 0 <= j < n /\ l' = []) /\
    maps_range (k_mem k) pgdir (first * PGSIZE) pa perm j (k_mem k').
Proof.
  intros first n Hc Hok Hperm Hsz0 Hva0 Hva32 Hpa Hpa0 Hpa32 Hnone.
  assert (mappages pgdir va size pa perm = mappages_loop (Z.to_nat (n - 1)) pgdir (first * PGSIZE) pa perm) as ->.
  { unfold mappages. rewrite (u32_small (va + size - 1)), !PGROUNDDOWN_mod by lia.
    assert (va - va mod PGSIZE = first * PGSIZE) as -> by (unfold first, PGSIZE; Z.div_mod_to_equations; lia).
    rewrite u32_small by (unfold first, PGSIZE; Z.div_mod_to_equations; lia). do 2 f_equal.
    unfold n, first, PGSIZE. Z.div_mod_to_equations. lia. }
  assert (1 <= n /\ (first + n) * PGSIZE <= 2 ^ 32) as [Hn Hn32] by (unfold n, first, PGSIZE; Z.div_mod_to_equations; lia).
  assert (Z.of_nat (Z.to_nat (n - 1)) + 1 = n) as En by lia. assert (0 <= first) as Hf0 by (unfold first, PGSIZE; Z.div_mod_to_equations; lia).
  clearbody n first.
  destruct (mappages_loop_run perm Hperm (Z.to_nat (n - 1)) k e pgdir (first * PGSIZE) pa l) as
    (r & k' & l' & j & Hr & Hc' & Hok' & Ho & Hj & _ & Em); rewrite ?En in *; try done; unfold PGSIZE in *; try lia.
  { by rewrite Z.mod_mul. }
  { intros x Hx. apply Hnone. Z.div_mod_to_equations. lia. }
  exists r, k', l', j. split_and!; try done. destruct Hj as [[-> ->]|(-> & ? & ->)]; [left|right]; split_and!; (done || lia).
Qed.
End Map.

(** ** User memory *)

Definition user (v : Z) : bool := negb (Z.land v PTE_U =? 0).

(** The page that holds the user's page at [x], and the byte at [x]; [None]
    where user code would fault. *)
Definition frame (m : mem) (pgdir x : Z) : option Z :=
  v ← translate m pgdir x; if user v then Some (P2V (PTE_ADDR v)) else None.
Definition ubyte (m : mem) (pgdir x : Z) : option Z :=
  f ← frame m pgdir x; Some (m (f + x mod PGSIZE)).

(** User pages are pages of their own. *)
Record uspace_ok (kend : Z) (k : kernel) (pgdir : Z) (l : list Z) : Prop := {
  us_dir : pgdir_ok kend k pgdir l;
  us_frame : forall x f, 0 <= x < 2 ^ 32 -> frame (k_mem k) pgdir x = Some f -> outside kend k pgdir l f;
  us_inj : forall x y f, 0 <= x < 2 ^ 32 -> 0 <= y < 2 ^ 32 -> frame (k_mem k) pgdir x = Some f ->
    frame (k_mem k) pgdir y = Some f -> x / PGSIZE = y / PGSIZE
}.

Lemma frame_page m pgdir x y : 0 <= x < 2 ^ 32 -> 0 <= y < 2 ^ 32 -> x / PGSIZE = y / PGSIZE ->
  frame m pgdir x = frame m pgdir y.
Proof.
  intros Hx Hy E. unfold frame, translate. by destruct (proj2 (PDX_PTX_page x y Hx Hy) E) as [-> ->].
Qed.

Section User.
  Context (kb : kernel) (kend : Z).
  Implicit Types (k : kernel) (e : env) (m : mem) (l : list Z).

(** Writing into one user page. *)
Lemma store_frame k pgdir l va f bs :
  uspace_ok kend k pgdir l -> 0 <= va < 2 ^ 32 -> frame (k_mem k) pgdir va = Some f ->
  va mod PGSIZE + Z.of_nat (length bs) <= PGSIZE ->
  let m' := store_bytes (f + va mod PGSIZE) bs (k_mem k) in
  uspace_ok kend (k <| k_mem := m' |>) pgdir l /\
  (forall x, 0 <= x < 2 ^ 32 -> frame m' pgdir x = frame (k_mem k) pgdir x) /\
  (forall d, 0 <= d < 1024 -> pgtab m' pgdir d = pgtab (k_mem k) pgdir d) /\
  forall x, 0 <= x < 2 ^ 32 -> ubyte m' pgdir x =
    if (va <=? x) && (x <? va + Z.of_nat (length bs)) then Some (default 0 (bs !! Z.to_nat (x - va)))
    else ubyte (k_mem k) pgdir x.
Proof.
  intros [[Hf [Hpd Hpl] Ht Hi] Hfr Hinj] Hva Hfv Hlen m'. destruct (Hfr va f Hva Hfv) as (Hfp & Hfl & Hfd & Hft).
  assert (0 <= va mod PGSIZE < PGSIZE) as Ho by (apply Z.mod_pos_bound; done).
  assert (forall v x, page kend v -> v <> f -> v <= x < v + PGSIZE -> m' x = k_mem k x) as E.
  { intros v x Hv Hvf Hx. apply store_bytes_out. intros Hx'. apply (page_apart kend v f x Hv Hfp Hvf Hx). lia. }
  assert (forall d, 0 <= d < 1024 -> pgtab m' pgdir d = pgtab (k_mem k) pgdir d) as Ed.
  { intros d Hd. apply pgtab_ext; [|done]. intros x. by apply E. }
  assert (forall x, translate m' pgdir x = translate (k_mem k) pgdir x) as Et.
  { intros x. unfold translate. apply entry_ext; [intros y; by apply E|idx|idx|]. intros tab y Htab.
    apply E; [apply (Ht _ _ (PDX_bound x) Htab)|]. intros ->. by apply (Hft _ (PDX_bound x)). }
  assert (forall x, frame m' pgdir x = frame (k_mem k) pgdir x) as Ef by (intros x; unfold frame; by rewrite Et).
  split_and!; [constructor; [constructor|..]| | |]; rsimpl; try done.
  - destruct Hf as [Hc Hp Hn]. constructor; rsimpl; [|done..]. apply (chain_ext (k_mem k)); [done|].
    intros v x Hv Hx. rewrite Forall_forall in Hp. apply (E v); [by apply Hp|by intros ->|unfold PGSIZE; lia].
  - intros d tab Hd. rewrite Ed by done. by apply Ht.
  - intros d1 d2 tab H1 H2. rewrite !Ed by done. by apply Hi.
  - intros x g Hx. rewrite Ef. intros Hg. destruct (Hfr x g Hx Hg) as (? & ? & ? & Hg').
    split_and!; try done. intros d Hd. rsimpl. rewrite Ed by done. by apply Hg'.
  - intros x y g Hx Hy. rewrite !Ef. by apply Hinj.
  - intros x Hx. unfold ubyte. rewrite Ef. destruct (frame (k_mem k) pgdir x) as [g|] eqn:Hg; cbn.
    2: { zcases; simpl; try done. rewrite (frame_page _ _ x va Hx Hva), Hfv in Hg; [done|].
         unfold PGSIZE in *. Z.div_mod_to_equations. lia. }
    destruct (Z.eq_dec g f) as [->|Hne].
    + pose proof (Hinj x va f Hx Hva Hg Hfv) as Ep.
      assert (f + x mod PGSIZE = f + va mod PGSIZE + (x - va)) as -> by (unfold PGSIZE in *; Z.div_mod_to_equations; lia).
      zcases; simpl; unfold m'; [|rewrite store_bytes_out; [done|lia]..].
      rewrite store_bytes_in by lia. do 3 f_equal. lia.
    + rewrite (E g); [|apply (Hfr x g Hx Hg)|done|pose proof (Z.mod_pos_bound x PGSIZE); unfold PGSIZE in *; lia].
      zcases; simpl; try done. exfalso. apply Hne. apply (inj Some). rewrite <-Hg, <-Hfv. apply frame_page; [done..|].
      unfold PGSIZE in *. Z.div_mod_to_equations. lia.
Qed.

Lemma uva2ka_run k e pgdir va :
  pgtab (k_mem k) pgdir (PDX va) <> None -> (forall tab, pgtab (k_mem k) pgdir (PDX va) = Some tab -> 0 < tab) ->
  uva2ka pgdir va k e = Ret (default 0 (frame (k_mem k) pgdir va)) k e.
Proof.
  intros Hn Hpos. destruct (pgtab (k_mem k) pgdir (PDX va)) as [tab|] eqn:Htab; [|done]. unfold uva2ka.
  rewrite (bind_Ret _ _ _ _ _ _ _ (walk_found k e pgdir va false tab Htab)).
  pose proof (Hpos tab eq_refl). pose proof (PTX_bound va). rewrite (proj2 (Z.eqb_neq _ 0)) by lia.
  unfold mem32. mrun. unfold frame, translate, entry. rewrite Htab. cbn. unfold present, user.
  destruct (Z.land _ PTE_P =? 0); cbn; [done|]. by destruct (Z.land _ PTE_U =? 0).
Qed.

(** [bs] is at [va] in user memory, and the rest of it as in [m]. *)
Definition user_write (m : mem) (pgdir va : Z) (bs : list Z) (m' : mem) : Prop :=
  forall x, 0 <= x < 2 ^ 32 -> ubyte m' pgdir x =
    if (va <=? x) && (x <? va + Z.of_nat (length bs)) then Some (default 0 (bs !! Z.to_nat (x - va)))
    else ubyte m pgdir x.

Lemma user_write_app m1 m2 m3 pgdir va bs bs' :
  user_write m1 pgdir va bs m2 -> user_write m2 pgdir (va + Z.of_nat (length bs)) bs' m3 ->
  user_write m1 pgdir va (bs ++ bs') m3.
Proof.
  intros E1 E2 x Hx. rewrite (E2 x Hx), (E1 x Hx), length_app. zcases; simpl; try lia; try done.
  - rewrite lookup_app_r by lia. do 3 f_equal. lia.
  - by rewrite lookup_app_l by lia.
Qed.

(** The part of [bs] that the first pass of [copyout] copies. *)
Definition first_part (va : Z) (bs : list Z) : nat :=
  Z.to_nat (Z.min (PGSIZE - va mod PGSIZE) (Z.of_nat (length bs))).

Lemma copyout_pass fuel k e pgdir va bs l :
  idle kb k -> uspace_ok kend k pgdir l -> bs <> [] -> 0 <= va < 2 ^ 32 -> pgtab (k_mem k) pgdir (PDX va) <> None ->
  (frame (k_mem k) pgdir va = None /\ copyout_loop (S fuel) pgdir va bs k e = Ret (-1) k e) \/
  exists k1, copyout_loop (S fuel) pgdir va bs k e =
      copyout_loop fuel pgdir (u32 (PGROUNDDOWN va + PGSIZE)) (drop (first_part va bs) bs) k1 e /\
    idle kb k1 /\ uspace_ok kend k1 pgdir l /\
    (forall d, 0 <= d < 1024 -> pgtab (k_mem k1) pgdir d = pgtab (k_mem k) pgdir d) /\
    (forall x, 0 <= x < 2 ^ 32 -> frame (k_mem k1) pgdir x = frame (k_mem k) pgdir x) /\
    user_write (k_mem k) pgdir va (take (first_part va bs) bs) (k_mem k1).
Proof.
  intros Hc Hok Hbs Hva Htab. assert (0 <= va mod PGSIZE < PGSIZE) as Ho by (apply Z.mod_pos_bound; done).
  assert (PGROUNDDOWN va / PGSIZE = va / PGSIZE /\ 0 <= PGROUNDDOWN va <= va) as [Epg Hdn].
  { rewrite PGROUNDDOWN_mod. unfold PGSIZE in *. Z.div_mod_to_equations. lia. }
  destruct (proj2 (PDX_PTX_page (PGROUNDDOWN va) va ltac:(lia) ltac:(lia)) Epg) as [Epd _].
  assert (uva2ka pgdir (PGROUNDDOWN va) k e = Ret (default 0 (frame (k_mem k) pgdir va)) k e) as Hu.
  { rewrite uva2ka_run, (frame_page _ _ (PGROUNDDOWN va) va); [done|lia|lia|done|by rewrite Epd|].
    intros tab E. by destruct (pd_tabs _ _ _ _ (us_dir _ _ _ _ Hok) _ _ (PDX_bound _) E) as ((_ & _ & _ & ?) & _). }
  destruct bs as [|b bs]; [done|]. cbn [copyout_loop]. rewrite (bind_Ret _ _ _ _ _ _ _ Hu).
  destruct (frame (k_mem k) pgdir va) as [f|] eqn:Hf; cbn [from_option id]; [right|by left].
  destruct (us_frame _ _ _ _ Hok va f Hva Hf) as ((_ & _ & _ & Hfpos) & _).
  rewrite (proj2 (Z.eqb_neq f 0)) by lia.
  replace (va - PGROUNDDOWN va) with (va mod PGSIZE) by (rewrite PGROUNDDOWN_mod; lia).
  fold (first_part va (b :: bs)). set (n := first_part va (b :: bs)).
  destruct (store_frame k pgdir l va f (take n (b :: bs)) Hok Hva Hf) as (Hok' & Ef & Ed & Eu).
  { rewrite length_take. unfold n, first_part. lia. }
  unfold upd_mem. mrun. eexists. split_and!; [done|by apply idle_mem|exact Hok'|exact Ed|exact Ef|exact Eu].
Qed.

Lemma copyout_loop_run : forall fuel k e pgdir va bs l,
  idle kb k -> uspace_ok kend k pgdir l -> (length bs <= fuel)%nat ->
  0 <= va -> va + Z.of_nat (length bs) <= 2 ^ 32 ->
  (forall x, va <= x < va + Z.of_nat (length bs) -> pgtab (k_mem k) pgdir (PDX x) <> None) ->
  exists r k' j, copyout_loop fuel pgdir va bs k e = Ret r k' e /\ idle kb k' /\ uspace_ok kend k' pgdir l /\
    user_write (k_mem k) pgdir va (take j bs) (k_mem k') /\
    (r = 0 /\ j = length bs \/
     r = -1 /\ (j < length bs)%nat /\ frame (k_mem k) pgdir (va + Z.of_nat j) = None).
Proof.
  assert (forall m pgdir va, user_write m pgdir va [] m) as W0.
  { intros m pgdir va x Hx. zcases; simpl in *; lia || done. }
  induction fuel as [|fuel IH]; intros k e pgdir va bs l Hc Hok Hfuel Hva Hlen Htabs.
  all: destruct (decide (bs = [])) as [->|Hbs]; [exists 0, k, 0%nat; split_and!; (done || by left)|].
  all: assert (0 < length bs)%nat as Hpos by (destruct bs; [done|simpl; lia]).
  1: lia.
  destruct (copyout_pass fuel k e pgdir va bs l Hc Hok Hbs ltac:(lia)) as
    [[Hf Hr]|(k1 & -> & Hc1 & Hok1 & Ed & Ef & Hw)]; [apply Htabs; lia| |].
  { exists (-1), k, 0%nat. rewrite Z.add_0_r. split_and!; (done || by right). }
  set (n := first_part va bs) in *.
  assert (0 <= va mod PGSIZE < PGSIZE) as Ho by (apply Z.mod_pos_bound; done).
  assert (0 < n <= length bs)%nat as Hn by (unfold n, first_part; lia).
  destruct (decide (drop n bs = [])) as [E0|Hne].
  { rewrite E0. exists 0, k1, (length bs). assert (length (drop n bs) = 0%nat) as El by by rewrite E0. rewrite length_drop in El.
    rewrite firstn_all. rewrite take_ge in Hw by lia. split_and!; [by destruct fuel|done|done|done|by left]. }
  assert (length (drop n bs) <> 0)%nat as El by (by destruct (drop n bs)). rewrite length_drop in El.
  assert (PGROUNDDOWN va + PGSIZE = va + Z.of_nat n) as Eva by (rewrite PGROUNDDOWN_mod; unfold n, first_part in *; lia).
  rewrite u32_small, Eva by lia.
  destruct (IH k1 e pgdir (va + Z.of_nat n) (drop n bs) l Hc1 Hok1) as (r & k' & j & Hr & Hc' & Hok' & Hw' & Hj);
    [rewrite ?length_drop; lia..| |].
  { intros x Hx. rewrite length_drop in Hx. rewrite Ed by idx. apply Htabs. lia. }
  exists r, k', (n + j)%nat. split_and!; [done..| |].
  - rewrite <-take_take_drop. apply (user_write_app _ (k_mem k1)); [done|]. by rewrite length_take_le by lia.
  - destruct Hj as [[-> ->]|(-> & Hj & Hn')]; rewrite length_drop in *; [left; lia|right].
    rewrite Ef in Hn' by lia. split_and!; [done|lia|]. rewrite <-Hn'. f_equal. lia.
Qed.

(** [copyout] writes into user memory through the page tables: when the
    range has page tables, either every page of it is a user page, and then it
    returns 0 and the bytes are in user memory at [va], or it returns -1 and
    the bytes before the first page that is not are.  No other byte of user
    memory and no page table changes. *)
Theorem copyout_copies k e pgdir va bs l :
  idle kb k -> uspace_ok kend k pgdir l -> 0 <= va -> va + Z.of_nat (length bs) <= 2 ^ 32 ->
  (forall x, va <= x < va + Z.of_nat (length bs) -> pgtab (k_mem k) pgdir (PDX x) <> None) ->
  exists r k' j, copyout pgdir va bs k e = Ret r k' e /\ uspace_ok kend k' pgdir l /\
    user_write (k_mem k) pgdir va (take j bs) (k_mem k') /\
    (r = 0 /\ j = length bs \/
     r = -1 /\ (j < length bs)%nat /\ frame (k_mem k) pgdir (va + Z.of_nat j) = None).
Proof.
  intros Hc Hok Hva Hlen Htabs.
  destruct (copyout_loop_run (length bs) k e pgdir va bs l Hc Hok) as (r & k' & j & Hr & _ & Hok' & Hw & Hj);
    [lia..|done|]. by exists r, k', j.
Qed.
End User.

(** ** Instances: an empty directory, and one with a single user page *)

Definition demo_pte : Z := V2P (page_at 4) + 7.
Definition demo_space : kernel :=
  demo_free <| k_mem := store32 (page_at 0) (V2P (page_at 2) + 7) (store32 (page_at 2 + 4) demo_pte (k_mem demo_free)) |>.

(** A property of every index, by evaluation. *)
Lemma index_forall (P : Z -> Prop) `{!forall d, Decision (P d)} :
  bool_decide (Forall P (seqZ 0 1024)) = true -> forall d, 0 <= d < 1024 -> P d.
Proof.
  intros E%bool_decide_eq_true d Hd. rewrite Forall_forall in E. apply E, elem_of_seqZ. lia.
Qed.

Lemma demo_empty d : 0 <= d < 1024 -> pgtab (k_mem demo_free) (page_at 0) d = None.
Proof. revert d. refine (index_forall _ _). vm_compute. done. Qed.
Lemma demo_dir d : 0 <= d < 1024 ->
  pgtab (k_mem demo_space) (page_at 0) d = if d =? 0 then Some (page_at 2) else None.
Proof. revert d. refine (index_forall _ _). vm_compute. done. Qed.
Lemma demo_table t : 0 <= t < 1024 ->
  entry (k_mem demo_space) (page_at 0) 0 t = if t =? 1 then Some demo_pte else None.
Proof. revert t. refine (index_forall _ _). vm_compute. done. Qed.

Lemma demo_pgdir_ok : pgdir_ok demo_kend demo_free (page_at 0) [page_at 1; page_at 3].
Proof.
  constructor.
  - apply demo_free_pages.
  - split; [apply demo_page; lia|]. apply (bool_decide_unpack _). vm_compute. exact I.
  - intros d tab Hd. by rewrite demo_empty.
  - intros d d' tab Hd Hd'. by rewrite demo_empty.
Qed.

Lemma mappages_extends_witness :
  exists k' l', mappages (page_at 0) 0x3FFABC 0x800 0x500000 6 demo_free [] = Ret 0 k' [] /\
    pgdir_ok demo_kend k' (page_at 0) l' /\ translate (k_mem k') (page_at 0) 0x3FF123 = Some 0x500007 /\
    translate (k_mem k') (page_at 0) 0x400FFF = Some 0x501007.
Proof.
  assert (idle solo_kernel demo_free) as Hc by (unfold demo_free; apply idle_kmem, solo_idle).
  destruct (mappages_extends solo_kernel demo_kend demo_free [] (page_at 0) 0x3FFABC 0x800 0x500000 6 _ Hc demo_pgdir_ok)
    as (r & k' & l' & j & Hr & _ & Hok & _ & Hj & Hm);
    [unfold PGSIZE; lia|lia|lia|lia|done|lia|done| |].
  { intros x Hx. unfold translate, entry. by rewrite demo_empty by idx. }
  assert (match mappages (page_at 0) 0x3FFABC 0x800 0x500000 6 demo_free [] with Ret r _ _ => r = 0 | _ => False end) as Hr0.
  { vm_compute. done. }
  rewrite Hr in Hr0. subst r. destruct Hj as [[_ ->]|[? _]]; [|done].
  exists k', l'. split_and!; [exact Hr|exact Hok|rewrite Hm by lia; reflexivity|rewrite Hm by lia; reflexivity].
Defined.

Lemma demo_translate x : translate (k_mem demo_space) (page_at 0) x =
  if (PDX x =? 0) && (PTX x =? 1) then Some demo_pte else None.
Proof.
  unfold translate. destruct (Z.eqb_spec (PDX x) 0) as [->|H]; simpl; [apply demo_table; idx|].
  unfold entry. rewrite demo_dir by idx. rewrite (proj2 (Z.eqb_neq _ _) H). done.
Qed.

Lemma demo_uspace : uspace_ok demo_kend demo_space (page_at 0) [page_at 1; page_at 3].
Proof.
  constructor; [constructor|..].
  - constructor; [vm_compute; done|repeat constructor; apply demo_page; lia|].
    apply (bool_decide_unpack _). vm_compute. exact I.
  - split; [apply demo_page; lia|]. apply (bool_decide_unpack _). vm_compute. exact I.
  - intros d tab Hd. rewrite demo_dir by done. zcases; intros [= <-].
    split_and!; [apply demo_page; lia|apply (bool_decide_unpack _); vm_compute; exact I|done].
  - intros d d' tab Hd Hd'. rewrite !demo_dir by done. zcases; congruence.
  - intros x f Hx. unfold frame. rewrite demo_translate. zcases; simpl; try done. intros [= <-].
    split_and!; [apply (demo_page 4); lia|apply (bool_decide_unpack _); vm_compute; exact I|done|].
    intros d Hd. rewrite demo_dir by done. by zcases.
  - intros x y f Hx Hy. unfold frame. rewrite !demo_translate. zcases; simpl; try done. intros _ _.
    apply PDX_PTX_page; [done|done|]. split; congruence.
Qed.

Lemma copyout_copies_witness :
  exists k', copyout (page_at 0) 0x1FFE [7; 8] demo_space [] = Ret 0 k' [] /\
    ubyte (k_mem k') (page_at 0) 0x1FFF = Some 8.
Proof.
  assert (idle solo_kernel demo_space) as Hc by (apply idle_mem; unfold demo_free; apply idle_kmem, solo_idle).
  destruct (copyout_copies solo_kernel demo_kend demo_space [] (page_at 0) 0x1FFE [7; 8] _ Hc demo_uspace)
    as (r & k' & j & Hr & _ & Hw & Hj); [done|done| |].
  { intros x Hx. rewrite demo_dir by idx. rewrite PDX_div by (simpl in Hx; lia).
    rewrite (Z.div_small x) by (simpl in Hx; lia). done. }
  assert (match copyout (page_at 0) 0x1FFE [7; 8] demo_space [] with Ret r _ _ => r = 0 | _ => False end) as Hr0.
  { vm_compute. done. }
  rewrite Hr in Hr0. subst r. destruct Hj as [[_ ->]|[? _]]; [|done]. exists k'. split; [exact Hr|].
  rewrite Hw by lia. reflexivity.
Defined.
