(* ===== verification/FreeVm.v ===== *)
(** The kernel's part of an address space and the end of an address space
    (vm.c): [setupkvm] makes a directory that maps the kernel, [freevm] gives
    back every page of an address space. *)

From S2P Require Import Prelude Types Spinlock Proc Sleeplock Bio Bytes Log Str Cprintf Fs FsIo Kalloc Sched Vm PageTable.

(** ** Entries *)

Definition page_of (v : Z) : Z := P2V (PTE_ADDR v).

Lemma load32_range a m : 0 <= load32 a m < 2 ^ 32.
Proof.
  unfold load32. pose proof (u8_range (m a)). pose proof (u8_range (m (a + 1))).
  pose proof (u8_range (m (a + 2))). pose proof (u8_range (m (a + 3))). lia.
Qed.

Lemma translate_word m pgdir x v : translate m pgdir x = Some v -> present v = true /\ 0 <= v < 2 ^ 32.
Proof.
  unfold translate, entry. destruct (pgtab _ _ _) as [tab|]; [|done]. cbn. destruct (present _) eqn:E; [|done].
  intros [= <-]. split; [done|apply load32_range].
Qed.

Lemma translate_page m pgdir x y : 0 <= x < 2 ^ 32 -> 0 <= y < 2 ^ 32 -> x / PGSIZE = y / PGSIZE ->
  translate m pgdir x = translate m pgdir y.
Proof. intros Hx Hy E. unfold translate. by destruct (proj2 (PDX_PTX_page x y Hx Hy) E) as [-> ->]. Qed.

(** The start of the next table's range. *)
Lemma next_table a : 0 <= a < KERNBASE -> u32 (PGADDR (PDX a + 1) 0 0 - PGSIZE + PGSIZE) = (a / 2 ^ 22 + 1) * 2 ^ 22.
Proof.
  intros Ha. unfold KERNBASE in Ha. unfold PGADDR. rewrite PDX_div by lia. rewrite Z.shiftl_0_l, !Z.lor_0_r, Z.shiftl_mul_pow2 by lia.
  rewrite (u32_small (_ * _)) by (Z.div_mod_to_equations; lia).
  rewrite u32_small by (unfold PGSIZE; Z.div_mod_to_equations; lia). lia.
Qed.

(** ** Pages taken and given back *)

Section Space.
  Context (kb : kernel) (kend : Z).
  Implicit Types (k : kernel) (e : env) (m : mem) (l : list Z).

(** A page is taken from the free list and written. *)
Lemma take_page k d v l m' :
  idle kb k -> pgdir_ok kend k d (v :: l) -> (forall x, ~ (v <= x < v + PGSIZE) -> m' x = k_mem k x) ->
  let k' := k <| k_kmem := k_kmem k <| km_freelist := load32 v (k_mem k) |> |> <| k_mem := m' |> in
  idle kb k' /\ pgdir_ok kend k' d l /\ outside kend k' d l v /\
  (forall w, outside kend k d (v :: l) w -> w <> v /\ outside kend k' d l w /\ forall x, w <= x < w + PGSIZE -> m' x = k_mem k x) /\
  (forall w, outside kend k' d l w -> w = v \/ outside kend k d (v :: l) w) /\
  (forall x, translate m' d x = translate (k_mem k) d x).
Proof.
  intros Hc [Hf [Hpd Hpl] Ht Hi] Em k'. pose proof (fp_pages _ _ _ Hf) as Hv%Forall_inv.
  pose proof (fp_nodup _ _ _ Hf) as [Hvl _]%NoDup_cons. pose proof (kalloc_free kend k v l Hf) as Hf'.
  assert (forall w x, page kend w -> w <> v -> w <= x < w + PGSIZE -> m' x = k_mem k x) as E.
  { intros w x Hw Hne Hx. apply Em. by apply (page_apart kend w). }
  assert (d <> v) as Hdv by set_solver.
  assert (forall j, 0 <= j < 1024 -> pgtab m' d j = pgtab (k_mem k) d j) as Ed.
  { intros j Hj. apply pgtab_ext; [|done]. intros x. by apply E. }
  assert (forall j tab, 0 <= j < 1024 -> pgtab (k_mem k) d j = Some tab -> tab <> v) as Htv.
  { intros j tab Hj Hjt. destruct (Ht j tab Hj Hjt) as (_ & Hn & _). set_solver. }
  split_and!; [by apply pgdir_idle|constructor; rsimpl| | | |].
  - destruct Hf' as [Hch Hp Hn]. constructor; rsimpl; [|done..]. apply (chain_ext (k_mem k)); [done|].
    intros w x Hw Hx. rewrite Forall_forall in Hp. apply (E w); [by apply Hp|by intros ->|unfold PGSIZE; lia].
  - split; [done|set_solver].
  - intros j tab Hj. rewrite Ed by done. intros Htab. destruct (Ht j tab Hj Htab) as (? & Hn & ?). set_solver.
  - intros j j' tab Hj Hj'. rewrite !Ed by done. by apply Hi.
  - unfold outside, k'. rsimpl. split_and!; [done|done|done|]. intros j Hj. rewrite Ed by done. intros E'. by apply (Htv j v).
  - intros w (Hw & Hwl & Hwd & Hwt). assert (w <> v) as Hwv by set_solver. split; [done|]. split; [|intros x; by apply E].
    unfold outside, k'. rsimpl. split_and!; [done|set_solver|done|]. intros j Hj. rewrite Ed by done. by apply Hwt.
  - intros w (Hw & Hwl & Hwd & Hwt). destruct (decide (w = v)) as [->|Hwv]; [by left|right].
    unfold outside. split_and!; [done|set_solver|done|]. intros j Hj. rewrite <-Ed by done. by apply Hwt.
  - intros x. unfold translate. apply entry_ext; [intros y; by apply E|idx|idx|]. intros tab y Htab.
    destruct (Ht _ tab (PDX_bound x) Htab) as (Htp & _). apply E; [done|]. by apply (Htv _ tab (PDX_bound x)).
Qed.

(** A page is given back. *)
Lemma give_back k d v l k' m' : pgdir_ok kend k d l -> outside kend k d l v ->
  free_pages kend k' (v :: l) -> k_mem k' = m' -> (forall x, ~ (v <= x < v + PGSIZE) -> m' x = k_mem k x) ->
  pgdir_ok kend k' d (v :: l) /\ (forall x, translate (k_mem k') d x = translate (k_mem k) d x) /\
  (forall j, 0 <= j < 1024 -> pgtab (k_mem k') d j = pgtab (k_mem k) d j) /\
  (forall w, w <> v -> outside kend k d l w -> outside kend k' d (v :: l) w /\ forall x, w <= x < w + PGSIZE -> k_mem k' x = k_mem k x) /\
  forall w, outside kend k' d (v :: l) w -> w <> v /\ outside kend k d l w.
Proof.
  intros [Hf [Hpd Hpl] Ht Hi] (Hv & Hvl & Hvd & Hvt) Hf' <- Em.
  assert (forall w x, page kend w -> w <> v -> w <= x < w + PGSIZE -> k_mem k' x = k_mem k x) as E.
  { intros w x Hw Hne Hx. apply Em. by apply (page_apart kend w). }
  assert (forall j, 0 <= j < 1024 -> pgtab (k_mem k') d j = pgtab (k_mem k) d j) as Ed.
  { intros j Hj. apply pgtab_ext; [|done]. intros x. by apply E. }
  assert (forall j tab, 0 <= j < 1024 -> pgtab (k_mem k) d j = Some tab -> tab <> v) as Htv.
  { intros j tab Hj Hjt ->. by apply (Hvt j). }
  split_and!; [constructor; [done|set_solver| |]| |exact Ed| |].
  - intros j tab Hj. rewrite Ed by done. intros Htab. pose proof (Htv j tab Hj Htab). destruct (Ht j tab Hj Htab) as (? & Hn & ?). set_solver.
  - intros j j' tab Hj Hj'. rewrite !Ed by done. by apply Hi.
  - intros x. unfold translate. apply entry_ext; [intros y; by apply E|idx|idx|]. intros tab y Htab.
    destruct (Ht _ tab (PDX_bound x) Htab) as (Htp & _). apply E; [done|]. by apply (Htv _ tab (PDX_bound x)).
  - intros w Hne (Hw & Hwl & Hwd & Hwt). split; [|intros x; by apply E].
    unfold outside. split_and!; [done|set_solver|done|]. intros j Hj. rewrite Ed by done. by apply Hwt.
  - intros w (Hw & Hwl & Hwd & Hwt). split; [set_solver|]. unfold outside. split_and!; [done|set_solver|done|].
    intros j Hj. rewrite <-Ed by done. by apply Hwt.
Qed.

(** ** The pages below the kernel *)

Section Free.
  Context (k0 : kernel) (d : Z) (l0 : list Z) (Hkend : KERNBASE < kend).
  Context (Hframes : forall x v, 0 <= x < KERNBASE -> translate (k_mem k0) d x = Some v -> outside kend k0 d l0 (page_of v)).
  Context (Hapart : forall x y v w, 0 <= x < KERNBASE -> 0 <= y < KERNBASE -> translate (k_mem k0) d x = Some v ->
    translate (k_mem k0) d y = Some w -> page_of v = page_of w -> x / PGSIZE = y / PGSIZE).

(** The pages below [a] have been freed. *)
Record freed (a : Z) k l : Prop := {
  fr_idle : idle kb k;
  fr_dir : pgdir_ok kend k d l;
  fr_tabs j : 0 <= j < 1024 -> pgtab (k_mem k) d j = pgtab (k_mem k0) d j;
  fr_rest x : a <= x < KERNBASE -> translate (k_mem k) d x = translate (k_mem k0) d x;
  fr_list w : w ∈ l <-> w ∈ l0 \/ exists x v, 0 <= x < a /\ translate (k_mem k0) d x = Some v /\ page_of v = w;
  fr_keep w : outside kend k0 d l0 w -> w ∉ l ->
    outside kend k d l w /\ forall x, w <= x < w + PGSIZE -> k_mem k x = k_mem k0 x
}.

Lemma freed_skip a a' k l : freed a k l -> a <= a' -> (forall x, a <= x < a' -> translate (k_mem k0) d x = None) ->
  freed a' k l.
Proof.
  intros [Hc Hok Ht Hr Hl Hk] Ha Hn. constructor; [done..| | |done].
  - intros x Hx. apply Hr. lia.
  - intros w. rewrite Hl. split; (intros [|(x & v & Hx & E & Ew)]; [by left|right]); exists x, v; split_and!; try done; try lia.
    destruct (decide (x < a)); [lia|]. by rewrite Hn in E by lia.
Qed.

(** One page. *)
Lemma freed_page a k l v tab e : freed a k l -> a mod PGSIZE = 0 -> 0 <= a < KERNBASE ->
  translate (k_mem k0) d a = Some v -> pgtab (k_mem k) d (PDX a) = Some tab ->
  exists k', (kfree kend (page_of v) ;; set_mem32 (tab + 4 * PTX a) 0) k e = Ret tt k' e /\
    freed (a + PGSIZE) k' (page_of v :: l).
Proof.
  intros [Hc Hok Ht Hr Hl Hk] Ham Ha Hv Htab. pose proof (Hframes a v Ha Hv) as Ho.
  assert (forall x, a <= x < a + PGSIZE -> translate (k_mem k0) d x = Some v) as Hpg.
  { intros x Hx. rewrite (translate_page _ _ x a); [done|unfold PGSIZE, KERNBASE in *; lia..|].
    unfold PGSIZE in *. Z.div_mod_to_equations. lia. }
  assert (page_of v ∉ l) as Hnl.
  { rewrite Hl. intros [Hl0|(x & u & Hx & Hu & E)]; [by destruct Ho as (_ & ? & _)|].
    pose proof (Hapart x a u v ltac:(lia) Ha Hu Hv E). unfold PGSIZE in *. Z.div_mod_to_equations. lia. }
  destruct (Hk _ Ho Hnl) as [Hok1 _].
  destruct (kfree_run kb kend k e (page_of v) l Hc (pd_free _ _ _ _ Hok) (proj1 Ho) Hnl) as (m1 & Hf & Hf1 & Em1).
  match type of Hf with _ = Ret _ ?s _ => set (k1 := s) in * end.
  destruct (give_back k d (page_of v) l k1 m1 Hok Hok1 Hf1 eq_refl Em1) as (Hd1 & Etr1 & Et1 & Hk1 & _).
  assert (pgtab (k_mem k1) d (PDX a) = Some tab) as Htab1 by (rewrite Et1; [done|idx]).
  destruct (set_entry kend k1 d _ (PDX a) (PTX a) tab 0 _ Hd1 (PDX_bound a) (PTX_bound a) Htab1 eq_refl) as (Hd2 & Et2 & Ee2).
  destruct (set_entry_others kend k1 d _ (PDX a) (PTX a) tab 0 _ Hd1 (PDX_bound a) (PTX_bound a) Htab1 eq_refl) as [Hk2 _].
  match type of Hk2 with keeps_pages _ _ _ _ ?s _ => set (k2 := s) in * end.
  exists k2. split; [by rewrite (bind_Ret _ _ _ _ _ _ _ Hf)|]. constructor; [by apply idle_mem, idle_kmem|done| | | |].
  - intros j Hj. unfold k2. rsimpl. by rewrite Et2, Et1, Ht.
  - intros x Hx. rewrite <-Hr, <-Etr1 by (unfold PGSIZE in *; lia). unfold k2, translate. rsimpl. rewrite Ee2 by idx.
    destruct ((PDX x =? PDX a) && (PTX x =? PTX a)) eqn:E; [|done]. exfalso.
    pose proof (proj1 (PDX_PTX_page x a ltac:(unfold PGSIZE, KERNBASE in *; lia) ltac:(unfold KERNBASE in *; lia)) ltac:(lia)).
    unfold PGSIZE in *. Z.div_mod_to_equations. lia.
  - intros w. rewrite elem_of_cons, Hl. split.
    + intros [->|[Hw|(x & u & Hx & Hu & E)]]; [right; exists a, v|by left|right; exists x, u];
        split_and!; try done; unfold PGSIZE; lia.
    + intros [Hw|(x & u & Hx & Hu & E)]; [by right; left|]. destruct (decide (x < a)).
      * right; right. exists x, u. split_and!; try done; lia.
      * left. rewrite Hpg in Hu by lia. by injection Hu as <-.
  - intros w Hw Hwl. destruct (Hk w Hw) as [Hwk E0]; [set_solver|]. destruct (Hk1 w) as [Hw1 E1]; [set_solver|done|].
    destruct (Hk2 w Hw1) as [Hw2 E2]. split; [done|]. intros x Hx. by rewrite E2, E1, E0.
Qed.

Lemma deallocuvm_loop_run fuel : forall a k l e, pgdir_ok kend k0 d l0 -> freed a k l -> a mod PGSIZE = 0 -> 0 <= a <= KERNBASE ->
  KERNBASE <= a + Z.of_nat fuel * PGSIZE ->
  exists k' l', deallocuvm_loop kend fuel d a KERNBASE k e = Ret tt k' e /\ freed KERNBASE k' l'.
Proof.
  induction fuel as [|fuel IH]; intros a k l e Hok Hfr Ham Ha Hf; cbn [deallocuvm_loop].
  all: destruct (a <? KERNBASE) eqn:Ea; [|assert (a = KERNBASE) as -> by lia; by exists k, l].
  { lia. }
  destruct (pgtab (k_mem k) d (PDX a)) as [tab|] eqn:Htab.
  - rewrite (bind_Ret _ _ _ _ _ _ _ (walk_found k e d a false tab Htab)).
    pose proof (fr_tabs _ _ _ Hfr (PDX a) (PDX_bound a)) as Ht0. rewrite Htab in Ht0. symmetry in Ht0.
    destruct (pd_tabs _ _ _ _ Hok _ _ (PDX_bound a) Ht0) as ((_ & _ & _ & Htp) & _). pose proof (PTX_bound a).
    replace (tab + 4 * PTX a =? 0) with false by lia. unfold mem32. mrun.
    pose proof (fr_rest _ _ _ Hfr a ltac:(lia)) as Htr. unfold translate in Htr at 1. unfold entry in Htr. rewrite Htab in Htr. cbn in Htr.
    set (v := load32 (tab + 4 * PTX a) (k_mem k)) in *. unfold present in Htr. destruct (negb (Z.land v PTE_P =? 0)).
    + replace (PTE_ADDR v =? 0) with false.
      2: { pose proof (Hframes a v ltac:(lia) (eq_sym Htr)) as ((_ & Hp & _) & _). unfold page_of, P2V in Hp.
           symmetry. apply Z.eqb_neq. intros E. rewrite E in Hp. unfold KERNBASE in *. change (u32 (0 + 2147483648)) with 2147483648 in Hp. lia. }
      destruct (freed_page a k l v tab e Hfr Ham ltac:(lia) (eq_sym Htr) Htab) as (k' & Hr & Hfr').
      rewrite (bind_Ret _ _ _ _ _ _ _ Hr), u32_small by (unfold PGSIZE, KERNBASE in *; lia).
      apply (IH _ k' (page_of v :: l)); try done; unfold PGSIZE, KERNBASE in *; Z.div_mod_to_equations; lia.
    + mrun. rewrite u32_small by (unfold PGSIZE, KERNBASE in *; lia).
      apply (IH _ k l); [done| |unfold PGSIZE, KERNBASE in *; Z.div_mod_to_equations; lia..].
      apply (freed_skip a); [done|unfold PGSIZE; lia|]. intros x Hx. rewrite (translate_page _ _ x a); [done|unfold PGSIZE, KERNBASE in *; lia..|].
      unfold PGSIZE in *. Z.div_mod_to_equations. lia.
  - rewrite (bind_Ret _ _ _ _ _ _ _ (walk_missing k e d a Htab)). rewrite Z.eqb_refl, next_table by lia.
    apply (IH _ k l); [done| |unfold PGSIZE, KERNBASE in *; Z.div_mod_to_equations; lia..].
    apply (freed_skip a); [done|Z.div_mod_to_equations; lia|]. intros x Hx.
    assert (PDX x = PDX a) as Ex by (rewrite !PDX_div by (unfold KERNBASE in *; Z.div_mod_to_equations; lia); Z.div_mod_to_equations; lia).
    unfold translate, entry. rewrite Ex, <-(fr_tabs _ _ _ Hfr) by idx. by rewrite Htab.
Qed.

(** The page of the user's part that is mapped somewhere. *)
Definition user_frame (w : Z) : Prop := exists x v, 0 <= x < KERNBASE /\ translate (k_mem k0) d x = Some v /\ page_of v = w.

(** The first [n] tables have been freed as well. *)
Record unmapped (n : Z) k l : Prop := {
  un_idle : idle kb k;
  un_free : free_pages kend k l;
  un_tabs j : 0 <= j < 1024 -> pgtab (k_mem k) d j = pgtab (k_mem k0) d j;
  un_list w : w ∈ l <-> w ∈ l0 \/ user_frame w \/ exists j, 0 <= j < n /\ pgtab (k_mem k0) d j = Some w;
  un_keep w x : outside kend k0 d l0 w -> w ∉ l -> w <= x < w + PGSIZE -> k_mem k x = k_mem k0 x
}.

Lemma unmapped_step n k l e : pgdir_ok kend k0 d l0 -> 0 <= n < 1024 -> unmapped n k l ->
  exists k' l', (v ← mem32 (d + 4 * n); if negb (Z.land v PTE_P =? 0) then kfree kend (P2V (PTE_ADDR v)) else mret tt) k e = Ret tt k' e /\
    unmapped (n + 1) k' l'.
Proof.
  intros [_ [Hpd Hpl] Ht0 Hi0] Hn [Hc Hf Ht Hl Hk]. unfold mem32. mrun. pose proof (Ht n Hn) as Hpt. unfold pgtab at 1 in Hpt.
  unfold present in Hpt. destruct (negb _) eqn:E.
  - symmetry in Hpt. set (tab := P2V _) in *. destruct (Ht0 n tab Hn Hpt) as (Htp & Htl & Htd).
    assert (tab ∉ l) as Htabl.
    { rewrite Hl. intros [?|[(x & v & Hx & Hv & Ew)|(j & Hj & Hjt)]]; [done| |].
      - destruct (Hframes x v Hx Hv) as (_ & _ & _ & Ho). apply (Ho n Hn). by rewrite Ew.
      - pose proof (Hi0 j n tab ltac:(lia) Hn Hjt Hpt). lia. }
    destruct (kfree_run kb kend k e tab l Hc Hf Htp Htabl) as (m1 & Hr & Hf1 & Em). eexists _, _. split; [exact Hr|].
    constructor; [by apply idle_kmem|exact Hf1| | |]; rsimpl.
    + intros j Hj. rewrite <-Ht by done. apply pgtab_ext; [|done]. intros x Hx. apply Em. apply (page_apart kend d); congruence.
    + intros w. rewrite elem_of_cons, Hl. split.
      * intros [->|[?|[?|(j & Hj & ?)]]]; [right; right; exists n; split; [lia|done]|tauto|tauto|right; right; exists j; split; [lia|done]].
      * intros [?|[?|(j & Hj & Hjt)]]; [tauto|tauto|]. destruct (decide (j = n)) as [->|]; [left; congruence|].
        right; right; right. exists j. split; [lia|done].
    + intros w x Hw Hwl Hx. rewrite Em; [apply (Hk w); [done|set_solver|done]|].
      apply (page_apart kend w); [apply Hw|done|set_solver|done].
  - symmetry in Hpt. exists k, l. split; [done|]. constructor; [done..| |done]. intros w. rewrite Hl.
    split; (intros [?|[?|(j & Hj & Hjt)]]; [tauto|tauto|]); right; right; exists j; split; try done; try lia.
    destruct (decide (j = n)) as [->|]; [congruence|lia].
Qed.

Lemma deallocuvm_eq oldsz newsz : newsz < oldsz -> PGROUNDUP newsz = newsz ->
  exists fuel, oldsz <= newsz + Z.of_nat fuel * PGSIZE /\
    deallocuvm kend d oldsz newsz = (deallocuvm_loop kend fuel d newsz oldsz ;; mret newsz).
Proof.
  intros Hlt Hr. exists (Z.to_nat ((oldsz - newsz) / PGSIZE + 1)). unfold deallocuvm.
  rewrite Hr. rewrite Z.geb_leb, (proj2 (Z.leb_gt oldsz newsz)) by lia. split; [|done].
  unfold PGSIZE. Z.div_mod_to_equations. lia.
Qed.

(** Every page of the address space is free afterwards. *)
Lemma freevm_run e : idle kb k0 -> pgdir_ok kend k0 d l0 ->
  exists k' l', freevm kend d k0 e = Ret tt k' e /\ idle kb k' /\ free_pages kend k' l' /\
    (forall w, w ∈ l' <-> w ∈ l0 \/ w = d \/ user_frame w \/ exists j, 0 <= j < 1024 /\ pgtab (k_mem k0) d j = Some w) /\
    forall w x, outside kend k0 d l0 w -> w ∉ l' -> w <= x < w + PGSIZE -> k_mem k' x = k_mem k0 x.
Proof.
  intros Hc Hok. pose proof Hok as [Hf [(Hd1 & Hd2 & Hd3 & Hd4) Hpl] Ht0 _].
  unfold freevm. replace (d =? 0) with false by lia. 
  destruct (deallocuvm_eq KERNBASE 0) as (fuel & Hfuel & Hde); [done..|]. rewrite Hde, bind_assoc.
  destruct (deallocuvm_loop_run fuel 0 k0 l0 e Hok) as (k1 & l1 & Hr & [Hc1 Hok1 Ht1 _ Hl1 Hk1]).
  { constructor; [done..| |by split].
    intros w. split; [by left|]. intros [?|(x & v & Hx & _)]; [done|lia]. }
  1-2: done.
  { lia. }
  rewrite (bind_Ret _ _ _ _ _ _ _ Hr). mrun.
  for_inv (fun n k => exists l, unmapped (Z.of_nat n) k l) as (k2 & Hr2 & l2 & [Hc2 Hf2 Ht2 Hl2 Hk2]).
  { exists l1. constructor; [done|apply Hok1|done| |by intros w x Hw Hwl; apply Hk1].
    intros w. rewrite Hl1. unfold user_frame. split; [tauto|]. intros [?|[?|(j & Hj & _)]]; [tauto|tauto|lia]. }
  { intros n k Hn [l Hun]. destruct (unmapped_step (Z.of_nat n) k l e Hok) as (k' & l' & Hr' & Hun'); [unfold NPDENTRIES in Hn; lia|done|].
    exists k'. split; [done|]. exists l'. by rewrite Nat2Z.inj_succ. }
  rewrite (bind_Ret _ _ _ _ _ _ _ Hr2). clear Hr Hr2 Hde. change (Z.of_nat (0 + NPDENTRIES)) with 1024 in *.
  assert (d ∉ l2) as Hd.
  { rewrite Hl2. intros [?|[(x & v & Hx & Hv & Ew)|(j & Hj & Hjt)]]; [done| |].
    - by destruct (Hframes x v Hx Hv) as (_ & _ & ? & _).
    - by destruct (Ht0 j d Hj Hjt) as (_ & _ & ?). }
  destruct (kfree_run kb kend k2 e d l2 Hc2 Hf2 ltac:(by unfold page) Hd) as (m3 & Hr3 & Hf3 & Em).
  eexists _, _. split_and!; [exact Hr3|by apply idle_kmem|exact Hf3| |].
  - intros w. rewrite elem_of_cons, Hl2. tauto.
  - intros w x Hw Hwl Hx. rsimpl. rewrite Em; [apply (Hk2 w); [done|set_solver|done]|].
    apply (page_apart kend w); [apply Hw|by unfold page|set_solver|done].
Qed.

(** A page belongs to the address space or it does not. *)
Lemma outside_or w : page kend w ->
  outside kend k0 d l0 w \/ w ∈ l0 \/ w = d \/ exists j, 0 <= j < 1024 /\ pgtab (k_mem k0) d j = Some w.
Proof.
  intros Hw. destruct (decide (w ∈ l0)); [tauto|]. destruct (decide (w = d)); [tauto|].
  destruct (decide (Some w ∈ map (pgtab (k_mem k0) d) (seqZ 0 1024))) as [Hin|Hout].
  - right; right; right. apply list_elem_of_fmap in Hin as (j & Hj & Hin). exists j. apply elem_of_seqZ in Hin. by split; [lia|].
  - left. split_and!; [done|done|done|]. intros j Hj E. apply Hout. apply list_elem_of_fmap. exists j. split; [done|]. apply elem_of_seqZ. lia.
Qed.

(** The pages [L] that the address space was made of are free again. *)
Lemma freevm_all L e : idle kb k0 -> pgdir_ok kend k0 d l0 -> NoDup L -> Forall (page kend) L ->
  (forall w, page kend w -> w ∉ L -> outside kend k0 d l0 w /\ ~ user_frame w) ->
  (forall w, w ∈ L -> outside kend k0 d l0 w -> user_frame w) ->
  exists k' l', freevm kend d k0 e = Ret tt k' e /\ idle kb k' /\ free_pages kend k' l' /\ l' ≡ₚ L /\
    forall w x, page kend w -> w ∉ L -> w <= x < w + PGSIZE -> k_mem k' x = k_mem k0 x.
Proof.
  intros Hc Hok Hnd HpL Hno Hyes. destruct (freevm_run e Hc Hok) as (k' & l' & Hr & Hc' & Hf' & Hl & Hk).
  assert (l' ≡ₚ L) as HL.
  { apply NoDup_Permutation; [apply Hf'|done|]. intros w. rewrite Hl. split.
    - intros Hw. apply dec_stable. intros HwL.
      assert (page kend w) as Hp.
      { destruct Hw as [Hw|[->|[(x & v & Hx & Hv & <-)|(j & Hj & Hjt)]]].
        - pose proof (fp_pages _ _ _ (pd_free _ _ _ _ Hok)) as Hp. rewrite Forall_forall in Hp. by apply Hp.
        - apply Hok.
        - by apply (Hframes x v).
        - by apply (pd_tabs _ _ _ _ Hok j). }
      destruct (Hno w Hp HwL) as [(_ & Ho1 & Ho2 & Ho3) Hu]. destruct Hw as [?|[?|[?|(j & Hj & Hjt)]]]; [done|done|done|by apply (Ho3 j)].
    - intros Hw. rewrite Forall_forall in HpL. destruct (outside_or w (HpL w Hw)) as [Ho|[?|[?|?]]]; [|tauto..].
      right; right; left. by apply Hyes. }
  exists k', l'. split_and!; [done|done|done|done|].
  intros w x Hw HwL Hx. apply (Hk w); [by apply Hno|by rewrite HL|done].
Qed.
End Free.

(** ** The kernel's part *)

(** An empty directory. *)
Lemma new_dir k v l : idle kb k -> free_pages kend k (v :: l) ->
  let k' := k <| k_kmem := k_kmem k <| km_freelist := load32 v (k_mem k) |> |> <| k_mem := memset v 0 PGSIZE (k_mem k) |> in
  idle kb k' /\ pgdir_ok kend k' v l /\ (forall j, 0 <= j < 1024 -> pgtab (k_mem k') v j = None) /\
  (forall x, translate (k_mem k') v x = None) /\
  (forall w, outside kend k' v l w <-> page kend w /\ w ∉ v :: l) /\
  forall w x, page kend w -> w <> v -> w <= x < w + PGSIZE -> k_mem k' x = k_mem k x.
Proof.
  intros Hc Hf k'. pose proof (fp_pages _ _ _ Hf) as Hv%Forall_inv. pose proof (fp_nodup _ _ _ Hf) as [Hvl _]%NoDup_cons.
  assert (forall w x, page kend w -> w <> v -> w <= x < w + PGSIZE -> k_mem k' x = k_mem k x) as E.
  { intros w x Hw Hne Hx. unfold k'. rsimpl. rewrite memset_run by (unfold PGSIZE; lia).
    pose proof (page_apart kend w v x Hw Hv Hne Hx). by zcases. }
  assert (forall j, 0 <= j < 1024 -> pgtab (k_mem k') v j = None) as Hnone.
  { intros j Hj. unfold pgtab, k'. rsimpl. by rewrite load32_memset0 by (unfold PGSIZE; lia). }
  split_and!; [by apply pgdir_idle|constructor|exact Hnone| | |exact E].
  - destruct (kalloc_free kend k v l Hf) as [Hch Hp Hn]. constructor; [|done..].
    apply (chain_ext (k_mem k)); [done|]. intros w x Hw Hx. rewrite Forall_forall in Hp.
    apply (E w); [by apply Hp|by intros ->|unfold PGSIZE; lia].
  - done.
  - intros j tab Hj. by rewrite Hnone.
  - intros j j' tab Hj Hj'. by rewrite Hnone.
  - intros x. unfold translate, entry. rewrite Hnone by idx. done.
  - intros w. unfold outside. rewrite not_elem_of_cons. split; [tauto|]. intros (Hw & Hwv & Hwl). split_and!; [done..|].
    intros j Hj. by rewrite Hnone.
Qed.

(** The ranges of [kmap] lie one behind the other, above the user's part. *)
Fixpoint ranges_ok (top : Z) (km : list (Z * Z * Z * Z)) : Prop :=
  match km with
  | [] => True
  | (virt, phys_start, phys_end, perm) :: km =>
      let size := u32 (phys_end - phys_start) in
      top <= virt /\ virt mod PGSIZE = 0 /\ size mod PGSIZE = 0 /\ 0 < size /\ virt + size <= 2 ^ 32 /\
      phys_start mod PGSIZE = 0 /\ 0 <= phys_start /\ phys_start + size <= 2 ^ 32 /\ 0 <= perm < PGSIZE /\
      ranges_ok (virt + size) km
  end.

Lemma kmap_ranges kdata : kdata mod PGSIZE = 0 -> KERNLINK < kdata < KERNBASE + PHYSTOP -> ranges_ok KERNBASE (kmap kdata).
Proof.
  intros Hm Hk. assert (V2P kdata = kdata - KERNBASE) as EV by (unfold V2P; apply u32_small; unfold KERNLINK, KERNBASE, PHYSTOP, EXTMEM in *; lia).
  cbn [ranges_ok kmap]. rewrite EV. change (V2P KERNLINK) with EXTMEM.
  assert (KERNLINK = KERNBASE + EXTMEM) as EL by done. rewrite EL in *.
  rewrite (u32_small (kdata - KERNBASE - EXTMEM)), (u32_small (PHYSTOP - (kdata - KERNBASE)))
    by (unfold KERNBASE, PHYSTOP, EXTMEM in *; lia).
  change (u32 (EXTMEM - 0)) with EXTMEM. change (u32 (0 - DEVSPACE)) with (2 ^ 32 - DEVSPACE).
  unfold KERNBASE, PHYSTOP, EXTMEM, DEVSPACE, PGSIZE, PTE_W in *. split_and!; try done; Z.div_mod_to_equations; lia.
Qed.

(** The directory [d] maps nothing below the kernel and above [top], and is
    made of pages of the state [k1]. *)
Record kernel_part k1 (d : Z) l1 (top : Z) k l : Prop := {
  kp_idle : idle kb k;
  kp_dir : pgdir_ok kend k d l;
  kp_others : keeps_others kend d k1 l1 k l;
  kp_low j : 0 <= j < 512 -> pgtab (k_mem k) d j = None;
  kp_none x : 0 <= x < KERNBASE \/ top <= x < 2 ^ 32 -> translate (k_mem k) d x = None
}.

Lemma kernel_part_map k1 d l1 top k l e virt pa size perm :
  kernel_part k1 d l1 top k l -> KERNBASE <= top <= virt -> virt mod PGSIZE = 0 -> size mod PGSIZE = 0 -> 0 < size ->
  virt + size <= 2 ^ 32 -> pa mod PGSIZE = 0 -> 0 <= pa -> pa + size <= 2 ^ 32 -> 0 <= perm < PGSIZE ->
  exists r k' l', mappages d virt size pa perm k e = Ret r k' e /\ kernel_part k1 d l1 (virt + size) k' l' /\
    (r = 0 \/ r = -1 /\ l' = []).
Proof.
  intros [Hc Hok Ho Hlow Hn] Htop Hvm Hsm Hs Hv32 Hpm Hp0 Hp32 Hperm. assert (0 <= virt) as Hv0 by (unfold KERNBASE in *; lia).
  rewrite mappages_eq by done. set (n := Z.to_nat (size / PGSIZE - 1)).
  assert ((Z.of_nat n + 1) * PGSIZE = size) as En by (unfold n, PGSIZE in *; Z.div_mod_to_equations; lia).
  destruct (mappages_loop_run kb kend perm Hperm n k e d virt pa l) as (r & k' & l' & j & Hr & Hc' & Hok' & Ho' & Hj & Ep & Em);
    try done; try lia.
  { intros x Hx. apply Hn. lia. }
  exists r, k', l'. split_and!; [done| |destruct Hj; tauto]. constructor; [done|done|by eapply keeps_others_trans| |].
  { intros j' Hj'. rewrite Ep; [by apply Hlow|lia|]. intros x Hx. rewrite PDX_div by (unfold KERNBASE in *; lia).
    unfold KERNBASE in *. Z.div_mod_to_equations. lia. }
  intros x Hx. rewrite Em by (unfold KERNBASE in *; lia).
  replace ((virt <=? x) && (x <? virt + j * PGSIZE)) with false; [apply Hn; unfold KERNBASE in *; lia|].
  symmetry. apply andb_false_iff. rewrite Z.leb_gt, Z.ltb_ge. unfold PGSIZE in *. destruct Hj as [[_ ->]|(_ & ? & _)]; lia.
Qed.

(** All pages are free as in [L], and the others are as in [k]. *)
Definition given_back (L : list Z) k k' : Prop :=
  idle kb k' /\ (exists l', free_pages kend k' l' /\ l' ≡ₚ L) /\
  forall w x, page kend w -> w ∉ L -> w <= x < w + PGSIZE -> k_mem k' x = k_mem k x.

(** What a directory is made of when it has been made from the pages [L]. *)
Definition made_of (L : list Z) k (d : Z) l : Prop := forall w, outside kend k d l w <-> page kend w /\ w ∉ L.

Lemma kernel_part_free k1 d l1 top k l e : KERNBASE < kend -> free_pages kend k1 l1 -> made_of (d :: l1) k1 d l1 -> d ∉ l1 ->
  kernel_part k1 d l1 top k l -> exists k', freevm kend d k e = Ret tt k' e /\ given_back (d :: l1) k1 k'.
Proof.
  intros Hkend Hf1 Hm Hd [Hc Hok (Hk1 & Hk2 & _) _ Hn].
  destruct (freevm_all k d l Hkend) with (L := d :: l1) (e := e) as (k' & l' & Hr & Hc' & Hf' & HL & E).
  - intros x v Hx. by rewrite Hn by (by left).
  - intros x y v w Hx Hy. by rewrite Hn by (by left).
  - done.
  - done.
  - apply NoDup_cons. split; [done|apply Hf1].
  - constructor; [apply Hok|apply Hf1].
  - intros w Hw HwL. split; [apply Hk1, Hm; by split|]. intros (x & v & Hx & Hv & _). by rewrite Hn in Hv by (by left).
  - intros w Hw Ho%Hk2%Hm. tauto.
  - exists k'. split; [done|]. split_and!; [done|by exists l'|]. intros w x Hw HwL Hx. rewrite (E w) by done.
    apply (Hk1 w); [apply Hm; by split|done].
Qed.

(** No more than the tables of the kernel's half and the directory have been
    taken. *)
Lemma kernel_part_size k1 d l1 top k l : free_pages kend k1 l1 -> made_of (d :: l1) k1 d l1 -> d ∉ l1 ->
  kernel_part k1 d l1 top k l -> (length (d :: l1) <= length l + 513)%nat.
Proof.
  intros Hf1 Hm Hd [Hc Hok (Hk1 & Hk2 & _) Hlow Hn].
  assert (d :: l1 ⊆+ l ++ d :: map (fun j => default 0 (pgtab (k_mem k) d j)) (seqZ 512 512)) as Hsub.
  { apply NoDup_submseteq; [apply NoDup_cons; split; [done|apply Hf1]|]. intros w Hw.
    assert (page kend w) as Hp.
    { apply elem_of_cons in Hw as [->|Hw]; [apply Hok|]. pose proof (fp_pages _ _ _ Hf1) as HF. rewrite Forall_forall in HF. by apply HF. }
    apply elem_of_app. destruct (outside_or k d l w Hp) as [Ho|[?|[->|(j & Hj & Hjt)]]]; [|by left|right; by left|].
    - apply Hk2, Hm in Ho as [_ Ho]. done.
    - right; right. apply list_elem_of_fmap. exists j. rewrite Hjt. split; [done|]. apply elem_of_seqZ.
      destruct (decide (j < 512)); [|lia]. by rewrite Hlow in Hjt by lia. }
  apply submseteq_length in Hsub. rewrite length_app in Hsub. cbn [length] in *. rewrite length_map, length_seqZ in Hsub. lia.
Qed.

Section Setup.
  Context (kdata : Z) (Hkend : KERNBASE < kend) (Hdm : kdata mod PGSIZE = 0) (Hdata : KERNLINK < kdata < KERNBASE + PHYSTOP).

Lemma kmap_run k1 d l1 km : free_pages kend k1 l1 -> made_of (d :: l1) k1 d l1 -> d ∉ l1 -> forall top k l e,
  kernel_part k1 d l1 top k l -> KERNBASE <= top -> ranges_ok top km ->
  exists r k', for_loop km (fun '(virt, phys_start, phys_end, perm) =>
      r ← mappages d virt (u32 (phys_end - phys_start)) phys_start perm;
      if r <? 0 then freevm kend d ;; mret (Some 0) else mret None) k e = Ret r k' e /\
    match r with
    | None => exists top' l', kernel_part k1 d l1 top' k' l' /\ (length (d :: l1) <= length l' + 513)%nat
    | Some v => v = 0 /\ given_back (d :: l1) k1 k' /\ (length (d :: l1) <= 513)%nat
    end.
Proof.
  intros Hf1 Hm Hd. induction km as [|[[[virt pa] pe] perm] km IH]; intros top k l e Hkp Htop Hr; cbn [for_loop].
  { exists None, k. split; [done|]. exists top, l. split; [done|]. by apply (kernel_part_size k1 d l1 top k). }
  cbn [ranges_ok] in Hr. set (size := u32 (pe - pa)) in *. destruct Hr as (H1 & H2 & H3 & H4 & H5 & H6 & H7 & H8 & H9 & Hr).
  destruct (kernel_part_map k1 d l1 top k l e virt pa size perm Hkp) as (r & k' & l' & Hmp & Hkp' & Hrv); try done.
  rewrite bind_assoc, (bind_Ret _ _ _ _ _ _ _ Hmp). destruct Hrv as [->|[-> ->]]; cbn -[for_loop freevm].
  - apply (IH (virt + size) k' l'); [done|lia|done].
  - destruct (kernel_part_free k1 d l1 _ k' [] e Hkend Hf1 Hm Hd Hkp') as (k2 & Hfv & Hgb).
    rewrite bind_assoc, (bind_Ret _ _ _ _ _ _ _ Hfv). exists (Some 0), k2. split; [done|]. split; [done|]. split; [done|].
    by apply (kernel_part_size k1 d l1 (virt + size) k' []).
Qed.

Lemma setupkvm_run k l e : idle kb k -> free_pages kend k l ->
  exists d k', setupkvm kend kdata k e = Ret d k' e /\
    (d = 0 /\ given_back l k k' /\ (length l <= 513)%nat \/
     d ∈ l /\ exists l', idle kb k' /\ pgdir_ok kend k' d l' /\ made_of l k' d l' /\ (length l <= length l' + 513)%nat /\
       (forall w x, page kend w -> w ∉ l -> w <= x < w + PGSIZE -> k_mem k' x = k_mem k x) /\
       (forall x, x < kend -> k_mem k' x = k_mem k x) /\
       forall x, 0 <= x < KERNBASE -> translate (k_mem k') d x = None).
Proof.
  intros Hc Hf. unfold setupkvm. pose proof (kalloc_run kb kend k e l Hc Hf) as Hka.
  destruct l as [|d l1]; rewrite (bind_Ret _ _ _ _ _ _ _ Hka).
  { exists 0, k. split; [done|]. left. split; [done|]. split; [split_and!; [done|by exists []|done]|simpl; lia]. }
  destruct (new_dir k d l1 Hc Hf) as (Hc1 & Hok1 & Hp1 & Hn1 & Hm1 & E1). cbv zeta in *.
  pose proof (fp_pages _ _ _ Hf) as (_ & _ & _ & Hd)%Forall_inv. replace (d =? 0) with false by lia.
  unfold upd_mem. mrun. rsimpl. set (k1 := k <| k_kmem := _ |> <| k_mem := _ |>) in *.
  change (P2V PHYSTOP >? DEVSPACE) with false. cbv iota.
  destruct (kmap_run k1 d l1 (kmap kdata)) with (top := KERNBASE) (k := k1) (l := l1) (e := e) as (r & k2 & Hr & Hpost);
    [apply Hok1|done|apply Hok1|constructor; [done|done|apply keeps_others_refl|intros j Hj; apply Hp1; lia|done]|done|by apply kmap_ranges|].
  rewrite (bind_Ret _ _ _ _ _ _ _ Hr). destruct r as [v|].
  - destruct Hpost as (-> & (Hc2 & Hl2 & E2) & Hlen). exists 0, k2. split; [done|]. left. split; [done|]. split; [|done]. split_and!; [done|done|].
    intros w x Hw Hwl Hx. rewrite (E2 w), (E1 w) by (done || set_solver). done.
  - destruct Hpost as (top & l' & [Hc2 Hok2 (Hk2 & Hk2' & Elow) _ Hn2] & Hlen). exists d, k2. split; [done|]. right. split; [by left|].
    exists l'. split_and!; [done|done| |done| | |intros x Hx; apply Hn2; by left].
    + intros w. split; [intros Hw%Hk2'; by apply Hm1|intros Hw; by apply Hk2, Hm1].
    + intros w x Hw Hwl Hx. rewrite (proj2 (Hk2 w (proj2 (Hm1 w) (conj Hw Hwl)))), (E1 w) by (done || set_solver). done.
    + intros x Hx. rewrite Elow by done. unfold k1. rsimpl. rewrite memset_run by done.
      pose proof (fp_pages _ _ _ Hf) as (_ & ? & _)%Forall_inv. by replace (d <=? x) with false by lia.
Qed.
End Setup.
End Space.
