(* ===== verification/CopyUvm.v ===== *)
(** The copy of an address space that [fork] makes (vm.c, [copyuvm]): the child
    gets the bytes of its parent, in pages of its own. *)

From S2P Require Import Prelude Types Spinlock Proc Sleeplock Bio Bytes Log Str Cprintf Fs FsIo Kalloc Sched Vm PageTable FreeVm.

(** ** Entries *)

Lemma PTE_FLAGS_range v : 0 <= PTE_FLAGS v < PGSIZE.
Proof. unfold PTE_FLAGS, PGSIZE. change 0xFFF with (Z.ones 12). rewrite Z.land_ones by lia. apply Z.mod_pos_bound. lia. Qed.

(** The low bits of an entry are among its flags. *)
Lemma flags_land v b : Z.land 0xFFF b = b -> Z.land (PTE_FLAGS v) b = Z.land v b.
Proof. intros E. unfold PTE_FLAGS. by rewrite <-Z.land_assoc, E. Qed.

(** The entry that [mappages] makes for a page of the kernel's memory. *)
Lemma copied_entry kend v f : page kend f -> present v = true ->
  let v' := Z.lor (Z.lor (V2P f) (PTE_FLAGS v)) PTE_P in
  page_of v' = f /\ PTE_FLAGS v' = PTE_FLAGS v /\ user v' = user v.
Proof.
  intros (Hf & _ & Hr & _) Hp v'. pose proof (PTE_FLAGS_range v) as Hfl.
  assert (V2P f = f - KERNBASE) as EV by (unfold V2P; apply u32_small; unfold KERNBASE, PHYSTOP in *; lia).
  assert (V2P f mod PGSIZE = 0) as Hm by (rewrite EV; unfold KERNBASE, PGSIZE in *; Z.div_mod_to_equations; lia).
  assert (Z.lor (PTE_FLAGS v) PTE_P = PTE_FLAGS v) as EP.
  { unfold present in Hp. apply negb_true_iff, Z.eqb_neq in Hp. unfold PTE_P in *. rewrite <-(flags_land v 1) in Hp by done.
    apply Z.bits_inj'. intros n Hn. rewrite Z.lor_spec. destruct (Z.eq_dec n 0) as [->|Hn0].
    - change (Z.testbit 1 0) with true. rewrite orb_true_r. change 1 with (Z.ones 1) in Hp. rewrite Z.land_ones in Hp by lia.
      rewrite Z.bit0_odd. rewrite Zmod_odd in Hp. by destruct (Z.odd _).
    - assert (Z.testbit 1 n = false) as ->; [|by rewrite orb_false_r].
      change 1 with (2 ^ 0). apply Z.pow2_bits_false. lia. }
  destruct (PTE_parts (V2P f) (PTE_FLAGS v) Hm Hfl) as (E1 & E2 & E3).
  unfold v'. rewrite <-Z.lor_assoc, EP. unfold page_of, user. rewrite E1. split_and!; [|done|].
  - apply P2V_V2P. unfold KERNBASE, PHYSTOP in *. lia.
  - by rewrite <-(flags_land (Z.lor _ _) PTE_U), E2, flags_land.
Qed.

Lemma kernel_page kend v : page kend v -> V2P v mod PGSIZE = 0 /\ 0 <= V2P v /\ V2P v + PGSIZE <= 2 ^ 32.
Proof.
  intros (Hm & _ & ? & _). unfold V2P. rewrite u32_small by (unfold KERNBASE, PHYSTOP in *; lia).
  unfold KERNBASE, PHYSTOP, PGSIZE in *. Z.div_mod_to_equations. lia.
Qed.

Lemma PGROUNDUP_bounds sz : 0 <= sz <= KERNBASE ->
  PGROUNDUP sz mod PGSIZE = 0 /\ sz <= PGROUNDUP sz < sz + PGSIZE /\ PGROUNDUP sz <= KERNBASE.
Proof.
  intros Hsz. change (PGROUNDUP sz) with (PGROUNDDOWN (u32 (sz + PGSIZE - 1))).
  rewrite PGROUNDDOWN_mod, u32_small by (unfold KERNBASE, PGSIZE in *; lia). unfold KERNBASE, PGSIZE in *. Z.div_mod_to_equations. lia.
Qed.

Section Copy.
  Context (kb : kernel) (kend : Z).
  Implicit Types (k : kernel) (e : env) (m : mem) (l : list Z).

(** ** The loop *)

(** The pages of the parent: its directory, its page tables, and the pages
    that are mapped below [sz]. *)
Record parent_pages k (pgdir sz : Z) (Q : Z -> Prop) : Prop := {
  pp_dir : Q pgdir;
  pp_tab j tab : 0 <= j < 1024 -> pgtab (k_mem k) pgdir j = Some tab -> Q tab;
  pp_page x : 0 <= x < PGROUNDUP sz -> exists v, translate (k_mem k) pgdir x = Some v /\ Q (page_of v)
}.

(** Their contents in [k'] are those in [k]. *)
Definition same_pages (Q : Z -> Prop) k k' : Prop := forall w x, Q w -> w <= x < w + PGSIZE -> k_mem k' x = k_mem k x.

(** The address space [d] has been made a copy up to [a]. *)
Record copied (Q : Z -> Prop) k0 (pgdir d a : Z) k l : Prop := {
  cp_idle : idle kb k;
  cp_dir : pgdir_ok kend k d l;
  cp_parent : same_pages Q k0 k;
  cp_out w : Q w -> outside kend k d l w;
  cp_done x : 0 <= x < a -> exists v v', translate (k_mem k0) pgdir x = Some v /\ translate (k_mem k) d x = Some v' /\
    PTE_FLAGS v' = PTE_FLAGS v /\ user v' = user v /\ outside kend k d l (page_of v') /\ ~ Q (page_of v') /\
    forall o, 0 <= o < PGSIZE -> k_mem k (page_of v' + o) = k_mem k0 (page_of v + o);
  cp_inj x y v w : 0 <= x < a -> 0 <= y < a -> translate (k_mem k) d x = Some v -> translate (k_mem k) d y = Some w ->
    page_of v = page_of w -> x / PGSIZE = y / PGSIZE
}.

Section Loop.
  Context (Q : Z -> Prop) (k0 : kernel) (pgdir d sz : Z).
  Context (Hpp : parent_pages k0 pgdir sz Q) (Hsz : 0 <= sz <= KERNBASE)
    (Hempty : forall x, 0 <= x < PGROUNDUP sz -> translate (k_mem k0) d x = None).

Lemma parent_translate k x : same_pages Q k0 k -> translate (k_mem k) pgdir x = translate (k_mem k0) pgdir x.
Proof.
  intros Hs. unfold translate. apply entry_ext; [|idx|idx|].
  - intros y Hy. apply (Hs pgdir); [apply Hpp|done].
  - intros tab y Htab Hy. apply (Hs tab); [by eapply pp_tab; [..|exact Htab]; [done|idx]|done].
Qed.

(** The entry of the parent that a pass reads. *)
Lemma parent_walk k e a : same_pages Q k0 k -> (forall w, Q w -> page kend w) -> 0 <= a < PGROUNDUP sz ->
  exists pte v, walkpgdir pgdir a false k e = Ret pte k e /\ pte <> 0 /\ load32 pte (k_mem k) = v /\
    translate (k_mem k0) pgdir a = Some v /\ Q (page_of v).
Proof.
  intros Hs Hpg Ha. destruct (pp_page _ _ _ _ Hpp a Ha) as (v & Hv & Hq).
  pose proof Hv as Hv'. rewrite <-(parent_translate k a Hs) in Hv'. unfold translate, entry in Hv'.
  destruct (pgtab (k_mem k) pgdir (PDX a)) as [tab|] eqn:Htab; [|done]. cbn in Hv'.
  destruct (present _); [|done]. injection Hv' as Hv'.
  exists (tab + 4 * PTX a), v. split_and!; [by apply walk_found| |done|done|done].
  assert (pgtab (k_mem k0) pgdir (PDX a) = Some tab) as Htab0.
  { rewrite <-Htab. symmetry. apply pgtab_ext; [|idx]. intros x Hx. apply (Hs pgdir); [apply Hpp|done]. }
  destruct (Hpg tab) as (_ & _ & _ & ?); [by eapply pp_tab; [..|exact Htab0]; [done|idx]|].
  pose proof (PTX_bound a). lia.
Qed.

(** The copy survives what leaves its pages and its entries alone. *)
Lemma copied_keep a k l k' l' : copied Q k0 pgdir d a k l -> idle kb k' -> pgdir_ok kend k' d l' ->
  keeps_pages kend d k l k' l' -> (forall x, 0 <= x < a -> translate (k_mem k') d x = translate (k_mem k) d x) ->
  copied Q k0 pgdir d a k' l'.
Proof.
  intros [_ _ Hpar Hout Hdone Hinj] Hc Hok Hko Etr. constructor; [done|done| | | |].
  - intros w x Hw Hx. destruct (Hko w (Hout w Hw)) as [_ E]. rewrite E by done. by apply (Hpar w).
  - intros w Hw. by apply Hko, Hout.
  - intros x Hx. destruct (Hdone x Hx) as (u & u' & E1 & E2 & E4 & E5 & Ho & Hnq & E6). exists u, u'. rewrite Etr by done.
    destruct (Hko _ Ho) as [Ho3 E7]. split_and!; try done. intros o Ho'. rewrite E7 by lia. by apply E6.
  - intros x y v w Hx Hy. rewrite !Etr by done. by apply Hinj.
Qed.

(** One more page. *)
Lemma copied_snoc a k l v v' : copied Q k0 pgdir d a k l -> a mod PGSIZE = 0 -> 0 <= a < 2 ^ 31 ->
  translate (k_mem k0) pgdir a = Some v -> translate (k_mem k) d a = Some v' ->
  PTE_FLAGS v' = PTE_FLAGS v -> user v' = user v -> outside kend k d l (page_of v') -> ~ Q (page_of v') ->
  (forall o, 0 <= o < PGSIZE -> k_mem k (page_of v' + o) = k_mem k0 (page_of v + o)) ->
  (forall x u, 0 <= x < a -> translate (k_mem k) d x = Some u -> page_of u <> page_of v') ->
  copied Q k0 pgdir d (a + PGSIZE) k l.
Proof.
  intros [Hc Hok Hpar Hout Hdone Hinj] Ham Ha Hv Hv' Ef Eu Ho Hnq Eb Hne.
  assert (forall m q x, a <= x < a + PGSIZE -> translate m q x = translate m q a) as Epg.
  { intros m q x Hx. apply translate_page; unfold PGSIZE in *; [lia..|]. Z.div_mod_to_equations. lia. }
  constructor; [done..| |].
  - intros x Hx. destruct (decide (x < a)); [apply Hdone; lia|]. exists v, v'. rewrite (Epg (k_mem k0)), (Epg (k_mem k)) by lia. by split_and!.
  - intros x y u w Hx Hy Eu' Ew E. destruct (decide (x < a)), (decide (y < a)).
    + eapply Hinj; [lia|lia|exact Eu'|exact Ew|exact E].
    + rewrite Epg, Hv' in Ew by lia. injection Ew as <-. exfalso. apply (Hne x u); [lia|done|done].
    + rewrite Epg, Hv' in Eu' by lia. injection Eu' as <-. exfalso. apply (Hne y w); [lia|done|done].
    + unfold PGSIZE in *. Z.div_mod_to_equations. lia.
Qed.

(** The state of the loop: the pages past [a] are as they were, and the pages
    that are not of the directory are in [Q] or have been mapped. *)
Record copying a k l : Prop := {
  cg_copied : copied Q k0 pgdir d a k l;
  cg_rest x : a <= x < 2 ^ 32 -> translate (k_mem k) d x = translate (k_mem k0) d x;
  cg_made w : outside kend k d l w -> Q w \/ exists x v, 0 <= x < a /\ translate (k_mem k) d x = Some v /\ page_of v = w
}.

(** A page outside the copy that holds the parent's page and is mapped by [k']. *)
Lemma copied_mapped a k l v0 k' l' v : copied Q k0 pgdir d a k l -> keeps_pages kend d k l k' l' ->
  idle kb k' -> pgdir_ok kend k' d l' -> a mod PGSIZE = 0 -> 0 <= a < 2 ^ 31 ->
  translate (k_mem k0) pgdir a = Some v -> outside kend k' d l' v0 -> v0 ∈ l ->
  (forall o, 0 <= o < PGSIZE -> k_mem k' (v0 + o) = k_mem k0 (page_of v + o)) ->
  (forall x, 0 <= x < a -> translate (k_mem k') d x = translate (k_mem k) d x) ->
  translate (k_mem k') d a = Some (Z.lor (Z.lor (V2P v0) (PTE_FLAGS v)) PTE_P) ->
  copied Q k0 pgdir d (a + PGSIZE) k' l'.
Proof.
  intros Hcp Hko Hc Hok Ham Ha Hv Hv0 Hl Eb Eold Enew. destruct (translate_word _ _ _ _ Hv) as [Hpres _].
  destruct (copied_entry kend v v0 (proj1 Hv0) Hpres) as (Epg & Efl & Eus).
  eapply copied_snoc; [by eapply copied_keep|done|done|exact Hv|exact Enew|done|done|rewrite Epg..]; [done| |done|].
  - intros Hq. by destruct (cp_out _ _ _ _ _ _ _ Hcp v0 Hq) as (_ & ? & _).
  - intros x u Hx. rewrite Eold by done. intros Eu E.
    destruct (cp_done _ _ _ _ _ _ _ Hcp x Hx) as (? & u' & _ & Eu' & _ & _ & (_ & Ho & _) & _).
    rewrite Eu in Eu'. injection Eu' as <-. by rewrite E in Ho.
Qed.

(** The new page is mapped. *)
Lemma copying_mapped a k l v0 k' l' v :
  copying a k l -> keeps_pages kend d k l k' l' -> (forall w, outside kend k' d l' w -> w = v0 \/ outside kend k d l w) ->
  idle kb k' -> pgdir_ok kend k' d l' -> a mod PGSIZE = 0 -> 0 <= a < KERNBASE ->
  translate (k_mem k0) pgdir a = Some v -> outside kend k' d l' v0 -> v0 ∈ l ->
  (forall o, 0 <= o < PGSIZE -> k_mem k' (v0 + o) = k_mem k0 (page_of v + o)) ->
  (forall x, 0 <= x < 2 ^ 32 -> ~ (a <= x < a + PGSIZE) -> translate (k_mem k') d x = translate (k_mem k) d x) ->
  translate (k_mem k') d a = Some (Z.lor (Z.lor (V2P v0) (PTE_FLAGS v)) PTE_P) ->
  copying (a + PGSIZE) k' l'.
Proof.
  intros [Hcp Hrest Hmade] Hko Hnew Hc Hok Ham Ha Hv Hv0 Hl Eb Eold Enew. unfold KERNBASE in Ha.
  destruct (translate_word _ _ _ _ Hv) as [Hpres _]. destruct (copied_entry kend v v0 (proj1 Hv0) Hpres) as (Epg & _).
  constructor.
  - apply (copied_mapped a k l v0 k' l' v); try done. intros x Hx. apply Eold; lia.
  - intros x Hx. rewrite Eold by (unfold PGSIZE in *; lia). apply Hrest. unfold PGSIZE in *. lia.
  - intros w [->|Hw]%Hnew.
    + right. eexists a, _. split; [unfold PGSIZE; lia|]. by split; [exact Enew|].
    + destruct (Hmade w Hw) as [?|(x & u & Hx & Hu & Ew)]; [by left|right]. exists x, u. rewrite Eold by lia.
      split; [unfold PGSIZE; lia|done].
Qed.

(** The new page and its entry: mapped, or given back. *)
Lemma copy_page a k l v0 l1 v e : copying a k l -> l = v0 :: l1 ->
  a mod PGSIZE = 0 -> 0 <= a < sz -> translate (k_mem k0) pgdir a = Some v -> Q (page_of v) ->
  let k2 := k <| k_kmem := k_kmem k <| km_freelist := load32 v0 (k_mem k) |> |>
              <| k_mem := memmove v0 (page_of v) PGSIZE (k_mem k) |> in
  exists r k' l', mappages d a PGSIZE (V2P v0) (PTE_FLAGS v) k2 e = Ret r k' e /\
    (r = 0 /\ copying (a + PGSIZE) k' l' \/ r = -1 /\ exists k4, kfree kend v0 k' e = Ret tt k4 e /\ copying a k4 [v0]).
Proof.
  intros Hcg -> Ham Ha Hv Hq k2. destruct (PGROUNDUP_bounds sz Hsz) as (Htm & Htop & Htk). pose proof Hcg as [Hcp Hrest Hmade].
  pose proof (cp_dir _ _ _ _ _ _ _ Hcp) as Hok. pose proof (fp_pages _ _ _ (pd_free _ _ _ _ Hok)) as Hv0%Forall_inv.
  destruct (take_page kb kend k d v0 l1 (memmove v0 (page_of v) PGSIZE (k_mem k)) (cp_idle _ _ _ _ _ _ _ Hcp) Hok) as
    (Hc2 & Hok2 & Hout & Hoth & Hnew & Htr).
  { intros x Hx. rewrite memmove_run by done. by zcases. }
  fold k2 in Hc2, Hok2, Hout, Hoth, Hnew. rewrite mappages_eq by (done || unfold PGSIZE, KERNBASE in *; lia).
  destruct (kernel_page kend v0 Hv0) as (Hpm & Hp0 & Hp32).
  destruct (mappages_loop_run kb kend (PTE_FLAGS v) (PTE_FLAGS_range v) 0 k2 e d a (V2P v0) l1) as
    (r & k3 & l3 & j & Hr & Hc3 & Hok3 & (Hko & Hko' & _) & Hj & _ & Hmr); [done|done|done|lia|unfold KERNBASE, PGSIZE in *; lia|done|done|lia| |].
  { intros x Hx. unfold k2. rsimpl. rewrite Htr, Hrest by (unfold KERNBASE, PGSIZE in *; lia). apply Hempty.
    unfold PGSIZE in *. Z.div_mod_to_equations. lia. }
  exists r, k3, l3. split; [done|].
  assert (keeps_pages kend d k (v0 :: l1) k3 l3) as Hkeep.
  { apply (keeps_pages_trans _ _ _ _ k2 l1); [|done]. intros w Hw. by destruct (Hoth w Hw) as (_ & ? & ?). }
  assert (forall x, 0 <= x < 2 ^ 32 -> ~ (a <= x < a + j * PGSIZE) -> translate (k_mem k3) d x = translate (k_mem k) d x) as Eold.
  { intros x Hx Hna. rewrite (Hmr x Hx). unfold k2. rsimpl. rewrite Htr. by replace ((a <=? x) && _) with false by lia. }
  destruct (Hko v0 Hout) as [Hout3 E3].
  destruct Hj as [[-> ->]|(-> & Hj & ->)]; [left|right]; (split; [done|]).
  - apply (copying_mapped a k (v0 :: l1) v0 k3 l3 v); try done; [intros w Hw; by apply Hnew, Hko'|lia|by left| |].
    + intros o Ho. rewrite E3 by lia. unfold k2. rsimpl. rewrite memmove_run by done.
      replace ((v0 <=? v0 + o) && (v0 + o <? v0 + PGSIZE)) with true by lia.
      rewrite <-(cp_parent _ _ _ _ _ _ _ Hcp (page_of v)) by (done || lia). f_equal. lia.
    + rewrite (Hmr a) by (unfold KERNBASE in *; lia).
      rewrite Z.leb_refl, (proj2 (Z.ltb_lt a _)) by (unfold PGSIZE; lia). cbn [andb].
      rewrite PGROUNDDOWN_mod. replace (a - a) with 0 by lia. change (0 mod PGSIZE) with 0. by rewrite !Z.add_0_r.
  - assert (j = 0) as -> by lia.
    destruct (kfree_run kb kend k3 e v0 []) as (m' & Hf & Hf' & Em); [done|apply Hok3|done|set_solver|].
    match type of Hf with _ = Ret _ ?s _ => set (k4 := s) in * end.
    destruct (give_back kend k3 d v0 [] k4 m' Hok3 Hout3 Hf' eq_refl Em) as (Hok4 & Etr & _ & Hko4 & Hko4').
    assert (forall x, 0 <= x < 2 ^ 32 -> translate (k_mem k4) d x = translate (k_mem k) d x) as E4.
    { intros x Hx. rewrite Etr. apply Eold; lia. }
    exists k4. split; [done|]. unfold KERNBASE in *. constructor.
    + apply (copied_keep a k (v0 :: l1)); [done|by apply idle_kmem|done| |intros x Hx; apply E4; lia].
      intros w Hw. destruct (Hkeep w Hw) as [Hw3 E3'], (Hoth w Hw) as (Hne & _), (Hko4 w Hne Hw3) as [Hw4 E5].
      split; [done|]. intros x Hx. by rewrite E5, E3'.
    + intros x Hx. rewrite E4 by lia. by apply Hrest.
    + intros w [Hne Hw]%Hko4'. destruct (Hnew w (Hko' w Hw)) as [?|Hwk]; [done|].
      destruct (Hmade w Hwk) as [?|(x & u & Hx & Hu & Ew)]; [by left|right]. exists x, u. by rewrite E4 by lia.
Qed.

Lemma copyuvm_loop_run fuel : forall a k l e,
  copying a k l -> a mod PGSIZE = 0 -> 0 <= a <= PGROUNDUP sz ->
  sz <= a + Z.of_nat fuel * PGSIZE -> (forall w, Q w -> page kend w) ->
  exists ok k' l' a', copyuvm_loop kend fuel pgdir d a sz k e = Ret ok k' e /\ copying a' k' l' /\
    0 <= a' <= PGROUNDUP sz /\ (if ok : bool then a' = PGROUNDUP sz else True).
Proof.
  destruct (PGROUNDUP_bounds sz Hsz) as (Htm & Htop & Htk).
  induction fuel as [|fuel IH]; intros a k l e Hcg Ham Ha Hf Hpg; cbn [copyuvm_loop].
  all: destruct (a <? sz) eqn:Ea; [|exists true, k, l, a; split_and!; try done; try lia; unfold PGSIZE in *; Z.div_mod_to_equations; lia].
  { lia. }
  pose proof (cg_copied _ _ _ Hcg) as Hcp.
  destruct (parent_walk k e a (cp_parent _ _ _ _ _ _ _ Hcp) Hpg) as (pte & v & Hw & Hne & Hld & Hv & Hq); [lia|].
  destruct (translate_word _ _ _ _ Hv) as [Hpres _]. unfold present, PTE_P in Hpres.
  mcall Hw. replace (pte =? 0) with false by lia. unfold mem32, upd_mem. mrun. rewrite Hld.
  replace (Z.land v PTE_P =? 0) with false by (unfold PTE_P in *; lia).
  pose proof (kalloc_run kb kend k e l (cp_idle _ _ _ _ _ _ _ Hcp) (pd_free _ _ _ _ (cp_dir _ _ _ _ _ _ _ Hcp))) as Hka.
  destruct l as [|v0 l1]; rewrite (bind_Ret _ _ _ _ _ _ _ Hka).
  { exists false, k, [], a. split_and!; try done; lia. }
  pose proof (fp_pages _ _ _ (pd_free _ _ _ _ (cp_dir _ _ _ _ _ _ _ Hcp))) as (_ & _ & _ & Hv0)%Forall_inv.
  replace (v0 =? 0) with false by lia. mrun. rsimpl.
  destruct (copy_page a k (v0 :: l1) v0 l1 v e Hcg eq_refl Ham ltac:(lia) Hv Hq) as
    (r & k' & l' & Hm & [(-> & Hcg')|(-> & k4 & Hkf & Hcg')]); rewrite (bind_Ret _ _ _ _ _ _ _ Hm); cbn -[copyuvm_loop kfree].
  - rewrite u32_small by (unfold PGSIZE, KERNBASE in *; lia).
    apply (IH (a + PGSIZE) k' l'); [done|..|done]; unfold PGSIZE in *; Z.div_mod_to_equations; lia.
  - rewrite (bind_Ret _ _ _ _ _ _ _ Hkf). exists false, k4, [v0], a. split_and!; try done; lia.
Qed.

End Loop.

(** ** [copyuvm] *)

Lemma parent_pages_same (Q : Z -> Prop) k k' pgdir sz :
  parent_pages k pgdir sz Q -> same_pages Q k k' -> parent_pages k' pgdir sz Q.
Proof.
  intros Hpp Hs. constructor; [apply Hpp| |].
  - intros j tab Hj. rewrite (pgtab_ext (k_mem k) (k_mem k')); [by apply Hpp| |done].
    intros x Hx. by apply (Hs pgdir); [apply Hpp|].
  - intros x Hx. rewrite (parent_translate Q k pgdir sz Hpp k' x Hs). by apply Hpp.
Qed.

(** The pages that are in use when the pages [l] are free. *)
Definition in_use l (w : Z) : Prop := page kend w /\ w ∉ l.

Lemma copying_start k pgdir d l l1 : idle kb k -> pgdir_ok kend k d l1 -> made_of kend l k d l1 ->
  copying (in_use l) k pgdir d 0 k l1.
Proof.
  intros Hc Hok Hm. constructor; [constructor| |]; try done; [intros w Hw; by apply Hm|intros x Hx; lia|intros; lia|].
  intros w Hw. left. by apply Hm.
Qed.

Section Failed.
  Context (k1 k2 : kernel) (l l2 : list Z) (pgdir d a : Z).
  Context (Hkend : KERNBASE < kend) (Ha : 0 <= a <= KERNBASE) (Hnd : NoDup l) (Hpl : Forall (page kend) l)
    (Hnone : forall x, 0 <= x < KERNBASE -> translate (k_mem k1) d x = None)
    (Hcg : copying (in_use l) k1 pgdir d a k2 l2).

Lemma copying_frame x v : 0 <= x < KERNBASE -> translate (k_mem k2) d x = Some v ->
  x < a /\ outside kend k2 d l2 (page_of v) /\ ~ in_use l (page_of v).
Proof.
  intros Hx Hv. destruct Hcg as [Hcp Hrest _]. destruct (decide (x < a)) as [Hxa|Hxa].
  - destruct (cp_done _ _ _ _ _ _ _ Hcp x ltac:(lia)) as (u & v' & _ & Hv' & _ & _ & Ho & Hq & _). by simplify_eq.
  - by rewrite Hrest, Hnone in Hv by (unfold KERNBASE in *; lia).
Qed.

(** A copy that has been given up gives its pages back. *)
Lemma copying_free e : exists k', freevm kend d k2 e = Ret tt k' e /\ given_back kb kend l k1 k'.
Proof.
  pose proof Hcg as [Hcp Hrest Hmade].
  destruct (freevm_all kb kend k2 d l2 Hkend) with (L := l) (e := e) as (k' & l' & Hr & Hc' & Hf' & HL & E).
  - intros x v Hx Hv. by apply (copying_frame x v).
  - intros x y v w Hx Hy Hv Hw. apply (cp_inj _ _ _ _ _ _ _ Hcp x y v w); [..|done|done];
      (split; [lia|]); eapply copying_frame; done.
  - apply Hcp.
  - apply Hcp.
  - done.
  - done.
  - intros w Hw HwL. assert (in_use l w) as Hu by done. split; [by apply (cp_out _ _ _ _ _ _ _ Hcp)|].
    intros (x & v & Hx & Hv & <-). by apply (copying_frame x v).
  - intros w HwL Ho. destruct (Hmade w Ho) as [[_ ?]|(x & v & Hx & Hv & Ew)]; [done|]. exists x, v. by split; [lia|].
  - exists k'. split; [done|]. split_and!; [done|by exists l'|]. intros w x Hw HwL Hx. rewrite (E w) by done.
    by apply (cp_parent _ _ _ _ _ _ _ Hcp w).
Qed.
End Failed.

Section Fork.
  Context (kdata : Z) (Hkend : KERNBASE < kend) (Hdm : kdata mod PGSIZE = 0) (Hdata : KERNLINK < kdata < KERNBASE + PHYSTOP).

(** The address space [d] is a copy of [pgdir]'s first [sz] bytes, in pages of
    the list [l] that no two of its pages share. *)
Record copy_of k l pgdir sz k' d : Prop := {
  co_bytes x : 0 <= x < PGROUNDUP sz -> ubyte (k_mem k') d x = ubyte (k_mem k) pgdir x;
  co_entry x : 0 <= x < PGROUNDUP sz -> exists v v', translate (k_mem k) pgdir x = Some v /\
    translate (k_mem k') d x = Some v' /\ PTE_FLAGS v' = PTE_FLAGS v /\ page_of v' ∈ l;
  co_apart x y v w : 0 <= x < PGROUNDUP sz -> 0 <= y < PGROUNDUP sz -> translate (k_mem k') d x = Some v ->
    translate (k_mem k') d y = Some w -> page_of v = page_of w -> x / PGSIZE = y / PGSIZE;
  co_end x : PGROUNDUP sz <= x < KERNBASE -> translate (k_mem k') d x = None
}.

Lemma copied_copy k k1 l pgdir sz d k2 l2 : same_pages (in_use l) k k1 -> parent_pages k pgdir sz (in_use l) -> 0 <= sz <= KERNBASE ->
  (forall x, 0 <= x < KERNBASE -> translate (k_mem k1) d x = None) ->
  copying (in_use l) k1 pgdir d (PGROUNDUP sz) k2 l2 -> copy_of k l pgdir sz k2 d.
Proof.
  intros Hs Hpp Hsz Hnone [[Hc Hok Hpar Hout Hdone Hinj] Hrest _]. destruct (PGROUNDUP_bounds sz Hsz) as (_ & Htop & Htk).
  assert (forall x, 0 <= x < PGROUNDUP sz -> exists v v', translate (k_mem k) pgdir x = Some v /\
    translate (k_mem k2) d x = Some v' /\ PTE_FLAGS v' = PTE_FLAGS v /\ page_of v' ∈ l /\ user v' = user v /\
    forall o, 0 <= o < PGSIZE -> k_mem k2 (page_of v' + o) = k_mem k (page_of v + o)) as H.
  { intros x Hx. destruct (Hdone x Hx) as (v & v' & Hv & Hv' & Ef & Eu & (Hp & _) & Hnu & Eb).
    rewrite (parent_translate (in_use l) k pgdir sz Hpp k1 x Hs) in Hv. exists v, v'. split_and!; try done.
    - apply dec_stable. intros Hn. by apply Hnu.
    - intros o Ho. rewrite Eb by done. destruct (pp_page _ _ _ _ Hpp x Hx) as (u & Hu & Hq). simplify_eq.
      apply (Hs (page_of v)); [done|lia]. }
  constructor.
  - intros x Hx. destruct (H x Hx) as (v & v' & Hv & Hv' & _ & _ & Eu & Eb). unfold ubyte, frame. rewrite Hv, Hv'. cbn. rewrite Eu.
    destruct (user v); [|done]. cbn. f_equal. apply Eb. apply Z.mod_pos_bound. done.
  - intros x Hx. destruct (H x Hx) as (v & v' & ? & ? & ? & ? & _). by exists v, v'.
  - done.
  - intros x Hx. rewrite Hrest, Hnone; [done|unfold KERNBASE in *; lia..].
Qed.

(** C6: [copyuvm] gives a child its parent's memory and nothing else of it.
    It always returns.  Either it returns a directory that maps the pages of
    [[0, sz)], with the parent's permissions and the parent's bytes, to pages
    that were free, no page to two addresses, and nothing else below the
    kernel; or it returns 0 and every page it had taken is free again.  In
    both cases no page that was in use has changed. *)
Theorem copyuvm_isolates k e pgdir sz l :
  idle kb k -> free_pages kend k l -> 0 <= sz <= KERNBASE -> parent_pages k pgdir sz (in_use l) ->
  exists d k', copyuvm kend kdata pgdir sz k e = Ret d k' e /\ idle kb k' /\ same_pages (in_use l) k k' /\
    (d = 0 /\ (exists l', free_pages kend k' l' /\ l' ≡ₚ l) \/
     d ∈ l /\ (exists l', pgdir_ok kend k' d l') /\ copy_of k l pgdir sz k' d).
Proof.
  intros Hc Hf Hsz Hpp. unfold copyuvm.
  destruct (setupkvm_run kb kend kdata Hkend Hdm Hdata k l e Hc Hf) as (d & k1 & Hr & Hs).
  rewrite (bind_Ret _ _ _ _ _ _ _ Hr). destruct Hs as [(-> & (Hc1 & Hl & E) & _)|(Hd & l1 & Hc1 & Hok1 & Hm1 & _ & E1 & _ & Hn1)].
  { exists 0, k1. split_and!; [done|done| |by left]. intros w x [Hw Hwl]. by apply E. }
  pose proof (fp_pages _ _ _ Hf) as Hp. rewrite Forall_forall in Hp. destruct (Hp d Hd) as (_ & _ & _ & Hd0).
  replace (d =? 0) with false by lia.
  assert (same_pages (in_use l) k k1) as Hs1 by (intros w x [Hw Hwl]; by apply E1).
  destruct (PGROUNDUP_bounds sz Hsz) as (_ & Htop & Htk).
  destruct (copyuvm_loop_run (in_use l) k1 pgdir d sz (parent_pages_same _ _ _ _ _ Hpp Hs1) Hsz) with
    (fuel := Z.to_nat (sz / PGSIZE + 1)) (a := 0) (k := k1) (l := l1) (e := e) as (ok & k2 & l2 & a & Hr2 & Hcg & Ha & Hok).
  { intros x Hx. apply Hn1. lia. }
  { by apply copying_start. }
  { done. }
  { lia. }
  { unfold PGSIZE in *. Z.div_mod_to_equations. lia. }
  { by intros w []. }
  rewrite (bind_Ret _ _ _ _ _ _ _ Hr2). destruct ok.
  - subst a. exists d, k2. split_and!; [done|apply Hcg| |].
    + intros w x Hw Hx. rewrite (cp_parent _ _ _ _ _ _ _ (cg_copied _ _ _ _ _ _ _ Hcg) w x Hw Hx). by apply (Hs1 w).
    + right. split_and!; [done|exists l2; apply Hcg|by apply (copied_copy k k1 l pgdir sz d k2 l2)].
  - destruct (copying_free k1 k2 l l2 pgdir d a Hkend) with (e := e) as (k3 & Hr3 & Hc3 & Hl3 & E3);
      [lia|apply Hf|apply Hf|done|done|].
    rewrite (bind_Ret _ _ _ _ _ _ _ Hr3). exists 0, k3. split_and!; [done|done| |by left].
    intros w x Hw Hx. destruct Hw as [Hw Hwl]. rewrite (E3 w), (E1 w) by done. done.
Qed.
End Fork.
End Copy.

(** ** Instance: a parent with one page *)

Definition parent_pte : Z := V2P (page_at 4) + 7.
Definition parent_space : kernel :=
  demo_free <| k_mem := store32 (page_at 0) (V2P (page_at 2) + 7) (store32 (page_at 2) parent_pte (k_mem demo_free)) |>.

Lemma parent_dir d : 0 <= d < 1024 ->
  pgtab (k_mem parent_space) (page_at 0) d = if d =? 0 then Some (page_at 2) else None.
Proof. revert d. refine (index_forall _ _). vm_compute. done. Qed.

Lemma parent_demo : parent_pages parent_space (page_at 0) 1000 (in_use demo_kend [page_at 1; page_at 3]).
Proof.
  constructor.
  - split; [apply demo_page; lia|]. apply (bool_decide_unpack _). vm_compute. exact I.
  - intros j tab Hj. rewrite parent_dir by done. zcases; intros [= <-].
    split; [apply demo_page; lia|]. apply (bool_decide_unpack _). vm_compute. exact I.
  - intros x Hx. change (PGROUNDUP 1000) with 4096 in Hx. exists parent_pte. split.
    + rewrite (translate_page _ _ x 0); [vm_compute; done|lia|lia|]. unfold PGSIZE. Z.div_mod_to_equations. lia.
    + split; [apply (demo_page 4); lia|]. apply (bool_decide_unpack _). vm_compute. exact I.
Qed.

Lemma copyuvm_isolates_witness : exists d k',
  copyuvm demo_kend (KERNBASE + 0x108000) (page_at 0) 1000 parent_space [] = Ret d k' [] /\
  same_pages (in_use demo_kend [page_at 1; page_at 3]) parent_space k' /\
  (d = 0 /\ (exists l', free_pages demo_kend k' l' /\ l' ≡ₚ [page_at 1; page_at 3]) \/
   copy_of parent_space [page_at 1; page_at 3] (page_at 0) 1000 k' d).
Proof.
  assert (idle solo_kernel parent_space) as Hc by (apply idle_mem; unfold demo_free; apply idle_kmem, solo_idle).
  assert (free_pages demo_kend parent_space [page_at 1; page_at 3]) as Hf.
  { constructor; [vm_compute; done|repeat constructor; apply demo_page; lia|].
    apply (bool_decide_unpack _). vm_compute. exact I. }
  destruct (copyuvm_isolates solo_kernel demo_kend (KERNBASE + 0x108000) ltac:(done) ltac:(done) ltac:(done)
    parent_space [] (page_at 0) 1000 _ Hc Hf ltac:(done) parent_demo) as (d & k' & Hr & _ & Hs & Hd).
  exists d, k'. split_and!; [exact Hr|exact Hs|]. destruct Hd as [Hd|(_ & _ & Hd)]; [by left|by right].
Defined.
