(* ===== verification/Process.v ===== *)
(** The life of a process (proc.c): [allocproc], [userinit], [growproc],
    [fork], [exit], [wait], [forkret]. *)

From S2P Require Import Prelude Types Spinlock Float32 Proc Sleeplock Bio Bytes Log Str Cprintf Fs FsIo Kalloc File Sched Vm.
From Stdlib Require Import SpecFloat.

(** What the linker decides: the addresses of [end], [data] and [forkret],
    and the bytes of initcode.S. *)
Class Image : Type := {
  im_end : Z;
  im_data : Z;
  im_forkret : Z;
  im_initcode : list Z
}.

Definition SEG_UCODE : Z := 3.
Definition SEG_UDATA : Z := 4.
Definition DPL_USER : Z := 3.
Definition FL_IF : Z := 0x200.

(** [safestrcpy(p->name, t, sizeof(p->name))], by [safestrcpy] of string.c
    with the two objects placed apart. *)
Definition copy_name (t name : list Z) : list Z :=
  map (safestrcpy 0 4096 16 (store_bytes 0 name (store_bytes 4096 t (fun _ => 0)))) (seqZ 0 16).

Section Process.
  Context `{Image} `{Devsw}.

(** The fields that [allocproc] sets after it has the stack, but for
    [tickets].  The trap frame and the context are on the new stack; the trap
    frame is not read before the caller has filled it. *)
Definition init_proc (t : Z) (p : proc) : proc :=
  p <| p_context := zero_ctx <| ctx_eip := im_forkret |> |>
    <| p_entered_queue := s32 t |> <| p_queue := 1 |> <| p_executed_cycle := S754_zero false |>
    <| p_priority_ratio := 1 |> <| p_arrival_time_ratio := 1 |> <| p_executed_cycle_ratio := 1 |>
    <| p_priority := 1 |>.

Definition allocproc : K (option nat) :=
  acquire L_ptable ;;
  found ← search_procs (fun i p => mret (if bool_decide (p_state p = UNUSED) then Some i else None));
  match found with
  | None => release L_ptable ;; mret None
  | Some i =>
      upd_proc i (fun p => p <| p_state := EMBRYO |>) ;;
      pid ← gets k_nextpid;
      upd_proc i (fun p => p <| p_pid := pid |>) ;;
      modify (fun k => k <| k_nextpid := s32 (pid + 1) |>) ;;
      release L_ptable ;;
      kstack ← kalloc;
      upd_proc i (fun p => p <| p_kstack := kstack |>) ;;
      if kstack =? 0 then
        upd_proc i (fun p => p <| p_state := UNUSED |>) ;; mret None
      else
        t ← gets k_ticks;
        upd_proc i (init_proc t) ;;
        r ← generate_random_number 1 DEFAULT_MAX_TICKETS;
        upd_proc i (fun p => p <| p_tickets := r |>) ;;
        mret (Some i)
  end.

(** The trap frame from which the first process enters user mode. *)
Definition user_tf : trapframe :=
  let ds := Z.lor (Z.shiftl SEG_UDATA 3) DPL_USER in
  zero_tf <| tf_cs := Z.lor (Z.shiftl SEG_UCODE 3) DPL_USER |> <| tf_ds := ds |> <| tf_es := ds |>
    <| tf_ss := ds |> <| tf_eflags := FL_IF |> <| tf_esp := PGSIZE |> <| tf_eip := 0 |>.

Definition userinit : K unit :=
  p ← allocproc;
  modify (fun k => k <| k_initproc := p |>) ;;
  pgdir ← setupkvm im_end im_data;
  i ← deref "userinit: allocproc failed" p;
  upd_proc i (fun p => p <| p_pgdir := pgdir |>) ;;
  if pgdir =? 0 then panic "userinit: out of memory?" else
  inituvm pgdir im_initcode ;;
  upd_proc i (fun p => p <| p_sz := PGSIZE |>) ;;
  upd_proc i (fun p => p <| p_tf := user_tf |>) ;;
  upd_proc i (fun p => p <| p_name := copy_name (bytes "initcode" ++ [0]) (p_name p) |>) ;;
  cwd ← namei (bytes "/");
  upd_proc i (fun p => p <| p_cwd := cwd |>) ;;
  acquire L_ptable ;;
  upd_proc i (fun p => p <| p_state := RUNNABLE |>) ;;
  release L_ptable.

Definition growproc (n : Z) : K Z :=
  i ← curproc;
  p ← get_proc i;
  let sz := p_sz p in
  sz' ← (if n >? 0 then
           s ← allocuvm im_end (p_pgdir p) sz (u32 (sz + n)); mret (if s =? 0 then None else Some s)
         else if n <? 0 then
           s ← deallocuvm im_end (p_pgdir p) sz (u32 (sz + n)); mret (if s =? 0 then None else Some s)
         else mret (Some sz));
  match sz' with
  | None => mret (-1)
  | Some sz => upd_proc i (fun p => p <| p_sz := sz |>) ;; switchuvm i ;; mret 0
  end.

Definition fork : K Z :=
  cur ← curproc;
  np ← allocproc;
  match np with
  | None => mret (-1)
  | Some np =>
      p ← get_proc cur;
      pgdir ← copyuvm im_end im_data (p_pgdir p) (p_sz p);
      upd_proc np (fun q => q <| p_pgdir := pgdir |>) ;;
      if pgdir =? 0 then
        q ← get_proc np;
        kfree im_end (p_kstack q) ;;
        upd_proc np (fun q => q <| p_kstack := 0 |>) ;;
        upd_proc np (fun q => q <| p_state := UNUSED |>) ;;
        mret (-1)
      else
        p ← get_proc cur;
        upd_proc np (fun q => q <| p_sz := p_sz p |>) ;;
        upd_proc np (fun q => q <| p_parent := Some cur |>) ;;
        upd_proc np (fun q => q <| p_tf := p_tf p <| tf_eax := 0 |> |>) ;;
        for_each (seq 0 NOFILE) (fun i =>
          p ← get_proc cur;
          match p_ofile p !! i with
          | Some (Some f) =>
              g ← filedup f;
              upd_proc np (fun q => q <| p_ofile := <[i := Some g]> (p_ofile q) |>)
          | _ => mret tt
          end) ;;
        p ← get_proc cur;
        cwd ← deref "fork: curproc->cwd" (p_cwd p);
        cwd ← idup cwd;
        upd_proc np (fun q => q <| p_cwd := Some cwd |>) ;;
        upd_proc np (fun q => q <| p_name := copy_name (p_name p) (p_name q) |>) ;;
        q ← get_proc np;
        let pid := p_pid q in
        acquire L_ptable ;;
        upd_proc np (fun q => q <| p_state := RUNNABLE |>) ;;
        release L_ptable ;;
        mret pid
  end.

(** Nobody sleeps on the null channel. *)
Definition wakeup1_proc (p : option nat) : K unit :=
  match p with Some j => wakeup1 (Ch_proc j) | None => mret tt end.

(** The part of [exit] under [ptable.lock]. *)
Definition exit_table (cur : nat) : K unit :=
  acquire L_ptable ;;
  p ← get_proc cur;
  wakeup1_proc (p_parent p) ;;
  for_procs (fun j q =>
    if bool_decide (p_parent q = Some cur) then
      init ← gets k_initproc;
      upd_proc j (fun q => q <| p_parent := init |>) ;;
      if bool_decide (p_state q = ZOMBIE) then wakeup1_proc init else mret tt
    else mret tt) ;;
  upd_proc cur (fun p => p <| p_state := ZOMBIE |>).

Definition exit : K unit :=
  cur ← curproc;
  init ← gets k_initproc;
  if bool_decide (Some cur = init) then panic "init exiting" else
  for_each (seq 0 NOFILE) (fun fd =>
    p ← get_proc cur;
    match p_ofile p !! fd with
    | Some (Some f) =>
        fileclose im_end f ;;
        upd_proc cur (fun p => p <| p_ofile := <[fd := None]> (p_ofile p) |>)
    | _ => mret tt
    end) ;;
  begin_op ;;
  p ← get_proc cur;
  cwd ← deref "exit: curproc->cwd" (p_cwd p);
  iput cwd ;;
  end_op ;;
  upd_proc cur (fun p => p <| p_cwd := None |>) ;;
  exit_table cur ;;
  sched ;;
  panic "zombie exit".

(** The zombie [j] is taken out of the table. *)
Definition reap (j : nat) : K Z :=
  q ← get_proc j;
  let pid := p_pid q in
  kfree im_end (p_kstack q) ;;
  upd_proc j (fun q => q <| p_kstack := 0 |>) ;;
  freevm im_end (p_pgdir q) ;;
  upd_proc j (fun q => q <| p_pid := 0 |> <| p_parent := None |> <| p_name := <[0%nat := 0]> (p_name q) |>
                         <| p_killed := 0 |> <| p_state := UNUSED |>) ;;
  release L_ptable ;;
  mret pid.

(** The scan of [wait]: the pid of the first zombie child, and [havekids]. *)
Fixpoint wait_scan (js : list nat) (cur : nat) (havekids : bool) : K (option Z * bool) :=
  match js with
  | [] => mret (None, havekids)
  | j :: js =>
      q ← get_proc j;
      if negb (bool_decide (p_parent q = Some cur)) then wait_scan js cur havekids else
      if bool_decide (p_state q = ZOMBIE) then
        pid ← reap j; mret (Some pid, true)
      else wait_scan js cur true
  end.

(** Each pass that goes to sleep uses a time slice. *)
Fixpoint wait_loop (fuel : nat) (cur : nat) : K Z :=
  match fuel with
  | O => undef "wait: fuel"
  | S fuel =>
      r ← wait_scan (seq 0 NPROC) cur false;
      match r with
      | (Some pid, _) => mret pid
      | (None, havekids) =>
          p ← get_proc cur;
          if negb havekids || negb (p_killed p =? 0) then release L_ptable ;; mret (-1) else
          sleep (Ch_proc cur) (Some L_ptable) ;;
          wait_loop fuel cur
      end
  end.

Definition await_child (cur : nat) : K Z := fun k e => wait_loop (S (length e)) cur k e.

Definition wait : K Z :=
  cur ← curproc;
  acquire L_ptable ;;
  await_child cur.

Definition forkret : K unit :=
  release L_ptable ;;
  first ← gets k_first;
  if (first : bool) then
    modify (fun k => k <| k_first := false |>) ;;
    iinit ROOTDEV ;;
    initlog ROOTDEV
  else mret tt.
End Process.
