(* ===== verification/Args.v ===== *)
(** System-call arguments (the first half of syscall.c): the kernel reads the
    user's memory through the page table that the CPU is using. *)

From S2P Require Import Prelude Types Spinlock Proc Sleeplock Bio Bytes Log Str Cprintf Fs FsIo Kalloc Sched Vm PageTable.

(** ** The memory management unit *)

(** An access by the kernel to a user address: a page that is not mapped, or
    not writable, traps in the kernel, and [trap] panics. *)
Definition uaddr (va : Z) (w : bool) : K Z :=
  k ← gets (fun k => k);
  match translate (k_mem k) (P2V (c_cr3 (k_cpu k))) va with
  | Some pte =>
      if w && (Z.land pte PTE_W =? 0) then panic "trap" else mret (P2V (PTE_ADDR pte) + va mod PGSIZE)
  | None => panic "trap"
  end.

Definition uload (va : Z) : K Z := a ← uaddr va false; gets (fun k => k_mem k a).
Definition ustore (va v : Z) : K unit := a ← uaddr va true; upd_mem (store a v).

(** [n] bytes from [va] on; the bytes of [l] to [va] on. *)
Fixpoint uload_bytes (n : nat) (va : Z) : K (list Z) :=
  match n with
  | O => mret []
  | S n => c ← uload va; l ← uload_bytes n (va + 1); mret (c :: l)
  end.
Fixpoint ustore_bytes (va : Z) (l : list Z) : K unit :=
  match l with
  | [] => mret tt
  | c :: l => ustore va c ;; ustore_bytes (va + 1) l
  end.

Definition word_bytes (v : Z) : list Z := put32 0 v [0; 0; 0; 0].
Definition half_bytes (v : Z) : list Z := put16 0 v [0; 0].

(** ** syscall.c *)

(** The value of [*ip]; [None] is the result -1. *)
Definition fetchint (addr : Z) : K (option Z) :=
  i ← curproc;
  p ← get_proc i;
  if (addr >=? p_sz p) || (u32 (addr + 4) >? p_sz p) then mret None else
  l ← uload_bytes 4 addr;
  mret (Some (s32 (get32 l 0))).

(** The bytes from [s] up to the first NUL before [ep]. *)
Fixpoint fetchstr_loop (n : nat) (s : Z) : K (option (list Z)) :=
  match n with
  | O => mret None
  | S n =>
      c ← uload s;
      if c =? 0 then mret (Some []) else
      r ← fetchstr_loop n (s + 1);
      mret (cons c <$> r)
  end.

(** The string at [*pp], whose length is the return value. *)
Definition fetchstr (addr : Z) : K (option (list Z)) :=
  i ← curproc;
  p ← get_proc i;
  if addr >=? p_sz p then mret None else
  fetchstr_loop (Z.to_nat (p_sz p - addr)) addr.

Definition argint (n : Z) : K (option Z) :=
  i ← curproc;
  p ← get_proc i;
  fetchint (u32 (tf_esp (p_tf p) + 4 + 4 * n)).

Definition argptr (n size : Z) : K (option Z) :=
  c ← curproc;
  i ← argint n;
  match i with
  | None => mret None
  | Some i =>
      p ← get_proc c;
      if (size <? 0) || (u32 i >=? p_sz p) || (u32 (u32 i + size) >? p_sz p) then mret None
      else mret (Some (u32 i))
  end.

Definition argstr (n : Z) : K (option (list Z)) :=
  a ← argint n;
  match a with
  | None => mret None
  | Some a => fetchstr (u32 a)
  end.

(** ** The checks keep the kernel inside the process *)

(** The byte of a mapped page at [x], and the [n] bytes from [a] on. *)
Definition kbyte (m : mem) (pgdir x : Z) : Z :=
  match translate m pgdir x with
  | Some pte => m (P2V (PTE_ADDR pte) + x mod PGSIZE)
  | None => 0
  end.
Definition user_bytes (m : mem) (pgdir a : Z) (n : nat) : list Z :=
  map (fun j => kbyte m pgdir (a + Z.of_nat j)) (seq 0 n).

(** The CPU uses the page table of the process, which maps all of its [p_sz]
    bytes. *)
Record own_space (p : proc) (k : kernel) : Prop := {
  os_cr3 : P2V (c_cr3 (k_cpu k)) = p_pgdir p;
  os_sz : 0 <= p_sz p <= KERNBASE;
  os_mapped : forall x, 0 <= x < p_sz p -> is_Some (translate (k_mem k) (p_pgdir p) x)
}.

Section Checked.
  Context (i : nat) (p : proc) (k : kernel).
  Hypothesis (Hc : calm i p k) (Ho : own_space p k).
  Implicit Types (e : env).

Lemma uload_run e x : 0 <= x < p_sz p -> uload x k e = Ret (kbyte (k_mem k) (p_pgdir p) x) k e.
Proof.
  intros Hx. destruct (os_mapped _ _ Ho x Hx) as [pte Hp]. unfold uload, uaddr, kbyte. mrun.
  rewrite (os_cr3 _ _ Ho), Hp. by mrun.
Qed.

Lemma user_bytes_cons m pgdir a n :
  user_bytes m pgdir a (S n) = kbyte m pgdir a :: user_bytes m pgdir (a + 1) n.
Proof.
  unfold user_bytes. cbn [seq map]. rewrite Z.add_0_r. f_equal. rewrite <-seq_shift, map_map.
  apply map_ext. intros j. f_equal. lia.
Qed.

Lemma take_user_bytes m pgdir a n j : (j <= n)%nat -> take j (user_bytes m pgdir a n) = user_bytes m pgdir a j.
Proof.
  intros Hj. unfold user_bytes. rewrite <-fmap_take. f_equal.
  replace n with (j + (n - j))%nat by lia. rewrite seq_app, take_app_le by (by rewrite length_seq).
  by rewrite take_ge by (by rewrite length_seq).
Qed.

Lemma uload_bytes_run n : forall e a, 0 <= a -> a + Z.of_nat n <= p_sz p ->
  uload_bytes n a k e = Ret (user_bytes (k_mem k) (p_pgdir p) a n) k e.
Proof.
  induction n as [|n IH]; intros e a Ha Hn; [done|]. cbn [uload_bytes].
  rewrite (bind_Ret _ _ _ _ _ _ _ (uload_run e a ltac:(lia))).
  rewrite (bind_Ret _ _ _ _ _ _ _ (IH e (a + 1) ltac:(lia) ltac:(lia))). by rewrite user_bytes_cons.
Qed.

Lemma fetchstr_loop_run n : forall e a, 0 <= a -> a + Z.of_nat n <= p_sz p ->
  let l := user_bytes (k_mem k) (p_pgdir p) a n in
  fetchstr_loop n a k e = Ret ((fun j => take j l) <$> nul_at l) k e.
Proof.
  induction n as [|n IH]; intros e a Ha Hn; [done|]. cbn [fetchstr_loop].
  rewrite user_bytes_cons. cbn [nul_at].
  rewrite (bind_Ret _ _ _ _ _ _ _ (uload_run e a ltac:(lia))). destruct (kbyte _ _ a =? 0); [done|].
  rewrite (bind_Ret _ _ _ _ _ _ _ (IH e (a + 1) ltac:(lia) ltac:(lia))). cbv zeta.
  destruct (nul_at _); done.
Qed.

(** The word, the pointer and the string that the arguments stand for. *)
Definition arg_addr (n : Z) : Z := u32 (tf_esp (p_tf p) + 4 + 4 * n).
Definition arg_word (a : Z) : option Z :=
  if (a >=? p_sz p) || (u32 (a + 4) >? p_sz p) then None
  else Some (s32 (get32 (user_bytes (k_mem k) (p_pgdir p) a 4) 0)).

Lemma fetchint_run e a : 0 <= a < 2 ^ 32 -> fetchint a k e = Ret (arg_word a) k e.
Proof.
  intros Ha. unfold fetchint, arg_word. mcall (curproc_calm i p); [done|].
  mcall (get_proc_run i p); [apply Hc|]. destruct (a >=? p_sz p) eqn:E1; [done|]. simpl.
  destruct (u32 (a + 4) >? p_sz p) eqn:E2; [done|].
  pose proof (os_sz _ _ Ho) as Hs. unfold KERNBASE in Hs. rewrite Z.geb_leb, Z.leb_gt in E1.
  rewrite u32_small in E2 by lia. rewrite Z.gtb_ltb, Z.ltb_ge in E2.
  by rewrite (bind_Ret _ _ _ _ _ _ _ (uload_bytes_run 4 e a ltac:(lia) ltac:(lia))).
Qed.

Lemma argint_run e n : argint n k e = Ret (arg_word (arg_addr n)) k e.
Proof.
  unfold argint. mcall (curproc_calm i p); [done|]. mcall (get_proc_run i p); [apply Hc|].
  apply fetchint_run. apply u32_range.
Qed.

Lemma fetchstr_run e a : 0 <= a < 2 ^ 32 ->
  fetchstr a k e = Ret (if a >=? p_sz p then None else
    let l := user_bytes (k_mem k) (p_pgdir p) a (Z.to_nat (p_sz p - a)) in
    (fun j => take j l) <$> nul_at l) k e.
Proof.
  intros Ha. unfold fetchstr. mcall (curproc_calm i p); [done|]. mcall (get_proc_run i p); [apply Hc|].
  destruct (a >=? p_sz p) eqn:E; [done|]. rewrite Z.geb_leb, Z.leb_gt in E.
  apply fetchstr_loop_run; lia.
Qed.
End Checked.

(** C21: The system-call arguments of a process whose memory is mapped are
    read safely and exactly, whatever the process put on its stack and in its
    registers: none of [argint], [argptr], [argstr] faults or changes any
    state; [argint] gives the word at its place if that word lies below
    [p_sz] and fails otherwise; [argptr] succeeds only if the whole block of
    [size] bytes lies in the process; [argstr] gives the bytes up to the first
    NUL, if there is one below [p_sz], and fails otherwise. *)
Theorem arguments_checked i p k e n size :
  calm i p k -> own_space p k -> - 2 ^ 31 <= size < 2 ^ 31 ->
  argint n k e = Ret (arg_word p k (arg_addr p n)) k e /\
  (exists r, argptr n size k e = Ret r k e /\
     forall a, r = Some a <-> exists v, arg_word p k (arg_addr p n) = Some v /\ a = u32 v /\
       0 <= size < 2 ^ 31 /\ a < p_sz p /\ a + size <= p_sz p) /\
  (exists r, argstr n k e = Ret r k e /\
     forall s, r = Some s <-> exists v, arg_word p k (arg_addr p n) = Some v /\
       u32 v + Z.of_nat (length s) < p_sz p /\ Forall (fun c => c <> 0) s /\
       user_bytes (k_mem k) (p_pgdir p) (u32 v) (S (length s)) = s ++ [0]).
Proof.
  intros Hc Ho Hsize. pose proof (os_sz _ _ Ho) as Hsz. unfold KERNBASE in Hsz.
  split_and!; [by apply (argint_run i)| |].
  - exists (v ← arg_word p k (arg_addr p n);
      if (size <? 0) || (u32 v >=? p_sz p) || (u32 (u32 v + size) >? p_sz p) then None else Some (u32 v)).
    split.
    + unfold argptr. mcall (curproc_calm i p); [done|]. mcall (argint_run i p); [done|done|].
      destruct (arg_word p k (arg_addr p n)) as [v|]; [|reflexivity]. mcall (get_proc_run i p); [apply Hc|].
      cbn. by destruct (_ || _).
    + intros a. destruct (arg_word p k (arg_addr p n)) as [v|]; cbn; [|split; [done|by intros (? & ? & _)]].
      pose proof (u32_range v). split.
      * destruct (_ || _) eqn:E; [done|]. intros [= <-]. exists v.
        apply orb_false_iff in E as [[E1 E2]%orb_false_iff E3]. rewrite Z.geb_leb in E2.
        rewrite u32_small in E3 by lia. split_and!; try done; lia.
      * intros (w & [= <-] & -> & Hs & H1 & H2). rewrite (u32_small (u32 v + size)) by lia.
        rewrite (proj2 (Z.ltb_ge size 0)) by lia. rewrite Z.geb_leb, (proj2 (Z.leb_gt _ _)) by lia. simpl.
        rewrite Z.gtb_ltb, (proj2 (Z.ltb_ge _ _)) by lia. done.
  - exists (v ← arg_word p k (arg_addr p n); if u32 v >=? p_sz p then None else
      let l := user_bytes (k_mem k) (p_pgdir p) (u32 v) (Z.to_nat (p_sz p - u32 v)) in
      (fun j => take j l) <$> nul_at l).
    split.
    + unfold argstr. mcall (argint_run i p); [done|done|].
      destruct (arg_word p k (arg_addr p n)) as [v|]; [|reflexivity].
      rewrite (fetchstr_run i p) by (done || apply u32_range). reflexivity.
    + intros s. destruct (arg_word p k (arg_addr p n)) as [v|]; cbn; [|split; [done|by intros (? & ? & _)]].
      rewrite Z.geb_leb. destruct (Z.leb_spec (p_sz p) (u32 v)) as [Hv|Hv].
      { split; [done|]. intros (w & [= <-] & Hl & _). lia. }
      rewrite nul_at_string. split.
      * intros [Hs Ht]. exists v. assert (length (take (S (length s))
          (user_bytes (k_mem k) (p_pgdir p) (u32 v) (Z.to_nat (p_sz p - u32 v)))) = S (length s)) as El
          by (rewrite Ht, length_app; simpl; lia).
        rewrite length_take in El. unfold user_bytes at 1 in El. rewrite length_map, length_seq in El.
        rewrite take_user_bytes in Ht by lia. split_and!; try done. lia.
      * intros (w & [= <-] & Hl & Hs & Hb). split; [done|]. by rewrite take_user_bytes by lia.
Qed.

(** ** An instance: a process of one page, with a string argument *)

Definition args_proc : proc :=
  solo_proc <| p_sz := 4096 |> <| p_pgdir := page_at 0 |> <| p_tf := zero_tf <| tf_esp := 0x100 |> |>.
Definition args_mem : mem :=
  store32 (page_at 0) (V2P (page_at 2) + 7) (store32 (page_at 2) (V2P (page_at 4) + 7)
    (store32 (page_at 4 + 0x104) 0x200 (store_bytes (page_at 4 + 0x200) (bytes "hi") (fun _ => 0)))).
Definition args_kernel : kernel :=
  bare_kernel <| k_cpu := mkcpu (Some 0%nat) 0 true true [] (V2P (page_at 0)) 0 |>
    <| k_procs := args_proc :: replicate (NPROC - 1) zero_proc |> <| k_mem := args_mem |>.

Lemma args_calm : calm 0 args_proc args_kernel.
Proof. constructor; try done. constructor; [done|constructor|done]. Qed.

Lemma args_space : own_space args_proc args_kernel.
Proof.
  constructor; [done|vm_compute; split; congruence|]. intros x Hx. change (p_sz args_proc) with 4096 in Hx.
  assert (PDX x = 0) as Ed by (rewrite PDX_div, Z.div_small by lia; done).
  assert (PTX x = 0) as Et by (rewrite PTX_mod, (Z.div_small x) by lia; done).
  unfold translate. rewrite Ed, Et. vm_compute. by eexists.
Qed.

Lemma arguments_checked_witness :
  argstr 0 args_kernel [] = Ret (Some (bytes "hi")) args_kernel [].
Proof.
  destruct (arguments_checked 0 args_proc args_kernel [] 0 4 args_calm args_space) as (_ & _ & r & Hr & Hs); [lia|].
  rewrite Hr. f_equal. apply Hs. exists 0x200. vm_compute. repeat split; repeat constructor; congruence.
Defined.
