(* ===== verification/Sysfile.v ===== *)
(** The file-system calls (sysfile.c), but for [sys_exec].  A path is the
    string that [argstr] found in user memory. *)

From S2P Require Import Prelude Types Spinlock Proc Sleeplock Bio Bytes Log Str Cprintf Fs FsIo Kalloc Pipe File Sched Vm Process Args.

(** The descriptor and its file. *)
Definition argfd (n : Z) : K (option (Z * nat)) :=
  fd ← argint n;
  match fd with
  | None => mret None
  | Some fd =>
      if (fd <? 0) || (fd >=? Z.of_nat NOFILE) then mret None else
      i ← curproc;
      p ← get_proc i;
      mret (match p_ofile p !! Z.to_nat fd with Some (Some f) => Some (fd, f) | _ => None end)
  end.

Definition fdalloc (f : nat) : K Z :=
  i ← curproc;
  r ← for_loop (seq 0 NOFILE) (fun fd =>
    p ← get_proc i;
    match p_ofile p !! fd with
    | Some None =>
        upd_proc i (fun p => p <| p_ofile := <[fd := Some f]> (p_ofile p) |>) ;; mret (Some (Z.of_nat fd))
    | _ => mret None
    end);
  mret (default (-1) r).

Definition clear_fd (fd : Z) : K unit :=
  i ← curproc;
  upd_proc i (fun p => p <| p_ofile := <[Z.to_nat fd := None]> (p_ofile p) |>).

(** [argfd(0, 0, &f) < 0 || argint(2, &n) < 0 || argptr(1, &p, n) < 0] *)
Definition rw_args : K (option (nat * Z * Z)) :=
  fd ← argfd 0;
  match fd with
  | None => mret None
  | Some (_, f) =>
      n ← argint 2;
      match n with
      | None => mret None
      | Some n =>
          p ← argptr 1 n;
          mret (match p with Some p => Some (f, p, n) | None => None end)
      end
  end.

Definition end_op_with {A} (r : A) : K A := end_op ;; mret r.

Section Sysfile.
  Context `{Image} `{Devsw}.

Definition sys_dup : K Z :=
  a ← argfd 0;
  match a with
  | None => mret (-1)
  | Some (_, f) =>
      fd ← fdalloc f;
      if fd <? 0 then mret (-1) else
      filedup f ;;
      mret fd
  end.

Definition sys_read : K Z :=
  a ← rw_args;
  match a with
  | None => mret (-1)
  | Some (f, p, n) =>
      r ← fileread f n;
      ustore_bytes p (snd r) ;;
      mret (fst r)
  end.

Definition sys_write : K Z :=
  a ← rw_args;
  match a with
  | None => mret (-1)
  | Some (f, p, n) =>
      src ← uload_bytes (Z.to_nat n) p;
      filewrite f src n
  end.

Definition sys_close : K Z :=
  a ← argfd 0;
  match a with
  | None => mret (-1)
  | Some (fd, f) => clear_fd fd ;; fileclose im_end f ;; mret 0
  end.

(** [struct stat] is 20 bytes, with two bytes of padding after each short. *)
Definition store_stat (a : Z) (st : stat) : K unit :=
  ustore_bytes a (half_bytes (st_type st)) ;;
  ustore_bytes (a + 4) (word_bytes (st_dev st)) ;;
  ustore_bytes (a + 8) (word_bytes (st_ino st)) ;;
  ustore_bytes (a + 12) (half_bytes (st_nlink st)) ;;
  ustore_bytes (a + 16) (word_bytes (st_size st)).

Definition sys_fstat : K Z :=
  a ← argfd 0;
  match a with
  | None => mret (-1)
  | Some (_, f) =>
      st ← argptr 1 20;
      match st with
      | None => mret (-1)
      | Some st =>
          r ← filestat f;
          (match snd r with Some v => store_stat st v | None => mret tt end) ;;
          mret (fst r)
      end
  end.

Definition add_nlink (d : Z) (r : inode) : inode := r <| i_nlink := s16 (i_nlink r + d) |>.

(** The label [bad] of [sys_link]. *)
Definition link_bad (ip : nat) : K Z :=
  ilock (Some ip) ;;
  upd_inode ip (add_nlink (-1)) ;;
  iupdate ip ;;
  iunlockput ip ;;
  end_op_with (-1).

Definition link_paths (old new : list Z) : K Z :=
  begin_op ;;
  ip ← namei old;
  match ip with
  | None => end_op_with (-1)
  | Some ip =>
      ilock (Some ip) ;;
      r ← get_inode ip;
      if i_type r =? T_DIR then iunlockput ip ;; end_op_with (-1) else
      upd_inode ip (add_nlink 1) ;;
      iupdate ip ;;
      iunlock (Some ip) ;;
      dn ← nameiparent new (replicate DIRSIZ 0);
      match fst dn with
      | None => link_bad ip
      | Some dp =>
          ilock (Some dp) ;;
          d ← get_inode dp;
          r ← get_inode ip;
          l ← (if negb (i_dev d =? i_dev r) then mret (-1) else dirlink dp (snd dn) (i_inum r));
          if l <? 0 then iunlockput dp ;; link_bad ip else
          iunlockput dp ;;
          iput ip ;;
          end_op_with 0
      end
  end.

Definition sys_link : K Z :=
  old ← argstr 0;
  match old with
  | None => mret (-1)
  | Some old =>
      new ← argstr 1;
      match new with
      | None => mret (-1)
      | Some new => link_paths old new
      end
  end.

(** The entries from [off] on, in steps of a directory entry. *)
Fixpoint isdirempty_loop (fuel : nat) (dp : nat) (off size : Z) : K bool :=
  if off <? size then
    match fuel with
    | O => undef "isdirempty: fuel"
    | S fuel =>
        rd ← readi dp (u32 off) DIRENT;
        if negb (fst rd =? DIRENT) then panic "isdirempty: readi" else
        if negb (de_inum (snd rd) =? 0) then mret false else
        isdirempty_loop fuel dp (off + DIRENT) size
    end
  else mret true.

Definition isdirempty (dp : nat) : K bool :=
  d ← get_inode dp;
  isdirempty_loop (dir_fuel (i_size d)) dp (2 * DIRENT) (i_size d).

Definition unlink_bad (dp : nat) : K Z := iunlockput dp ;; end_op_with (-1).

Definition unlink_path (path : list Z) : K Z :=
  begin_op ;;
  dn ← nameiparent path (replicate DIRSIZ 0);
  match fst dn with
  | None => end_op_with (-1)
  | Some dp =>
      let name := snd dn in
      ilock (Some dp) ;;
      if (namecmp name (bytes ".") =? 0) || (namecmp name (bytes "..") =? 0) then unlink_bad dp else
      found ← dirlookup dp name;
      match found with
      | None => unlink_bad dp
      | Some (ip, off) =>
          ilock (Some ip) ;;
          r ← get_inode ip;
          if i_nlink r <? 1 then panic "unlink: nlink < 1" else
          full ← (if i_type r =? T_DIR then b ← isdirempty ip; mret (negb b) else mret false);
          if (full : bool) then iunlockput ip ;; unlink_bad dp else
          w ← writei dp (replicate (Z.to_nat DIRENT) 0) off DIRENT;
          if negb (w =? DIRENT) then panic "unlink: writei" else
          (if i_type r =? T_DIR then upd_inode dp (add_nlink (-1)) ;; iupdate dp else mret tt) ;;
          iunlockput dp ;;
          upd_inode ip (add_nlink (-1)) ;;
          iupdate ip ;;
          iunlockput ip ;;
          end_op_with 0
      end
  end.

Definition sys_unlink : K Z :=
  path ← argstr 0;
  match path with
  | None => mret (-1)
  | Some path => unlink_path path
  end.

Definition create (path : list Z) (type major minor : Z) : K (option nat) :=
  dn ← nameiparent path (replicate DIRSIZ 0);
  match fst dn with
  | None => mret None
  | Some dp =>
      let name := snd dn in
      ilock (Some dp) ;;
      found ← dirlookup dp name;
      match found with
      | Some (ip, _) =>
          iunlockput dp ;;
          ilock (Some ip) ;;
          r ← get_inode ip;
          if (type =? T_FILE) && (i_type r =? T_FILE) then mret (Some ip) else
          iunlockput ip ;;
          mret None
      | None =>
          d ← get_inode dp;
          ip ← ialloc (i_dev d) type;
          ilock (Some ip) ;;
          upd_inode ip (fun r => r <| i_major := major |> <| i_minor := minor |> <| i_nlink := 1 |>) ;;
          iupdate ip ;;
          (if type =? T_DIR then
             upd_inode dp (add_nlink 1) ;;
             iupdate dp ;;
             r ← get_inode ip;
             l1 ← dirlink ip (bytes ".") (i_inum r);
             l2 ← (if l1 <? 0 then mret l1 else d ← get_inode dp; dirlink ip (bytes "..") (i_inum d));
             if l2 <? 0 then panic "create dots" else mret tt
           else mret tt) ;;
          r ← get_inode ip;
          l ← dirlink dp name (i_inum r);
          if l <? 0 then panic "create: dirlink" else
          iunlockput dp ;;
          mret (Some ip)
      end
  end.

(** The inode to open, locked; [None] after [end_op] where it returns -1. *)
Definition open_inode (path : list Z) (omode : Z) : K (option nat) :=
  if negb (Z.land omode O_CREATE =? 0) then
    ip ← create path T_FILE 0 0;
    match ip with
    | None => end_op_with None
    | Some ip => mret (Some ip)
    end
  else
    ip ← namei path;
    match ip with
    | None => end_op_with None
    | Some ip =>
        ilock (Some ip) ;;
        r ← get_inode ip;
        if (i_type r =? T_DIR) && negb (omode =? O_RDONLY)
        then iunlockput ip ;; end_op_with None
        else mret (Some ip)
    end.

Definition b2z (b : bool) : Z := if b then 1 else 0.

(** The file for the open inode, from the mode. *)
Definition open_file (ip : nat) (omode : Z) (r : file) : file :=
  r <| f_type := FD_INODE |> <| f_ip := Some ip |> <| f_off := 0 |>
    <| f_readable := b2z (Z.land omode O_WRONLY =? 0) |>
    <| f_writable := b2z (negb (Z.land omode O_WRONLY =? 0) || negb (Z.land omode O_RDWR =? 0)) |>.

Definition open_path (path : list Z) (omode : Z) : K Z :=
  begin_op ;;
  ip ← open_inode path omode;
  match ip with
  | None => mret (-1)
  | Some ip =>
      f ← filealloc;
      fd ← (match f with Some f => fdalloc f | None => mret (-1) end);
      match f with
      | Some f =>
          if fd <? 0 then
            fileclose im_end f ;; iunlockput ip ;; end_op_with (-1)
          else
            iunlock (Some ip) ;;
            end_op ;;
            upd_file f (open_file ip omode) ;;
            mret fd
      | None => iunlockput ip ;; end_op_with (-1)
      end
  end.

Definition sys_open : K Z :=
  path ← argstr 0;
  match path with
  | None => mret (-1)
  | Some path =>
      omode ← argint 1;
      match omode with
      | None => mret (-1)
      | Some omode => open_path path omode
      end
  end.

(** [create], then [iunlockput], in the transaction the caller has begun. *)
Definition make_node (path : list Z) (type major minor : Z) : K Z :=
  ip ← create path type major minor;
  match ip with
  | None => end_op_with (-1)
  | Some ip => iunlockput ip ;; end_op_with 0
  end.

Definition sys_mkdir : K Z :=
  begin_op ;;
  path ← argstr 0;
  match path with
  | None => end_op_with (-1)
  | Some path => make_node path T_DIR 0 0
  end.

Definition sys_mknod : K Z :=
  begin_op ;;
  path ← argstr 0;
  match path with
  | None => end_op_with (-1)
  | Some path =>
      major ← argint 1;
      match major with
      | None => end_op_with (-1)
      | Some major =>
          minor ← argint 2;
          match minor with
          | None => end_op_with (-1)
          | Some minor => make_node path T_DEV (s16 major) (s16 minor)
          end
      end
  end.

Definition sys_chdir : K Z :=
  cur ← curproc;
  begin_op ;;
  path ← argstr 0;
  ip ← (match path with Some path => namei path | None => mret None end);
  match ip with
  | None => end_op_with (-1)
  | Some ip =>
      ilock (Some ip) ;;
      r ← get_inode ip;
      if negb (i_type r =? T_DIR) then iunlockput ip ;; end_op_with (-1) else
      iunlock (Some ip) ;;
      p ← get_proc cur;
      cwd ← deref "sys_chdir: curproc->cwd" (p_cwd p);
      iput cwd ;;
      end_op ;;
      upd_proc cur (fun p => p <| p_cwd := Some ip |>) ;;
      mret 0
  end.

Definition sys_pipe : K Z :=
  fd ← argptr 0 8;
  match fd with
  | None => mret (-1)
  | Some fd =>
      fs ← pipealloc im_end;
      match fs with
      | None => mret (-1)
      | Some (rf, wf) =>
          fd0 ← fdalloc rf;
          fd1 ← (if fd0 <? 0 then mret (-1) else fdalloc wf);
          if (fd0 <? 0) || (fd1 <? 0) then
            (if fd0 >=? 0 then clear_fd fd0 else mret tt) ;;
            fileclose im_end rf ;;
            fileclose im_end wf ;;
            mret (-1)
          else
            ustore_bytes fd (word_bytes fd0) ;;
            ustore_bytes (fd + 4) (word_bytes fd1) ;;
            mret 0
      end
  end.

Definition sys_change_file_size : K Z :=
  cprintf (bytes "kernel: called sys_change_file_size" ++ [10]) [] ;;
  path ← argstr 0;
  match path with
  | None => mret (-1)
  | Some path =>
      len ← argint 1;
      match len with
      | None => mret (-1)
      | Some len =>
          cprintf (bytes "        calling change_file_size(%s, %d)" ++ [10]) [PStr path; PInt len] ;;
          change_file_size path len
      end
  end.
End Sysfile.
