(* ===== verification/Exec.v ===== *)
(** Program loading (exec.c, and [sys_exec] of sysfile.c). *)

From S2P Require Import Prelude Types Spinlock Proc Sleeplock Bio Bytes Log Str Cprintf Fs FsIo Kalloc File Sched Vm Process Args.

(** ** elf.h: the headers as their bytes *)

Definition ELF_MAGIC : Z := 0x464C457F.
Definition ELF_PROG_LOAD : Z := 1.
Definition ELFHDR : Z := 52.
Definition elf_magic (h : list Z) : Z := get32 h 0.
Definition elf_entry (h : list Z) : Z := get32 h 24.
Definition elf_phoff (h : list Z) : Z := get32 h 28.
Definition elf_phnum (h : list Z) : Z := get16 h 44.
Definition PROGHDR : Z := 32.
Definition ph_type (h : list Z) : Z := get32 h 0.
Definition ph_off (h : list Z) : Z := get32 h 4.
Definition ph_vaddr (h : list Z) : Z := get32 h 8.
Definition ph_filesz (h : list Z) : Z := get32 h 16.
Definition ph_memsz (h : list Z) : Z := get32 h 20.

Section Exec.
  Context `{Image} `{Devsw}.

(** The label [bad]. *)
Definition exec_bad (pgdir : Z) (ip : option nat) : K Z :=
  (if negb (pgdir =? 0) then freevm im_end pgdir else mret tt) ;;
  (match ip with Some ip => iunlockput ip ;; end_op | None => mret tt end) ;;
  mret (-1).

(** The loop over the program headers: the size, or [None] for [bad]. *)
Fixpoint load_segments (n : nat) (pgdir : Z) (ip : nat) (off sz : Z) : K (option Z) :=
  match n with
  | O => mret (Some sz)
  | S n =>
      rd ← readi ip (u32 off) PROGHDR;
      let ph := snd rd in
      let off := s32 (off + PROGHDR) in
      if negb (fst rd =? PROGHDR) then mret None else
      if negb (ph_type ph =? ELF_PROG_LOAD) then load_segments n pgdir ip off sz else
      if ph_memsz ph <? ph_filesz ph then mret None else
      if u32 (ph_vaddr ph + ph_memsz ph) <? ph_vaddr ph then mret None else
      sz ← allocuvm im_end pgdir sz (u32 (ph_vaddr ph + ph_memsz ph));
      if sz =? 0 then mret None else
      if negb (ph_vaddr ph mod PGSIZE =? 0) then mret None else
      r ← loaduvm pgdir (ph_vaddr ph) ip (ph_off ph) (ph_filesz ph);
      if r <? 0 then mret None else
      load_segments n pgdir ip off sz
  end.

(** The argument strings, from [argc] on: the stack pointer and the addresses
    of the strings. *)
Fixpoint push_args (pgdir argc sp : Z) (argv : list (list Z)) : K (option (Z * list Z)) :=
  match argv with
  | [] => mret (Some (sp, []))
  | s :: argv =>
      if argc >=? Z.of_nat MAXARG then mret None else
      let sp := Z.land (u32 (sp - (Z.of_nat (length s) + 1))) (Z.lnot 3) in
      r ← copyout pgdir sp (s ++ [0]);
      if r <? 0 then mret None else
      rest ← push_args pgdir (argc + 1) sp argv;
      mret (match rest with Some (sp', us) => Some (sp', sp :: us) | None => None end)
  end.

(** The words of [ustack]. *)
Definition ustack (sp : Z) (args : list Z) : list Z :=
  let argc := Z.of_nat (length args) in
  [0xffffffff; argc; u32 (sp - (argc + 1) * 4)] ++ args ++ [0].

Definition words (ws : list Z) : list Z := concat (map word_bytes ws).

(** The strings, then [ustack] below them; the stack pointer. *)
Definition user_stack (pgdir sz : Z) (argv : list (list Z)) : K (option Z) :=
  args ← push_args pgdir 0 sz argv;
  match args with
  | None => mret None
  | Some (sp, us) =>
      let ws := ustack sp us in
      let sp := u32 (sp - Z.of_nat (length ws) * 4) in
      r ← copyout pgdir sp (words ws);
      mret (if r <? 0 then None else Some sp)
  end.

(** The part of the path behind the last slash. *)
Fixpoint last_elem (path last : list Z) : list Z :=
  match path with
  | [] => last
  | c :: path => last_elem path (if c =? SLASH then path else last)
  end.

(** The user stack for the program in [pgdir], and the switch to it. *)
Definition exec_commit (cur : nat) (path : list Z) (argv : list (list Z)) (pgdir sz entry : Z) : K Z :=
  let sz := PGROUNDUP sz in
  sz ← allocuvm im_end pgdir sz (u32 (sz + 2 * PGSIZE));
  if sz =? 0 then exec_bad pgdir None else
  clearpteu pgdir (u32 (sz - 2 * PGSIZE)) ;;
  sp ← user_stack pgdir sz argv;
  match sp with
  | None => exec_bad pgdir None
  | Some sp =>
      upd_proc cur (fun p => p <| p_name := copy_name (last_elem path path ++ [0]) (p_name p) |>) ;;
      p ← get_proc cur;
      let oldpgdir := p_pgdir p in
      upd_proc cur (fun p => p <| p_pgdir := pgdir |> <| p_sz := sz |>
                               <| p_tf := p_tf p <| tf_eip := entry |> <| tf_esp := sp |> |>) ;;
      switchuvm cur ;;
      freevm im_end oldpgdir ;;
      mret 0
  end.

Definition exec (path : list Z) (argv : list (list Z)) : K Z :=
  cur ← curproc;
  begin_op ;;
  ip ← namei path;
  match ip with
  | None => end_op ;; cprintf (bytes "exec: fail" ++ [10]) [] ;; mret (-1)
  | Some ip =>
      ilock (Some ip) ;;
      rd ← readi ip 0 ELFHDR;
      let elf := snd rd in
      if negb (fst rd =? ELFHDR) then exec_bad 0 (Some ip) else
      if negb (elf_magic elf =? ELF_MAGIC) then exec_bad 0 (Some ip) else
      pgdir ← setupkvm im_end im_data;
      if pgdir =? 0 then exec_bad 0 (Some ip) else
      sz ← load_segments (Z.to_nat (elf_phnum elf)) pgdir ip (s32 (elf_phoff elf)) 0;
      match sz with
      | None => exec_bad pgdir (Some ip)
      | Some sz =>
          iunlockput ip ;;
          end_op ;;
          exec_commit cur path argv pgdir sz (elf_entry elf)
      end
  end.

(** The arguments, in user memory from [uargv] on; [argv] has [MAXARG]
    places. *)
Fixpoint fetch_argv (n : nat) (uargv : Z) : K (option (list (list Z))) :=
  match n with
  | O => mret None
  | S n =>
      uarg ← fetchint uargv;
      match uarg with
      | None => mret None
      | Some uarg =>
          if uarg =? 0 then mret (Some []) else
          s ← fetchstr (u32 uarg);
          match s with
          | None => mret None
          | Some s =>
              rest ← fetch_argv n (u32 (uargv + 4));
              mret (cons s <$> rest)
          end
      end
  end.

Definition sys_exec : K Z :=
  path ← argstr 0;
  match path with
  | None => mret (-1)
  | Some path =>
      uargv ← argint 1;
      match uargv with
      | None => mret (-1)
      | Some uargv =>
          argv ← fetch_argv MAXARG (u32 uargv);
          match argv with
          | None => mret (-1)
          | Some argv => exec path argv
          end
      end
  end.
End Exec.
