(* ===== verification/PrintProcs.v ===== *)
(** Process listings (proc.c): [printfloat], [get_lenght], [print_all_procs]
    and [procdump]. *)

From Stdlib Require Import SpecFloat.
From S2P Require Import Prelude Types Spinlock Float32 Proc Sched Str Cprintf.

Definition print (s : string) : K unit := cprintf (bytes s) [].
Definition print_int (z : Z) : K unit := cprintf (bytes "%d") [PInt z].

(** [for(int i = 0; i < n; i++) cprintf(" ");] *)
Definition spaces (n : Z) : K unit := for_each (seq 0 (Z.to_nat n)) (fun _ => print " ").

Definition printfloat (num : spec_float) : K unit :=
  let beg := f32_to_Z num in
  let fin := s32 (f32_to_Z (f32_mul num (f32_of_Z 100)) - s32 (beg * 100)) in
  print_int beg ;;
  print "." ;;
  (if fin <? 10 then print "0" else mret tt) ;;
  print_int fin.

(** A positive [int] has at most ten digits. *)
Fixpoint length_loop (fuel : nat) (num len : Z) : Z :=
  match fuel with
  | O => len
  | S fuel => if num >? 0 then length_loop fuel (Z.quot num 10) (len + 1) else len
  end.

Definition get_lenght (num : Z) : Z := if num =? 0 then 1 else length_loop 10 num 0.

Definition state_name (s : procstate) : string :=
  match s with
  | UNUSED => "UNUSED"
  | EMBRYO => "EMBRYO"
  | SLEEPING => "SLEEPING"
  | RUNNABLE => "RUNNABLE"
  | RUNNING => "RUNNING"
  | ZOMBIE => "ZOMBIE"
  end.

(** The variable [queue] of [print_all_procs] is set only for these values. *)
Definition queue_name (q : Z) : option string :=
  if q =? 1 then Some "RoundRobin"%string
  else if q =? 2 then Some "Lottery"%string
  else if q =? 3 then Some "BJF"%string
  else None.

Definition print_proc (p : proc) : K unit :=
  cprintf (cstring (p_name p)) [] ;;
  spaces (11 - Z.of_nat (length (cstring (p_name p)))) ;;
  print_int (p_pid p) ;;
  spaces (10 - get_lenght (p_pid p)) ;;
  let state := state_name (p_state p) in
  print state ;;
  spaces (12 - Z.of_nat (String.length state)) ;;
  queue ← deref "print_all_procs: queue is not set" (queue_name (p_queue p));
  print queue ;;
  spaces (12 - Z.of_nat (String.length queue)) ;;
  print_int (p_entered_queue p) ;;
  spaces (20 - get_lenght (p_entered_queue p)) ;;
  print_int (p_tickets p) ;;
  spaces (12 - get_lenght (p_tickets p) - 1) ;;
  print_int (p_priority_ratio p) ;;
  spaces (13 - get_lenght (p_priority_ratio p)) ;;
  print_int (p_executed_cycle_ratio p) ;;
  spaces (14 - get_lenght (p_executed_cycle_ratio p)) ;;
  print_int (p_arrival_time_ratio p) ;;
  spaces (14 - get_lenght (p_arrival_time_ratio p)) ;;
  printfloat (get_rank p) ;;
  spaces (11 - get_lenght (f32_to_Z (get_rank p)) - 2) ;;
  let executed_cycle := f32_mul (p_executed_cycle p) (f32_of_Z 10) in
  let whole := f32_to_Z executed_cycle in
  (if SFleb (SFsub 24 128 executed_cycle (f32_of_Z whole)) (S754_finite false 8388608 (-24))
   then print_int whole else print_int (s32 (whole + 1))) ;;
  cprintf [10] [].

Definition header1 : string :=
  "name       pid       state       queue       arrival_time        tickets     p_ratio      e_ratio       a_ratio       rank       exec_cycle".
Definition header2 : string :=
  "...........................................................................................................................................".

Definition print_all_procs : K unit :=
  cprintf (bytes header1 ++ [10]) [] ;;
  cprintf (bytes header2 ++ [10]) [] ;;
  acquire L_ptable ;;
  for_procs (fun _ p => if bool_decide (p_state p = UNUSED) then mret tt else print_proc p) ;;
  release L_ptable.

(** ** procdump *)

(** [getcallerpcs] of spinlock.c, from the frame at [v - 8]. *)
Fixpoint pcs_loop (n : nat) (ebp : Z) (m : mem) : list Z :=
  match n with
  | O => []
  | S n' =>
      if (ebp =? 0) || (ebp <? KERNBASE) || (ebp =? 0xffffffff) then replicate n 0
      else load32 (ebp + 4) m :: pcs_loop n' (load32 ebp m) m
  end.
Definition getcallerpcs (v : Z) (m : mem) : list Z := pcs_loop 10 (u32 (v - 8)) m.

Definition dump_name (s : procstate) : string :=
  match s with
  | UNUSED => "unused"
  | EMBRYO => "embryo"
  | SLEEPING => "sleep "
  | RUNNABLE => "runble"
  | RUNNING => "run   "
  | ZOMBIE => "zombie"
  end.

(** The pcs before the first that is 0. *)
Fixpoint dump_pcs (pcs : list Z) : K unit :=
  match pcs with
  | [] => mret tt
  | pc :: pcs => if pc =? 0 then mret tt else cprintf (bytes " %p") [PInt pc] ;; dump_pcs pcs
  end.

Definition procdump : K unit :=
  for_procs (fun _ p =>
    if bool_decide (p_state p = UNUSED) then mret tt else
    cprintf (bytes "%d %s %s") [PInt (p_pid p); PStr (bytes (dump_name (p_state p))); PStr (cstring (p_name p))] ;;
    (if bool_decide (p_state p = SLEEPING) then
       m ← gets k_mem;
       dump_pcs (getcallerpcs (u32 (ctx_ebp (p_context p) + 8)) m)
     else mret tt) ;;
    cprintf [10] []).
