(* ===== verification/Console.v ===== *)
(** Console input (console.c, prefix_predict.c): line editing, the history of
    commands and its completion, [consoleintr], and the console's [read] and
    [write]. *)

From S2P Require Import Prelude Types Spinlock Proc Sleeplock Bio Log Str Cprintf Fs FsIo Kalloc Vm PrintProcs.

Definition INPUT_BUF : Z := 128.
Definition MAX_COMMAND_NUM : Z := 30.
Definition CONSOLE : Z := 1.

(** [C(x)]: Control-x. *)
Definition Ctrl (c : Z) : Z := c - 64.

Definition get_input : K input := gets k_input.
Definition upd_input (f : input -> input) : K unit := modify (fun k => k <| k_input := f (k_input k) |>).

(** [input.buf[i % INPUT_BUF]] *)
Definition buf_index (i : Z) : nat := Z.to_nat (i mod INPUT_BUF).
Definition buf_char (i : Z) (r : input) : Z := s8 (default 0 (in_buf r !! buf_index i)).
Definition buf_set (i c : Z) : K unit :=
  upd_input (fun r => r <| in_buf := <[buf_index i := u8 c]> (in_buf r) |>).

(** ** Line editing *)

(** The loop of [shift_input_right], one pass for each of the [n] characters
    from [index] on. *)
Fixpoint shift_right_loop (n : nat) (index next_char : Z) : K unit :=
  match n with
  | O => mret tt
  | S n =>
      let temp := next_char in
      r ← get_input;
      let next_char := buf_char (index + 1) r in
      buf_set (index + 1) temp ;;
      r ← get_input;
      consputc (buf_char (index + 1) r) ;;
      shift_right_loop n (index + 1) next_char
  end.

(** [index] is an [int] compared with a [uint]; a difference that is not
    positive makes no pass. *)
Definition passes (index end_ : Z) : nat := Z.to_nat (end_ - u32 index).

Definition shift_input_right : K unit :=
  pos ← get_pos;
  change_pos (pos + 1) ;;
  r ← get_input;
  shift_right_loop (passes (in_e r) (in_end r)) (in_e r) (buf_char (in_e r) r) ;;
  upd_input (fun r => r <| in_end := u32 (in_end r + 1) |>) ;;
  change_pos pos.

Fixpoint shift_left_loop (n : nat) (index : Z) : K unit :=
  match n with
  | O => mret tt
  | S n =>
      r ← get_input;
      buf_set index (buf_char (index + 1) r) ;;
      r ← get_input;
      consputc (buf_char index r) ;;
      shift_left_loop n (index + 1)
  end.

Definition shift_input_left : K unit :=
  pos ← get_pos;
  r ← get_input;
  let index := u32 (in_e r - 1) in
  shift_left_loop (passes index (in_end r)) index ;;
  consputc 32 ;;
  upd_input (fun r => r <| in_end := u32 (in_end r - 1) |>) ;;
  change_pos pos.

Definition go_to_first_of_line : K unit :=
  pos ← get_pos;
  let change := Z.rem pos 80 - 2 in
  upd_input (fun r => r <| in_e := u32 (in_e r - change) |>) ;;
  change_pos (pos - change).

Definition is_num (c : Z) : bool := (48 <=? c) && (c <=? 57).

Definition back_space : K unit :=
  r ← get_input;
  if in_e r =? in_w r then mret tt else
  consputc BACKSPACE ;;
  shift_input_left ;;
  upd_input (fun r => r <| in_e := u32 (in_e r - 1) |>).

(** Each pass moves [input.e] down towards [input.w]; the buffer has
    [INPUT_BUF] characters. *)
Fixpoint kill_line_loop (fuel : nat) : K unit :=
  r ← get_input;
  if (in_e r =? in_w r) || (buf_char (u32 (in_e r - 1)) r =? NL) then mret tt else
  match fuel with
  | O => undef "kill_line: fuel"
  | S fuel => back_space ;; kill_line_loop fuel
  end.
Definition kill_line : K unit :=
  r ← get_input; kill_line_loop (Z.to_nat (u32 (in_e r - in_w r))).

(** Each pass moves [input.e] up or [input.end] down. *)
Fixpoint delete_num_loop (fuel : nat) : K unit :=
  r ← get_input;
  if in_e r <? in_end r then
    match fuel with
    | O => undef "delete_num_of_line: fuel"
    | S fuel =>
        pos ← get_pos;
        (if is_num (buf_char (in_e r) r) then
           pos ← get_pos;
           change_pos (pos + 1) ;;
           upd_input (fun r => r <| in_e := u32 (in_e r + 1) |>) ;;
           consputc BACKSPACE ;;
           shift_input_left ;;
           upd_input (fun r => r <| in_e := u32 (in_e r - 1) |>)
         else
           buf_set (in_e r) (buf_char (in_e r) r) ;;
           consputc (buf_char (in_e r) r) ;;
           change_pos (pos + 1) ;;
           upd_input (fun r => r <| in_e := u32 (in_e r + 1) |>)) ;;
        delete_num_loop fuel
    end
  else mret tt.

Definition delete_num_of_line : K unit :=
  go_to_first_of_line ;;
  r ← get_input;
  delete_num_loop (Z.to_nat (in_end r - in_e r)).

(** ** The string at [input.buf + input.w] *)

(** [key = input.buf + input.w]: [input.w] counts all characters ever
    committed and is not reduced modulo the size of the buffer. *)
Definition get_key : K (list Z) :=
  r ← get_input;
  let l := drop (Z.to_nat (in_w r)) (in_buf r) in
  n ← deref "reads past the end of input.buf" (nul_at l);
  mret (take n l).

(** Appending the characters of a word at the cursor. *)
Definition put_word (l : list Z) : K unit :=
  for_each l (fun c =>
    r ← get_input;
    buf_set (in_e r) c ;;
    consputc (s8 c) ;;
    upd_input (fun r => r <| in_e := u32 (in_e r + 1) |> <| in_end := u32 (in_end r + 1) |>)).

Definition print_word (key : list Z) : K unit :=
  n ← deref "reads past the end of temp" (nul_at key);
  kill_line ;;
  put_word (take (n - 1) key).

Definition print_word_reverse (key : list Z) : K unit :=
  kill_line ;; put_word (rev key).

Definition reverse_line : K unit := key ← get_key; print_word_reverse key.

(** ** prefix_predict.c *)

(** [starts_with(key, command)] of prefix_predict.c with the two strings
    placed apart. *)
Definition key_starts (key cmd : list Z) : bool :=
  match starts_with 129 0 4096 (store_bytes 0 (key ++ [0]) (store_bytes 4096 cmd (fun _ => 0))) with
  | Some v => negb (v =? 0)
  | None => false
  end.

Definition get_command (i : Z) : K (list Z) :=
  r ← get_input; deref "command[i]" (in_commands r !! Z.to_nat i).

(** [stringcpy] copies up to and with the NUL.  The parameter [size_command]
    of [update_history] hides the global of this name, which stays. *)
Definition update_history (inp : list Z) : K unit :=
  upd_input (fun r =>
    let n := Z.to_nat (Z.rem (in_command_num r) MAX_COMMAND_NUM) in
    r <| in_commands := alter (fun old => inp ++ [0] ++ drop (S (length inp)) old) n (in_commands r) |>
      <| in_command_num := s32 (in_command_num r + 1) |>).

(** The [while] of [predict_in_command_list]: all the places of the history,
    from [i] round to the one before it. *)
Fixpoint predict_ring (n : nat) (i : Z) (key : list Z) (index : Z) : K Z :=
  match n with
  | O => mret index
  | S n =>
      cmd ← get_command i;
      let index := if key_starts key cmd then i else index in
      predict_ring n (if i + 1 =? MAX_COMMAND_NUM then 0 else i + 1) key index
  end.

(** The [else] belongs to the [if] inside the [for]. *)
Definition predict_in_command_list : K Z :=
  key ← get_key;
  r ← get_input;
  if in_size_command r <? MAX_COMMAND_NUM then
    (fix go (n : nat) (index : Z) : K Z :=
       let i := Z.of_nat n in
       cmd ← get_command i;
       index ← (if key_starts key cmd then mret i
                else r ← get_input;
                     predict_ring (Z.to_nat MAX_COMMAND_NUM) (Z.rem (in_command_num r) MAX_COMMAND_NUM) key index);
       match n with
       | O => mret index
       | S n => go n index
       end) (Z.to_nat (in_size_command r)) (-1)
  else mret (-1).

Definition predict_process : K unit :=
  index ← predict_in_command_list;
  if negb (index =? -1) then cmd ← get_command index; print_word cmd else mret tt.

(** ** consoleintr *)

(** The line is complete. *)
Definition cons_commit : K unit :=
  key ← get_key;
  update_history key ;;
  upd_input (fun r => r <| in_size_command := s32 (in_size_command r + 1) |>) ;;
  upd_input (fun r => r <| in_command_num := s32 (in_command_num r + 1) |>) ;;
  upd_input (fun r => r <| in_e := in_end r |>) ;;
  upd_input (fun r => r <| in_w := in_e r |>) ;;
  wakeup Ch_input_r.

(** A key that is not a command. *)
Definition cons_key (c : Z) : K unit :=
  r ← get_input;
  if negb (c =? 0) && (u32 (in_e r - in_r r) <? INPUT_BUF) then
    let c := if c =? 13 then NL else c in
    (if (c =? NL) || (c =? Ctrl 68) then
       buf_set (in_end r) c ;;
       upd_input (fun r => r <| in_end := u32 (in_end r + 1) |>)
     else
       shift_input_right ;;
       r ← get_input;
       buf_set (in_e r) c ;;
       upd_input (fun r => r <| in_e := u32 (in_e r + 1) |>)) ;;
    consputc c ;;
    r ← get_input;
    if (c =? NL) || (c =? Ctrl 68) || (in_e r =? u32 (in_r r + INPUT_BUF)) then cons_commit else mret tt
  else mret tt.

Definition cons_char (c : Z) : K unit :=
  if c =? Ctrl 80 then mret tt
  else if c =? Ctrl 85 then kill_line
  else if (c =? Ctrl 72) || (c =? 127) then back_space
  else if c =? Ctrl 78 then delete_num_of_line
  else if c =? Ctrl 82 then reverse_line
  else if c =? 9 then predict_process
  else cons_key c.

(** [cs] is what [getc] returns, up to the first negative value. *)
Definition consoleintr (cs : list Z) : K unit :=
  acquire L_cons ;;
  for_each cs cons_char ;;
  release L_cons ;;
  if existsb (fun c => c =? Ctrl 80) cs then procdump else mret tt.

(** ** read and write *)

(** Waiting for a line, with the console's lock; [false] when killed.  Each
    pass uses a time slice. *)
Fixpoint wait_line (fuel : nat) : K bool :=
  r ← get_input;
  if negb (in_r r =? in_w r) then mret true else
  match fuel with
  | O => undef "consoleread: fuel"
  | S fuel =>
      i ← curproc;
      p ← get_proc i;
      if negb (p_killed p =? 0) then release L_cons ;; mret false else
      sleep Ch_input_r (Some L_cons) ;;
      wait_line fuel
  end.
Definition await_line : K bool := fun k e => wait_line (S (length e)) k e.

(** The characters read, with [false] when killed.  [n] are left, [first]
    when none has been read yet. *)
Fixpoint consoleread_loop (n : nat) (first : bool) : K (bool * list Z) :=
  match n with
  | O => mret (true, [])
  | S n =>
      ok ← await_line;
      if negb ok then mret (false, []) else
      r ← get_input;
      let c := buf_char (in_r r) r in
      upd_input (fun r => r <| in_r := u32 (in_r r + 1) |>) ;;
      if c =? Ctrl 68 then
        (if first then mret tt else upd_input (fun r => r <| in_r := u32 (in_r r - 1) |>)) ;;
        mret (true, [])
      else if c =? NL then mret (true, [u8 c])
      else
        rest ← consoleread_loop n false;
        mret (fst rest, u8 c :: snd rest)
  end.

Definition consoleread (ip : nat) (n : Z) : K (Z * list Z) :=
  iunlock (Some ip) ;;
  acquire L_cons ;;
  l ← consoleread_loop (Z.to_nat n) true;
  if negb (fst l) then ilock (Some ip) ;; mret (-1, snd l) else
  release L_cons ;;
  ilock (Some ip) ;;
  mret (Z.of_nat (length (snd l)), snd l).

Definition consolewrite (ip : nat) (buf : list Z) (n : Z) : K Z :=
  iunlock (Some ip) ;;
  acquire L_cons ;;
  for_each (take (Z.to_nat n) buf) (fun c => consputc (Z.land c 255)) ;;
  release L_cons ;;
  ilock (Some ip) ;;
  mret n.

(** [devsw] after [consoleinit]. *)
#[export] Instance console_devsw : Devsw := {
  dev_read := fun major => if major =? CONSOLE then Some consoleread else None;
  dev_write := fun major => if major =? CONSOLE then Some consolewrite else None
}.

Definition consoleinit : K unit :=
  modify (fun k => k <| k_cons := k_cons k <| cons_locking := true |> |>).
