(* ===== verification/Kbd.v ===== *)
(** The keyboard (kbd.c, kbd.h) and the serial port's receiver (uart.c). *)

From S2P Require Import Prelude Types Spinlock Proc Sleeplock Bio Log Str Cprintf Fs FsIo Kalloc Vm PrintProcs Console.

Definition SHIFT : Z := 1.
Definition CTL : Z := 2.
Definition ALT : Z := 4.
Definition CAPSLOCK : Z := 8.
Definition NUMLOCK : Z := 16.
Definition SCROLLLOCK : Z := 32.
Definition E0ESC : Z := 64.

Definition shiftcode (d : Z) : Z :=
  if (d =? 0x1D) || (d =? 0x9D) then CTL
  else if (d =? 0x2A) || (d =? 0x36) then SHIFT
  else if (d =? 0x38) || (d =? 0xB8) then ALT
  else 0.

Definition togglecode (d : Z) : Z :=
  if d =? 0x3A then CAPSLOCK
  else if d =? 0x45 then NUMLOCK
  else if d =? 0x46 then SCROLLLOCK
  else 0.

(** The entries from 0x80 on that the three maps share. *)
Definition keypad (d : Z) : Z :=
  if d =? 0xC8 then 0xE2 else if d =? 0xD0 then 0xE3
  else if d =? 0xC9 then 0xE6 else if d =? 0xD1 then 0xE7
  else if d =? 0xCB then 0xE4 else if d =? 0xCD then 0xE5
  else if d =? 0x97 then 0xE0 else if d =? 0xCF then 0xE1
  else if d =? 0xD2 then 0xE8 else if d =? 0xD3 then 0xE9
  else 0.

(** Scan codes 0x37 to 0x57, in [normalmap] and [shiftmap]. *)
Definition keypad_row : list Z :=
  bytes "*" ++ [0] ++ bytes " " ++ replicate 13 0 ++ bytes "789-456+1230." ++ replicate 4 0.

Definition normal_row : list Z :=
  [0; 0x1B] ++ bytes "1234567890-=" ++ [8; 9] ++ bytes "qwertyuiop[]" ++ [10; 0] ++ bytes "asdfghjkl;'`"
    ++ [0] ++ bytes "\zxcvbnm,./" ++ [0] ++ keypad_row.
Definition shift_row : list Z :=
  [0; 0x1B] ++ bytes "!@#$%^&*()_+" ++ [8; 9] ++ bytes "QWERTYUIOP{}" ++ [10; 0] ++ bytes "ASDFGHJKL:"
    ++ [34; 126; 0] ++ bytes "|ZXCVBNM<>?" ++ [0] ++ keypad_row.
Definition ctl_row : list Z :=
  replicate 16 0 ++ map Ctrl (bytes "QWERTYUIOP") ++ [0; 0; 13; 0] ++ map Ctrl (bytes "ASDFGHJKL")
    ++ [0; 0; 0; 0] ++ map Ctrl (bytes "\ZXCVBNM") ++ [0; 0; u8 (Ctrl 47); 0; 0].

Definition key_map (row : list Z) (enter div d : Z) : Z :=
  if d =? 0x9C then enter else if d =? 0xB5 then div
  else match row !! Z.to_nat d with Some c => c | None => keypad d end.

Definition normalmap : Z -> Z := key_map normal_row 10 47.
Definition shiftmap : Z -> Z := key_map shift_row 10 47.
Definition ctlmap : Z -> Z := key_map ctl_row 13 (u8 (Ctrl 47)).

Definition charcode (m : Z) : Z -> Z :=
  if m =? 0 then normalmap else if m =? 1 then shiftmap else ctlmap.

(** The character and the new [shift] for one byte from the controller. *)
Definition kbd_byte (shift data : Z) : Z * Z :=
  if data =? 0xE0 then (0, Z.lor shift E0ESC) else
  if negb (Z.land data 0x80 =? 0) then
    let data := if negb (Z.land shift E0ESC =? 0) then data else Z.land data 0x7F in
    (0, Z.land shift (Z.lnot (Z.lor (shiftcode data) E0ESC)))
  else
    let '(data, shift) := if negb (Z.land shift E0ESC =? 0)
      then (Z.lor data 0x80, Z.land shift (Z.lnot E0ESC)) else (data, shift) in
    let shift := Z.lor shift (shiftcode data) in
    let shift := Z.lxor shift (togglecode data) in
    let c := charcode (Z.land shift (Z.lor CTL SHIFT)) data in
    let c := if negb (Z.land shift CAPSLOCK =? 0) then
               (if (97 <=? c) && (c <=? 122) then c - 32
                else if (65 <=? c) && (c <=? 90) then c + 32 else c)
             else c in
    (c, shift).

(** Successive calls of [kbdgetc], until the buffer of the controller is
    empty and it returns -1. *)
Fixpoint kbd_bytes (shift : Z) (ds : list Z) : list Z * Z :=
  match ds with
  | [] => ([], shift)
  | d :: ds =>
      let '(c, shift) := kbd_byte shift d in
      let '(cs, shift) := kbd_bytes shift ds in
      (c :: cs, shift)
  end.

Definition kbdintr (ds : list Z) : K unit :=
  r ← get_input;
  let '(cs, shift) := kbd_bytes (in_shift r) ds in
  upd_input (fun r => r <| in_shift := shift |>) ;;
  consoleintr cs.

(** [uartgetc] returns the bytes in the receiver, if there is a port. *)
Definition uartintr (ds : list Z) : K unit :=
  u ← gets (fun k => cons_uart (k_cons k));
  consoleintr (if (u : bool) then ds else []).

(** ** What is typed is what the maps say *)

(** A check over all states of [shift] and all scan codes. *)
Lemma kbd_forall (f g : Z -> Z -> Z) n m :
  forallb (fun s => forallb (fun d => f s d =? g s d) (seqZ 0 m)) (seqZ 0 n) = true ->
  forall s d, 0 <= s < n -> 0 <= d < m -> f s d = g s d.
Proof.
  intros E s d Hs Hd. rewrite forallb_forall in E.
  assert (In s (seqZ 0 n)) as Is by (apply list_elem_of_In, elem_of_seqZ; lia).
  specialize (E s Is). rewrite forallb_forall in E.
  assert (In d (seqZ 0 m)) as Id by (apply list_elem_of_In, elem_of_seqZ; lia).
  exact (proj1 (Z.eqb_eq _ _) (E d Id)).
Qed.

(** The keyboard state after a key was pressed and released again, with
    or without the E0 prefix on both: no key is left half-decoded (the E0 bit
    is clear), the modifier that the key stands for is not held, every other
    modifier is as before, and the lock bits changed by what the key toggles.
    So no sequence of complete key strokes leaves Shift, Control or Alt
    stuck. *)
Theorem kbd_stroke_restores shift d e0 :
  0 <= shift < 64 -> 0 <= d < 0x60 ->
  let ds := if e0 : bool then [0xE0; d; 0xE0; Z.lor d 0x80] else [d; Z.lor d 0x80] in
  let code := if e0 then Z.lor d 0x80 else d in
  snd (kbd_bytes shift ds) = Z.lxor (Z.land shift (Z.lnot (shiftcode code))) (togglecode code).
Proof.
  intros Hs Hd. destruct e0; revert shift d Hs Hd.
  - apply (kbd_forall (fun s d => snd (kbd_bytes s [0xE0; d; 0xE0; Z.lor d 0x80]))
      (fun s d => Z.lxor (Z.land s (Z.lnot (shiftcode (Z.lor d 0x80)))) (togglecode (Z.lor d 0x80)))).
    vm_compute. reflexivity.
  - apply (kbd_forall (fun s d => snd (kbd_bytes s [d; Z.lor d 0x80]))
      (fun s d => Z.lxor (Z.land s (Z.lnot (shiftcode d))) (togglecode d))).
    vm_compute. reflexivity.
Qed.

Lemma kbd_stroke_restores_witness :
  snd (kbd_bytes (Z.lor CTL SHIFT) [0x2A; Z.lor 0x2A 0x80]) = CTL /\
  snd (kbd_bytes 0 [0x3A; Z.lor 0x3A 0x80]) = CAPSLOCK.
Proof.
  split.
  - rewrite (kbd_stroke_restores (Z.lor CTL SHIFT) 0x2A false) by (vm_compute; split; congruence). reflexivity.
  - rewrite (kbd_stroke_restores 0 0x3A false) by lia. reflexivity.
Defined.
