(* ===== verification/Edit.v ===== *)
(** The line editor of the console (console.c): while the buffer has room, the
    keys typed edit one line, and the line a newline commits is the one that a
    reader gets.  The screen position matters only to Control-N. *)

From S2P Require Import Prelude Types Spinlock Proc Sleeplock Bio Log Str Cprintf Fs FsIo Kalloc Vm PrintProcs Console.

(** ** Running the editor

    The editing routines change the input buffer and the screen only. *)

Definition put (r : input) (d : console) (k : kernel) : kernel := k <| k_input := r |> <| k_cons := d |>.

Lemma put_self k : put (k_input k) (k_cons k) k = k.
Proof. by destruct k. Qed.

(** [m], from the input [r] and the screen [d], returns with [Q]. *)
Definition wp {A} (m : K A) (r : input) (d : console) (Q : A -> input -> console -> Prop) : Prop :=
  forall k e, exists a r' d', m (put r d k) e = Ret a (put r' d' k) e /\ Q a r' d'.

Lemma wp_ret {A} (a : A) r d (Q : A -> input -> console -> Prop) : Q a r d -> wp (mret a) r d Q.
Proof. intros HQ k e. by exists a, r, d. Qed.
Lemma wp_bind {A B} (m : K A) (f : A -> K B) r d Q :
  wp m r d (fun a r' d' => wp (f a) r' d' Q) -> wp (m ≫= f) r d Q.
Proof.
  intros Hm k e. destruct (Hm k e) as (a & r1 & d1 & E & Hf). destruct (Hf k e) as (b & r2 & d2 & E2 & HQ).
  exists b, r2, d2. by rewrite (bind_Ret _ _ _ _ _ _ _ E), E2.
Qed.
Lemma wp_mono {A} (m : K A) r d (Q Q' : A -> input -> console -> Prop) :
  wp m r d Q -> (forall a r' d', Q a r' d' -> Q' a r' d') -> wp m r d Q'.
Proof. intros Hm HQ k e. destruct (Hm k e) as (a & r' & d' & E & H). eauto 10. Qed.

Lemma wp_get_input r d (Q : input -> input -> console -> Prop) : Q r r d -> wp get_input r d Q.
Proof. intros HQ k e. by exists r, r, d. Qed.
Lemma wp_upd_input f r d (Q : unit -> input -> console -> Prop) : Q tt (f r) d -> wp (upd_input f) r d Q.
Proof. intros HQ k e. by exists tt, (f r), d. Qed.
Lemma wp_buf_set i c r d (Q : unit -> input -> console -> Prop) :
  Q tt (r <| in_buf := <[buf_index i := u8 c]> (in_buf r) |>) d -> wp (buf_set i c) r d Q.
Proof. apply wp_upd_input. Qed.
Lemma wp_get_pos r d (Q : Z -> input -> console -> Prop) : Q (cons_pos d) r d -> wp get_pos r d Q.
Proof. intros HQ k e. by exists (cons_pos d), r, d. Qed.
Lemma wp_change_pos pos r d (Q : unit -> input -> console -> Prop) :
  Q tt r (d <| cons_pos := u8 (Z.shiftr pos 8) * 256 + u8 pos |>) -> wp (change_pos pos) r d Q.
Proof. intros HQ k e. by do 3 eexists. Qed.
Lemma wp_consputc c r d (Q : unit -> input -> console -> Prop) :
  cons_ok d -> Q tt r (cons_put d c) -> wp (consputc c) r d Q.
Proof. intros Hd HQ k e. exists tt, r, (cons_put d c). by rewrite consputc_run. Qed.

Lemma moved_ok d d' pos : cons_ok d -> cons_ok d' -> pos = cons_pos d ->
  d' <| cons_pos := u8 (Z.shiftr pos 8) * 256 + u8 pos |> = d' <| cons_pos := cons_pos d |> /\
  cons_ok (d' <| cons_pos := cons_pos d |>).
Proof.
  intros [Hl Hp Hv] [Hl' Hp' Hv'] ->. rewrite pos_encode by done. split; [done|]. by split.
Qed.

(** ** The line in the buffer *)

(** The input with [pre] committed and [l] typed: the cursor is at the end of
    the line and the rest of the buffer is zero. *)
Definition line_at (pre l : list Z) (r : input) : input :=
  r <| in_buf := pre ++ l ++ replicate (128 - (length pre + length l)) 0 |>
    <| in_e := Z.of_nat (length pre + length l) |> <| in_end := Z.of_nat (length pre + length l) |>.

(** The indices of the reader and of the line in [r]. *)
Definition opened (pre : list Z) (r : input) : Prop := in_w r = Z.of_nat (length pre) /\ 0 <= in_r r <= in_w r.

Lemma buf_index_small i : (i < 128)%nat -> buf_index (Z.of_nat i) = i.
Proof. intros. unfold buf_index, INPUT_BUF. rewrite Z.mod_small by lia. lia. Qed.

(** Replacing the element after [l1]. *)
Lemma insert_middle (l1 l2 : list Z) x y i : i = length l1 -> <[i := y]> (l1 ++ x :: l2) = l1 ++ y :: l2.
Proof. intros ->. rewrite insert_app_r_alt, Nat.sub_diag by lia. done. Qed.
Lemma lookup_middle_eq (l1 l2 : list Z) x i : i = length l1 -> (l1 ++ x :: l2) !! i = Some x.
Proof. intros ->. apply list_lookup_middle. done. Qed.

Lemma u8_s8 c : 0 <= c < 256 -> u8 (s8 c) = c.
Proof.
  intros. unfold u8, s8. destruct (decide (c < 128)).
  - rewrite (Z.mod_small (c + 2 ^ 7)) by lia. rewrite Z.mod_small; lia.
  - replace (c + 2 ^ 7) with (c - 128 + 1 * 2 ^ 8) by lia. rewrite Z.mod_add, (Z.mod_small (c - 128)) by lia.
    replace (c - 128 - 2 ^ 7) with (c + (-1) * 2 ^ 8) by lia. rewrite Z.mod_add, Z.mod_small; lia.
Qed.

(** ** Moving the rest of the line *)

(** The loop of [shift_input_left] takes out the element before [b]. *)
Lemma shift_left_loop_wp a x b z r d (Q : unit -> input -> console -> Prop) :
  in_buf r = a ++ x :: b ++ 0 :: z -> (length a + length b < 127)%nat -> Forall (fun c => 0 <= c < 256) b ->
  cons_ok d ->
  (forall d', cons_ok d' -> Q tt (r <| in_buf := a ++ b ++ 0 :: 0 :: z |>) d') ->
  wp (shift_left_loop (S (length b)) (Z.of_nat (length a))) r d Q.
Proof.
  revert a x r d. induction b as [|y b IH]; intros a x r d Hb Hlen Hbytes Hd HQ; cbn [length];
    [|set (n := S (length b))]; cbn [shift_left_loop].
  all: apply wp_bind, wp_get_input, wp_bind, wp_buf_set, wp_bind, wp_get_input, wp_bind, wp_consputc; [done|].
  all: unfold buf_char; rewrite Hb; rsimpl.
  - rewrite (buf_index_small (length a)) by (simpl in Hlen; lia).
    replace (Z.of_nat (length a) + 1) with (Z.of_nat (length (a ++ [x]))) by (rewrite length_app; simpl; lia).
    rewrite buf_index_small by (rewrite length_app; simpl in *; lia).
    change (a ++ x :: [] ++ 0 :: z) with (a ++ [x] ++ 0 :: z). rewrite (app_assoc a), lookup_middle_eq by done.
    rewrite <- app_assoc. cbn [default from_option id app]. rewrite insert_middle by done. apply wp_ret.
    apply HQ. by apply cons_put_ok.
  - apply Forall_cons in Hbytes as [Hy Hbytes]. simpl in Hlen. rewrite (buf_index_small (length a)) by lia.
    replace (Z.of_nat (length a) + 1) with (Z.of_nat (length (a ++ [y]))) by (rewrite length_app; simpl; lia).
    rewrite buf_index_small by (rewrite length_app; simpl; lia).
    replace (a ++ x :: (y :: b) ++ 0 :: z) with ((a ++ [x]) ++ y :: b ++ 0 :: z) by (by rewrite <- app_assoc).
    rewrite (lookup_middle_eq (a ++ [x])) by (by rewrite !length_app). cbn [default from_option id]. rewrite u8_s8 by done.
    rewrite <- (app_assoc a [x]). cbn [app]. rewrite insert_middle by done.
    apply (IH (a ++ [y]) y); rsimpl; [by rewrite <- app_assoc|rewrite length_app; simpl; lia|done|by apply cons_put_ok|].
    intros d' Hd'. rewrite <- app_assoc. by apply HQ.
Qed.

(** [shift_input_left] takes out the character before the cursor. *)
Lemma shift_input_left_wp a x b z r d (Q : unit -> input -> console -> Prop) :
  in_buf r = a ++ x :: b ++ 0 :: z -> (length a + length b < 127)%nat -> Forall (fun c => 0 <= c < 256) b ->
  in_e r = Z.of_nat (S (length a)) -> in_end r = Z.of_nat (S (length a + length b)) -> cons_ok d ->
  (forall d', cons_ok d' -> cons_pos d' = cons_pos d ->
    Q tt (r <| in_buf := a ++ b ++ 0 :: 0 :: z |> <| in_end := Z.of_nat (length a + length b) |>) d') ->
  wp shift_input_left r d Q.
Proof.
  intros Hb Hlen Hbytes He Hend Hd HQ. unfold shift_input_left.
  apply wp_bind, wp_get_pos, wp_bind, wp_get_input, wp_bind. rewrite He, Hend.
  replace (u32 (Z.of_nat (S (length a)) - 1)) with (Z.of_nat (length a)) by (rewrite u32_small; lia).
  replace (passes _ _) with (S (length b)) by (unfold passes; rewrite u32_small; lia).
  apply (shift_left_loop_wp a x b z); [done..|]. intros d1 Hd1.
  apply wp_bind, wp_consputc; [done|]. apply wp_bind, wp_upd_input, wp_change_pos. rsimpl. rewrite Hend.
  destruct (moved_ok d (cons_put d1 32) (cons_pos d)) as [-> Hok]; [done|by apply cons_put_ok|done|].
  replace (u32 (Z.of_nat (S (length a + length b)) - 1)) with (Z.of_nat (length a + length b)) by (rewrite u32_small; lia).
  by apply HQ.
Qed.

(** ** The keys *)

Lemma back_space_wp pre l x r d (Q : unit -> input -> console -> Prop) :
  opened pre r -> (length pre + length l < 127)%nat -> cons_ok d ->
  (forall d', cons_ok d' -> Q tt (line_at pre l r) d') ->
  wp back_space (line_at pre (l ++ [x]) r) d Q.
Proof.
  intros [Hw _] Hlen Hd HQ. unfold back_space. apply wp_bind, wp_get_input.
  assert (in_e (line_at pre (l ++ [x]) r) =? in_w (line_at pre (l ++ [x]) r) = false) as ->
    by (apply Z.eqb_neq; unfold line_at; rsimpl; rewrite length_app, Hw; simpl; lia).
  apply wp_bind, wp_consputc, wp_bind; [done|].
  assert (128 - (length pre + length (l ++ [x])) = S (126 - (length pre + length l)))%nat as Hn by (rewrite length_app; simpl; lia).
  apply (shift_input_left_wp (pre ++ l) x [] (replicate (126 - (length pre + length l)) 0)); rewrite ?length_app; cbn [length]; [..|intros d' Hd' _]; try (unfold line_at; rsimpl; rewrite ?length_app; cbn [length]; lia).
  - unfold line_at. rsimpl. rewrite Hn, <- !app_assoc. done.
  - constructor.
  - by apply cons_put_ok.
  - apply wp_upd_input. specialize (HQ d' Hd'). unfold line_at in *. rsimpl. rewrite length_app. cbn [length].
    replace (128 - (length pre + length l))%nat with (S (S (126 - (length pre + length l)))) in HQ by lia.
    replace (u32 _) with (Z.of_nat (length pre + length l)) by (rewrite u32_small; lia).
    replace (Z.of_nat (length pre + length l + 0)) with (Z.of_nat (length pre + length l)) by lia.
    rewrite <- app_assoc. exact HQ.
Qed.

Lemma back_space_empty_wp pre r d (Q : unit -> input -> console -> Prop) :
  opened pre r -> Q tt (line_at pre [] r) d -> wp back_space (line_at pre [] r) d Q.
Proof.
  intros [Hw _] HQ. unfold back_space. apply wp_bind, wp_get_input.
  assert (in_e (line_at pre [] r) =? in_w (line_at pre [] r) = true) as ->
    by (apply Z.eqb_eq; unfold line_at; rsimpl; rewrite Hw; simpl; lia).
  by apply wp_ret.
Qed.

(** The characters of a line. *)
Definition plain (c : Z) : Prop := 1 <= c < 256 /\ c <> NL /\ c <> Ctrl 68.

(** The character before the cursor. *)
Lemma last_char pre l x r : (length pre + length l < 128)%nat ->
  buf_char (u32 (in_e (line_at pre (l ++ [x]) r) - 1)) (line_at pre (l ++ [x]) r) = s8 x.
Proof.
  intros Hlen. unfold buf_char, line_at. rsimpl. rewrite length_app. cbn [length].
  replace (u32 _) with (Z.of_nat (length pre + length l)) by (rewrite u32_small; lia). rewrite buf_index_small by lia.
  replace (pre ++ (l ++ [x]) ++ replicate (128 - (length pre + (length l + 1))) 0)
    with ((pre ++ l) ++ x :: replicate (128 - (length pre + (length l + 1))) 0) by (by rewrite <- !app_assoc).
  rewrite lookup_middle_eq by (by rewrite length_app). done.
Qed.

Lemma s8_newline c : 0 <= c < 256 -> s8 c = NL -> c = NL.
Proof. intros Hc E. rewrite <- (u8_s8 c) by done. by rewrite E. Qed.

Lemma kill_line_wp pre l r d (Q : unit -> input -> console -> Prop) :
  opened pre r -> (length pre + length l < 128)%nat -> Forall plain l -> cons_ok d ->
  (forall d', cons_ok d' -> Q tt (line_at pre [] r) d') -> wp kill_line (line_at pre l r) d Q.
Proof.
  intros Hr Hlen Hl Hd HQ. pose proof Hr as [Hw _]. unfold kill_line. apply wp_bind, wp_get_input.
  replace (Z.to_nat _) with (length l) by (unfold line_at; rsimpl; rewrite Hw, u32_small; lia).
  revert d Hd Hlen Hl. induction l as [|x l IH] using rev_ind; intros d Hd Hlen Hl.
  { cbn [length kill_line_loop]. apply wp_bind, wp_get_input. replace (in_e _ =? in_w _) with true.
    { by apply wp_ret, HQ. }
    symmetry. apply Z.eqb_eq. unfold line_at. rsimpl. rewrite Hw. simpl. lia. }
  rewrite length_app in *. cbn [length] in *. rewrite Nat.add_1_r. cbn [kill_line_loop].
  apply Forall_app in Hl as [Hl Hx%Forall_inv]. apply wp_bind, wp_get_input. rewrite last_char by lia.
  replace (in_e _ =? in_w _) with false.
  2: { symmetry. apply Z.eqb_neq. unfold line_at. rsimpl. rewrite Hw, length_app. simpl. lia. }
  destruct (Z.eqb_spec (s8 x) NL) as [E|_]; [apply s8_newline in E; destruct Hx; lia|].
  apply wp_bind, back_space_wp; [done|lia|done|]. intros d' Hd'. apply IH; [done|lia|done].
Qed.

(** A character put at the end of the line. *)
Lemma line_push_buf pre l c : (length pre + length l < 128)%nat ->
  <[(length pre + length l)%nat := c]> (pre ++ l ++ replicate (128 - (length pre + length l)) 0) =
  pre ++ (l ++ [c]) ++ replicate (128 - (length pre + length (l ++ [c]))) 0.
Proof.
  intros Hlen. rewrite (length_app l). cbn [length].
  replace (128 - (length pre + length l))%nat with (S (128 - (length pre + (length l + 1))))%nat by lia.
  cbn [replicate]. rewrite app_assoc, insert_middle by (by rewrite length_app). by rewrite <- !app_assoc.
Qed.

Lemma plain_u8 c : plain c -> u8 c = c.
Proof. intros [Hc _]. apply u8_small. lia. Qed.

Lemma line_index pre l r : (length pre + length l < 128)%nat ->
  buf_index (in_e (line_at pre l r)) = (length pre + length l)%nat /\
  buf_index (in_end (line_at pre l r)) = (length pre + length l)%nat.
Proof. intros Hlen. unfold line_at. rsimpl. rewrite buf_index_small by lia. done. Qed.

Lemma put_word_wp pre l w r d (Q : unit -> input -> console -> Prop) :
  (length pre + length l + length w <= 128)%nat -> Forall plain w -> cons_ok d ->
  (forall d', cons_ok d' -> Q tt (line_at pre (l ++ w) r) d') -> wp (put_word w) (line_at pre l r) d Q.
Proof.
  unfold put_word. revert l d. induction w as [|c w IH]; intros l d Hlen Hw Hd HQ; cbn [for_each].
  { rewrite app_nil_r in HQ. by apply wp_ret, HQ. }
  apply Forall_cons in Hw as [Hc Hw]. cbn [length] in Hlen.
  apply wp_bind, wp_bind, wp_get_input, wp_bind, wp_buf_set, wp_bind, wp_consputc, wp_upd_input; [done|].
  destruct (line_index pre l r) as [-> _]; [lia|]. rewrite plain_u8 by done.
  replace (_ <| in_end := _ |>) with (line_at pre (l ++ [c]) r).
  - apply IH; [rewrite length_app; simpl; lia|done|by apply cons_put_ok|]. by rewrite <- app_assoc.
  - unfold line_at. rsimpl. rewrite line_push_buf by lia. rewrite (length_app l), !u32_small by lia. cbn [length].
    by replace (Z.of_nat (length pre + (length l + 1))) with (Z.of_nat (length pre + length l) + 1) by lia.
Qed.

Lemma wp_deref {A} msg (o : option A) a r d (Q : A -> input -> console -> Prop) :
  o = Some a -> Q a r d -> wp (deref msg o) r d Q.
Proof. intros -> HQ. by apply wp_ret. Qed.

Lemma nul_at_app l z : Forall (fun c => c <> 0) l -> nul_at (l ++ 0 :: z) = Some (length l).
Proof.
  induction 1 as [|c l Hc Hl IH]; cbn; [done|]. rewrite IH. by destruct (Z.eqb_spec c 0).
Qed.
Lemma nul_at_none l : Forall (fun c => c <> 0) l -> nul_at l = None.
Proof. induction 1 as [|c l Hc Hl IH]; cbn; [done|]. rewrite IH. by destruct (Z.eqb_spec c 0). Qed.
Lemma plain_nonzero l : Forall plain l -> Forall (fun c => c <> 0) l.
Proof. intros Hl. eapply Forall_impl; [exact Hl|]. intros c [Hc _]. lia. Qed.

(** The string at [input.buf + input.w]. *)
Lemma get_key_wp pre l z r d (Q : list Z -> input -> console -> Prop) :
  in_w r = Z.of_nat (length pre) -> in_buf r = pre ++ l ++ 0 :: z -> Forall (fun c => c <> 0) l ->
  Q l r d -> wp get_key r d Q.
Proof.
  intros Hw Hb Hl HQ. unfold get_key. apply wp_bind, wp_get_input, wp_bind. rewrite Hw, Hb, Nat2Z.id, drop_app_length.
  eapply wp_deref; [by apply nul_at_app|]. apply wp_ret. by rewrite take_app_length.
Qed.

Lemma line_buf pre l r : (length pre + length l < 128)%nat ->
  in_buf (line_at pre l r) = pre ++ l ++ 0 :: replicate (127 - (length pre + length l)) 0.
Proof.
  intros. unfold line_at. rsimpl. by replace (128 - (length pre + length l))%nat with (S (127 - (length pre + length l))) by lia.
Qed.

Lemma reverse_line_wp pre l r d (Q : unit -> input -> console -> Prop) :
  opened pre r -> (length pre + length l < 128)%nat -> Forall plain l -> cons_ok d ->
  (forall d', cons_ok d' -> Q tt (line_at pre (rev l) r) d') -> wp reverse_line (line_at pre l r) d Q.
Proof.
  intros Hr Hlen Hl Hd HQ. unfold reverse_line, print_word_reverse. apply wp_bind.
  eapply get_key_wp; [apply Hr|by apply line_buf|by apply plain_nonzero|].
  apply wp_bind, kill_line_wp; [done..|]. intros d' Hd'. apply put_word_wp; [rewrite length_rev; simpl; lia|by apply List.Forall_rev|done|done].
Qed.

Lemma shift_input_right_wp pre l r d (Q : unit -> input -> console -> Prop) :
  (length pre + length l < 128)%nat -> cons_ok d ->
  Q tt (line_at pre l r <| in_end := Z.of_nat (length pre + length l) + 1 |>) d ->
  wp shift_input_right (line_at pre l r) d Q.
Proof.
  intros Hlen Hd HQ. unfold shift_input_right.
  apply wp_bind, wp_get_pos, wp_bind, wp_change_pos, wp_bind, wp_get_input, wp_bind.
  replace (passes _ _) with 0%nat by (unfold passes, line_at; rsimpl; rewrite u32_small; lia).
  apply wp_ret, wp_bind, wp_upd_input, wp_change_pos.
  rewrite pos_encode by apply Hd. rsimpl. destruct d. unfold line_at in *. rsimpl. rsimpl in HQ.
  rewrite u32_small by lia. exact HQ.
Qed.

Lemma cons_key_wp pre l c r d (Q : unit -> input -> console -> Prop) :
  opened pre r -> (length pre + length l < 127)%nat -> plain c -> c <> 13 -> c <> Ctrl 68 -> cons_ok d ->
  (forall d', cons_ok d' -> Q tt (line_at pre (l ++ [c]) r) d') -> wp (cons_key c) (line_at pre l r) d Q.
Proof.
  intros [Hw Hr] Hlen [Hc HN] H13 H4 Hd HQ. unfold cons_key. apply wp_bind, wp_get_input.
  replace (negb (c =? 0)) with true by lia.
  replace (_ <? INPUT_BUF) with true by (symmetry; apply Z.ltb_lt; unfold INPUT_BUF, line_at; rsimpl; rewrite u32_small; lia).
  replace (c =? 13) with false by lia. replace (c =? NL) with false by lia. replace (c =? Ctrl 68) with false by lia.
  cbn [andb orb]. apply wp_bind, wp_bind, shift_input_right_wp; [lia|done|].
  apply wp_bind, wp_get_input, wp_bind, wp_buf_set, wp_upd_input, wp_bind, wp_consputc, wp_bind, wp_get_input; [done|].
  destruct (line_index pre l r) as [Hi _]; [lia|].
  replace (_ <| in_e := _ |>) with (line_at pre (l ++ [c]) r).
  2: { unfold line_at in *. rsimpl. rsimpl in Hi. rewrite Hi, line_push_buf, u8_small by lia.
       rewrite (length_app l), u32_small by lia. cbn [length].
       by replace (Z.of_nat (length pre + (length l + 1))) with (Z.of_nat (length pre + length l) + 1) by lia. }
  replace (_ =? _) with false.
  2: { symmetry. apply Z.eqb_neq. unfold line_at, INPUT_BUF. rsimpl. rewrite length_app, u32_small; simpl; lia. }
  by apply wp_ret, HQ, cons_put_ok.
Qed.

(** ** Control-N *)

(** The cursor after [dn], before [todo]. *)
Definition cursor_at (pre dn todo : list Z) (r : input) : input :=
  line_at pre (dn ++ todo) r <| in_e := Z.of_nat (length pre + length dn) |>.

Lemma is_num_s8 c : 0 <= c < 256 -> is_num (s8 c) = is_num c.
Proof.
  intros Hc. unfold is_num, s8. destruct (decide (c < 128)).
  - rewrite Z.mod_small by lia. f_equal; f_equal; lia.
  - replace (c + 2 ^ 7) with (c - 128 + 1 * 2 ^ 8) by lia. rewrite Z.mod_add, Z.mod_small by lia. lia.
Qed.

Lemma cursor_char pre dn c todo r : (length pre + length dn < 128)%nat ->
  buf_char (in_e (cursor_at pre dn (c :: todo) r)) (cursor_at pre dn (c :: todo) r) = s8 c /\
  buf_index (in_e (cursor_at pre dn (c :: todo) r)) = (length pre + length dn)%nat.
Proof.
  intros Hlen. unfold buf_char, cursor_at, line_at. rsimpl. rewrite !buf_index_small by lia. split; [|done].
  rewrite <- app_assoc, app_assoc. cbn [app]. by rewrite lookup_middle_eq by (by rewrite length_app).
Qed.

Lemma cursor_step pre dn c todo r : (length pre + length dn < 128)%nat ->
  cursor_at pre dn (c :: todo) r <| in_e := u32 (in_e (cursor_at pre dn (c :: todo) r) + 1) |> =
  cursor_at pre (dn ++ [c]) todo r.
Proof.
  intros Hlen. unfold cursor_at, line_at. rsimpl. rewrite <- (app_assoc dn [c]), (length_app dn [c]). cbn [length app].
  rewrite u32_small by lia. by replace (Z.of_nat (length pre + (length dn + 1))) with (Z.of_nat (length pre + length dn) + 1) by lia.
Qed.

(** A digit is taken out. *)
Lemma delete_char_wp pre dn c todo r d (Q : unit -> input -> console -> Prop) :
  (length pre + length dn + length todo < 127)%nat -> Forall plain todo -> cons_ok d ->
  (forall d', cons_ok d' -> cons_pos d' = cons_pos d -> Q tt (cursor_at pre dn todo r) d') ->
  wp (shift_input_left ;; upd_input (fun r => r <| in_e := u32 (in_e r - 1) |>)) (cursor_at pre (dn ++ [c]) todo r) d Q.
Proof.
  intros Hlen Hp Hd HQ. apply wp_bind.
  set (n := (126 - (length pre + length dn + length todo))%nat).
  apply (shift_input_left_wp (pre ++ dn) c todo (replicate n 0)).
  - unfold cursor_at, line_at. rsimpl.
    replace (128 - _)%nat with (S n) by (subst n; rewrite !length_app; simpl; lia). by rewrite <- !app_assoc.
  - rewrite length_app. lia.
  - eapply Forall_impl; [exact Hp|]. intros x [Hx _]. lia.
  - unfold cursor_at, line_at. rsimpl. rewrite !length_app. simpl. lia.
  - unfold cursor_at, line_at. rsimpl. rewrite !length_app. simpl. lia.
  - done.
  - intros d' Hd' Hpos. apply wp_upd_input. specialize (HQ d' Hd' Hpos). unfold cursor_at, line_at in *. rsimpl. rsimpl in HQ.
    replace (128 - (length pre + length (dn ++ todo)))%nat with (S (S n)) in HQ by (subst n; rewrite length_app; lia).
    rewrite !length_app in *. cbn [length]. rewrite <- !app_assoc in *.
    replace (u32 _) with (Z.of_nat (length pre + length dn)) by (rewrite u32_small; lia).
    replace (length pre + (length dn + length todo))%nat with (length pre + length dn + length todo)%nat in HQ by lia.
    exact HQ.
Qed.

Lemma put_backspace_pos d : 0 < cons_pos d -> cons_pos (cons_put d BACKSPACE) = cons_pos d - 1.
Proof.
  intros Hp. unfold cons_put. destruct (cons_uart d); unfold cga_put; rewrite Z.eqb_refl; rsimpl;
  by replace (0 <? cons_pos d) with true by lia.
Qed.

Lemma delete_num_loop_wp fuel pre dn todo r d (Q : unit -> input -> console -> Prop) :
  (length todo <= fuel)%nat -> (length pre + length dn + length todo < 128)%nat -> Forall plain todo ->
  cons_ok d -> cons_pos d + Z.of_nat (length todo) < 24 * 80 ->
  (forall d', cons_ok d' -> Q tt (line_at pre (dn ++ filter (fun c => is_num c = false) todo) r) d') ->
  wp (delete_num_loop fuel) (cursor_at pre dn todo r) d Q.
Proof.
  revert fuel dn d. induction todo as [|c todo IH]; intros fuel dn d Hf Hlen Hp Hd Hpos HQ.
  { replace (cursor_at pre dn [] r) with (line_at pre dn r) by (unfold cursor_at, line_at; rsimpl; by rewrite app_nil_r).
    rewrite filter_nil, app_nil_r in HQ.
    destruct fuel; cbn [delete_num_loop]; apply wp_bind, wp_get_input; unfold line_at at 1 2; rsimpl;
      rewrite Z.ltb_irrefl; apply wp_ret, HQ, Hd. }
  apply Forall_cons in Hp as [[Hc HN] Hp]. cbn [length] in *. destruct fuel as [|fuel]; [lia|]. cbn [delete_num_loop].
  apply wp_bind, wp_get_input. destruct (cursor_char pre dn c todo r) as [-> Hi]; [lia|].
  replace (_ <? _) with true.
  2: { symmetry. apply Z.ltb_lt. unfold cursor_at, line_at. rsimpl. rewrite length_app. simpl. lia. }
  apply wp_bind, wp_get_pos, wp_bind. pose proof (cons_cursor d Hd). rewrite is_num_s8 by lia.
  rewrite filter_cons in HQ. destruct (is_num c).
  - apply wp_bind, wp_get_pos, wp_bind, wp_change_pos, wp_bind, wp_upd_input. rewrite pos_encode, cursor_step by lia.
    assert (cons_ok (d <| cons_pos := cons_pos d + 1 |>)) as Hd1 by (by destruct Hd; split; rsimpl; [|lia|]).
    apply wp_bind, wp_consputc; [done|]. apply delete_char_wp; [lia|done|by apply cons_put_ok|]. intros d' Hd' Hpos'.
    rewrite put_backspace_pos in Hpos' by (rsimpl; lia). rsimpl in Hpos'. apply IH; [lia..|done|done|lia|done].
  - apply wp_bind, wp_buf_set, wp_bind, wp_consputc; [done|]. apply wp_bind, wp_change_pos, wp_upd_input. rewrite pos_encode by lia.
    rewrite u8_s8, Hi by lia.
    replace (_ <| in_buf := _ |>) with (cursor_at pre dn (c :: todo) r).
    2: { unfold cursor_at, line_at. rsimpl. rewrite list_insert_id; [done|].
         rewrite <- app_assoc, app_assoc. cbn [app]. by rewrite lookup_middle_eq by (by rewrite length_app). }
    rewrite cursor_step by lia.
    apply IH; rsimpl; [lia|rewrite length_app; simpl; lia|done| |lia|by rewrite <- app_assoc].
    destruct (cons_put_ok (s8 c) d Hd). by split; rsimpl; [|lia|].
Qed.

Lemma delete_num_of_line_wp pre l r d (Q : unit -> input -> console -> Prop) :
  opened pre r -> (length pre + length l < 128)%nat -> Forall plain l -> cons_ok d ->
  cons_pos d mod 80 = 2 + Z.of_nat (length l) ->
  (forall d', cons_ok d' -> Q tt (line_at pre (filter (fun c => is_num c = false) l) r) d') ->
  wp delete_num_of_line (line_at pre l r) d Q.
Proof.
  intros Hr Hlen Hl Hd Hcol HQ. pose proof (cons_cursor d Hd). unfold delete_num_of_line, go_to_first_of_line.
  pose proof (Z.mod_le (cons_pos d) 80 ltac:(lia) ltac:(lia)).
  apply wp_bind, wp_bind, wp_get_pos, wp_bind, wp_upd_input, wp_change_pos, wp_bind, wp_get_input.
  rewrite Z.rem_mod_nonneg, Hcol by lia. replace (2 + Z.of_nat (length l) - 2) with (Z.of_nat (length l)) by lia.
  rewrite pos_encode by lia.
  replace (_ <| in_e := _ |>) with (cursor_at pre [] l r)
    by (unfold cursor_at, line_at; rsimpl; rewrite u32_small by lia; cbn [length app]; f_equal; lia).
  apply delete_num_loop_wp; rsimpl; try done.
  - unfold cursor_at, line_at. rsimpl. simpl. lia.
  - simpl. lia.
  - by destruct Hd; split; rsimpl; [|lia|].
  - lia.
Qed.

(** ** Editing a line *)

(** What a key makes of the line: Control-U, Control-H and DEL, Control-R, or
    a character. *)
Definition edit (l : list Z) (c : Z) : list Z :=
  if c =? Ctrl 85 then []
  else if (c =? Ctrl 72) || (c =? 127) then removelast l
  else if c =? Ctrl 82 then rev l
  else l ++ [c].

(** The keys that edit the line whatever is on the screen or in the history:
    all but newline, return, Control-D, Tab, Control-N and Control-P. *)
Definition edit_key (c : Z) : Prop := 1 <= c < 256 /\ c ∉ [NL; 13; Ctrl 68; 9; Ctrl 78; Ctrl 80].

Lemma edit_plain l c : edit_key c -> Forall plain l -> Forall plain (edit l c) /\ (length (edit l c) <= S (length l))%nat.
Proof.
  intros [Hc Hn] Hl. unfold edit.
  destruct (c =? Ctrl 85); [split; [constructor|simpl; lia]|].
  destruct ((c =? Ctrl 72) || (c =? 127)).
  { destruct l as [|x l _] using rev_ind; [split; [constructor|simpl; lia]|].
    rewrite removelast_last, length_app. apply Forall_app in Hl as [Hl _]. split; [done|lia]. }
  destruct (c =? Ctrl 82); [rewrite length_rev; split; [by apply List.Forall_rev|lia]|].
  rewrite length_app. split; [|simpl; lia]. apply Forall_app. split; [done|]. constructor; [|constructor].
  split; [lia|set_solver].
Qed.

Lemma cons_char_wp pre l c r d (Q : unit -> input -> console -> Prop) :
  opened pre r -> (length pre + length l < 127)%nat -> Forall plain l -> edit_key c -> cons_ok d ->
  (forall d', cons_ok d' -> Q tt (line_at pre (edit l c) r) d') -> wp (cons_char c) (line_at pre l r) d Q.
Proof.
  intros Hr Hlen Hl [Hc Hn] Hd HQ. rewrite !not_elem_of_cons in Hn. destruct Hn as (H1 & H2 & H3 & H4 & H5 & H6 & _).
  unfold cons_char, edit in *. destruct (Z.eqb_spec c (Ctrl 80)); [done|].
  destruct (c =? Ctrl 85). { apply kill_line_wp; try done. lia. }
  destruct ((c =? Ctrl 72) || (c =? 127)).
  { destruct l as [|x l _] using rev_ind; [by apply back_space_empty_wp; auto|].
    rewrite removelast_last in HQ. rewrite length_app in Hlen. apply back_space_wp; try done. simpl in Hlen. lia. }
  destruct (Z.eqb_spec c (Ctrl 78)); [done|].
  destruct (c =? Ctrl 82). { apply reverse_line_wp; try done. lia. }
  destruct (Z.eqb_spec c 9); [done|]. by apply cons_key_wp.
Qed.

Lemma keys_wp pre l ks r d (Q : unit -> input -> console -> Prop) :
  opened pre r -> (length pre + length l + length ks <= 127)%nat -> Forall plain l -> Forall edit_key ks -> cons_ok d ->
  (forall d', cons_ok d' -> Q tt (line_at pre (fold_left edit ks l) r) d') ->
  wp (for_each ks cons_char) (line_at pre l r) d Q.
Proof.
  intros Hr Hlen Hl Hks Hd HQ. revert l d Hlen Hl Hd HQ.
  induction Hks as [|c ks Hc Hks IH]; intros l d Hlen Hl Hd HQ; cbn [for_each fold_left length] in *; [by apply wp_ret, HQ|].
  destruct (edit_plain l c Hc Hl) as [Hp He].
  apply wp_bind, cons_char_wp; [done|lia|done..|]. intros d' Hd'. apply IH; [lia|done..].
Qed.

Lemma keys_plain ks l : Forall edit_key ks -> Forall plain l ->
  Forall plain (fold_left edit ks l) /\ (length (fold_left edit ks l) <= length l + length ks)%nat.
Proof.
  intros Hks. revert l. induction Hks as [|c ks Hc Hks IH]; intros l Hl; cbn [fold_left length]; [split; [done|lia]|].
  destruct (edit_plain l c Hc Hl) as [Hp He]. destruct (IH _ Hp). split; [done|lia].
Qed.

(** ** Committing the line *)

(** The input after a newline: the line and the newline are there for the
    reader, and the history has the string. *)
Definition commit_line (pre l : list Z) (r : input) : input :=
  line_at (pre ++ l ++ [NL]) []
    (r <| in_w := Z.of_nat (length (pre ++ l ++ [NL])) |>
       <| in_commands := alter (fun old => (l ++ [NL]) ++ [0] ++ drop (S (length (l ++ [NL]))) old)
            (Z.to_nat (Z.rem (in_command_num r) MAX_COMMAND_NUM)) (in_commands r) |>
       <| in_command_num := s32 (s32 (in_command_num r + 1) + 1) |>
       <| in_size_command := s32 (in_size_command r + 1) |>).

(** [m] continues as [m'] does. *)
Definition continues (m : K unit) (r : input) (d : console) (m' : K unit) (Q : input -> console -> Prop) : Prop :=
  forall k e, exists r' d', m (put r d k) e = m' (put r' d' k) e /\ Q r' d'.

Lemma continues_here m r d (Q : input -> console -> Prop) : Q r d -> continues m r d m Q.
Proof. intros HQ k e. by exists r, d. Qed.
Lemma continues_bind {A} (m : K A) (f : A -> K unit) r d m' Q :
  wp m r d (fun a r' d' => continues (f a) r' d' m' Q) -> continues (m ≫= f) r d m' Q.
Proof.
  intros Hm k e. destruct (Hm k e) as (a & r1 & d1 & E & Hf). destruct (Hf k e) as (r2 & d2 & E2 & HQ).
  exists r2, d2. by rewrite (bind_Ret _ _ _ _ _ _ _ E).
Qed.

(** A newline goes to the end of the line, and the line is complete. *)
Definition newline_at (pre l : list Z) (r : input) : input :=
  line_at pre l r <| in_buf := in_buf (line_at pre (l ++ [NL]) r) |> <| in_end := Z.of_nat (length pre + length l) + 1 |>.

Lemma newline_continues pre l c r d : opened pre r -> (length pre + length l < 128)%nat ->
  c = NL \/ c = 13 -> cons_ok d ->
  continues (cons_char c) (line_at pre l r) d cons_commit (fun r' d' => r' = newline_at pre l r /\ cons_ok d').
Proof.
  intros [Hw Hrr] Hlen Hc Hd.
  replace (cons_char c) with (cons_key c) by (by destruct Hc as [-> | ->]).
  unfold cons_key. apply continues_bind, wp_get_input.
  replace (if c =? 13 then NL else c) with NL by (by destruct Hc as [-> | ->]).
  replace (negb (c =? 0)) with true by (by destruct Hc as [-> | ->]).
  replace (_ <? INPUT_BUF) with true by (symmetry; apply Z.ltb_lt; unfold INPUT_BUF, line_at; rsimpl; rewrite u32_small; lia).
  rewrite Z.eqb_refl. cbn [andb orb].
  apply continues_bind, wp_bind, wp_buf_set, wp_upd_input, continues_bind, wp_consputc, continues_bind, wp_get_input, continues_here; [done|].
  destruct (line_index pre l r) as [_ ->]; [lia|]. split; [|by apply cons_put_ok].
  unfold newline_at, line_at. rsimpl. change (u8 NL) with NL. by rewrite line_push_buf, u32_small by lia.
Qed.

Lemma commit_continues pre l r d : opened pre r -> (length pre + length l < 127)%nat -> Forall plain l ->
  continues cons_commit (newline_at pre l r) d (wakeup Ch_input_r) (fun r' d' => r' = commit_line pre l r /\ d' = d).
Proof.
  intros [Hw Hrr] Hlen Hl. unfold cons_commit. apply continues_bind.
  eapply (get_key_wp pre (l ++ [NL])); [exact Hw|unfold newline_at; rsimpl; apply line_buf; rewrite length_app; simpl; lia| |].
  { apply Forall_app. split; [by apply plain_nonzero|by repeat constructor]. }
  apply continues_bind, wp_upd_input. do 4 apply continues_bind, wp_upd_input. apply continues_here.
  split; [|done]. unfold commit_line, newline_at, line_at. rsimpl.
  rewrite !length_app. cbn [length]. rewrite Nat.add_0_r, <- !app_assoc.
  by replace (Z.of_nat (length pre + (length l + 1))) with (Z.of_nat (length pre + length l) + 1) by lia.
Qed.

(** ** Reading the line *)

Lemma read_char_run n first k e pre c z :
  let r := k_input k in
  in_buf r = pre ++ c :: z -> in_r r = Z.of_nat (length pre) -> (length pre < 128)%nat -> in_r r <> in_w r -> plain c \/ c = NL ->
  consoleread_loop (S n) first k e =
    (if c =? NL then mret (true, [NL]) else rest ← consoleread_loop n false; mret (fst rest, c :: snd rest))
      (k <| k_input := k_input k <| in_r := Z.of_nat (S (length pre)) |> |>) e.
Proof.
  intros r Hb Hr Hlen Hne Hc. subst r. cbn [consoleread_loop].
  assert (await_line k e = Ret true k e) as Hwait.
  { unfold await_line. cbn [wait_line]. unfold get_input. mrun. by replace (in_r _ =? in_w _) with false by (symmetry; by apply Z.eqb_neq). }
  rewrite (bind_Ret _ _ _ _ _ _ _ Hwait). cbn [negb]. unfold get_input, upd_input. mrun.
  unfold buf_char. rewrite Hr, buf_index_small, Hb, lookup_middle_eq by done. cbn [default from_option id].
  assert (0 <= c < 256) as Hc8 by (destruct Hc as [[? _]| ->]; [lia|done]).
  replace (u32 (Z.of_nat (length pre) + 1)) with (Z.of_nat (S (length pre))) by (rewrite u32_small; lia).
  replace (s8 c =? NL) with (c =? NL).
  2: { destruct (Z.eqb_spec c NL) as [-> |Hn]; [done|]. symmetry. apply Z.eqb_neq. intros E. by apply Hn, s8_newline. }
  replace (s8 c =? Ctrl 68) with false.
  2: { symmetry. apply Z.eqb_neq. intros E. assert (c = Ctrl 68) as -> by (by rewrite <- (u8_s8 c), E by done).
       by destruct Hc as [(_ & _ & ?)|?]. }
  destruct (Z.eqb_spec c NL) as [-> |Hn]; [done|]. by rewrite u8_s8 by done.
Qed.

Lemma read_line_run pre line z n first k e :
  let r := k_input k in
  in_buf r = pre ++ line ++ NL :: z -> in_r r = Z.of_nat (length pre) -> in_w r = Z.of_nat (length pre + length line + 1) ->
  (length pre + length line < 128)%nat -> Forall plain line -> (length line < n)%nat ->
  consoleread_loop n first k e = Ret (true, line ++ [NL]) (k <| k_input := k_input k <| in_r := in_w (k_input k) |> |>) e.
Proof.
  intros r Hb Hr Hw Hlen Hl Hn. subst r. revert pre n first k Hb Hr Hw Hlen Hn.
  induction Hl as [|c line Hc Hl IH]; intros pre n first k Hb Hr Hw Hlen Hn; destruct n as [|n]; cbn [length] in *; try lia.
  - rewrite (read_char_run n first k e pre NL z) by (auto; lia). rewrite Z.eqb_refl. unfold mret, M_ret. f_equal. f_equal.
    f_equal. rewrite Hw. f_equal. lia.
  - rewrite (read_char_run n first k e pre c (line ++ NL :: z)) by (auto; lia).
    replace (c =? NL) with false by (symmetry; apply Z.eqb_neq; apply Hc).
    erewrite (bind_Ret _ _ _ _ _ _ _ (IH (pre ++ [c]) n false (k <| k_input := _ |>) _ _ _ _ _)); [done|..].
    Unshelve. all: rsimpl; rewrite ?length_app; cbn [length]; try lia. by rewrite Hb, <- app_assoc.
Qed.

(** Between two lines: all that was committed, [pre], has been read. *)
Record between_lines (pre : list Z) (k : kernel) : Prop := {
  bl_input : k_input k = line_at pre [] (k_input k);
  bl_w : in_w (k_input k) = Z.of_nat (length pre);
  bl_r : in_r (k_input k) = in_w (k_input k)
}.

Lemma no_procdump ks c : Forall edit_key ks -> c = NL \/ c = 13 -> existsb (fun c => c =? Ctrl 80) (ks ++ [c]) = false.
Proof.
  intros Hks Hc. rewrite existsb_app. cbn [existsb]. replace (c =? Ctrl 80) with false by (by destruct Hc as [-> | ->]).
  rewrite !orb_false_r. induction Hks as [|x ks [_ Hx] Hks IH]; [done|]. cbn [existsb]. rewrite IH, orb_false_r.
  apply Z.eqb_neq. set_solver.
Qed.

Lemma line_typed pre ks c k e :
  between_lines pre k -> cpu_ok (k_cpu k) -> L_cons ∉ c_held (k_cpu k) -> L_ptable ∉ c_held (k_cpu k) -> procs_ok k ->
  cons_ok (k_cons k) -> Forall edit_key ks -> (length pre + length ks < 127)%nat -> c = NL \/ c = 13 ->
  exists d, cons_ok d /\
    consoleintr (ks ++ [c]) k e = Ret tt (k <| k_input := commit_line pre (fold_left edit ks []) (k_input k) |>
      <| k_cons := d |> <| k_procs := map (wake Ch_input_r) (k_procs k) |> <| k_cpu := cpu_touch (k_cpu k) |>) e.
Proof.
  intros [Hi Hw Hr] Hcpu Hlc Hlp Hok Hd Hks Hlen Hc.
  destruct (keys_plain ks [] Hks) as [Hpl Hll]; [constructor|]. cbn [length Nat.add] in Hll.
  assert (opened pre (k_input k)) as Hop by (split; [done|lia]).
  set (k1 := k <| k_cpu := cpu_acq L_cons (k_cpu k) |>).
  destruct (keys_wp pre [] ks (k_input k) (k_cons k) (fun _ r' d' => r' = line_at pre (fold_left edit ks []) (k_input k) /\ cons_ok d')
    Hop ltac:(simpl; lia) ltac:(constructor) Hks Hd (fun d' Hd' => conj eq_refl Hd') k1 e) as ([] & r1 & d1 & E1 & -> & Hd1).
  destruct (newline_continues pre (fold_left edit ks []) c (k_input k) d1 Hop ltac:(lia) Hc Hd1 k1 e) as (r2 & d2 & E2 & -> & Hd2).
  destruct (commit_continues pre (fold_left edit ks []) (k_input k) d2 Hop ltac:(lia) Hpl k1 e) as (r3 & d3 & E3 & -> & ->).
  rewrite E3 in E2. clear E3.
  assert (put (line_at pre [] (k_input k)) (k_cons k) k1 = k1) as Hput by (rewrite <- Hi; apply (put_self k1)).
  rewrite Hput in E1. pose proof (cpu_acq_ok L_cons (k_cpu k) Hcpu Hlc) as Hcpu1.
  assert (0 < c_ncli (cpu_acq L_cons (k_cpu k))) as Hcli by (unfold cpu_acq; rsimpl; destruct (cpu_ok_sane _ Hcpu); lia).
  exists d2. split; [done|]. unfold consoleintr. rewrite no_procdump by done. mcall acquire_run; [done|done|]. fold k1.
  assert (for_each (ks ++ [c]) cons_char k1 e = Ret tt (put (commit_line pre (fold_left edit ks []) (k_input k)) d2 k1
    <| k_procs := map (wake Ch_input_r) (k_procs k) |>) e) as E.
  { rewrite for_each_app, (bind_Ret _ _ _ _ _ _ _ E1). cbn [for_each]. unfold mbind, M_bind. rewrite E2.
    rewrite wakeup_run; [|exact Hcpu1| |exact Hok].
    - unfold put. rsimpl. by rewrite cpu_touch_cli by done.
    - unfold put, k1, cpu_acq. rsimpl. by rewrite not_elem_of_cons. }
  rewrite (bind_Ret _ _ _ _ _ _ _ E). mcall release_run; unfold put, k1; rsimpl; [exact Hcpu1|unfold cpu_acq; rsimpl; set_solver|].
  by rewrite cpu_rel_acq.
Qed.

(** C13: the console's line editor.  Between two lines, with the console and the
    process table unlocked, the keys [ks] followed by newline or return edit
    one line: a character is added, Control-H and DEL take the last one away,
    Control-U clears the line and Control-R reverses it.  The interrupt
    handler returns, having woken exactly the readers of the console, and the
    next read delivers this line with a newline and nothing else, after which
    the console is again between two lines.  As long as no more than 126
    characters have been typed in all. *)
Theorem console_edits_line pre ks c n k e :
  between_lines pre k -> cpu_ok (k_cpu k) -> L_cons ∉ c_held (k_cpu k) -> L_ptable ∉ c_held (k_cpu k) -> procs_ok k ->
  cons_ok (k_cons k) -> Forall edit_key ks -> (length pre + length ks < 127)%nat -> c = NL \/ c = 13 -> (length ks < n)%nat ->
  let line := fold_left edit ks [] in
  exists k1 k2, consoleintr (ks ++ [c]) k e = Ret tt k1 e /\ k_procs k1 = map (wake Ch_input_r) (k_procs k) /\
    consoleread_loop n true k1 e = Ret (true, line ++ [NL]) k2 e /\ k_procs k2 = k_procs k1 /\
    between_lines (pre ++ line ++ [NL]) k2.
Proof.
  intros Hb Hcpu Hlc Hlp Hok Hd Hks Hlen Hc Hn line. destruct (line_typed pre ks c k e) as (d & Hd' & E); [done..|].
  do 2 eexists. split; [exact E|]. split; [done|]. destruct Hb as [Hi Hw Hr].
  destruct (keys_plain ks [] Hks) as [Hpl Hll]; [constructor|]. fold line in Hpl, Hll |- *. cbn [length Nat.add] in Hll.
  split; [apply (read_line_run pre line (replicate (127 - (length pre + length line)) 0)); try done|].
  - unfold commit_line, line_at. rsimpl.
    replace (128 - _)%nat with (127 - (length pre + length line))%nat by (rewrite !length_app; simpl; lia).
    by rewrite <- !app_assoc.
  - unfold commit_line, line_at. rsimpl. congruence.
  - unfold commit_line, line_at. rsimpl. rewrite !length_app. simpl. lia.
  - lia.
  - lia.
  - split; [done|]. unfold commit_line. split; unfold line_at; rsimpl; done.
Qed.

(** ** Completion *)

(** The place [cmd] of the history holds the string [s]. *)
Definition slot (cmd s : list Z) : Prop :=
  exists z, cmd = s ++ 0 :: z /\ length cmd = 128%nat /\ Forall (fun c => c <> 0 /\ 0 <= c < 256) s.

(** What the history remembers: nothing yet, or a line with its newline. *)
Definition saved (s : list Z) : Prop := s = [] \/ exists t, s = t ++ [NL] /\ Forall plain t.

(** The history holds the strings [S]. *)
Record history (r : input) (S : list (list Z)) : Prop := {
  hi_slots : Forall2 slot (in_commands r) S;
  hi_len : length S = 30%nat;
  hi_saved : Forall saved S;
  hi_num : 0 <= in_command_num r;
  hi_size : 0 <= in_size_command r < MAX_COMMAND_NUM
}.

Definition remembered (S : list (list Z)) (i : Z) : list Z := default [] (S !! Z.to_nat i).

Lemma holds_bytes a l bs m : l `prefix_of` bs -> holds_at (store_bytes a bs m) a l.
Proof.
  intros [z ->] i x Hx. pose proof (lookup_lt_Some _ _ _ Hx). rewrite store_bytes_in by (rewrite length_app; lia).
  replace (Z.to_nat (a + Z.of_nat i - a)) with i by lia. by rewrite lookup_app_l, Hx by lia.
Qed.

Lemma key_starts_prefix key cmd s : Forall plain key -> (length key < 128)%nat -> slot cmd s ->
  key_starts key cmd = bool_decide (key `prefix_of` s).
Proof.
  intros Hk Hlen (z & -> & Hl & Hs). unfold key_starts.
  rewrite (starts_with_prefix 129 0 4096 key s).
  - destruct (decide _); [by rewrite bool_decide_true|by rewrite bool_decide_false].
  - split; [eapply Forall_impl; [exact Hk|]; intros c [Hc _]; lia|]. apply holds_bytes. reflexivity.
  - split; [done|]. apply (holds_ext (store_bytes 4096 (s ++ 0 :: z) (fun _ => 0))).
    + intros x Hx. apply store_bytes_out. rewrite length_app. simpl. lia.
    + apply holds_bytes. exists z. by rewrite <- app_assoc.
  - lia.
Qed.

Lemma get_command_wp i S r d (Q : list Z -> input -> console -> Prop) : history r S -> 0 <= i < 30 ->
  (forall cmd, slot cmd (remembered S i) -> Q cmd r d) -> wp (get_command i) r d Q.
Proof.
  intros [Hs Hl _ _ _] Hi HQ. unfold get_command. apply wp_bind, wp_get_input.
  destruct (lookup_lt_is_Some_2 S (Z.to_nat i)) as [s Es]; [lia|].
  destruct (Forall2_lookup_r _ _ _ _ _ Hs Es) as (cmd & Ec & Hc).
  eapply wp_deref; [exact Ec|]. apply HQ. unfold remembered. by rewrite Es.
Qed.

(** The [n] places from [i] on, round the history. *)
Fixpoint ring (n : nat) (i : Z) : list Z :=
  match n with
  | O => []
  | S n => i :: ring n (if i + 1 =? MAX_COMMAND_NUM then 0 else i + 1)
  end.

(** The last of the places [js] whose string starts with [key], or [index]. *)
Definition last_match (key : list Z) (S : list (list Z)) (js : list Z) (index : Z) : Z :=
  fold_left (fun index j => if bool_decide (key `prefix_of` remembered S j) then j else index) js index.

Lemma predict_ring_wp n i key index S r d (Q : Z -> input -> console -> Prop) :
  history r S -> Forall plain key -> (length key < 128)%nat -> 0 <= i < 30 ->
  Q (last_match key S (ring n i) index) r d -> wp (predict_ring n i key index) r d Q.
Proof.
  intros Hh Hk Hlen. revert i index. induction n as [|n IH]; intros i index Hi HQ; cbn [predict_ring ring] in *; [by apply wp_ret|].
  apply wp_bind. apply (get_command_wp _ S); [done..|]. intros cmd Hc. rewrite (key_starts_prefix key cmd _ Hk Hlen Hc).
  apply IH; [|exact HQ]. unfold MAX_COMMAND_NUM. destruct (Z.eqb_spec (i + 1) 30); lia.
Qed.

Lemma last_match_init key S js index : last_match key S js index = index \/
  forall index', last_match key S js index' = last_match key S js index.
Proof.
  unfold last_match. revert index. induction js as [|j js IH]; intros index; cbn [fold_left]; [by left|].
  destruct (bool_decide _); [by right|]. destruct (IH index) as [E|E]; [by left|right]. intros index'. apply E.
Qed.

Lemma last_match_some key S js j a b : j ∈ js -> key `prefix_of` remembered S j -> last_match key S js a = last_match key S js b.
Proof.
  intros Hj Hk. unfold last_match. revert a b. induction js as [|x js IH]; intros a b; [by apply elem_of_nil in Hj|]. cbn [fold_left].
  destruct (decide (x = j)) as [-> |Hx]; [by rewrite bool_decide_true|]. apply elem_of_cons in Hj as [->|Hj]; [done|]. by apply IH.
Qed.
Lemma last_match_idem key S js a : last_match key S js (last_match key S js a) = last_match key S js a.
Proof. destruct (last_match_init key S js a) as [E|E]; [by rewrite !E|apply E]. Qed.

(** The ring goes through the whole history. *)
Lemma ring_all i0 i : 0 <= i0 < 30 -> 0 <= i < 30 -> i ∈ ring 30 i0.
Proof.
  intros H0 Hi.
  assert (forallb (fun a => forallb (fun b => bool_decide (Z.of_nat b ∈ ring 30 (Z.of_nat a))) (seq 0 30)) (seq 0 30) = true) as H
    by (vm_compute; reflexivity).
  rewrite forallb_forall in H. specialize (H (Z.to_nat i0) ltac:(apply in_seq; lia)).
  rewrite forallb_forall in H. specialize (H (Z.to_nat i) ltac:(apply in_seq; lia)).
  apply bool_decide_eq_true in H. by rewrite !Z2Nat.id in H by lia.
Qed.

(** The place whose string completes [key]: place 0 if it does, else the last
    one round the history, from the next place to be written. *)
Definition predicted (key : list Z) (S : list (list Z)) (num : Z) : Z :=
  if bool_decide (key `prefix_of` remembered S 0) then 0
  else last_match key S (ring 30 (Z.rem num MAX_COMMAND_NUM)) (-1).

Lemma predict_wp pre l S r d (Q : Z -> input -> console -> Prop) :
  opened pre r -> (length pre + length l < 128)%nat -> Forall plain l -> history r S ->
  Q (predicted l S (in_command_num r)) (line_at pre l r) d -> wp predict_in_command_list (line_at pre l r) d Q.
Proof.
  intros Hr Hlen Hl Hh HQ. assert (history (line_at pre l r) S) as Hh' by (destruct Hh; by split).
  unfold predict_in_command_list. apply wp_bind. eapply get_key_wp; [apply Hr|by apply line_buf|by apply plain_nonzero|].
  apply wp_bind, wp_get_input. pose proof (hi_size r S Hh) as Hsz. pose proof (hi_num r S Hh) as Hnum.
  change (in_size_command (line_at pre l r)) with (in_size_command r). replace (_ <? _) with true by (unfold MAX_COMMAND_NUM in *; lia).
  set (i0 := Z.rem (in_command_num r) MAX_COMMAND_NUM).
  assert (0 <= i0 < 30) as Hi0 by (subst i0; rewrite Z.rem_mod_nonneg by done; by apply Z.mod_pos_bound).
  unfold predicted in HQ. fold i0 in HQ. unfold MAX_COMMAND_NUM in Hsz.
  assert (Z.to_nat (in_size_command r) < 30)%nat as Hn by lia. revert Hn HQ. generalize (Z.to_nat (in_size_command r)), (-1).
  induction n as [|n IH]; intros index Hn HQ.
  - apply wp_bind, (get_command_wp _ S); [done|lia|]. intros cmd Hc. rewrite (key_starts_prefix l cmd _ Hl ltac:(lia) Hc).
    apply wp_bind. change (Z.of_nat 0) with 0. destruct (bool_decide _); [by apply wp_ret, wp_ret|].
    apply wp_bind, wp_get_input, (predict_ring_wp _ _ _ _ S); [done|done|lia|done|]. by apply wp_ret.
  - apply wp_bind, (get_command_wp _ S); [done|lia|]. intros cmd Hc. rewrite (key_starts_prefix l cmd _ Hl ltac:(lia) Hc).
    apply wp_bind. destruct (bool_decide (l `prefix_of` remembered S (Z.of_nat (Datatypes.S n)))) eqn:Em.
    + apply wp_ret, IH; [lia|]. apply bool_decide_eq_true in Em.
      by rewrite (last_match_some l S (ring 30 i0) _ (Z.of_nat (Datatypes.S n)) index (ring_all i0 (Z.of_nat (Datatypes.S n)) Hi0 ltac:(lia)) Em).
    + apply wp_bind, wp_get_input, (predict_ring_wp _ _ _ _ S); [done|done|lia|done|]. apply IH; [lia|].
      change (Z.to_nat MAX_COMMAND_NUM) with 30%nat. change (Z.rem (in_command_num (line_at pre l r)) MAX_COMMAND_NUM) with i0.
      by rewrite last_match_idem.
Qed.

Lemma last_match_range key S js a : Forall (fun j => 0 <= j < 30) js ->
  (last_match key S js a = a /\ Forall (fun j => ~ key `prefix_of` remembered S j) js) \/
  (0 <= last_match key S js a < 30 /\ key `prefix_of` remembered S (last_match key S js a)).
Proof.
  unfold last_match. revert a. induction js as [|j js IH]; intros a Hj; cbn [fold_left]; [left; split; [done|constructor]|].
  apply Forall_cons in Hj as [Hj Hjs]. destruct (bool_decide_reflect (key `prefix_of` remembered S j)) as [Hm|Hm].
  - destruct (IH j Hjs) as [[E _]|?]; [right; by rewrite E|by right].
  - destruct (IH a Hjs) as [[E Hn]|?]; [left; split; [done|by constructor]|by right].
Qed.

Lemma ring_range n i : 0 <= i < 30 -> Forall (fun j => 0 <= j < 30) (ring n i).
Proof.
  revert i. induction n as [|n IH]; intros i Hi; cbn [ring]; constructor; [done|]. apply IH. unfold MAX_COMMAND_NUM.
  destruct (Z.eqb_spec (i + 1) 30); lia.
Qed.

(** The prediction is a string that starts with [key], if there is one. *)
Lemma predicted_range key S num : 0 <= num -> length S = 30%nat ->
  (predicted key S num = -1 /\ Forall (fun s => ~ key `prefix_of` s) S) \/
  (0 <= predicted key S num < 30 /\ key `prefix_of` remembered S (predicted key S num)).
Proof.
  intros Hnum Hl. unfold predicted. destruct (bool_decide_reflect (key `prefix_of` remembered S 0)) as [Hm|Hm]; [by right|].
  assert (0 <= Z.rem num MAX_COMMAND_NUM < 30) as Hi by (rewrite Z.rem_mod_nonneg by done; by apply Z.mod_pos_bound).
  destruct (last_match_range key S _ (-1) (ring_range 30 _ Hi)) as [[E Hn]|?]; [left|by right]. split; [done|].
  apply Forall_lookup. intros i s Hs. rewrite Forall_forall in Hn. pose proof (lookup_lt_Some _ _ _ Hs).
  specialize (Hn (Z.of_nat i) (ring_all _ (Z.of_nat i) Hi ltac:(lia))). unfold remembered in Hn. by rewrite Nat2Z.id, Hs in Hn.
Qed.

Lemma saved_removelast s : saved s -> Forall plain (removelast s) /\ (s = [] \/ s = removelast s ++ [NL]).
Proof. intros [-> |(t & -> & Ht)]; [by split; [constructor|left]|]. rewrite removelast_last. auto. Qed.

(** What Tab makes of the line. *)
Definition completed (l : list Z) (S : list (list Z)) (num : Z) : list Z :=
  let i := predicted l S num in if i =? -1 then l else removelast (remembered S i).

Lemma predict_process_wp pre l S r d (Q : unit -> input -> console -> Prop) :
  opened pre r -> (length pre + length l < 128)%nat -> Forall plain l -> history r S ->
  Forall (fun s => length pre + length s <= 128)%nat S -> cons_ok d ->
  (forall d', cons_ok d' -> Q tt (line_at pre (completed l S (in_command_num r)) r) d') ->
  wp predict_process (line_at pre l r) d Q.
Proof.
  intros Hr Hlen Hl Hh Hfit Hd HQ. unfold predict_process. apply wp_bind, (predict_wp _ _ S); [done..|].
  pose proof (predicted_range l S _ (hi_num r S Hh) (hi_len r S Hh)) as Hp. unfold completed in HQ.
  destruct Hp as [[E _]|[Hi _]]; [rewrite E in *; by apply wp_ret, HQ|].
  set (i := predicted l S (in_command_num r)) in *. replace (i =? -1) with false in * by lia. cbn [negb].
  assert (history (line_at pre l r) S) as Hh' by (destruct Hh; by split).
  apply wp_bind, (get_command_wp _ S); [done..|]. intros cmd (z & Hc & Hcl & Hs). unfold print_word. apply wp_bind.
  eapply wp_deref; [rewrite Hc; apply nul_at_app; eapply Forall_impl; [exact Hs|tauto]|].
  assert (remembered S i ∈ S) as Hin.
  { unfold remembered. destruct (S !! Z.to_nat i) eqn:E; [by eapply list_elem_of_lookup_2|].
    apply lookup_ge_None in E. rewrite (hi_len r S Hh) in E. lia. }
  pose proof (hi_saved r S Hh) as Hsv. rewrite Forall_forall in Hsv, Hfit. specialize (Hsv _ Hin). specialize (Hfit _ Hin).
  destruct (saved_removelast _ Hsv) as [Hpl Hcase].
  assert (take (length (remembered S i) - 1) cmd = removelast (remembered S i)) as ->.
  { rewrite Hc. destruct Hcase as [E|E]; [by rewrite E|]. rewrite E at 1 2. rewrite length_app, Nat.add_sub, <- app_assoc.
    apply take_app_length. }
  apply wp_bind, kill_line_wp; [done..|]. intros d' Hd'. apply put_word_wp; [|done..].
  destruct Hcase as [E|E]; [rewrite E; simpl; lia|]. rewrite E, length_app in Hfit. simpl in *. lia.
Qed.

(** Tab.  With fewer than 30 commands typed, Tab on the line [l] looks
    through the whole history: if a remembered command starts with [l], the
    line becomes such a command, without its newline; if none does, nothing is
    changed.  The commands fit in the rest of the buffer. *)
Theorem tab_completes pre l S k e :
  let r := k_input k in
  r = line_at pre l r -> opened pre r -> (length pre + length l < 128)%nat -> Forall plain l -> history r S ->
  Forall (fun s => length pre + length s <= 128)%nat S -> cons_ok (k_cons k) ->
  exists l' d, cons_char 9 k e = Ret tt (k <| k_input := line_at pre l' r |> <| k_cons := d |>) e /\ cons_ok d /\
    ((l' = l /\ Forall (fun s => ~ l `prefix_of` s) S) \/
     (exists s, s ∈ S /\ l `prefix_of` s /\ l' = removelast s)).
Proof.
  intros r Hi Hr Hlen Hl Hh Hfit Hd.
  destruct (predict_process_wp pre l S r (k_cons k) (fun _ r' d' => r' = line_at pre (completed l S (in_command_num r)) r /\ cons_ok d')
    Hr Hlen Hl Hh Hfit Hd (fun d' Hd' => conj eq_refl Hd') k e) as ([] & r1 & d1 & E & -> & Hd1).
  assert (put (line_at pre l r) (k_cons k) k = k) as Hput by (rewrite <- Hi; apply put_self). rewrite Hput in E. do 2 eexists. split; [exact E|]. split; [done|]. unfold completed.
  destruct (predicted_range l S _ (hi_num r S Hh) (hi_len r S Hh)) as [[E1 Hn]|[Hp Hm]]; [left; by rewrite E1|right].
  replace (_ =? -1) with false by lia. eexists. split; [|split; [exact Hm|done]].
  unfold remembered. destruct (S !! _) eqn:Es; [by eapply list_elem_of_lookup_2|].
  apply lookup_ge_None in Es. rewrite (hi_len r S Hh) in Es. lia.
Qed.

(** Control-N removes exactly the digits of the line, provided the line
    starts in column 2 of the screen, as it does after the prompt of the
    shell, and lies on one row. *)
Theorem control_n_deletes_digits pre l k e :
  let r := k_input k in
  r = line_at pre l r -> opened pre r -> (length pre + length l < 128)%nat -> Forall plain l -> cons_ok (k_cons k) ->
  cons_pos (k_cons k) mod 80 = 2 + Z.of_nat (length l) ->
  exists d, cons_ok d /\ cons_char (Ctrl 78) k e =
    Ret tt (k <| k_input := line_at pre (filter (fun c => is_num c = false) l) r |> <| k_cons := d |>) e.
Proof.
  intros r Hi Hr Hlen Hl Hd Hcol.
  destruct (delete_num_of_line_wp pre l r (k_cons k)
    (fun _ r' d' => r' = line_at pre (filter (fun c => is_num c = false) l) r /\ cons_ok d')
    Hr Hlen Hl Hd Hcol (fun d' Hd' => conj eq_refl Hd') k e) as ([] & r1 & d1 & E & -> & Hd1).
  assert (put (line_at pre l r) (k_cons k) k = k) as Hput by (rewrite <- Hi; apply put_self). rewrite Hput in E.
  exists d1. split; [done|exact E].
Qed.

(** in any other column Control-N goes wrong, because it computes the
    start of the line from the screen: with nothing typed and the cursor in
    column 0, where a program without a prompt reads, it leaves the edit index
    two places beyond the end of the line. *)
Theorem control_n_needs_prompt pre k e :
  let r := k_input k in
  r = line_at pre [] r -> (length pre < 128)%nat -> cons_ok (k_cons k) -> cons_pos (k_cons k) mod 80 = 0 ->
  cons_char (Ctrl 78) k e = Ret tt (k <| k_input := r <| in_e := in_end r + 2 |> |>
    <| k_cons := k_cons k <| cons_pos := cons_pos (k_cons k) + 2 |> |>) e.
Proof.
  intros r Hi Hlen Hd Hcol. subst r. change (cons_char (Ctrl 78)) with delete_num_of_line.
  pose proof (cons_cursor _ Hd). pose proof (Z.div_mod (cons_pos (k_cons k)) 80 ltac:(lia)).
  assert (in_e (k_input k) = Z.of_nat (length pre) /\ in_end (k_input k) = Z.of_nat (length pre)) as [He Hend].
  { rewrite Hi. unfold line_at. rsimpl. simpl. lia. }
  unfold delete_num_of_line, go_to_first_of_line, get_pos, change_pos, get_input, upd_input. mrun.
  rewrite Z.rem_mod_nonneg, Hcol by lia. change (0 - 2) with (-2). rewrite pos_encode by lia. rsimpl.
  rewrite He, Hend, u32_small by lia. replace (Z.to_nat _) with 0%nat by lia. cbn [delete_num_loop]. unfold get_input. mrun. rsimpl.
  replace (Z.of_nat (length pre) - -2) with (Z.of_nat (length pre) + 2) by lia.
  replace (_ <? _) with false by lia. by replace (cons_pos (k_cons k) - -2) with (cons_pos (k_cons k) + 2) by lia.
Qed.

(** C40: the console breaks at the 128th character.  [input.w] counts all the
    characters ever committed, but [input.buf + input.w] is used as a string:
    if with the newline 128 characters have been typed since the system was
    started, saving the line in the history reads past the end of the input
    buffer. *)
Theorem history_overruns_buffer pre ks k e :
  between_lines pre k -> cpu_ok (k_cpu k) -> L_cons ∉ c_held (k_cpu k) -> cons_ok (k_cons k) -> Forall edit_key ks ->
  (length pre + length ks <= 127)%nat -> (length pre + length (fold_left edit ks []) = 127)%nat ->
  consoleintr (ks ++ [NL]) k e = Undef "reads past the end of input.buf".
Proof.
  intros [Hi Hw Hr] Hcpu Hlc Hd Hks Hlen Hfull. set (line := fold_left edit ks []) in *.
  destruct (keys_plain ks [] Hks) as [Hpl _]; [constructor|]. fold line in Hpl.
  set (k1 := k <| k_cpu := cpu_acq L_cons (k_cpu k) |>).
  destruct (keys_wp pre [] ks (k_input k) (k_cons k) (fun _ r' d' => r' = line_at pre line (k_input k) /\ cons_ok d')
    ltac:(split; [done|lia]) ltac:(simpl; lia) ltac:(constructor) Hks Hd (fun d' Hd' => conj eq_refl Hd') k1 e)
    as ([] & r1 & d1 & E1 & -> & Hd1).
  assert (put (line_at pre [] (k_input k)) (k_cons k) k1 = k1) as Hput by (rewrite <- Hi; apply (put_self k1)).
  rewrite Hput in E1. unfold consoleintr. mcall acquire_run; [done|done|]. fold k1.
  apply bind_Undef. rewrite for_each_app, (bind_Ret _ _ _ _ _ _ _ E1). cbn [for_each]. apply bind_Undef.
  destruct (newline_continues pre line NL (k_input k) d1 ltac:(split; [done|lia]) ltac:(lia) ltac:(by left) Hd1 k1 e)
    as (r2 & d2 & -> & -> & _).
  unfold cons_commit. apply bind_Undef. unfold get_key, get_input. mrun. unfold put, newline_at, line_at. rsimpl.
  rewrite Hw, Nat2Z.id, drop_app_length. replace (128 - _)%nat with 0%nat by (rewrite length_app; simpl; lia).
  rewrite app_nil_r, nul_at_none; [done|]. apply Forall_app. split; [by apply plain_nonzero|by repeat constructor].
Qed.

(** ** Instances *)

Lemma demo_cons_ok : cons_ok (k_cons demo_kernel).
Proof. by split. Qed.
Lemma demo_between : between_lines [] demo_kernel.
Proof. by split. Qed.

#[export] Instance plain_dec c : Decision (plain c) := and_dec _ _.
#[export] Instance edit_key_dec c : Decision (edit_key c) := and_dec _ _.

(** [plain] and [edit_key] of given characters. *)
Ltac chars := apply (bool_decide_unpack _); vm_compute; exact I.

(** "xy", Control-U, "caq", DEL, "t". *)
Definition demo_keys : list Z := bytes "xy" ++ [Ctrl 85] ++ bytes "caq" ++ [127] ++ bytes "t".

Lemma console_edits_line_witness :
  fold_left edit demo_keys [] = bytes "cat" /\
  exists k1 k2, consoleintr (demo_keys ++ [13]) demo_kernel [] = Ret tt k1 [] /\
    k_procs k1 = map (wake Ch_input_r) (k_procs demo_kernel) /\
    consoleread_loop 20 true k1 [] = Ret (true, bytes "cat" ++ [NL]) k2 [] /\ k_procs k2 = k_procs k1 /\
    between_lines ([] ++ bytes "cat" ++ [NL]) k2.
Proof.
  split; [reflexivity|].
  apply (console_edits_line [] demo_keys 13 20 demo_kernel []).
  - exact demo_between.
  - exact demo_cpu_ok.
  - apply not_elem_of_nil.
  - apply not_elem_of_nil.
  - reflexivity.
  - exact demo_cons_ok.
  - chars.
  - vm_compute. lia.
  - by right.
  - vm_compute. lia.
Defined.

(** The commands "cat x" and "ls" have been typed, and now "l1". *)
Definition demo_strings : list (list Z) := [bytes "cat x" ++ [NL]; []; bytes "ls" ++ [NL]] ++ replicate 27 [].
Definition demo_typed (l : list Z) : kernel :=
  demo_kernel <| k_input := line_at [] l (zero_input <| in_commands := map (fun s => take 128 (s ++ replicate 128 0)) demo_strings |>
    <| in_command_num := 4 |> <| in_size_command := 2 |>) |> <| k_cons := k_cons demo_kernel <| cons_pos := 82 + Z.of_nat (length l) |> |>.

Lemma demo_history l : history (k_input (demo_typed l)) demo_strings.
Proof.
  split; try done.
  - assert (Forall (fun s => slot (take 128 (s ++ replicate 128 0)) s) demo_strings) as H.
    { assert (slot (replicate 128 0) []) as H0 by (exists (replicate 127 0); by split_and!).
      apply Forall_app. split; [|apply Forall_replicate; exact H0].
      constructor; [|constructor; [exact H0|constructor; [|constructor]]].
      all: eexists; split; [vm_compute; reflexivity|]; split; [reflexivity|vm_compute; repeat constructor; discriminate]. }
    change (in_commands _) with (map (fun s => take 128 (s ++ replicate 128 0)) demo_strings).
    induction H; constructor; auto.
  - apply Forall_app. split; [|apply Forall_replicate; by left].
    constructor; [right; exists (bytes "cat x"); split; [done|chars]|].
    constructor; [by left|]. constructor; [right; exists (bytes "ls"); split; [done|chars]|constructor].
Qed.

Lemma tab_completes_witness :
  exists l' d, cons_char 9 (demo_typed (bytes "l")) [] =
      Ret tt (demo_typed (bytes "l") <| k_input := line_at [] l' (k_input (demo_typed (bytes "l"))) |> <| k_cons := d |>) [] /\ cons_ok d /\
    ((l' = bytes "l" /\ Forall (fun s => ~ bytes "l" `prefix_of` s) demo_strings) \/
     (exists s, s ∈ demo_strings /\ bytes "l" `prefix_of` s /\ l' = removelast s)).
Proof.
  apply (tab_completes [] (bytes "l") demo_strings (demo_typed (bytes "l")) []).
  - reflexivity.
  - by split.
  - vm_compute. lia.
  - chars.
  - apply demo_history.
  - apply Forall_app. split; [|apply Forall_replicate]; simpl; [|lia]. repeat constructor; simpl; lia.
  - by split.
Defined.

Lemma control_n_deletes_digits_witness :
  filter (fun c => is_num c = false) (bytes "l1s2") = bytes "ls" /\
  exists d, cons_ok d /\ cons_char (Ctrl 78) (demo_typed (bytes "l1s2")) [] =
    Ret tt (demo_typed (bytes "l1s2") <| k_input := line_at [] (filter (fun c => is_num c = false) (bytes "l1s2")) (k_input (demo_typed (bytes "l1s2"))) |>
      <| k_cons := d |>) [].
Proof.
  split; [reflexivity|]. apply (control_n_deletes_digits [] (bytes "l1s2") (demo_typed (bytes "l1s2")) []).
  - reflexivity.
  - by split.
  - vm_compute. lia.
  - chars.
  - by split.
  - reflexivity.
Defined.

Lemma control_n_needs_prompt_witness :
  cons_char (Ctrl 78) demo_kernel [] = Ret tt (demo_kernel <| k_input := k_input demo_kernel <| in_e := in_end (k_input demo_kernel) + 2 |> |>
    <| k_cons := k_cons demo_kernel <| cons_pos := cons_pos (k_cons demo_kernel) + 2 |> |>) [].
Proof.
  apply (control_n_needs_prompt [] demo_kernel []); [reflexivity|vm_compute; lia|exact demo_cons_ok|reflexivity].
Defined.

Lemma history_overruns_buffer_witness :
  consoleintr (replicate 127 97 ++ [NL]) demo_kernel [] = Undef "reads past the end of input.buf".
Proof.
  apply (history_overruns_buffer [] (replicate 127 97) demo_kernel []).
  - exact demo_between.
  - exact demo_cpu_ok.
  - apply not_elem_of_nil.
  - exact demo_cons_ok.
  - apply Forall_replicate. chars.
  - vm_compute. lia.
  - reflexivity.
Defined.
