(* ===== verification/Syscall.v ===== *)
(** The process-related system calls (sysproc.c) and the dispatcher
    (syscall.c). *)

From S2P Require Import Prelude Types Spinlock Proc Sleeplock Bio Bytes Log Str Cprintf Fs FsIo Kalloc Pipe File Sched Sem Prime Trace Vm Process Args Sysfile Exec PrintProcs.

(** An [argint] whose result is ignored: the variable is not set when it
    fails. *)
Definition argint_unchecked (n : Z) : K Z :=
  a ← argint n; deref "argument not set" a.

Section Syscall.
  Context `{Image} `{Devsw}.

Definition sys_fork : K Z := fork.
Definition sys_exit : K Z := exit ;; mret 0.
Definition sys_wait : K Z := wait.

Definition sys_kill : K Z :=
  pid ← argint 0;
  match pid with
  | None => mret (-1)
  | Some pid => kill pid
  end.

Definition sys_getpid : K Z := i ← curproc; p ← get_proc i; mret (p_pid p).

Definition sys_sbrk : K Z :=
  n ← argint 0;
  match n with
  | None => mret (-1)
  | Some n =>
      i ← curproc;
      p ← get_proc i;
      let addr := s32 (p_sz p) in
      r ← growproc n;
      if r <? 0 then mret (-1) else mret addr
  end.

(** Each pass that goes to sleep uses a time slice. *)
Fixpoint sleep_ticks (fuel : nat) (ticks0 n : Z) : K Z :=
  t ← gets k_ticks;
  if u32 (t - ticks0) <? u32 n then
    match fuel with
    | O => undef "sys_sleep: fuel"
    | S fuel =>
        i ← curproc;
        p ← get_proc i;
        if negb (p_killed p =? 0) then release L_ticks ;; mret (-1) else
        sleep Ch_ticks (Some L_ticks) ;;
        sleep_ticks fuel ticks0 n
    end
  else release L_ticks ;; mret 0.
Definition await_ticks (ticks0 n : Z) : K Z := fun k e => sleep_ticks (S (length e)) ticks0 n k e.

Definition sys_sleep : K Z :=
  n ← argint 0;
  match n with
  | None => mret (-1)
  | Some n =>
      acquire L_ticks ;;
      ticks0 ← gets k_ticks;
      await_ticks ticks0 n
  end.

Definition sys_uptime : K Z :=
  acquire L_ticks ;;
  xticks ← gets k_ticks;
  release L_ticks ;;
  mret (s32 xticks).

Definition sys_get_parent_pid : K Z := get_parent_pid.

(** The number is passed in the register [ebx].  The loops of
    [find_largest_prime_factor] make fewer passes than the number says, or go
    on for ever. *)
Definition sys_find_largest_prime_factor : K Z :=
  i ← curproc;
  p ← get_proc i;
  let number := s32 (tf_ebx (p_tf p)) in
  cprintf (bytes "Kernel: sys_find_largest_prime_factor(%d) is called" ++ [10]) [PInt number] ;;
  cprintf (bytes "        now calling find_largest_prime_factor(%d)" ++ [10]) [PInt number] ;;
  match find_largest_prime_factor (Z.to_nat (Z.abs number + 2)) number with
  | Some v => mret v
  | None => park
  end.

Definition sys_get_callers : K unit :=
  number ← argint_unchecked 0;
  cprintf (bytes "Kernel: sys_get_callers(%d) is called" ++ [10]) [PInt number] ;;
  cprintf (bytes "        now calling get_callers(%d)" ++ [10]) [PInt number] ;;
  get_callers number.

Definition sys_set_proc_queue : K unit :=
  pid ← argint_unchecked 0;
  queue ← argint_unchecked 1;
  set_proc_queue pid queue.

Definition sys_set_lottery_params : K unit :=
  pid ← argint_unchecked 0;
  ticket_chance ← argint_unchecked 1;
  set_lottery_params pid ticket_chance.

Definition sys_set_a_proc_bjf_params : K unit :=
  pid ← argint_unchecked 0;
  priority_ratio ← argint_unchecked 1;
  arrival_time_ratio ← argint_unchecked 2;
  executed_cycle_ratio ← argint_unchecked 3;
  set_a_proc_bjf_params pid priority_ratio arrival_time_ratio executed_cycle_ratio.

Definition sys_set_all_bjf_params : K unit :=
  priority_ratio ← argint_unchecked 0;
  arrival_time_ratio ← argint_unchecked 1;
  executed_cycle_ratio ← argint_unchecked 2;
  set_all_bjf_params priority_ratio arrival_time_ratio executed_cycle_ratio.

Definition sys_print_all_procs : K unit := print_all_procs.

Definition sys_sem_init : K unit :=
  i ← argint_unchecked 0;
  v ← argint_unchecked 1;
  sem_init i v.

Definition sys_sem_acquire : K unit := i ← argint_unchecked 0; sem_acquire i.
Definition sys_sem_release : K unit := i ← argint_unchecked 0; sem_release i.

(** What a handler declared [void] leaves in [eax], where [syscall] reads the
    result of the call, depends on the compiler. *)
Context (void_result : Z -> Z).

Definition void_call (num : Z) (h : K unit) : K Z := h ;; mret (void_result num).

(** The table [syscalls]. *)
Definition syscalls (num : Z) : option (K Z) :=
  match num with
  | 1 => Some sys_fork
  | 2 => Some sys_exit
  | 3 => Some sys_wait
  | 4 => Some sys_pipe
  | 5 => Some sys_read
  | 6 => Some sys_kill
  | 7 => Some sys_exec
  | 8 => Some sys_fstat
  | 9 => Some sys_chdir
  | 10 => Some sys_dup
  | 11 => Some sys_getpid
  | 12 => Some sys_sbrk
  | 13 => Some sys_sleep
  | 14 => Some sys_uptime
  | 15 => Some sys_open
  | 16 => Some sys_write
  | 17 => Some sys_mknod
  | 18 => Some sys_unlink
  | 19 => Some sys_link
  | 20 => Some sys_mkdir
  | 21 => Some sys_close
  | 22 => Some sys_find_largest_prime_factor
  | 23 => Some (void_call num sys_get_callers)
  | 24 => Some sys_change_file_size
  | 25 => Some sys_get_parent_pid
  | 26 => Some (void_call num sys_set_proc_queue)
  | 27 => Some (void_call num sys_set_lottery_params)
  | 28 => Some (void_call num sys_set_a_proc_bjf_params)
  | 29 => Some (void_call num sys_set_all_bjf_params)
  | 30 => Some (void_call num sys_print_all_procs)
  | 31 => Some (void_call num sys_sem_init)
  | 32 => Some (void_call num sys_sem_acquire)
  | 33 => Some (void_call num sys_sem_release)
  | _ => None
  end.

Definition set_eax (i : nat) (v : Z) : K unit :=
  upd_proc i (fun p => p <| p_tf := p_tf p <| tf_eax := u32 v |> |>).

Definition syscall : K unit :=
  i ← curproc;
  p ← get_proc i;
  let num := s32 (tf_eax (p_tf p)) in
  match syscalls num with
  | Some h =>
      push_pid_in_stack (p_pid p) num ;;
      r ← h;
      set_eax i r
  | None =>
      cprintf (bytes "%d %s: unknown sys call %d" ++ [10])
        [PInt (p_pid p); PStr (cstring (p_name p)); PInt num] ;;
      set_eax i (-1)
  end.
End Syscall.
