(* ===== verification/Trap.v ===== *)
(** Traps and interrupts (trap.c): system calls, the timer, the devices, and
    the end of a process that was killed.  The kernel is the one with the disk
    in memory (memide.c). *)

From S2P Require Import Prelude Types Spinlock Proc Sleeplock Bio Bytes Log Str Cprintf Fs FsIo Kalloc File Sched Vm Process Args Sysfile Exec PrintProcs Syscall Console Kbd.

Definition T_SYSCALL : Z := 64.
Definition T_IRQ0 : Z := 32.
Definition IRQ_TIMER : Z := 0.
Definition IRQ_KBD : Z := 1.
Definition IRQ_COM1 : Z := 4.
Definition IRQ_IDE : Z := 14.
Definition IRQ_SPURIOUS : Z := 31.

(** What the handler finds in the hardware: the number of the CPU, the fault
    address, and the bytes in the keyboard controller and the serial port. *)
Record hardware : Type := {
  hw_cpuid : Z;
  hw_cr2 : Z;
  hw_kbd : list Z;
  hw_uart : list Z
}.

Section Trap.
  Context `{Image} (void_result : Z -> Z).

(** [if(myproc()->killed) exit();] *)
Definition exit_if_killed : K unit :=
  i ← curproc;
  p ← get_proc i;
  if negb (p_killed p =? 0) then exit else mret tt.

Definition trap_syscall (tf : trapframe) : K unit :=
  exit_if_killed ;;
  i ← curproc;
  upd_proc i (fun p => p <| p_tf := tf |>) ;;
  syscall void_result ;;
  exit_if_killed.

Definition timer_tick (hw : hardware) : K unit :=
  if hw_cpuid hw =? 0 then
    acquire L_ticks ;;
    modify (fun k => k <| k_ticks := u32 (k_ticks k + 1) |>) ;;
    wakeup Ch_ticks ;;
    release L_ticks
  else mret tt.

(** The [default] case. *)
Definition unexpected (hw : hardware) (tf : trapframe) : K unit :=
  p ← myproc;
  match p with
  | None =>
      cprintf (bytes "unexpected trap %d from cpu %d eip %x (cr2=0x%x)" ++ [10])
        [PInt (tf_trapno tf); PInt (hw_cpuid hw); PInt (tf_eip tf); PInt (hw_cr2 hw)] ;;
      panic "trap"
  | Some i =>
      if Z.land (tf_cs tf) 3 =? 0 then
        cprintf (bytes "unexpected trap %d from cpu %d eip %x (cr2=0x%x)" ++ [10])
          [PInt (tf_trapno tf); PInt (hw_cpuid hw); PInt (tf_eip tf); PInt (hw_cr2 hw)] ;;
        panic "trap"
      else
        p ← get_proc i;
        cprintf (bytes "pid %d %s: trap %d err %d on cpu %d eip 0x%x addr 0x%x--kill proc" ++ [10])
          [PInt (p_pid p); PStr (cstring (p_name p)); PInt (tf_trapno tf); PInt (tf_err tf);
           PInt (hw_cpuid hw); PInt (tf_eip tf); PInt (hw_cr2 hw)] ;;
        upd_proc i (fun p => p <| p_killed := 1 |>)
  end.

(** The [switch], in the kernel that is linked with memide.o, where [ideintr]
    is that of memide.c; the handler of ide.c is [ideintr] of Ide.v.  The
    acknowledgement to the local APIC changes no state of the kernel. *)
Definition handle (hw : hardware) (tf : trapframe) : K unit :=
  let n := tf_trapno tf in
  if n =? T_IRQ0 + IRQ_TIMER then timer_tick hw
  else if n =? T_IRQ0 + IRQ_IDE then memide_intr
  else if n =? T_IRQ0 + IRQ_IDE + 1 then mret tt
  else if n =? T_IRQ0 + IRQ_KBD then kbdintr (hw_kbd hw)
  else if n =? T_IRQ0 + IRQ_COM1 then uartintr (hw_uart hw)
  else if (n =? T_IRQ0 + 7) || (n =? T_IRQ0 + IRQ_SPURIOUS) then
    cprintf (bytes "cpu%d: spurious interrupt at %x:%x" ++ [10])
      [PInt (hw_cpuid hw); PInt (tf_cs tf); PInt (tf_eip tf)]
  else unexpected hw tf.

(** [if(myproc() && myproc()->killed && (tf->cs&3) == DPL_USER) exit();] *)
Definition exit_user (tf : trapframe) : K unit :=
  p ← myproc;
  match p with
  | None => mret tt
  | Some i =>
      p ← get_proc i;
      if negb (p_killed p =? 0) && (Z.land (tf_cs tf) 3 =? DPL_USER) then exit else mret tt
  end.

Definition yield_on_tick (tf : trapframe) : K unit :=
  p ← myproc;
  match p with
  | None => mret tt
  | Some i =>
      p ← get_proc i;
      if bool_decide (p_state p = RUNNING) && (tf_trapno tf =? T_IRQ0 + IRQ_TIMER) then yield else mret tt
  end.

Definition trap (hw : hardware) (tf : trapframe) : K unit :=
  if tf_trapno tf =? T_SYSCALL then trap_syscall tf else
  handle hw tf ;;
  exit_user tf ;;
  yield_on_tick tf ;;
  exit_user tf.
End Trap.
