(* ===== verification/Machine.v ===== *)
(** The machine xv6 runs on: its other processors (mp.c), its interrupt
    controllers (lapic.c, ioapic.c, picirq.c), its clock (lapic.c), the
    serial port (uart.c) and the descriptor tables of the CPU (mmu.h, [tvinit]
    of trap.c, [seginit] of vm.c).

    What the code does to a device is a list of events; what a device answers
    is given by the [Board], from the events before. *)

From S2P Require Import Prelude Types Spinlock Proc Sleeplock Str Bytes Kalloc Process Trap.

(** ** Descriptors *)

Definition SEG_KCODE : Z := 1.
Definition SEG_KDATA : Z := 2.
Definition NSEGS : nat := 6.
Definition STA_X : Z := 0x8.
Definition STA_W : Z := 0x2.
Definition STA_R : Z := 0x2.
Definition STS_IG32 : Z := 0xE.
Definition STS_TG32 : Z := 0xF.

(** The fields of a [struct segdesc] and of a [struct gatedesc], each of its
    width. *)
Record segdesc : Type := mksegdesc {
  sd_lim_15_0 : Z; sd_base_15_0 : Z; sd_base_23_16 : Z; sd_type : Z; sd_s : Z; sd_dpl : Z; sd_p : Z;
  sd_lim_19_16 : Z; sd_avl : Z; sd_rsv1 : Z; sd_db : Z; sd_g : Z; sd_base_31_24 : Z
}.

Definition SEG (type base lim dpl : Z) : segdesc :=
  mksegdesc (Z.land (Z.shiftr lim 12) 0xffff) (Z.land (u32 base) 0xffff) (Z.land (Z.shiftr (u32 base) 16) 0xff)
    (type mod 16) 1 (dpl mod 4) 1 (Z.shiftr (u32 lim) 28) 0 0 1 1 (Z.shiftr (u32 base) 24).

Record gatedesc : Type := mkgate {
  gd_off_15_0 : Z; gd_cs : Z; gd_args : Z; gd_rsv1 : Z; gd_type : Z; gd_s : Z; gd_dpl : Z; gd_p : Z; gd_off_31_16 : Z
}.
Definition zero_gate : gatedesc := mkgate 0 0 0 0 0 0 0 0 0.

Definition SETGATE (istrap : bool) (sel off d : Z) : gatedesc :=
  mkgate (Z.land (u32 off) 0xffff) (u16 sel) 0 0 (if istrap then STS_TG32 else STS_IG32) 0 (d mod 4) 1
    (Z.shiftr (u32 off) 16).

(** ** The devices *)

Inductive event : Type :=
  | Outb (port v : Z)
  | Inb (port : Z)
  | Lapic_write (i v : Z)
  | Lapic_read (i : Z)
  | Ioapic_reg (v : Z)
  | Ioapic_write (v : Z)
  | Ioapic_read.

(** The answers of the devices (a sector from the disk, as [insl] reads it,
    among them), the entry points of vectors.S, and whether
    the CPU with the given APIC id comes up when it is started. *)
Class Board : Type := {
  bd_in : list event -> Z -> Z;
  bd_lapic : list event -> Z -> Z;
  bd_ioapic : list event -> Z;
  bd_vectors : Z -> Z;
  bd_starts : Z -> bool;
  bd_insl : list event -> list Z
}.

(** The variables of the code that has to do with the devices: [lapic],
    [ncpu], the [apicid], [gdt] and [started] of [cpus], [ioapicid], [idt] and
    [havedisk1]; and the table registers of the CPU, with the limits that
    [lidt] and [lgdt] load into them. *)
Record mach : Type := mkmach {
  m_trace : list event;
  m_lapic : Z;
  m_ncpu : Z;
  m_apicids : list Z;
  m_ioapicid : Z;
  m_idt : list gatedesc;
  m_gdt : list (option segdesc);
  m_idtr : option Z;
  m_gdtr : option Z;
  m_started : list bool;
  m_havedisk1 : bool
}.
Definition mach_eta (r : mach) :=
  mkmach (m_trace r) (m_lapic r) (m_ncpu r) (m_apicids r) (m_ioapicid r) (m_idt r) (m_gdt r)
    (m_idtr r) (m_gdtr r) (m_started r) (m_havedisk1 r).
#[export] Instance set_m_trace : Setter m_trace := ltac:(mk_setter mach_eta).
#[export] Instance set_m_lapic : Setter m_lapic := ltac:(mk_setter mach_eta).
#[export] Instance set_m_ncpu : Setter m_ncpu := ltac:(mk_setter mach_eta).
#[export] Instance set_m_apicids : Setter m_apicids := ltac:(mk_setter mach_eta).
#[export] Instance set_m_ioapicid : Setter m_ioapicid := ltac:(mk_setter mach_eta).
#[export] Instance set_m_idt : Setter m_idt := ltac:(mk_setter mach_eta).
#[export] Instance set_m_gdt : Setter m_gdt := ltac:(mk_setter mach_eta).
#[export] Instance set_m_idtr : Setter m_idtr := ltac:(mk_setter mach_eta).
#[export] Instance set_m_gdtr : Setter m_gdtr := ltac:(mk_setter mach_eta).
#[export] Instance set_m_started : Setter m_started := ltac:(mk_setter mach_eta).
#[export] Instance set_m_havedisk1 : Setter m_havedisk1 := ltac:(mk_setter mach_eta).

Definition NCPU : nat := 8.
Definition boot_mach : mach := mkmach [] 0 0 (replicate NCPU 0) 0 (replicate 256 zero_gate) (replicate NSEGS None)
  None None (replicate NCPU false) false.

Section Machine.
  Context `{Board}.

Definition emit (ev : event) : M mach unit := modify (fun s => s <| m_trace := m_trace s ++ [ev] |>).

Definition outb (port v : Z) : M mach unit := emit (Outb (u16 port) (u8 v)).
Definition inb (port : Z) : M mach Z :=
  v ← gets (fun s => u8 (bd_in (m_trace s) port)); emit (Inb port) ;; mret v.

(** ** ioapic.c *)

Definition REG_ID : Z := 0x00.
Definition REG_VER : Z := 0x01.
Definition REG_TABLE : Z := 0x10.
Definition INT_DISABLED : Z := 0x00010000.

Definition ioapicread (reg : Z) : M mach Z :=
  emit (Ioapic_reg reg) ;; v ← gets (fun s => u32 (bd_ioapic (m_trace s))); emit Ioapic_read ;; mret v.

Definition ioapicwrite (reg data : Z) : M mach unit := emit (Ioapic_reg reg) ;; emit (Ioapic_write (u32 data)).

(** The result says whether the ids differ, which is reported on the console. *)
Definition ioapicinit : M mach bool :=
  ver ← ioapicread REG_VER;
  let maxintr := Z.land (Z.shiftr ver 16) 0xFF in
  r ← ioapicread REG_ID;
  let id := Z.shiftr r 24 in
  own ← gets m_ioapicid;
  for_each (seq 0 (Z.to_nat (maxintr + 1))) (fun i =>
    let i := Z.of_nat i in
    ioapicwrite (REG_TABLE + 2 * i) (Z.lor INT_DISABLED (T_IRQ0 + i)) ;;
    ioapicwrite (REG_TABLE + 2 * i + 1) 0) ;;
  mret (negb (id =? own)).

Definition ioapicenable (irq cpunum : Z) : M mach unit :=
  ioapicwrite (REG_TABLE + 2 * irq) (T_IRQ0 + irq) ;;
  ioapicwrite (REG_TABLE + 2 * irq + 1) (Z.shiftl cpunum 24).

(** ** picirq.c *)

Definition IO_PIC1 : Z := 0x20.
Definition IO_PIC2 : Z := 0xA0.
Definition picinit : M mach unit := outb (IO_PIC1 + 1) 0xFF ;; outb (IO_PIC2 + 1) 0xFF.

(** ** uart.c *)

Definition COM1 : Z := 0x3f8.

(** Whether there is a serial port. *)
Definition uartinit : M mach bool :=
  outb (COM1 + 2) 0 ;;
  outb (COM1 + 3) 0x80 ;;
  outb (COM1 + 0) (115200 / 9600) ;;
  outb (COM1 + 1) 0 ;;
  outb (COM1 + 3) 0x03 ;;
  outb (COM1 + 4) 0 ;;
  outb (COM1 + 1) 0x01 ;;
  v ← inb (COM1 + 5);
  if v =? 0xFF then mret false else
  inb (COM1 + 2) ;;
  inb (COM1 + 0) ;;
  ioapicenable IRQ_COM1 0 ;;
  mret true.

(** ** trap.c and vm.c *)

Definition tvinit : M mach unit :=
  for_each (seq 0 256) (fun i =>
    modify (fun s => s <| m_idt := <[i := SETGATE false (Z.shiftl SEG_KCODE 3) (bd_vectors (Z.of_nat i)) 0]> (m_idt s) |>)) ;;
  modify (fun s => s <| m_idt := <[Z.to_nat T_SYSCALL :=
    SETGATE true (Z.shiftl SEG_KCODE 3) (bd_vectors T_SYSCALL) DPL_USER]> (m_idt s) |>).

(** [lidt(idt, sizeof(idt))]: 256 gates of 8 bytes. *)
Definition idtinit : M mach unit := modify (fun s => s <| m_idtr := Some (256 * 8 - 1) |>).

(** The table of the CPU it runs on. *)
Definition seginit : M mach unit :=
  let set i d := modify (fun s => s <| m_gdt := <[Z.to_nat i := Some d]> (m_gdt s) |>) in
  set SEG_KCODE (SEG (Z.lor STA_X STA_R) 0 0xffffffff 0) ;;
  set SEG_KDATA (SEG STA_W 0 0xffffffff 0) ;;
  set SEG_UCODE (SEG (Z.lor STA_X STA_R) 0 0xffffffff DPL_USER) ;;
  set SEG_UDATA (SEG STA_W 0 0xffffffff DPL_USER) ;;
  modify (fun s => s <| m_gdtr := Some (Z.of_nat NSEGS * 8 - 1) |>).

(** ** lapic.c: the local interrupt controller *)

Definition ID : Z := 0x0020 / 4.
Definition VER : Z := 0x0030 / 4.
Definition TPR : Z := 0x0080 / 4.
Definition EOI : Z := 0x00B0 / 4.
Definition SVR : Z := 0x00F0 / 4.
Definition ENABLE : Z := 0x00000100.
Definition ESR : Z := 0x0280 / 4.
Definition ICRLO : Z := 0x0300 / 4.
Definition INIT : Z := 0x00000500.
Definition STARTUP : Z := 0x00000600.
Definition DELIVS : Z := 0x00001000.
Definition ASSERT : Z := 0x00004000.
Definition LEVEL : Z := 0x00008000.
Definition BCAST : Z := 0x00080000.
Definition ICRHI : Z := 0x0310 / 4.
Definition TIMER : Z := 0x0320 / 4.
Definition X1 : Z := 0x0000000B.
Definition PERIODIC : Z := 0x00020000.
Definition PCINT : Z := 0x0340 / 4.
Definition LINT0 : Z := 0x0350 / 4.
Definition LINT1 : Z := 0x0360 / 4.
Definition ERROR : Z := 0x0370 / 4.
Definition MASKED : Z := 0x00010000.
Definition TICR : Z := 0x0380 / 4.
Definition TDCR : Z := 0x03E0 / 4.
Definition IRQ_ERROR : Z := 19.

Definition lapicr (index : Z) : M mach Z :=
  v ← gets (fun s => u32 (bd_lapic (m_trace s) index)); emit (Lapic_read index) ;; mret v.

Definition lapicw (index value : Z) : M mach unit :=
  emit (Lapic_write index (u32 value)) ;; lapicr ID ;; mret tt.

(** [while(lapic[ICRLO] & DELIVS);]: how long the message takes is up to the
    device. *)
Fixpoint wait_delivered (fuel : nat) : M mach unit :=
  match fuel with
  | O => undef "lapicinit: fuel"
  | S fuel => v ← lapicr ICRLO; if Z.land v DELIVS =? 0 then mret tt else wait_delivered fuel
  end.

Definition lapicinit (fuel : nat) : M mach unit :=
  lapic ← gets m_lapic;
  if lapic =? 0 then mret tt else
  lapicw SVR (Z.lor ENABLE (T_IRQ0 + IRQ_SPURIOUS)) ;;
  lapicw TDCR X1 ;;
  lapicw TIMER (Z.lor PERIODIC (T_IRQ0 + IRQ_TIMER)) ;;
  lapicw TICR 10000000 ;;
  lapicw LINT0 MASKED ;;
  lapicw LINT1 MASKED ;;
  ver ← lapicr VER;
  (if Z.land (Z.shiftr ver 16) 0xFF >=? 4 then lapicw PCINT MASKED else mret tt) ;;
  lapicw ERROR (T_IRQ0 + IRQ_ERROR) ;;
  lapicw ESR 0 ;;
  lapicw ESR 0 ;;
  lapicw EOI 0 ;;
  lapicw ICRHI 0 ;;
  lapicw ICRLO (Z.lor (Z.lor BCAST INIT) LEVEL) ;;
  wait_delivered fuel ;;
  lapicw TPR 0.

Definition lapicid : M mach Z :=
  lapic ← gets m_lapic;
  if lapic =? 0 then mret 0 else v ← lapicr ID; mret (Z.shiftr v 24).

Definition lapiceoi : M mach unit :=
  lapic ← gets m_lapic; if lapic =? 0 then mret tt else lapicw EOI 0.

Definition CMOS_PORT : Z := 0x70.
Definition CMOS_RETURN : Z := 0x71.

(** The warm reset vector is in memory; the new memory is the result. *)
Definition lapicstartap (apicid addr : Z) (m : mem) : M mach mem :=
  outb CMOS_PORT 0xF ;;
  outb (CMOS_PORT + 1) 0x0A ;;
  let wrv := P2V (Z.lor (Z.shiftl 0x40 4) 0x67) in
  let m := store wrv 0 (store (wrv + 1) 0 m) in
  let m := store (wrv + 2) (u8 (Z.shiftr addr 4)) (store (wrv + 3) (u8 (Z.shiftr addr 12)) m) in
  lapicw ICRHI (Z.shiftl apicid 24) ;;
  lapicw ICRLO (Z.lor (Z.lor INIT LEVEL) ASSERT) ;;
  lapicw ICRLO (Z.lor INIT LEVEL) ;;
  for_each (seq 0 2) (fun _ =>
    lapicw ICRHI (Z.shiftl apicid 24) ;;
    lapicw ICRLO (Z.lor STARTUP (Z.shiftr addr 12))) ;;
  mret m.

(** ** lapic.c: the clock *)

Definition CMOS_STATA : Z := 0x0a.
Definition CMOS_STATB : Z := 0x0b.
Definition CMOS_UIP : Z := Z.shiftl 1 7.
Definition SECS : Z := 0x00.
Definition MINS : Z := 0x02.
Definition HOURS : Z := 0x04.
Definition DAY : Z := 0x07.
Definition MONTH : Z := 0x08.
Definition YEAR : Z := 0x09.

Record rtcdate : Type := mkdate { second : Z; minute : Z; hour : Z; day : Z; month : Z; year : Z }.
#[global] Instance rtcdate_eq : EqDecision rtcdate.
Proof. solve_decision. Defined.

Definition cmos_read (reg : Z) : M mach Z := outb CMOS_PORT reg ;; inb CMOS_RETURN.

Definition fill_rtcdate : M mach rtcdate :=
  s ← cmos_read SECS; mi ← cmos_read MINS; h ← cmos_read HOURS;
  d ← cmos_read DAY; mo ← cmos_read MONTH; y ← cmos_read YEAR;
  mret (mkdate s mi h d mo y).

(** Until two readings agree. *)
Fixpoint stable_date (fuel : nat) : M mach rtcdate :=
  match fuel with
  | O => undef "cmostime: fuel"
  | S fuel =>
      t1 ← fill_rtcdate;
      sa ← cmos_read CMOS_STATA;
      if negb (Z.land sa CMOS_UIP =? 0) then stable_date fuel else
      t2 ← fill_rtcdate;
      if bool_decide (t1 = t2) then mret t1 else stable_date fuel
  end.

Definition CONV (x : Z) : Z := u32 (Z.shiftr x 4 * 10 + Z.land x 0xf).

Definition cmostime (fuel : nat) : M mach rtcdate :=
  sb ← cmos_read CMOS_STATB;
  let bcd := Z.land sb (Z.shiftl 1 2) =? 0 in
  t ← stable_date fuel;
  let t := if bcd then mkdate (CONV (second t)) (CONV (minute t)) (CONV (hour t)) (CONV (day t)) (CONV (month t)) (CONV (year t))
           else t in
  mret (mkdate (second t) (minute t) (hour t) (day t) (month t) (u32 (year t + 2000))).

(** ** mp.c *)

Definition MPPROC : Z := 0x00.
Definition MPBUS : Z := 0x01.
Definition MPIOAPIC : Z := 0x02.
Definition MPIOINTR : Z := 0x03.
Definition MPLINTR : Z := 0x04.

(** The [n] bytes at [a]. *)
Definition bytes_at (a : Z) (n : nat) (m : mem) : list Z := map (fun j => u8 (m (a + Z.of_nat j))) (seq 0 n).

(** [sum(addr, len)]. *)
Definition sum (addr : Z) (len : nat) (m : mem) : Z := u8 (s32 (fold_left Z.add (bytes_at addr len m) 0)).

Definition sizeof_mp : Z := 16.
Definition sizeof_mpconf : Z := 44.
Definition sizeof_mpproc : Z := 20.
Definition sizeof_mpioapic : Z := 8.

(** [memcmp(p, s, 4) == 0]. *)
Definition has_signature (p : Z) (s : string) (m : mem) : bool := bool_decide (bytes_at p 4 m = bytes s).

Definition mpsearch1 (a len : Z) (m : mem) : option Z :=
  let addr := P2V a in
  find (fun p => has_signature p "_MP_" m && (sum p (Z.to_nat sizeof_mp) m =? 0))
    (map (fun j => addr + sizeof_mp * Z.of_nat j) (seq 0 (Z.to_nat (len / sizeof_mp)))).

Definition mpsearch (m : mem) : option Z :=
  let bda j := u8 (m (P2V 0x400 + j)) in
  let p := Z.shiftl (Z.lor (Z.shiftl (bda 0x0F) 8) (bda 0x0E)) 4 in
  let r := if negb (p =? 0) then mpsearch1 p 1024 m
           else mpsearch1 (u32 (Z.lor (Z.shiftl (bda 0x14) 8) (bda 0x13) * 1024 - 1024)) 1024 m in
  match r with
  | Some mp => Some mp
  | None => mpsearch1 0xF0000 0x10000 m
  end.

(** The configuration table and the structure it was found by. *)
Definition mpconfig (m : mem) : option (Z * Z) :=
  match mpsearch m with
  | None => None
  | Some mp =>
      let physaddr := load32 (mp + 4) m in
      if physaddr =? 0 then None else
      let conf := P2V physaddr in
      if negb (has_signature conf "PCMP" m) then None else
      let version := u8 (m (conf + 6)) in
      if negb (version =? 1) && negb (version =? 4) then None else
      let length := u8 (m (conf + 4)) + 256 * u8 (m (conf + 5)) in
      if negb (sum conf (Z.to_nat length) m =? 0) then None else
      Some (conf, mp)
  end.

(** The entries from [p] to [e]; the result is [ismp].  Where the entry has no
    known type, [break] leaves the [switch] and [p] stays where it is. *)
Fixpoint mpinit_loop (fuel : nat) (p e : Z) (ismp : bool) (m : mem) : M mach bool :=
  if p <? e then
    match fuel with
    | O => undef "mpinit: fuel"
    | S fuel =>
        let type := u8 (m p) in
        if type =? MPPROC then
          n ← gets m_ncpu;
          (if n <? Z.of_nat NCPU then
             modify (fun s => s <| m_apicids := <[Z.to_nat n := u8 (m (p + 1))]> (m_apicids s) |>) ;;
             modify (fun s => s <| m_ncpu := n + 1 |>)
           else mret tt) ;;
          mpinit_loop fuel (p + sizeof_mpproc) e ismp m
        else if type =? MPIOAPIC then
          modify (fun s => s <| m_ioapicid := u8 (m (p + 1)) |>) ;;
          mpinit_loop fuel (p + sizeof_mpioapic) e ismp m
        else if (type =? MPBUS) || (type =? MPIOINTR) || (type =? MPLINTR) then
          mpinit_loop fuel (p + 8) e ismp m
        else mpinit_loop fuel p e false m
    end
  else mret ismp.

Definition mpinit (fuel : nat) (m : mem) : M mach unit :=
  match mpconfig m with
  | None => panic "Expect to run on an SMP"
  | Some (conf, mp) =>
      modify (fun s => s <| m_lapic := load32 (conf + 36) m |>) ;;
      let length := u8 (m (conf + 4)) + 256 * u8 (m (conf + 5)) in
      ismp ← mpinit_loop fuel (conf + sizeof_mpconf) (conf + length) true m;
      if negb ismp then panic "Didn't find a suitable machine" else
      if u8 (m (mp + 12)) =? 0 then mret tt else
      outb 0x22 0x70 ;;
      v ← inb 0x23;
      outb 0x23 (Z.lor v 1)
  end.
End Machine.

(** ** The processors of the table *)

(** An entry of the configuration table: its type, and the bytes behind it. *)
Inductive mp_entry : Type :=
  | Mp_proc (apicid : Z) (rest : list Z)
  | Mp_ioapic (apicno : Z) (rest : list Z)
  | Mp_other (type : Z) (rest : list Z).

Definition entry_bytes (en : mp_entry) : list Z :=
  match en with
  | Mp_proc id rest => MPPROC :: id :: rest
  | Mp_ioapic id rest => MPIOAPIC :: id :: rest
  | Mp_other type rest => type :: rest
  end.

Definition entry_ok (en : mp_entry) : Prop :=
  match en with
  | Mp_proc _ rest => length rest = 18%nat
  | Mp_ioapic _ rest => length rest = 6%nat
  | Mp_other type rest => (type = MPBUS \/ type = MPIOINTR \/ type = MPLINTR) /\ length rest = 7%nat
  end.

Definition table_bytes (es : list mp_entry) : list Z := concat (map entry_bytes es).
Definition apicids_of (es : list mp_entry) : list Z :=
  concat (map (fun en => match en with Mp_proc id _ => [id] | _ => [] end) es).

(** The state after the processors [ids] have been met. *)
Definition add_cpu (s : mach) (id : Z) : mach :=
  if m_ncpu s <? Z.of_nat NCPU
  then s <| m_apicids := <[Z.to_nat (m_ncpu s) := id]> (m_apicids s) |> <| m_ncpu := m_ncpu s + 1 |> else s.

Definition meet (s : mach) (en : mp_entry) : mach :=
  match en with
  | Mp_proc id _ => add_cpu s id
  | Mp_ioapic id _ => s <| m_ioapicid := id |>
  | Mp_other _ _ => s
  end.

Lemma bytes_at_cons a b l m : bytes_at a (length (b :: l)) m = b :: l -> u8 (m a) = b /\ bytes_at (a + 1) (length l) m = l.
Proof.
  unfold bytes_at. cbn [length seq map]. intros [= Hb Hl]. rewrite Z.add_0_r in Hb. split; [done|].
  rewrite <-Hl at 2. rewrite <-seq_shift, map_map. apply map_ext. intros j. do 2 f_equal. lia.
Qed.

Lemma bytes_at_app a l1 l2 m : bytes_at a (length (l1 ++ l2)) m = l1 ++ l2 ->
  bytes_at a (length l1) m = l1 /\ bytes_at (a + Z.of_nat (length l1)) (length l2) m = l2.
Proof.
  revert a. induction l1 as [|b l1 IH]; intros a E.
  - split; [done|]. by rewrite Z.add_0_r.
  - apply bytes_at_cons in E as [Hb E]. destruct (IH _ E) as [E1 E2]. split.
    + unfold bytes_at in *. cbn [length seq map]. rewrite Z.add_0_r, Hb. f_equal. rewrite <-E1 at 2.
      rewrite <-seq_shift, map_map. apply map_ext. intros j. do 2 f_equal. lia.
    + rewrite <-E2 at 2. f_equal. cbn [length]. lia.
Qed.

Lemma entry_size en : entry_ok en -> Z.of_nat (length (entry_bytes en)) =
  match en with Mp_proc _ _ => sizeof_mpproc | Mp_ioapic _ _ => sizeof_mpioapic | Mp_other _ _ => 8 end.
Proof. destruct en; cbn -[Z.of_nat]; [intros ->|intros ->|intros [_ ->]]; done. Qed.

Section Found.
  Context `{Board}.

(** One entry. *)
Lemma mpinit_entry fuel p q en m s e : entry_ok en -> bytes_at p (length (entry_bytes en)) m = entry_bytes en -> p < q ->
  mpinit_loop (S fuel) p q true m s e = mpinit_loop fuel (p + Z.of_nat (length (entry_bytes en))) q true m (meet s en) e.
Proof.
  intros Hen Hb Hpq. rewrite entry_size by done. cbn [mpinit_loop]. rewrite (proj2 (Z.ltb_lt p q) Hpq).
  destruct en as [id rest|id rest|type rest]; cbn [entry_bytes] in Hb; apply bytes_at_cons in Hb as [Ht Hb]; rewrite Ht.
  - apply bytes_at_cons in Hb as [Hid _]. change (MPPROC =? MPPROC) with true. cbv match. mrun. rewrite Hid. cbn [meet]. unfold add_cpu.
    destruct (m_ncpu s <? Z.of_nat NCPU) eqn:E; rewrite ?E; [rewrite bind_assoc|]; by mrun.
  - apply bytes_at_cons in Hb as [Hid _]. change (MPIOAPIC =? MPPROC) with false. change (MPIOAPIC =? MPIOAPIC) with true.
    cbv match. mrun. by rewrite Hid.
  - destruct Hen as [[->|[->| ->]] _]; done.
Qed.

Lemma mpinit_table es m : forall fuel p s e, Forall entry_ok es -> bytes_at p (length (table_bytes es)) m = table_bytes es ->
  (length es <= fuel)%nat -> forall q, p + Z.of_nat (length (table_bytes es)) <= q ->
  exists fuel', (fuel = length es + fuel')%nat /\ mpinit_loop fuel p q true m s e =
    mpinit_loop fuel' (p + Z.of_nat (length (table_bytes es))) q true m (fold_left meet es s) e.
Proof.
  induction es as [|en es IH]; intros fuel p s e Hes Hb Hf q Hq.
  - exists fuel. split; [done|]. by rewrite Z.add_0_r.
  - inversion_clear Hes as [|? ? Hen Hes']. change (table_bytes (en :: es)) with (entry_bytes en ++ table_bytes es) in *.
    apply bytes_at_app in Hb as [Hb1 Hb2]. rewrite length_app in *. destruct fuel as [|fuel]; [simpl in Hf; lia|].
    assert (0 < Z.of_nat (length (entry_bytes en))) by (rewrite entry_size by done; by destruct en).
    rewrite (mpinit_entry fuel p q en m s e) by (done || lia). destruct (IH fuel _ (meet s en) e Hes' Hb2 ltac:(simpl in Hf; lia) q) as (fuel' & -> & E); [lia|].
    exists fuel'. split; [done|]. rewrite E. f_equal. lia.
Qed.

Lemma fold_meet es : forall s, 0 <= m_ncpu s <= 8 -> length (m_apicids s) = NCPU ->
  let s' := fold_left meet es s in
  m_ncpu s' = Z.min 8 (m_ncpu s + Z.of_nat (length (apicids_of es))) /\
  take (Z.to_nat (m_ncpu s')) (m_apicids s') = take 8 (take (Z.to_nat (m_ncpu s)) (m_apicids s) ++ apicids_of es) /\
  m_lapic s' = m_lapic s /\ m_trace s' = m_trace s.
Proof.
  induction es as [|en es IH]; intros s Hn Hl; cbn [fold_left].
  - split; [simpl; lia|]. split; [|done]. rewrite app_nil_r, take_take. f_equal. lia.
  - unfold apicids_of in *. cbn [map concat]. destruct en as [id rest|id rest|type rest]; cbn [meet app].
    + unfold add_cpu. change (Z.of_nat NCPU) with 8. destruct (m_ncpu s <? 8) eqn:E.
      * destruct (IH (s <| m_apicids := <[Z.to_nat (m_ncpu s) := id]> (m_apicids s) |> <| m_ncpu := m_ncpu s + 1 |>)) as (E1 & E2 & E3);
          [rsimpl; lia|rsimpl; by rewrite length_insert|]. rsimpl_hyp E1. rsimpl_hyp E2. rsimpl_hyp E3.
        split; [rewrite E1; cbn [length]; lia|]. split; [|done]. rewrite E2. f_equal.
        replace (Z.to_nat (m_ncpu s + 1)) with (S (Z.to_nat (m_ncpu s))) by lia.
        rewrite (take_S_r _ _ id) by (apply list_lookup_insert_eq; unfold NCPU in Hl; lia). by rewrite take_insert_ge, <-app_assoc by lia.
      * destruct (IH s Hn Hl) as (E1 & E2 & E3). assert (m_ncpu s = 8) as E8 by lia. split; [rewrite E1; cbn [length]; lia|]. split; [|done].
        rewrite E2, E8. rewrite !take_app_le; [done|rewrite length_take, Hl; done..].
    + set (s1 := s <| m_ioapicid := id |>). exact (IH s1 Hn Hl).
    + by apply IH.
Qed.

Lemma fold_meet_other es : forall s,
  m_idt (fold_left meet es s) = m_idt s /\ m_started (fold_left meet es s) = m_started s.
Proof.
  induction es as [|en es IH]; intros s; cbn [fold_left]; [done|]. destruct (IH (meet s en)) as [-> ->].
  destruct en; cbn [meet]; [|done..]. unfold add_cpu. by case_match.
Qed.

Lemma mpinit_run m conf mp es fuel e :
  mpconfig m = Some (conf, mp) -> Forall entry_ok es ->
  u8 (m (conf + 4)) + 256 * u8 (m (conf + 5)) = sizeof_mpconf + Z.of_nat (length (table_bytes es)) ->
  bytes_at (conf + sizeof_mpconf) (length (table_bytes es)) m = table_bytes es -> (length es <= fuel)%nat ->
  exists s', mpinit fuel m boot_mach e = Ret tt s' e /\
    m_ncpu s' = Z.min 8 (Z.of_nat (length (apicids_of es))) /\
    take (Z.to_nat (m_ncpu s')) (m_apicids s') = take NCPU (apicids_of es) /\
    m_lapic s' = load32 (conf + 36) m /\ m_idt s' = m_idt boot_mach /\ m_started s' = m_started boot_mach.
Proof.
  intros Hc Hes Hlen Hb Hf. unfold mpinit. rewrite Hc, Hlen. mrun.
  set (s0 := boot_mach <| m_lapic := load32 (conf + 36) m |>).
  destruct (mpinit_table es m fuel (conf + sizeof_mpconf) s0 e Hes Hb Hf (conf + (sizeof_mpconf + Z.of_nat (length (table_bytes es)))))
    as (fuel' & _ & E); [lia|].
  destruct (fold_meet es s0) as (E1 & E2 & E3 & _); [done|done|]. destruct (fold_meet_other es s0) as [E4 E5]. set (s' := fold_left meet es s0) in *.
  assert (mpinit_loop fuel (conf + sizeof_mpconf) (conf + (sizeof_mpconf + Z.of_nat (length (table_bytes es)))) true m s0 e = Ret true s' e) as Hr.
  { rewrite E. replace (conf + sizeof_mpconf + Z.of_nat _) with (conf + (sizeof_mpconf + Z.of_nat (length (table_bytes es)))) by lia.
    destruct fuel'; cbn [mpinit_loop]; by rewrite Z.ltb_irrefl. }
  rewrite (bind_Ret _ _ _ _ _ _ _ Hr). cbn [negb]. destruct (u8 (m (mp + 12)) =? 0).
  - exists s'. by split_and!.
  - unfold outb, inb, emit. eexists. mrun. split; [done|]. by split_and!.
Qed.

(** C19: [mpinit] finds the processors of the machine.  Where the BIOS has
    left a configuration table of entries of the known types, it returns, the
    number of CPUs is that of the processor entries or [NCPU] if there are
    more, and their APIC ids are those of the first of these entries, in their
    order. *)
Theorem mpinit_finds_cpus m conf mp es fuel e :
  mpconfig m = Some (conf, mp) -> Forall entry_ok es ->
  u8 (m (conf + 4)) + 256 * u8 (m (conf + 5)) = sizeof_mpconf + Z.of_nat (length (table_bytes es)) ->
  bytes_at (conf + sizeof_mpconf) (length (table_bytes es)) m = table_bytes es -> (length es <= fuel)%nat ->
  exists s', mpinit fuel m boot_mach e = Ret tt s' e /\
    m_ncpu s' = Z.min 8 (Z.of_nat (length (apicids_of es))) /\
    take (Z.to_nat (m_ncpu s')) (m_apicids s') = take NCPU (apicids_of es) /\
    m_lapic s' = load32 (conf + 36) m.
Proof.
  intros Hc Hes Hlen Hb Hf. destruct (mpinit_run m conf mp es fuel e Hc Hes Hlen Hb Hf) as (s' & ? & ? & ? & ? & _). by exists s'.
Qed.

Lemma mpinit_stuck fuel p q ismp m s e : p < q -> MPLINTR < u8 (m p) ->
  mpinit_loop fuel p q ismp m s e = Undef "mpinit: fuel".
Proof.
  intros Hpq Ht. unfold MPLINTR in Ht. revert ismp. induction fuel as [|fuel IH]; intros ismp; cbn [mpinit_loop];
    rewrite (proj2 (Z.ltb_lt p q) Hpq); [done|].
  unfold MPPROC, MPIOAPIC, MPBUS, MPIOINTR, MPLINTR. set (t := u8 (m p)) in *.
  replace (t =? 0) with false by lia. replace (t =? 2) with false by lia. replace ((t =? 1) || (t =? 3) || (t =? 4)) with false by lia.
  apply IH.
Qed.

Lemma mpinit_table_stuck es t m : forall fuel p q s e, Forall entry_ok es ->
  bytes_at p (length (table_bytes es ++ [t])) m = table_bytes es ++ [t] -> MPLINTR < t ->
  p + Z.of_nat (length (table_bytes es)) < q -> mpinit_loop fuel p q true m s e = Undef "mpinit: fuel".
Proof.
  induction es as [|en es IH]; intros fuel p q s e Hes Hb Ht Hq.
  - apply bytes_at_cons in Hb as [Hb _]. apply mpinit_stuck; [simpl in Hq; lia|by rewrite Hb].
  - inversion_clear Hes as [|? ? Hen Hes']. change (table_bytes (en :: es)) with (entry_bytes en ++ table_bytes es) in *.
    rewrite <-app_assoc in Hb. apply bytes_at_app in Hb as [Hb1 Hb2]. rewrite length_app in Hq.
    destruct fuel as [|fuel]; [cbn [mpinit_loop]; by rewrite (proj2 (Z.ltb_lt p q)) by lia|].
    rewrite (mpinit_entry fuel p q en m s e) by (done || lia). apply IH; try done. lia.
Qed.

(** C20: [mpinit] does not return when the table has an entry of another type:
    where the code means to give up ([ismp = 0]), [break] leaves the [switch]
    only, and the loop comes back to the same entry for ever. *)
Theorem mpinit_unknown_entry m conf mp es t fuel e :
  mpconfig m = Some (conf, mp) -> Forall entry_ok es ->
  sizeof_mpconf + Z.of_nat (length (table_bytes es)) < u8 (m (conf + 4)) + 256 * u8 (m (conf + 5)) ->
  bytes_at (conf + sizeof_mpconf) (length (table_bytes es ++ [t])) m = table_bytes es ++ [t] ->
  MPLINTR < t -> mpinit fuel m boot_mach e = Undef "mpinit: fuel".
Proof.
  intros Hc Hes Hlen Hb Ht. unfold mpinit. rewrite Hc. mrun.
  apply bind_Undef. apply (mpinit_table_stuck es t); try done. lia.
Qed.
End Found.

(** ** Interrupts *)

(** What the registers of the I/O APIC hold after the events: a write goes to
    the register that was selected last. *)
Definition ioapic_step (st : Z * (Z -> option Z)) (ev : event) : Z * (Z -> option Z) :=
  match ev with
  | Ioapic_reg r => (r, snd st)
  | Ioapic_write v => (fst st, zupd (snd st) (fst st) (Some v))
  | _ => st
  end.
Definition ioapic_table (tr : list event) : Z -> option Z := snd (fold_left ioapic_step tr (0, fun _ => None)).

(** The entry point of a gate. *)
Definition gate_off (g : gatedesc) : Z := gd_off_15_0 g + 2 ^ 16 * gd_off_31_16 g.

Lemma gate_off_SETGATE istrap sel off d : 0 <= off < 2 ^ 32 -> gate_off (SETGATE istrap sel off d) = off.
Proof.
  intros H. unfold gate_off. cbn -[Z.shiftr Z.land Z.pow]. rewrite u32_small by done. change 0xffff with (Z.ones 16).
  rewrite Z.land_ones, Z.shiftr_div_pow2 by done. pose proof (Z.div_mod off (2 ^ 16) ltac:(done)). lia.
Qed.

Section Interrupts.
  Context `{Board}.
  Implicit Types (s : mach).

Lemma ioapicwrite_run r v s e : exists tr, ioapicwrite r v s e = Ret tt (s <| m_trace := tr |>) e /\
  ioapic_table tr = zupd (ioapic_table (m_trace s)) r (Some (u32 v)).
Proof.
  unfold ioapicwrite, emit. mrun. exists ((m_trace s ++ [Ioapic_reg r]) ++ [Ioapic_write (u32 v)]). split; [done|].
  unfold ioapic_table. by rewrite !fold_left_app.
Qed.

Lemma ioapicread_run r s e : exists tr v, ioapicread r s e = Ret v (s <| m_trace := tr |>) e /\
  ioapic_table tr = ioapic_table (m_trace s).
Proof.
  unfold ioapicread, emit. mrun. eexists _, _. split; [done|].
  rsimpl. unfold ioapic_table. by rewrite !fold_left_app.
Qed.

(** The two registers of a line: what it raises, and the CPU it goes to. *)
Definition line_reg (i : Z) : Z := REG_TABLE + 2 * i.
Definition dest_reg (i : Z) : Z := REG_TABLE + 2 * i + 1.

Lemma ioapicenable_run irq cpu s e : exists tr, ioapicenable irq cpu s e = Ret tt (s <| m_trace := tr |>) e /\
  ioapic_table tr = zupd (zupd (ioapic_table (m_trace s)) (line_reg irq) (Some (u32 (T_IRQ0 + irq)))) (dest_reg irq) (Some (u32 (Z.shiftl cpu 24))).
Proof.
  unfold ioapicenable. destruct (ioapicwrite_run (REG_TABLE + 2 * irq) (T_IRQ0 + irq) s e) as (tr1 & R1 & E1).
  rewrite (bind_Ret _ _ _ _ _ _ _ R1). set (s1 := s <| m_trace := tr1 |>).
  destruct (ioapicwrite_run (REG_TABLE + 2 * irq + 1) (Z.shiftl cpu 24) s1 e) as (tr2 & R2 & E2).
  exists tr2. split; [exact R2|]. rewrite E2. change (m_trace s1) with tr1. by rewrite E1.
Qed.

(** Every line is disabled. *)
Definition lines_off (n : Z) (tr : list event) : Prop :=
  forall i, 0 <= i < n -> ioapic_table tr (REG_TABLE + 2 * i) = Some (u32 (Z.lor INT_DISABLED (T_IRQ0 + i))).

Lemma ioapicinit_run s e : exists r tr, ioapicinit s e = Ret r (s <| m_trace := tr |>) e /\
  lines_off (Z.land (Z.shiftr (u32 (bd_ioapic (m_trace s ++ [Ioapic_reg REG_VER]))) 16) 0xFF + 1) tr.
Proof.
  unfold ioapicinit, ioapicread, emit. mrun. rsimpl. set (n := Z.land _ 0xFF). eexists.
  assert (0 <= n) as Hn by (unfold n; apply Z.land_nonneg; right; done).
  match goal with |- context [(for_each _ ?b ≫= _) ?s1 e] => pose (body := b); set (s0 := s1); fold body end.
  destruct (for_seq_inv body (fun t s' => exists tr, s' = s <| m_trace := tr |> /\ lines_off (Z.of_nat t) tr) e
    (Z.to_nat (n + 1)) 0 s0) as (s' & Hr & tr & -> & Hl).
  - exists (m_trace s0). split; [done|]. intros i Hi. lia.
  - intros t s1 Ht (tr & -> & Hl). unfold body. cbv zeta.
    set (s1 := s <| m_trace := tr |>).
    destruct (ioapicwrite_run (REG_TABLE + 2 * Z.of_nat t) (Z.lor INT_DISABLED (T_IRQ0 + Z.of_nat t)) s1 e) as (tr1 & R1 & E1).
    rewrite (bind_Ret _ _ _ _ _ _ _ R1). set (s2 := s1 <| m_trace := tr1 |>).
    destruct (ioapicwrite_run (REG_TABLE + 2 * Z.of_nat t + 1) 0 s2 e) as (tr2 & R2 & E2).
    exists (s <| m_trace := tr2 |>). split; [exact R2|]. exists tr2. split; [done|]. intros i Hi. rewrite E2. change (m_trace s2) with tr1.
    rewrite E1. change (m_trace s1) with tr. unfold zupd. zcases; try lia; [by replace (Z.of_nat t) with i by lia|]. apply Hl. lia.
  - exists tr. split; [by rewrite (bind_Ret _ _ _ _ _ _ _ Hr)|]. by rewrite Nat.add_0_l, Z2Nat.id in Hl by lia.
Qed.

Lemma enable_all_run irqs : forall s e, exists tr,
  for_each irqs (fun '(irq, cpu) => ioapicenable irq cpu) s e = Ret tt (s <| m_trace := tr |>) e /\
  (forall i, ioapic_table tr (line_reg i) =
    if decide (i ∈ irqs.*1) then Some (u32 (T_IRQ0 + i)) else ioapic_table (m_trace s) (line_reg i)) /\
  (forall i, i ∉ irqs.*1 -> ioapic_table tr (dest_reg i) = ioapic_table (m_trace s) (dest_reg i)) /\
  forall i cpu l1 l2, irqs = l1 ++ (i, cpu) :: l2 -> i ∉ l2.*1 -> ioapic_table tr (dest_reg i) = Some (u32 (Z.shiftl cpu 24)).
Proof.
  induction irqs as [|[irq cpu] irqs IH]; intros s e; cbn [for_each].
  - exists (m_trace s). split; [by destruct s|]. split; [intros i; by rewrite decide_False by set_solver|]. split; [done|].
    by intros i cpu [].
  - destruct (ioapicenable_run irq cpu s e) as (tr1 & R1 & E1). rewrite (bind_Ret _ _ _ _ _ _ _ R1).
    set (s1 := s <| m_trace := tr1 |>). destruct (IH s1 e) as (tr2 & R2 & E2 & E3 & E4). exists tr2. split; [exact R2|].
    change (m_trace s1) with tr1 in E2, E3. rewrite E1 in E2, E3. unfold zupd, line_reg, dest_reg in *. cbn [fmap list_fmap fst]. split; [|split].
    + intros i. rewrite E2. destruct (decide (i ∈ irqs.*1)); [by rewrite decide_True by set_solver|].
      destruct (Z.eqb_spec i irq) as [->|Hne]; [rewrite decide_True by set_solver|rewrite decide_False by set_solver]; zcases; try lia; done.
    + intros i Hi. rewrite E3 by set_solver. assert (i <> irq) by set_solver. zcases; try lia; done.
    + intros i c [|[i' c'] l1] l2 E Hi; injection E as E; [|by apply (E4 i c l1 l2)].
      intros; subst. rewrite E3 by done. zcases; try lia; done.
Qed.

(** The gates of the table. *)
Definition gate_of (n : Z) : gatedesc :=
  if n =? T_SYSCALL then SETGATE true (Z.shiftl SEG_KCODE 3) (bd_vectors n) DPL_USER
  else SETGATE false (Z.shiftl SEG_KCODE 3) (bd_vectors n) 0.

Lemma tvinit_run s e : length (m_idt s) = 256%nat -> exists idt, tvinit s e = Ret tt (s <| m_idt := idt |>) e /\
  forall n, 0 <= n < 256 -> idt !! Z.to_nat n = Some (gate_of n).
Proof.
  intros Hl. unfold tvinit.
  for_inv (fun t s' => exists idt, s' = s <| m_idt := idt |> /\ length idt = 256%nat /\
    forall n, (n < t)%nat -> idt !! n = Some (SETGATE false (Z.shiftl SEG_KCODE 3) (bd_vectors (Z.of_nat n)) 0)) as (s' & Hr & idt & -> & Hl' & Hg).
  - exists (m_idt s). split_and!; [by destruct s|done|lia].
  - intros t s1 Ht (idt & -> & Hl' & Hg). mrun. eexists. split; [done|]. rsimpl. eexists. split; [done|]. rewrite length_insert. split; [done|].
    intros n Hn. destruct (decide (n = t)) as [->|Hne]; [apply list_lookup_insert_eq; lia|].
    rewrite list_lookup_insert_ne by done. apply Hg. lia.
  - rewrite (bind_Ret _ _ _ _ _ _ _ Hr). mrun. eexists. split; [done|]. rsimpl. intros n Hn. unfold gate_of.
    destruct (Z.eqb_spec n T_SYSCALL) as [->|Hne].
    + apply list_lookup_insert_eq. unfold T_SYSCALL. lia.
    + rewrite list_lookup_insert_ne by (unfold T_SYSCALL in *; lia). rewrite Hg by lia. by rewrite Z2Nat.id by lia.
Qed.

Lemma line_word n : 0 <= n < 256 ->
  Z.land (u32 n) INT_DISABLED = 0 /\ Z.land (u32 n) 0xFF = n /\
  Z.land (u32 (Z.lor INT_DISABLED n)) INT_DISABLED <> 0 /\ Z.land (u32 (Z.lor INT_DISABLED n)) 0xFF = n.
Proof.
  intros Hn. pose proof (forall_byte (fun n => (Z.land (u32 n) INT_DISABLED =? 0) && (Z.land (u32 n) 0xFF =? n) &&
    negb (Z.land (u32 (Z.lor INT_DISABLED n)) INT_DISABLED =? 0) && (Z.land (u32 (Z.lor INT_DISABLED n)) 0xFF =? n)) eq_refl n Hn) as H1.
  cbv beta in H1. lia.
Qed.

(** C18: the interrupts that the drivers ask for reach [trap], and no others.
    After [ioapicinit], [tvinit] and any sequence of [ioapicenable], an
    interrupt line that was not enabled is masked; a line that was raises the
    interrupt that [trap] takes for it, on the CPU that was asked for last; and
    the gate of every interrupt enters the kernel's code segment at its vector,
    with interrupts off but for the system call.  User code can enter the
    kernel through the system-call gate only. *)
Theorem interrupts_reach_trap irqs s e : length (m_idt s) = 256%nat -> (forall n, 0 <= bd_vectors n < 2 ^ 32) ->
  exists s', (ioapicinit ;; tvinit ;; for_each irqs (fun '(irq, cpu) => ioapicenable irq cpu)) s e = Ret tt s' e /\
    (forall i, 0 <= i <= Z.land (Z.shiftr (u32 (bd_ioapic (m_trace s ++ [Ioapic_reg REG_VER]))) 16) 0xFF -> T_IRQ0 + i < 256 ->
       exists v, ioapic_table (m_trace s') (line_reg i) = Some v /\ (Z.land v INT_DISABLED = 0 <-> i ∈ irqs.*1) /\
         Z.land v 0xFF = T_IRQ0 + i) /\
    (forall i cpu l1 l2, irqs = l1 ++ (i, cpu) :: l2 -> i ∉ l2.*1 -> 0 <= cpu < 256 ->
       exists v, ioapic_table (m_trace s') (dest_reg i) = Some v /\ Z.shiftr v 24 = cpu) /\
    forall n, 0 <= n < 256 -> exists g, m_idt s' !! Z.to_nat n = Some g /\ gate_off g = bd_vectors n /\ gd_p g = 1 /\
      gd_cs g = Z.shiftl SEG_KCODE 3 /\ gd_s g = 0 /\
      (gd_dpl g = DPL_USER <-> n = T_SYSCALL) /\ gd_type g = (if n =? T_SYSCALL then STS_TG32 else STS_IG32).
Proof.
  intros Hl Hv. destruct (ioapicinit_run s e) as (r & tr1 & R1 & Hoff). rewrite (bind_Ret _ _ _ _ _ _ _ R1).
  set (s1 := s <| m_trace := tr1 |>). destruct (tvinit_run s1 e Hl) as (idt & R2 & Hg). rewrite (bind_Ret _ _ _ _ _ _ _ R2).
  set (s2 := s1 <| m_idt := idt |>). destruct (enable_all_run irqs s2 e) as (tr3 & R3 & E3 & _ & E4).
  eexists. split; [exact R3|]. rsimpl. split; [|split].
  - intros i Hi Hi'. rewrite E3. change (m_trace s2) with tr1. destruct (decide (i ∈ irqs.*1)) as [Hin|Hin].
    + eexists. split; [done|].
      destruct (line_word (T_IRQ0 + i)) as (-> & -> & _); [unfold T_IRQ0 in *; lia|done].
    + unfold line_reg. rewrite Hoff by lia. eexists. split; [done|]. destruct (line_word (T_IRQ0 + i)) as (_ & _ & Hd & ->); [unfold T_IRQ0 in *; lia|].
      split; [|done]. by split; intros.
  - intros i cpu l1 l2 E Hi Hc. eexists. split; [by apply (E4 i cpu l1 l2)|].
    rewrite Z.shiftl_mul_pow2, u32_small, Z.shiftr_div_pow2, Z.div_mul by lia. done.
  - intros n Hn. exists (gate_of n). split; [by apply Hg|]. unfold gate_of.
    destruct (Z.eqb_spec n T_SYSCALL) as [->|Hne]; rewrite gate_off_SETGATE by done; split_and!; done.
Qed.
End Interrupts.

(** ** The clock *)

(** A number below 100 as the clock holds it. *)
Definition clock_byte (bcd : bool) (x : Z) : Z := if bcd then 16 * (x / 10) + x mod 10 else x.

Lemma CONV_bcd x : 0 <= x < 100 -> CONV (u8 (clock_byte true x)) = x.
Proof.
  intros Hx. pose proof (forall_byte (fun x => negb (x <? 100) || (CONV (u8 (clock_byte true x)) =? x)) eq_refl x ltac:(lia)) as H1.
  cbv beta in H1. lia.
Qed.

(** The registers of a clock that stands at the date [d]. *)
Definition clock_regs (bcd : bool) (d : rtcdate) : list (Z * Z) :=
  [(SECS, clock_byte bcd (second d)); (MINS, clock_byte bcd (minute d)); (HOURS, clock_byte bcd (hour d));
   (DAY, clock_byte bcd (day d)); (MONTH, clock_byte bcd (month d)); (YEAR, clock_byte bcd (year d));
   (CMOS_STATA, 0); (CMOS_STATB, if bcd then 0 else 4)].

(** A read of the data port gives the register that was selected by the write
    before it. *)
Definition clock_at `{Board} (bcd : bool) (d : rtcdate) : Prop :=
  forall tr j reg x, clock_regs bcd d !! j = Some (reg, x) -> bd_in (tr ++ [Outb CMOS_PORT reg]) CMOS_RETURN = x.

Section Clock.
  Context `{Board} (bcd : bool) (d : rtcdate) (Hclock : clock_at bcd d).

Lemma cmos_read_run j reg x s e : clock_regs bcd d !! j = Some (reg, x) -> u8 reg = reg ->
  exists tr, cmos_read reg s e = Ret (u8 x) (s <| m_trace := tr |>) e.
Proof.
  intros Hin Hreg. unfold cmos_read, outb, inb, emit. mrun. rsimpl. rewrite Hreg. change (u16 CMOS_PORT) with CMOS_PORT.
  rewrite (Hclock _ _ _ _ Hin). by eexists.
Qed.

Definition clock_date : rtcdate :=
  let f x := u8 (clock_byte bcd x) in mkdate (f (second d)) (f (minute d)) (f (hour d)) (f (day d)) (f (month d)) (f (year d)).

Lemma fill_rtcdate_run s e : exists tr, fill_rtcdate s e = Ret clock_date (s <| m_trace := tr |>) e.
Proof.
  unfold fill_rtcdate.
  destruct (cmos_read_run 0 _ _ s e eq_refl eq_refl) as [t0 R0]. rewrite (bind_Ret _ _ _ _ _ _ _ R0). set (s0 := s <| m_trace := t0 |>).
  destruct (cmos_read_run 1 _ _ s0 e eq_refl eq_refl) as [t1 R1]. rewrite (bind_Ret _ _ _ _ _ _ _ R1). set (s1 := s0 <| m_trace := t1 |>).
  destruct (cmos_read_run 2 _ _ s1 e eq_refl eq_refl) as [t2 R2]. rewrite (bind_Ret _ _ _ _ _ _ _ R2). set (s2 := s1 <| m_trace := t2 |>).
  destruct (cmos_read_run 3 _ _ s2 e eq_refl eq_refl) as [t3 R3]. rewrite (bind_Ret _ _ _ _ _ _ _ R3). set (s3 := s2 <| m_trace := t3 |>).
  destruct (cmos_read_run 4 _ _ s3 e eq_refl eq_refl) as [t4 R4]. rewrite (bind_Ret _ _ _ _ _ _ _ R4). set (s4 := s3 <| m_trace := t4 |>).
  destruct (cmos_read_run 5 _ _ s4 e eq_refl eq_refl) as [t5 R5]. rewrite (bind_Ret _ _ _ _ _ _ _ R5). by exists t5.
Qed.

(** [cmostime] reads the clock: of a clock that stands still at a date of
    this century and holds it in binary or in decimal digits, it returns the
    date, at the first attempt. *)
Theorem cmostime_reads_date fuel s e :
  Forall (fun x => 0 <= x < 100) [second d; minute d; hour d; day d; month d; year d] ->
  exists tr, cmostime (S fuel) s e =
    Ret (mkdate (second d) (minute d) (hour d) (day d) (month d) (2000 + year d)) (s <| m_trace := tr |>) e.
Proof.
  intros Hd. rewrite !Forall_cons in Hd. destruct Hd as (H1 & H2 & H3 & H4 & H5 & H6 & _). unfold cmostime.
  destruct (cmos_read_run 7 _ _ s e eq_refl eq_refl) as [t0 R0]. rewrite (bind_Ret _ _ _ _ _ _ _ R0). set (s0 := s <| m_trace := t0 |>).
  cbn [stable_date]. rewrite bind_assoc.
  destruct (fill_rtcdate_run s0 e) as [t1 R1]. rewrite (bind_Ret _ _ _ _ _ _ _ R1). set (s1 := s0 <| m_trace := t1 |>).
  destruct (cmos_read_run 6 _ _ s1 e eq_refl eq_refl) as [t2 R2]. rewrite bind_assoc, (bind_Ret _ _ _ _ _ _ _ R2). set (s2 := s1 <| m_trace := t2 |>).
  change (negb (Z.land (u8 0) CMOS_UIP =? 0)) with false. cbv match. rewrite bind_assoc.
  destruct (fill_rtcdate_run s2 e) as [t3 R3]. rewrite (bind_Ret _ _ _ _ _ _ _ R3). rewrite bool_decide_true by done. mrun.
  exists t3. f_equal. unfold clock_date. destruct bcd; cbn -[u8 clock_byte u32 CONV].
  - change (Z.land (u8 0) (Z.shiftl 1 2) =? 0) with true. cbn -[u8 clock_byte u32 CONV].
    rewrite !CONV_bcd by done. f_equal. rewrite u32_small; lia.
  - change (Z.land (u8 4) (Z.shiftl 1 2) =? 0) with false. cbn -[u8 clock_byte u32 CONV]. unfold clock_byte. rewrite !u8_small by lia. f_equal. rewrite u32_small; lia.
Qed.
End Clock.

(** ** Instances *)

(** Two processors and an I/O APIC behind a bus, in a table at 0xF1000 that is
    found by way of the structure at 0xF0000. *)
Definition demo_entries : list mp_entry :=
  [Mp_proc 0 (replicate 18 0); Mp_proc 1 (replicate 18 0); Mp_other MPBUS (replicate 7 0); Mp_ioapic 2 (replicate 6 0)].
Definition demo_conf : list Z :=
  bytes "PCMP" ++ [100; 0; 1; 135] ++ replicate 28 0 ++ [0; 0; 224; 254] ++ replicate 4 0 ++ table_bytes demo_entries.
Definition demo_mp : list Z := bytes "_MP_" ++ [0; 16; 15; 0] ++ [1; 4; 129; 0] ++ replicate 4 0.
Definition demo_bios : mem := fun x =>
  let y := x - P2V 0xF0000 in
  if (0 <=? y) && (y <? 16) then default 0 (demo_mp !! Z.to_nat y)
  else if (0x1000 <=? y) && (y <? 0x1064) then default 0 (demo_conf !! Z.to_nat (y - 0x1000)) else 0.
#[local] Instance demo_board : Board := {
  bd_in := fun tr _ => match last tr with
    | Some (Outb _ reg) => match find (fun r => fst r =? reg) (clock_regs true (mkdate 59 30 23 31 12 26)) with Some r => snd r | None => 0 end
    | _ => 0 end;
  bd_lapic := fun _ _ => 0;
  bd_ioapic := fun _ => 0x170000;
  bd_vectors := fun n => KERNBASE + 16 * (n mod 256);
  bd_starts := fun _ => true;
  bd_insl := fun _ => replicate 512 0
}.

Lemma mpinit_finds_cpus_witness : exists s', mpinit 10 demo_bios boot_mach [] = Ret tt s' [] /\ m_ncpu s' = 2 /\
  take 2 (m_apicids s') = [0; 1].
Proof.
  destruct (mpinit_finds_cpus demo_bios (P2V 0xF1000) (P2V 0xF0000) demo_entries 10 []) as (s' & Hr & Hn & Hi & _).
  - vm_compute. reflexivity.
  - repeat constructor.
  - vm_compute. reflexivity.
  - vm_compute. reflexivity.
  - simpl. lia.
  - exists s'. split_and!; [exact Hr|exact Hn|]. rewrite Hn in Hi. exact Hi.
Defined.

(** The same table with a last entry of type 9. *)
Definition odd_bios : mem := fun x => if x =? P2V 0xF1000 + 92 then 9 else if x =? P2V 0xF1000 + 7 then 128 else demo_bios x.

Lemma mpinit_unknown_entry_witness : mpinit 1000 odd_bios boot_mach [] = Undef "mpinit: fuel".
Proof.
  apply (mpinit_unknown_entry odd_bios (P2V 0xF1000) (P2V 0xF0000) (take 3 demo_entries) 9).
  - vm_compute. reflexivity.
  - repeat constructor.
  - vm_compute. reflexivity.
  - vm_compute. reflexivity.
  - reflexivity.
Defined.

Lemma interrupts_reach_trap_witness : exists s',
  (ioapicinit ;; tvinit ;; for_each [(IRQ_KBD, 0); (IRQ_COM1, 0); (IRQ_IDE, 1)] (fun '(irq, cpu) => ioapicenable irq cpu)) boot_mach [] = Ret tt s' [] /\
  (exists v, ioapic_table (m_trace s') (line_reg IRQ_IDE) = Some v /\ Z.land v INT_DISABLED = 0) /\
  exists v, ioapic_table (m_trace s') (dest_reg IRQ_IDE) = Some v /\ Z.shiftr v 24 = 1.
Proof.
  destruct (interrupts_reach_trap [(IRQ_KBD, 0); (IRQ_COM1, 0); (IRQ_IDE, 1)] boot_mach [] eq_refl) as (s' & Hr & Hi & Hd & _).
  { intros n. unfold bd_vectors, demo_board, KERNBASE. pose proof (Z.mod_pos_bound n 256 ltac:(lia)). lia. }
  exists s'. split; [exact Hr|]. split.
  - destruct (Hi IRQ_IDE) as (v & Hv & [_ Hm] & _); [split; [done|vm_compute; done]|done|].
    exists v. split; [exact Hv|]. apply Hm. right. right. left.
  - apply (Hd IRQ_IDE 1 [(IRQ_KBD, 0); (IRQ_COM1, 0)] []); [done|apply not_elem_of_nil|done].
Defined.

Lemma cmostime_reads_date_witness : exists tr,
  cmostime 1 boot_mach [] = Ret (mkdate 59 30 23 31 12 2026) (boot_mach <| m_trace := tr |>) [].
Proof.
  apply (cmostime_reads_date true (mkdate 59 30 23 31 12 26)).
  - intros tr j reg x Hj. unfold bd_in, demo_board. rewrite last_snoc. do 8 (destruct j as [|j]; [injection Hj as <- <-; reflexivity|]). done.
  - repeat constructor; cbn; lia.
Defined.
