(* ===== verification/Ide.v ===== *)
(** The driver of the IDE disks (ide.c): the queue of requests, the programming
    of the drive and the interrupt handler.  Each routine runs under
    [idelock], so the steps of the system are whole routines; a process in
    [iderw] sleeps between the step that queues its buffer and the one that
    finds it done.  The drive is a parameter.  [ideinit], which runs before
    that, works on the machine's ports. *)

From S2P Require Import Prelude Types Bio Trap Machine.

Definition SECTOR_SIZE : Z := 512.
Definition IDE_BSY : Z := 0x80.
Definition IDE_DRDY : Z := 0x40.
Definition IDE_DF : Z := 0x20.
Definition IDE_ERR : Z := 0x01.

Definition IDE_CMD_READ : Z := 0x20.
Definition IDE_CMD_WRITE : Z := 0x30.
Definition IDE_CMD_RDMUL : Z := 0xc4.
Definition IDE_CMD_WRMUL : Z := 0xc5.

(** [status] reads the status register.  The loop ends when the drive gets
    ready. *)
Fixpoint idewait {S} (status : M S Z) (fuel : nat) (checkerr : bool) : M S Z :=
  match fuel with
  | O => undef "idewait: fuel"
  | Datatypes.S fuel =>
      r ← status;
      if negb (Z.land r (Z.lor IDE_BSY IDE_DRDY) =? IDE_DRDY) then idewait status fuel checkerr else
      if checkerr && negb (Z.land r (Z.lor IDE_DF IDE_ERR) =? 0) then mret (-1) else mret 0
  end.

(** ** The start

    [ideinit] runs before there are requests, with the ports of the machine. *)
Section Init.
  Context `{Board}.

(** The search for disk 1: at most [n] polls. *)
Fixpoint find_disk1 (n : nat) : M mach unit :=
  match n with
  | O => mret tt
  | S n =>
      r ← inb 0x1f7;
      if negb (r =? 0) then modify (fun s => s <| m_havedisk1 := true |>) else find_disk1 n
  end.

Definition ideinit (fuel : nat) : M mach unit :=
  n ← gets m_ncpu;
  ioapicenable IRQ_IDE (n - 1) ;;
  idewait (inb 0x1f7) fuel false ;;
  outb 0x1f6 (Z.lor 0xe0 (Z.shiftl 1 4)) ;;
  find_disk1 1000 ;;
  outb 0x1f6 (Z.lor 0xe0 (Z.shiftl 0 4)).
End Init.

(** ** The drive

    What the driver sees of an ATA drive in PIO mode: for how many more polls
    of the status it is busy, whether the last command failed, the registers,
    the disks (drive 0 or 1, sector), and the read whose data is to be fetched
    from the data port. *)
Record view : Type := mkview {
  v_wait : nat;
  v_err : bool;
  v_reg : Z -> Z;
  v_disk : Z -> Z -> block;
  v_read : option (Z * Z)
}.
Definition view_eta (r : view) := mkview (v_wait r) (v_err r) (v_reg r) (v_disk r) (v_read r).
#[export] Instance set_v_wait : Setter v_wait := ltac:(mk_setter view_eta).
#[export] Instance set_v_err : Setter v_err := ltac:(mk_setter view_eta).
#[export] Instance set_v_reg : Setter v_reg := ltac:(mk_setter view_eta).
#[export] Instance set_v_disk : Setter v_disk := ltac:(mk_setter view_eta).
#[export] Instance set_v_read : Setter v_read := ltac:(mk_setter view_eta).

(** The drive and the sector that the registers select. *)
Definition selected (reg : Z -> Z) : Z * Z :=
  (Z.land (Z.shiftr (reg 0x1f6) 4) 1,
   reg 0x1f3 + Z.shiftl (reg 0x1f4) 8 + Z.shiftl (reg 0x1f5) 16 + Z.shiftl (Z.land (reg 0x1f6) 15) 24).

(** What the drive does: a busy drive shows it in its status and gets ready;
    the status of a ready drive says whether the last command failed; a ready
    drive takes register writes, a command to read one sector, and a command to
    write one sector followed by the bytes; after a read that has not failed
    the data port gives the sector. *)
Class Drive (D : Type) : Type := {
  dv : D -> view;
  outb : Z -> Z -> D -> D;
  outsl : block -> D -> D;
  inb : D -> Z * D;
  insl : D -> block * D;
  inb_busy d n : v_wait (dv d) = S n -> exists v d', inb d = (v, d') /\
    Z.land v (Z.lor IDE_BSY IDE_DRDY) <> IDE_DRDY /\ dv d' = dv d <| v_wait := n |>;
  inb_ready d : v_wait (dv d) = O -> exists v d', inb d = (v, d') /\
    Z.land v (Z.lor IDE_BSY IDE_DRDY) = IDE_DRDY /\ (Z.land v (Z.lor IDE_DF IDE_ERR) <> 0 <-> v_err (dv d) = true) /\ dv d' = dv d;
  outb_reg p v d : p ∈ [0x3f6; 0x1f2; 0x1f3; 0x1f4; 0x1f5; 0x1f6] -> v_wait (dv d) = O ->
    dv (outb p v d) = dv d <| v_reg := zupd (v_reg (dv d)) p v |>;
  outb_read d : v_wait (dv d) = O -> v_reg (dv d) 0x1f2 = 1 -> exists n err,
    dv (outb 0x1f7 IDE_CMD_READ d) = dv d <| v_wait := n |> <| v_err := err |> <| v_read := Some (selected (v_reg (dv d))) |>;
  outb_write d b : v_wait (dv d) = O -> v_reg (dv d) 0x1f2 = 1 -> length b = BSIZE -> exists n err,
    let s := selected (v_reg (dv d)) in
    dv (outsl b (outb 0x1f7 IDE_CMD_WRITE d)) = dv d <| v_wait := n |> <| v_err := err |> <| v_read := None |>
      <| v_disk := zupd (v_disk (dv d)) (fst s) (zupd (v_disk (dv d) (fst s)) (snd s) b) |>;
  insl_read d s : v_wait (dv d) = O -> v_err (dv d) = false -> v_read (dv d) = Some s -> exists d',
    insl d = (v_disk (dv d) (fst s) (snd s), d') /\ dv d' = dv d <| v_read := None |>
}.

(** ** The state of the driver *)

Section Driver.
  Context {D : Type} `{Drive D}.

(** [i_havedisk1] is what [ideinit] found; [wakeup(b)] is recorded in
    [i_woken]. *)
Record ide : Type := mkide {
  i_bufs : list buf;
  i_queue : option nat;
  i_qnext : nat -> option nat;
  i_havedisk1 : bool;
  i_drive : D;
  i_woken : list nat
}.
Definition ide_eta (r : ide) :=
  mkide (i_bufs r) (i_queue r) (i_qnext r) (i_havedisk1 r) (i_drive r) (i_woken r).
#[export] Instance set_i_bufs : Setter i_bufs := ltac:(mk_setter ide_eta).
#[export] Instance set_i_queue : Setter i_queue := ltac:(mk_setter ide_eta).
#[export] Instance set_i_qnext : Setter i_qnext := ltac:(mk_setter ide_eta).
#[export] Instance set_i_havedisk1 : Setter i_havedisk1 := ltac:(mk_setter ide_eta).
#[export] Instance set_i_drive : Setter i_drive := ltac:(mk_setter ide_eta).
#[export] Instance set_i_woken : Setter i_woken := ltac:(mk_setter ide_eta).

Definition get_ibuf (b : nat) : M ide buf :=
  r ← gets (fun s => i_bufs s !! b); deref "bad buf pointer" r.
Definition upd_ibuf (b : nat) (f : buf -> buf) : M ide unit :=
  modify (fun s => s <| i_bufs := alter f b (i_bufs s) |>).

Definition out (p v : Z) : M ide unit := modify (fun s => s <| i_drive := outb p v (i_drive s) |>).
Definition in_status : M ide Z := fun s e =>
  let '(v, d) := inb (i_drive s) in Ret v (s <| i_drive := d |>) e.

(** ** ide.c *)

(** The polls it takes. *)
Definition idewait_all (checkerr : bool) : M ide Z := fun s e => idewait in_status (S (v_wait (dv (i_drive s)))) checkerr s e.

Definition idestart (b : option nat) : M ide unit :=
  match b with
  | None => panic "idestart"
  | Some b =>
      r ← get_ibuf b;
      if b_blockno r >=? FSSIZE then panic "incorrect blockno" else
      let sector_per_block := Z.of_nat BSIZE / SECTOR_SIZE in
      let sector := s32 (b_blockno r * sector_per_block) in
      let read_cmd := if sector_per_block =? 1 then IDE_CMD_READ else IDE_CMD_RDMUL in
      let write_cmd := if sector_per_block =? 1 then IDE_CMD_WRITE else IDE_CMD_WRMUL in
      if sector_per_block >? 7 then panic "idestart" else
      idewait_all false ;;
      out 0x3f6 0 ;;
      out 0x1f2 sector_per_block ;;
      out 0x1f3 (Z.land sector 0xff) ;;
      out 0x1f4 (Z.land (Z.shiftr sector 8) 0xff) ;;
      out 0x1f5 (Z.land (Z.shiftr sector 16) 0xff) ;;
      out 0x1f6 (Z.lor (Z.lor 0xe0 (Z.shiftl (Z.land (b_dev r) 1) 4)) (Z.land (Z.shiftr sector 24) 0x0f)) ;;
      if negb (Z.land (b_flags r) B_DIRTY =? 0) then
        out 0x1f7 write_cmd ;;
        modify (fun s => s <| i_drive := outsl (b_data r) (i_drive s) |>)
      else out 0x1f7 read_cmd
  end.

Definition in_data (b : nat) : M ide unit := fun s e =>
  let '(d, dr) := insl (i_drive s) in
  Ret tt (s <| i_drive := dr |> <| i_bufs := alter (fun r => r <| b_data := d |>) b (i_bufs s) |>) e.

(** "Read data if needed." *)
Definition intr_data (b : nat) (r : buf) : M ide unit :=
  if Z.land (b_flags r) B_DIRTY =? 0 then
    w ← idewait_all true;
    if 0 <=? w then in_data b else mret tt
  else mret tt.

Definition ideintr : M ide unit :=
  q ← gets i_queue;
  match q with
  | None => mret tt
  | Some b =>
      modify (fun s => s <| i_queue := i_qnext s b |>) ;;
      r ← get_ibuf b;
      intr_data b r ;;
      upd_ibuf b (fun r => r <| b_flags := Z.lor (b_flags r) B_VALID |>) ;;
      upd_ibuf b (fun r => r <| b_flags := Z.land (b_flags r) (Z.lnot B_DIRTY) |>) ;;
      modify (fun s => s <| i_woken := i_woken s ++ [b] |>) ;;
      q ← gets i_queue;
      match q with
      | None => mret tt
      | Some _ => idestart q
      end
  end.

(** The last place of the queue, where [*pp] is zero: the end of the queue
    after [b], within [fuel] links. *)
Fixpoint last_link (fuel : nat) (qnext : nat -> option nat) (b : nat) : option nat :=
  match fuel with
  | O => None
  | S fuel => match qnext b with None => Some b | Some c => last_link fuel qnext c end
  end.

(** [iderw(b)] up to its wait; [held] is whether the caller holds the lock of
    the buffer.  A queue has each buffer at most once, so it has no more links
    than there are buffers. *)
Definition iderw_queue (held : bool) (b : nat) : M ide unit :=
  if negb held then panic "iderw: buf not locked" else
  r ← get_ibuf b;
  if Z.land (b_flags r) (Z.lor B_VALID B_DIRTY) =? B_VALID then panic "iderw: nothing to do" else
  havedisk1 ← gets i_havedisk1;
  if negb (b_dev r =? 0) && negb havedisk1 then panic "iderw: ide disk 1 not present" else
  modify (fun s => s <| i_qnext := fun c => if decide (c = b) then None else i_qnext s c |>) ;;
  q ← gets i_queue;
  match q with
  | None => modify (fun s => s <| i_queue := Some b |>)
  | Some h =>
      pp ← gets (fun s => last_link (length (i_bufs s)) (i_qnext s) h);
      pp ← deref "iderw: queue without end" pp;
      modify (fun s => s <| i_qnext := fun c => if decide (c = pp) then Some b else i_qnext s c |>)
  end ;;
  q ← gets i_queue;
  if bool_decide (q = Some b) then idestart (Some b) else mret tt.

(** The condition of the wait is over. *)
Definition iderw_done (b : nat) (s : ide) : bool :=
  match i_bufs s !! b with
  | Some r => Z.land (b_flags r) (Z.lor B_VALID B_DIRTY) =? B_VALID
  | None => false
  end.

(** ** Programming the drive *)

Lemma idewait_run fuel checkerr s e : (v_wait (dv (i_drive s)) < fuel)%nat ->
  exists d, idewait in_status fuel checkerr s e =
      Ret (if checkerr && v_err (dv (i_drive s)) then -1 else 0) (s <| i_drive := d |>) e /\
    dv d = dv (i_drive s) <| v_wait := O |>.
Proof.
  revert s. induction fuel as [|fuel IH]; intros s Hf; [lia|]. cbn [idewait]. unfold mbind, M_bind. unfold in_status at 1.
  destruct (v_wait (dv (i_drive s))) as [|n] eqn:Hw.
  - destruct (inb_ready _ Hw) as (v & d & -> & Hr & He & Hd). rewrite Hr, Z.eqb_refl. cbn [negb].
    exists d. split; [|rewrite Hd; destruct (dv (i_drive s)); simpl in *; by subst].
    destruct checkerr; [|done]. cbn [andb]. destruct (Z.eqb_spec (Z.land v (Z.lor IDE_DF IDE_ERR)) 0) as [E|E]; cbn [negb].
    + destruct (v_err (dv (i_drive s))); [|done]. exfalso. by apply (proj2 He).
    + by rewrite (proj1 He E).
  - destruct (inb_busy _ _ Hw) as (v & d & -> & Hb & Hd). replace (_ =? IDE_DRDY) with false by (symmetry; by apply Z.eqb_neq).
    cbn [negb]. destruct (IH (s <| i_drive := d |>)) as (d' & E & Hd'); rsimpl.
    { rewrite Hd. rsimpl. lia. }
    rsimpl in E. rsimpl in Hd'. rewrite Hd in E, Hd'. rsimpl in E. rsimpl in Hd'. exists d'. by rewrite E, Hd'.
Qed.

Lemma idewait_all_run checkerr s e :
  exists d, idewait_all checkerr s e =
      Ret (if checkerr && v_err (dv (i_drive s)) then -1 else 0) (s <| i_drive := d |>) e /\
    dv d = dv (i_drive s) <| v_wait := O |>.
Proof. apply idewait_run. lia. Qed.

(** The drive and the sector of a buffer. *)
Definition place (r : buf) : Z * Z := (Z.land (b_dev r) 1, b_blockno r).
Definition dirty (r : buf) : bool := negb (Z.land (b_flags r) B_DIRTY =? 0).

(** The registers select the place of the buffer. *)
Definition place_regs (reg : Z -> Z) (r : buf) : Z -> Z :=
  let sector := b_blockno r in
  zupd (zupd (zupd (zupd (zupd (zupd reg 0x3f6 0) 0x1f2 1) 0x1f3 (Z.land sector 0xff)) 0x1f4 (Z.land (Z.shiftr sector 8) 0xff))
    0x1f5 (Z.land (Z.shiftr sector 16) 0xff))
    0x1f6 (Z.lor (Z.lor 0xe0 (Z.shiftl (Z.land (b_dev r) 1) 4)) (Z.land (Z.shiftr sector 24) 0x0f)).

Lemma place_selected reg r : 0 <= b_blockno r < FSSIZE -> selected (place_regs reg r) = place r.
Proof.
  intros Hb. unfold selected, place_regs, place, zupd. cbn [Z.eqb Pos.eqb]. set (s := b_blockno r) in *.
  assert (Z.land (b_dev r) 1 = 0 \/ Z.land (b_dev r) 1 = 1) as Hd.
  { pose proof (Z.land_ones (b_dev r) 1 ltac:(lia)) as E. change (Z.ones 1) with 1 in E. rewrite E. pose proof (Z.mod_pos_bound (b_dev r) (2 ^ 1) ltac:(lia)). lia. }
  assert (forallb (fun n => let s := Z.of_nat n in
    (Z.land s 0xff + Z.shiftl (Z.land (Z.shiftr s 8) 0xff) 8 + Z.shiftl (Z.land (Z.shiftr s 16) 0xff) 16 =? s) &&
    (Z.land (Z.shiftr s 24) 0x0f =? 0)) (seq 0 1000) = true) as Hall by (vm_compute; reflexivity).
  rewrite forallb_forall in Hall. specialize (Hall (Z.to_nat s)). unfold FSSIZE in Hb. rewrite Z2Nat.id in Hall by lia.
  specialize (Hall ltac:(apply in_seq; lia)). apply andb_prop in Hall as [Hs%Z.eqb_eq H24%Z.eqb_eq]. rewrite H24.
  destruct Hd as [-> | ->]; cbn [Z.land Z.lor Z.shiftl Z.shiftr]; f_equal; rewrite Hs; apply Z.add_0_r.
Qed.

(** ** Requests *)

(** A buffer that the drive can work on and that has something to do. *)
Record request (r : buf) : Prop := {
  rq_block : 0 <= b_blockno r < FSSIZE;
  rq_flags : b_flags r ∈ [0; B_DIRTY; Z.lor B_VALID B_DIRTY];
  rq_data : length (b_data r) = BSIZE
}.

(** The disks after the request has been given to the drive. *)
Definition written (r : buf) (disk : Z -> Z -> block) : Z -> Z -> block :=
  if dirty r then zupd disk (fst (place r)) (zupd (disk (fst (place r))) (snd (place r)) (b_data r)) else disk.

(** The drive works on the request. *)
Definition started (v : view) (r : buf) : Prop :=
  if dirty r then v_read v = None /\ v_disk v (fst (place r)) (snd (place r)) = b_data r else v_read v = Some (place r).

Lemma out_run p v s e : out p v s e = Ret tt (s <| i_drive := outb p v (i_drive s) |>) e.
Proof. done. Qed.

(** The six register writes of [idestart]. *)
Definition set_place (r : buf) (d : D) : D :=
  outb 0x1f6 (Z.lor (Z.lor 0xe0 (Z.shiftl (Z.land (b_dev r) 1) 4)) (Z.land (Z.shiftr (b_blockno r) 24) 0x0f))
    (outb 0x1f5 (Z.land (Z.shiftr (b_blockno r) 16) 0xff) (outb 0x1f4 (Z.land (Z.shiftr (b_blockno r) 8) 0xff)
      (outb 0x1f3 (Z.land (b_blockno r) 0xff) (outb 0x1f2 1 (outb 0x3f6 0 d))))).

Lemma set_place_view r d : v_wait (dv d) = O -> dv (set_place r d) = dv d <| v_reg := place_regs (v_reg (dv d)) r |>.
Proof.
  intros Hw.
  assert (forall p v (x : D) f, p ∈ [0x3f6; 0x1f2; 0x1f3; 0x1f4; 0x1f5; 0x1f6] -> dv x = dv d <| v_reg := f |> ->
    dv (outb p v x) = dv d <| v_reg := zupd f p v |>) as Hout.
  { intros p v x f Hp Hx. rewrite outb_reg by (rewrite ?Hx; done). by rewrite Hx. }
  unfold set_place, place_regs. do 5 (apply Hout; [set_solver|]). rewrite outb_reg by (done || set_solver). done.
Qed.

Lemma idestart_run b r s e : i_bufs s !! b = Some r -> request r ->
  exists d, idestart (Some b) s e = Ret tt (s <| i_drive := d |>) e /\ started (dv d) r /\
    v_disk (dv d) = written r (v_disk (dv (i_drive s))).
Proof.
  intros Hb [Hblk Hfl Hdata]. unfold idestart, get_ibuf. mrun. rewrite Hb. mrun.
  replace (b_blockno r >=? FSSIZE) with false by lia. change (Z.of_nat BSIZE / SECTOR_SIZE) with 1.
  change (1 >? 7) with false. change (1 =? 1) with true. cbv iota.
  rewrite Z.mul_1_r, s32_small by (unfold FSSIZE in *; lia).
  destruct (idewait_all_run false s e) as (d0 & E0 & H0). rewrite (bind_Ret _ _ _ _ _ _ _ E0). clear E0. rsimpl.
  do 6 (rewrite (bind_Ret _ _ _ _ _ _ _ (out_run _ _ _ _)); rsimpl). fold (set_place r d0).
  assert (v_wait (dv d0) = O) as Hw by (by rewrite H0).
  pose proof (set_place_view r d0 Hw) as H1. set (d1 := set_place r d0) in *.
  assert (v_wait (dv d1) = O /\ v_reg (dv d1) 0x1f2 = 1 /\ selected (v_reg (dv d1)) = place r /\ v_disk (dv d1) = v_disk (dv (i_drive s)))
    as (Hw1 & Hn1 & Hs1 & Hd1) by (rewrite H1, H0; rsimpl; rewrite place_selected by done; done).
  unfold started, written. fold (dirty r). destruct (dirty r) eqn:Hdirty.
  - rewrite (bind_Ret _ _ _ _ _ _ _ (out_run _ _ _ _)). exists (outsl (b_data r) (outb 0x1f7 IDE_CMD_WRITE d1)). split; [reflexivity|].
    destruct (outb_write d1 (b_data r) Hw1 Hn1 Hdata) as (n & err & ->). rsimpl. rewrite Hs1, Hd1. by rewrite !zupd_eq.
  - exists (outb 0x1f7 IDE_CMD_READ d1). split; [reflexivity|]. destruct (outb_read d1 Hw1 Hn1) as (n & err & ->). rsimpl. by rewrite Hs1.
Qed.

(** ** The queue *)

Fixpoint chain (nx : nat -> option nat) (q : option nat) (l : list nat) : Prop :=
  match l with
  | [] => q = None
  | b :: l => q = Some b /\ chain nx (nx b) l
  end.

Lemma queue_ext nx nx' q l : chain nx q l -> (forall b, b ∈ l -> nx' b = nx b) -> chain nx' q l.
Proof.
  revert q. induction l as [|b l IH]; intros q; cbn; [done|]. intros [-> Hc] Hx. split; [done|].
  rewrite Hx by set_solver. apply IH; [done|set_solver].
Qed.

Lemma chain_app nx q l b nx' : chain nx q l -> l <> [] -> NoDup (l ++ [b]) ->
  (forall c, nx' c = if decide (c = b) then None else if decide (Some c = last l) then Some b else nx c) -> chain nx' q (l ++ [b]).
Proof.
  revert q. induction l as [|c l IH]; intros q; [done|]. intros [-> Hc] _ Hnd Hx. cbn [app chain]. split; [done|].
  cbn [app] in Hnd. apply NoDup_cons in Hnd as [Hni Hnd]. rewrite Hx, decide_False by set_solver.
  destruct l as [|c' l]; [rewrite decide_True by done; cbn; split; [done|]; rewrite Hx; by rewrite decide_True|].
  rewrite decide_False.
  2: { intros E. apply Hni, elem_of_app. left. symmetry in E. exact (last_Some_elem_of (c' :: l) c E). }
  apply IH; [done|done|done|]. intros x. by rewrite Hx.
Qed.

Lemma last_link_run fuel nx b l : chain nx (Some b) (b :: l) -> (length l < fuel)%nat ->
  last_link fuel nx b = last (b :: l).
Proof.
  revert b l. induction fuel as [|fuel IH]; intros b l [_ Hc] Hf; [lia|]. cbn [last_link].
  destruct l as [|c l]; cbn [chain] in Hc; [by rewrite Hc|]. destruct Hc as [-> Hc].
  rewrite (IH c l); [done|by split|simpl in Hf; lia].
Qed.

(** The queue holds the requests [l], and the drive works on the first. *)
Record ide_ok (s : ide) (l : list nat) : Prop := {
  ok_chain : chain (i_qnext s) (i_queue s) l;
  ok_nodup : NoDup l;
  ok_requests b : b ∈ l -> exists r, i_bufs s !! b = Some r /\ request r;
  ok_started b r : head l = Some b -> i_bufs s !! b = Some r -> started (dv (i_drive s)) r
}.

Lemma queue_short s l : ide_ok s l -> (length l <= length (i_bufs s))%nat.
Proof.
  intros Hok. rewrite <- (length_seq (length (i_bufs s)) 0). apply submseteq_length, NoDup_submseteq; [apply Hok|].
  intros b Hb. destruct (ok_requests s l Hok b Hb) as (r & Hr & _). apply lookup_lt_Some in Hr. apply elem_of_seq. lia.
Qed.

Lemma request_flags r : request r -> Z.land (b_flags r) (Z.lor B_VALID B_DIRTY) =? B_VALID = false.
Proof. intros [_ Hf _]. rewrite !elem_of_cons in Hf. destruct Hf as [-> |[-> |[-> |Hf]]]; [done..|by apply elem_of_nil in Hf]. Qed.

(** Queueing a request. *)
Lemma iderw_queue_run s l b r e : ide_ok s l -> b ∉ l -> i_bufs s !! b = Some r -> request r -> b_dev r = 0 \/ i_havedisk1 s = true ->
  exists s', iderw_queue true b s e = Ret tt s' e /\ ide_ok s' (l ++ [b]) /\ i_bufs s' = i_bufs s /\ i_woken s' = i_woken s /\
    v_disk (dv (i_drive s')) = match l with [] => written r (v_disk (dv (i_drive s))) | _ => v_disk (dv (i_drive s)) end.
Proof.
  intros Hok Hb Hr Hrq Hdev. unfold iderw_queue, get_ibuf. cbn [negb]. mrun. rewrite Hr. mrun. rewrite request_flags by done. mrun.
  replace (negb (b_dev r =? 0) && negb (i_havedisk1 s)) with false by (destruct Hdev as [-> | ->]; [done|by rewrite andb_false_r]).
  mrun. rsimpl.
  pose proof (ok_chain s l Hok) as Hc. destruct l as [|h l].
  - cbn [chain] in Hc. rewrite Hc. mrun. rsimpl. rewrite bool_decide_true by done.
    match goal with |- context [idestart (Some b) ?s1 e] => destruct (idestart_run b r s1 e Hr Hrq) as (d & -> & Hst & Hd) end.
    eexists. split; [reflexivity|]. split_and!; [|done|done|exact Hd]. split; rsimpl.
    + cbn. by rewrite decide_True.
    + apply NoDup_singleton.
    + intros c Hc'. apply list_elem_of_singleton in Hc' as ->. eauto.
    + intros c rc [= <-]. rewrite Hr. by intros [= <-].
  - pose proof Hc as [Hq Hc1]. rewrite Hq. mrun. rsimpl.
    assert (chain (fun c => if decide (c = b) then None else i_qnext s c) (Some h) (h :: l)) as Hc2.
    { rewrite <- Hq. apply (queue_ext (i_qnext s)); [done|]. intros c Hc'. rewrite decide_False; [done|]. by intros ->. }
    rewrite (last_link_run _ _ h l Hc2) by (pose proof (queue_short s _ Hok) as Hl; simpl in Hl; lia).
    destruct (last (h :: l)) as [pp|] eqn:El; [|by apply last_None in El]. mrun. rsimpl. rewrite Hq.
    rewrite bool_decide_false by (intros [= ->]; set_solver). eexists. split; [reflexivity|]. rsimpl. split_and!; [|done..]. split; rsimpl.
    + apply (chain_app (i_qnext s)); [by rewrite Hq|done| |].
      * apply NoDup_app. split; [apply Hok|]. split; [set_solver|apply NoDup_singleton].
      * intros c. rewrite El. destruct (decide (c = pp)) as [-> |Hne].
        -- rewrite (decide_True (P := Some pp = Some pp)) by done. rewrite decide_False; [done|].
           intros ->. apply last_Some_elem_of in El. done.
        -- destruct (decide (c = b)); [done|]. rewrite decide_False by congruence. done.
    + apply NoDup_app. split; [apply Hok|]. split; [set_solver|apply NoDup_singleton].
    + intros c [Hc'|Hc']%elem_of_app; [by apply (ok_requests s (h :: l))|]. apply list_elem_of_singleton in Hc' as ->. eauto.
    + intros c rc Hh. by apply (ok_started s (h :: l)).
Qed.

(** The buffer after its request. *)
Definition served (v : view) (r : buf) : buf :=
  (if dirty r || v_err v then r else r <| b_data := v_disk v (fst (place r)) (snd (place r)) |>) <| b_flags := B_VALID |>.

Lemma valid_flags r : request r -> Z.land (Z.lor (b_flags r) B_VALID) (Z.lnot B_DIRTY) = B_VALID.
Proof. intros [_ Hf _]. rewrite !elem_of_cons in Hf. destruct Hf as [-> |[-> |[-> |Hf]]]; [done..|by apply elem_of_nil in Hf]. Qed.

(** The disks once the next request of the queue has been started. *)
Definition next_disk (bufs : list buf) (l : list nat) (disk : Z -> Z -> block) : Z -> Z -> block :=
  match l with
  | [] => disk
  | c :: _ => match bufs !! c with Some r => written r disk | None => disk end
  end.

(** The part of [ideintr] on the buffer itself. *)
Lemma intr_data_run s b r e : i_bufs s !! b = Some r -> request r -> started (dv (i_drive s)) r ->
  exists d r', intr_data b r s e = Ret tt (s <| i_drive := d |> <| i_bufs := <[b := r']> (i_bufs s) |>) e /\
    v_disk (dv d) = v_disk (dv (i_drive s)) /\ b_flags r' = b_flags r /\ r' <| b_flags := B_VALID |> = served (dv (i_drive s)) r.
Proof.
  intros Hr Hrq Hst. unfold started, served, intr_data in *. assert (dirty r = negb (Z.land (b_flags r) B_DIRTY =? 0)) as Hd by done.
  destruct (Z.land (b_flags r) B_DIRTY =? 0); rewrite Hd in *; cbn [negb orb] in *.
  2: { exists (i_drive s), r. split; [|done]. rewrite list_insert_id by done. by destruct s. }
  destruct (idewait_all_run true s e) as (d & E & Hdv). rewrite (bind_Ret _ _ _ _ _ _ _ E). cbn [andb].
  destruct (v_err (dv (i_drive s))) eqn:Herr; cbn [Z.leb Z.compare].
  - exists d, r. split; [rewrite list_insert_id by done; by destruct s|]. by rewrite Hdv.
  - destruct (insl_read d (place r)) as (d' & Ei & Hd'); [by rewrite Hdv..|].
    exists d', (r <| b_data := v_disk (dv (i_drive s)) (fst (place r)) (snd (place r)) |>). split.
    + unfold in_data. rsimpl. rewrite Ei, Hdv. rsimpl. by rewrite (list_alter_lookup _ _ _ _ Hr).
    + by rewrite Hd', Hdv.
Qed.

Lemma ideintr_run s b l r e : ide_ok s (b :: l) -> i_bufs s !! b = Some r ->
  exists s', ideintr s e = Ret tt s' e /\ ide_ok s' l /\ i_bufs s' = <[b := served (dv (i_drive s)) r]> (i_bufs s) /\
    i_woken s' = i_woken s ++ [b] /\ v_disk (dv (i_drive s')) = next_disk (i_bufs s) l (v_disk (dv (i_drive s))).
Proof.
  intros Hok Hr. destruct (ok_chain s _ Hok) as [Hq Hc]. pose proof (ok_nodup s _ Hok) as [Hbl Hnd]%NoDup_cons.
  destruct (ok_requests s _ Hok b) as (r0 & Hr0 & Hrq); [set_solver|]. assert (r0 = r) as -> by congruence.
  assert (started (dv (i_drive s)) r) as Hst by (by apply (ok_started s (b :: l) Hok b)).
  unfold ideintr, get_ibuf, upd_ibuf. mrun. rewrite Hq. mrun. rsimpl. rewrite Hr. mrun.
  set (s1 := s <| i_queue := i_qnext s b |>).
  destruct (intr_data_run s1 b r e Hr Hrq Hst) as (d & r' & E & Hd & Hf & Hserved). subst s1.
  rewrite (bind_Ret _ _ _ _ _ _ _ E). rsimpl. rsimpl in Hd. rsimpl in Hserved.
  pose proof (lookup_lt_Some _ _ _ Hr) as Hlt. mrun. rsimpl.
  set (B := <[b := r']> (i_bufs s)). assert (B !! b = Some r') as HB by (by apply list_lookup_insert_eq).
  rewrite (list_alter_lookup _ _ _ _ HB). rewrite (list_alter_lookup _ _ b (r' <| b_flags := Z.lor (b_flags r') B_VALID |>))
    by (apply list_lookup_insert_eq; subst B; by rewrite length_insert).
  subst B. rewrite !list_insert_insert_eq. rsimpl. rewrite Hf, valid_flags, Hserved by done.
  assert (forall c, c ∈ l -> exists rc, i_bufs s !! c = Some rc /\ request rc /\ <[b := served (dv (i_drive s)) r]> (i_bufs s) !! c = Some rc) as Hl.
  { intros c Hcl. destruct (ok_requests s _ Hok c) as (rc & Hrc & Hq'); [set_solver|]. exists rc. split_and!; [done..|].
    rewrite list_lookup_insert_ne; [done|]. by intros ->. }
  destruct l as [|c l]; cbn [chain] in Hc.
  - rewrite Hc. eexists. split; [reflexivity|]. split_and!; [|done|done|exact Hd]. split; rsimpl; [done|constructor|set_solver|done].
  - destruct Hc as [Hqb Hc]. rewrite Hqb. destruct (Hl c) as (rc & Hrc & Hrqc & Hrc'); [set_solver|].
    match goal with |- context [idestart (Some c) ?s1 e] => destruct (idestart_run c rc s1 e Hrc' Hrqc) as (d' & -> & Hst' & Hd') end.
    eexists. split; [reflexivity|]. split_and!; [|done|done|].
    + split; rsimpl; [done|done| |].
      * intros x Hx. destruct (Hl x Hx) as (rx & _ & Hrqx & Hrx). eauto.
      * intros x rx [= <-]. rewrite Hrc'. by intros [= <-].
    + rsimpl. rewrite Hd'. unfold next_disk. rewrite Hrc. by rewrite <- Hd.
Qed.

(** ** What the driver does *)

(** A spurious interrupt. *)
Lemma ideintr_idle s e : ide_ok s [] -> ideintr s e = Ret tt s e.
Proof. intros Hok. unfold ideintr. mrun. by rewrite (ok_chain s [] Hok). Qed.

(** The steps of the system: a process that holds a buffer asks for it, the
    drive interrupts, or a process changes a buffer it holds.  A buffer that is
    queued is held by the process that waits for it. *)
Definition queued (s : ide) (b : nat) : Prop := exists l, chain (i_qnext s) (i_queue s) l /\ b ∈ l.

Inductive istep : ide -> option nat -> ide -> Prop :=
| step_iderw s b r s' : i_bufs s !! b = Some r -> request r -> b_dev r = 0 \/ i_havedisk1 s = true -> ~ queued s b ->
    iderw_queue true b s [] = Ret tt s' [] -> istep s (Some b) s'
| step_ideintr s s' : ideintr s [] = Ret tt s' [] -> istep s None s'
| step_owner s b r : ~ queued s b -> istep s None (s <| i_bufs := <[b := r]> (i_bufs s) |>).

Inductive iruns : ide -> list nat -> ide -> Prop :=
| iruns_refl s : iruns s [] s
| iruns_step s bs s' o s'' : iruns s bs s' -> istep s' o s'' -> iruns s (bs ++ option_list o) s''.

Lemma chain_unique nx q l l' : chain nx q l -> chain nx q l' -> l = l'.
Proof.
  revert q l'. induction l as [|b l IH]; intros q [|b' l']; cbn; [done|naive_solver..|].
  intros [-> H1] [[= <-] H2]. f_equal. by eapply IH.
Qed.
Lemma not_queued s l b : ide_ok s l -> ~ queued s b -> b ∉ l.
Proof. intros Hok Hb Hin. apply Hb. exists l. split; [apply Hok|done]. Qed.

Lemma owner_ok s l b r : ide_ok s l -> b ∉ l -> ide_ok (s <| i_bufs := <[b := r]> (i_bufs s) |>) l.
Proof.
  intros Hok Hb. destruct Hok as [Hc Hn Hr Hs]. split; rsimpl; [done|done| |].
  - intros c Hcl. destruct (Hr c Hcl) as (rc & E & Hq). exists rc. rewrite list_lookup_insert_ne; [done|]. by intros ->.
  - intros c rc Hh E. apply (Hs c); [done|]. rewrite list_lookup_insert_ne in E; [done|]. intros ->. destruct l; simplify_eq/=. set_solver.
Qed.

Lemma istep_ok s o s' l : ide_ok s l -> istep s o s' ->
  exists l', ide_ok s' l' /\ i_woken s' ++ l' = (i_woken s ++ l) ++ option_list o.
Proof.
  intros Hok Hst. destruct Hst as [s b r s' Hr Hrq Hdev Hnq E|s s' E|s b r Hnq].
  - destruct (iderw_queue_run s l b r [] Hok (not_queued _ _ _ Hok Hnq) Hr Hrq Hdev) as (s1 & E1 & Hok1 & _ & Hw & _).
    assert (s1 = s') as -> by congruence. exists (l ++ [b]). split; [done|]. by rewrite Hw, app_assoc.
  - destruct l as [|b l].
    + rewrite ideintr_idle in E by done. injection E as <-. exists []. by rewrite !app_nil_r.
    + destruct (ok_requests s _ Hok b) as (r & Hr & _); [set_solver|].
      destruct (ideintr_run s b l r [] Hok Hr) as (s1 & E1 & Hok1 & _ & Hw & _). assert (s1 = s') as -> by congruence.
      exists l. split; [done|]. by rewrite Hw, app_nil_r, <- app_assoc.
  - exists l. split; [apply owner_ok; [done|by apply (not_queued s l)]|]. by rewrite app_nil_r.
Qed.

(** C10: the disk serves its requests first come, first served.  In every run of
    requests, interrupts and writes to buffers that are not queued, the queue
    stays well formed with the drive at work on its first request, and the
    buffers woken so far followed by those in the queue are the buffers asked
    for, in the order in which they were. *)
Theorem ide_first_come_first_served s0 bs s : ide_ok s0 [] -> iruns s0 bs s ->
  exists l, ide_ok s l /\ i_woken s ++ l = i_woken s0 ++ bs.
Proof.
  intros H0 Hr. induction Hr as [s|s bs s' o s'' Hr IH Hst]; [by exists []|].
  destruct (IH H0) as (l & Hok & E). destruct (istep_ok s' o s'' l Hok Hst) as (l' & Hok' & E').
  exists l'. split; [done|]. by rewrite E', E, app_assoc.
Qed.

(** One request on its own. *)
Lemma iderw_alone s b r e : ide_ok s [] -> i_bufs s !! b = Some r -> request r -> b_dev r = 0 \/ i_havedisk1 s = true ->
  let disk := v_disk (dv (i_drive s)) in
  exists s1, iderw_queue true b s e = Ret tt s1 e /\ ide_ok s1 [b] /\ (v_err (dv (i_drive s1)) = false ->
    exists s2, ideintr s1 e = Ret tt s2 e /\ ide_ok s2 [] /\ v_disk (dv (i_drive s2)) = written r disk /\
    i_bufs s2 = <[b := (if dirty r then r else r <| b_data := disk (fst (place r)) (snd (place r)) |>) <| b_flags := B_VALID |>]> (i_bufs s)).
Proof.
  intros Hok Hr Hrq Hdev disk.
  destruct (iderw_queue_run s [] b r e Hok ltac:(apply not_elem_of_nil) Hr Hrq Hdev) as (s1 & E1 & Hok1 & Hb1 & _ & Hd1).
  rewrite <- Hb1 in Hr. exists s1. split; [done|]. split; [done|]. intros Hgood.
  destruct (ideintr_run s1 b [] r e Hok1 Hr) as (s2 & E2 & Hok2 & Hb2 & _ & Hd2).
  exists s2. split; [done|]. split; [done|]. split; [by rewrite Hd2|]. rewrite Hb2, Hb1. unfold served. rewrite Hgood, orb_false_r, Hd1.
  unfold written. by destruct (dirty r).
Qed.

(** C11: the IDE driver meets the contract of the disk driver that the buffer
    cache is proved against.  A request made when none is waiting is queued
    and started, and if the drive has no error, it is done at the next
    interrupt: the buffer is written to its block when it is dirty and the
    block is read into it when it is not valid, nothing else changes, and the
    buffer is left valid and clean. *)
Theorem ide_meets_contract s b r e : ide_ok s [] -> i_bufs s !! b = Some r -> request r -> b_dev r = 1 -> i_havedisk1 s = true ->
  exists s1, iderw_queue true b s e = Ret tt s1 e /\ iderw_done b s1 = false /\ (v_err (dv (i_drive s1)) = false ->
    exists s2, ideintr s1 e = Ret tt s2 e /\ iderw_done b s2 = true /\ ide_ok s2 [] /\
    let disk := v_disk (dv (i_drive s)) 1 in let disk' := v_disk (dv (i_drive s2)) 1 in
    (b_flags r = 0 ->
       i_bufs s2 = <[b := r <| b_data := disk (b_blockno r) |> <| b_flags := B_VALID |>]> (i_bufs s) /\ disk' = disk) /\
    (b_flags r = Z.lor B_VALID B_DIRTY ->
       i_bufs s2 = <[b := r <| b_flags := B_VALID |>]> (i_bufs s) /\ disk' = zupd disk (b_blockno r) (b_data r))).
Proof.
  intros Hok Hr Hrq Hdev H1. destruct (iderw_alone s b r e Hok Hr Hrq (or_intror H1)) as (s1 & E1 & Hok1 & Hdone).
  exists s1. split; [done|]. split.
  { destruct (ok_requests s1 [b] Hok1 b) as (r1 & Hr1 & Hrq1); [set_solver|]. unfold iderw_done. rewrite Hr1. by apply request_flags. }
  intros Hgood. destruct (Hdone Hgood) as (s2 & E2 & Hok2 & Hd & Hb).
  exists s2. split; [done|]. split; [|split; [done|cbn zeta; split]].
  - unfold iderw_done. rewrite Hb, list_lookup_insert_eq by (by eapply lookup_lt_Some). by destruct (dirty r).
  - intros Hf. assert (dirty r = false) as Hdr by (unfold dirty; by rewrite Hf). rewrite Hb, Hd. unfold written, place. rewrite Hdr, Hdev. done.
  - intros Hf. assert (dirty r = true) as Hdr by (unfold dirty; by rewrite Hf). rewrite Hb, Hd. unfold written, place. rewrite Hdr, Hdev.
    split; [done|]. cbn [fst snd]. apply zupd_eq.
Qed.

(** a read error goes unnoticed.  When the drive reports an error for the
    read at the head of the queue, the interrupt handler does not fetch the
    data but still marks the buffer valid, so that [iderw] returns with the
    old contents of the buffer. *)
Theorem ide_read_error_valid s b l r e : ide_ok s (b :: l) -> i_bufs s !! b = Some r -> dirty r = false ->
  v_err (dv (i_drive s)) = true ->
  exists s', ideintr s e = Ret tt s' e /\ iderw_done b s' = true /\ i_bufs s' !! b = Some (r <| b_flags := B_VALID |>).
Proof.
  intros Hok Hr Hd He. destruct (ideintr_run s b l r e Hok Hr) as (s' & E & _ & Hb & _).
  assert (i_bufs s' !! b = Some (r <| b_flags := B_VALID |>)) as Hb'.
  { rewrite Hb, list_lookup_insert_eq by (by eapply lookup_lt_Some). unfold served. by rewrite Hd, He. }
  exists s'. split; [done|]. split; [|done]. unfold iderw_done. by rewrite Hb'.
Qed.
End Driver.
Arguments ide : clear implicits.

(** ** A drive

    The state of the drive is the view; after each command it is busy for
    [busy] polls, and a read of a sector in [bad] fails. *)
Section Simple.
  Context (busy : nat) (bad : Z * Z -> bool).

Definition simple_status (d : view) : Z :=
  match v_wait d with O => if v_err d then 0x41 else 0x40 | S _ => 0x80 end.

Definition simple_out (p v : Z) (d : view) : view :=
  if p =? 0x1f7 then
    let s := selected (v_reg d) in
    if v =? 0x20 then d <| v_wait := busy |> <| v_err := bad s |> <| v_read := Some s |>
    else d <| v_wait := busy |> <| v_err := false |> <| v_read := None |>
  else d <| v_reg := zupd (v_reg d) p v |>.

#[refine] Instance simple_drive : Drive view := {
  dv d := d;
  outb := simple_out;
  outsl b d := let s := selected (v_reg d) in d <| v_disk := zupd (v_disk d) (fst s) (zupd (v_disk d (fst s)) (snd s) b) |>;
  inb d := (simple_status d, d <| v_wait := pred (v_wait d) |>);
  insl d := match v_read d with
            | Some s => (v_disk d (fst s) (snd s), d <| v_read := None |>)
            | None => (replicate BSIZE 0, d)
            end
}.
Proof.
  - intros d n Hw. do 2 eexists. split; [reflexivity|]. unfold simple_status. rewrite Hw. done.
  - intros d Hw. do 2 eexists. split; [reflexivity|]. unfold simple_status. rewrite Hw. destruct d; simpl in *; subst.
    by destruct v_err0.
  - intros p v d Hp _. unfold simple_out. replace (p =? 0x1f7) with false; [done|]. symmetry. apply Z.eqb_neq. intros ->.
    rewrite !elem_of_cons in Hp. destruct Hp as [|[|[|[|[|[|Hp]]]]]]; try done. by apply elem_of_nil in Hp.
  - intros d _ _. by do 2 eexists.
  - intros d b _ _ _. exists busy, false. by destruct d.
  - intros d s _ _ Hr. rewrite Hr. by eexists.
Defined.
End Simple.

(** Two buffers: a read of block 7 and a write of block 9 of disk 1. *)
Definition demo_read : buf := zero_buf <| b_dev := 1 |> <| b_blockno := 7 |>.
Definition demo_write : buf :=
  zero_buf <| b_dev := 1 |> <| b_blockno := 9 |> <| b_flags := Z.lor B_VALID B_DIRTY |> <| b_data := replicate BSIZE 5 |>.
Definition demo_bufs : list buf := [demo_read; demo_write].
Definition demo_view : view := mkview 2 false (fun _ => 0) (fun _ s => replicate BSIZE (s mod 256)) None.
Definition demo_ide : ide view := mkide demo_bufs None (fun _ => None) true demo_view [].

Lemma demo_request b r : demo_bufs !! b = Some r -> request r.
Proof. intros Hr. destruct b as [|[|b]]; simplify_eq/=; split; try done; set_solver. Qed.
Lemma demo_ide_ok (dr : Drive view) : ide_ok demo_ide [].
Proof. split; [done|constructor|set_solver|done]. Qed.

(** Both requests, and then one interrupt. *)
Definition flaky : Drive view := simple_drive 3 (fun s => bool_decide (s = (1, 7))).
Definition sound : Drive view := simple_drive 3 (fun _ => false).
Definition ide_after {A} (o : outcome (ide view) A) : ide view := match o with Ret _ s _ => s | _ => demo_ide end.
Definition demo_ide1 (dr : Drive view) : ide view := ide_after (iderw_queue true 0 demo_ide []).
Definition demo_ide2 (dr : Drive view) : ide view := ide_after (iderw_queue true 1 (demo_ide1 dr) []).
Definition demo_ide3 (dr : Drive view) : ide view := ide_after (ideintr (demo_ide2 dr) []).

(** What the two requests and the interrupt do. *)
Lemma queue_after (dr : Drive view) (s : ide view) l b r : ide_ok s l -> b ∉ l -> i_bufs s !! b = Some r -> request r -> i_havedisk1 s = true ->
  iderw_queue true b s [] = Ret tt (ide_after (iderw_queue true b s [])) [] /\ ide_ok (ide_after (iderw_queue true b s [])) (l ++ [b]) /\
  i_bufs (ide_after (iderw_queue true b s [])) = i_bufs s.
Proof.
  intros Hok Hb Hr Hrq Hd. destruct (iderw_queue_run s l b r [] Hok Hb Hr Hrq (or_intror Hd)) as (s' & -> & Hok' & Hb' & _). done.
Qed.
Lemma unqueued (dr : Drive view) (s : ide view) l b : ide_ok s l -> b ∉ l -> ~ queued s b.
Proof. intros Hok Hb (l' & Hc & Hin). by rewrite (chain_unique _ _ _ _ Hc (ok_chain s l Hok)) in Hin. Qed.

Section Demo.
  Context (dr : Drive view).
  Hypothesis have1 : i_havedisk1 (demo_ide1 dr) = true.

Lemma demo_first : iderw_queue true 0 demo_ide [] = Ret tt (demo_ide1 dr) [] /\ ide_ok (demo_ide1 dr) [0%nat] /\
  i_bufs (demo_ide1 dr) = demo_bufs.
Proof.
  apply (queue_after dr demo_ide [] 0 demo_read (demo_ide_ok dr)); [apply not_elem_of_nil|reflexivity| |done]. by apply (demo_request 0).
Qed.
Lemma demo_second : iderw_queue true 1 (demo_ide1 dr) [] = Ret tt (demo_ide2 dr) [] /\ ide_ok (demo_ide2 dr) [0%nat; 1%nat] /\
  i_bufs (demo_ide2 dr) = demo_bufs.
Proof.
  destruct demo_first as (_ & Hok & Hb). rewrite <- Hb.
  apply (queue_after dr (demo_ide1 dr) [0%nat] 1 demo_write Hok); [set_solver|by rewrite Hb| |done]. by apply (demo_request 1).
Qed.
Lemma demo_third : ideintr (demo_ide2 dr) [] = Ret tt (demo_ide3 dr) [].
Proof.
  destruct demo_second as (_ & Hok & Hb). unfold demo_ide3.
  destruct (ideintr_run (demo_ide2 dr) 0 [1%nat] demo_read [] Hok (f_equal (lookup 0%nat) Hb)) as (s' & -> & _). done.
Qed.

Lemma demo_runs : iruns demo_ide [0%nat; 1%nat] (demo_ide3 dr).
Proof.
  destruct demo_first as (E1 & H1 & B1), demo_second as (E2 & H2 & B2).
  apply (iruns_step _ [0%nat; 1%nat] (demo_ide2 dr) None); [|by constructor; apply demo_third].
  apply (iruns_step _ [0%nat] (demo_ide1 dr) (Some 1%nat)).
  - apply (iruns_step _ [] demo_ide (Some 0%nat)); [constructor|].
    eapply step_iderw; [reflexivity|by apply (demo_request 0)|by right| |exact E1]. apply (unqueued dr _ []); [apply demo_ide_ok|apply not_elem_of_nil].
  - eapply step_iderw; [by rewrite B1|by apply (demo_request 1)|by right| |exact E2]. apply (unqueued dr _ [0%nat] _ H1). set_solver.
Qed.
End Demo.

Lemma ide_first_come_first_served_witness :
  i_woken (demo_ide3 sound) = [0%nat] /\ exists l, @ide_ok view sound (demo_ide3 sound) l /\
    i_woken (demo_ide3 sound) ++ l = i_woken demo_ide ++ [0%nat; 1%nat].
Proof.
  split; [vm_compute; reflexivity|].
  apply (@ide_first_come_first_served view sound demo_ide [0%nat; 1%nat]); [apply demo_ide_ok|].
  apply demo_runs. vm_compute. reflexivity.
Defined.

Lemma ide_meets_contract_witness :
  exists s1, @iderw_queue view sound true 1 demo_ide [] = Ret tt s1 [] /\ iderw_done 1 s1 = false /\
    (v_err (@dv view sound (i_drive s1)) = false ->
    exists s2, @ideintr view sound s1 [] = Ret tt s2 [] /\ iderw_done 1 s2 = true /\ @ide_ok view sound s2 [] /\
    let r := demo_write in
    let disk := v_disk (@dv view sound (i_drive demo_ide)) 1 in let disk' := v_disk (@dv view sound (i_drive s2)) 1 in
    (b_flags r = 0 ->
       i_bufs s2 = <[1%nat := r <| b_data := disk (b_blockno r) |> <| b_flags := B_VALID |>]> (i_bufs demo_ide) /\ disk' = disk) /\
    (b_flags r = Z.lor B_VALID B_DIRTY ->
       i_bufs s2 = <[1%nat := r <| b_flags := B_VALID |>]> (i_bufs demo_ide) /\ disk' = zupd disk (b_blockno r) (b_data r))).
Proof.
  apply (@ide_meets_contract view sound demo_ide 1 (demo_write) []).
  - apply demo_ide_ok.
  - reflexivity.
  - by apply (demo_request 1).
  - reflexivity.
  - reflexivity.
Defined.

Lemma ide_read_error_valid_witness :
  exists s', @ideintr view flaky (demo_ide1 flaky) [] = Ret tt s' [] /\ iderw_done 0 s' = true /\
    i_bufs s' !! 0%nat = Some (demo_read <| b_flags := B_VALID |>).
Proof.
  apply (@ide_read_error_valid view flaky (demo_ide1 flaky) 0 [] (demo_read) []).
  - apply demo_first.
  - vm_compute. reflexivity.
  - reflexivity.
  - vm_compute. reflexivity.
Defined.
