(* ===== verification/Bootmain.v ===== *)
(** The boot loader (bootmain.c): it loads the kernel's ELF file from the disk
    into memory.  The memory is threaded through the routines; the disk is
    reached by port I/O, and what it answers is the [Board]'s. *)

From S2P Require Import Prelude Types Str Kalloc Vm Machine Exec.

Definition SECTSIZE : Z := 512.

Section Bootmain.
  Context `{Board}.

(** [waitdisk]: how long the disk takes is up to it. *)
Fixpoint waitdisk (fuel : nat) : M mach unit :=
  match fuel with
  | O => undef "waitdisk: fuel"
  | S fuel => v ← inb 0x1F7; if Z.land v 0xC0 =? 0x40 then mret tt else waitdisk fuel
  end.

Definition readsect (wait : nat) (dst offset : Z) (m : mem) : M mach mem :=
  waitdisk wait ;;
  outb 0x1F2 1 ;;
  outb 0x1F3 offset ;;
  outb 0x1F4 (Z.shiftr offset 8) ;;
  outb 0x1F5 (Z.shiftr offset 16) ;;
  outb 0x1F6 (Z.lor (Z.shiftr offset 24) 0xE0) ;;
  outb 0x1F7 0x20 ;;
  waitdisk wait ;;
  data ← gets (fun s => bd_insl (m_trace s));
  mret (store_bytes dst data m).

Fixpoint readseg_loop (fuel wait : nat) (pa epa offset : Z) (m : mem) : M mach mem :=
  if pa <? epa then
    match fuel with
    | O => undef "readseg: fuel"
    | S fuel => m ← readsect wait pa offset m; readseg_loop fuel wait (u32 (pa + SECTSIZE)) epa (u32 (offset + 1)) m
    end
  else mret m.

Definition readseg (wait : nat) (pa count offset : Z) (m : mem) : M mach mem :=
  let epa := u32 (pa + count) in
  let pa := u32 (pa - offset mod SECTSIZE) in
  let offset := offset / SECTSIZE + 1 in
  readseg_loop (Z.to_nat ((epa - pa) / SECTSIZE + 1)) wait pa epa offset m.

(** The program headers from [ph] on. *)
Fixpoint load_headers (n wait : nat) (ph : Z) (m : mem) : M mach mem :=
  match n with
  | O => mret m
  | S n =>
      let pa := load32 (ph + 12) m in
      let filesz := load32 (ph + 16) m in
      m ← readseg wait pa filesz (load32 (ph + 4) m) m;
      let memsz := load32 (ph + 20) m in
      let filesz := load32 (ph + 16) m in
      let m := if memsz >? filesz then stosb (u32 (pa + filesz)) 0 (Z.to_nat (memsz - filesz)) m else m in
      load_headers n wait (ph + 32) m
  end.

(** The entry point that is called, or [None] where it returns. *)
Definition bootmain (wait : nat) (m : mem) : M mach (option Z * mem) :=
  let elf := 0x10000 in
  m ← readseg wait elf 4096 0 m;
  if negb (load32 elf m =? ELF_MAGIC) then mret (None, m) else
  let ph := u32 (elf + load32 (elf + 28) m) in
  let phnum := u8 (m (elf + 44)) + 256 * u8 (m (elf + 45)) in
  m ← load_headers (Z.to_nat phnum) wait ph m;
  mret (Some (load32 (elf + 24) m), m).
End Bootmain.

(** ** The disk *)

(** The command that reads sector [n]. *)
Definition sector_cmd (n : Z) : list event :=
  [Outb 0x1F2 1; Outb 0x1F3 (u8 n); Outb 0x1F4 (u8 (Z.shiftr n 8)); Outb 0x1F5 (u8 (Z.shiftr n 16));
   Outb 0x1F6 (u8 (Z.lor (Z.shiftr n 24) 0xE0)); Outb 0x1F7 0x20].

Definition sector (image : Z -> Z) (n : Z) : list Z := map (fun j => image (512 * (n - 1) + j)) (seqZ 0 512).

(** A disk that is ready after fewer than [wait] polls of its status, and that
    holds the file [image] from its second sector on. *)
Record disk_holds `{Board} (image : Z -> Z) (wait : nat) : Prop := {
  dh_ready tr : exists k, (k < wait)%nat /\ Z.land (u8 (bd_in (tr ++ replicate k (Inb 0x1F7)) 0x1F7)) 0xC0 = 0x40;
  dh_sector tr n k : 1 <= n < 2 ^ 28 -> bd_insl (tr ++ sector_cmd n ++ replicate k (Inb 0x1F7)) = sector image n
}.

(** What [readseg] makes of memory: the bytes of the file from [off] on are at
    [pa], between [lo] and [hi]. *)
Definition filled (image : Z -> Z) (lo hi pa off : Z) (m m' : mem) : Prop :=
  forall x, m' x = if (lo <=? x) && (x <? hi) then image (off + (x - pa)) else m x.

(** ** The file *)

Record seg : Type := mkseg { sg_off : Z; sg_pa : Z; sg_filesz : Z; sg_memsz : Z }.

(** The program headers at [ph] are those of the segments [segs]. *)
Fixpoint headers (m : Z -> Z) (ph : Z) (segs : list seg) : Prop :=
  match segs with
  | [] => True
  | sg :: segs => load32 (ph + 4) m = sg_off sg /\ load32 (ph + 12) m = sg_pa sg /\ load32 (ph + 16) m = sg_filesz sg /\
      load32 (ph + 20) m = sg_memsz sg /\ headers m (ph + 32) segs
  end.

(** A segment is empty, or it begins behind [lo], its first sector included,
    and ends before the end of memory, its last sector included. *)
Definition seg_empty (sg : seg) : Prop := sg_filesz sg = 0 /\ sg_memsz sg = 0 /\ sg_off sg mod 512 = 0.
Definition seg_fits (lo : Z) (sg : seg) : Prop :=
  0 < sg_filesz sg <= sg_memsz sg /\ 0 <= sg_off sg /\ lo <= sg_pa sg - sg_off sg mod 512 /\
  sg_pa sg + sg_memsz sg + 512 <= 2 ^ 32 /\ sg_off sg + sg_filesz sg < 2 ^ 36.
Fixpoint segs_fit (lo : Z) (segs : list seg) : Prop :=
  match segs with
  | [] => True
  | sg :: segs => seg_empty sg /\ segs_fit lo segs \/ seg_fits lo sg /\ segs_fit (sg_pa sg + sg_memsz sg) segs
  end.

(** The segment is in memory: the bytes of the file, and zeroes behind them. *)
Definition loaded (image : Z -> Z) (m : mem) (sg : seg) : Prop :=
  forall j, 0 <= j < sg_memsz sg -> m (sg_pa sg + j) = if j <? sg_filesz sg then image (sg_off sg + j) else 0.

Lemma headers_ext m m' segs : forall ph, (forall x, ph <= x < ph + 32 * Z.of_nat (length segs) -> m' x = m x) ->
  headers m ph segs -> headers m' ph segs.
Proof.
  induction segs as [|sg segs IH]; intros ph E Hh; [done|]. cbn [length headers] in *. destruct Hh as (H1 & H2 & H3 & H4 & Hh).
  split_and!; [rewrite (load32_ext m m'); [done|intros x Hx; apply E; lia]..|]. apply IH; [|done]. intros x Hx. apply E. lia.
Qed.

Lemma headers_shift m m' d segs : forall ph, 0 <= ph -> headers m ph segs ->
  (forall o, ph <= o < ph + 32 * Z.of_nat (length segs) -> m' (d + o) = m o) -> headers m' (d + ph) segs.
Proof.
  induction segs as [|sg segs IH]; intros ph Hph Hh E; [done|]. cbn [length headers] in *. destruct Hh as (H1 & H2 & H3 & H4 & Hh).
  assert (forall o, ph <= o -> o + 4 <= ph + 32 -> load32 (d + o) m' = load32 o m) as E4.
  { intros o Ho Ho'. unfold load32. rewrite <-!Z.add_assoc, !E by lia. done. }
  rewrite <-!Z.add_assoc. split_and!; [rewrite E4 by lia; done..|]. apply IH; [lia|done|]. intros o Ho. apply E. lia.
Qed.

Section Load.
  Context `{Board} (image : Z -> Z) (wait : nat) (Hdisk : disk_holds image wait).
  Implicit Types (s : mach).

Lemma waitdisk_run n : forall s e,
  (exists k, (k < n)%nat /\ Z.land (u8 (bd_in (m_trace s ++ replicate k (Inb 0x1F7)) 0x1F7)) 0xC0 = 0x40) ->
  exists k, waitdisk n s e = Ret tt (s <| m_trace := m_trace s ++ replicate k (Inb 0x1F7) |>) e.
Proof.
  induction n as [|n IH]; intros s e (k & Hk & E); [lia|]. cbn [waitdisk]. unfold inb, emit. mrun.
  destruct (Z.land (u8 (bd_in (m_trace s) 0x1F7)) 0xC0 =? 0x40) eqn:E0; [by exists 1%nat|].
  set (s1 := s <| m_trace := m_trace s ++ [Inb 0x1F7] |>). destruct k as [|k]; [rewrite app_nil_r in E; lia|].
  destruct (IH s1 e) as (j & R).
  { exists k. split; [lia|]. change (m_trace s1) with (m_trace s ++ [Inb 0x1F7]). by rewrite <-app_assoc. }
  exists (S j). rewrite R. unfold s1. rsimpl. by rewrite <-app_assoc.
Qed.

Lemma readsect_run dst n m s e : 1 <= n < 2 ^ 28 ->
  exists tr, readsect wait dst n m s e = Ret (store_bytes dst (sector image n) m) (s <| m_trace := tr |>) e.
Proof.
  intros Hn. unfold readsect. destruct (waitdisk_run wait s e (dh_ready _ _ Hdisk _)) as (k1 & R1).
  rewrite (bind_Ret _ _ _ _ _ _ _ R1). unfold outb, emit. mrun. rsimpl.
  match goal with |- context [(waitdisk wait ≫= _) ?s1 e] => set (s1' := s1) end.
  destruct (waitdisk_run wait s1' e (dh_ready _ _ Hdisk _)) as (k2 & R2). rewrite (bind_Ret _ _ _ _ _ _ _ R2). mrun. rsimpl.
  unfold s1'. rsimpl. rewrite <-!app_assoc.
  pose proof (dh_sector image wait Hdisk (m_trace s ++ replicate k1 (Inb 0x1F7)) n k2 Hn) as Hs. rewrite <-app_assoc in Hs.
  eexists. f_equal. f_equal. exact Hs.
Qed.

Lemma length_sector n : length (sector image n) = 512%nat.
Proof. unfold sector. by rewrite length_map, length_seqZ. Qed.

Lemma sector_filled dst n m : filled image dst (dst + 512) dst (512 * (n - 1)) m (store_bytes dst (sector image n) m).
Proof.
  intros x. unfold store_bytes. rewrite length_sector. change (Z.of_nat 512) with 512.
  destruct ((dst <=? x) && (x <? dst + 512)) eqn:E; [|done]. unfold sector. rewrite list_lookup_fmap.
  rewrite (proj2 (lookup_seqZ 0 512 (Z.to_nat (x - dst)) (x - dst))) by lia. done.
Qed.

Lemma filled_app lo mid hi pa off m1 m2 m3 : lo <= mid <= hi ->
  filled image lo mid pa off m1 m2 -> filled image mid hi pa off m2 m3 -> filled image lo hi pa off m1 m3.
Proof. intros Hl H1 H2 x. rewrite (H2 x), (H1 x). zcases; simpl; try lia; done. Qed.

Lemma readseg_loop_run fuel : forall pa epa n m s e, 0 <= pa -> pa < epa -> epa + 512 <= 2 ^ 32 -> 1 <= n ->
  n + Z.of_nat fuel < 2 ^ 28 -> epa <= pa + 512 * Z.of_nat fuel ->
  exists m' top tr, readseg_loop fuel wait pa epa n m s e = Ret m' (s <| m_trace := tr |>) e /\
    epa <= top < epa + 512 /\ filled image pa top pa (512 * (n - 1)) m m'.
Proof.
  induction fuel as [|fuel IH]; intros pa epa n m s e Hpa Hlt Hepa Hn Hn' Hf; [lia|]. cbn [readseg_loop].
  rewrite (proj2 (Z.ltb_lt pa epa) Hlt). destruct (readsect_run pa n m s e) as (tr & R); [lia|]. rewrite (bind_Ret _ _ _ _ _ _ _ R).
  set (s1 := s <| m_trace := tr |>). unfold SECTSIZE. rewrite !u32_small by lia.
  pose proof (sector_filled pa n m) as Hm. destruct (decide (pa + 512 < epa)).
  - destruct (IH (pa + 512) epa (n + 1) (store_bytes pa (sector image n) m) s1 e) as (m' & top & tr' & R' & Ht & Hm'); [lia..|].
    exists m', top, tr'. split; [exact R'|]. split; [done|]. apply (filled_app pa (pa + 512) top _ _ _ _ _ ltac:(lia) Hm).
    intros x. rewrite (Hm' x). zcases; try done; simpl. f_equal. lia.
  - exists (store_bytes pa (sector image n) m), (pa + 512), tr. split; [|split; [lia|done]].
    destruct fuel; cbn [readseg_loop]; by rewrite (proj2 (Z.ltb_ge (pa + 512) epa)) by lia.
Qed.

Lemma readseg_run pa count off m s e : 0 <= off -> 0 < count -> off mod 512 <= pa -> pa + count + 512 <= 2 ^ 32 ->
  off + count < 2 ^ 36 ->
  exists m' top tr, readseg wait pa count off m s e = Ret m' (s <| m_trace := tr |>) e /\
    pa + count <= top < pa + count + 512 /\ filled image (pa - off mod 512) top pa off m m'.
Proof.
  intros Ho Hc Hpa Hend Hoff. unfold readseg, SECTSIZE. pose proof (Z.mod_pos_bound off 512 ltac:(lia)) as Hmod.
  rewrite (u32_small (pa + count)), (u32_small (pa - off mod 512)) by lia.
  set (fuel := Z.to_nat ((pa + count - (pa - off mod 512)) / 512 + 1)).
  destruct (readseg_loop_run fuel (pa - off mod 512) (pa + count) (off / 512 + 1) m s e) as (m' & top & tr & R & Ht & Hm);
    [lia|lia|lia|Z.div_mod_to_equations; lia|unfold fuel; Z.div_mod_to_equations; lia|unfold fuel; Z.div_mod_to_equations; lia|].
  exists m', top, tr. split_and!; [done|lia|lia|]. intros x. rewrite (Hm x). zcases; try done; simpl. f_equal.
  Z.div_mod_to_equations. lia.
Qed.

Lemma readseg_none pa off m s e : off mod 512 = 0 -> readseg wait pa 0 off m s e = Ret m s e.
Proof.
  intros Ho. unfold readseg, SECTSIZE. rewrite Ho, Z.add_0_r, Z.sub_0_r, Z.sub_diag. change (Z.to_nat (0 / 512 + 1)) with 1%nat. cbn [readseg_loop]. by rewrite Z.ltb_irrefl.
Qed.

(** One segment. *)
Lemma load_segment pa off filesz memsz lo m s e : let sg := mkseg off pa filesz memsz in 0 <= lo -> seg_fits lo sg ->
  exists m1 tr, readseg wait pa filesz off m s e = Ret m1 (s <| m_trace := tr |>) e /\ (forall x, x < lo -> m1 x = m x) /\
    let m2 := if memsz >? filesz then stosb (u32 (pa + filesz)) 0 (Z.to_nat (memsz - filesz)) m1 else m1 in
    loaded image m2 sg /\ forall x, x < lo -> m2 x = m x.
Proof.
  intros sg Hlo (Hsz & Hoff & Hl & Hend & Hbig). cbn [sg sg_off sg_pa sg_filesz sg_memsz] in *.
  pose proof (Z.mod_pos_bound off 512 ltac:(lia)) as Hmod.
  destruct (readseg_run pa filesz off m s e) as (m1 & top & tr & R & Ht & Hm); [lia..|].
  assert (forall x, x < lo -> m1 x = m x) as Em by (intros x Hx; rewrite (Hm x); zcases; try done; lia).
  exists m1, tr. split; [done|]. split; [done|]. cbv zeta. rewrite u32_small by lia.
  assert (forall x, (if memsz >? filesz then stosb (pa + filesz) 0 (Z.to_nat (memsz - filesz)) m1 else m1) x =
    if (pa + filesz <=? x) && (x <? pa + memsz) then 0 else m1 x) as E2.
  { intros x. rewrite Z.gtb_ltb. destruct (Z.ltb_spec filesz memsz).
    - rewrite stosb_spec. rewrite Z2Nat.id by lia. replace (pa + filesz + (memsz - filesz)) with (pa + memsz) by lia. done.
    - zcases; try done; lia. }
  split.
  - intros j Hj. cbn [sg sg_off sg_pa sg_filesz sg_memsz] in *. rewrite E2, (Hm (pa + j)). zcases; try done; try lia. simpl. f_equal. lia.
  - intros x Hx. rewrite E2, Em by done. zcases; try done; lia.
Qed.

Lemma load_headers_run segs : forall lo ph m s e, 0 <= ph -> ph + 32 * Z.of_nat (length segs) <= lo -> segs_fit lo segs -> headers m ph segs ->
  exists m' tr, load_headers (length segs) wait ph m s e = Ret m' (s <| m_trace := tr |>) e /\
    Forall (loaded image m') segs /\ forall x, x < lo -> m' x = m x.
Proof.
  induction segs as [|[off pa filesz memsz] segs IH]; intros lo ph m s e Hph Hlo Hfit Hh; cbn [length load_headers].
  { exists m, (m_trace s). split_and!; [by destruct s|done|done]. }
  cbn [headers sg_off sg_pa sg_filesz sg_memsz] in Hh. destruct Hh as (H1 & H2 & H3 & H4 & Hh). rewrite H1, H2, H3.
  cbn [length] in Hlo. destruct Hfit as [[(Hf0 & Hm0 & Ho0) Hfit]|[Hsg Hfit]].
  - cbn [sg_off sg_pa sg_filesz sg_memsz] in *. subst filesz memsz. rewrite (bind_Ret _ _ _ _ m s e (readseg_none pa off m s e Ho0)).
    rewrite H4, H3. change (0 >? 0) with false. cbv match zeta. destruct (IH lo (ph + 32) m s e) as (m' & tr & R & Hl & E); [lia|lia|done|done|].
    exists m', tr. split_and!; [done| |done]. constructor; [|done]. intros j Hj. cbn in Hj. lia.
  - destruct (load_segment pa off filesz memsz lo m s e ltac:(lia) Hsg) as (m1 & tr1 & R1 & E1 & Hl2 & E2).
    rewrite (bind_Ret _ _ _ _ _ _ _ R1). set (s1 := s <| m_trace := tr1 |>).
    rewrite !(load32_ext m m1) by (intros x Hx; apply E1; lia). rewrite H3, H4. cbv zeta in *.
    set (m2 := if memsz >? filesz then _ else m1) in *. destruct Hsg as (Hsz & Hoff & Hlo2 & _). cbn in Hsz, Hoff, Hlo2, Hfit.
    pose proof (Z.mod_pos_bound off 512 ltac:(lia)) as Hmod.
    destruct (IH (pa + memsz) (ph + 32) m2 s1 e) as (m' & tr & R & Hl & E); [lia|lia|done| |].
    { apply (headers_ext m); [|done]. intros x Hx. apply E2. lia. }
    exists m', tr. split; [exact R|]. split; [constructor; [|done]|intros x Hx; rewrite E, E2 by lia; done].
    intros j Hj. rewrite E by (cbn in *; lia). by apply Hl2.
Qed.

(** C17: the boot loader loads the kernel.  When the disk holds, from its
    second sector on, an ELF file whose headers are in its first page and
    whose segments lie in memory one behind the other above the scratch page,
    [bootmain] returns the entry point of the file, with every segment in
    memory at its physical address: the bytes of the file, then zeroes. *)
Theorem bootmain_loads_kernel segs m s e :
  load32 0 image = ELF_MAGIC -> u8 (image 44) + 256 * u8 (image 45) = Z.of_nat (length segs) ->
  load32 28 image + 32 * Z.of_nat (length segs) <= 4096 -> headers image (load32 28 image) segs -> segs_fit 0x11200 segs ->
  exists m' tr, bootmain wait m s e = Ret (Some (load32 24 image), m') (s <| m_trace := tr |>) e /\ Forall (loaded image m') segs.
Proof.
  intros Hmagic Hnum Hph Hh Hfit. unfold bootmain.
  destruct (readseg_run 0x10000 4096 0 m s e) as (m1 & top & tr1 & R1 & Ht & Hm1); [done..|].
  rewrite (bind_Ret _ _ _ _ _ _ _ R1). set (s1 := s <| m_trace := tr1 |>).
  assert (forall x, 0 <= x < 4096 -> m1 (0x10000 + x) = image x) as E1.
  { intros x Hx. rewrite (Hm1 (0x10000 + x)). change (0 mod 512) with 0. zcases; try lia. f_equal. lia. }
  assert (forall o, 0 <= o -> o + 4 <= 4096 -> load32 (0x10000 + o) m1 = load32 o image) as E4.
  { intros o Ho Ho'. unfold load32. rewrite <-!Z.add_assoc, !E1 by lia. done. }
  pose proof (E4 0 ltac:(lia) ltac:(lia)) as Emagic. rewrite Z.add_0_r in Emagic. rewrite Emagic, Hmagic, Z.eqb_refl. cbn [negb].
  assert (0 <= load32 28 image) as Hp0.
  { unfold load32. pose proof (u8_range (image 28)). pose proof (u8_range (image (28 + 1))).
    pose proof (u8_range (image (28 + 2))). pose proof (u8_range (image (28 + 3))). lia. }
  rewrite E4 by lia. rewrite u32_small by lia. rewrite !E1 by lia. rewrite Hnum, Nat2Z.id.
  destruct (load_headers_run segs 0x11200 (0x10000 + load32 28 image) m1 s1 e) as (m' & tr & R & Hl & E); [lia|lia|done| |].
  { apply (headers_shift image); [lia|done|]. intros o Ho. apply E1. lia. }
  rewrite (bind_Ret _ _ _ _ _ _ _ R). exists m', tr. split; [|done]. mrun.
  rewrite (load32_ext m1 m') by (intros x Hx; apply E; lia). rewrite E4 by lia. done.
Qed.
End Load.

(** ** Instance: a file of one segment of two bytes and a word of zeroes *)

Definition demo_elf : Z -> Z := fun x =>
  default 0 (([127; 69; 76; 70] ++ replicate 20 0 ++ [12; 0; 16; 0] ++ [52; 0; 0; 0] ++ replicate 12 0 ++ [1; 0] ++ replicate 6 0 ++
    [1; 0; 0; 0] ++ [0; 16; 0; 0] ++ [0; 0; 16; 128] ++ [0; 0; 16; 0] ++ [2; 0; 0; 0] ++ [6; 0; 0; 0]) !! Z.to_nat x : option Z).
Definition demo_seg : seg := mkseg 0x1000 0x100000 2 6.

(** The sector that the last command asks for. *)
Definition asked (tr : list event) : Z :=
  fold_left (fun n ev => match ev with
    | Outb p v => if p =? 0x1F3 then v else if p =? 0x1F4 then n + 2 ^ 8 * v else if p =? 0x1F5 then n + 2 ^ 16 * v
        else if p =? 0x1F6 then n + 2 ^ 24 * (v mod 16) else n
    | _ => n end) tr 0.
#[local] Instance demo_disk : Board := {
  bd_in := fun _ _ => 0x40;
  bd_lapic := fun _ _ => 0;
  bd_ioapic := fun _ => 0;
  bd_vectors := fun _ => 0;
  bd_starts := fun _ => true;
  bd_insl := fun tr => sector demo_elf (asked tr)
}.

Lemma asked_polls k : forall tr, asked (tr ++ replicate k (Inb 0x1F7)) = asked tr.
Proof.
  induction k as [|k IH]; intros tr; [by rewrite app_nil_r|]. cbn [replicate].
  rewrite cons_middle, app_assoc, IH. unfold asked. by rewrite fold_left_app.
Qed.

Lemma high_nibble h : 0 <= h < 16 -> u8 (Z.lor h 0xE0) mod 16 = h.
Proof.
  intros Hh. pose proof (forall_byte (fun h => negb (h <? 16) || (u8 (Z.lor h 0xE0) mod 16 =? h)) eq_refl h ltac:(lia)) as H1.
  cbv beta in H1. lia.
Qed.

Lemma asked_cmd tr n : 1 <= n < 2 ^ 28 -> asked (tr ++ sector_cmd n) = n.
Proof.
  intros Hn. unfold asked. rewrite fold_left_app. cbn -[Z.pow Z.mul Z.add Z.modulo Z.shiftr Z.lor].
  rewrite !Z.shiftr_div_pow2 by lia. rewrite high_nibble by (Z.div_mod_to_equations; lia). unfold u8.
  change (2 ^ 8) with 256. change (2 ^ 16) with 65536. change (2 ^ 24) with 16777216. Z.div_mod_to_equations. lia.
Qed.

Lemma bootmain_loads_kernel_witness : exists m' tr,
  bootmain 1 (fun _ => 0) boot_mach [] = Ret (Some 0x10000c, m') (boot_mach <| m_trace := tr |>) [] /\ loaded demo_elf m' demo_seg.
Proof.
  assert (disk_holds demo_elf 1) as Hd.
  { constructor; [intros tr; exists 0%nat; split; [lia|done]|]. intros tr n k Hn. unfold bd_insl, demo_disk.
    by rewrite app_assoc, asked_polls, asked_cmd. }
  destruct (bootmain_loads_kernel demo_elf 1 Hd [demo_seg] (fun _ => 0) boot_mach []) as (m' & tr & R & Hl).
  - vm_compute. reflexivity.
  - vm_compute. reflexivity.
  - vm_compute. discriminate.
  - vm_compute. auto 10.
  - right. split; [|exact I]. unfold seg_fits, demo_seg. cbn [sg_off sg_pa sg_filesz sg_memsz]. change (0x1000 mod 512) with 0. lia.
  - exists m', tr. split; [exact R|]. by apply Forall_inv in Hl.
Defined.
