(* ===== verification/Boot.v ===== *)
(** The start of the kernel (main.c): [main] sets up memory, the devices and
    the tables, starts the other processors and makes the first process.  The
    state is that of the kernel together with that of the machine. *)

From S2P Require Import Prelude Types Ide Spinlock Cprintf Proc Sched Sleeplock Str Bio Bytes Log Fs FsIo Kalloc Vm PageTable FreeVm Process Console Trap Machine.

(** What the linker provides to main.c: the image of entryother.S, the
    addresses of [mpenter] and [entrypgdir], and the driver of the disk:
    memide.o (the kernel "kernelmemfs") or ide.o. *)
Class BootImage : Type := {
  im_entryother : list Z;
  im_mpenter : Z;
  im_entrypgdir : Z;
  im_memide : bool
}.

Record boot : Type := mkboot { bt_k : kernel; bt_m : mach }.
Definition boot_eta (r : boot) := mkboot (bt_k r) (bt_m r).
#[export] Instance set_bt_k : Setter bt_k := ltac:(mk_setter boot_eta).
#[export] Instance set_bt_m : Setter bt_m := ltac:(mk_setter boot_eta).

(** A routine of the kernel and one that drives the machine.  There is no
    process yet, so the kernel's routines are given no time slices. *)
Definition kern {A} (m : K A) : M boot A := fun s e =>
  match m (bt_k s) [] with
  | Ret a k _ => Ret a (s <| bt_k := k |>) e
  | Panic msg k => Panic msg (s <| bt_k := k |>)
  | Parked k => Parked (s <| bt_k := k |>)
  | Undef why => Undef why
  end.

Definition dev {A} (m : M mach A) : M boot A := fun s e =>
  match m (bt_m s) [] with
  | Ret a x _ => Ret a (s <| bt_m := x |>) e
  | Panic msg x => Panic msg (s <| bt_m := x |>)
  | Parked x => Parked (s <| bt_m := x |>)
  | Undef why => Undef why
  end.

Definition entrypgdir (j : Z) : Z :=
  let PTE_PS := 0x080 in
  if (j =? 0) || (j =? Z.shiftr KERNBASE 22) then Z.lor (Z.lor (Z.lor 0 PTE_P) PTE_W) PTE_PS else 0.

Section Boot.
  Context `{Image} `{Devsw} `{Board} `{BootImage}.

(** [mycpu] and [cpuid] of proc.c: the index in [cpus]. *)
Definition cpuid : M boot Z :=
  flag ← gets (fun s => c_if (k_cpu (bt_k s)));
  if (flag : bool) then panic "mycpu called with interrupts enabled" else
  apicid ← dev lapicid;
  n ← gets (fun s => m_ncpu (bt_m s));
  ids ← gets (fun s => m_apicids (bt_m s));
  match list_find (fun id => id = apicid) (take (Z.to_nat n) ids) with
  | Some (i, _) => mret (Z.of_nat i)
  | None => panic "unknown apicid"
  end.

(** [xchg(&cpus[i].started, 1)]. *)
Definition set_started (i : nat) : M mach unit :=
  modify (fun s => s <| m_started := <[i := true]> (m_started s) |>).

(** One processor.  If it starts, it runs [mpenter] up to the point where it
    sets its [started], for which the loop waits. *)
Definition startother (i : nat) : M boot unit :=
  cur ← cpuid;
  if Z.of_nat i =? cur then mret tt else
  let code := P2V 0x7000 in
  stack ← kern kalloc;
  kern (set_mem32 (code - 4) (stack + KSTACKSIZE)) ;;
  kern (set_mem32 (code - 8) im_mpenter) ;;
  kern (set_mem32 (code - 12) (V2P im_entrypgdir)) ;;
  ids ← gets (fun s => m_apicids (bt_m s));
  apicid ← deref "startothers: cpu" (ids !! i);
  m ← gets (fun s => k_mem (bt_k s));
  m ← dev (lapicstartap apicid (V2P code) m);
  kern (modify (fun k => k <| k_mem := m |>)) ;;
  if bd_starts apicid then dev (set_started i) else park.

Definition startothers : M boot unit :=
  kern (modify (fun k => k <| k_mem := store_bytes (P2V 0x7000) im_entryother (k_mem k) |>)) ;;
  n ← gets (fun s => m_ncpu (bt_m s));
  for_each (seq 0 (Z.to_nat n)) startother.

(** [mpmain], up to the call of [scheduler]. *)
Definition mpmain : M boot unit :=
  id ← cpuid;
  id' ← cpuid;
  kern (cprintf (bytes "cpu%d: starting %d" ++ [10]) [PInt id; PInt id']) ;;
  dev idtinit ;;
  i ← cpuid;
  dev (set_started (Z.to_nat i)).

(** [main], up to the call of [scheduler].  [pinit] and [fileinit] only set up
    locks, which are free, and [ideinit] of memide.c finds the size of the
    image, which [k_disk] has.  [fuel] bounds the waits for the devices. *)
Definition main (fuel : nat) : M boot unit :=
  kern (kinit1 im_end im_end (P2V (4 * 1024 * 1024))) ;;
  kern (kvmalloc im_end im_data) ;;
  m ← gets (fun s => k_mem (bt_k s));
  dev (mpinit fuel m) ;;
  dev (lapicinit fuel) ;;
  cpuid ;;
  dev seginit ;;
  dev picinit ;;
  differs ← dev ioapicinit;
  (if differs : bool then
     kern (cprintf (bytes "ioapicinit: id isn't equal to ioapicid; not a MP" ++ [10]) [])
   else mret tt) ;;
  kern consoleinit ;;
  dev (ioapicenable IRQ_KBD 0) ;;
  uart ← dev uartinit;
  (if uart : bool then
     kern (modify (fun k => k <| k_cons := k_cons k <| cons_uart := true |> |>)) ;;
     kern (for_each (bytes "xv6..." ++ [10]) uartputc)
   else mret tt) ;;
  dev tvinit ;;
  kern binit ;;
  (if im_memide then mret tt else dev (ideinit fuel)) ;;
  startothers ;;
  kern (kinit2 im_end (P2V (4 * 1024 * 1024)) (P2V PHYSTOP)) ;;
  kern userinit ;;
  mpmain.
End Boot.
