(* ===== verification/UserStack.v ===== *)
(** What [exec] puts on the user stack of the new program: the arguments of
    [main], as user code finds them in its memory. *)

From S2P Require Import Prelude Types Spinlock Proc Sleeplock Bio Bytes Log Str Cprintf Fs FsIo Kalloc File Sched Vm PageTable Process Args Exec.

(** The bytes [bs] are in user memory at [a]. *)
Definition user_at (m : mem) (pgdir a : Z) (bs : list Z) : Prop :=
  forall j c, bs !! j = Some c -> ubyte m pgdir (a + Z.of_nat j) = Some c.

(** The user can access [[lo, hi)]. *)
Definition accessible (m : mem) (pgdir lo hi : Z) : Prop :=
  forall x, lo <= x < hi -> is_Some (ubyte m pgdir x).

Section Write.
  Implicit Types (m : mem) (bs : list Z).

Lemma user_write_accessible m m' pgdir a bs lo hi :
  0 <= lo -> hi <= 2 ^ 32 -> user_write m pgdir a bs m' -> accessible m pgdir lo hi -> accessible m' pgdir lo hi.
Proof. intros Hlo Hhi Hw Ha x Hx. rewrite Hw by lia. case_match; [by eexists|by apply Ha]. Qed.

Lemma user_write_at m m' pgdir a bs :
  0 <= a -> a + Z.of_nat (length bs) <= 2 ^ 32 -> user_write m pgdir a bs m' -> user_at m' pgdir a bs.
Proof.
  intros Ha Hl Hw j c Hj. pose proof (lookup_lt_Some _ _ _ Hj). rewrite Hw by lia.
  zcases; try lia. simpl. replace (Z.to_nat (a + Z.of_nat j - a)) with j by lia. by rewrite Hj.
Qed.

Lemma user_write_keeps m m' pgdir a bs b cs :
  0 <= b -> b + Z.of_nat (length cs) <= 2 ^ 32 -> user_write m pgdir a bs m' ->
  a + Z.of_nat (length bs) <= b -> user_at m pgdir b cs -> user_at m' pgdir b cs.
Proof.
  intros Hb Hl Hw Hd Hat j c Hj. pose proof (lookup_lt_Some _ _ _ Hj). rewrite Hw by lia.
  zcases; try lia; by apply Hat.
Qed.

Lemma accessible_tab m pgdir x : is_Some (ubyte m pgdir x) -> pgtab m pgdir (PDX x) <> None.
Proof.
  intros [c Hc] E. unfold ubyte, frame, translate, entry in Hc. by rewrite E in Hc.
Qed.
End Write.

Section Stack.
  Context (kb : kernel) (kend pgdir : Z) (l : list Z).
  Implicit Types (k : kernel) (e : env).

(** [copyout] to memory the user can access. *)
Lemma copyout_all k e va bs :
  idle kb k -> uspace_ok kend k pgdir l -> 0 <= va -> va + Z.of_nat (length bs) <= 2 ^ 32 ->
  accessible (k_mem k) pgdir va (va + Z.of_nat (length bs)) ->
  exists k', copyout pgdir va bs k e = Ret 0 k' e /\ idle kb k' /\ uspace_ok kend k' pgdir l /\
    user_write (k_mem k) pgdir va bs (k_mem k').
Proof.
  intros Hc Hok Hva Hl Hacc.
  destruct (copyout_loop_run kb kend (length bs) k e pgdir va bs l Hc Hok) as (r & k' & j & Hr & Hc' & Hok' & Hw & Hj);
    [lia|done|done| |].
  { intros x Hx. apply accessible_tab, Hacc. lia. }
  destruct Hj as [[-> ->]|(_ & Hj & Hf)].
  - rewrite firstn_all in Hw. by exists k'.
  - exfalso. destruct (Hacc (va + Z.of_nat j) ltac:(lia)) as [c E]. unfold ubyte in E. by rewrite Hf in E.
Qed.

(** Where a string goes below [sp]. *)
Definition place (sp : Z) (s : list Z) : Z := Z.land (u32 (sp - (Z.of_nat (length s) + 1))) (Z.lnot 3).

Lemma place_bounds sp s : Z.of_nat (length s) + 4 <= sp < 2 ^ 32 ->
  sp - (Z.of_nat (length s) + 4) <= place sp s /\ place sp s + Z.of_nat (length s) + 1 <= sp /\ place sp s mod 4 = 0.
Proof.
  intros Hs. unfold place. rewrite u32_small by lia. change 3 with (Z.ones 2).
  rewrite <-Z.ldiff_land, Z.ldiff_ones_r by lia. rewrite Z.shiftl_mul_pow2, Z.shiftr_div_pow2 by lia.
  change (2 ^ 2) with 4. rewrite Z.mod_mul by lia. Z.div_mod_to_equations. lia.
Qed.

(** A bound on the room for the strings. *)
Fixpoint strings_room (argv : list (list Z)) : Z :=
  match argv with
  | [] => 0
  | s :: argv => Z.of_nat (length s) + 4 + strings_room argv
  end.

Lemma strings_room_nonneg argv : 0 <= strings_room argv.
Proof. induction argv; simpl; lia. Qed.

Lemma push_args_run lo hi argv : 0 <= lo -> hi <= 2 ^ 32 -> forall k e argc sp,
  idle kb k -> uspace_ok kend k pgdir l -> lo + strings_room argv <= sp -> sp <= hi -> sp < 2 ^ 32 ->
  accessible (k_mem k) pgdir lo hi -> argc + Z.of_nat (length argv) <= Z.of_nat MAXARG ->
  exists k' sp' us, push_args pgdir argc sp argv k e = Ret (Some (sp', us)) k' e /\
    idle kb k' /\ uspace_ok kend k' pgdir l /\ sp - strings_room argv <= sp' <= sp /\
    length us = length argv /\ accessible (k_mem k') pgdir lo hi /\
    (forall b cs, sp <= b -> b + Z.of_nat (length cs) <= 2 ^ 32 -> user_at (k_mem k) pgdir b cs -> user_at (k_mem k') pgdir b cs) /\
    Forall2 (fun s a => sp' <= a /\ a + Z.of_nat (length s) + 1 <= sp /\ user_at (k_mem k') pgdir a (s ++ [0])) argv us.
Proof.
  intros Hlo Hhi. induction argv as [|s argv IH]; intros k e argc sp Hc Hok Hroom Hsh Hsp Hacc Hargc; cbn [push_args strings_room length] in *.
  { exists k, sp, []. split_and!; try done; lia. }
  pose proof (strings_room_nonneg argv) as Hnn. destruct (place_bounds sp s) as (Hp1 & Hp2 & _); [lia|].
  rewrite Z.geb_leb, (proj2 (Z.leb_gt _ _)) by lia. fold (place sp s).
  assert (length (s ++ [0]) = S (length s)) as El by (rewrite length_app; simpl; lia).
  destruct (copyout_all k e (place sp s) (s ++ [0]) Hc Hok) as (k1 & Hr & Hc1 & Hok1 & Hw); [lia|lia| |].
  { intros x Hx. apply Hacc. lia. }
  rewrite (bind_Ret _ _ _ _ _ _ _ Hr). cbn [Z.ltb Z.compare].
  pose proof (user_write_accessible _ _ _ _ _ _ _ Hlo Hhi Hw Hacc) as Hacc1.
  destruct (IH k1 e (argc + 1) (place sp s)) as (k' & sp' & us & Hr' & Hc' & Hok' & Hsp' & Hlen & Hacc' & Hkeep & Hall);
    [done|done|lia|lia|lia|done|lia|].
  rewrite (bind_Ret _ _ _ _ _ _ _ Hr'), mret_run. exists k', sp', (place sp s :: us). split_and!; try done.
  - lia.
  - lia.
  - simpl. by rewrite Hlen.
  - intros b cs Hb Hcs Hat. apply Hkeep; [lia|done|]. 
    apply (user_write_keeps (k_mem k) _ _ (place sp s) (s ++ [0])); [lia|done|done|lia|done].
  - constructor.
    + split_and!; [lia|lia|]. apply Hkeep; [lia|rewrite El; lia|]. apply (user_write_at (k_mem k)); [lia|lia|done].
    + eapply Forall2_impl; [exact Hall|]. intros s' a' (H1 & H2 & H3). simpl in *. split_and!; [done|lia|done].
Qed.

(** The word at [a], as user code reads it. *)
Definition user_word (m : mem) (pgdir a v : Z) : Prop := user_at m pgdir a (word_bytes v).

Lemma words_cons w ws : words (w :: ws) = word_bytes w ++ words ws.
Proof. done. Qed.
Lemma length_words ws : length (words ws) = (4 * length ws)%nat.
Proof. induction ws as [|w ws IH]; [done|]. rewrite words_cons, length_app, IH. simpl. lia. Qed.

(** The words of a block of words. *)
Lemma user_at_words m a ws : user_at m pgdir a (words ws) ->
  forall j w, ws !! j = Some w -> user_word m pgdir (a + 4 * Z.of_nat j) w.
Proof.
  revert a. induction ws as [|w ws IH]; intros a Hat [|j] v Hj; simplify_eq/=.
  - intros n c Hc. rewrite Z.add_0_r. apply Hat. rewrite words_cons. by apply lookup_app_l_Some.
  - replace (a + 4 * Z.of_nat (S j)) with (a + 4 + 4 * Z.of_nat j) by lia. apply IH; [|done].
    intros n c Hc. replace (a + 4 + Z.of_nat n) with (a + Z.of_nat (4 + n)) by lia. apply Hat.
    rewrite words_cons, lookup_app_r by (simpl; lia). simpl length. replace (4 + n - 4)%nat with n by lia. done.
Qed.

(** The room the arguments take on the stack. *)
Definition stack_room (argv : list (list Z)) : Z := strings_room argv + 4 * (Z.of_nat (length argv) + 4).

Lemma user_stack_run k e lo sz argv :
  idle kb k -> uspace_ok kend k pgdir l -> 0 <= lo -> sz < 2 ^ 32 -> accessible (k_mem k) pgdir lo sz ->
  lo + stack_room argv <= sz -> Z.of_nat (length argv) <= Z.of_nat MAXARG ->
  exists k' sp' sp us, user_stack pgdir sz argv k e = Ret (Some sp) k' e /\ uspace_ok kend k' pgdir l /\
    lo <= sp /\ sp' <= sz /\ sp = sp' - 4 * (Z.of_nat (length argv) + 4) /\ length us = length argv /\
    user_at (k_mem k') pgdir sp (words (ustack sp' us)) /\
    Forall2 (fun s a => user_at (k_mem k') pgdir a (s ++ [0])) argv us.
Proof.
  intros Hc Hok Hlo Hsz Hacc Hroom Hn. unfold stack_room in Hroom. pose proof (strings_room_nonneg argv) as Hnn.
  destruct (push_args_run lo sz argv Hlo ltac:(lia) k e 0 sz Hc Hok) as
    (k1 & sp' & us & Hr & Hc1 & Hok1 & Hsp' & Hlen & Hacc1 & _ & Hall); [lia|lia|lia|done|lia|].
  unfold user_stack. rewrite (bind_Ret _ _ _ _ _ _ _ Hr).
  assert (length (ustack sp' us) = (length argv + 4)%nat) as Ews.
  { unfold ustack. rewrite !length_app, Hlen. simpl. lia. }
  rewrite Ews. set (sp := u32 (sp' - Z.of_nat (length argv + 4) * 4)).
  assert (sp = sp' - 4 * (Z.of_nat (length argv) + 4)) as Esp by (unfold sp; rewrite u32_small; lia).
  assert (length (words (ustack sp' us)) = (4 * (length argv + 4))%nat) as Ewl by (by rewrite length_words, Ews).
  destruct (copyout_all k1 e sp (words (ustack sp' us)) Hc1 Hok1) as (k' & Hr' & _ & Hok' & Hw); [lia|lia| |].
  { intros x Hx. apply Hacc1. lia. }
  rewrite (bind_Ret _ _ _ _ _ _ _ Hr'), mret_run. cbn [Z.ltb Z.compare].
  exists k', sp', sp, us. split_and!; [done|done|lia|lia|done|done| |].
  - apply (user_write_at (k_mem k1)); [lia|lia|done].
  - eapply Forall2_impl; [exact Hall|]. intros s a (H1 & H2 & H3).
    apply (user_write_keeps (k_mem k1) _ _ sp (words (ustack sp' us))); [lia| |done| |done].
    + rewrite length_app. simpl. lia.
    + rewrite Ewl. lia.
Qed.

(** C22: The stack that [exec] builds is what [main(argc, argv)] expects.  When
    the strings and pointers fit in the part [[lo, sz)] of memory that the
    user can access, the code returns a stack pointer [sp] in it, and user
    code finds at [sp] the return address 0xffffffff, at [sp + 4] the number of
    arguments, at [sp + 8] the address of an array of pointers; the pointer
    number [j] of this array is the address of a NUL-terminated copy of
    argument [j], and the one after the last is null. *)
Theorem exec_stack_layout k e lo sz argv :
  idle kb k -> uspace_ok kend k pgdir l -> 0 <= lo -> sz < 2 ^ 32 -> accessible (k_mem k) pgdir lo sz ->
  lo + stack_room argv <= sz -> Z.of_nat (length argv) <= Z.of_nat MAXARG ->
  exists k' sp av, user_stack pgdir sz argv k e = Ret (Some sp) k' e /\ uspace_ok kend k' pgdir l /\ lo <= sp < sz /\
    user_word (k_mem k') pgdir sp 0xffffffff /\
    user_word (k_mem k') pgdir (sp + 4) (Z.of_nat (length argv)) /\
    user_word (k_mem k') pgdir (sp + 8) av /\
    (forall j s, argv !! j = Some s -> exists a, user_word (k_mem k') pgdir (av + 4 * Z.of_nat j) a /\
       user_at (k_mem k') pgdir a (s ++ [0])) /\
    user_word (k_mem k') pgdir (av + 4 * Z.of_nat (length argv)) 0.
Proof.
  intros Hc Hok Hlo Hsz Hacc Hroom Hn. pose proof (strings_room_nonneg argv) as Hnn.
  destruct (user_stack_run k e lo sz argv Hc Hok Hlo Hsz Hacc Hroom Hn) as
    (k' & sp' & sp & us & Hr & Hok' & Hsp & Hsz' & Esp & Hlen & Hat & Hall).
  pose proof (user_at_words _ _ _ Hat) as Hw. unfold ustack in Hw. unfold stack_room in Hroom.
  set (av := u32 (sp' - (Z.of_nat (length us) + 1) * 4)) in *.
  assert (av = sp + 12) as Eav by (unfold av; rewrite u32_small; lia).
  assert (forall j w, (us ++ [0]) !! j = Some w -> user_word (k_mem k') pgdir (av + 4 * Z.of_nat j) w) as Harr.
  { intros j w Hj. rewrite Eav. replace (sp + 12 + 4 * Z.of_nat j) with (sp + 4 * Z.of_nat (3 + j)) by lia.
    by apply Hw. }
  exists k', sp, av. split_and!; [done|done|lia|lia|..].
  - rewrite <-(Z.add_0_r sp). by apply (Hw 0%nat).
  - rewrite <-Hlen. by apply (Hw 1%nat).
  - by apply (Hw 2%nat).
  - intros j s Hj. destruct (Forall2_lookup_l _ _ _ _ _ Hall Hj) as (a & Ha & Hs).
    exists a. split; [|done]. apply Harr. by apply lookup_app_l_Some.
  - rewrite <-Hlen. apply Harr. by rewrite lookup_app_r, Nat.sub_diag by lia.
Qed.
End Stack.

(** ** An instance: a stack of one page *)

Lemma demo_accessible : accessible (k_mem demo_space) (page_at 0) 0x1000 0x2000.
Proof.
  intros x Hx. unfold ubyte, frame. rewrite demo_translate.
  assert (PDX x = 0) as -> by (rewrite PDX_div, Z.div_small by lia; done).
  assert (PTX x = 1) as -> by (rewrite PTX_mod by lia; Z.div_mod_to_equations; lia).
  by eexists.
Qed.

Lemma exec_stack_layout_witness :
  exists k' sp av, user_stack (page_at 0) 0x2000 [bytes "echo"; bytes "hi"] demo_space [] = Ret (Some sp) k' [] /\
    user_word (k_mem k') (page_at 0) (sp + 4) 2 /\ user_word (k_mem k') (page_at 0) (sp + 8) av /\
    exists a, user_word (k_mem k') (page_at 0) (av + 4) a /\ user_at (k_mem k') (page_at 0) a (bytes "hi" ++ [0]).
Proof.
  assert (idle solo_kernel demo_space) as Hc by (apply idle_mem; unfold demo_free; apply idle_kmem, solo_idle).
  destruct (exec_stack_layout solo_kernel demo_kend (page_at 0) _ demo_space [] 0x1000 0x2000
    [bytes "echo"; bytes "hi"] Hc demo_uspace) as (k' & sp & av & Hr & _ & _ & _ & Hargc & Hav & Hargs & _);
    [lia|lia|apply demo_accessible|vm_compute; congruence|vm_compute; congruence|].
  exists k', sp, av. split_and!; [exact Hr|exact Hargc|exact Hav|].
  exact (Hargs 1%nat (bytes "hi") eq_refl).
Defined.
