(* ===== verification/Inv.v ===== *)
(** An invariant of the whole kernel, and the rules by which it is shown that
    a routine preserves it: the shapes of the tables, and the family of the
    processes.  While a routine is off the CPU, the rest of the system is
    assumed to preserve the invariant as well. *)

From S2P Require Import Prelude Types Spinlock Proc Sleeplock.

(** A process that can still run. *)
Definition alive (s : procstate) : bool :=
  match s with SLEEPING | RUNNABLE | RUNNING => true | _ => false end.

(** Every parent is alive, so that it can wait for its child; every process
    but the first has a parent; the first process, which [userinit] made in
    slot 0, is alive. *)
Record family_ok (k : kernel) : Prop := {
  fam_parent : forall j q i, k_procs k !! j = Some q -> p_parent q = Some i ->
    exists r, k_procs k !! i = Some r /\ alive (p_state r) = true;
  fam_child : forall j q, k_procs k !! j = Some q -> alive (p_state q) = true \/ p_state q = ZOMBIE ->
    j <> 0%nat -> is_Some (p_parent q);
  fam_init : k_initproc k = Some 0%nat /\ exists r, k_procs k !! 0%nat = Some r /\ alive (p_state r) = true
}.

(** The tables have the lengths they are declared with. *)
Record tables_ok (k : kernel) : Prop := {
  tab_procs : length (k_procs k) = NPROC;
  tab_ofile : Forall (fun p => length (p_ofile p) = NOFILE /\ length (p_name p) = 16%nat) (k_procs k);
  tab_files : length (k_files k) = NFILE;
  tab_inodes : length (k_inodes k) = NINODE;
  tab_bufs : length (k_bufs k) = (NBUF + 1)%nat;
  tab_sems : length (k_sems k) = 5%nat;
  tab_input : length (in_buf (k_input k)) = 128%nat
}.

(** What holds whenever the CPU is given up. *)
Definition parked_ok (k : kernel) : Prop := family_ok k /\ tables_ok k.

(** What holds while a process runs: it is alive as well. *)
Definition cur_alive (k : kernel) : Prop :=
  forall i, c_proc (k_cpu k) = Some i -> exists r, k_procs k !! i = Some r /\ alive (p_state r) = true.
Definition sys_ok (k : kernel) : Prop := parked_ok k /\ cur_alive k.

(** The process that runs on the CPU, if there is one. *)
Definition on_cpu (o : option nat) (k : kernel) : Prop := c_proc (k_cpu k) = o.
Definition running (o : option nat) (k : kernel) : Prop := sys_ok k /\ on_cpu o k.

(** The time slices of the rest of the system preserve the invariant. *)
Definition env_ok (e : env) : Prop := Forall (fun slice => forall k, parked_ok k -> parked_ok (slice k)) e.

(** ** Triples *)

(** [m], begun where [P] holds, ends where [Q] holds, and gives up the CPU for
    good only where [R] holds. *)
Definition triple {A} (R P : kernel -> Prop) (m : K A) (Q : A -> kernel -> Prop) : Prop :=
  forall k e, env_ok e -> P k ->
  match m k e with
  | Ret a k' e' => env_ok e' /\ Q a k'
  | Parked k' => R k'
  | _ => True
  end.

Definition inv {A} (R P : kernel -> Prop) (m : K A) : Prop := triple R P m (fun _ => P).

(** What the routines of all components promise: they preserve the invariant,
    and return in the process that called them. *)
Class Pres {A} (m : K A) : Prop := pres_law : forall o, inv parked_ok (running o) m.

Section Rules.
  Context {R : kernel -> Prop}.
  Implicit Types (P : kernel -> Prop).

Lemma triple_ret {A} P (a : A) (Q : A -> kernel -> Prop) : (forall k, P k -> Q a k) -> triple R P (mret a) Q.
Proof. intros H k e He HP. cbn. auto. Qed.

Lemma triple_bind {A B} P (m : K A) (f : A -> K B) S (Q : B -> kernel -> Prop) :
  triple R P m S -> (forall a, triple R (S a) (f a) Q) -> triple R P (m ≫= f) Q.
Proof.
  intros Hm Hf k e He HP. unfold mbind, M_bind. specialize (Hm k e He HP).
  destruct (m k e) as [a k1 e1| | |]; try done. destruct Hm as [He1 HS]. exact (Hf a _ _ He1 HS).
Qed.

Lemma triple_weaken {A} P P' (m : K A) (Q Q' : A -> kernel -> Prop) :
  triple R P' m Q' -> (forall k, P k -> P' k) -> (forall a k, Q' a k -> Q a k) -> triple R P m Q.
Proof.
  intros Hm HP HQ k e He Hk. specialize (Hm k e He (HP _ Hk)). destruct (m k e); naive_solver.
Qed.
Lemma triple_pre {A} P P' (m : K A) Q : triple R P' m Q -> (forall k, P k -> P' k) -> triple R P m Q.
Proof. intros H HP. by eapply triple_weaken. Qed.

Lemma triple_post {A} P (m : K A) (Q Q' : A -> kernel -> Prop) :
  (forall a k, Q' a k -> Q a k) -> triple R P m Q' -> triple R P m Q.
Proof. intros HQ H. by eapply triple_weaken. Qed.

Lemma triple_gets {A} P (f : kernel -> A) (Q : A -> kernel -> Prop) :
  (forall k, P k -> Q (f k) k) -> triple R P (gets f) Q.
Proof. intros H k e He HP. cbn. auto. Qed.

Lemma triple_modify P (g : kernel -> kernel) (Q : unit -> kernel -> Prop) :
  (forall k, P k -> Q tt (g k)) -> triple R P (modify g) Q.
Proof. intros H k e He HP. cbn. auto. Qed.

Lemma triple_panic {A} P s (Q : A -> kernel -> Prop) : triple R P (panic s) Q.
Proof. by intros k e. Qed.
Lemma triple_park {A} P (Q : A -> kernel -> Prop) : (forall k, P k -> R k) -> triple R P park Q.
Proof. intros H k e _ HP. by apply H. Qed.
Lemma triple_undef {A} P s (Q : A -> kernel -> Prop) : triple R P (undef s) Q.
Proof. by intros k e. Qed.

Lemma triple_deref {A} P s (o : option A) (Q : A -> kernel -> Prop) :
  (forall a k, o = Some a -> P k -> Q a k) -> triple R P (deref s o) Q.
Proof. intros H. destruct o as [a|]; [apply triple_ret; auto|apply triple_undef]. Qed.

Lemma triple_for_each {A} P (l : list A) (body : A -> K unit) :
  (forall x, triple R P (body x) (fun _ => P)) -> triple R P (for_each l body) (fun _ => P).
Proof.
  intros H. induction l as [|x l IH]; cbn [for_each]; [by apply triple_ret|].
  by apply (triple_bind _ _ _ (fun _ => P)).
Qed.

Lemma triple_for_loop {A B} P (l : list A) (body : A -> K (option B)) :
  (forall x, triple R P (body x) (fun _ => P)) -> triple R P (for_loop l body) (fun _ => P).
Proof.
  intros H. induction l as [|x l IH]; cbn [for_loop]; [by apply triple_ret|].
  apply (triple_bind _ _ _ (fun _ => P)); [apply H|]. intros [r|]; [by apply triple_ret|done].
Qed.

Lemma triple_for_acc {A B} P (l : list A) (acc : B) (body : A -> B -> K B) :
  (forall x acc, triple R P (body x acc) (fun _ => P)) -> triple R P (for_acc l acc body) (fun _ => P).
Proof.
  intros H. revert acc. induction l as [|x l IH]; intros acc; cbn [for_acc]; [by apply triple_ret|].
  apply (triple_bind _ _ _ (fun _ => P)); auto.
Qed.

Lemma get_proc_triple P i : triple R P (get_proc i) (fun p k => P k /\ k_procs k !! i = Some p).
Proof.
  unfold get_proc. apply (triple_bind _ _ _ (fun r k => P k /\ k_procs k !! i = r)); [by apply triple_gets|].
  intros r. apply triple_deref. by intros p k -> [].
Qed.
End Rules.

(** ** The invariant *)

(** The states that agree on what the invariant is about. *)
Record same (k k' : kernel) : Prop := {
  same_procs : k_procs k' = k_procs k;
  same_init : k_initproc k' = k_initproc k;
  same_cpu : c_proc (k_cpu k') = c_proc (k_cpu k);
  same_files : length (k_files k') = length (k_files k);
  same_inodes : length (k_inodes k') = length (k_inodes k);
  same_bufs : length (k_bufs k') = length (k_bufs k);
  same_sems : length (k_sems k') = length (k_sems k);
  same_input : length (in_buf (k_input k')) = length (in_buf (k_input k))
}.
Class Framed (P : kernel -> Prop) : Prop := framed_law : forall k k', same k k' -> P k -> P k'.

#[export] Instance framed_parked : Framed parked_ok.
Proof.
  intros k k' [E1 E2 E3 E4 E5 E6 E7 E8] [[] []].
  split; constructor; rewrite ?E1, ?E2, ?E3, ?E4, ?E5, ?E6, ?E7, ?E8; done.
Qed.
#[export] Instance framed_procs (f : list proc -> Prop) : Framed (fun k => f (k_procs k)).
Proof. intros k k' [E1]. by rewrite E1. Qed.
#[export] Instance framed_and P P' : Framed P -> Framed P' -> Framed (fun k => P k /\ P' k).
Proof. intros H H' k k' Hs []. split; [by apply (H k)|by apply (H' k)]. Qed.
#[export] Instance framed_sys : Framed sys_ok.
Proof.
  intros k k' Hs [Hk Hc]. split; [by apply (framed_law k)|]. unfold cur_alive.
  by rewrite (same_procs _ _ Hs), (same_cpu _ _ Hs).
Qed.
#[export] Instance framed_on_cpu o : Framed (on_cpu o).
Proof. intros k k' Hs. unfold on_cpu. by rewrite (same_cpu _ _ Hs). Qed.
#[export] Instance framed_running o : Framed (running o).
Proof. unfold running. apply _. Qed.
Lemma running_parked o k : running o k -> parked_ok k.
Proof. by intros [[]]. Qed.

(** A process whose parent and whose life stay is replaced. *)
Lemma sys_ok_insert k i p q :
  sys_ok k -> k_procs k !! i = Some p -> p_parent q = p_parent p ->
  alive (p_state q) = alive (p_state p) -> (p_state q = ZOMBIE <-> p_state p = ZOMBIE) ->
  length (p_ofile q) = length (p_ofile p) -> (length (p_name p) = 16%nat -> length (p_name q) = 16%nat) ->
  sys_ok (k <| k_procs := <[i := q]> (k_procs k) |>).
Proof.
  intros [[[Hpa Hch (Hi0 & r0 & Hr0 & Ha0)] [Hl Hof]] Hcur] Hp Eq Ea Ez Eo En.
  pose proof (lookup_lt_Some _ _ _ Hp) as Hlt.
  assert (forall j r, k_procs k !! j = Some r -> exists r', <[i := q]> (k_procs k) !! j = Some r' /\
    alive (p_state r') = alive (p_state r)) as Hkeep.
  { intros j r Hr. destruct (decide (j = i)) as [->|]; [|rewrite list_lookup_insert_ne by done; by exists r].
    rewrite list_lookup_insert_eq by done. exists q. split; [done|]. by simplify_eq. }
  assert (forall j r', <[i := q]> (k_procs k) !! j = Some r' -> exists r, k_procs k !! j = Some r /\
    p_parent r' = p_parent r /\ alive (p_state r') = alive (p_state r) /\ (p_state r' = ZOMBIE <-> p_state r = ZOMBIE)) as Hback.
  { intros j r' Hr. destruct (decide (j = i)) as [->|]; [|rewrite list_lookup_insert_ne in Hr by done; by exists r'].
    rewrite list_lookup_insert_eq in Hr by done. simplify_eq. by exists p. }
  split; [split; constructor|]; rsimpl; try done.
  - intros j r' m Hr Hm. destruct (Hback j r' Hr) as (r & Hr2 & E & _). rewrite E in Hm.
    destruct (Hpa j r m Hr2 Hm) as (s & Hs & Hal). destruct (Hkeep m s Hs) as (s' & ? & E'). exists s'. by rewrite E'.
  - intros j r' Hr Hal Hne. destruct (Hback j r' Hr) as (r & Hr2 & E & E1 & E2). rewrite E. apply (Hch j); [done| |done].
    by rewrite <-E1, <-E2.
  - split; [done|]. destruct (Hkeep 0%nat r0 Hr0) as (r' & ? & E'). exists r'. by rewrite E'.
  - by rewrite length_insert.
  - apply Forall_insert; [done|]. destruct (Forall_lookup_1 _ _ _ _ Hof Hp) as [? ?]. split; [by rewrite Eo|auto].
  - intros j Hj. destruct (Hcur j Hj) as (r & Hr & Ha). destruct (Hkeep j r Hr) as (r' & ? & E'). exists r'. by rewrite E'.
Qed.

(** ** Routines that preserve the invariant *)

Section Inv.
  Context {R P : kernel -> Prop}.

Lemma inv_bind {A B} (m : K A) (f : A -> K B) : inv R P m -> (forall a, inv R P (f a)) -> inv R P (m ≫= f).
Proof. exact (triple_bind P m f (fun _ => P) (fun _ => P)). Qed.
Lemma inv_ret {A} (a : A) : inv R P (mret a).
Proof. by apply triple_ret. Qed.
Lemma inv_gets {A} (f : kernel -> A) : inv R P (gets f).
Proof. by apply triple_gets. Qed.
Lemma inv_deref {A} s (o : option A) : inv R P (deref s o).
Proof. by apply triple_deref. Qed.
Lemma inv_panic {A} s : inv R P (A := A) (panic s).
Proof. apply triple_panic. Qed.
Lemma inv_undef {A} s : inv R P (A := A) (undef s).
Proof. apply triple_undef. Qed.
Lemma inv_park {A} : (forall k, P k -> R k) -> inv R P (A := A) park.
Proof. apply triple_park. Qed.
Lemma inv_modify (g : kernel -> kernel) : (forall k, P k -> P (g k)) -> inv R P (modify g).
Proof. exact (triple_modify P g (fun _ => P)). Qed.
Lemma inv_get_proc i : inv R P (get_proc i).
Proof. eapply triple_weaken; [apply get_proc_triple|done|]. by intros p k []. Qed.

(** A routine whose fuel depends on the state. *)
Lemma inv_read {A} (m : K A) : (forall k e, exists m', m k e = m' k e /\ inv R P m') -> inv R P m.
Proof. intros H k e He Hk. destruct (H k e) as (m' & -> & Hm). by apply (Hm k e). Qed.

(** Two invariants at once. *)
Lemma inv_and {A} (P' : kernel -> Prop) (m : K A) :
  inv R P m -> inv (fun _ => True) P' m -> inv R (fun k => P k /\ P' k) m.
Proof.
  intros H1 H2 k e He [HP HP']. specialize (H1 k e He HP). specialize (H2 k e He HP'). destruct (m k e); naive_solver.
Qed.
End Inv.

(** A routine that leaves all that the invariant is about. *)
Class Still {A} (m : K A) : Prop :=
  still_law : forall R P, Framed P -> (forall k, P k -> R k) -> inv R P m.
#[export] Instance still_pres {A} (m : K A) : Still m -> Pres m.
Proof. intros H o. apply H; [apply _|exact (running_parked o)]. Qed.
Lemma still_and {A} R P (m : K A) : Still m -> inv R P m -> forall P', Framed P' -> inv R (fun k => P k /\ P' k) m.
Proof. intros Hm H P' HP'. apply inv_and; [exact H|]. by apply Hm. Qed.

(** A change of a process that leaves its parent and state. *)
Definition quiet (f : proc -> proc) : Prop := forall p,
  p_parent (f p) = p_parent p /\ p_state (f p) = p_state p /\
  length (p_ofile (f p)) = length (p_ofile p) /\ (length (p_name p) = 16%nat -> length (p_name (f p)) = 16%nat).

Lemma alter_missing {A} (f : A -> A) i (l : list A) : l !! i = None -> alter f i l = l.
Proof. revert i. induction l as [|x l IH]; intros [|i]; simpl; [done..|]. intros H. f_equal. by apply IH. Qed.

Lemma sys_ok_alter k i f : sys_ok k -> quiet f -> sys_ok (k <| k_procs := alter f i (k_procs k) |>).
Proof.
  intros Hk Hf. destruct (k_procs k !! i) as [p|] eqn:Hp.
  - rewrite (list_alter_lookup _ _ _ _ Hp). destruct (Hf p) as (E1 & E2 & E3 & E4).
    apply (sys_ok_insert k i p); try done; by rewrite E2.
  - rewrite alter_missing by done. by destruct k.
Qed.

#[export] Instance pres_upd_proc i f : quiet f -> Pres (upd_proc i f).
Proof. intros Hf o. apply triple_modify. intros k [Hk Ho]. split; [by apply sys_ok_alter|done]. Qed.

(** ** Automation *)

Create HintDb pres discriminated.
#[export] Hint Extern 1 (parked_ok _) => eapply running_parked; eassumption : pres.
(** Routines are told apart by their names. *)
#[export] Hint Constants Opaque : typeclass_instances.
#[export] Hint Transparent block : typeclass_instances.
#[export] Hint Resolve inv_ret inv_gets inv_deref inv_get_proc inv_panic inv_undef : pres.

Ltac same_length := rsimpl; rewrite ?length_insert, ?length_alter; reflexivity.
Ltac frame :=
  let k := fresh "k" in let Hk := fresh "Hk" in
  intros k Hk; apply (framed_law k); [constructor; same_length|exact Hk].
Ltac is_quiet :=
  intros ?; split_and!; [same_length..|]; rsimpl; rewrite ?length_insert; first [done | intros _; reflexivity].
Ltac parks := solve [auto with pres nocore | assumption | done].

Ltac inv_step :=
  cbv zeta;
  lazymatch goal with
  | |- forall _, _ => intros ?
  | |- inv _ _ (mbind _ _) => apply inv_bind
  | |- inv _ _ (modify _) => apply inv_modify; frame
  | |- inv _ _ (upd_proc _ _) => first [apply pres_upd_proc; is_quiet | solve [auto with pres nocore]]
  | |- inv _ _ (for_each _ _) => apply triple_for_each
  | |- inv _ _ (for_loop _ _) => apply triple_for_loop
  | |- inv _ _ (for_acc _ _ _) => apply triple_for_acc
  | |- inv _ _ park => apply inv_park; parks
  | |- inv _ _ (if ?b then _ else _) => destruct b
  | |- inv _ _ (match ?x with _ => _ end) => destruct x eqn:?
  | |- triple ?R ?P ?m (fun _ => ?P) => change (inv R P m)
  | |- Pres ?m => intros ?
  | |- Still ?m => intros ? ? ? ?
  | |- inv _ _ _ => solve [auto with pres nocore | apply pres_law | apply still_law; [apply _|parks]]
  end.
Ltac inv_auto := repeat inv_step.
Ltac inv_fuel := lazymatch goal with |- Still _ => intros ? ? ? ? | |- Pres _ => intros ? | _ => idtac end;
  apply inv_read; intros ? ?; eexists; split; [reflexivity|inv_auto].

(** ** Spin locks and giving up the CPU *)

#[export] Instance still_pushcli : Still pushcli.
Proof. unfold pushcli. inv_auto. Qed.
#[export] Instance still_popcli : Still popcli.
Proof. unfold popcli. inv_auto. Qed.
#[export] Instance still_holding lk : Still (holding lk).
Proof. unfold holding. inv_auto. Qed.
#[export] Instance still_acquire lk : Still (acquire lk).
Proof. unfold acquire. inv_auto. Qed.
#[export] Instance still_release lk : Still (release lk).
Proof. unfold release. inv_auto. Qed.
#[export] Instance still_myproc : Still myproc.
Proof. unfold myproc. inv_auto. Qed.
#[export] Instance still_curproc : Still curproc.
Proof. unfold curproc. inv_auto. Qed.

Lemma myproc_triple (R P : kernel -> Prop) :
  Framed P -> (forall k, P k -> R k) -> triple R P myproc (fun p k => P k /\ on_cpu p k).
Proof.
  intros HF HR. unfold myproc. apply (triple_bind _ _ _ (fun _ => P)); [by apply still_law|]. intros _.
  apply (triple_bind _ _ _ (fun p k => P k /\ on_cpu p k)); [by apply triple_gets|]. intros p.
  apply (triple_bind _ _ _ (fun _ k => P k /\ on_cpu p k)).
  - by apply (still_and _ _ _ still_popcli); [apply still_law|apply _].
  - intros _. by apply triple_ret.
Qed.

Lemma curproc_triple (R P : kernel -> Prop) :
  Framed P -> (forall k, P k -> R k) -> triple R P curproc (fun i k => P k /\ on_cpu (Some i) k).
Proof.
  intros HF HR. unfold curproc. apply (triple_bind _ _ _ _ _ (myproc_triple R P HF HR)). intros p.
  apply triple_deref. by intros i k ->.
Qed.

(** The running process stays alive. *)
Lemma running_state i s :
  alive s = true -> inv parked_ok (running (Some i)) (upd_proc i (fun p => p <| p_state := s |>)).
Proof.
  intros Hs. apply inv_modify. intros k [Hk Hi]. split; [|done].
  destruct (proj2 Hk i Hi) as (p & Hp & Ha).
  rewrite (list_alter_lookup _ _ _ _ Hp). apply (sys_ok_insert k i p); try done.
  - rsimpl. by rewrite Ha.
  - rsimpl. by split; intros E; rewrite E in *.
Qed.

(** A process that gets the CPU back runs. *)
Lemma swtch_triple i : triple parked_ok parked_ok (swtch i) (fun _ => running (Some i)).
Proof.
  intros k e. unfold swtch. revert k. induction e as [|s e IH]; intros k He Hk; [done|].
  inversion_clear He as [|? ? Hs He']. cbn [swtch_loop]. destruct (_ && _) eqn:E; [|by apply IH; auto].
  apply andb_true_iff in E as [E1%bool_decide_eq_true E2%bool_decide_eq_true].
  split; [done|]. split; [split; [by apply Hs|]|done]. intros j Hj. rewrite E2 in Hj. injection Hj as <-.
  destruct (k_procs (s k) !! i) as [r|]; [|done]. exists r. injection E1 as ->. done.
Qed.

(** [sched] asks less than that the process is alive: it may be a zombie. *)
Lemma sched_triple o : triple parked_ok (fun k => parked_ok k /\ on_cpu o k) sched (fun _ => running o).
Proof.
  set (P := fun k => parked_ok k /\ on_cpu o k).
  assert (Framed P) as HF by (apply framed_and; apply _). assert (forall k, P k -> parked_ok k) as HP by by intros k [].
  unfold sched. apply (triple_bind _ _ _ _ _ (curproc_triple _ P HF HP)). intros i.
  destruct (decide (o = Some i)) as [->|]; [|by intros k e _ [[_ Ho] Hi]; unfold on_cpu in *; congruence].
  eapply triple_pre; [|intros k [Hk _]; exact Hk].
  apply (triple_bind _ _ _ (fun _ => P)); [by apply still_law|]. intros [|]; [|apply triple_panic].
  apply (triple_bind _ _ _ (fun _ => P)); [by apply triple_gets|]. intros n. cbn.
  destruct (n =? 1)%Z; [|apply triple_panic].
  apply (triple_bind _ _ _ (fun _ => P)); [apply inv_get_proc|]. intros p.
  case_bool_decide; [apply triple_panic|].
  apply (triple_bind _ _ _ (fun _ => P)); [by apply triple_gets|]. intros [|]; [apply triple_panic|].
  apply (triple_bind _ _ _ (fun _ => P)); [by apply triple_gets|]. intros b.
  apply (triple_bind _ _ _ (fun _ => running (Some i))); [eapply triple_pre; [apply swtch_triple|exact HP]|]. inv_auto.
Qed.
#[export] Instance pres_sched : Pres sched.
Proof. intros o. eapply triple_pre; [apply sched_triple|]. by intros k [[]]. Qed.

(** What [myproc] returns is the process that runs. *)
Lemma myproc_running {B} o (f : option nat -> K B) :
  inv parked_ok (running o) (f o) -> inv parked_ok (running o) (myproc ≫= f).
Proof.
  intros H. apply (triple_bind _ _ _ _ _ (myproc_triple _ _ _ (running_parked o))). intros p k e He [Hr Hp].
  assert (p = o) as ->; [|by apply H]. destruct Hr as [_ Ho]. unfold on_cpu in *. congruence.
Qed.
Lemma curproc_running {B} o (f : nat -> K B) :
  (forall i, o = Some i -> inv parked_ok (running (Some i)) (f i)) -> inv parked_ok (running o) (curproc ≫= f).
Proof.
  intros H. apply (triple_bind _ _ _ _ _ (curproc_triple _ _ _ (running_parked o))). intros i k e He [Hr Hp].
  destruct (decide (o = Some i)) as [E|]; [|destruct Hr; unfold on_cpu in *; congruence].
  subst o. by apply (H i eq_refl).
Qed.

#[export] Instance pres_yield : Pres yield.
Proof.
  intros o. unfold yield. apply inv_bind; [apply pres_law|]. intros _. apply curproc_running. intros i _.
  apply inv_bind; [by apply running_state|]. inv_auto.
Qed.

#[export] Instance pres_sleep ch lk : Pres (sleep ch lk).
Proof.
  intros o. unfold sleep. apply myproc_running. destruct o as [i|]; [|apply triple_panic].
  destruct lk as [lk|]; [|apply triple_panic].
  apply inv_bind; [inv_auto|]. intros _. apply inv_bind; [inv_auto|]. intros _.
  apply inv_bind; [by apply running_state|]. inv_auto.
Qed.

(** ** Loops over the processes *)

(** The process in slot [i]. *)
Definition proc_at (i : nat) (S : proc -> Prop) (k : kernel) : Prop := exists p, k_procs k !! i = Some p /\ S p.
#[export] Instance framed_proc_at i S : Framed (proc_at i S).
Proof. intros k k' Hs. unfold proc_at. by rewrite (same_procs _ _ Hs). Qed.

(** A process seen in a state can be changed on the strength of it. *)
Lemma pres_change (S : proc -> Prop) o i f :
  (forall p, S p -> p_parent (f p) = p_parent p /\ alive (p_state (f p)) = alive (p_state p) /\
     (p_state (f p) = ZOMBIE <-> p_state p = ZOMBIE) /\
     length (p_ofile (f p)) = length (p_ofile p) /\ (length (p_name p) = 16%nat -> length (p_name (f p)) = 16%nat)) ->
  triple parked_ok (fun k => running o k /\ proc_at i S k) (upd_proc i f)
    (fun _ k => running o k /\ proc_at i (fun q => exists p, S p /\ q = f p) k).
Proof.
  intros Hf. apply triple_modify. intros k [[Hk Ho] (p & Hp & HS)]. destruct (Hf p HS) as (? & ? & ? & ? & ?).
  rewrite (list_alter_lookup _ _ _ _ Hp). split; [split; [by apply (sys_ok_insert k i p)|done]|].
  exists (f p). rsimpl. rewrite list_lookup_insert_eq by (by eapply lookup_lt_Some). naive_solver.
Qed.

Lemma inv_for_procs R P (body : nat -> proc -> K unit) :
  (forall i p, triple R (fun k => P k /\ proc_at i (fun q => q = p) k) (body i p) (fun _ => P)) ->
  inv R P (for_procs body).
Proof.
  intros H. apply triple_for_each. intros i.
  apply (triple_bind _ _ _ _ _ (get_proc_triple P i)). intros p. eapply triple_pre; [apply H|].
  intros k [Hk Hp]. split; [done|]. by exists p.
Qed.

Lemma inv_for_procs_blind R P (body : nat -> proc -> K unit) : (forall i p, inv R P (body i p)) -> inv R P (for_procs body).
Proof. intros H. apply inv_for_procs. intros i p. eapply triple_pre; [apply H|]. by intros k []. Qed.
#[export] Hint Extern 1 (inv _ _ (for_procs _)) => apply inv_for_procs_blind; inv_auto : pres.

Lemma search_procs_triple {B} R P (Q : B -> kernel -> Prop) (body : nat -> proc -> K (option B)) :
  (forall i p, triple R (fun k => P k /\ proc_at i (fun q => q = p) k) (body i p)
     (fun o k => match o with Some b => Q b k | None => P k end)) ->
  triple R P (search_procs body) (fun o k => match o with Some b => Q b k | None => P k end).
Proof.
  intros H. unfold search_procs. induction (seq 0 NPROC) as [|i l IH]; cbn [for_loop]; [by apply triple_ret|].
  apply (triple_bind _ _ _ (fun o k => match o with Some b => Q b k | None => P k end)).
  - apply (triple_bind _ _ _ _ _ (get_proc_triple P i)). intros p. eapply triple_pre; [apply H|].
    intros k [Hk Hp]. split; [done|]. by exists p.
  - intros [b|]; [by apply triple_ret|done].
Qed.

#[export] Instance pres_wakeup1 ch : Pres (wakeup1 ch).
Proof.
  intros o. apply inv_for_procs. intros i p. destruct (bool_decide _) eqn:E; [|apply triple_ret; by intros k []].
  destruct (bool_decide (p_chan p = _)); [|apply triple_ret; by intros k []].
  apply bool_decide_eq_true in E. eapply triple_weaken; [apply (pres_change (fun q => q = p) o)|done|by intros a k []].
  intros q ->. rsimpl. by rewrite E.
Qed.
#[export] Instance pres_wakeup ch : Pres (wakeup ch).
Proof. unfold wakeup. inv_auto. Qed.

#[export] Instance pres_kill pid : Pres (kill pid).
Proof.
  intros o. unfold kill. apply inv_bind; [apply pres_law|]. intros _.
  apply (triple_bind _ _ _ (fun _ => running o)); [|inv_auto].
  eapply triple_post; [|apply (search_procs_triple _ _ (fun _ => running o))]; [by intros [] k|].
  intros i p. apply (triple_post _ _ _ (fun _ => running o)); [by intros [] k|].
  destruct (p_pid p =? pid)%Z; [|apply triple_ret; by intros k []].
  apply (triple_bind _ _ _ (fun _ k => running o k /\ proc_at i (fun q => p_state q = p_state p) k)).
  - eapply triple_weaken; [apply (pres_change (fun q => p_state q = p_state p) o); intros q Hq; by rsimpl| |].
    + intros k [Hk (q & Hq & ->)]. split; [done|]. by exists p.
    + intros _ k [Hk (q & Hq & r & Hr & ->)]. split; [done|]. by eexists.
  - intros _. apply (triple_bind _ _ _ (fun _ => running o)); [|inv_auto].
    case_bool_decide as E; [|apply triple_ret; by intros k []].
    eapply triple_weaken; [apply (pres_change (fun q => p_state q = p_state p) o)|done|by intros a k []].
    intros q Hq. rsimpl. by rewrite Hq, E.
Qed.

#[export] Instance pres_set_proc_queue pid q : Pres (set_proc_queue pid q).
Proof. unfold set_proc_queue. inv_auto. Qed.
#[export] Instance pres_set_lottery_params pid t : Pres (set_lottery_params pid t).
Proof. unfold set_lottery_params. inv_auto. Qed.
#[export] Instance pres_set_a_proc_bjf_params pid a b c : Pres (set_a_proc_bjf_params pid a b c).
Proof. unfold set_a_proc_bjf_params, set_bjf. inv_auto. Qed.
#[export] Instance pres_set_all_bjf_params a b c : Pres (set_all_bjf_params a b c).
Proof. unfold set_all_bjf_params, set_bjf. inv_auto. Qed.
#[export] Instance pres_get_parent_pid : Pres get_parent_pid.
Proof. unfold get_parent_pid. inv_auto. Qed.
