(* ===== verification/InvFs.v ===== *)
(** The routines from the console up to the file system preserve the
    invariant of the kernel. *)

From S2P Require Import Prelude Types Spinlock Float32 Proc Sem Trace Cprintf Sleeplock Bio Bytes Log Str Fs FsIo Inv.

#[export] Instance still_get_pos : Still get_pos.
Proof. unfold get_pos. inv_auto. Qed.
#[export] Instance still_change_pos pos : Still (change_pos pos).
Proof. unfold change_pos. inv_auto. Qed.
#[export] Instance still_crt_store pos v : Still (crt_store pos v).
Proof. unfold crt_store. inv_auto. Qed.
#[export] Instance still_cgaputc c : Still (cgaputc c).
Proof. unfold cgaputc. inv_auto. Qed.
#[export] Instance still_uartputc c : Still (uartputc c).
Proof. unfold uartputc. inv_auto. Qed.
#[export] Instance still_consputc c : Still (consputc c).
Proof. unfold consputc. inv_auto. Qed.
#[export] Instance still_printint xx base sign : Still (printint xx base sign).
Proof. unfold printint. inv_auto. Qed.
#[export] Instance still_next_arg args : Still (next_arg args).
Proof. unfold next_arg. inv_auto. Qed.
#[export] Instance still_arg_int a : Still (arg_int a).
Proof. unfold arg_int. inv_auto. Qed.
#[export] Instance still_arg_str a : Still (arg_str a).
Proof. unfold arg_str. inv_auto. Qed.
#[export] Instance pres_vprint fmt args : Pres (vprint fmt args).
Proof.
  revert args. induction fmt as [fmt IH] using (induction_ltof1 _ (@length Z)). unfold ltof in IH. intros args.
  destruct fmt as [|c fmt]; cbn [vprint]; [inv_auto|].
  assert (forall args, Pres (vprint fmt args)) by (intros; apply IH; simpl; lia).
  destruct (negb (c =? 37)); [inv_auto|]. destruct fmt as [|c' fmt]; [inv_auto|].
  assert (forall args, Pres (vprint fmt args)) by (intros; apply IH; simpl; lia). inv_auto.
Qed.
#[export] Instance pres_cprintf fmt args : Pres (cprintf fmt args).
Proof. unfold cprintf. inv_auto. Qed.

#[export] Instance still_get_sem i : Still (get_sem i).
Proof. unfold get_sem. inv_auto. Qed.
#[export] Instance still_upd_sem i f : Still (upd_sem i f).
Proof. unfold upd_sem. inv_auto. Qed.
#[export] Instance still_sem_init i value : Still (sem_init i value).
Proof. unfold sem_init. inv_auto. Qed.
#[export] Instance pres_sem_acquire i : Pres (sem_acquire i).
Proof. unfold sem_acquire. inv_auto. Qed.
#[export] Instance pres_sem_release i : Pres (sem_release i).
Proof. unfold sem_release. inv_auto. Qed.

#[export] Instance still_row_of {A} why i (a : list A) : Still (row_of why i a).
Proof. unfold row_of. inv_auto. Qed.
#[export] Instance still_push_pid_in_stack pid num : Still (push_pid_in_stack pid num).
Proof. unfold push_pid_in_stack. inv_auto. Qed.
#[export] Instance pres_print_callers n i pids orders : Pres (print_callers n i pids orders).
Proof. revert n i pids orders. induction n; intros; cbn [print_callers]; inv_auto. Qed.
#[export] Instance pres_get_callers syscall_number : Pres (get_callers syscall_number).
Proof. unfold get_callers. inv_auto. Qed.

#[export] Instance still_get_sl l : Still (get_sl l).
Proof. unfold get_sl. inv_auto. Qed.
#[export] Instance still_set_sl l v : Still (set_sl l v).
Proof. unfold set_sl, sl_update. destruct l; inv_auto. Qed.
#[export] Instance still_initsleeplock l : Still (initsleeplock l).
Proof. unfold initsleeplock. inv_auto. Qed.
#[export] Instance pres_wait_unlocked n l : Pres (wait_unlocked n l).
Proof. revert n l. induction n; intros; cbn [wait_unlocked]; inv_auto. Qed.
#[export] Instance pres_acquiresleep l : Pres (acquiresleep l).
Proof.
  unfold acquiresleep. inv_fuel.
Qed.
#[export] Instance pres_releasesleep l : Pres (releasesleep l).
Proof. unfold releasesleep. inv_auto. Qed.
#[export] Instance still_holdingsleep l : Still (holdingsleep l).
Proof. unfold holdingsleep. inv_auto. Qed.

#[local] Transparent get_buf upd_buf.
#[export] Instance still_get_buf b : Still (get_buf b).
Proof. unfold get_buf. inv_auto. Qed.
#[export] Instance still_upd_buf b f : Still (upd_buf b f).
Proof. unfold upd_buf. inv_auto. Qed.
#[export] Instance still_iderw b : Still (iderw b).
Proof. unfold iderw. inv_auto. Qed.
#[export] Instance still_unlink b : Still (unlink b).
Proof. unfold unlink. inv_auto. Qed.
#[export] Instance still_link_front b : Still (link_front b).
Proof. unfold link_front. inv_auto. Qed.
#[export] Instance still_binit : Still binit.
Proof. unfold binit. inv_auto. Qed.
Lemma pres_chase {A} fuel dir b (body : nat -> buf -> K (option A)) :
  (forall b r, Pres (body b r)) -> Pres (chase fuel dir b body).
Proof. intros H. revert b. induction fuel as [|n IH]; intros b; cbn [chase]; inv_auto. Qed.
#[export] Hint Extern 1 (inv _ _ (chase _ _ _ _)) => apply pres_chase; inv_auto : pres.
#[export] Instance pres_bget dev blockno : Pres (bget dev blockno).
Proof. unfold bget. inv_auto. Qed.
#[export] Instance pres_bread dev blockno : Pres (bread dev blockno).
Proof. unfold bread. inv_auto. Qed.
#[export] Instance still_bwrite b : Still (bwrite b).
Proof. unfold bwrite. inv_auto. Qed.
#[export] Instance pres_brelse b : Pres (brelse b).
Proof. unfold brelse. inv_auto. Qed.

#[export] Instance pres_readsb dev : Pres (readsb dev).
Proof. unfold readsb. inv_auto. Qed.
#[export] Instance still_get_log : Still get_log.
Proof. unfold get_log. inv_auto. Qed.
#[export] Instance still_upd_log f : Still (upd_log f).
Proof. unfold upd_log. inv_auto. Qed.
#[export] Instance still_get_lh_block i : Still (get_lh_block i).
Proof. unfold get_lh_block. inv_auto. Qed.
#[export] Instance still_set_lh_block i v : Still (set_lh_block i v).
Proof. unfold set_lh_block. inv_auto. Qed.
#[export] Instance still_copy_data dst src : Still (copy_data dst src).
Proof. unfold copy_data. inv_auto. Qed.
Lemma pres_for_logged body : (forall i, Pres (body i)) -> Pres (for_logged body).
Proof. intros H. unfold for_logged. inv_auto. Qed.
#[export] Hint Extern 1 (inv _ _ (for_logged _)) => apply pres_for_logged; inv_auto : pres.
#[export] Instance pres_install_trans : Pres install_trans.
Proof. unfold install_trans. inv_auto. Qed.
#[export] Instance pres_read_head : Pres read_head.
Proof. unfold read_head. inv_auto. Qed.
#[export] Instance pres_write_head : Pres write_head.
Proof. unfold write_head. inv_auto. Qed.
#[export] Instance pres_recover_from_log : Pres recover_from_log.
Proof. unfold recover_from_log. inv_auto. Qed.
#[export] Instance pres_initlog dev : Pres (initlog dev).
Proof. unfold initlog. inv_auto. Qed.
#[export] Instance pres_begin_op_loop fuel : Pres (begin_op_loop fuel).
Proof. revert fuel. induction fuel; intros; cbn [begin_op_loop]; inv_auto. Qed.
#[export] Instance pres_begin_op : Pres begin_op.
Proof. unfold begin_op. inv_fuel. Qed.
#[export] Instance pres_write_log : Pres write_log.
Proof. unfold write_log. inv_auto. Qed.
#[export] Instance pres_commit : Pres commit.
Proof. unfold commit. inv_auto. Qed.
#[export] Instance pres_end_op : Pres end_op.
Proof. unfold end_op. inv_auto. Qed.
#[export] Instance still_log_record blockno : Still (log_record blockno).
Proof. unfold log_record. inv_auto. Qed.
#[export] Instance still_log_write b : Still (log_write b).
Proof. unfold log_write. inv_auto. Qed.

#[export] Instance still_get_sb : Still get_sb.
Proof. unfold get_sb. inv_auto. Qed.
#[export] Instance still_set_data b f : Still (set_data b f).
Proof. unfold set_data. inv_auto. Qed.
#[export] Instance pres_bzero dev bno : Pres (bzero dev bno).
Proof. unfold bzero. inv_auto. Qed.
#[export] Instance pres_balloc dev : Pres (balloc dev).
Proof. unfold balloc. inv_auto. Qed.
#[export] Instance pres_bfree dev b : Pres (bfree dev b).
Proof. unfold bfree. inv_auto. Qed.
#[export] Instance still_get_inode i : Still (get_inode i).
Proof. unfold get_inode. inv_auto. Qed.
#[export] Instance still_upd_inode i f : Still (upd_inode i f).
Proof. unfold upd_inode. inv_auto. Qed.
#[export] Instance pres_iinit dev : Pres (iinit dev).
Proof. unfold iinit. inv_auto. Qed.
#[export] Instance still_iget_loop l dev inum empty : Still (iget_loop l dev inum empty).
Proof. revert l dev inum empty. induction l; intros; cbn [iget_loop]; inv_auto. Qed.
#[export] Instance still_iget dev inum : Still (iget dev inum).
Proof. unfold iget. inv_auto. Qed.
#[export] Instance pres_ialloc dev type : Pres (ialloc dev type).
Proof. unfold ialloc. inv_auto. Qed.
#[export] Instance pres_iupdate i : Pres (iupdate i).
Proof. unfold iupdate. inv_auto. Qed.
#[export] Instance still_idup i : Still (idup i).
Proof. unfold idup. inv_auto. Qed.
#[export] Instance pres_ilock ip : Pres (ilock ip).
Proof. unfold ilock. inv_auto. Qed.
#[export] Instance pres_iunlock ip : Pres (iunlock ip).
Proof. unfold iunlock. inv_auto. Qed.
#[export] Instance still_get_addr i j : Still (get_addr i j).
Proof. unfold get_addr. inv_auto. Qed.
#[export] Instance still_set_addr i j v : Still (set_addr i j v).
Proof. unfold set_addr. inv_auto. Qed.
#[export] Instance pres_addr_or_alloc i j : Pres (addr_or_alloc i j).
Proof. unfold addr_or_alloc. inv_auto. Qed.
#[export] Instance pres_bmap i bn : Pres (bmap i bn).
Proof. unfold bmap. inv_auto. Qed.
#[export] Instance pres_itrunc i : Pres (itrunc i).
Proof. unfold itrunc. inv_auto. Qed.
#[export] Instance pres_iput i : Pres (iput i).
Proof. unfold iput. inv_auto. Qed.
#[export] Instance pres_iunlockput i : Pres (iunlockput i).
Proof. unfold iunlockput. inv_auto. Qed.
#[export] Instance still_stati i : Still (stati i).
Proof. unfold stati. inv_auto. Qed.

(** The routines of the device switch preserve the invariant too. *)
Class DevPres `{Devsw} : Prop := {
  dev_read_pres major f i n : dev_read major = Some f -> Pres (f i n);
  dev_write_pres major f i src n : dev_write major = Some f -> Pres (f i src n)
}.
#[export] Hint Extern 2 (inv _ _ (_ _ _)) => eapply dev_read_pres; eassumption : pres.
#[export] Hint Extern 2 (inv _ _ (_ _ _ _)) => eapply dev_write_pres; eassumption : pres.

Section FsIo.
  Context `{DevPres}.

#[export] Instance pres_readi_loop fuel i tot off n dst : Pres (readi_loop fuel i tot off n dst).
Proof. revert fuel i tot off n dst. induction fuel; intros; cbn [readi_loop]; inv_auto. Qed.
#[export] Instance pres_readi i off n : Pres (readi i off n).
Proof. unfold readi. inv_auto. Qed.
#[export] Instance pres_writei_loop fuel i tot off n src : Pres (writei_loop fuel i tot off n src).
Proof. revert fuel i tot off n src. induction fuel; intros; cbn [writei_loop]; inv_auto. Qed.
#[export] Instance pres_writei i src off n : Pres (writei i src off n).
Proof. unfold writei. inv_auto. Qed.
#[export] Instance pres_dirlookup_loop fuel dp name off : Pres (dirlookup_loop fuel dp name off).
Proof. revert fuel dp name off. induction fuel; intros; cbn [dirlookup_loop]; inv_auto. Qed.
#[export] Instance pres_dirlookup dp name : Pres (dirlookup dp name).
Proof. unfold dirlookup. inv_auto. Qed.
#[export] Instance pres_free_entry fuel dp off : Pres (free_entry fuel dp off).
Proof. revert fuel dp off. induction fuel; intros; cbn [free_entry]; inv_auto. Qed.
#[export] Instance pres_dirlink dp name inum : Pres (dirlink dp name inum).
Proof. unfold dirlink. inv_auto. Qed.
#[export] Instance pres_namex_loop fuel ip path nameiparent name : Pres (namex_loop fuel ip path nameiparent name).
Proof. revert fuel ip path nameiparent name. induction fuel; intros; cbn [namex_loop]; inv_auto. Qed.
#[export] Instance pres_namex path nameiparent name : Pres (namex path nameiparent name).
Proof. unfold namex. inv_auto. Qed.
#[export] Instance pres_namei path : Pres (namei path).
Proof. unfold namei. inv_auto. Qed.
#[export] Instance pres_nameiparent path name : Pres (nameiparent path name).
Proof. unfold nameiparent. inv_auto. Qed.
End FsIo.
