(* ===== verification/InvMem.v ===== *)
(** The routines of memory, pipes, open files, page tables and user memory
    preserve the invariant of the kernel. *)

From S2P Require Import Prelude Types Spinlock Proc Sleeplock Bio Bytes Log Str Cprintf Fs FsIo Kalloc Pipe File Sched Vm Args PrintProcs Inv InvFs.

#[export] Hint Extern 1 (inv _ _ (when _ _)) => unfold when; inv_auto : pres.

Section Kalloc.
  Context (kend : Z).

#[export] Instance still_upd_mem f : Still (upd_mem f).
Proof. unfold upd_mem. inv_auto. Qed.
#[export] Instance still_set_freelist r : Still (set_freelist r).
Proof. unfold set_freelist. inv_auto. Qed.
#[export] Instance still_kfree v : Still (kfree kend v).
Proof. unfold kfree. inv_auto. Qed.
#[export] Instance still_kalloc : Still kalloc.
Proof. unfold kalloc. inv_auto. Qed.
#[export] Instance still_freerange vstart vend : Still (freerange kend vstart vend).
Proof. unfold freerange. inv_auto. Qed.
#[export] Instance still_kinit1 vstart vend : Still (kinit1 kend vstart vend).
Proof. unfold kinit1. inv_auto. Qed.
#[export] Instance still_kinit2 vstart vend : Still (kinit2 kend vstart vend).
Proof. unfold kinit2. inv_auto. Qed.
End Kalloc.

(** ** Pipes *)

#[export] Instance still_get_pipe p : Still (get_pipe p).
Proof. unfold get_pipe. inv_auto. Qed.
#[export] Instance still_upd_pipe p f : Still (upd_pipe p f).
Proof. unfold upd_pipe. inv_auto. Qed.
#[export] Instance still_myproc_killed : Still myproc_killed.
Proof. unfold myproc_killed. inv_auto. Qed.
#[export] Instance still_free_pipe kend p : Still (free_pipe kend p).
Proof. unfold free_pipe. inv_auto. Qed.
#[export] Instance pres_pipeclose kend p writable : Pres (pipeclose kend p writable).
Proof. unfold pipeclose. inv_auto. Qed.
#[export] Instance pres_wait_room fuel p : Pres (wait_room fuel p).
Proof. revert fuel p. induction fuel; intros; cbn [wait_room]; inv_auto. Qed.
#[export] Instance pres_await_room p : Pres (await_room p).
Proof. unfold await_room. inv_fuel. Qed.
#[export] Instance pres_pipewrite_loop p addr : Pres (pipewrite_loop p addr).
Proof. induction addr; intros; cbn [pipewrite_loop]; inv_auto. Qed.
#[export] Instance pres_pipewrite p addr n : Pres (pipewrite p addr n).
Proof. unfold pipewrite. inv_auto. Qed.
#[export] Instance pres_wait_data fuel p : Pres (wait_data fuel p).
Proof. revert fuel p. induction fuel; intros; cbn [wait_data]; inv_auto. Qed.
#[export] Instance pres_await_data p : Pres (await_data p).
Proof. unfold await_data. inv_fuel. Qed.
#[export] Instance still_piperead_loop p n : Still (piperead_loop p n).
Proof. induction n; intros; cbn [piperead_loop]; inv_auto. Qed.
#[export] Instance pres_piperead p n : Pres (piperead p n).
Proof. unfold piperead. inv_auto. Qed.

(** ** Open files *)

Section File.
  Context (kend : Z) `{DevPres}.

#[export] Instance still_get_file f : Still (get_file f).
Proof. unfold get_file. inv_auto. Qed.
#[export] Instance still_upd_file f g : Still (upd_file f g).
Proof. unfold upd_file. inv_auto. Qed.
#[export] Instance still_filealloc : Still filealloc.
Proof. unfold filealloc. inv_auto. Qed.
#[export] Instance still_filedup f : Still (filedup f).
Proof. unfold filedup. inv_auto. Qed.
#[export] Instance pres_fileclose f : Pres (fileclose kend f).
Proof. unfold fileclose. inv_auto. Qed.
#[export] Instance pres_filestat f : Pres (filestat f).
Proof. unfold filestat. inv_auto. Qed.
#[export] Instance pres_fileread f n : Pres (fileread f n).
Proof. unfold fileread. inv_auto. Qed.
#[export] Instance pres_filewrite_loop fuel f i j n addr : Pres (filewrite_loop fuel f i j n addr).
Proof. revert fuel f i j n addr. induction fuel; intros; cbn [filewrite_loop]; inv_auto. Qed.
#[export] Instance pres_filewrite f addr n : Pres (filewrite f addr n).
Proof. unfold filewrite. inv_auto. Qed.
#[export] Instance pres_file_inode_exists path : Pres (file_inode_exists path).
Proof. unfold file_inode_exists. inv_auto. Qed.
#[export] Instance pres_zero_tail fuel ip i len : Pres (zero_tail fuel ip i len).
Proof. revert fuel ip i len. induction fuel; intros; cbn [zero_tail]; inv_auto. Qed.
#[export] Instance pres_change_file_size path len : Pres (change_file_size path len).
Proof. unfold change_file_size. inv_auto. Qed.
#[export] Instance pres_pipealloc : Pres (pipealloc kend).
Proof. unfold pipealloc. inv_auto. Qed.
End File.

(** ** Page tables *)

#[export] Instance still_switchkvm : Still switchkvm.
Proof. unfold switchkvm. inv_auto. Qed.
#[export] Instance still_switchuvm i : Still (switchuvm i).
Proof. unfold switchuvm. inv_auto. Qed.

Section Vm.
  Context (kend kdata : Z) `{DevPres}.

#[export] Instance still_mem32 a : Still (mem32 a).
Proof. unfold mem32. inv_auto. Qed.
#[export] Instance still_set_mem32 a v : Still (set_mem32 a v).
Proof. unfold set_mem32. inv_auto. Qed.
#[export] Instance still_walkpgdir pgdir va alloc : Still (walkpgdir pgdir va alloc).
Proof. unfold walkpgdir. inv_auto. Qed.
#[export] Instance still_mappages_loop n pgdir a pa perm : Still (mappages_loop n pgdir a pa perm).
Proof. revert n pgdir a pa perm. induction n; intros; cbn [mappages_loop]; inv_auto. Qed.
#[export] Instance still_mappages pgdir va size pa perm : Still (mappages pgdir va size pa perm).
Proof. unfold mappages. inv_auto. Qed.
#[export] Instance still_deallocuvm_loop fuel pgdir a oldsz : Still (deallocuvm_loop kend fuel pgdir a oldsz).
Proof. revert fuel pgdir a oldsz. induction fuel; intros; cbn [deallocuvm_loop]; inv_auto. Qed.
#[export] Instance still_deallocuvm pgdir oldsz newsz : Still (deallocuvm kend pgdir oldsz newsz).
Proof. unfold deallocuvm. inv_auto. Qed.
#[export] Instance still_freevm pgdir : Still (freevm kend pgdir).
Proof. unfold freevm. inv_auto. Qed.
#[export] Instance still_setupkvm : Still (setupkvm kend kdata).
Proof. unfold setupkvm. inv_auto. Qed.
#[export] Instance still_kvmalloc : Still (kvmalloc kend kdata).
Proof. unfold kvmalloc. inv_auto. Qed.
#[export] Instance still_inituvm pgdir init : Still (inituvm pgdir init).
Proof. unfold inituvm. inv_auto. Qed.
#[export] Instance pres_allocuvm_fail pgdir newsz oldsz msg : Pres (allocuvm_fail kend pgdir newsz oldsz msg).
Proof. unfold allocuvm_fail. inv_auto. Qed.
#[export] Instance pres_allocuvm_loop fuel pgdir a oldsz newsz : Pres (allocuvm_loop kend fuel pgdir a oldsz newsz).
Proof. revert fuel pgdir a oldsz newsz. induction fuel; intros; cbn [allocuvm_loop]; inv_auto. Qed.
#[export] Instance pres_allocuvm pgdir oldsz newsz : Pres (allocuvm kend pgdir oldsz newsz).
Proof. unfold allocuvm. inv_auto. Qed.
#[export] Instance still_clearpteu pgdir uva : Still (clearpteu pgdir uva).
Proof. unfold clearpteu. inv_auto. Qed.
#[export] Instance still_copyuvm_loop fuel pgdir d i sz : Still (copyuvm_loop kend fuel pgdir d i sz).
Proof. revert fuel pgdir d i sz. induction fuel; intros; cbn [copyuvm_loop]; inv_auto. Qed.
#[export] Instance still_copyuvm pgdir sz : Still (copyuvm kend kdata pgdir sz).
Proof. unfold copyuvm. inv_auto. Qed.
#[export] Instance still_uva2ka pgdir uva : Still (uva2ka pgdir uva).
Proof. unfold uva2ka. inv_auto. Qed.
#[export] Instance still_copyout_loop fuel pgdir va p : Still (copyout_loop fuel pgdir va p).
Proof. revert fuel pgdir va p. induction fuel; intros; cbn [copyout_loop]; inv_auto. Qed.
#[export] Instance still_copyout pgdir va p : Still (copyout pgdir va p).
Proof. unfold copyout. inv_auto. Qed.
#[export] Instance pres_loaduvm_loop fuel pgdir addr ip offset i sz : Pres (loaduvm_loop fuel pgdir addr ip offset i sz).
Proof. revert fuel pgdir addr ip offset i sz. induction fuel; intros; cbn [loaduvm_loop]; inv_auto. Qed.
#[export] Instance pres_loaduvm pgdir addr ip offset sz : Pres (loaduvm pgdir addr ip offset sz).
Proof. unfold loaduvm. inv_auto. Qed.
End Vm.

(** ** User memory *)

#[export] Instance still_uaddr va w : Still (uaddr va w).
Proof. unfold uaddr. inv_auto. Qed.
#[export] Instance still_uload va : Still (uload va).
Proof. unfold uload. inv_auto. Qed.
#[export] Instance still_ustore va v : Still (ustore va v).
Proof. unfold ustore. inv_auto. Qed.
#[export] Instance still_uload_bytes n va : Still (uload_bytes n va).
Proof. revert n va. induction n; intros; cbn [uload_bytes]; inv_auto. Qed.
#[export] Instance still_ustore_bytes va l : Still (ustore_bytes va l).
Proof. revert va. induction l; intros; cbn [ustore_bytes]; inv_auto. Qed.
#[export] Instance still_fetchint addr : Still (fetchint addr).
Proof. unfold fetchint. inv_auto. Qed.
#[export] Instance still_fetchstr_loop n s : Still (fetchstr_loop n s).
Proof. revert n s. induction n; intros; cbn [fetchstr_loop]; inv_auto. Qed.
#[export] Instance still_fetchstr addr : Still (fetchstr addr).
Proof. unfold fetchstr. inv_auto. Qed.
#[export] Instance still_argint n : Still (argint n).
Proof. unfold argint. inv_auto. Qed.
#[export] Instance still_argptr n size : Still (argptr n size).
Proof. unfold argptr. inv_auto. Qed.
#[export] Instance still_argstr n : Still (argstr n).
Proof. unfold argstr. inv_auto. Qed.

(** ** Printing *)

#[export] Instance pres_print s : Pres (print s).
Proof. unfold print. inv_auto. Qed.
#[export] Instance pres_print_int z : Pres (print_int z).
Proof. unfold print_int. inv_auto. Qed.
#[export] Instance pres_spaces n : Pres (spaces n).
Proof. unfold spaces. inv_auto. Qed.
#[export] Instance pres_printfloat num : Pres (printfloat num).
Proof. unfold printfloat. inv_auto. Qed.
#[export] Instance pres_print_proc p : Pres (print_proc p).
Proof. unfold print_proc. inv_auto. Qed.
#[export] Instance pres_print_all_procs : Pres print_all_procs.
Proof. unfold print_all_procs. inv_auto. Qed.
#[export] Instance pres_dump_pcs pcs : Pres (dump_pcs pcs).
Proof. revert pcs. induction pcs; intros; cbn [dump_pcs]; inv_auto. Qed.
#[export] Instance pres_procdump : Pres procdump.
Proof. unfold procdump. inv_auto. Qed.
