(* ===== verification/InvConsole.v ===== *)
(** The routines of the console and of the input interrupts preserve the
    invariant of the kernel, so the console is a device as the file layer
    needs it. *)

From S2P Require Import Prelude Types Spinlock Proc Sleeplock Bio Log Str Cprintf Fs FsIo Kalloc Vm PrintProcs Console Kbd Inv InvFs InvMem.

#[export] Instance pres_get_input : Pres get_input.
Proof. unfold get_input. inv_auto. Qed.
#[export] Hint Extern 1 (inv _ _ (upd_input _)) => unfold upd_input; inv_auto : pres.
#[export] Instance pres_buf_set i c : Pres (buf_set i c).
Proof. unfold buf_set. inv_auto. Qed.
#[export] Instance pres_shift_right_loop n index next_char : Pres (shift_right_loop n index next_char).
Proof. revert n index next_char. induction n; intros; cbn [shift_right_loop]; inv_auto. Qed.
#[export] Instance pres_shift_input_right : Pres shift_input_right.
Proof. unfold shift_input_right. inv_auto. Qed.
#[export] Instance pres_shift_left_loop n index : Pres (shift_left_loop n index).
Proof. revert n index. induction n; intros; cbn [shift_left_loop]; inv_auto. Qed.
#[export] Instance pres_shift_input_left : Pres shift_input_left.
Proof. unfold shift_input_left. inv_auto. Qed.
#[export] Instance pres_go_to_first_of_line : Pres go_to_first_of_line.
Proof. unfold go_to_first_of_line. inv_auto. Qed.
#[export] Instance pres_back_space : Pres back_space.
Proof. unfold back_space. inv_auto. Qed.
#[export] Instance pres_kill_line_loop fuel : Pres (kill_line_loop fuel).
Proof. revert fuel. induction fuel; intros; cbn [kill_line_loop]; inv_auto. Qed.
#[export] Instance pres_kill_line : Pres kill_line.
Proof. unfold kill_line. inv_auto. Qed.
#[export] Instance pres_delete_num_loop fuel : Pres (delete_num_loop fuel).
Proof. revert fuel. induction fuel; intros; cbn [delete_num_loop]; inv_auto. Qed.
#[export] Instance pres_delete_num_of_line : Pres delete_num_of_line.
Proof. unfold delete_num_of_line. inv_auto. Qed.
#[export] Instance pres_get_key : Pres get_key.
Proof. unfold get_key. inv_auto. Qed.
#[export] Instance pres_put_word l : Pres (put_word l).
Proof. unfold put_word. inv_auto. Qed.
#[export] Instance pres_print_word key : Pres (print_word key).
Proof. unfold print_word. inv_auto. Qed.
#[export] Instance pres_print_word_reverse key : Pres (print_word_reverse key).
Proof. unfold print_word_reverse. inv_auto. Qed.
#[export] Instance pres_reverse_line : Pres reverse_line.
Proof. unfold reverse_line. inv_auto. Qed.
#[export] Instance pres_get_command i : Pres (get_command i).
Proof. unfold get_command. inv_auto. Qed.
#[export] Instance pres_update_history inp : Pres (update_history inp).
Proof. unfold update_history. inv_auto. Qed.
#[export] Instance pres_predict_ring n i key index : Pres (predict_ring n i key index).
Proof. revert n i key index. induction n; intros; cbn [predict_ring]; inv_auto. Qed.
#[export] Instance pres_predict_in_command_list : Pres predict_in_command_list.
Proof.
  unfold predict_in_command_list. inv_auto. generalize (Z.to_nat (in_size_command a0)), (-1)%Z.
  intros n. induction n; intros; inv_auto; apply IHn.
Qed.
#[export] Instance pres_predict_process : Pres predict_process.
Proof. unfold predict_process. inv_auto. Qed.
#[export] Instance pres_cons_commit : Pres cons_commit.
Proof. unfold cons_commit. inv_auto. Qed.
#[export] Instance pres_cons_key c : Pres (cons_key c).
Proof. unfold cons_key. inv_auto. Qed.
#[export] Instance pres_cons_char c : Pres (cons_char c).
Proof. unfold cons_char. inv_auto. Qed.
#[export] Instance pres_consoleintr cs : Pres (consoleintr cs).
Proof. unfold consoleintr. inv_auto. Qed.
#[export] Instance pres_wait_line fuel : Pres (wait_line fuel).
Proof. revert fuel. induction fuel; intros; cbn [wait_line]; inv_auto. Qed.
#[export] Instance pres_await_line : Pres await_line.
Proof. unfold await_line. inv_fuel. Qed.
#[export] Instance pres_consoleread_loop n first : Pres (consoleread_loop n first).
Proof. revert n first. induction n; intros; cbn [consoleread_loop]; inv_auto. Qed.
#[export] Instance pres_consoleread ip n : Pres (consoleread ip n).
Proof. unfold consoleread. inv_auto. Qed.
#[export] Instance pres_consolewrite ip buf n : Pres (consolewrite ip buf n).
Proof. unfold consolewrite. inv_auto. Qed.
#[export] Instance pres_consoleinit : Pres consoleinit.
Proof. unfold consoleinit. inv_auto. Qed.

#[export] Instance pres_kbdintr ds : Pres (kbdintr ds).
Proof. unfold kbdintr. inv_auto. Qed.
#[export] Instance pres_uartintr ds : Pres (uartintr ds).
Proof. unfold uartintr. inv_auto. Qed.

#[export] Instance console_devpres : DevPres.
Proof.
  split; intros major f; intros; simpl in *; destruct (major =? CONSOLE); simplify_eq; apply _.
Qed.
