(* ===== verification/InvProc.v ===== *)
(** The life of a process preserves the invariant of the kernel: [allocproc]
    and [fork] make a process that has a living parent, [exit] leaves no
    process without one, and [wait] takes only a zombie out of the table. *)

From S2P Require Import Prelude Types Spinlock Float32 Proc Sleeplock Bio Bytes Log Str Cprintf Fs FsIo Kalloc File Sched Vm Process Inv InvFs InvMem.

#[export] Instance still_imod a b : Still (imod a b).
Proof. unfold imod. inv_auto. Qed.
#[export] Instance still_generate_random_number min max : Still (generate_random_number min max).
Proof. unfold generate_random_number. inv_auto. Qed.

(** ** A change of one process *)

(** When process [i] may be replaced: its parent is alive, and if it dies then
    nobody has it as parent. *)
Lemma parked_change k i p q :
  parked_ok k -> k_procs k !! i = Some p ->
  length (p_ofile q) = length (p_ofile p) -> (length (p_name p) = 16%nat -> length (p_name q) = 16%nat) ->
  (forall m, p_parent q = Some m -> exists r, k_procs k !! m = Some r /\ alive (p_state r) = true) ->
  (alive (p_state q) = true \/ p_state q = ZOMBIE -> i <> 0%nat -> is_Some (p_parent q)) ->
  (alive (p_state p) = true -> alive (p_state q) = true \/
     i <> 0%nat /\ p_parent q <> Some i /\ forall j r, j <> i -> k_procs k !! j = Some r -> p_parent r <> Some i) ->
  parked_ok (k <| k_procs := <[i := q]> (k_procs k) |>).
Proof.
  intros [[Hpa Hch (Hi0 & r0 & Hr0 & Ha0)] [Hl Hof]] Hp Eo En Hpar Hhas Hlive.
  pose proof (lookup_lt_Some _ _ _ Hp) as Hlt.
  assert (forall m r, k_procs k !! m = Some r -> alive (p_state r) = true ->
    (m = i -> alive (p_state p) = true -> alive (p_state q) = true) ->
    exists r', <[i := q]> (k_procs k) !! m = Some r' /\ alive (p_state r') = true) as Hkeep.
  { intros m r Hr Ha Hor. destruct (decide (m = i)) as [->|].
    - rewrite list_lookup_insert_eq by done. exists q. simplify_eq. auto.
    - rewrite list_lookup_insert_ne by done. by exists r. }
  split; constructor; rsimpl; try done.
  - intros j r m Hr Hm. destruct (decide (j = i)) as [->|Hne].
    + rewrite list_lookup_insert_eq in Hr by done. simplify_eq. destruct (Hpar m Hm) as (s & Hs & Ha).
      apply (Hkeep m s Hs Ha). intros -> Hap. by destruct (Hlive Hap) as [|(_ & ? & _)].
    + rewrite list_lookup_insert_ne in Hr by done. destruct (Hpa j r m Hr Hm) as (s & Hs & Ha).
      apply (Hkeep m s Hs Ha). intros -> Hap. destruct (Hlive Hap) as [|(_ & _ & Hno)]; [done|]. by destruct (Hno j r).
  - intros j r Hr. destruct (decide (j = i)) as [->|Hne].
    + rewrite list_lookup_insert_eq in Hr by done. by simplify_eq.
    + rewrite list_lookup_insert_ne in Hr by done. by apply Hch.
  - split; [done|]. apply (Hkeep 0%nat r0 Hr0 Ha0). intros <- Hap. by destruct (Hlive Hap) as [|(? & _)].
  - by rewrite length_insert.
  - apply Forall_insert; [done|]. destruct (Forall_lookup_1 _ _ _ _ Hof Hp) as [? ?]. split; [by rewrite Eo|auto].
Qed.

(** The same while a process runs, which the change does not kill. *)
Lemma running_change o k i p q :
  running o k -> k_procs k !! i = Some p ->
  parked_ok (k <| k_procs := <[i := q]> (k_procs k) |>) ->
  (alive (p_state p) = true -> alive (p_state q) = true) ->
  running o (k <| k_procs := <[i := q]> (k_procs k) |>).
Proof.
  intros [[Hk Hc] Ho] Hp Hk' Ha. split; [split; [done|]|done]. intros j Hj. destruct (Hc j Hj) as (r & Hr & Hal).
  rsimpl. destruct (decide (j = i)) as [->|].
  - rewrite list_lookup_insert_eq by (by eapply lookup_lt_Some). exists q. simplify_eq. auto.
  - rewrite list_lookup_insert_ne by done. by exists r.
Qed.

(** ** A process that is being made *)

(** Process [i] has the property [S] while [o] runs. *)
Definition held (o : option nat) (i : nat) (S : proc -> Prop) (k : kernel) : Prop := running o k /\ proc_at i S k.
#[export] Instance framed_held o i S : Framed (held o i S).
Proof. unfold held. apply framed_and; apply _. Qed.
Lemma held_parked o i S k : held o i S k -> parked_ok k.
Proof. intros [H _]. by eapply running_parked. Qed.
#[export] Hint Extern 1 (parked_ok _) => eapply held_parked; eassumption : pres.

Lemma held_running {A} o i S (m : K A) Q :
  triple parked_ok (running o) m Q -> triple parked_ok (held o i S) m Q.
Proof. intros H. eapply triple_pre; [exact H|]. by intros k []. Qed.

Lemma held_quiet o i (S : proc -> Prop) j f :
  quiet f -> (forall p, S p -> S (f p)) -> inv parked_ok (held o i S) (upd_proc j f).
Proof.
  intros Hf HS. apply inv_and; [by apply pres_upd_proc|]. apply inv_modify. intros k (p & Hp & Hs).
  unfold proc_at. rsimpl. destruct (decide (i = j)) as [->|].
  - exists (f p). rewrite list_lookup_alter_eq, Hp. auto.
  - exists p. by rewrite list_lookup_alter_ne.
Qed.

(** The state and the parent of a process. *)
Definition embryo (p : proc) : Prop := p_state p = EMBRYO.
Definition embryo_of (i : nat) (p : proc) : Prop := p_state p = EMBRYO /\ p_parent p = Some i.
#[export] Hint Extern 1 (inv _ (held _ _ _) (upd_proc _ _)) => apply held_quiet; [is_quiet|done] : pres.

(** One step that preserves [P]. *)
Ltac inv_under P :=
  apply (triple_bind _ _ _ (fun _ => P));
  [lazymatch goal with |- triple ?R _ ?m _ => change (inv R P m) end; by inv_auto|intros ?].

(** A process that is not alive stays so. *)
Lemma held_state o i (S S' : proc -> Prop) s :
  alive s = false -> s <> ZOMBIE ->
  (forall p, S p -> alive (p_state p) = false /\ p_state p <> ZOMBIE /\ S' (p <| p_state := s |>)) ->
  triple parked_ok (held o i S) (upd_proc i (fun p => p <| p_state := s |>)) (fun _ => held o i S').
Proof.
  intros Ha Hz HS. eapply triple_weaken; [apply (pres_change S o)|done|].
  - intros p Hp. destruct (HS p Hp) as (Hal & Hnz & _). rsimpl. by rewrite Ha, Hal.
  - intros _ k [Hk (q & Hq & p & Hp & ->)]. split; [done|]. eexists. split; [exact Hq|]. by destruct (HS p Hp) as (_ & _ & ?).
Qed.

Section Process.
  Context `{Image} `{DevPres}.

Lemma allocproc_triple o :
  triple parked_ok (running o) allocproc
    (fun r k => match r with Some i => held o i embryo k | None => running o k end).
Proof.
  unfold allocproc. apply (triple_bind _ _ _ (fun _ => running o)); [apply pres_law|]. intros _.
  apply (triple_bind _ _ _ (fun r k => match r with Some i => held o i (fun p => p_state p = UNUSED) k | None => running o k end)).
  { apply search_procs_triple. intros i p. apply triple_ret. intros k [Hk (q & Hq & ->)].
    case_bool_decide; [|done]. split; [done|]. by exists p. }
  intros [i|]; [|apply (triple_bind _ _ _ (fun _ => running o)); [apply pres_law|intros _; by apply triple_ret]].
  apply (triple_bind _ _ _ (fun _ => held o i embryo)); [apply held_state; [done..|]; intros p E; rsimpl; by rewrite E|]. intros _.
  do 6 (inv_under (held o i embryo)).
  destruct (_ =? 0)%Z.
  - apply (triple_bind _ _ _ (fun _ => held o i (fun p => p_state p = UNUSED))).
    + apply held_state; [done..|]. intros p E. rsimpl. by rewrite E.
    + intros _. apply triple_ret. by intros k [].
  - do 4 (inv_under (held o i embryo)). by apply triple_ret.
Qed.

(** The new process gets its parent, which is alive since it runs. *)
Lemma adopt_triple cur np :
  triple parked_ok (held (Some cur) np embryo) (upd_proc np (fun q => q <| p_parent := Some cur |>))
    (fun _ => held (Some cur) np (embryo_of cur)).
Proof.
  apply triple_modify. intros k [Hk (p & Hp & E)]. rewrite (list_alter_lookup _ _ _ _ Hp).
  pose proof Hk as [[Hok Hc] Ho]. split.
  - apply (running_change _ _ _ p); [done..| |by rewrite E]. apply (parked_change _ _ p); rsimpl; try done.
    + intros m [= <-]. by apply Hc.
    + by rewrite E.
  - eexists. rsimpl. rewrite list_lookup_insert_eq by (by eapply lookup_lt_Some). by split.
Qed.

(** It is let loose. *)
Lemma publish_triple cur np :
  triple parked_ok (held (Some cur) np (embryo_of cur)) (upd_proc np (fun q => q <| p_state := RUNNABLE |>))
    (fun _ => running (Some cur)).
Proof.
  apply triple_modify. intros k [Hk (p & Hp & E & Epa)]. rewrite (list_alter_lookup _ _ _ _ Hp).
  apply (running_change _ _ _ p); [done..| |done]. pose proof (running_parked _ _ Hk) as Hok.
  apply (parked_change _ _ p); rsimpl; try done.
  - intros m Hm. by apply (fam_parent _ (proj1 Hok) np p).
  - by left.
Qed.

#[export] Instance pres_fork : Pres fork.
Proof.
  intros o. unfold fork. apply curproc_running. intros cur _.
  apply (triple_bind _ _ _ _ _ (allocproc_triple (Some cur))). intros [np|]; cbn iota; [|by apply triple_ret].
  do 3 (inv_under (held (Some cur) np embryo)). destruct (_ =? 0)%Z.
  - do 3 (inv_under (held (Some cur) np embryo)).
    apply (triple_bind _ _ _ (fun _ => held (Some cur) np (fun p => p_state p = UNUSED))).
    + apply held_state; [done..|]. intros p E. rsimpl. by rewrite E.
    + intros _. apply triple_ret. by intros k [].
  - do 2 (inv_under (held (Some cur) np embryo)).
    apply (triple_bind _ _ _ _ _ (adopt_triple cur np)). intros _.
    do 9 (inv_under (held (Some cur) np (embryo_of cur))).
    apply (triple_bind _ _ _ _ _ (publish_triple cur np)). inv_auto.
Qed.

(** ** exit *)

(** None of the first [n] processes has [cur] as parent. *)
Definition childless (cur n : nat) (k : kernel) : Prop :=
  forall j q, (j < n)%nat -> k_procs k !! j = Some q -> p_parent q <> Some cur.
#[export] Instance framed_childless cur n : Framed (childless cur n).
Proof. intros k k' Hs. unfold childless. by rewrite (same_procs _ _ Hs). Qed.

Lemma childless_alter cur n i f k :
  (forall p, p_parent (f p) = p_parent p) -> childless cur n k -> childless cur n (k <| k_procs := alter f i (k_procs k) |>).
Proof.
  intros Hf Hk j q Hj. rsimpl. destruct (decide (i = j)) as [->|]; [|rewrite list_lookup_alter_ne by done; by apply Hk].
  rewrite list_lookup_alter_eq. destruct (k_procs k !! j) as [p|] eqn:Hp; simpl; [|done]. intros [= <-].
  rewrite Hf. by apply (Hk j).
Qed.

Lemma childless_wakeup1 cur n ch : inv (fun _ => True) (childless cur n) (wakeup1 ch).
Proof.
  apply inv_for_procs_blind. intros i p. destruct (_ && _); [|apply inv_ret]. apply inv_modify. intros k.
  by apply childless_alter.
Qed.

(** The children of [cur] among the first [n] have been given to init. *)
Definition exiting (cur n : nat) (k : kernel) : Prop := running (Some cur) k /\ childless cur n k.
Lemma exiting_parked cur n k : exiting cur n k -> parked_ok k.
Proof. intros [Hk _]. by eapply running_parked. Qed.

Lemma triple_for_seq R (P : nat -> kernel -> Prop) body n m :
  (forall i, triple R (P i) (body i) (fun _ => P (S i))) ->
  triple R (P n) (for_each (seq n m) body) (fun _ => P (n + m)%nat).
Proof.
  intros Hb. revert n. induction m as [|m IH]; intros n; cbn [seq for_each].
  - rewrite Nat.add_0_r. by apply triple_ret.
  - apply (triple_bind _ _ _ (fun _ => P (S n))); [apply Hb|]. intros _. rewrite <-Nat.add_succ_comm. apply IH.
Qed.

(** One child is given to init. *)
Lemma reparent_triple cur j q : cur <> 0%nat -> p_parent q = Some cur ->
  triple parked_ok (fun k => exiting cur j k /\ k_procs k !! j = Some q)
    (upd_proc j (fun q => q <| p_parent := Some 0%nat |>)) (fun _ => exiting cur (S j)).
Proof.
  intros Hc Eq. apply triple_modify. intros k [[Hk Hch] Hq]. pose proof (running_parked _ _ Hk) as Hok.
  rewrite (list_alter_lookup _ _ _ _ Hq). split.
  - apply (running_change _ _ _ q); [done..| |done]. apply (parked_change _ _ q); rsimpl; try done.
    + intros m [= <-]. apply (fam_init _ (proj1 Hok)).
    + by left.
  - intros i r Hi. rsimpl. destruct (decide (i = j)) as [->|].
    + rewrite list_lookup_insert_eq by (by eapply lookup_lt_Some). intros [= <-]. rsimpl. congruence.
    + rewrite list_lookup_insert_ne by done. apply Hch. lia.
Qed.

Lemma wakeup1_exiting cur n ch : inv parked_ok (exiting cur n) (wakeup1 ch).
Proof. apply inv_and; [apply pres_law|apply childless_wakeup1]. Qed.

Lemma exit_table_triple cur : cur <> 0%nat ->
  triple parked_ok (running (Some cur)) (exit_table cur) (fun _ k => parked_ok k /\ on_cpu (Some cur) k).
Proof.
  intros Hc. unfold exit_table. do 2 (inv_under (running (Some cur))).
  apply (triple_bind _ _ _ (fun _ => exiting cur 0)).
  { apply (triple_post _ _ _ (fun _ => running (Some cur))); [intros _ k Hk; split; [done|]; by intros ? ? ?%Nat.nlt_0_r|].
    unfold wakeup1_proc. destruct (p_parent a0); [apply pres_law|by apply triple_ret]. }
  intros _. apply (triple_bind _ _ _ (fun _ => exiting cur (0 + NPROC))).
  - apply triple_for_seq. intros j. apply (triple_bind _ _ _ _ _ (get_proc_triple _ j)). intros q.
    case_bool_decide as Eq.
    + apply (triple_bind _ _ _ (fun o k => (exiting cur j k /\ k_procs k !! j = Some q) /\ o = Some 0%nat)).
      { apply triple_gets. intros k [Hk Hq]. split; [done|]. apply (fam_init _ (proj1 (exiting_parked _ _ _ Hk))). }
      intros o. destruct (decide (o = Some 0%nat)) as [->|]; [|by intros k e _ [_ ?]].
      apply (triple_bind _ _ _ (fun _ => exiting cur (S j))).
      { eapply triple_pre; [by apply reparent_triple|]. by intros k []. }
      intros _. case_bool_decide; [apply wakeup1_exiting|by apply triple_ret].
    + apply triple_ret. intros k [[Hk Hch] Hq]. split; [done|]. intros i r Hi Hr.
      destruct (decide (i = j)) as [->|]; [by simplify_eq|]. apply (Hch i); [lia|done].
  - intros _. apply triple_modify. intros k [Hk Hch]. pose proof Hk as [[Hok Hal] Ho].
    destruct (Hal cur Ho) as (p & Hp & Ha). rewrite (list_alter_lookup _ _ _ _ Hp). split; [|done].
    assert (forall j r, k_procs k !! j = Some r -> p_parent r <> Some cur) as Hno.
    { intros j r Hr. apply (Hch j); [|done]. apply lookup_lt_Some in Hr. by rewrite (tab_procs _ (proj2 Hok)) in Hr. }
    apply (parked_change _ _ p); rsimpl; try done.
    + intros m Hm. by apply (fam_parent _ (proj1 Hok) cur p).
    + intros _ _. apply (fam_child _ (proj1 Hok) cur p); auto.
    + intros _. right. split_and!; [done|by apply (Hno cur)|]. intros j r _. apply Hno.
Qed.

(** [exit] never returns. *)
Lemma exit_triple o Q : triple parked_ok (running o) exit Q.
Proof.
  unfold exit. apply (triple_bind _ _ _ _ _ (curproc_triple _ _ _ (running_parked o))). intros cur.
  apply (triple_pre _ (running (Some cur))); [|by intros k [[Hk _] Hc]].
  apply (triple_bind _ _ _ (fun o k => running (Some cur) k /\ o = Some 0%nat)).
  { apply triple_gets. intros k Hk. split; [done|]. apply (fam_init _ (proj1 (running_parked _ _ Hk))). }
  intros init. destruct (decide (init = Some 0%nat)) as [->|]; [|by intros k e _ [_ ?]].
  case_bool_decide as Hc; [apply triple_panic|].
  apply (triple_pre _ (running (Some cur))); [|by intros k []].
  do 7 (inv_under (running (Some cur))).
  apply (triple_bind _ _ _ _ _ (exit_table_triple cur ltac:(congruence))). intros _.
  apply (triple_bind _ _ _ _ _ (sched_triple (Some cur))). intros _. apply triple_panic.
Qed.
#[export] Instance pres_exit : Pres exit.
Proof. intros o. apply exit_triple. Qed.

(** ** wait *)

Definition zombie (p : proc) : Prop := p_state p = ZOMBIE.

(** A zombie is nobody's parent, so it can go. *)
Lemma reap_triple o j : triple parked_ok (held o j zombie) (reap j) (fun _ => running o).
Proof.
  unfold reap. do 4 (inv_under (held o j zombie)).
  apply (triple_bind _ _ _ (fun _ => running o)); [|inv_auto].
  apply triple_modify. intros k [Hk (p & Hp & E)]. rewrite (list_alter_lookup _ _ _ _ Hp).
  apply (running_change _ _ _ p); [done..| |by rewrite E].
  apply (parked_change _ _ p); rsimpl; try done; [by eapply running_parked| | |].
  - by rewrite length_insert.
  - by intros [].
  - by rewrite E.
Qed.

#[export] Instance pres_wait_scan js cur havekids : Pres (wait_scan js cur havekids).
Proof.
  intros o. revert havekids. induction js as [|j js IH]; intros havekids; cbn [wait_scan]; [inv_auto|].
  apply (triple_bind _ _ _ _ _ (get_proc_triple _ j)). intros q.
  assert (forall b, triple parked_ok (fun k => running o k /\ k_procs k !! j = Some q) (wait_scan js cur b) (fun _ => running o)) as Hrest.
  { intros b. eapply triple_pre; [apply IH|]. by intros k []. }
  case_bool_decide; cbn [negb]; [|apply Hrest]. case_bool_decide as E; [|apply Hrest].
  apply (triple_bind _ _ _ (fun _ => running o)); [|inv_auto].
  eapply triple_pre; [apply reap_triple|]. intros k [Hk Hq]. split; [done|]. by exists q.
Qed.
#[export] Instance pres_wait_loop fuel cur : Pres (wait_loop fuel cur).
Proof. induction fuel; cbn [wait_loop]; inv_auto. Qed.
#[export] Instance pres_await_child cur : Pres (await_child cur).
Proof. unfold await_child. inv_fuel. Qed.
#[export] Instance pres_wait : Pres wait.
Proof. unfold wait. inv_auto. Qed.

#[export] Instance pres_growproc n : Pres (growproc n).
Proof. unfold growproc. inv_auto. Qed.
#[export] Instance pres_forkret : Pres forkret.
Proof. unfold forkret. inv_auto. Qed.
End Process.
