(* ===== verification/InvSched.v ===== *)
(** The scheduler preserves the invariant of the kernel: it switches only to
    a process that is alive. *)

From S2P Require Import Prelude Types Spinlock Float32 Proc Sched Inv InvFs InvMem InvProc.

(** ** The choice *)

Lemma scan_procs_triple {B} R (Q : B -> kernel -> Prop) acc (body : nat -> proc -> B -> K B) :
  (forall i p acc, triple R (fun k => Q acc k /\ k_procs k !! i = Some p) (body i p acc) Q) ->
  triple R (Q acc) (scan_procs acc body) Q.
Proof.
  intros Hb. unfold scan_procs. revert acc. induction (seq 0 NPROC) as [|i l IH]; intros acc; cbn [for_acc]; [by apply triple_ret|].
  apply (triple_bind _ _ _ Q); [|exact IH]. apply (triple_bind _ _ _ _ _ (get_proc_triple _ i)). intros p. apply Hb.
Qed.

#[export] Hint Extern 1 (inv _ _ (scan_procs _ _)) => unfold scan_procs; inv_auto : pres.

(** With no process on the CPU there is nothing to ask of it. *)
Lemma idle_running k : parked_ok k -> running None (k <| k_cpu := k_cpu k <| c_proc := None |> |>).
Proof. intros [[] []]. split; [split; [by split; constructor|]|done]. by intros i. Qed.

Lemma parked_quiet i f : quiet f -> inv parked_ok parked_ok (upd_proc i f).
Proof.
  intros Hf. apply inv_modify. intros k Hk.
  destruct (sys_ok_alter _ i f (proj1 (idle_running k Hk)) Hf) as [[[] []] _]. by split; constructor.
Qed.
#[export] Hint Extern 1 (inv _ parked_ok (upd_proc _ _)) => apply parked_quiet; is_quiet : pres.

(** A process that may be chosen. *)
Definition runnable (p : proc) : Prop := p_state p = RUNNABLE.
Definition chosen (r : option nat) (k : kernel) : Prop :=
  parked_ok k /\ match r with Some i => proc_at i runnable k | None => True end.

Lemma chosen_one q i p k : runnable_in q p = true -> parked_ok k -> k_procs k !! i = Some p -> chosen (Some i) k.
Proof. intros [E%bool_decide_eq_true _]%andb_true_iff Hk Hp. split; [done|]. by exists p. Qed.

Lemma chosen_drop {A} r (m : K A) Q : triple parked_ok parked_ok m Q -> triple parked_ok (chosen r) m Q.
Proof. intros Hm. eapply triple_pre; [exact Hm|]. by intros k []. Qed.

Ltac choose := apply triple_ret; intros k [[Hk Hr] Hp]; simpl in *; first [by eapply chosen_one | by split].

Lemma round_robin_triple : triple parked_ok parked_ok round_robin chosen.
Proof.
  unfold round_robin. inv_under parked_ok.
  apply (triple_bind _ _ _ (fun acc => chosen (snd acc))); [|intros [t r]; by apply triple_ret].
  apply (triple_pre _ (chosen None)); [|by intros k Hk; split].
  apply (scan_procs_triple _ (fun acc => chosen (snd acc)) (0, None)). intros i p [t r].
  destruct (runnable_in 1 p) eqn:E; cbn; [case_match|]; choose.
Qed.

Lemma bjf_triple : triple parked_ok parked_ok bjf chosen.
Proof.
  unfold bjf. apply (triple_bind _ _ _ (fun acc => chosen (snd acc))); [|intros [t r]; by apply triple_ret].
  apply (triple_pre _ (chosen None)); [|by intros k Hk; split].
  apply (scan_procs_triple _ (fun acc => chosen (snd acc)) (_, None)). intros i p [t r].
  destruct (runnable_in 3 p) eqn:E; cbn; [case_match|]; choose.
Qed.

Lemma lottery_triple : triple parked_ok parked_ok lottery chosen.
Proof.
  unfold lottery. do 2 (inv_under parked_ok).
  apply (triple_bind _ _ _ (fun acc => chosen (snd acc))); [|intros [t r]; by apply triple_ret].
  apply (triple_pre _ (chosen None)); [|by intros k Hk; split].
  apply (scan_procs_triple _ (fun acc => chosen (snd acc)) (_, None)). intros i p [t [r|]]; [choose|].
  destruct (runnable_in 2 p) eqn:E; cbn; [case_match|]; choose.
Qed.

Lemma fix_queues_inv : inv parked_ok parked_ok fix_queues.
Proof. unfold fix_queues. inv_auto. Qed.

Lemma pick_triple : triple parked_ok parked_ok pick chosen.
Proof.
  unfold pick. apply (triple_bind _ _ _ _ _ fix_queues_inv). intros _.
  apply (triple_bind _ _ _ _ _ round_robin_triple). intros r.
  apply (triple_bind _ _ _ chosen); [|intros [i|]; [by apply triple_ret|apply chosen_drop, bjf_triple]].
  destruct r as [i|]; [by apply triple_ret|apply chosen_drop, lottery_triple].
Qed.

(** ** The switch *)

Lemma run_slice_inv : inv parked_ok parked_ok run_slice.
Proof. intros k [|s e] He Hk; [done|]. inversion_clear He as [|? ? Hs He']. simpl. auto. Qed.

Lemma dispatch_triple i : triple parked_ok (chosen (Some i)) (dispatch i) (fun _ => parked_ok).
Proof.
  unfold dispatch. apply (triple_bind _ _ _ (fun _ => chosen (Some i))); [by apply triple_gets|]. intros t.
  apply (triple_bind _ _ _ (fun _ => chosen (Some i))).
  { apply inv_and; [apply parked_quiet; is_quiet|]. apply inv_modify. intros k (p & Hp & E).
    eexists. rsimpl. rewrite list_lookup_alter_eq, Hp. by split. }
  intros _. apply (triple_bind _ _ _ (fun _ => running (Some i))).
  { apply triple_modify. intros k [[[] []] (p & Hp & E)]. split; [|done].
    split; [by split; constructor|]. intros j [= <-]. exists p. by rewrite E. }
  intros _. inv_under (running (Some i)).
  apply (triple_bind _ _ _ (fun _ => running (Some i))); [by apply running_state|]. intros _.
  apply (triple_bind _ _ _ (fun _ => parked_ok)).
  { eapply triple_pre; [exact run_slice_inv|apply running_parked]. }
  intros _. inv_under parked_ok. apply (triple_bind _ _ _ (fun _ => parked_ok)).
  { apply triple_modify. intros k Hk. by apply (running_parked None), idle_running. }
  inv_auto.
Qed.

#[export] Instance still_sti : Still sti.
Proof. unfold sti. inv_auto. Qed.

Lemma scheduler_pass_inv : inv parked_ok parked_ok scheduler_pass.
Proof.
  unfold scheduler_pass. inv_under parked_ok. apply inv_bind; [exact run_slice_inv|]. intros _.
  inv_under parked_ok. apply (triple_bind _ _ _ _ _ pick_triple). intros [i|]; [apply dispatch_triple|].
  apply chosen_drop. change (inv parked_ok parked_ok (release L_ptable)). inv_auto.
Qed.

(** The scheduler never breaks the invariant, in any number of passes. *)
Lemma scheduler_inv n : inv parked_ok parked_ok (scheduler n).
Proof.
  unfold scheduler. apply inv_bind; [|intros _; apply triple_for_each; intros _; exact scheduler_pass_inv].
  apply inv_modify. intros k Hk. by apply (running_parked None), idle_running.
Qed.
