(* ===== verification/InvSys.v ===== *)
(** The system calls and the traps preserve the invariant of the kernel. *)

From S2P Require Import Prelude Types Spinlock Proc Sleeplock Bio Bytes Log Str Cprintf Fs FsIo Kalloc Pipe File Sched Sem Prime Trace Vm Process Args Sysfile Exec PrintProcs Syscall Console Kbd Trap Inv InvFs InvMem InvConsole InvProc InvSched.

(** ** The calls on files, and exec *)

Section Calls.
  Context `{Image} `{DevPres}.

#[export] Instance pres_argfd n : Pres (argfd n).
Proof. unfold argfd. inv_auto. Qed.
#[export] Instance pres_fdalloc f : Pres (fdalloc f).
Proof. unfold fdalloc. inv_auto. Qed.
#[export] Instance pres_clear_fd fd : Pres (clear_fd fd).
Proof. unfold clear_fd. inv_auto. Qed.
#[export] Instance pres_rw_args : Pres rw_args.
Proof. unfold rw_args. inv_auto. Qed.
#[export] Instance pres_end_op_with {A} (r : A) : Pres (end_op_with r).
Proof. unfold end_op_with. inv_auto. Qed.
#[export] Instance pres_sys_dup : Pres sys_dup.
Proof. unfold sys_dup. inv_auto. Qed.
#[export] Instance pres_sys_read : Pres sys_read.
Proof. unfold sys_read. inv_auto. Qed.
#[export] Instance pres_sys_write : Pres sys_write.
Proof. unfold sys_write. inv_auto. Qed.
#[export] Instance pres_sys_close : Pres sys_close.
Proof. unfold sys_close. inv_auto. Qed.
#[export] Instance pres_store_stat a st : Pres (store_stat a st).
Proof. unfold store_stat. inv_auto. Qed.
#[export] Instance pres_sys_fstat : Pres sys_fstat.
Proof. unfold sys_fstat. inv_auto. Qed.
#[export] Instance pres_link_bad ip : Pres (link_bad ip).
Proof. unfold link_bad. inv_auto. Qed.
#[export] Instance pres_link_paths old new : Pres (link_paths old new).
Proof. unfold link_paths. inv_auto. Qed.
#[export] Instance pres_sys_link : Pres sys_link.
Proof. unfold sys_link. inv_auto. Qed.
#[export] Instance pres_isdirempty_loop fuel dp off size : Pres (isdirempty_loop fuel dp off size).
Proof. revert fuel dp off size. induction fuel; intros; cbn [isdirempty_loop]; inv_auto. Qed.
#[export] Instance pres_isdirempty dp : Pres (isdirempty dp).
Proof. unfold isdirempty. inv_auto. Qed.
#[export] Instance pres_unlink_bad dp : Pres (unlink_bad dp).
Proof. unfold unlink_bad. inv_auto. Qed.
#[export] Instance pres_unlink_path path : Pres (unlink_path path).
Proof. unfold unlink_path. inv_auto. Qed.
#[export] Instance pres_sys_unlink : Pres sys_unlink.
Proof. unfold sys_unlink. inv_auto. Qed.
#[export] Instance pres_create path type major minor : Pres (create path type major minor).
Proof. unfold create. inv_auto. Qed.
#[export] Instance pres_open_inode path omode : Pres (open_inode path omode).
Proof. unfold open_inode. inv_auto. Qed.
#[export] Instance pres_open_path path omode : Pres (open_path path omode).
Proof. unfold open_path. inv_auto. Qed.
#[export] Instance pres_sys_open : Pres sys_open.
Proof. unfold sys_open. inv_auto. Qed.
#[export] Instance pres_make_node path type major minor : Pres (make_node path type major minor).
Proof. unfold make_node. inv_auto. Qed.
#[export] Instance pres_sys_mkdir : Pres sys_mkdir.
Proof. unfold sys_mkdir. inv_auto. Qed.
#[export] Instance pres_sys_mknod : Pres sys_mknod.
Proof. unfold sys_mknod. inv_auto. Qed.
#[export] Instance pres_sys_chdir : Pres sys_chdir.
Proof. unfold sys_chdir. inv_auto. Qed.
#[export] Instance pres_sys_pipe : Pres sys_pipe.
Proof. unfold sys_pipe. inv_auto. Qed.
#[export] Instance pres_sys_change_file_size : Pres sys_change_file_size.
Proof. unfold sys_change_file_size. inv_auto. Qed.

#[export] Instance pres_exec_bad pgdir ip : Pres (exec_bad pgdir ip).
Proof. unfold exec_bad. inv_auto. Qed.
#[export] Instance pres_load_segments n pgdir ip off sz : Pres (load_segments n pgdir ip off sz).
Proof. revert n pgdir ip off sz. induction n; intros; cbn [load_segments]; inv_auto. Qed.
#[export] Instance pres_push_args pgdir argc sp argv : Pres (push_args pgdir argc sp argv).
Proof. revert argc sp. induction argv; intros; cbn [push_args]; inv_auto. Qed.
#[export] Instance pres_user_stack pgdir sz argv : Pres (user_stack pgdir sz argv).
Proof. unfold user_stack. inv_auto. Qed.
#[export] Instance pres_exec_commit cur path argv pgdir sz entry : Pres (exec_commit cur path argv pgdir sz entry).
Proof. unfold exec_commit. inv_auto. Qed.
#[export] Instance pres_exec path argv : Pres (exec path argv).
Proof. unfold exec. inv_auto. Qed.
#[export] Instance pres_fetch_argv n uargv : Pres (fetch_argv n uargv).
Proof. revert n uargv. induction n; intros; cbn [fetch_argv]; inv_auto. Qed.
#[export] Instance pres_sys_exec : Pres sys_exec.
Proof. unfold sys_exec. inv_auto. Qed.

(** ** The other calls *)

#[export] Instance pres_argint_unchecked n : Pres (argint_unchecked n).
Proof. unfold argint_unchecked. inv_auto. Qed.
#[export] Instance pres_sys_fork : Pres sys_fork.
Proof. unfold sys_fork. inv_auto. Qed.
#[export] Instance pres_sys_exit : Pres sys_exit.
Proof. unfold sys_exit. inv_auto. Qed.
#[export] Instance pres_sys_wait : Pres sys_wait.
Proof. unfold sys_wait. inv_auto. Qed.
#[export] Instance pres_sys_kill : Pres sys_kill.
Proof. unfold sys_kill. inv_auto. Qed.
#[export] Instance pres_sys_getpid : Pres sys_getpid.
Proof. unfold sys_getpid. inv_auto. Qed.
#[export] Instance pres_sys_sbrk : Pres sys_sbrk.
Proof. unfold sys_sbrk. inv_auto. Qed.
#[export] Instance pres_sleep_ticks fuel ticks0 n : Pres (sleep_ticks fuel ticks0 n).
Proof. revert fuel ticks0 n. induction fuel; intros; cbn [sleep_ticks]; inv_auto. Qed.
#[export] Instance pres_await_ticks ticks0 n : Pres (await_ticks ticks0 n).
Proof. unfold await_ticks. inv_fuel. Qed.
#[export] Instance pres_sys_sleep : Pres sys_sleep.
Proof. unfold sys_sleep. inv_auto. Qed.
#[export] Instance pres_sys_uptime : Pres sys_uptime.
Proof. unfold sys_uptime. inv_auto. Qed.
#[export] Instance pres_sys_get_parent_pid : Pres sys_get_parent_pid.
Proof. unfold sys_get_parent_pid. inv_auto. Qed.
#[export] Instance pres_sys_find_largest_prime_factor : Pres sys_find_largest_prime_factor.
Proof. unfold sys_find_largest_prime_factor. inv_auto. Qed.
#[export] Instance pres_sys_get_callers : Pres sys_get_callers.
Proof. unfold sys_get_callers. inv_auto. Qed.
#[export] Instance pres_sys_set_proc_queue : Pres sys_set_proc_queue.
Proof. unfold sys_set_proc_queue. inv_auto. Qed.
#[export] Instance pres_sys_set_lottery_params : Pres sys_set_lottery_params.
Proof. unfold sys_set_lottery_params. inv_auto. Qed.
#[export] Instance pres_sys_set_a_proc_bjf_params : Pres sys_set_a_proc_bjf_params.
Proof. unfold sys_set_a_proc_bjf_params. inv_auto. Qed.
#[export] Instance pres_sys_set_all_bjf_params : Pres sys_set_all_bjf_params.
Proof. unfold sys_set_all_bjf_params. inv_auto. Qed.
#[export] Instance pres_sys_print_all_procs : Pres sys_print_all_procs.
Proof. unfold sys_print_all_procs. inv_auto. Qed.
#[export] Instance pres_sys_sem_init : Pres sys_sem_init.
Proof. unfold sys_sem_init. inv_auto. Qed.
#[export] Instance pres_sys_sem_acquire : Pres sys_sem_acquire.
Proof. unfold sys_sem_acquire. inv_auto. Qed.
#[export] Instance pres_sys_sem_release : Pres sys_sem_release.
Proof. unfold sys_sem_release. inv_auto. Qed.
#[export] Instance pres_set_eax i v : Pres (set_eax i v).
Proof. unfold set_eax. inv_auto. Qed.
#[export] Instance pres_void_call f num h : Pres h -> Pres (void_call f num h).
Proof. unfold void_call. inv_auto. Qed.

(** Each handler of the table. *)
Lemma pres_syscalls f num h : syscalls f num = Some h -> Pres h.
Proof. unfold syscalls. intros Hn. repeat case_match; simplify_eq; apply _. Qed.
#[export] Instance pres_syscall f : Pres (syscall f).
Proof.
  unfold syscall. inv_auto. eapply pres_syscalls; eassumption.
Qed.
End Calls.

(** ** Traps *)

Section Trap.
  Context `{Image} (void_result : Z -> Z).

#[export] Instance pres_exit_if_killed : Pres exit_if_killed.
Proof. unfold exit_if_killed. inv_auto. Qed.
#[export] Instance pres_trap_syscall tf : Pres (trap_syscall void_result tf).
Proof. unfold trap_syscall. inv_auto. Qed.
#[export] Instance pres_timer_tick hw : Pres (timer_tick hw).
Proof. unfold timer_tick. inv_auto. Qed.
#[export] Instance pres_unexpected hw tf : Pres (unexpected hw tf).
Proof. unfold unexpected. inv_auto. Qed.
#[export] Instance pres_handle hw tf : Pres (handle hw tf).
Proof. unfold handle, memide_intr. inv_auto. Qed.
#[export] Instance pres_exit_user tf : Pres (exit_user tf).
Proof. unfold exit_user. inv_auto. Qed.
#[export] Instance pres_yield_on_tick tf : Pres (yield_on_tick tf).
Proof. unfold yield_on_tick. inv_auto. Qed.
#[export] Instance pres_trap hw tf : Pres (trap void_result hw tf).
Proof. unfold trap. inv_auto. Qed.

(** What holds of the state in which a run returns, or gives up the CPU. *)
Definition leaves {A} (P : kernel -> Prop) (r : outcome kernel A) : Prop :=
  match r with
  | Ret _ k _ | Parked k => P k
  | _ => True
  end.

Lemma leaves_mono {A} (P Q : kernel -> Prop) (r : outcome kernel A) :
  (forall k, P k -> Q k) -> leaves P r -> leaves Q r.
Proof. intros H'. destruct r; simpl; auto. Qed.

Lemma trap_leaves hw tf k e : sys_ok k -> env_ok e -> leaves parked_ok (trap void_result hw tf k e).
Proof.
  intros Hk He. pose proof (pres_trap hw tf (c_proc (k_cpu k)) k e He (conj Hk eq_refl)) as Hr.
  destruct (trap _ hw tf k e); simpl; [|done..]. destruct Hr as [_ Hr]. by eapply running_parked.
Qed.

Lemma scheduler_leaves n k e : parked_ok k -> env_ok e -> leaves parked_ok (scheduler n k e).
Proof.
  intros Hk He. pose proof (scheduler_inv n k e He Hk) as Hr. destruct (scheduler n k e); simpl; [|done..].
  by destruct Hr.
Qed.

(** C3: neither a trap (a system call, an interrupt, a fault) nor the
    scheduler, in any number of passes, breaks the family of the processes,
    and nor does what happens while the CPU is given up if the rest of the
    system does not: when the trap returns and whenever the CPU is given up,
    every process that is alive or a zombie but init has a parent, and every
    parent is alive, so that it can still collect its child.  In particular a
    process that has exited leaves no child behind. *)
Theorem trap_family hw tf k e :
  sys_ok k -> env_ok e ->
  leaves family_ok (trap void_result hw tf k e) /\ forall n, leaves family_ok (scheduler n k e).
Proof.
  intros Hk He. split; [|intros n]; (apply (leaves_mono parked_ok); [by intros ? []|]).
  - by apply trap_leaves.
  - apply scheduler_leaves; [apply Hk|done].
Qed.

(** The process that runs has not been killed. *)
Definition spared (k : kernel) : Prop :=
  forall i p, c_proc (k_cpu k) = Some i -> k_procs k !! i = Some p -> p_killed p = 0.

Lemma exit_user_triple tf o :
  Z.land (tf_cs tf) 3 = DPL_USER -> triple parked_ok (running o) (exit_user tf) (fun _ k => running o k /\ spared k).
Proof.
  intros Hu. unfold exit_user. apply (triple_bind _ _ _ _ _ (myproc_triple _ _ _ (running_parked o))).
  intros [i|]; [|apply triple_ret; intros k [Hk Hc]; split; [done|]; intros i p Hi; unfold on_cpu in Hc; congruence].
  apply (triple_bind _ _ _ _ _ (get_proc_triple _ i)). intros p. rewrite Hu.
  destruct (p_killed p =? 0) eqn:E; cbn.
  - apply triple_ret. intros k [[Hk Hc] Hp]. split; [done|]. intros j q Hj Hq. unfold on_cpu in Hc. simplify_eq. lia.
  - eapply triple_pre; [apply exit_triple|]. by intros k [[]].
Qed.

Lemma exit_if_killed_triple o :
  triple parked_ok (running o) exit_if_killed (fun _ k => running o k /\ spared k).
Proof.
  unfold exit_if_killed. apply (triple_bind _ _ _ _ _ (curproc_triple _ _ _ (running_parked o))). intros i.
  apply (triple_bind _ _ _ _ _ (get_proc_triple _ i)). intros p. destruct (p_killed p =? 0) eqn:E; cbn.
  - apply triple_ret. intros k [[Hk Hc] Hp]. split; [done|]. intros j q Hj Hq. unfold on_cpu in Hc. simplify_eq. lia.
  - eapply triple_pre; [apply exit_triple|]. by intros k [[]].
Qed.

Lemma trap_triple hw tf o : tf_trapno tf = T_SYSCALL \/ Z.land (tf_cs tf) 3 = DPL_USER ->
  triple parked_ok (running o) (trap void_result hw tf) (fun _ k => running o k /\ spared k).
Proof.
  intros Hu. unfold trap. destruct (tf_trapno tf =? T_SYSCALL) eqn:E.
  - unfold trap_syscall. do 4 (inv_under (running o)). apply exit_if_killed_triple.
  - do 3 (inv_under (running o)). apply exit_user_triple. destruct Hu; [lia|done].
Qed.

(** C4: a trap from user mode that returns does so in the process that took
    it.  That process is alive (it is not a zombie, nor has its slot been
    given away meanwhile), and it has not been killed: a killed process never
    gets back to user mode. *)
Theorem trap_returns hw tf k e k' e' :
  sys_ok k -> env_ok e -> tf_trapno tf = T_SYSCALL \/ Z.land (tf_cs tf) 3 = DPL_USER ->
  trap void_result hw tf k e = Ret tt k' e' ->
  c_proc (k_cpu k') = c_proc (k_cpu k) /\ cur_alive k' /\ spared k'.
Proof.
  intros Hk He Hu Hr. pose proof (trap_triple hw tf (c_proc (k_cpu k)) Hu k e He (conj Hk eq_refl)) as H'.
  rewrite Hr in H'. by destruct H' as [_ [[[] ?] ?]].
Qed.
End Trap.

(** ** An instance *)

(** Init sleeps in [wait]; its child, in slot 1, runs, and has a child. *)
Definition family_kernel : kernel :=
  boot_kernel <| k_cpu := mkcpu (Some 1%nat) 0 false true [] 0 0 |> <| k_initproc := Some 0%nat |>
    <| k_procs :=
         [zero_proc <| p_pid := 1 |> <| p_state := SLEEPING |> <| p_chan := Some (Ch_proc 0) |>;
          zero_proc <| p_pid := 2 |> <| p_state := RUNNING |> <| p_parent := Some 0%nat |>;
          zero_proc <| p_pid := 3 |> <| p_state := RUNNABLE |> <| p_parent := Some 1%nat |>]
         ++ replicate (NPROC - 3) zero_proc |>.

Lemma family_kernel_procs j q : k_procs family_kernel !! j = Some q ->
  match j with
  | 0%nat => p_state q = SLEEPING /\ p_parent q = None
  | 1%nat => p_state q = RUNNING /\ p_parent q = Some 0%nat
  | 2%nat => p_state q = RUNNABLE /\ p_parent q = Some 1%nat
  | _ => p_state q = UNUSED /\ p_parent q = None
  end.
Proof.
  destruct j as [|[|[|j]]]; try by intros [= <-]. unfold family_kernel. rsimpl. cbn [app].
  intros [-> _]%lookup_replicate. done.
Qed.

Lemma family_kernel_ok : sys_ok family_kernel.
Proof.
  split; [split; constructor|]; try done.
  - intros j q i Hq Hi. apply family_kernel_procs in Hq.
    destruct j as [|[|[|j]]]; destruct Hq as [_ E]; rewrite E in Hi; simplify_eq; by eexists.
  - intros j q Hq Ha Hj. apply family_kernel_procs in Hq.
    destruct j as [|[|[|j]]]; destruct Hq as [E1 E2]; [done|by rewrite E2..|]. rewrite E1 in Ha. by destruct Ha.
  - split; [done|]. by eexists.
  - repeat constructor.
  - intros i [= <-]. by eexists.
Qed.

(** A tick of the clock in user mode, with no slice to come back in. *)
Definition demo_hw : hardware := {| hw_cpuid := 0; hw_cr2 := 0; hw_kbd := []; hw_uart := [] |}.
Definition demo_tick : trapframe := zero_tf <| tf_trapno := 32 |> <| tf_cs := 27 |>.
#[local] Instance demo_image : Image := { im_end := 0; im_data := 0; im_forkret := 0; im_initcode := [] }.

Lemma trap_family_witness :
  sys_ok family_kernel /\ leaves family_ok (trap (fun _ => 0) demo_hw demo_tick family_kernel []) /\
  leaves family_ok (scheduler 3 family_kernel []).
Proof.
  split; [exact family_kernel_ok|].
  pose proof (trap_family (fun _ => 0) demo_hw demo_tick family_kernel [] family_kernel_ok (List.Forall_nil _)) as [Ht Hs].
  exact (conj Ht (Hs 3%nat)).
Defined.

(** An interrupt of the disk. *)
Definition demo_ide : trapframe := zero_tf <| tf_trapno := 46 |> <| tf_cs := 27 |>.

Definition demo_returned : kernel :=
  match trap (fun _ => 0) demo_hw demo_ide family_kernel [] with Ret _ k _ => k | _ => family_kernel end.
Lemma demo_ide_returns : trap (fun _ => 0) demo_hw demo_ide family_kernel [] = Ret tt demo_returned [].
Proof. vm_compute. reflexivity. Qed.

Lemma trap_returns_witness : c_proc (k_cpu demo_returned) = Some 1%nat /\ cur_alive demo_returned /\ spared demo_returned.
Proof.
  exact (trap_returns (fun _ => 0) demo_hw demo_ide family_kernel [] demo_returned [] family_kernel_ok
    (List.Forall_nil _) (or_intror eq_refl) demo_ide_returns).
Defined.
