(* ===== verification/BootOk.v ===== *)
(** The kernel starts (main.c): on a machine with a configuration table and
    with devices that answer, [main] reaches the scheduler, in a state that
    satisfies the invariant of the system, with the first process ready to run
    its program. *)

From S2P Require Import Prelude Types Ide Spinlock Cprintf Proc Sched Sleeplock Str Bio Bytes Log Fs FsIo ICache Kalloc Vm PageTable FreeVm CopyUvm Process Console Trap Machine Boot Inv.

(** ** The state of the kernel on its way up *)

(** The CPU holds no lock, interrupts are off and no process runs. *)
Definition boot_cpu (cr3 : Z) : cpu := mkcpu None 0 false false [] cr3 0.

(** The state before the first process: only memory, the console, the buffer
    cache and the kernel's page directory have been set up. *)
Record booting (kend : Z) (k : kernel) (l : list Z) : Prop := {
  bg_same : k = boot_kernel <| k_cpu := k_cpu k |> <| k_cons := k_cons k |> <| k_mem := k_mem k |> <| k_kmem := k_kmem k |>
                  <| k_kpgdir := k_kpgdir k |> <| k_bufs := k_bufs k |>;
  bg_cpu : k_cpu k = boot_cpu (c_cr3 (k_cpu k));
  bg_cons : cons_ok (k_cons k);
  bg_bufs : length (k_bufs k) = S NBUF;
  bg_free : free_pages kend k l
}.

Lemma boot_cpu_ok cr3 : cpu_ok (boot_cpu cr3).
Proof. constructor; [done|constructor|done]. Qed.

Lemma boot_idle k cr3 : k_cpu k = boot_cpu cr3 -> idle k k.
Proof. intros E. apply idle_start; rewrite E; [apply boot_cpu_ok|done|done]. Qed.

Section Booting.
  Context (kend : Z).
  Implicit Types (k : kernel) (e : env) (l : list Z).

Lemma booting_idle k l : booting kend k l -> idle k k.
Proof. intros Hb. by apply (boot_idle k (c_cr3 (k_cpu k))), Hb. Qed.

(** Steps of the memory allocator. *)
Lemma booting_mem k l k' l' : booting kend k l -> idle k k' -> free_pages kend k' l' -> booting kend k' l'.
Proof.
  intros [Hs Hc Hco Hb Hf] [_ _ _ (m & f & ->)] Hf'. constructor; [|done..].
  apply (f_equal (fun s : kernel => s <| k_mem := m |> <| k_kmem := f |>)) in Hs. etransitivity; [exact Hs|reflexivity].
Qed.

(** Writes below the end of the kernel. *)
Lemma booting_low k l m' : booting kend k l -> (forall x, kend <= x -> m' x = k_mem k x) -> booting kend (k <| k_mem := m' |>) l.
Proof.
  intros Hb E. apply (booting_mem k l); [done|by apply idle_mem, (booting_idle k l)|].
  destruct (bg_free _ _ _ Hb) as [Hch Hp Hn]. constructor; rsimpl; [|done..]. apply (chain_ext (k_mem k)); [done|].
  intros w x Hw Hx. apply E. rewrite Forall_forall in Hp. destruct (Hp w Hw) as (_ & ? & _). lia.
Qed.

Lemma booting_cons k l c : booting kend k l -> cons_ok c -> booting kend (k <| k_cons := c |>) l.
Proof.
  intros [Hs Hc Hco Hb [H1 H2 H3]] Hok. constructor; [|done..].
  apply (f_equal (fun s : kernel => s <| k_cons := c |>)) in Hs. etransitivity; [exact Hs|reflexivity].
Qed.

(** [freerange] on the way up: the new list, and the memory that stays. *)
Lemma booting_freerange k l e vstart vend : booting kend k l -> kend <= PGROUNDUP vstart -> 0 < PGROUNDUP vstart ->
  PGROUNDUP vstart mod PGSIZE = 0 -> KERNBASE <= PGROUNDUP vstart -> vend <= KERNBASE + PHYSTOP ->
  (forall w, w ∈ l -> w < PGROUNDUP vstart) ->
  exists k' l', freerange kend vstart vend k e = Ret tt k' e /\ booting kend k' l' /\ idle k k' /\
    length l' = (Z.to_nat ((vend - PGROUNDUP vstart) / PGSIZE) + length l)%nat /\ (forall w, w ∈ l' -> w + PGSIZE <= vend \/ w ∈ l) /\
    (forall x, x < kend -> k_mem k' x = k_mem k x).
Proof.
  intros Hb Hs Hs0 Hsm Hsk Hv Hl. set (p0 := PGROUNDUP vstart) in *.
  assert (forall w, w ∈ pages p0 vend -> p0 <= w /\ w + PGSIZE <= vend /\ w mod PGSIZE = 0) as Hpg.
  { intros w Hw. unfold pages in Hw. apply list_elem_of_fmap in Hw as (j & -> & Hj%elem_of_seq). unfold PGSIZE in *.
    split; [lia|]. split; [|Z.div_mod_to_equations; lia]. rewrite Nat.add_0_l in Hj. Z.div_mod_to_equations. lia. }
  destruct (free_all_run k kend (pages p0 vend) k e l (booting_idle k l Hb) (bg_free _ _ _ Hb)) as (k' & Hr & Hf & Hi & E).
  - apply Forall_forall. intros w Hw%Hpg. unfold page, PHYSTOP, PGSIZE in *. lia.
  - apply NoDup_freed; [apply Hb|]. intros w Hw%Hpg Hwl%Hl. lia.
  - eexists k', _. split; [exact Hr|]. split; [by apply (booting_mem k l)|]. split; [done|]. split; [|split].
    + rewrite length_app, length_rev. unfold pages. by rewrite length_map, length_seq.
    + intros w [Hw%Hpg|Hw]%elem_of_rev_pages; [left; lia|by right].
    + intros x Hx. apply E. intros w Hw%Hpg. lia.
Qed.
End Booting.

(** ** The first program *)

(** A page outside an address space can be written without changing the map. *)
Lemma translate_outside kend k d l v m' x : pgdir_ok kend k d l -> outside kend k d l v ->
  (forall y, ~ (v <= y < v + PGSIZE) -> m' y = k_mem k y) -> translate m' d x = translate (k_mem k) d x.
Proof.
  intros [_ [Hpd _] Ht _] (Hv & _ & Hvd & Hvt) E.
  assert (forall w y, page kend w -> w <> v -> w <= y < w + PGSIZE -> m' y = k_mem k y) as Ew.
  { intros w y Hw Hne Hy. apply E. by apply (page_apart kend w). }
  unfold translate. apply entry_ext; [intros y; apply Ew; [done|congruence]|apply PDX_bound|apply PTX_bound|].
  intros tab y Htab. apply Ew; [apply (Ht _ _ (PDX_bound x) Htab)|]. intros ->. by apply (Hvt _ (PDX_bound x)).
Qed.

(** The address space [d] is one page with the bytes [init] and then zeroes. *)
Record program_at (m : mem) (d : Z) (init : list Z) : Prop := {
  pa_bytes x : 0 <= x < PGSIZE -> ubyte m d x = Some (default 0 (init !! Z.to_nat x));
  pa_write x : 0 <= x < PGSIZE -> exists v, translate m d x = Some v /\ Z.land v PTE_W <> 0;
  pa_end x : PGSIZE <= x < KERNBASE -> translate m d x = None
}.

Lemma user_entry kend v : page kend v ->
  let w := Z.lor (Z.lor (V2P v) (Z.lor PTE_W PTE_U)) PTE_P in P2V (PTE_ADDR w) = v /\ user w = true /\ Z.land w PTE_W <> 0.
Proof.
  intros Hv w. destruct (copied_entry kend 7 v Hv eq_refl) as (E1 & _ & E3). cbv zeta in E1, E3.
  assert (Z.lor (Z.lor (V2P v) (PTE_FLAGS 7)) PTE_P = w) as Ew by (unfold w; by rewrite <-!Z.lor_assoc).
  rewrite Ew in E1, E3. split_and!; [exact E1|exact E3|]. unfold w. rewrite !Z.land_lor_distr_l.
  intros [[_ H]%Z.lor_eq_0_iff _]%Z.lor_eq_0_iff. done.
Qed.

Lemma inituvm_run kb kend k d v t l init e : idle kb k -> pgdir_ok kend k d (v :: t :: l) ->
  (forall x, 0 <= x < KERNBASE -> translate (k_mem k) d x = None) -> Z.of_nat (length init) < PGSIZE ->
  exists k', inituvm d init k e = Ret tt k' e /\ idle kb k' /\ program_at (k_mem k') d init.
Proof.
  intros Hc Hok Hn Hlen. unfold inituvm. replace (Z.of_nat (length init) >=? PGSIZE) with false by lia.
  rewrite (bind_Ret _ _ _ _ _ _ _ (kalloc_run kb kend k e _ Hc (pd_free _ _ _ _ Hok))).
  pose proof (fp_pages _ _ _ (pd_free _ _ _ _ Hok)) as Hv%Forall_inv. pose proof Hv as (_ & _ & _ & Hv0).
  replace (v =? 0) with false by lia. unfold upd_mem. mrun. rsimpl.
  destruct (take_page kb kend k d v (t :: l) (memset v 0 PGSIZE (k_mem k)) Hc Hok) as (Hc1 & Hok1 & Hout & _ & _ & Htr).
  { intros x Hx. rewrite memset_run by done. by zcases. }
  cbv zeta in *. set (k1 := k <| k_kmem := _ |> <| k_mem := _ |>) in *.
  rewrite mappages_eq by done. change (Z.to_nat (PGSIZE / PGSIZE - 1)) with O.
  destruct (kernel_page kend v Hv) as (Hpm & Hp0 & Hp32). destruct (user_entry kend v Hv) as (Ea & Eu & Ewr). cbv zeta in *.
  destruct (map_entry (V2P v) (Z.lor PTE_W PTE_U)) as [Hw1 Hw2]; [done|unfold PGSIZE in *; lia|done|].
  set (w := Z.lor (Z.lor (V2P v) _) PTE_P) in *.
  destruct (map_one kb kend k1 e d 0 w (t :: l) Hc1 Hok1 ltac:(done)) as
    (k2 & l2 & Hc2 & Hok2 & (Hko & _) & _ & [(-> & -> & _)|(pte & k3 & Hr & Hpte & Hnp & Ek & Et)]);
    [unfold k1; rsimpl; rewrite Htr; by apply Hn|done|done| |].
  { exfalso. pose proof (fp_chain _ _ _ (pd_free _ _ _ _ Hok1)) as [E1 _].
    pose proof (fp_chain _ _ _ (pd_free _ _ _ _ Hok2)) as E2. cbn in E2. rewrite E1 in E2.
    pose proof (fp_pages _ _ _ (pd_free _ _ _ _ Hok1)) as (_ & _ & _ & ?)%Forall_inv. lia. }
  assert (mappages_loop 0 d 0 (V2P v) (Z.lor PTE_W PTE_U) k1 e = Ret 0 k2 e) as Hm.
  { rewrite (mappages_pass 0 k1 e d 0 _ _ pte k3 Hr Hpte Hnp). by rewrite Ek. }
  rewrite (bind_Ret _ _ _ _ _ _ _ Hm). mrun. eexists. split; [done|]. split; [by apply idle_mem|]. rsimpl.
  destruct (Hko v Hout) as [Hout2 E2].
  assert (forall x, 0 <= x < 2 ^ 32 -> translate (store_bytes v init (k_mem k2)) d x =
    if x / PGSIZE =? 0 then Some w else translate (k_mem k) d x) as Ef.
  { intros x Hx. rewrite (translate_outside kend k2 d l2 v), Et by (done || (intros y Hy; apply store_bytes_out; lia)).
    unfold k1. rsimpl. by rewrite Htr. }
  assert (forall x, 0 <= x < PGSIZE -> x / PGSIZE = 0) as Hpg by (intros x Hx; by apply Z.div_small).
  constructor.
  - intros x Hx. unfold ubyte, frame. rewrite Ef, Hpg by (unfold PGSIZE in *; lia). cbn [Z.eqb]. cbn. rewrite Eu. cbn. rewrite Ea.
    rewrite Z.mod_small by done. f_equal. destruct (decide (x < Z.of_nat (length init))).
    + rewrite store_bytes_in by lia. do 3 f_equal. lia.
    + rewrite store_bytes_out, E2 by lia. unfold k1. rsimpl. rewrite memset_run by done.
      replace ((v <=? v + x) && (v + x <? v + PGSIZE)) with true by lia. rewrite lookup_ge_None_2 by lia. done.
  - intros x Hx. exists w. rewrite Ef, Hpg by (unfold PGSIZE in *; lia). done.
  - intros x Hx. rewrite Ef by (unfold KERNBASE, PGSIZE in *; lia).
    replace (x / PGSIZE =? 0) with false; [apply Hn; unfold PGSIZE in *; lia|]. unfold PGSIZE in *. Z.div_mod_to_equations. lia.
Qed.

Section First.
  Context `{Image} `{Devsw}.
  Context (Hend : KERNBASE < im_end) (Hdm : im_data mod PGSIZE = 0) (Hdata : KERNLINK < im_data < KERNBASE + PHYSTOP).
  Context (Hinit : Z.of_nat (length im_initcode) < PGSIZE).
  Implicit Types (k : kernel) (e : env) (l : list Z).

(** What the tables hold on the way up. *)
Lemma booting_tables k l : booting im_end k l ->
  k_procs k = zero_proc :: replicate 63 zero_proc /\ k_nextpid k = 1 /\ k_ticks k = 0 /\ k_inodes k = zero_inode :: replicate 49 zero_inode.
Proof. intros [Hs _ _ _ _]. by rewrite Hs. Qed.

(** The first process as [allocproc] leaves it. *)
Definition embryo (kstack tickets : Z) : proc :=
  init_proc 0 (zero_proc <| p_state := EMBRYO |> <| p_pid := 1 |> <| p_kstack := kstack |>) <| p_tickets := tickets |>.

Lemma allocproc_first k v l e : booting im_end k (v :: l) ->
  exists w, allocproc k e = Ret (Some 0%nat) (k <| k_procs := embryo v w :: replicate 63 zero_proc |> <| k_nextpid := 2 |>
    <| k_kmem := k_kmem k <| km_freelist := load32 v (k_mem k) |> |>) e.
Proof.
  intros Hb. destruct (booting_tables k _ Hb) as (Ep & En & Et & _). pose proof (booting_idle _ k _ Hb) as Hi.
  pose proof (bg_cpu _ _ _ Hb) as Ec. pose proof (bg_free _ _ _ Hb) as Hf.
  unfold allocproc. mcall (acquire_idle k); [done|]. unfold search_procs. change (seq 0 NPROC) with (0%nat :: seq 1 63).
  cbn [for_loop]. rewrite !bind_assoc. unfold get_proc, upd_proc. mrun. rsimpl. rewrite Ep. cbn [lookup list_lookup]. cbn [deref]. mrun.
  mcall (release_idle k L_ptable k); [done|done|]. rsimpl.
  match goal with |- context [(kalloc ≫= _) ?s e] => set (k1 := s) end.
  assert (k1 = k <| k_procs := (zero_proc <| p_state := EMBRYO |> <| p_pid := 1 |>) :: replicate 63 zero_proc |> <| k_nextpid := 2 |>) as E1.
  { unfold k1. rewrite Ep, En. destruct k. reflexivity. }
  clearbody k1.
  assert (k_cpu k1 = k_cpu k /\ k_mem k1 = k_mem k /\ k_kmem k1 = k_kmem k) as (Ec1 & Em1 & Ek1) by (by rewrite E1).
  assert (free_pages im_end k1 (v :: l)) as Hf1 by (destruct Hf; constructor; [by rewrite Em1, Ek1|done|done]).
  assert (idle k1 k1) as Hi1 by (apply (boot_idle k1 (c_cr3 (k_cpu k))); by rewrite Ec1).
  rewrite (bind_Ret _ _ _ _ _ _ _ (kalloc_run k1 im_end k1 e _ Hi1 Hf1)). mrun.
  pose proof (fp_pages _ _ _ Hf) as (_ & _ & _ & Hv0)%Forall_inv. replace (v =? 0) with false by lia. mrun. rsimpl.
  match goal with |- context [(generate_random_number _ _ ≫= _) ?s e] => set (k2 := s) end.
  assert (k_cpu k2 = boot_cpu (c_cr3 (k_cpu k))) as Ec2 by (unfold k2; rsimpl; by rewrite Ec1).
  destruct (random_run DEFAULT_MAX_TICKETS k2 e) as (w & c & Hr & _ & Hc);
    [rewrite Ec2; apply boot_cpu_ok|rewrite Ec2; apply not_elem_of_nil|done|].
  rewrite (bind_Ret _ _ _ _ _ _ _ Hr). mrun. exists w.
  assert (c = k_cpu k) as -> by (rewrite Hc, Ec2; symmetry; exact Ec). clear Hr Hc Ec2. unfold k2. rewrite E1. clear - Et. f_equal.
  destruct k as [? ? ? ? t]. cbn in Et. subst t. reflexivity.
Qed.
Lemma iget_loop_free (l : list nat) dev inum k e : forall empty, Forall (fun j => k_inodes k !! j = Some zero_inode) l ->
  iget_loop l dev inum empty k e = Ret (inr (match empty with Some j => Some j | None => head l end)) k e.
Proof.
  induction l as [|j l IH]; intros empty Hl; cbn [iget_loop]; [by destruct empty|].
  inversion_clear Hl as [|? ? Hj Hl']. unfold get_inode. mrun. rewrite Hj. cbn [deref]. mrun.
  change (0 <? i_ref zero_inode) with false. change (i_ref zero_inode =? 0) with true. cbn [andb]. rewrite IH by done. by destruct empty.
Qed.

(** The root directory gets the first entry of the inode cache. *)
Lemma namei_root k e : idle k k -> k_inodes k = replicate NINODE zero_inode ->
  namei (bytes "/") k e = Ret (Some 0%nat) (k <| k_inodes := alter (fresh_ino ROOTDEV ROOTINO) 0%nat (k_inodes k) |>) e.
Proof.
  intros Hi Ei. unfold namei, namex. rewrite bool_decide_true by done. rewrite !bind_assoc. unfold iget. rewrite bind_assoc.
  mcall (acquire_idle k); [done|]. rewrite bind_assoc.
  set (k1 := k <| k_cpu := _ |>).
  rewrite (bind_Ret _ _ _ _ _ _ _ (iget_loop_free (seq 0 NINODE) ROOTDEV ROOTINO k1 e None
    ltac:(apply Forall_forall; intros j Hj%elem_of_seq; unfold k1; rsimpl; rewrite Ei; apply lookup_replicate_2; lia))).
  change (head (seq 0 NINODE)) with (Some 0%nat). cbv match. unfold upd_inode. mrun. unfold k1. rsimpl.
  mcall (release_idle k L_icache k); [done|done|]. mrun. rewrite !list_alter_alter. by destruct k.
Qed.

(** The first process as [userinit] leaves it. *)
Definition first_proc (kstack tickets pgdir : Z) : proc :=
  embryo kstack tickets <| p_pgdir := pgdir |> <| p_sz := PGSIZE |> <| p_tf := user_tf |>
    <| p_name := copy_name (bytes "initcode" ++ [0]) (p_name zero_proc) |> <| p_cwd := Some 0%nat |> <| p_state := RUNNABLE |>.

Lemma pgdir_ok_same kend k k' d l : pgdir_ok kend k d l -> k_mem k' = k_mem k -> k_kmem k' = k_kmem k -> pgdir_ok kend k' d l.
Proof.
  intros [[H1 H2 H3] Hp Ht Hi] Em Ek. constructor; [constructor; [by rewrite Em, Ek|done|done]|done|by rewrite Em|by rewrite Em].
Qed.

(** [userinit] makes the first process. *)
Lemma userinit_run k l e : booting im_end k l -> (516 <= length l)%nat ->
  exists kstack tickets d m f, userinit k e = Ret tt (k <| k_procs := first_proc kstack tickets d :: replicate 63 zero_proc |>
      <| k_nextpid := 2 |> <| k_initproc := Some 0%nat |> <| k_inodes := alter (fresh_ino ROOTDEV ROOTINO) 0%nat (k_inodes k) |>
      <| k_mem := m |> <| k_kmem := f |>) e /\
    program_at m d im_initcode.
Proof.
  intros Hb Hlen. destruct l as [|v l]; [cbn in Hlen; lia|]. cbn [length] in Hlen.
  destruct (allocproc_first k v l e Hb) as [w Ha]. unfold userinit. rewrite (bind_Ret _ _ _ _ _ _ _ Ha). mrun.
  set (k1 := k <| k_procs := _ |> <| k_nextpid := _ |> <| k_kmem := _ |> <| k_initproc := _ |>).
  assert (k_cpu k1 = boot_cpu (c_cr3 (k_cpu k))) as Ec1 by apply Hb.
  assert (free_pages im_end k1 l) as Hf1.
  { destruct (kalloc_free im_end k v l (bg_free _ _ _ Hb)) as [? ? ?]. by constructor. }
  destruct (setupkvm_run k1 im_end im_data Hend Hdm Hdata k1 l e (boot_idle _ _ Ec1) Hf1) as (d & k2 & Hr & Hd).
  rewrite (bind_Ret _ _ _ _ _ _ _ Hr). cbn [deref]. clear Hr.
  destruct Hd as [(_ & _ & ?)|(Hd & l' & [_ _ _ (m2 & f2 & E2)] & Hok & _ & Hlen' & _ & _ & Hn)]; [lia|]. mrun.
  destruct l' as [|p [|t l']]; [cbn in Hlen'; lia..|].
  assert (0 < d) as Hd0.
  { pose proof (fp_pages _ _ _ Hf1) as Hp. rewrite Forall_forall in Hp. apply (Hp d Hd). }
  replace (d =? 0) with false by lia. unfold upd_proc. mrun.
  match goal with |- context [(inituvm _ _ ≫= _) ?s e] => set (k3 := s) end.
  destruct (inituvm_run k3 im_end k3 d p t l' im_initcode e) as (k4 & Hr & [_ _ _ (m4 & f4 & E4)] & Hprog);
    [by apply (boot_idle k3 (c_cr3 (k_cpu k))); unfold k3; rewrite E2|by apply (pgdir_ok_same _ k2)|done|done|].
  rewrite (bind_Ret _ _ _ _ _ _ _ Hr). clear Hr. mrun.
  match goal with |- context [(namei _ ≫= _) ?s e] => set (k5 := s) end. pose proof (bg_cpu _ _ _ Hb) as Ec.
  assert (k5 = k <| k_procs := (embryo v w <| p_pgdir := d |> <| p_sz := PGSIZE |> <| p_tf := user_tf |>
      <| p_name := copy_name (bytes "initcode" ++ [0]) (p_name zero_proc) |>) :: replicate 63 zero_proc |>
    <| k_nextpid := 2 |> <| k_initproc := Some 0%nat |> <| k_mem := m4 |> <| k_kmem := f4 |>) as E5.
  { unfold k5. rewrite E4. unfold k3. rewrite E2. unfold k1. destruct k. reflexivity. }
  assert (idle k5 k5) as Hi5 by (apply (boot_idle k5 (c_cr3 (k_cpu k))); by rewrite E5).
  destruct (booting_tables k _ Hb) as (_ & _ & _ & Ei). clearbody k5.
  rewrite (bind_Ret _ _ _ _ _ _ _ (namei_root k5 e Hi5 ltac:(by rewrite E5))). mrun.
  match goal with |- context [(acquire _ ≫= _) ?s e] => set (k6 := s) end.
  assert (idle k6 k6) as Hi6 by (apply (boot_idle k6 (c_cr3 (k_cpu k))); unfold k6; by rewrite E5).
  mcall (acquire_idle k6); [done|]. mrun. rewrite (release_idle k6 L_ptable k6) by done.
  exists v, w, d, m4, f4. split; [|by rewrite E4 in Hprog]. f_equal. unfold k6. rewrite E5. destruct k. reflexivity.
Qed.
End First.

(** ** The devices on the way up *)

Section Devices.
  Context `{Board}.
  Implicit Types (x : mach) (e : list (mach -> mach)).

(** A routine that returns and does no more than access the devices. *)
Definition traced {A} (m : M mach A) : Prop := forall x e, exists a tr, m x e = Ret a (x <| m_trace := tr |>) e.

Lemma traced_ret {A} (a : A) : traced (mret a).
Proof. intros x e. exists a, (m_trace x). by destruct x. Qed.
Lemma traced_gets {A} (f : mach -> A) : traced (gets f).
Proof. intros x e. exists (f x), (m_trace x). by destruct x. Qed.
Lemma traced_emit ev : traced (Machine.emit ev).
Proof. intros x e. by exists tt, (m_trace x ++ [ev]). Qed.
Lemma traced_bind {A B} (m : M mach A) (f : A -> M mach B) : traced m -> (forall a, traced (f a)) -> traced (m ≫= f).
Proof.
  intros Hm Hf x e. destruct (Hm x e) as (a & tr & Hr). rewrite (bind_Ret _ _ _ _ _ _ _ Hr).
  set (x1 := x <| m_trace := tr |>). destruct (Hf a x1 e) as (b & tr' & Hr'). by exists b, tr'.
Qed.
Lemma traced_for {A} (l : list A) f : (forall a, traced (f a)) -> traced (for_each l f).
Proof. intros Hf. induction l as [|a l IH]; cbn [for_each]; [apply traced_ret|]. by apply traced_bind. Qed.

Lemma traced_then {A B} (m : M mach A) (f : A -> M mach B) b x e : traced m ->
  (forall a x e, exists tr, f a x e = Ret b (x <| m_trace := tr |>) e) -> exists tr, (m ≫= f) x e = Ret b (x <| m_trace := tr |>) e.
Proof.
  intros Hm Hf. destruct (Hm x e) as (a & tr & Hr). rewrite (bind_Ret _ _ _ _ _ _ _ Hr).
  set (x1 := x <| m_trace := tr |>). destruct (Hf a x1 e) as (tr' & Hr'). by exists tr'.
Qed.

Ltac traced_auto :=
  repeat (apply traced_ret || apply traced_gets || apply traced_emit || apply traced_for ||
          (apply traced_bind; [|intros ?]) || case_match || intros ?).

Lemma traced_lapicw i v : traced (lapicw i v).
Proof. unfold lapicw, lapicr. traced_auto. Qed.

Lemma traced_picinit : traced picinit.
Proof. unfold picinit, outb. traced_auto. Qed.

Lemma traced_ioapicenable irq cpu : traced (ioapicenable irq cpu).
Proof. unfold ioapicenable, ioapicwrite. traced_auto. Qed.

Lemma traced_ioapicinit : traced ioapicinit.
Proof. unfold ioapicinit, ioapicread, ioapicwrite. traced_auto. Qed.

Lemma traced_uartinit : traced uartinit.
Proof.
  unfold uartinit, outb, inb. do 7 (apply traced_bind; [apply traced_emit|intros _]).
  apply traced_bind; [traced_auto|]. intros v. case_match; [apply traced_ret|].
  apply traced_bind; [traced_auto|intros _]. apply traced_bind; [traced_auto|intros _].
  apply traced_bind; [apply traced_ioapicenable|intros _; apply traced_ret].
Qed.

(** A routine that returns and does no more than access devices other than the
    I/O APIC. *)
Definition off_ioapic (ev : event) : Prop :=
  match ev with Ioapic_reg _ | Ioapic_write _ => False | _ => True end.
Definition quiet_as {A} (a : A) (m : M mach A) x e : Prop :=
  exists evs, m x e = Ret a (x <| m_trace := m_trace x ++ evs |>) e /\ Forall off_ioapic evs.
Definition quiet {A} (m : M mach A) : Prop := forall x e, exists a, quiet_as a m x e.

Lemma quiet_ret_as {A} (a : A) x e : quiet_as a (mret a) x e.
Proof. exists []. split; [rewrite app_nil_r; by destruct x|constructor]. Qed.
Lemma quiet_ret {A} (a : A) : quiet (mret a).
Proof. intros x e. exists a. apply quiet_ret_as. Qed.
Lemma quiet_gets {A} (f : mach -> A) : quiet (gets f).
Proof. intros x e. exists (f x), []. split; [rewrite app_nil_r; by destruct x|constructor]. Qed.
Lemma quiet_emit ev : off_ioapic ev -> quiet (Machine.emit ev).
Proof. intros Hev x e. exists tt, [ev]. split; [done|by constructor]. Qed.

Lemma quiet_then {A B} (m : M mach A) (f : A -> M mach B) b x e :
  quiet m -> (forall a x e, quiet_as b (f a) x e) -> quiet_as b (m ≫= f) x e.
Proof.
  intros Hm Hf. destruct (Hm x e) as (a & evs & Hr & Ho).
  set (x1 := x <| m_trace := m_trace x ++ evs |>). destruct (Hf a x1 e) as (evs' & Hr' & Ho').
  exists (evs ++ evs'). split; [|by apply Forall_app]. rewrite (bind_Ret _ _ _ _ _ _ _ Hr). fold x1. rewrite Hr'.
  unfold x1. rsimpl. by rewrite app_assoc.
Qed.
Lemma quiet_bind {A B} (m : M mach A) (f : A -> M mach B) : quiet m -> (forall a, quiet (f a)) -> quiet (m ≫= f).
Proof.
  intros Hm Hf x e. destruct (Hm x e) as (a & evs & Hr & Ho).
  set (x1 := x <| m_trace := m_trace x ++ evs |>). destruct (Hf a x1 e) as (b & evs' & Hr' & Ho').
  exists b, (evs ++ evs'). split; [|by apply Forall_app]. rewrite (bind_Ret _ _ _ _ _ _ _ Hr). fold x1. rewrite Hr'.
  unfold x1. rsimpl. by rewrite app_assoc.
Qed.

Lemma quiet_inb port : quiet (inb port).
Proof. apply quiet_bind; [apply quiet_gets|intros v]. apply quiet_bind; [by apply quiet_emit|intros _; apply quiet_ret]. Qed.
Lemma quiet_lapicr i : quiet (lapicr i).
Proof. apply quiet_bind; [apply quiet_gets|intros v]. apply quiet_bind; [by apply quiet_emit|intros _; apply quiet_ret]. Qed.
Lemma quiet_lapicw i v : quiet (lapicw i v).
Proof. apply quiet_bind; [by apply quiet_emit|intros _]. apply quiet_bind; [apply quiet_lapicr|intros _; apply quiet_ret]. Qed.

(** The lines of the I/O APIC are as they were. *)
Lemma quiet_table tr evs : Forall off_ioapic evs -> ioapic_table (tr ++ evs) = ioapic_table tr.
Proof.
  intros Ho. unfold ioapic_table. rewrite fold_left_app. generalize (fold_left ioapic_step tr (0, fun _ => None)). revert Ho.
  induction 1 as [|ev evs Hev _ IH]; intros st; cbn [fold_left]; [done|]. rewrite IH. by destruct ev.
Qed.

(** [lapicstartap] writes the warm reset vector. *)
Definition reset_vector (addr : Z) (m : mem) : mem :=
  let wrv := P2V (Z.lor (Z.shiftl 0x40 4) 0x67) in
  store (wrv + 2) (u8 (Z.shiftr addr 4)) (store (wrv + 3) (u8 (Z.shiftr addr 12)) (store wrv 0 (store (wrv + 1) 0 m))).

Lemma lapicstartap_run apicid addr m x e : quiet_as (reset_vector addr m) (lapicstartap apicid addr m) x e.
Proof.
  unfold lapicstartap, outb. cbv zeta. fold (reset_vector addr m).
  do 5 (apply quiet_then; [apply quiet_lapicw || by apply quiet_emit|clear x e; intros _ x e]).
  apply quiet_then; [|clear x e; intros _ x e; apply quiet_ret_as].
  assert (quiet (lapicw ICRHI (Z.shiftl apicid 24) ;; lapicw ICRLO (Z.lor STARTUP (Z.shiftr addr 12)))) as Hq
    by (apply quiet_bind; [apply quiet_lapicw|intros _; apply quiet_lapicw]).
  cbn [seq for_each]. do 2 (apply quiet_bind; [exact Hq|intros _]). apply quiet_ret.
Qed.

(** The message that [lapicinit] sends is delivered after less than [fuel]
    polls. *)
Definition delivers (fuel : nat) : Prop := forall tr, exists n, (n < fuel)%nat /\
  Z.land (u32 (bd_lapic (tr ++ replicate n (Lapic_read ICRLO)) ICRLO)) DELIVS = 0.

Lemma wait_delivered_run n : forall x e,
  (exists j, (j < n)%nat /\ Z.land (u32 (bd_lapic (m_trace x ++ replicate j (Lapic_read ICRLO)) ICRLO)) DELIVS = 0) ->
  exists tr, wait_delivered n x e = Ret tt (x <| m_trace := tr |>) e.
Proof.
  induction n as [|n IH]; intros x e (j & Hj & E); [lia|]. cbn [wait_delivered]. unfold lapicr, Machine.emit. mrun.
  destruct (Z.land _ DELIVS =? 0) eqn:E0; [by eexists|].
  set (x1 := x <| m_trace := m_trace x ++ [Lapic_read ICRLO] |>). destruct j as [|j]; [rewrite app_nil_r in E; lia|].
  destruct (IH x1 e) as (tr & R); [|by exists tr].
  exists j. split; [lia|]. change (m_trace x1) with (m_trace x ++ [Lapic_read ICRLO]). by rewrite <-app_assoc.
Qed.

Lemma traced_lapicinit fuel : delivers fuel -> traced (lapicinit fuel).
Proof.
  intros Hd. unfold lapicinit. apply traced_bind; [apply traced_gets|]. intros lapic. case_match; [apply traced_ret|].
  do 6 (apply traced_bind; [apply traced_lapicw|intros _]). apply traced_bind; [unfold lapicr; traced_auto|intros ver].
  apply traced_bind; [case_match; [apply traced_lapicw|apply traced_ret]|intros _].
  do 6 (apply traced_bind; [apply traced_lapicw|intros _]). apply traced_bind; [|intros _; apply traced_lapicw].
  intros x e. exists tt. by apply wait_delivered_run.
Qed.

(** The machine after [mpinit]: its processors are those of the table. *)
Record found (ids : list Z) x : Prop := {
  fd_lapic : m_lapic x <> 0;
  fd_ncpu : m_ncpu x = Z.min 8 (Z.of_nat (length ids));
  fd_ids : take (Z.to_nat (m_ncpu x)) (m_apicids x) = take NCPU ids;
  fd_started : length (m_started x) = NCPU
}.

Lemma found_trace ids x tr : found ids x -> found ids (x <| m_trace := tr |>).
Proof. by intros []. Qed.

Lemma found_cpu ids x i : found ids x -> (i < Z.to_nat (m_ncpu x))%nat -> is_Some (m_apicids x !! i).
Proof.
  intros [_ Hn Hi _] Hlt. apply lookup_lt_is_Some. apply (f_equal length) in Hi. rewrite !length_take in Hi. unfold NCPU in Hi. lia.
Qed.

(** ** The disk *)

(** The status of the disk says that it is ready after less than [fuel]
    polls. *)
Definition gets_ready (fuel : nat) : Prop := forall tr, exists n, (n < fuel)%nat /\
  Z.land (u8 (bd_in (tr ++ replicate n (Inb 0x1f7)) 0x1f7)) (Z.lor IDE_BSY IDE_DRDY) = IDE_DRDY.

Lemma idewait_ports n : forall x e,
  (exists j, (j < n)%nat /\
    Z.land (u8 (bd_in (m_trace x ++ replicate j (Inb 0x1f7)) 0x1f7)) (Z.lor IDE_BSY IDE_DRDY) = IDE_DRDY) ->
  quiet_as 0 (idewait (inb 0x1f7) n false) x e.
Proof.
  induction n as [|n IH]; intros x e (j & Hj & E); [lia|]. cbn [idewait]. unfold inb at 1, Machine.emit. 
  unfold quiet_as. mrun. cbn [andb]. set (x1 := x <| m_trace := m_trace x ++ [Inb 0x1f7] |>).
  destruct (Z.eqb_spec (Z.land (u8 (bd_in (m_trace x) 0x1f7)) (Z.lor IDE_BSY IDE_DRDY)) IDE_DRDY) as [E0|E0]; cbn [negb].
  - exists [Inb 0x1f7]. split; [done|by constructor].
  - destruct j as [|j]; [by rewrite app_nil_r in E|].
    destruct (IH x1 e) as (evs & R & Ho).
    + exists j. split; [lia|]. change (m_trace x1) with (m_trace x ++ [Inb 0x1f7]). by rewrite <-app_assoc.
    + exists (Inb 0x1f7 :: evs). split; [|by constructor]. etransitivity; [exact R|]. unfold x1. rsimpl. by rewrite <-app_assoc.
Qed.

Lemma find_disk1_run n : forall x e, exists b evs, find_disk1 n x e =
  Ret tt (x <| m_trace := m_trace x ++ evs |> <| m_havedisk1 := b |>) e /\ Forall off_ioapic evs.
Proof.
  induction n as [|n IH]; intros x e; cbn [find_disk1].
  - exists (m_havedisk1 x), []. split; [rewrite app_nil_r; by destruct x|constructor].
  - destruct (quiet_inb 0x1f7 x e) as (r & evs & R & Ho). rewrite (bind_Ret _ _ _ _ _ _ _ R). destruct (negb (r =? 0)).
    + by exists true, evs.
    + set (x1 := x <| m_trace := m_trace x ++ evs |>). destruct (IH x1 e) as (b & evs' & R' & Ho').
      exists b, (evs ++ evs'). split; [|by apply Forall_app]. rewrite R'. unfold x1. rsimpl. by rewrite app_assoc.
Qed.

(** [ideinit] enables the interrupts of the disk on the last processor. *)
Lemma ideinit_run fuel x e : gets_ready fuel -> exists b tr,
  ideinit fuel x e = Ret tt (x <| m_trace := tr |> <| m_havedisk1 := b |>) e /\
  ioapic_table tr (line_reg IRQ_IDE) = Some (u32 (T_IRQ0 + IRQ_IDE)) /\
  ioapic_table tr (dest_reg IRQ_IDE) = Some (u32 (Z.shiftl (m_ncpu x - 1) 24)).
Proof.
  intros Hd. unfold ideinit. mstep. cbv beta match.
  destruct (ioapicenable_run IRQ_IDE (m_ncpu x - 1) x e) as (t1 & R1 & E1). rewrite (bind_Ret _ _ _ _ _ _ _ R1).
  set (x1 := x <| m_trace := t1 |>). destruct (idewait_ports fuel x1 e (Hd (m_trace x1))) as (v2 & R2 & H2). rewrite (bind_Ret _ _ _ _ _ _ _ R2).
  unfold outb, Machine.emit. mstep. cbv beta match. set (x3 := _ <| m_trace := _ |>).
  destruct (find_disk1_run 1000 x3 e) as (b & v4 & R4 & H4). rewrite (bind_Ret _ _ _ _ _ _ _ R4). clear R4. unfold modify.
  exists b, (t1 ++ v2 ++ [Outb (u16 0x1f6) (u8 (Z.lor 0xe0 (Z.shiftl 1 4)))] ++ v4 ++ [Outb (u16 0x1f6) (u8 (Z.lor 0xe0 (Z.shiftl 0 4)))]).
  split; [unfold x3, x1; rsimpl; by rewrite <-!app_assoc|].
  rewrite (quiet_table t1) by (apply Forall_app; split; [done|]; constructor; [done|]; apply Forall_app; split; [done|]; by constructor).
  rewrite E1. by split.
Qed.
End Devices.

(** ** The kernel and the machine together *)

Lemma kern_bind {A B} (m : K A) (f : A -> M boot B) k x a k' e e' :
  m k [] = Ret a k' e' -> (kern m ≫= f) (mkboot k x) e = f a (mkboot k' x) e.
Proof. intros Hm. apply bind_Ret. unfold kern. cbn [bt_k]. by rewrite Hm. Qed.

Lemma kern_modify {B} g (f : unit -> M boot B) k x e : (kern (modify g) ≫= f) (mkboot k x) e = f tt (mkboot (g k) x) e.
Proof. reflexivity. Qed.

Lemma dev_bind {A B} (m : M mach A) (f : A -> M boot B) k x a x' e e' :
  m x [] = Ret a x' e' -> (dev m ≫= f) (mkboot k x) e = f a (mkboot k x') e.
Proof. intros Hm. apply bind_Ret. unfold dev. cbn [bt_m]. by rewrite Hm. Qed.

Section Start.
  Context `{Image} `{Devsw} `{Board} `{BootImage}.
  Context (Hend : KERNLINK <= im_end) (ids : list Z) (id : Z).
  Context (Hid : forall tr, Z.shiftr (u32 (bd_lapic tr ID)) 24 = id).
  Context (self : nat) (Hself : fst <$> list_find (fun i => i = id) (take NCPU ids) = Some self).
  Context (Hstarts : forall i, bd_starts i = true).
  Implicit Types (k : kernel) (x : mach) (l : list Z).

(** The processor finds itself in the table. *)
Lemma cpuid_run k x e : c_if (k_cpu k) = false -> found ids x -> exists evs,
  cpuid (mkboot k x) e = Ret (Z.of_nat self) (mkboot k (x <| m_trace := m_trace x ++ evs |>)) e /\ Forall off_ioapic evs.
Proof.
  intros Hif [Hl Hn Hi _]. unfold cpuid. mstep. cbv beta match. cbn [bt_k]. rewrite Hif.
  exists [Lapic_read ID]. split; [|by constructor].
  assert (lapicid x [] = Ret id (x <| m_trace := m_trace x ++ [Lapic_read ID] |>) []) as Hr.
  { unfold lapicid, lapicr, Machine.emit. mrun. rewrite (proj2 (Z.eqb_neq _ 0) Hl). mrun. by rewrite Hid. }
  rewrite (dev_bind _ _ _ _ _ _ _ _ Hr). do 2 (mstep; cbv beta match). cbn [bt_m]. rsimpl. rewrite Hi.
  destruct (list_find _ (take NCPU ids)) as [[i z]|]; [|done]. injection Hself as ->. done.
Qed.

Lemma self_lt x : found ids x -> (self < Z.to_nat (m_ncpu x))%nat.
Proof.
  intros [_ Hn Hi _]. destruct (list_find _ _) as [[i z]|] eqn:E; [|done]. injection Hself as ->.
  apply list_find_Some in E as (E & _). rewrite <-Hi in E. apply lookup_lt_Some in E. rewrite length_take in E. lia.
Qed.

(** The machine after [ideinit]: the interrupts of the disk go to the last
    processor, the gates of the interrupts are in place, and of the first [n]
    processors all but this one run. *)
Record set_up (n : nat) x : Prop := {
  su_found : found ids x;
  su_disk : im_memide = false -> ioapic_table (m_trace x) (line_reg IRQ_IDE) = Some (u32 (T_IRQ0 + IRQ_IDE)) /\
    ioapic_table (m_trace x) (dest_reg IRQ_IDE) = Some (u32 (Z.shiftl (m_ncpu x - 1) 24));
  su_gates j : 0 <= j < 256 -> m_idt x !! Z.to_nat j = Some (gate_of j);
  su_started i : (i < n)%nat -> i = self \/ m_started x !! i = Some true
}.

Lemma set_up_trace n x evs : set_up n x -> Forall off_ioapic evs -> set_up n (x <| m_trace := m_trace x ++ evs |>).
Proof. intros [Hf Hd Hg Hs] Ho. constructor; rsimpl; [by apply found_trace|by rewrite quiet_table|done|done]. Qed.

Lemma set_up_started n x i : set_up n x -> (i < Z.to_nat (m_ncpu x))%nat ->
  exists x', set_started i x [] = Ret tt x' [] /\ set_up n x' /\ m_ncpu x' = m_ncpu x /\ m_started x' = <[i := true]> (m_started x) /\
    m_idtr x' = m_idtr x.
Proof.
  intros [Hf Hd Hg Hs] Hi. eexists. split; [reflexivity|]. split; [|done]. constructor; rsimpl; [|done|done|].
  - destruct Hf. by constructor; rsimpl; rewrite ?length_insert.
  - intros j Hj. destruct (Hs j Hj) as [->|Hj']; [by left|right]. rewrite list_lookup_insert. by case_decide.
Qed.

Lemma booting_kalloc k l e : booting im_end k l ->
  exists v k' l', kalloc k e = Ret v k' e /\ booting im_end k' l' /\ forall w, w ∈ l' -> w ∈ l.
Proof.
  intros Hb. pose proof (booting_idle _ k l Hb) as Hi. pose proof (bg_free _ _ _ Hb) as Hf.
  rewrite (kalloc_run k im_end k e l Hi Hf). destruct l as [|v l]; [by exists 0, k, []|].
  eexists v, _, l. split; [done|]. split; [|set_solver].
  apply (booting_mem _ k (v :: l)); [done|by apply (idle_kmem k k (k_mem k))|by apply kalloc_free].
Qed.

Lemma reset_vector_low addr m y : im_end <= y -> reset_vector addr m y = m y.
Proof.
  intros Hy. unfold reset_vector. change (P2V (Z.lor (Z.shiftl 64 4) 103)) with (KERNBASE + 0x467).
  unfold KERNLINK, KERNBASE, EXTMEM in *. by rewrite !store_ne by lia.
Qed.

Lemma set_mem32_low k l a v e : booting im_end k l -> a + 4 <= im_end -> exists k', set_mem32 a v k e = Ret tt k' e /\ booting im_end k' l.
Proof.
  intros Hb Ha. unfold set_mem32, upd_mem. mrun. eexists. split; [done|]. apply booting_low; [done|].
  intros y Hy. apply store32_other. lia.
Qed.

Lemma booting_if k l : booting im_end k l -> c_if (k_cpu k) = false.
Proof. intros Hb. by rewrite (bg_cpu _ _ _ Hb). Qed.

(** One more processor. *)
Lemma startother_run i k x l e : booting im_end k l -> set_up i x -> (i < Z.to_nat (m_ncpu x))%nat ->
  exists k' x' l', startother i (mkboot k x) e = Ret tt (mkboot k' x') e /\ booting im_end k' l' /\ set_up (S i) x' /\
    m_ncpu x' = m_ncpu x /\ forall w, w ∈ l' -> w ∈ l.
Proof.
  intros Hb Hu Hi. unfold startother. destruct (cpuid_run k x e (booting_if k l Hb) (su_found _ _ Hu)) as (v1 & Hr & Ho1).
  rewrite (bind_Ret _ _ _ _ _ _ _ Hr). set (x1 := x <| m_trace := m_trace x ++ v1 |>).
  assert (set_up i x1) as Hu1 by by apply set_up_trace.
  destruct (Z.eqb_spec (Z.of_nat i) (Z.of_nat self)) as [Es|Hs].
  { exists k, x1, l. split; [done|]. split; [done|]. split; [|done]. destruct Hu1 as [? ? ? Hup]. constructor; try done.
    intros j Hj. destruct (decide (j = i)) as [->|]; [left; lia|]. apply Hup. lia. }
  destruct (booting_kalloc k l [] Hb) as (v & k1 & l1 & Hk & Hb1 & Hl1). rewrite (kern_bind _ _ _ _ _ _ _ _ Hk). clear Hk Hr.
  assert (P2V 0x7000 <= im_end) as Hlow by (apply (Z.le_trans _ KERNLINK); [done|exact Hend]).
  destruct (set_mem32_low k1 l1 (P2V 0x7000 - 4) (v + KSTACKSIZE) [] Hb1 ltac:(lia)) as (k2 & Hk & Hb2).
  rewrite (kern_bind _ _ _ _ _ _ _ _ Hk). clear Hk.
  destruct (set_mem32_low k2 l1 (P2V 0x7000 - 8) im_mpenter [] Hb2 ltac:(lia)) as (k3 & Hk & Hb3).
  rewrite (kern_bind _ _ _ _ _ _ _ _ Hk). clear Hk.
  destruct (set_mem32_low k3 l1 (P2V 0x7000 - 12) (V2P im_entrypgdir) [] Hb3 ltac:(lia)) as (k4 & Hk & Hb4).
  rewrite (kern_bind _ _ _ _ _ _ _ _ Hk). clear Hk. mrun. cbn [bt_m bt_k].
  destruct (found_cpu ids x1 i (su_found _ _ Hu1) Hi) as [a Ha]. rewrite Ha. cbn [deref]. do 2 (mstep; cbv beta match). cbn [bt_m bt_k].
  destruct (lapicstartap_run a (V2P (P2V 0x7000)) (k_mem k4) x1 []) as (v2 & Hr2 & Ho2).
  rewrite (dev_bind _ _ _ _ _ _ _ _ Hr2), kern_modify, Hstarts. clear Hr2.
  assert (set_up i (x1 <| m_trace := m_trace x1 ++ v2 |>)) as Hu2 by by apply set_up_trace.
  set (x2 := x1 <| m_trace := m_trace x1 ++ v2 |>) in *.
  destruct (set_up_started i x2 i Hu2 Hi) as (x3 & Hr3 & Hu3 & En & Est & _).
  eexists _, x3, l1. split; [unfold dev; cbn [bt_m]; by rewrite Hr3|]. split; [apply booting_low; [done|apply reset_vector_low]|].
  split; [|done]. destruct Hu3 as [? ? ? Hup]. constructor; try done. intros j Hj.
  destruct (decide (j = i)) as [->|]; [|apply Hup; lia]. right. rewrite Est. apply list_lookup_insert_eq.
  rewrite (fd_started _ _ (su_found _ _ Hu2)). destruct (su_found _ _ Hu2) as [_ Hn _ _]. change (m_ncpu x) with (m_ncpu x2) in Hi. unfold NCPU. lia.
Qed.

Lemma startothers_run k x l e : Z.of_nat (length im_entryother) <= PGSIZE -> booting im_end k l -> set_up 0 x ->
  exists k' x' l', startothers (mkboot k x) e = Ret tt (mkboot k' x') e /\ booting im_end k' l' /\ set_up (Z.to_nat (m_ncpu x')) x' /\
    forall w, w ∈ l' -> w ∈ l.
Proof.
  intros Ho Hb Hf. unfold startothers. rewrite kern_modify. set (k1 := k <| k_mem := _ |>).
  assert (booting im_end k1 l) as Hb1.
  { apply booting_low; [done|]. intros y Hy. apply store_bytes_out.
    change (P2V 0x7000) with (KERNBASE + 0x7000). unfold KERNLINK, KERNBASE, EXTMEM, PGSIZE in *. lia. }
  clearbody k1. mstep. cbv beta match. cbn [bt_m].
  destruct (for_seq_inv startother (fun t s => exists k' x' l', s = mkboot k' x' /\ booting im_end k' l' /\ set_up t x' /\
    m_ncpu x' = m_ncpu x /\ forall w, w ∈ l' -> w ∈ l) e (Z.to_nat (m_ncpu x)) 0 (mkboot k1 x)) as (s' & Hr & k' & x' & l' & -> & ? & ? & En & ?).
  - by exists k1, x, l.
  - intros t s Ht (k' & x' & l' & -> & Hb' & Hf' & En & Hl').
    destruct (startother_run t k' x' l' e Hb' Hf' ltac:(lia)) as (k2 & x2 & l2 & Hr & Hb2 & Hf2 & En2 & Hl2).
    eexists. split; [exact Hr|]. exists k2, x2, l2. split; [done|]. split; [done|]. split; [done|]. split; [congruence|]. intros w Hw. by apply Hl', Hl2.
  - exists k', x', l'. split; [done|]. split; [done|]. by rewrite En.
Qed.

Lemma cprintf_idle k fmt args cs e : idle k k -> cons_ok (k_cons k) -> format fmt args = Some cs ->
  exists c, cprintf fmt args k e = Ret tt (k <| k_cons := c |>) e /\ cons_ok c.
Proof.
  intros [Hc Hh Ht _] Hco Hcs. exists (Cprintf.emit cs (k_cons k)). split; [|by apply emit_ok].
  rewrite (cprintf_run fmt args cs k e Hc ltac:(rewrite Hh; apply not_elem_of_nil) Hco Hcs), Ht. by destruct (cons_locking (k_cons k)), k.
Qed.

(** [mpmain] tells which processor starts, and makes it ready for
    interrupts. *)
Lemma mpmain_run k x e : idle k k -> c_if (k_cpu k) = false -> cons_ok (k_cons k) -> set_up (Z.to_nat (m_ncpu x)) x ->
  exists c x', mpmain (mkboot k x) e = Ret tt (mkboot (k <| k_cons := c |>) x') e /\ cons_ok c /\
    set_up (Z.to_nat (m_ncpu x')) x' /\ m_idtr x' = Some (256 * 8 - 1) /\ m_started x' !! self = Some true.
Proof.
  intros Hi Hif Hco Hu. unfold mpmain. destruct (cpuid_run k x e Hif (su_found _ _ Hu)) as (v1 & R1 & H1').
  rewrite (bind_Ret _ _ _ _ _ _ _ R1). set (x1 := x <| m_trace := m_trace x ++ v1 |>).
  assert (set_up (Z.to_nat (m_ncpu x1)) x1) as Hu1 by by apply set_up_trace. clearbody x1. clear R1.
  destruct (cpuid_run k x1 e Hif (su_found _ _ Hu1)) as (v2 & R2 & H2'). rewrite (bind_Ret _ _ _ _ _ _ _ R2).
  set (x2 := x1 <| m_trace := m_trace x1 ++ v2 |>). assert (set_up (Z.to_nat (m_ncpu x2)) x2) as Hu2 by by apply set_up_trace. clearbody x2. clear R2.
  assert (exists cs, format (bytes "cpu%d: starting %d" ++ [10]) [PInt (Z.of_nat self); PInt (Z.of_nat self)] = Some cs) as [cs Hcs] by (by eexists).
  destruct (cprintf_idle k _ _ cs [] Hi Hco Hcs) as (c & R3 & Hc). rewrite (kern_bind _ _ _ _ _ _ _ _ R3). clear R3.
  set (x4 := x2 <| m_idtr := Some (256 * 8 - 1) |>).
  assert (idtinit x2 [] = Ret tt x4 []) as R4 by done. rewrite (dev_bind _ _ _ _ _ _ _ _ R4). clear R4.
  assert (set_up (Z.to_nat (m_ncpu x4)) x4) as Hu4 by (destruct Hu2 as [[] ? ? ?]; by constructor).
  set (k' := k <| k_cons := c |>). destruct (cpuid_run k' x4 e Hif (su_found _ _ Hu4)) as (v5 & R5 & H5').
  rewrite (bind_Ret _ _ _ _ _ _ _ R5). clear R5. set (x5 := x4 <| m_trace := m_trace x4 ++ v5 |>).
  assert (set_up (Z.to_nat (m_ncpu x5)) x5) as Hu5 by by apply set_up_trace. rewrite Nat2Z.id.
  destruct (set_up_started _ x5 self Hu5 (self_lt x5 (su_found _ _ Hu5))) as (x6 & R6 & Hu6 & En & Est & Eidt).
  exists c, x6. split; [unfold dev; cbn [bt_m]; by rewrite R6|]. split; [done|]. split; [by rewrite En|]. split; [by rewrite Eidt|].
  rewrite Est. apply list_lookup_insert_eq. rewrite (fd_started _ _ (su_found _ _ Hu5)).
  pose proof (self_lt x5 (su_found _ _ Hu5)). destruct (su_found _ _ Hu5) as [_ Hn _ _]. unfold NCPU. lia.
Qed.

(** The state in which [main] calls the scheduler: the invariant of the system
    holds, the first process is about to run its program in the root
    directory, there is no other process, the processors are known and all of
    them have started, the interrupt table is in place and loaded, and the
    disk, where there is a driver for one, has its interrupts enabled on the
    last processor. *)
Record started (s : boot) : Prop := {
  st_sys : sys_ok (bt_k s);
  st_first : exists p, k_procs (bt_k s) !! 0%nat = Some p /\ p_state p = RUNNABLE /\ p_pid p = 1 /\ p_tf p = user_tf /\
    p_sz p = PGSIZE /\ program_at (k_mem (bt_k s)) (p_pgdir p) im_initcode /\
    exists i r, p_cwd p = Some i /\ k_inodes (bt_k s) !! i = Some r /\ i_dev r = ROOTDEV /\ i_inum r = ROOTINO /\ i_ref r = 1;
  st_alone : forall j p, k_procs (bt_k s) !! j = Some p -> j <> 0%nat -> p_state p = UNUSED;
  st_cpus : found ids (bt_m s);
  st_up : forall i, (i < Z.to_nat (m_ncpu (bt_m s)))%nat -> m_started (bt_m s) !! i = Some true;
  st_idt : m_idtr (bt_m s) = Some (256 * 8 - 1) /\
    forall n, 0 <= n < 256 -> m_idt (bt_m s) !! Z.to_nat n = Some (gate_of n);
  st_disk : im_memide = false ->
    ioapic_table (m_trace (bt_m s)) (line_reg IRQ_IDE) = Some (u32 (T_IRQ0 + IRQ_IDE)) /\
    ioapic_table (m_trace (bt_m s)) (dest_reg IRQ_IDE) = Some (u32 (Z.shiftl (m_ncpu (bt_m s) - 1) 24))
}.

Lemma first_sys_ok k l kstack tickets d m f c : booting im_end k l ->
  sys_ok (k <| k_procs := first_proc kstack tickets d :: replicate 63 zero_proc |> <| k_nextpid := 2 |> <| k_initproc := Some 0%nat |>
    <| k_inodes := alter (fresh_ino ROOTDEV ROOTINO) 0%nat (k_inodes k) |> <| k_mem := m |> <| k_kmem := f |> <| k_cons := c |>).
Proof.
  intros [Hs Hc _ Hbufs _]. assert (forall j q, (first_proc kstack tickets d :: replicate 63 zero_proc) !! j = Some q ->
    j = 0%nat /\ q = first_proc kstack tickets d \/ q = zero_proc) as Hq.
  { intros [|j] q E; [by injection E as <-; left|]. right. by apply lookup_replicate_1 in E as [-> _]. }
  split; [split; constructor|]; rsimpl.
  - intros j q i [[_ ->]| ->]%Hq; done.
  - intros j q [[-> _]| ->]%Hq Ha Hj; [done|]. by destruct Ha.
  - split; [done|]. eexists. split; [done|]. done.
  - reflexivity.
  - apply Forall_cons. split; [by vm_compute|]. apply Forall_replicate. by vm_compute.
  - by rewrite Hs.
  - rewrite length_alter. by rewrite Hs.
  - done.
  - by rewrite Hs.
  - by rewrite Hs.
  - intros i. rsimpl. by rewrite Hc.
Qed.

Lemma booting_kmem k l b : booting im_end k l -> booting im_end (k <| k_kmem := k_kmem k <| km_use_lock := b |> |>) l.
Proof.
  intros Hb. pose proof (booting_idle _ k l Hb) as Hi. apply (booting_mem _ k l); [done| |].
  - apply (idle_kmem k k (k_mem k) (k_kmem k <| km_use_lock := b |>)) in Hi. by destruct k.
  - destruct (bg_free _ _ _ Hb). by constructor.
Qed.

(** The end of [main]. *)
Lemma main_end k x l e : im_data mod PGSIZE = 0 -> KERNLINK < im_data < KERNBASE + PHYSTOP -> Z.of_nat (length im_initcode) < PGSIZE ->
  Z.of_nat (length im_entryother) <= PGSIZE -> im_end <= P2V (4 * 1024 * 1024) ->
  booting im_end k l -> (forall w, w ∈ l -> w + PGSIZE <= P2V (4 * 1024 * 1024)) -> set_up 0 x ->
  exists s', (startothers ;; kern (kinit2 im_end (P2V (4 * 1024 * 1024)) (P2V PHYSTOP)) ;; kern userinit ;; mpmain) (mkboot k x) e = Ret tt s' e /\
    started s'.
Proof.
  intros Hdm Hdata Hinit Hother H4 Hb Hl Hf.
  destruct (startothers_run k x l e Hother Hb Hf) as (k1 & x1 & l1 & Hr & Hb1 & Hf1 & Hl1). rewrite (bind_Ret _ _ _ _ _ _ _ Hr). clear Hr.
  destruct (booting_freerange im_end k1 l1 [] (P2V (4 * 1024 * 1024)) (P2V PHYSTOP) Hb1) as (k2 & l2 & Hr & Hb2 & _ & Hlen & _); try done.
  { intros w Hw%Hl1%Hl. change (PGROUNDUP (P2V (4 * 1024 * 1024))) with (P2V (4 * 1024 * 1024)). unfold PGSIZE in *. lia. }
  set (k3 := k2 <| k_kmem := k_kmem k2 <| km_use_lock := true |> |>).
  assert (kinit2 im_end (P2V (4 * 1024 * 1024)) (P2V PHYSTOP) k1 [] = Ret tt k3 []) as Hk.
  { unfold kinit2. rewrite (bind_Ret _ _ _ _ _ _ _ Hr). done. }
  assert (booting im_end k3 l2) as Hb3 by by apply booting_kmem.
  rewrite (kern_bind _ _ _ _ _ _ _ _ Hk). clear Hr Hk. clearbody k3.
  assert (516 <= length l2)%nat as H516.
  { rewrite Hlen. apply Nat.le_trans with (Z.to_nat 516); [done|].
    eapply Nat.le_trans; [|apply Nat.le_add_r]. apply Z2Nat.inj_le; [done|by vm_compute|by vm_compute]. }
  assert (KERNBASE < im_end) as HK by (unfold KERNLINK, EXTMEM in *; lia).
  destruct (userinit_run HK Hdm Hdata Hinit k3 l2 [] Hb3 H516) as (ks & tk & d & m & f & Hr & Hprog).
  rewrite (kern_bind _ _ _ _ _ _ _ _ Hr). clear Hr.
  match goal with |- context [mpmain (mkboot ?s _)] => set (k4 := s) end.
  destruct (mpmain_run k4 x1 e (boot_idle k4 _ (bg_cpu _ _ _ Hb3)) (booting_if k3 l2 Hb3) (bg_cons _ _ _ Hb3) Hf1)
    as (c & x2 & Hr & _ & [Hf2 Hdisk Hg Hup] & Hidt & Hself'). eexists. split; [exact Hr|].
  clear Hr. unfold k4. constructor; cbn [bt_k bt_m]; [by apply (first_sys_ok k3 l2)| | |done| |done|done].
  - eexists. rsimpl. split; [done|]. split_and!; try done.
    destruct (booting_tables k3 l2 Hb3) as (_ & _ & _ & Ei). rewrite Ei. by eexists 0%nat, _.
  - rsimpl. intros [|j] q E; [done|]. intros _. by apply lookup_replicate_1 in E as [-> _].
  - intros i Hi. by destruct (Hup i Hi) as [->|].
Qed.

(** ** The devices, the console and the buffer cache *)

Lemma uart_all cs : forall k e, cons_ok (k_cons k) -> exists c, for_each cs uartputc k e = Ret tt (k <| k_cons := c |>) e /\ cons_ok c.
Proof.
  induction cs as [|c cs IH]; intros k e Hok; cbn [for_each].
  - exists (k_cons k). split; [by destruct k|done].
  - assert (exists d, uartputc c k e = Ret tt (k <| k_cons := d |>) e /\ cons_ok d) as (d & Hr & Hd).
    { unfold uartputc. mrun. destruct (cons_uart (k_cons k)); cbn [negb]; mrun.
      - eexists. split; [done|]. by destruct Hok.
      - exists (k_cons k). split; [by destruct k|done]. }
    rewrite (bind_Ret _ _ _ _ _ _ _ Hr). set (k1 := k <| k_cons := d |>). destruct (IH k1 e) as (c' & Hr' & Hc'); [done|].
    exists c'. split; [exact Hr'|done].
Qed.

(** Before [binit] the buffers are zero. *)
Definition early k l : Prop := booting im_end k l /\ k_bufs k = replicate (S NBUF) zero_buf.

Lemma early_cons k l c : early k l -> cons_ok c -> early (k <| k_cons := c |>) l.
Proof. intros [Hb E] Hc. split; [by apply booting_cons|done]. Qed.

Lemma set_bufs_twice (k : kernel) bs bs' : k <| k_bufs := bs |> <| k_bufs := bs' |> = k <| k_bufs := bs' |>.
Proof. by destruct k. Qed.

Lemma early_binit k l : early k l -> exists k', binit k [] = Ret tt k' [] /\ booting im_end k' l.
Proof.
  intros [Hb E]. destruct (binit_run k []) as (bs & Hr & _ & Hbs).
  assert (k <| k_bufs := replicate (S NBUF) zero_buf |> = k) as Ek by (rewrite <-E; by destruct k). rewrite Ek in Hr.
  eexists. split; [exact Hr|]. destruct Hb as [Hs Hc Hco _ [H3 H4 H5]]. constructor; [|done|done| |by constructor].
  - apply (f_equal (fun s : kernel => s <| k_bufs := bs |>)) in Hs. rewrite set_bufs_twice in Hs. rsimpl. exact Hs.
  - rsimpl. apply (f_equal length) in Hbs. by rewrite length_map in Hbs.
Qed.

Lemma seginit_run x e : exists g n, seginit x e = Ret tt (x <| m_gdt := g |> <| m_gdtr := n |>) e.
Proof. unfold seginit. mrun. by eexists _, _. Qed.

(** The local interrupt controller, the segments, and the interrupt
    controllers. *)
Lemma main_interrupts fuel k x (R : bool -> M boot unit) e : delivers fuel -> c_if (k_cpu k) = false -> found ids x ->
  exists b x', (dev (lapicinit fuel) ;; cpuid ;; dev seginit ;; dev picinit ;; d ← dev ioapicinit; R d) (mkboot k x) e = R b (mkboot k x') e /\
    found ids x' /\ m_idt x' = m_idt x.
Proof.
  intros Hd Hif Hf. destruct (traced_lapicinit fuel Hd x []) as ([] & t1 & R1). rewrite (dev_bind _ _ _ _ _ _ _ _ R1).
  set (x1 := x <| m_trace := t1 |>). assert (found ids x1) as Hf1 by by apply found_trace.
  destruct (cpuid_run k x1 e Hif Hf1) as (v2 & R2 & _). rewrite (bind_Ret _ _ _ _ _ _ _ R2). set (x2 := x1 <| m_trace := m_trace x1 ++ v2 |>).
  destruct (seginit_run x2 []) as (g & n & R3). rewrite (dev_bind _ _ _ _ _ _ _ _ R3). set (x3 := x2 <| m_gdt := g |> <| m_gdtr := n |>).
  destruct (traced_picinit x3 []) as ([] & t4 & R4). rewrite (dev_bind _ _ _ _ _ _ _ _ R4). set (x4 := x3 <| m_trace := t4 |>).
  destruct (traced_ioapicinit x4 []) as (b & t5 & R5). rewrite (dev_bind _ _ _ _ _ _ _ _ R5).
  exists b, (x4 <| m_trace := t5 |>). split; [done|]. split; [|done]. apply found_trace. by destruct Hf1.
Qed.

(** The console, the serial port, the interrupt vectors, the buffers and the
    disk. *)
Lemma main_console fuel k x l (d : bool) (R : M boot unit) e :
  early k l -> found ids x -> length (m_idt x) = 256%nat -> (im_memide = false -> gets_ready fuel) ->
  exists k' x', ((if d then kern (cprintf (bytes "ioapicinit: id isn't equal to ioapicid; not a MP" ++ [10]) []) else mret tt) ;;
    kern consoleinit ;; dev (ioapicenable IRQ_KBD 0) ;; uart ← dev uartinit;
    (if uart : bool then
       kern (modify (fun k => k <| k_cons := k_cons k <| cons_uart := true |> |>)) ;;
       kern (for_each (bytes "xv6..." ++ [10]) uartputc)
     else mret tt) ;;
    dev tvinit ;; kern binit ;; (if im_memide then mret tt else dev (ideinit fuel)) ;; R) (mkboot k x) e = R (mkboot k' x') e /\
    booting im_end k' l /\ set_up 0 x'.
Proof.
  intros He Hf Hidt Hdisk.
  assert (exists k1, (if d then kern (cprintf (bytes "ioapicinit: id isn't equal to ioapicid; not a MP" ++ [10]) []) else mret tt) (mkboot k x) e =
    Ret tt (mkboot k1 x) e /\ early k1 l) as (k1 & R1 & He1).
  { destruct d; [|by exists k]. destruct He as [Hb E].
    destruct (cprintf_idle k (bytes "ioapicinit: id isn't equal to ioapicid; not a MP" ++ [10]) [] _ [] (booting_idle _ k l Hb) (bg_cons _ _ _ Hb) eq_refl)
      as (c & Hr & Hc). eexists. split; [unfold kern; cbn [bt_k]; by rewrite Hr|by apply early_cons]. }
  rewrite (bind_Ret _ _ _ _ _ _ _ R1). clear R1. unfold consoleinit. rewrite kern_modify.
  set (k2 := k1 <| k_cons := _ |>). assert (early k2 l) as He2 by (apply early_cons; [done|by destruct (bg_cons _ _ _ (proj1 He1))]). clearbody k2.
  destruct (traced_ioapicenable IRQ_KBD 0 x []) as ([] & t1 & R2). rewrite (dev_bind _ _ _ _ _ _ _ _ R2). set (x1 := x <| m_trace := t1 |>).
  destruct (traced_uartinit x1 []) as (b & t2 & R3). rewrite (dev_bind _ _ _ _ _ _ _ _ R3). clear R2 R3. set (x2 := x1 <| m_trace := t2 |>).
  assert (exists k3, (if b then kern (modify (fun k => k <| k_cons := k_cons k <| cons_uart := true |> |>)) ;;
       kern (for_each (bytes "xv6..." ++ [10]) uartputc) else mret tt) (mkboot k2 x2) e = Ret tt (mkboot k3 x2) e /\ early k3 l) as (k3 & R4 & He3).
  { destruct b; [|by exists k2]. rewrite kern_modify. set (k3 := k2 <| k_cons := _ |>).
    assert (cons_ok (k_cons k3)) as Hc3 by (by destruct (bg_cons _ _ _ (proj1 He2))).
    destruct (uart_all (bytes "xv6..." ++ [10]) k3 [] Hc3) as (c & Hr & Hc).
    eexists. split; [unfold kern; cbn [bt_k]; by rewrite Hr|]. by apply early_cons; [apply early_cons|]. }
  rewrite (bind_Ret _ _ _ _ _ _ _ R4). clear R4. destruct (tvinit_run x2 [] Hidt) as (idt & R5 & Hg). rewrite (dev_bind _ _ _ _ _ _ _ _ R5).
  destruct (early_binit k3 l He3) as (k4 & R6 & Hb4). rewrite (kern_bind _ _ _ _ _ _ _ _ R6).
  set (x3 := x2 <| m_idt := idt |>). assert (found ids x3) as Hf3 by (by destruct Hf). exists k4.
  destruct im_memide eqn:Em.
  - exists x3. split; [done|]. split; [done|]. constructor; [done|by rewrite Em|done|lia].
  - destruct (ideinit_run fuel x3 [] (Hdisk eq_refl)) as (hd & t4 & R7 & El & Ed). eexists.
    split; [by rewrite (dev_bind _ _ _ _ _ _ _ _ R7)|]. split; [done|]. constructor; [by destruct Hf3|done|done|lia].
Qed.

(** ** The memory *)

(** The machine when [main] is called: [m0] holds what the BIOS and the boot
    loader left. *)
Definition power_on (m0 : mem) : boot :=
  mkboot (boot_kernel <| k_cons := k_cons boot_kernel <| cons_uart := false |> |> <| k_mem := m0 |>) boot_mach.

Lemma power_on_early m0 : early (bt_k (power_on m0)) [].
Proof. split; [|reflexivity]. constructor; [reflexivity|reflexivity|by split|reflexivity|]. by constructor; [|constructor..]. Qed.

Lemma main_kinit1 m0 : im_end <= P2V (4 * 1024 * 1024 - 514 * PGSIZE) ->
  exists k l, kinit1 im_end im_end (P2V (4 * 1024 * 1024)) (bt_k (power_on m0)) [] = Ret tt k [] /\ early k l /\ (514 <= length l)%nat /\
    (forall w, w ∈ l -> w + PGSIZE <= P2V (4 * 1024 * 1024)) /\ forall y, y < im_end -> k_mem k y = m0 y.
Proof.
  intros H4. destruct (power_on_early m0) as [Hb Ebufs]. unfold kinit1.
  set (k0 := bt_k (power_on m0)) in *. change (P2V (4 * 1024 * 1024 - 514 * PGSIZE)) with (KERNBASE + 0x1fe000) in H4.
  assert (PGROUNDUP im_end mod PGSIZE = 0 /\ im_end <= PGROUNDUP im_end <= KERNBASE + 0x1fe000) as [Hm Hup].
  { change (PGROUNDUP im_end) with (PGROUNDDOWN (u32 (im_end + PGSIZE - 1))).
    rewrite PGROUNDDOWN_mod, u32_small by (unfold KERNLINK, EXTMEM, KERNBASE, PGSIZE in *; lia).
    unfold KERNLINK, EXTMEM, KERNBASE, PGSIZE in *. Z.div_mod_to_equations. lia. }
  mstep. cbv beta match. set (k1 := k0 <| k_kmem := _ |>). assert (booting im_end k1 []) as Hb1 by by apply booting_kmem.
  destruct (booting_freerange im_end k1 [] [] im_end (P2V (4 * 1024 * 1024)) Hb1) as (k & l & Hr & Hbk & [_ _ _ (m & f & Ek)] & Hlen & Hw & Hlow);
    [lia|unfold KERNLINK, EXTMEM, KERNBASE in *; lia|done|unfold KERNLINK, EXTMEM in *; lia|done|by intros w ?%not_elem_of_nil|].
  exists k, l. split; [exact Hr|]. split; [split; [done|by rewrite Ek]|]. split; [|split; [|done]].
  - rewrite Hlen. cbn [length]. rewrite Nat.add_0_r. apply Nat.le_trans with (Z.to_nat 514); [done|].
    change (P2V (4 * 1024 * 1024)) with (KERNBASE + 0x400000). apply Z2Nat.inj_le; [done|unfold KERNBASE, PGSIZE in *; Z.div_mod_to_equations; lia..].
  - intros w [?|?%not_elem_of_nil]%Hw; done.
Qed.

Lemma same_pgdir (k0 k : kernel) d c :
  k = k0 <| k_cpu := k_cpu k |> <| k_cons := k_cons k |> <| k_mem := k_mem k |> <| k_kmem := k_kmem k |>
    <| k_kpgdir := k_kpgdir k |> <| k_bufs := k_bufs k |> ->
  k <| k_kpgdir := d |> <| k_cpu := c |> = k0 <| k_cpu := c |> <| k_cons := k_cons k |> <| k_mem := k_mem k |>
    <| k_kmem := k_kmem k |> <| k_kpgdir := d |> <| k_bufs := k_bufs k |>.
Proof. intros E. apply (f_equal (fun s : kernel => s <| k_kpgdir := d |> <| k_cpu := c |>)) in E. etransitivity; [exact E|]. by destruct k0. Qed.

Lemma kvmalloc_run k l : im_data mod PGSIZE = 0 -> KERNLINK < im_data < KERNBASE + PHYSTOP -> early k l -> (514 <= length l)%nat ->
  exists k' l', kvmalloc im_end im_data k [] = Ret tt k' [] /\ early k' l' /\ (forall w, w ∈ l' -> w ∈ l) /\
    forall y, y < im_end -> k_mem k' y = k_mem k y.
Proof.
  intros Hdm Hdata [Hb Ebufs] Hlen. assert (KERNBASE < im_end) as HK by (unfold KERNLINK, EXTMEM in *; lia).
  destruct (setupkvm_run k im_end im_data HK Hdm Hdata k l [] (booting_idle _ k l Hb) (bg_free _ _ _ Hb)) as (d & k1 & Hr & Hd).
  destruct Hd as [(_ & _ & ?)|(Hd & l1 & Hi1 & Hok & Hmade & _ & _ & Elow & _)]; [lia|].
  pose proof (booting_mem _ k l k1 l1 Hb Hi1 (pd_free _ _ _ _ Hok)) as Hb1. destruct Hi1 as [_ _ _ (m & f & Ek)].
  unfold kvmalloc. rewrite (bind_Ret _ _ _ _ _ _ _ Hr). mstep. cbv beta match. unfold switchkvm, modify.
  eexists _, l1. split; [reflexivity|]. split; [split; [|by rewrite Ek]|split; [|exact Elow]].
  - destruct Hb1 as [Hs Hc Hco Hbufs [H3 H4 H5]]. constructor; [|rsimpl; by rewrite Hc|done|done|by constructor].
    rsimpl. by apply (same_pgdir boot_kernel).
  - intros w Hw. apply dec_stable. intros Hn. pose proof (fp_pages _ _ _ (pd_free _ _ _ _ Hok)) as Hp. rewrite Forall_forall in Hp.
    by destruct (proj2 (Hmade w) (conj (Hp w Hw) Hn)) as (_ & ? & _).
Qed.
End Start.

(** ** The theorem *)

Section Ready.
  Context `{Image} `{Devsw} `{Board} `{BootImage}.

(** The table of processors that the BIOS left in memory. *)
Record bios_table (conf mp : Z) (es : list mp_entry) (m : mem) : Prop := {
  bt_found : mpconfig m = Some (conf, mp);
  bt_length : u8 (m (conf + 4)) + 256 * u8 (m (conf + 5)) = sizeof_mpconf + Z.of_nat (length (table_bytes es));
  bt_bytes : bytes_at (conf + sizeof_mpconf) (length (table_bytes es)) m = table_bytes es;
  bt_lapic : load32 (conf + 36) m <> 0
}.

(** What [main] needs: the kernel ends well below 4 megabytes, its parts have
    the sizes that the linker script gives them, the table of the BIOS lies
    below the end of the kernel and lists the processor that boots, the
    controller delivers its messages, the other processors start, and the disk,
    where the kernel has the driver of ide.c, gets ready. *)
Record ready (fuel : nat) (m0 : mem) (conf mp : Z) (es : list mp_entry) : Prop := {
  rd_end : KERNLINK <= im_end <= P2V (4 * 1024 * 1024 - 514 * PGSIZE);
  rd_data : im_data mod PGSIZE = 0 /\ KERNLINK < im_data < KERNBASE + PHYSTOP;
  rd_code : Z.of_nat (length im_initcode) < PGSIZE /\ Z.of_nat (length im_entryother) <= PGSIZE;
  rd_bios : forall m, (forall y, y < im_end -> m y = m0 y) -> bios_table conf mp es m;
  rd_entries : Forall entry_ok es /\ (length es <= fuel)%nat;
  rd_self : exists id, id ∈ take NCPU (apicids_of es) /\ forall tr, Z.shiftr (u32 (bd_lapic tr ID)) 24 = id;
  rd_lapic : delivers fuel;
  rd_starts : forall i, bd_starts i = true;
  rd_disk : im_memide = false -> gets_ready fuel
}.

(** C5: the kernel starts.  On a machine that is ready (the BIOS's table of
    processors is there, the devices and the other processors answer, the
    kernel has the sizes that its link script gives it), [main] reaches the
    call of the scheduler.  There the invariant of the whole system holds, with
    which the theorems about traps begin; process 0 is ready to run the first
    program, which is in its memory at address 0, from the root directory;
    there is no other process; the processors of the BIOS's table are known and
    have all started; the interrupt table is loaded, with its gates; and in a
    kernel with the driver of ide.c, the interrupts of the disk are enabled on
    the last processor. *)
Theorem kernel_starts fuel m0 conf mp es : ready fuel m0 conf mp es ->
  exists s', main fuel (power_on m0) [] = Ret tt s' [] /\ started (apicids_of es) s'.
Proof.
  intros [[He1 He2] [Hd1 Hd2] [Hc1 Hc2] Hbios [Hes Hfuel] (id & Hin & Hid) Hl Hst Hdisk]. unfold main.
  destruct (list_find_elem_of (fun i => i = id) (take NCPU (apicids_of es)) id Hin eq_refl) as [[self z] Hfind].
  assert (fst <$> list_find (fun i => i = id) (take NCPU (apicids_of es)) = Some self) as Hself by (by rewrite Hfind). clear Hfind z.
  destruct (main_kinit1 He1 m0 He2) as (k1 & l1 & R1 & Hk1 & Hlen & Hw1 & E1).
  destruct (kvmalloc_run He1 k1 l1 Hd1 Hd2 Hk1 Hlen) as (k2 & l2 & R2 & Hk2 & Hw2 & E2).
  destruct (Hbios (k_mem k2)) as [Hb1 Hb2 Hb3 Hb4]; [intros y Hy; by rewrite E2, E1|].
  destruct (mpinit_run (k_mem k2) conf mp es fuel [] Hb1 Hes Hb2 Hb3 Hfuel) as (x3 & R3 & Hn & Hi & Hla & Hidt & Hup).
  assert (found (apicids_of es) x3) as Hf3 by (constructor; [by rewrite Hla|done|done|by rewrite Hup]).
  unfold power_on at 1. rewrite (kern_bind _ _ _ _ _ _ _ _ R1), (kern_bind _ _ _ _ _ _ _ _ R2). mstep. cbv beta match. cbn [bt_k].
  rewrite (dev_bind _ _ _ _ _ _ _ _ R3).
  match goal with |- context [dev ioapicinit ≫= ?R] =>
    destruct (main_interrupts (apicids_of es) id Hid self Hself fuel k2 x3 R [] Hl (booting_if k2 l2 (proj1 Hk2)) Hf3) as (b & x4 & R4 & Hf4 & Hidt4) end.
  rewrite R4. clear R4.
  match goal with |- context [(if im_memide then _ else _) ≫= ?R] =>
    destruct (main_console (apicids_of es) self fuel k2 x4 l2 b (R tt) [] Hk2 Hf4) as (k5 & x5 & R5 & Hk5 & Hf5); [by rewrite Hidt4, Hidt|done|] end.
  destruct (main_end He1 (apicids_of es) id Hid self Hself Hst k5 x5 l2 [] Hd1 Hd2 Hc1 Hc2) as (s' & R6 & Hs'); [|done| |done|].
  { apply (Z.le_trans _ _ _ He2). done. }
  { intros w Hw. by apply Hw1, Hw2. }
  exists s'. split; [|done]. etransitivity; [exact R5|exact R6].
Qed.
End Ready.

(** ** Instance: a machine with two processors and a disk *)

Lemma bytes_at_ext a n m m' : (forall y, a <= y < a + Z.of_nat n -> m y = m' y) -> bytes_at a n m = bytes_at a n m'.
Proof. intros E. unfold bytes_at. apply list_fmap_ext. intros i j Hj%lookup_seq. f_equal. apply E. lia. Qed.

(** The structure is at 0xF0000, to which the word at 0x40E points. *)
Definition demo_table : list mp_entry := [Mp_proc 0 (replicate 18 0); Mp_proc 1 (replicate 18 0); Mp_ioapic 2 (replicate 6 0)].
Definition demo_mpconf : list Z :=
  bytes "PCMP" ++ [92; 0; 1; 144] ++ replicate 28 0 ++ [0; 0; 224; 254] ++ replicate 4 0 ++ table_bytes demo_table.
Definition demo_memory : mem :=
  store_bytes (P2V 0xF1000) demo_mpconf (store_bytes (P2V 0xF0000) (bytes "_MP_" ++ [0; 16; 15; 0] ++ [1; 4; 129; 0] ++ replicate 4 0)
    (store_bytes (P2V 0x40F) [0xF0] (fun _ => 0))).

#[local] Instance demo_image : Image :=
  { im_end := KERNBASE + 0x1154a8; im_data := KERNBASE + 0x109000; im_forkret := KERNBASE + 0x103c00; im_initcode := [0xEB; 0xFE] }.
#[local] Instance demo_boot_image : BootImage := { im_entryother := [0xFA; 0xF4]; im_mpenter := KERNBASE + 0x102e00; im_entrypgdir := KERNBASE + 0x109000;
  im_memide := false }.
#[local] Instance demo_machine : Board := {
  bd_in := fun _ port => if port =? 0x1f7 then IDE_DRDY else 0;
  bd_lapic := fun _ _ => 0;
  bd_ioapic := fun _ => 0x2170000;
  bd_vectors := fun n => KERNBASE + 16 * (n mod 256);
  bd_starts := fun _ => true;
  bd_insl := fun _ => replicate 512 0
}.

Lemma demo_bios_table m : (forall y, y < im_end -> m y = demo_memory y) -> bios_table (P2V 0xF1000) (P2V 0xF0000) demo_table m.
Proof.
  intros E. cbn [im_end demo_image] in E.
  assert (forall a n, a + Z.of_nat n <= KERNBASE + 0x1154a8 -> bytes_at a n m = bytes_at a n demo_memory) as Eb.
  { intros a n Ha. apply bytes_at_ext. intros y Hy. apply E. lia. }
  assert (forall a, a + 4 <= KERNBASE + 0x1154a8 -> load32 a m = load32 a demo_memory) as El.
  { intros a Ha. apply load32_ext. intros y Hy. apply E. lia. }
  constructor.
  - assert (mpsearch m = Some (P2V 0xF0000)) as Es.
    { unfold mpsearch. rewrite !E by done. change (Z.shiftl (Z.lor (Z.shiftl (u8 (demo_memory (P2V 0x400 + 15))) 8) (u8 (demo_memory (P2V 0x400 + 14)))) 4) with 0xF0000.
      change (negb (0xF0000 =? 0)) with true. cbv match. unfold mpsearch1. change (seq 0 (Z.to_nat (1024 / sizeof_mp))) with (0%nat :: seq 1 63). cbn [map find].
      unfold has_signature, sum. rewrite !Eb by done. by vm_compute. }
    unfold mpconfig, has_signature, sum. rewrite Es, !El by done. change (P2V (load32 (P2V 0xF0000 + 4) demo_memory)) with (P2V 0xF1000).
    rewrite !E by done. change (Z.to_nat _) with 92%nat. rewrite !Eb by done. by vm_compute.
  - rewrite !E by done. by vm_compute.
  - rewrite Eb by done. by vm_compute.
  - rewrite El by done. by vm_compute.
Qed.

Lemma demo_ready : ready 10 demo_memory (P2V 0xF1000) (P2V 0xF0000) demo_table.
Proof.
  constructor; [by split|by split|by split|exact demo_bios_table| | | |done|].
  - split; [repeat constructor|simpl; lia].
  - exists 0. split; [left|done].
  - intros tr. exists 0%nat. split; [lia|done].
  - intros _ tr. exists 0%nat. split; [lia|done].
Qed.

Lemma kernel_starts_witness : exists s', main 10 (power_on demo_memory) [] = Ret tt s' [] /\ sys_ok (bt_k s') /\ m_ncpu (bt_m s') = 2 /\
  m_started (bt_m s') !! 1%nat = Some true /\ ioapic_table (m_trace (bt_m s')) (dest_reg IRQ_IDE) = Some 0x1000000.
Proof.
  destruct (kernel_starts 10 demo_memory _ _ _ demo_ready) as (s' & Hr & Hs). exists s'.
  assert (m_ncpu (bt_m s') = 2) as Hn by apply (fd_ncpu _ _ (st_cpus _ _ Hs)).
  split; [exact Hr|]. split; [apply (st_sys _ _ Hs)|]. split; [exact Hn|]. split.
  - apply (st_up _ _ Hs). rewrite Hn. simpl. lia.
  - destruct (st_disk _ _ Hs eq_refl) as [_ E]. rewrite Hn in E. exact E.
Defined.
