(* ===== verification/UserLib.v ===== *)
(** The library of the user programs (ulib.c, printf.c) on an interface of
    system calls: what a call returns, and the bytes it stores in the memory of
    the program, are up to the operating system.  A C string is the list of
    its bytes without the NUL; a [char] array is the list of its bytes. *)

From S2P Require Import Prelude Types Cprintf.

(** ** System calls *)

Inductive sysreq : Type :=
| Read (fd n : Z)
| Write (fd : Z) (b : list Z)
| Open (path : list Z) (mode : Z)
| Close (fd : Z)
| Dup (fd : Z)
| Pipe
| Fstat (fd : Z)
| Unlink (path : list Z)
| Mkdir (path : list Z)
| Mknod (path : list Z) (major minor : Z)
| Link (old new : list Z)
| Chdir (path : list Z)
| Fork
| Wait
| Exec (path : list Z) (argv : list (list Z))
| Kill (pid : Z)
| Sbrk (n : Z).

(** The operating system: the value in [eax] and the bytes it stores. *)
Class Os (W : Type) : Type := os_call : sysreq -> W -> Z * list Z * W.

Section Ulib.
  Context {W : Type} `{Os W}.

Definition sys (r : sysreq) : M W (Z * list Z) := fun w e =>
  let '(v, b, w') := os_call r w in Ret (v, b) w' e.

(** A call of which only the value is used. *)
Definition sysv (r : sysreq) : M W Z := x ← sys r; mret (fst x).

(** [exit()] does not return. *)
Definition exit {A} : M W A := park.

(** ** ulib.c *)

(** [strcpy(s, t)]: into the array [s]. *)
Definition strcpy (s t : list Z) : M W (list Z) :=
  if (length t <? length s)%nat then mret (t ++ 0 :: drop (S (length t)) s) else undef "strcpy: overrun".

Fixpoint strcmp (p q : list Z) : Z :=
  match p, q with
  | x :: p, y :: q => if x =? y then strcmp p q else u8 x - u8 y
  | x :: _, [] => u8 x
  | [], y :: _ => - u8 y
  | [], [] => 0
  end.

Definition strlen (s : list Z) : Z := u32 (Z.of_nat (length s)).

(** [memset(dst, c, n)] and [memmove(dst, src, n)] in the array [l]: bytes
    [d .. d+n-1].  The copy goes upwards. *)
Definition memset (l : list Z) (d : nat) (c : Z) (n : nat) : M W (list Z) :=
  if (d + n <=? length l)%nat
  then mret (fold_left (fun l i => <[(d + i)%nat := u8 c]> l) (seq 0 n) l) else undef "memset: overrun".
Definition memmove (l : list Z) (d s n : nat) : M W (list Z) :=
  if (d + n <=? length l)%nat && (s + n <=? length l)%nat
  then mret (fold_left (fun l i => <[(d + i)%nat := default 0 (l !! (s + i)%nat)]> l) (seq 0 n) l) else undef "memmove: overrun".

(** The index of the first [c] in the string. *)
Fixpoint strchr (s : list Z) (c : Z) : option nat :=
  match s with
  | [] => None
  | x :: s => if x =? c then Some 0%nat else S <$> strchr s c
  end.

(** [gets(buf, max)]: the bytes put in [buf] before the NUL. *)
Fixpoint gets_loop (fuel : nat) : M W (list Z) :=
  match fuel with
  | O => mret []
  | S fuel =>
      r ← sys (Read 0 1);
      match r with
      | (cc, c :: _) =>
          if cc <? 1 then mret [] else
          if (c =? 10) || (c =? 13) then mret [c] else
          l ← gets_loop fuel; mret (c :: l)
      | (cc, []) => if cc <? 1 then mret [] else undef "gets: nothing read"
      end
  end.
Definition gets (max : nat) : M W (list Z) := gets_loop (max - 1).

(** [stat(n, st)]: the value and the bytes of [st]. *)
Definition stat (n : list Z) : M W (Z * list Z) :=
  fd ← sysv (Open n 0);
  if fd <? 0 then mret (-1, []) else
  r ← sys (Fstat fd);
  sysv (Close fd) ;;
  mret r.

Fixpoint atoi_loop (s : list Z) (n : Z) : Z :=
  match s with
  | c :: s => if (48 <=? s8 c) && (s8 c <=? 57) then atoi_loop s (s32 (s32 (s32 (n * 10) + s8 c) - 48)) else n
  | [] => n
  end.
Definition atoi (s : list Z) : Z := atoi_loop s 0.

(** ** printf.c *)

Definition putc (fd c : Z) : M W unit := sysv (Write fd [u8 c]) ;; mret tt.

Definition printint (fd xx base : Z) (sgn : bool) : M W unit :=
  for_each (int_chars false xx base sgn) (putc fd).

Definition next_word (args : list parg) : M W (parg * list parg) :=
  match args with
  | a :: args' => mret (a, args')
  | [] => undef "printf: missing argument"
  end.

(** [state] is whether a [%] has been seen. *)
Fixpoint printf_loop (fd : Z) (fmt : list Z) (state : bool) (args : list parg) : M W unit :=
  match fmt with
  | [] => mret tt
  | c :: fmt =>
      let c := Z.land c 0xff in
      if negb state then
        if c =? 37 then printf_loop fd fmt true args
        else putc fd c ;; printf_loop fd fmt false args
      else if (c =? 100) || (c =? 120) || (c =? 112) then
        a ← next_word args;
        match fst a with
        | PInt z => (if c =? 100 then printint fd (s32 z) 10 true else printint fd (s32 z) 16 false) ;;
                    printf_loop fd fmt false (snd a)
        | _ => undef "printf: not an integer"
        end
      else if c =? 115 then
        a ← next_word args;
        match fst a with
        | PStr s => for_each s (putc fd) ;; printf_loop fd fmt false (snd a)
        | PNull => for_each (bytes "(null)") (putc fd) ;; printf_loop fd fmt false (snd a)
        | PInt _ => undef "printf: not a string"
        end
      else if c =? 99 then
        a ← next_word args;
        match fst a with
        | PInt z => putc fd z ;; printf_loop fd fmt false (snd a)
        | _ => undef "printf: not a character"
        end
      else if c =? 37 then putc fd c ;; printf_loop fd fmt false args
      else putc fd 37 ;; putc fd c ;; printf_loop fd fmt false args
  end.
Definition printf (fd : Z) (fmt : list Z) (args : list parg) : M W unit := printf_loop fd fmt false args.
End Ulib.

(** ** Finding characters *)

Lemma strchr_none s c : strchr s c = None <-> c ∉ s.
Proof.
  induction s as [|x s IH]; cbn; [split; [intros _; apply not_elem_of_nil|done]|]. rewrite not_elem_of_cons.
  destruct (Z.eqb_spec x c); [split; [done|]; intros []; congruence|].
  rewrite fmap_None, IH. naive_solver.
Qed.
Lemma strchr_some s c d : strchr s c = Some d -> exists l r, s = l ++ c :: r /\ length l = d /\ c ∉ l.
Proof.
  revert d. induction s as [|x s IH]; intros d; cbn; [done|]. destruct (Z.eqb_spec x c) as [->|Hx].
  - intros [= <-]. exists [], s. split_and!; [done..|apply not_elem_of_nil].
  - intros (d' & Hd & ->)%fmap_Some. destruct (IH d' Hd) as (l & r & -> & <- & Hl).
    exists (x :: l), r. split_and!; [done..|]. apply not_elem_of_cons. auto.
Qed.

(** ** What the programs rely on

    Descriptor 1 takes all that is written to it.  A stream delivers its bytes
    in pieces of any length, a regular file as many as are asked for. *)
Class OsFiles (W : Type) `{Os W} : Type := {
  os_out : W -> list Z;
  os_stream : Z -> list Z -> W -> Prop;
  os_file : Z -> list Z -> W -> Prop;
  read_stream fd s n w : os_stream fd s w -> 0 < n -> exists c r w',
    os_call (Read fd n) w = (Z.of_nat (length c), c, w') /\ s = c ++ r /\ Z.of_nat (length c) <= n /\
    (c = [] -> r = []) /\ os_stream fd r w' /\ os_out w' = os_out w;
  read_file fd s n w : os_file fd s w -> 0 < n -> exists w',
    let c := take (Z.to_nat n) s in
    os_call (Read fd n) w = (Z.of_nat (length c), c, w') /\ os_file fd (drop (Z.to_nat n) s) w' /\
    os_out w' = os_out w;
  write_out b w : exists w',
    os_call (Write 1 b) w = (Z.of_nat (length b), [], w') /\ os_out w' = os_out w ++ b /\
    (forall fd s, os_stream fd s w -> os_stream fd s w') /\ (forall fd s, os_file fd s w -> os_file fd s w')
}.

(** An operating system that has what is to be read in pieces. *)
Record toy : Type := mktoy { toy_in : Z -> list (list Z); toy_out : list Z }.

Definition toy_read (fd n : Z) (w : toy) : Z * list Z * toy :=
  match toy_in w fd with
  | [] => (0, [], w)
  | c :: cs =>
      let b := take (Z.to_nat n) c in
      let c' := drop (Z.to_nat n) c in
      (Z.of_nat (length b), b,
       mktoy (fun g => if g =? fd then (if bool_decide (c' = []) then cs else c' :: cs) else toy_in w g) (toy_out w))
  end.

#[export] Instance toy_os : Os toy := fun r w =>
  match r with
  | Read fd n => toy_read fd n w
  | Write fd b => (Z.of_nat (length b), [], if fd =? 1 then mktoy (toy_in w) (toy_out w ++ b) else w)
  | Open _ _ => (3, [], w)
  | _ => (0, [], w)
  end.

#[export, refine] Instance toy_files : OsFiles toy := {
  os_out := toy_out;
  os_stream fd s w := concat (toy_in w fd) = s /\ Forall (fun c => c <> []) (toy_in w fd);
  os_file fd s w := toy_in w fd = if bool_decide (s = []) then [] else [s]
}.
Proof.
  - intros fd s n w [Hs Hne] Hn. unfold os_call, toy_os, toy_read. destruct (toy_in w fd) as [|c cs] eqn:E.
    + exists [], [], w. simpl in *. subst s. rewrite E. split_and!; try done; try lia.
    + apply Forall_cons in Hne as [Hc Hne]. simpl in Hs.
      exists (take (Z.to_nat n) c), (drop (Z.to_nat n) c ++ concat cs). eexists. split; [reflexivity|].
      split_and!; simpl; rewrite ?Z.eqb_refl.
      * by rewrite app_assoc, take_drop.
      * rewrite length_take. lia.
      * intros Ht. apply (f_equal length) in Ht. rewrite length_take in Ht. destruct c; [done|]. simpl in Ht. lia.
      * by case_bool_decide as Hd; simpl; rewrite ?Hd.
      * case_bool_decide; [done|]. by constructor.
      * done.
  - intros fd s n w Hs Hn. unfold os_call, toy_os, toy_read. rewrite Hs. case_bool_decide as Es.
    + subst s. exists w. rewrite take_nil, drop_nil. by rewrite Hs.
    + eexists. split; [reflexivity|]. split; [|done]. simpl. rewrite Z.eqb_refl. by case_bool_decide.
  - intros b w. unfold os_call, toy_os. simpl. by eexists.
Defined.

(** ** What printf prints *)

Fixpoint uformat (fmt : list Z) (state : bool) (args : list parg) : option (list Z) :=
  match fmt with
  | [] => Some []
  | c :: fmt =>
      let c := Z.land c 0xff in
      if negb state then
        if c =? 37 then uformat fmt true args else ([u8 c] ++.) <$> uformat fmt false args
      else if (c =? 100) || (c =? 120) || (c =? 112) then
        match args with
        | PInt z :: args => (map u8 (int_chars false (s32 z) (if c =? 100 then 10 else 16) (c =? 100)) ++.) <$> uformat fmt false args
        | _ => None
        end
      else if c =? 115 then
        match args with
        | PStr s :: args => (map u8 s ++.) <$> uformat fmt false args
        | PNull :: args => (map u8 (bytes "(null)") ++.) <$> uformat fmt false args
        | _ => None
        end
      else if c =? 99 then
        match args with
        | PInt z :: args => ([u8 z] ++.) <$> uformat fmt false args
        | _ => None
        end
      else if c =? 37 then ([u8 c] ++.) <$> uformat fmt false args
      else ([u8 37] ++.) <$> (([u8 c] ++.) <$> uformat fmt false args)
  end.

Section Printf.
  Context {W : Type} `{OsFiles W}.

(** A routine that only writes [cs] to descriptor 1. *)
Definition prints (m : M W unit) (cs : list Z) : Prop := forall w e, exists w',
  m w e = Ret tt w' e /\ os_out w' = os_out w ++ cs /\
  (forall fd s, os_stream fd s w -> os_stream fd s w') /\ (forall fd s, os_file fd s w -> os_file fd s w').

Lemma uprints_nil : prints (mret tt) [].
Proof. intros w e. exists w. rewrite app_nil_r. auto. Qed.
Lemma uprints_seq m1 m2 cs1 cs2 : prints m1 cs1 -> prints m2 cs2 -> prints (m1 ;; m2) (cs1 ++ cs2).
Proof.
  intros H1 H2 w e. destruct (H1 w e) as (w1 & E1 & O1 & S1 & F1). destruct (H2 w1 e) as (w2 & E2 & O2 & S2 & F2).
  exists w2. rewrite (bind_Ret _ _ _ _ _ _ _ E1), O2, O1, app_assoc. split_and!; auto.
Qed.
Lemma prints_putc c : prints (putc 1 c) [u8 c].
Proof.
  intros w e. destruct (write_out [u8 c] w) as (w' & E & O & S & F). exists w'.
  unfold putc, sysv, sys, mbind, M_bind, mret, M_ret. rewrite E. split_and!; auto.
Qed.
Lemma prints_each cs : prints (for_each cs (putc 1)) (map u8 cs).
Proof.
  induction cs as [|c cs IH]; simpl; [apply uprints_nil|]. apply (uprints_seq _ _ [u8 c]); [apply prints_putc|exact IH].
Qed.

Lemma prints_cons m1 m2 cs1 o cs :
  prints m1 cs1 -> (forall cs2, o = Some cs2 -> prints m2 cs2) -> (cs1 ++.) <$> o = Some cs -> prints (m1 ;; m2) cs.
Proof. intros H1 H2. destruct o as [cs2|]; [|done]. intros [= <-]. apply uprints_seq; auto. Qed.

Lemma prints_next a args f cs : prints (f (a, args)) cs -> prints (next_word (a :: args) ≫= f) cs.
Proof. intros Hf w e. exact (Hf w e). Qed.

Lemma printf_loop_prints fmt state args cs :
  uformat fmt state args = Some cs -> prints (printf_loop 1 fmt state args) cs.
Proof.
  revert state args cs. induction fmt as [|c fmt IH]; intros state args cs; cbn [uformat printf_loop].
  { intros [= <-]. apply uprints_nil. }
  set (c' := Z.land c 0xff). destruct state; cbn [negb].
  2: { destruct (c' =? 37); [apply IH|]. apply prints_cons; [apply prints_putc|apply IH]. }
  destruct ((c' =? 100) || (c' =? 120) || (c' =? 112)).
  { destruct args as [|[z| |] args]; try done. intros Hc. apply prints_next; cbn [fst snd]. revert Hc.
    apply prints_cons; [|apply IH]. unfold printint. destruct (c' =? 100); apply prints_each. }
  destruct (c' =? 115).
  { destruct args as [|[| |] args]; try done; intros Hc; apply prints_next; cbn [fst snd]; revert Hc; apply prints_cons; auto using prints_each. }
  destruct (c' =? 99).
  { destruct args as [|[| |] args]; try done; intros Hc; apply prints_next; cbn [fst snd]; revert Hc; apply prints_cons; auto using prints_putc. }
  destruct (c' =? 37); [apply prints_cons; auto using prints_putc|].
  apply prints_cons; [apply prints_putc|]. intros cs2. apply prints_cons; auto using prints_putc.
Qed.
End Printf.
