(* ===== verification/Grep.v ===== *)
(** grep (grep.c): the matcher of regular expressions, against a declarative
    meaning of the patterns; and the program, which prints the lines of a file
    that match. *)

From S2P Require Import Prelude Types Cprintf UserLib.

(** ** The matcher *)

(** [matchstar(c, re, text)]; [mh] is [matchhere(re, .)]. *)
Definition matchstar (mh : list Z -> bool) (c : Z) : list Z -> bool :=
  fix loop text :=
    if mh text then true else
    match text with
    | [] => false
    | x :: text => if (x =? c) || (c =? 46) then loop text else false
    end.

Fixpoint matchhere (re text : list Z) : bool :=
  match re with
  | [] => true
  | c :: re1 =>
      let plain :=
        if (c =? 36) && bool_decide (re1 = []) then bool_decide (text = []) else
        match text with
        | [] => false
        | x :: text => if (c =? 46) || (c =? x) then matchhere re1 text else false
        end in
      match re1 with
      | [] => plain
      | s :: re2 => if s =? 42 then matchstar (matchhere re2) c text else plain
      end
  end.

(** The loop of [match] over the suffixes of the text. *)
Fixpoint match_anywhere (re text : list Z) : bool :=
  if matchhere re text then true else
  match text with
  | [] => false
  | _ :: text => match_anywhere re text
  end.

(** [match(re, text)]. *)
Definition match_ (re text : list Z) : bool :=
  match re with
  | c :: re' => if c =? 94 then matchhere re' text else match_anywhere re text
  | [] => match_anywhere re text
  end.

(** ** What a pattern means *)

Inductive item : Type :=
| One (c : Z)
| Star (c : Z)
| Eol.

(** The items of a pattern without its leading [^]: a character followed by
    [*] is a star, a last [$] is the end of the line. *)
Fixpoint items (re : list Z) : list item :=
  match re with
  | [] => []
  | c :: re1 =>
      match re1 with
      | [] => [if c =? 36 then Eol else One c]
      | s :: re2 => if s =? 42 then Star c :: items re2 else One c :: items re1
      end
  end.

(** A character of the pattern stands for [x]. *)
Definition stands (c x : Z) : Prop := c = 46 \/ c = x.

(** The text begins with something that the items describe. *)
Inductive begins : list item -> list Z -> Prop :=
| begins_nil t : begins [] t
| begins_eol : begins [Eol] []
| begins_one c x its t : stands c x -> begins its t -> begins (One c :: its) (x :: t)
| begins_star c u its t : Forall (stands c) u -> begins its t -> begins (Star c :: its) (u ++ t).

Definition matches (re text : list Z) : Prop :=
  match re with
  | 94 :: re' => begins (items re') text
  | _ => exists u v, text = u ++ v /\ begins (items re) v
  end.

(** ** The program *)

Section Program.
  Context {W : Type} `{Os W}.

(** The loop over the lines in the buffer; it returns the buffer and [p]. *)
Fixpoint grep_lines (fuel : nat) (pattern buf : list Z) (p : nat) : M W (list Z * nat) :=
  match fuel with
  | O => undef "grep: fuel"
  | S fuel =>
      match strchr (cstring (drop p buf)) 10 with
      | None => mret (buf, p)
      | Some d =>
          let q := (p + d)%nat in
          let buf := <[q := 0]> buf in
          if match_ pattern (cstring (drop p buf)) then
            let buf := <[q := 10]> buf in
            sysv (Write 1 (take (q + 1 - p) (drop p buf))) ;;
            grep_lines fuel pattern buf (q + 1)
          else grep_lines fuel pattern buf (q + 1)
      end
  end.

(** [read] puts [b] at [buf+m]. *)
Definition store_at (m : nat) (b buf : list Z) : list Z := take m buf ++ b ++ drop (m + length b) buf.

Fixpoint grep_loop (fuel : nat) (pattern : list Z) (fd : Z) (buf : list Z) (m : nat) : M W (list Z) :=
  match fuel with
  | O => undef "grep: fuel"
  | S fuel =>
      r ← sys (Read fd (1024 - Z.of_nat m - 1));
      let '(n, b) := r in
      if 0 <? n then
        let buf := store_at m b buf in
        let m := (m + Z.to_nat n)%nat in
        let buf := <[m := 0]> buf in
        lp ← grep_lines (S (length buf)) pattern buf 0;
        let '(buf, p) := lp in
        let m := if (p =? 0)%nat then 0%nat else m in
        if (0 <? m)%nat then
          let m := (m - p)%nat in
          buf ← memmove buf 0 p m;
          grep_loop fuel pattern fd buf m
        else grep_loop fuel pattern fd buf m
      else mret buf
  end.

(** [grep(pattern, fd)], with the global [buf] as it was left and as it is
    left. *)
Definition grep (fuel : nat) (pattern : list Z) (fd : Z) (buf : list Z) : M W (list Z) :=
  grep_loop fuel pattern fd buf 0.

(** The loop of [main] over the files. *)
Fixpoint grep_files (fuel : nat) (pattern : list Z) (files : list (list Z)) (buf : list Z) : M W unit :=
  match files with
  | [] => exit
  | name :: files =>
      fd ← sysv (Open name 0);
      if fd <? 0 then
        printf 1 (bytes "grep: cannot open %s" ++ [10]) [PStr name] ;; exit
      else
        buf ← grep fuel pattern fd buf;
        sysv (Close fd) ;;
        grep_files fuel pattern files buf
  end.

Definition grep_main (fuel : nat) (argv : list (list Z)) : M W unit :=
  let buf := replicate 1024 0 in
  match argv with
  | [] | [_] => printf 2 (bytes "usage: grep pattern [file ...]" ++ [10]) [] ;; exit
  | [_; pattern] => grep fuel pattern 0 buf ;; exit
  | _ :: pattern :: files => grep_files fuel pattern files buf
  end.
End Program.

(** ** The matcher is right *)

Lemma matchstar_spec mh c text :
  matchstar mh c text = true <->
  exists u v, text = u ++ v /\ Forall (fun x => c = 46 \/ x = c) u /\ mh v = true.
Proof.
  induction text as [|x text IH]; simpl.
  - destruct (mh []) eqn:E.
    + split; [|done]. intros _. by exists [], [].
    + split; [done|]. intros (u & v & Hv & _ & Hm). symmetry in Hv. apply app_nil in Hv as [-> ->]. congruence.
  - destruct (mh (x :: text)) eqn:E.
    { split; [|done]. intros _. by exists [], (x :: text). }
    destruct ((x =? c) || (c =? 46)) eqn:Ec.
    + rewrite IH. split.
      * intros (u & v & -> & Hu & Hm). exists (x :: u), v. split_and!; [done| |done]. constructor; [lia|done].
      * intros ([|y u] & v & Hv & Hu & Hm); simplify_eq/=; [congruence|].
        apply Forall_cons in Hu as [_ Hu]. by exists u, v.
    + split; [done|]. intros ([|y u] & v & Hv & Hu & Hm); simplify_eq/=; [congruence|].
      apply Forall_cons in Hu as [Hy _]. lia.
Qed.

Lemma stands_eq c u : Forall (stands c) u <-> Forall (fun x => c = 46 \/ x = c) u.
Proof. split; intros Hu; (eapply Forall_impl; [exact Hu|]); unfold stands; intros x []; auto. Qed.

Lemma begins_one_inv c its t : begins (One c :: its) t <-> exists x t', t = x :: t' /\ stands c x /\ begins its t'.
Proof. split; [intros Hb; inversion Hb; subst; eauto|]. intros (x & t' & -> & ? & ?). by constructor. Qed.
Lemma begins_star_inv c its t : begins (Star c :: its) t <-> exists u v, t = u ++ v /\ Forall (stands c) u /\ begins its v.
Proof. split; [intros Hb; inversion Hb; subst; eauto|]. intros (u & v & -> & ? & ?). by constructor. Qed.
Lemma begins_eol_inv t : begins [Eol] t <-> t = [].
Proof. split; [intros Hb; by inversion Hb|]. intros ->. constructor. Qed.

(** The step for a character that is no star. *)
Lemma plain_spec c re1 text :
  (forall t, matchhere re1 t = true <-> begins (items re1) t) -> (forall re2, re1 <> 42 :: re2) ->
  (if (c =? 36) && bool_decide (re1 = []) then bool_decide (text = []) else
   match text with
   | [] => false
   | x :: t => if (c =? 46) || (c =? x) then matchhere re1 t else false
   end) = true <-> begins (items (c :: re1)) text.
Proof.
  intros IH Hns.
  assert ((c =? 36) && bool_decide (re1 = []) = false -> items (c :: re1) = One c :: items re1) as Hi.
  { intros E. destruct re1 as [|s re2]; cbn [items].
    - rewrite bool_decide_eq_true_2, andb_true_r in E by done. by rewrite E.
    - destruct (s =? 42) eqn:Es; [|done]. destruct (Hns re2). f_equal. lia. }
  destruct ((c =? 36) && _) eqn:E.
  - apply andb_true_iff in E as [Ec ->%bool_decide_eq_true]. cbn [items]. rewrite Ec, begins_eol_inv.
    apply bool_decide_eq_true.
  - rewrite (Hi eq_refl), begins_one_inv. destruct text as [|x t]; [split; [done|]; by intros (? & ? & ? & _)|].
    destruct ((c =? 46) || (c =? x)) eqn:Ex.
    + rewrite IH. split; [intros Hb; exists x, t; split_and!; [done|unfold stands; lia|done]|].
      by intros (? & ? & [= <- <-] & _ & ?).
    + split; [done|]. intros (? & ? & [= <- <-] & [|] & _); lia.
Qed.

Lemma matchhere_spec re : forall text, matchhere re text = true <-> begins (items re) text.
Proof.
  induction re as [re IH] using (induction_ltof1 _ (@length Z)). unfold ltof in IH. intros text.
  destruct re as [|c re1]; [split; [constructor|done]|].
  destruct re1 as [|s re2]; [apply (plain_spec c []); [apply IH; simpl; lia|done]|].
  cbn [matchhere]. destruct (s =? 42) eqn:Es.
  - cbn [items]. rewrite Es, matchstar_spec, begins_star_inv.
    split; intros (u & v & ? & Hu & Hm); exists u, v; (split_and!; [done|by apply stands_eq|apply IH; [simpl; lia|done]]).
  - apply (plain_spec c (s :: re2)); [apply IH; simpl; lia|]. intros re3 [= -> _]. done.
Qed.

Lemma match_anywhere_spec re text :
  match_anywhere re text = true <-> exists u v, text = u ++ v /\ begins (items re) v.
Proof.
  induction text as [|x text IH]; cbn [match_anywhere]; destruct (matchhere re _) eqn:E.
  - apply matchhere_spec in E. split; [|done]. intros _. by exists [], [].
  - split; [done|]. intros (u & v & Hv & Hb). symmetry in Hv. apply app_nil in Hv as [-> ->].
    apply matchhere_spec in Hb. congruence.
  - apply matchhere_spec in E. split; [|done]. intros _. by exists [], (x :: text).
  - rewrite IH. split.
    + intros (u & v & -> & Hb). by exists (x :: u), v.
    + intros ([|y u] & v & Hv & Hb); simplify_eq/=; [|by exists u, v]. apply matchhere_spec in Hb. congruence.
Qed.

Lemma matches_plain c re text : c <> 94 -> matches (c :: re) text <-> exists u v, text = u ++ v /\ begins (items (c :: re)) v.
Proof. intros Hc. unfold matches. repeat case_match; done. Qed.

Lemma match_meaning_iff re text : match_ re text = true <-> matches re text.
Proof.
  destruct re as [|c re]; [apply match_anywhere_spec|]. cbn [match_]. destruct (c =? 94) eqn:E.
  - assert (c = 94) as -> by lia. apply matchhere_spec.
  - rewrite matches_plain by lia. apply match_anywhere_spec.
Qed.

(** C15: the matcher accepts exactly the texts that the pattern describes: with
    a leading [^] the text must begin with a match, otherwise a match may
    begin anywhere; a character stands for itself and [.] for any; [c*] for
    any number of such characters, also none, whichever number makes the rest
    match; a last [$] for the end of the line. *)
Theorem match_meaning re text : match_ re text = true <-> matches re text.
Proof. apply match_meaning_iff. Qed.

(** ** Lines *)

(** The complete lines of a text, and what follows the last newline. *)
Fixpoint split_lines (s : list Z) : list (list Z) * list Z :=
  match s with
  | [] => ([], [])
  | c :: s =>
      let '(ls, r) := split_lines s in
      if c =? 10 then ([] :: ls, r) else
      match ls with
      | [] => ([], c :: r)
      | l :: ls => ((c :: l) :: ls, r)
      end
  end.

(** What grep is to print of these lines. *)
Definition printed (pattern : list Z) (ls : list (list Z)) : list Z :=
  concat (map (fun l => if match_ pattern l then l ++ [10] else []) ls).

Lemma printed_app pattern l1 l2 : printed pattern (l1 ++ l2) = printed pattern l1 ++ printed pattern l2.
Proof. unfold printed. by rewrite map_app, concat_app. Qed.

#[export] Instance matches_dec re text : Decision (matches re text).
Proof.
  refine (cast_if (decide (match_ re text = true))); rewrite <-match_meaning_iff; done.
Defined.

Lemma printed_matches pattern ls :
  printed pattern ls = concat (map (.++ [10]) (filter (fun l => matches pattern l) ls)).
Proof.
  induction ls as [|l ls IH]; [done|]. unfold printed in *. cbn [map concat]. rewrite IH, filter_cons.
  pose proof (match_meaning_iff pattern l). destruct (decide (matches pattern l)), (match_ pattern l); naive_solver.
Qed.

Lemma split_lines_none s : 10 ∉ s -> split_lines s = ([], s).
Proof.
  induction s as [|c s IH]; [done|]. intros [Hc Hs]%not_elem_of_cons. cbn. rewrite IH by done.
  by rewrite (proj2 (Z.eqb_neq c 10)) by done.
Qed.

Lemma split_lines_line l s : 10 ∉ l ->
  split_lines (l ++ 10 :: s) = (l :: fst (split_lines s), snd (split_lines s)).
Proof.
  induction l as [|c l IH]; intros Hl; cbn.
  - by destruct (split_lines s).
  - apply not_elem_of_cons in Hl as [Hc Hl]. rewrite IH by done.
    by rewrite (proj2 (Z.eqb_neq c 10)) by done.
Qed.

(** A text with a newline has a first line. *)
Lemma first_line s : 10 ∈ s -> exists l r, s = l ++ 10 :: r /\ 10 ∉ l.
Proof.
  induction s as [|c s IH]; [by intros ?%elem_of_nil|]. intros Hc. destruct (decide (c = 10)) as [->|Hne].
  - exists [], s. split; [done|]. apply not_elem_of_nil.
  - destruct IH as (l & r & -> & Hl); [by apply elem_of_cons in Hc as [?|?]|].
    exists (c :: l), r. split; [done|]. by apply not_elem_of_cons.
Qed.

Lemma split_lines_app s t :
  split_lines (s ++ t) =
  (fst (split_lines s) ++ fst (split_lines (snd (split_lines s) ++ t)), snd (split_lines (snd (split_lines s) ++ t))).
Proof.
  induction s as [s IH] using (induction_ltof1 _ (@length Z)). unfold ltof in IH.
  destruct (decide (10 ∈ s)) as [(l & r & -> & Hl)%first_line|Hn].
  - rewrite <-app_assoc. cbn [app]. rewrite !split_lines_line by done. cbn [fst snd].
    rewrite (IH r) by (rewrite length_app; simpl; lia). done.
  - rewrite (split_lines_none s) by done. cbn [fst snd]. by destruct (split_lines (s ++ t)).
Qed.

Lemma split_lines_rest s : 10 ∉ snd (split_lines s).
Proof.
  induction s as [|c s IH]; [apply not_elem_of_nil|]. cbn. destruct (split_lines s) as [ls r]. simpl in IH.
  destruct (Z.eqb_spec c 10); [done|]. destruct ls; [|done]. by apply not_elem_of_cons.
Qed.

Lemma split_lines_length s : (length (snd (split_lines s)) <= length s)%nat /\
  (length (snd (split_lines s)) = length s -> fst (split_lines s) = []) /\
  (fst (split_lines s) = [] -> snd (split_lines s) = s).
Proof.
  induction s as [|c s IH]; [done|]. cbn. destruct (split_lines s) as [ls r]. simpl in IH.
  destruct (c =? 10); [simpl; split_and!; [lia|lia|done]|]. destruct ls; simpl; [|split_and!; [lia|lia|done]].
  destruct IH as (? & ? & E). split_and!; [lia|done|]. intros _. by rewrite E.
Qed.

Lemma split_lines_join s : concat (map (.++ [10]) (fst (split_lines s))) ++ snd (split_lines s) = s.
Proof.
  induction s as [|c s IH]; [done|]. cbn. destruct (split_lines s) as [ls r]. cbn in IH.
  destruct (Z.eqb_spec c 10) as [->|]; [cbn; by rewrite IH|].
  destruct ls; cbn in *; by rewrite IH.
Qed.

(** ** Strings in the buffer *)

Lemma cstring_app s r : 0 ∉ s -> cstring (s ++ 0 :: r) = s.
Proof.
  induction s as [|c s IH]; [done|]. intros [Hc Hs]%not_elem_of_cons. cbn [app cstring].
  by rewrite (proj2 (Z.eqb_neq c 0)), IH by congruence.
Qed.

Lemma insert_after (l : list Z) x y r : <[length l := x]> (l ++ y :: r) = l ++ x :: r.
Proof. rewrite <-(Nat.add_0_r (length l)), insert_app_r. done. Qed.

Lemma drop_insert_at p (l r buf : list Z) x y :
  drop p buf = l ++ y :: r -> drop p (<[(p + length l)%nat := x]> buf) = l ++ x :: r.
Proof.
  intros E. rewrite drop_insert_ge by lia. replace (p + length l - p)%nat with (length l) by lia.
  by rewrite E, insert_after.
Qed.

(** The upward copy to the front of the array. *)
Lemma memmove_front {W} (l : list Z) p n (w : W) e : (p + n <= length l)%nat ->
  memmove l 0 p n w e = Ret (take n (drop p l) ++ drop n l) w e.
Proof.
  intros Hn. unfold memmove. rewrite (proj2 (Nat.leb_le (0 + n) _)), (proj2 (Nat.leb_le (p + n) _)) by lia.
  cbn [andb]. rewrite mret_run. f_equal. cbn [Nat.add]. induction n as [|n IH]; [done|].
  rewrite seq_S, fold_left_app, IH by lia. cbn [fold_left Nat.add].
  assert (length (take n (drop p l)) = n) as Hl by (rewrite length_take, length_drop; lia).
  destruct (lookup_lt_is_Some_2 l (p + n)) as [x Hx]; [lia|].
  rewrite lookup_app_r, Hl, lookup_drop by lia. replace (n + (p + n - n))%nat with (p + n)%nat by lia. rewrite Hx. cbn [default from_option id].
  destruct (drop n l) as [|y r] eqn:E; [apply (f_equal length) in E; rewrite length_drop in E; simpl in E; lia|].
  rewrite <-Hl at 1. rewrite insert_after.
  assert (drop (S n) l = r) as -> by (rewrite <-Nat.add_1_r, <-drop_drop, E; done).
  rewrite (take_S_r (drop p l) n x) by (by rewrite lookup_drop). by rewrite <-app_assoc.
Qed.

Section Run.
  Context {W : Type} `{OsFiles W} (pattern : list Z).

(** From [w] to [w'] only [cs] has been written. *)
Definition wrote (cs : list Z) (w w' : W) : Prop :=
  os_out w' = os_out w ++ cs /\ forall fd s, os_file fd s w -> os_file fd s w'.

Lemma wrote_nil w : wrote [] w w.
Proof. split; [by rewrite app_nil_r|auto]. Qed.
Lemma wrote_trans c1 c2 w1 w2 w3 : wrote c1 w1 w2 -> wrote c2 w2 w3 -> wrote (c1 ++ c2) w1 w3.
Proof. intros [E1 F1] [E2 F2]. split; [by rewrite E2, E1, app_assoc|auto]. Qed.

(** One line of the buffer. *)
Lemma grep_line_run fuel buf p l rest junk w e :
  drop p buf = l ++ 10 :: rest ++ 0 :: junk -> 0 ∉ l -> 10 ∉ l -> 0 ∉ rest -> exists buf' w',
  grep_lines (S fuel) pattern buf p w e = grep_lines fuel pattern buf' (p + length l + 1) w' e /\
  length buf' = length buf /\ drop (p + length l + 1) buf' = rest ++ 0 :: junk /\ wrote (printed pattern [l]) w w'.
Proof.
  intros E Hz Hnl Hr.
  assert (strchr (cstring (drop p buf)) 10 = Some (length l)) as Hs.
  { rewrite E. change (l ++ 10 :: rest ++ 0 :: junk) with (l ++ ([10] ++ rest) ++ 0 :: junk).
    rewrite (app_assoc l), cstring_app.
    - clear -Hnl. induction l as [|c l IH]; [done|]. apply not_elem_of_cons in Hnl as [Hc Hl]. cbn.
      rewrite (proj2 (Z.eqb_neq c 10)) by congruence. cbn in IH. by rewrite IH.
    - rewrite !not_elem_of_app. split_and!; [done|by intros ?%list_elem_of_singleton|done]. }
  pose proof (drop_insert_at p l _ _ 0 _ E) as E0. pose proof (drop_insert_at p l _ _ 10 _ E0) as E1.
  assert (forall b x, drop p b = l ++ x :: rest ++ 0 :: junk -> drop (p + length l + 1) b = rest ++ 0 :: junk) as Hd.
  { intros b x Eb. rewrite <-Nat.add_assoc, <-drop_drop, Eb, drop_app_add. done. }
  unfold printed. cbn [grep_lines map concat]. rewrite Hs, E0, cstring_app, app_nil_r by done. destruct (match_ pattern l) eqn:Em.
  - destruct (write_out (l ++ [10]) w) as (w' & Hw & Ho & _ & Hf).
    exists (<[(p + length l)%nat := 10]> (<[(p + length l)%nat := 0]> buf)), w'. split_and!.
    + rewrite E1. replace (p + length l + 1 - p)%nat with (length l + 1)%nat by lia.
      rewrite take_app_add. cbn [take]. rewrite take_0. unfold sysv, sys, mbind, M_bind, mret, M_ret. by rewrite Hw.
    + by rewrite !length_insert.
    + by apply (Hd _ 10).
    + by split.
  - exists (<[(p + length l)%nat := 0]> buf), w. split_and!; [done|by rewrite length_insert|by apply (Hd _ 0)|apply wrote_nil].
Qed.

Lemma grep_lines_run fuel : forall text buf p junk w e,
  drop p buf = text ++ 0 :: junk -> 0 ∉ text -> (length text < fuel)%nat -> exists buf' w',
  let '(ls, r) := split_lines text in
  grep_lines fuel pattern buf p w e = Ret (buf', p + (length text - length r))%nat w' e /\
  length buf' = length buf /\ drop (p + (length text - length r)) buf' = r ++ 0 :: junk /\ wrote (printed pattern ls) w w'.
Proof.
  induction fuel as [|fuel IH]; intros text buf p junk w e E Hz Hf; [lia|].
  destruct (decide (10 ∈ text)) as [(l & rest & -> & Hl)%first_line|Hn].
  - rewrite not_elem_of_app, not_elem_of_cons in Hz. destruct Hz as (Hz & _ & Hr).
    rewrite <-app_assoc in E. destruct (grep_line_run fuel buf p l rest junk w e E Hz Hl Hr) as (b1 & w1 & Hs & Hl1 & Hd1 & Hw1).
    rewrite length_app in Hf |- *. cbn [length] in Hf |- *.
    destruct (IH rest b1 (p + length l + 1)%nat junk w1 e Hd1 Hr ltac:(lia)) as (b2 & w2 & H2).
    rewrite split_lines_line by done. pose proof (split_lines_length rest) as (Hle & _).
    destruct (split_lines rest) as [ls r]. cbn [fst snd] in *. destruct H2 as (Hr2 & Hl2 & Hd2 & Hw2).
    replace (p + length l + 1 + (length rest - length r))%nat with (p + (length l + S (length rest) - length r))%nat in * by lia.
    exists b2, w2. rewrite Hs. split_and!; [done|congruence|done|]. change (l :: ls) with ([l] ++ ls). rewrite (printed_app pattern [l] ls). apply (wrote_trans _ _ _ _ _ Hw1 Hw2).
  - rewrite split_lines_none by done. exists buf, w. cbn [grep_lines].
    rewrite E, cstring_app by done. rewrite (proj2 (strchr_none text 10) Hn), Nat.sub_diag, Nat.add_0_r.
    split_and!; [done..|apply wrote_nil].
Qed.

(** The buffer after [read] has put [c] behind the pending bytes. *)
Lemma store_zero buf pend c :
  length buf = 1024%nat -> take (length pend) buf = pend -> (length pend + length c < 1024)%nat ->
  exists junk, <[(length pend + length c)%nat := 0]> (store_at (length pend) c buf) = (pend ++ c) ++ 0 :: junk /\
               length ((pend ++ c) ++ 0 :: junk) = 1024%nat.
Proof.
  intros Hl Ht Hc. unfold store_at. rewrite Ht.
  destruct (drop (length pend + length c) buf) as [|y r] eqn:E.
  { apply (f_equal length) in E. rewrite length_drop in E. simpl in E. lia. }
  exists r. rewrite app_assoc, <-length_app, insert_after. split; [done|].
  apply (f_equal length) in E. rewrite length_drop in E. simpl in E. rewrite !length_app. simpl. lia.
Qed.

(** The lines are short enough for the buffer. *)
Definition short (s : list Z) : Prop := Forall (fun l => (length l < 1023)%nat) (fst (split_lines s)).

(** If there is no newline in a full buffer then there is none in the rest. *)
Lemma short_full t s : 10 ∉ t -> (1023 <= length t)%nat -> short (t ++ s) -> 10 ∉ s.
Proof.
  intros Ht Hl Hs Hn. apply first_line in Hn as (l & r & -> & Hl').
  unfold short in Hs. rewrite app_assoc, split_lines_line in Hs by (by apply not_elem_of_app; split).
  apply Forall_cons in Hs as [Hs _]. rewrite length_app in Hs. lia.
Qed.

(** Before a read: the buffer begins with the pending part of a line, and [s]
    is what is left of the file. *)
Record gstate (buf pend s : list Z) : Prop := {
  gs_buf : length buf = 1024%nat;
  gs_pend : take (length pend) buf = pend;
  gs_room : (length pend < 1023)%nat;
  gs_line : 10 ∉ pend;
  gs_text : 0 ∉ pend ++ s;
  gs_short : short (pend ++ s)
}.

(** No complete line in the buffer: what it holds is dropped.  Nothing is lost
    when it is the end of the file, or the lines are short. *)
Lemma gstate_reset (b t d : list Z) : length b = 1024%nat -> 10 ∉ t -> 0 ∉ t ++ d -> short (t ++ d) ->
  (d <> [] -> 1023 <= length t)%nat ->
  gstate b [] d /\ fst (split_lines (t ++ d)) = fst (split_lines d).
Proof.
  intros Hb Ht Hz Hs Hd. apply not_elem_of_app in Hz as [_ Hz].
  assert (fst (split_lines (t ++ d)) = fst (split_lines d)) as E.
  { destruct (decide (d = [])) as [->|Hne]; [by rewrite app_nil_r, (split_lines_none t)|].
    assert (10 ∉ d) as Hn by (by apply (short_full t); auto).
    rewrite !split_lines_none by (try done; by apply not_elem_of_app). done. }
  split; [|done]. split; try done; [simpl; lia|apply not_elem_of_nil|]. unfold short in *. cbn [app]. by rewrite <-E.
Qed.

(** Complete lines in the buffer: what follows them is moved to its front. *)
Lemma gstate_move (b t d r rest' : list Z) ls : length b = 1024%nat -> split_lines t = (ls, r) -> ls <> [] ->
  (length t <= 1023)%nat -> 0 ∉ t ++ d -> short (t ++ d) -> length (r ++ rest') = 1024%nat ->
  gstate (r ++ rest') r d /\ fst (split_lines (t ++ d)) = ls ++ fst (split_lines (r ++ d)).
Proof.
  intros Hb Et Hls Ht Hz Hs Hl.
  assert (fst (split_lines (t ++ d)) = ls ++ fst (split_lines (r ++ d))) as E by (rewrite split_lines_app, Et; done).
  split; [|done]. pose proof (split_lines_rest t) as Hr. pose proof (split_lines_length t) as (Hle & Heq & _).
  rewrite Et in *. cbn [fst snd] in *. split; try done.
  - by rewrite take_app_length.
  - destruct (Nat.eq_dec (length r) (length t)) as [E1|]; [by apply Heq in E1|lia].
  - apply not_elem_of_app in Hz as [Hz1 Hz2]. apply not_elem_of_app. split; [|done]. intros Hx. apply Hz1.
    rewrite <-(split_lines_join t), Et. apply elem_of_app. by right.
  - unfold short in *. rewrite E in Hs. by apply Forall_app in Hs as [_ Hs].
Qed.

(** One read of a file that is not at its end. *)
Lemma grep_pass fd fuel buf pend s w e :
  gstate buf pend s -> os_file fd s w -> s <> [] -> exists buf' pend' s' w' ls,
  grep_loop (S fuel) pattern fd buf (length pend) w e = grep_loop fuel pattern fd buf' (length pend') w' e /\
  gstate buf' pend' s' /\ os_file fd s' w' /\ (length s' < length s)%nat /\
  os_out w' = os_out w ++ printed pattern ls /\
  fst (split_lines (pend ++ s)) = ls ++ fst (split_lines (pend' ++ s')).
Proof.
  intros [Hb Ht Hp Hnl Hz Hsh] Hf Hs. set (n := (1023 - length pend)%nat).
  destruct (read_file fd s (1024 - Z.of_nat (length pend) - 1) w Hf ltac:(lia)) as (w1 & Hr & Hf1 & Ho1).
  replace (Z.to_nat (1024 - Z.of_nat (length pend) - 1)) with n in * by (unfold n; lia).
  assert (0 < length (take n s))%nat as Hc by (rewrite length_take; destruct s; [done|]; simpl; lia).
  assert (length (take n s) <= n)%nat as Hcn by (rewrite length_take; lia).
  cbn [grep_loop]. unfold sys at 1. unfold mbind at 1, M_bind at 1. rewrite Hr. cbv beta iota.
  rewrite (proj2 (Z.ltb_lt 0 _)), Nat2Z.id by lia.
  destruct (store_zero buf pend (take n s) Hb Ht) as (junk & -> & Hjl); [lia|].
  assert (length (pend ++ take n s) = length pend + length (take n s))%nat as Hlt by apply length_app.
  assert (pend ++ s = (pend ++ take n s) ++ drop n s) as Es by (by rewrite <-app_assoc, take_drop).
  set (t := pend ++ take n s) in *. rewrite Es in *.
  assert (length (drop n s) < length s)%nat as Hdrop by (rewrite length_take in Hc; rewrite length_drop; lia).
  destruct (grep_lines_run (S (length (t ++ 0 :: junk))) t (t ++ 0 :: junk) 0 junk w1 e eq_refl) as (b & w2 & Hgl);
    [by apply not_elem_of_app in Hz as [? _]|rewrite length_app; lia|].
  pose proof (split_lines_length t) as (Hle & Heq & Hnil). destruct (split_lines t) as [ls r] eqn:El. cbn [fst snd Nat.add] in *.
  destruct Hgl as (Hrun & Hlb & Hdb & Hout & Hkeep). rewrite (bind_Ret _ _ _ _ _ _ _ Hrun). cbv beta iota.
  destruct (decide (ls = [])) as [->|Hls].
  - rewrite Hnil, Nat.sub_diag in * by done. cbn [Nat.eqb Nat.ltb Nat.leb].
    destruct (gstate_reset b t (drop n s)) as [Hg E]; [congruence| |done..| |].
    { pose proof (split_lines_rest t) as Hx. by rewrite El in Hx. }
    { intros Hd. rewrite Hlt. destruct (Nat.le_gt_cases (length s) n) as [Hx|Hx]; [by rewrite drop_ge in Hd|].
      rewrite length_take. unfold n in *. lia. }
    exists b, [], (drop n s), w2, []. rewrite E, Hout, Ho1. auto 10.
  - assert (length t - length r <> 0)%nat as Hpos by (intros E0; apply Hls, Heq; lia).
    rewrite (proj2 (Nat.eqb_neq _ 0) Hpos), <-Hlt, (proj2 (Nat.ltb_lt 0 (length t))) by lia.
    replace (length t - (length t - length r))%nat with (length r) by lia.
    rewrite (bind_Ret _ _ _ _ _ _ _ (memmove_front b (length t - length r) (length r) w2 e ltac:(rewrite Hlb, length_app; lia))), Hdb, take_app_length.
    destruct (gstate_move b t (drop n s) r (drop (length r) b) ls) as [Hg E]; try done; [congruence|unfold n in *; lia| |].
    { rewrite length_app, length_drop, Hlb, Hjl. rewrite length_app in Hjl. lia. }
    exists (r ++ drop (length r) b), r, (drop n s), w2, ls. rewrite E, Hout, Ho1. auto 10.
Qed.

Lemma grep_loop_run fd fuel : forall buf pend s w e,
  gstate buf pend s -> os_file fd s w -> (length s < fuel)%nat -> exists buf' w',
  grep_loop fuel pattern fd buf (length pend) w e = Ret buf' w' e /\
  os_out w' = os_out w ++ printed pattern (fst (split_lines (pend ++ s))).
Proof.
  induction fuel as [|fuel IH]; intros buf pend s w e Hg Hf Hfuel; [lia|].
  destruct (decide (s = [])) as [->|Hs].
  - destruct Hg as [_ _ Hp Hnl _ _]. destruct (read_file fd [] (1024 - Z.of_nat (length pend) - 1) w Hf ltac:(lia)) as (w1 & Hr & _ & Ho).
    rewrite take_nil in Hr. cbn [grep_loop]. unfold sys at 1. unfold mbind at 1, M_bind at 1. rewrite Hr. cbn.
    exists buf, w1. rewrite app_nil_r, split_lines_none by done. cbn. by rewrite app_nil_r.
  - destruct (grep_pass fd fuel buf pend s w e Hg Hf Hs) as (b & pend' & s' & w1 & ls & Hr & Hg' & Hf' & Hlt & Ho & El).
    destruct (IH b pend' s' w1 e Hg' Hf' ltac:(lia)) as (b' & w' & Hr' & Ho').
    exists b', w'. rewrite Hr, Hr', Ho', Ho, El, printed_app, app_assoc. done.
Qed.

(** grep on a regular file prints, in order and each with its newline, the
    lines that match the pattern and nothing else, however the lines fall on
    the pieces in which the file is read.  The file has no NUL byte and no
    line of 1023 bytes or more; an unterminated last line is not looked at. *)
Theorem grep_prints_matches fd s buf fuel w e :
  length buf = 1024%nat -> os_file fd s w -> 0 ∉ s ->
  Forall (fun l => (length l < 1023)%nat) (fst (split_lines s)) -> (length s < fuel)%nat ->
  exists buf' w', grep fuel pattern fd buf w e = Ret buf' w' e /\
    os_out w' = os_out w ++ concat (map (.++ [10]) (filter (fun l => matches pattern l) (fst (split_lines s)))).
Proof.
  intros Hb Hf Hz Hs Hfuel. destruct (grep_loop_run fd fuel buf [] s w e) as (b & w' & Hr & Ho); [|done..|].
  { split; try done; [simpl; lia|apply not_elem_of_nil]. }
  exists b, w'. split; [exact Hr|]. by rewrite Ho, printed_matches.
Qed.
End Run.

(** ** Instances *)

Definition toy_reading (chunks : list (list Z)) : toy := mktoy (fun fd => if fd =? 3 then chunks else []) [].

(** The file [ab\ncd\nabc\n] and the pattern [b.*c]. *)
Definition demo_text : list Z := bytes "ab" ++ [10] ++ bytes "cd" ++ [10] ++ bytes "abc" ++ [10].

Lemma grep_prints_matches_witness : exists buf' w',
  grep 100 (bytes "b.*c") 3 (replicate 1024 0) (toy_reading [demo_text]) [] = Ret buf' w' [] /\
  os_out w' = os_out (toy_reading [demo_text]) ++
    concat (map (.++ [10]) (filter (fun l => matches (bytes "b.*c") l) (fst (split_lines demo_text)))).
Proof.
  apply (grep_prints_matches (bytes "b.*c") 3 demo_text (replicate 1024 0) 100 (toy_reading [demo_text]) []).
  - reflexivity.
  - reflexivity.
  - vm_compute. intros Hin. repeat (apply elem_of_cons in Hin as [Hin|Hin]; [discriminate|]). by apply elem_of_nil in Hin.
  - vm_compute. repeat constructor; lia.
  - vm_compute. lia.
Defined.

(** on a pipe, which may deliver a line in pieces, grep loses what it has
    read of a line so far: here the line [abc] arrives as [ab] and [c], matches
    the pattern [abc], and is not printed. *)
Theorem grep_drops_partial_line : exists (w : toy) buf' w',
  os_stream 3 (bytes "abc" ++ [10]) w /\ matches (bytes "abc") (bytes "abc") /\
  grep 100 (bytes "abc") 3 (replicate 1024 0) w [] = Ret buf' w' [] /\ os_out w' = [].
Proof.
  exists (toy_reading [bytes "ab"; bytes "c" ++ [10]]). do 2 eexists.
  split; [split; [done|by repeat constructor]|]. split; [by apply match_meaning_iff|].
  split; [vm_compute; reflexivity|done].
Qed.
