(* ===== verification/Sh.v ===== *)
(** The shell (sh.c): its parser, what it runs, and its main loop.  A pointer
    into the command line is the list of the bytes from there to the NUL. *)

From S2P Require Import Prelude Types Bytes Cprintf UserLib.

(** ** Parsed commands *)

Definition MAXARGS : nat := 10.

(** A counted string: where it starts and where it ends in the line. *)
Definition token : Type := list Z * list Z.

(** [struct cmd]: the tag and the structure it stands for, with the strings
    counted ([T] is [token]) or read. *)
Inductive cmd (T : Type) : Type :=
| EXEC (argv : list T)
| REDIR (c : cmd T) (file : T) (mode fd : Z)
| PIPE (left right : cmd T)
| LIST (left right : cmd T)
| BACK (c : cmd T).
Arguments EXEC {T} _.
Arguments REDIR {T} _ _ _ _.
Arguments PIPE {T} _ _.
Arguments LIST {T} _ _.
Arguments BACK {T} _.

(** What a parser returns: the command and the rest of the line, or the
    message with which it panics. *)
Inductive parsed (A : Type) : Type :=
| POk (a : A) (s : list Z)
| PPanic (msg : string)
| PFuel.
Arguments POk {A} _ _.
Arguments PPanic {A} _.
Arguments PFuel {A}.

(** ** Tokens *)

Definition whitespace : list Z := [32; 9; 13; 10; 11].
Definition symbols : list Z := bytes "<|>&;()".
Definition is_space (c : Z) : bool := bool_decide (is_Some (strchr whitespace c)).
Definition is_symbol (c : Z) : bool := bool_decide (is_Some (strchr symbols c)).
Definition is_word (c : Z) : bool := negb (is_space c) && negb (is_symbol c).

Fixpoint skip_spaces (s : list Z) : list Z :=
  match s with
  | [] => []
  | c :: s' => if is_space c then skip_spaces s' else s
  end.
Fixpoint skip_word (s : list Z) : list Z :=
  match s with
  | [] => []
  | c :: s' => if is_word c then skip_word s' else s
  end.

(** The character after which the token ends, and its kind. *)
Definition scan (s : list Z) : Z * list Z :=
  match s with
  | [] => (0, [])
  | c :: s' =>
      if c =? 62 then
        match s' with
        | d :: s'' => if d =? 62 then (43, s'') else (62, s')
        | [] => (62, s')
        end
      else if is_symbol c then (c, s')
      else (97, skip_word s)
  end.

(** [gettoken]: the kind, [*q], [*eq], and [*ps] after it. *)
Definition gettoken (s : list Z) : Z * token * list Z :=
  let q := skip_spaces s in
  let '(ret, eq) := scan q in
  (ret, (q, eq), skip_spaces eq).

(** [peek]: the answer and [*ps] after it. *)
Definition peek (s toks : list Z) : bool * list Z :=
  let s := skip_spaces s in
  (match s with
   | [] => false
   | c :: _ => bool_decide (is_Some (strchr toks c))
   end, s).

(** ** The parser *)

(** A redirection: [file] with its end, [mode] and [fd] of a redircmd. *)
Definition redir : Type := token * Z * Z.

(** [redircmd] around a command, for each redirection in turn. *)
Definition redircmds (c : cmd token) (rs : list redir) : cmd token :=
  fold_left (fun c '(file, mode, fd) => REDIR c file mode fd) rs c.

(** The loop of [parseredirs]: the redirections it wraps its argument in. *)
Fixpoint redirs_loop (fuel : nat) (s : list Z) : parsed (list redir) :=
  match fuel with
  | O => PFuel
  | S fuel =>
      let '(yes, s) := peek s (bytes "<>") in
      if negb yes then POk [] s else
      let '(tok, _, s) := gettoken s in
      let '(ret, file, s) := gettoken s in
      if negb (ret =? 97) then PPanic "missing file for redirection" else
      let r := if tok =? 60 then (file, O_RDONLY, 0) else (file, Z.lor O_WRONLY O_CREATE, 1) in
      match redirs_loop fuel s with
      | POk rs s => POk (r :: rs) s
      | PPanic m => PPanic m
      | PFuel => PFuel
      end
  end.

Definition parseredirs (c : cmd token) (s : list Z) : parsed (cmd token) :=
  match redirs_loop (S (length s)) s with
  | POk rs s => POk (redircmds c rs) s
  | PPanic m => PPanic m
  | PFuel => PFuel
  end.

(** The loop of [parseexec].  The execcmd is filled in while the
    redirections are already wrapped around it, so both are collected. *)
Fixpoint args_loop (fuel : nat) (argv : list token) (rs : list redir) (s : list Z) : parsed (cmd token) :=
  match fuel with
  | O => PFuel
  | S fuel =>
      let '(stop, s) := peek s (bytes "|)&;") in
      if stop : bool then POk (redircmds (EXEC argv) rs) s else
      let '(tok, t, s) := gettoken s in
      if tok =? 0 then POk (redircmds (EXEC argv) rs) s else
      if negb (tok =? 97) then PPanic "syntax" else
      let argv := argv ++ [t] in
      if (MAXARGS <=? length argv)%nat then PPanic "too many args" else
      match redirs_loop (S (length s)) s with
      | POk rs' s => args_loop fuel argv (rs ++ rs') s
      | PPanic m => PPanic m
      | PFuel => PFuel
      end
  end.

(** The loop of [parseline] that makes background commands. *)
Fixpoint back_loop (fuel : nat) (c : cmd token) (s : list Z) : parsed (cmd token) :=
  match fuel with
  | O => PFuel
  | S fuel =>
      let '(yes, s) := peek s (bytes "&") in
      if negb yes then POk c s else
      let '(_, _, s) := gettoken s in
      back_loop fuel (BACK c) s
  end.

(** The four parsers call each other; the fuel bounds the depth of the calls. *)
Fixpoint parseline (fuel : nat) (s : list Z) : parsed (cmd token) :=
  match fuel with
  | O => PFuel
  | S fuel =>
      match parsepipe fuel s with
      | POk c s =>
          match back_loop (S (length s)) c s with
          | POk c s =>
              let '(yes, s) := peek s (bytes ";") in
              if negb yes then POk c s else
              let '(_, _, s) := gettoken s in
              match parseline fuel s with
              | POk c' s => POk (LIST c c') s
              | r => r
              end
          | r => r
          end
      | r => r
      end
  end
with parsepipe (fuel : nat) (s : list Z) : parsed (cmd token) :=
  match fuel with
  | O => PFuel
  | S fuel =>
      match parseexec fuel s with
      | POk c s =>
          let '(yes, s) := peek s (bytes "|") in
          if negb yes then POk c s else
          let '(_, _, s) := gettoken s in
          match parsepipe fuel s with
          | POk c' s => POk (PIPE c c') s
          | r => r
          end
      | r => r
      end
  end
with parseexec (fuel : nat) (s : list Z) : parsed (cmd token) :=
  match fuel with
  | O => PFuel
  | S fuel =>
      let '(yes, s) := peek s (bytes "(") in
      if yes : bool then parseblock fuel s else
      match redirs_loop (S (length s)) s with
      | POk rs s => args_loop (S (length s)) [] rs s
      | PPanic m => PPanic m
      | PFuel => PFuel
      end
  end
with parseblock (fuel : nat) (s : list Z) : parsed (cmd token) :=
  match fuel with
  | O => PFuel
  | S fuel =>
      let '(yes, s) := peek s (bytes "(") in
      if negb yes then PPanic "parseblock" else
      let '(_, _, s) := gettoken s in
      match parseline fuel s with
      | POk c s =>
          let '(yes, s) := peek s (bytes ")") in
          if negb yes then PPanic "syntax - missing )" else
          let '(_, _, s) := gettoken s in
          parseredirs c s
      | r => r
      end
  end.

(** Between two calls that eat nothing of the line there are at most three
    more. *)
Definition parse_fuel (s : list Z) : nat := 4 * length s + 4.

(** ** nulterminate *)

(** The ends of the counted strings, in the order they are overwritten. *)
Fixpoint ends (c : cmd token) : list (list Z) :=
  match c with
  | EXEC argv => map snd argv
  | REDIR c file _ _ => ends c ++ [snd file]
  | PIPE l r | LIST l r => ends l ++ ends r
  | BACK c => ends c
  end.

(** A NUL at the end of each of them, in the line [buf] with its NUL. *)
Definition nulterminate (buf : list Z) (c : cmd token) : list Z :=
  fold_left (fun b eq => <[(length buf - 1 - length eq)%nat := 0]> b) (ends c) buf.

(** The string that a token is after that. *)
Definition string_at (buf : list Z) (t : token) : list Z := cstring (drop (length buf - 1 - length (fst t)) buf).

Fixpoint cmd_map {T U} (f : T -> U) (c : cmd T) : cmd U :=
  match c with
  | EXEC argv => EXEC (map f argv)
  | REDIR c file mode fd => REDIR (cmd_map f c) (f file) mode fd
  | PIPE l r => PIPE (cmd_map f l) (cmd_map f r)
  | LIST l r => LIST (cmd_map f l) (cmd_map f r)
  | BACK c => BACK (cmd_map f c)
  end.

(** ** Running commands *)

Section Run.
  Context {W : Type} `{Os W}.

(** [panic] of the shell. *)
Definition die {A} (msg : list Z) : M W A := printf 2 (bytes "%s" ++ [10]) [PStr msg] ;; exit.

Definition fork1 : M W Z :=
  pid ← sysv Fork;
  if pid =? -1 then die (bytes "fork") else mret pid.

(** [parsecmd(s)], the strings of its result read in the line it leaves. *)
Definition parsecmd (s : list Z) : M W (cmd (list Z)) :=
  match parseline (parse_fuel s) s with
  | POk c r =>
      let '(_, r) := peek r [] in
      match r with
      | [] => let buf := nulterminate (s ++ [0]) c in mret (cmd_map (string_at buf) c)
      | _ => printf 2 (bytes "leftovers: %s" ++ [10]) [PStr r] ;; die (bytes "syntax")
      end
  | PPanic msg => die (bytes msg)
  | PFuel => undef "parsecmd: fuel"
  end.

(** A successful [exec] does not return. *)
Definition exec (path : list Z) (argv : list (list Z)) : M W unit :=
  r ← sysv (Exec path argv); if r <? 0 then mret tt else park.

(** [runcmd] never returns.  [fork1] returns in both processes. *)
Fixpoint runcmd (c : cmd (list Z)) : M W unit :=
  match c with
  | EXEC [] => exit
  | EXEC (a :: argv) =>
      exec a (a :: argv) ;;
      printf 2 (bytes "exec %s failed" ++ [10]) [PStr a] ;;
      exit
  | REDIR c file mode fd =>
      sysv (Close fd) ;;
      r ← sysv (Open file mode);
      if r <? 0 then printf 2 (bytes "open %s failed" ++ [10]) [PStr file] ;; exit
      else runcmd c ;; exit
  | LIST c1 c2 =>
      pid ← fork1;
      (if pid =? 0 then runcmd c1 else mret tt) ;;
      sysv Wait ;;
      runcmd c2 ;;
      exit
  | PIPE c1 c2 =>
      r ← sys Pipe;
      if fst r <? 0 then die (bytes "pipe") else
      let p0 := get32 (snd r) 0 in
      let p1 := get32 (snd r) 4 in
      pid ← fork1;
      (if pid =? 0 then
         sysv (Close 1) ;; sysv (Dup p1) ;; sysv (Close p0) ;; sysv (Close p1) ;; runcmd c1
       else mret tt) ;;
      pid ← fork1;
      (if pid =? 0 then
         sysv (Close 0) ;; sysv (Dup p0) ;; sysv (Close p0) ;; sysv (Close p1) ;; runcmd c2
       else mret tt) ;;
      sysv (Close p0) ;;
      sysv (Close p1) ;;
      sysv Wait ;;
      sysv Wait ;;
      exit
  | BACK c =>
      pid ← fork1;
      (if pid =? 0 then runcmd c else mret tt) ;;
      exit
  end.

(** [getcmd]: the line, or nothing at the end of the input. *)
Definition getcmd (nbuf : nat) : M W (option (list Z)) :=
  printf 2 (bytes "$ ") [] ;;
  l ← gets nbuf;
  match l with
  | [] => mret None
  | c :: _ => if c =? 0 then mret None else mret (Some l)
  end.

(** The loop of [main] that opens the three descriptors. *)
Fixpoint open_console (fuel : nat) : M W unit :=
  match fuel with
  | O => undef "sh: fuel"
  | S fuel =>
      fd ← sysv (Open (bytes "console") 2);
      if fd <? 0 then mret tt else
      if 3 <=? fd then sysv (Close fd) ;; mret tt else open_console fuel
  end.

(** One command line. *)
Definition command_line (buf : list Z) : M W unit :=
  match cstring buf with
  | 99 :: 100 :: 32 :: _ =>
      let dir := drop 3 (take (length (cstring buf) - 1) (cstring buf)) in
      r ← sysv (Chdir dir);
      if r <? 0 then printf 2 (bytes "cannot cd %s" ++ [10]) [PStr dir] else mret tt
  | line =>
      pid ← fork1;
      (if pid =? 0 then c ← parsecmd line; runcmd c else mret tt) ;;
      sysv Wait ;;
      mret tt
  end.

(** [main], for as many command lines as there is fuel. *)
Fixpoint sh_loop (fuel : nat) : M W unit :=
  match fuel with
  | O => undef "sh: fuel"
  | S fuel =>
      l ← getcmd 100;
      match l with
      | None => exit
      | Some buf => command_line buf ;; sh_loop fuel
      end
  end.
Definition sh_main (fuel : nat) : M W unit := open_console fuel ;; sh_loop fuel.
End Run.

(** ** The parser always ends *)

Lemma skip_spaces_length s : (length (skip_spaces s) <= length s)%nat.
Proof. induction s as [|c s IH]; cbn; [lia|]. destruct (is_space c); simpl; lia. Qed.
Lemma skip_word_length s : (length (skip_word s) <= length s)%nat.
Proof. induction s as [|c s IH]; cbn; [lia|]. destruct (is_word c); simpl; lia. Qed.
Lemma skip_spaces_idem s : skip_spaces (skip_spaces s) = skip_spaces s.
Proof. induction s as [|c s IH]; cbn; [done|]. destruct (is_space c) eqn:E; [done|]. cbn. by rewrite E. Qed.
Lemma skip_spaces_head s c s' : skip_spaces s = c :: s' -> is_space c = false.
Proof. induction s as [|d s IH]; cbn; [done|]. destruct (is_space d) eqn:E; [done|]. by intros [= <- <-]. Qed.

Lemma scan_length c s : is_space c = false -> (length (snd (scan (c :: s))) <= length s)%nat.
Proof.
  intros Hc. cbn [scan]. destruct (c =? 62).
  - destruct s as [|d s]; [done|]. destruct (d =? 62); simpl; lia.
  - destruct (is_symbol c) eqn:Hs; [done|]. cbn. unfold is_word. rewrite Hc, Hs. cbn. apply skip_word_length.
Qed.

(** A token eats something, unless the line is at its end. *)
Lemma gettoken_length s ret t s' : gettoken s = (ret, t, s') ->
  (length s' <= length s)%nat /\ (skip_spaces s <> [] -> length s' < length s)%nat /\ (ret <> 0%Z -> length s' < length s)%nat.
Proof.
  unfold gettoken. pose proof (skip_spaces_length s) as Hs. destruct (skip_spaces s) as [|c q] eqn:E.
  - cbn. intros [= <- <- <-]. simpl. split_and!; [lia|done|done].
  - pose proof (scan_length c q (skip_spaces_head _ _ _ E)) as Hl. destruct (scan (c :: q)) as [r eq].
    intros [= <- <- <-]. pose proof (skip_spaces_length eq). simpl in *. split_and!; intros; lia.
Qed.

(** A parser that has not run out of fuel, and leaves a part of [s]. *)
Definition ended {A} (s : list Z) (r : parsed A) : Prop :=
  match r with POk _ s' => (length s' <= length s)%nat | PPanic _ => True | PFuel => False end.

Lemma peek_length s toks b s' : peek s toks = (b, s') -> (length s' <= length s)%nat /\ (b = true -> skip_spaces s' <> []).
Proof.
  unfold peek. intros [= <- <-]. rewrite skip_spaces_idem. split; [apply skip_spaces_length|].
  by destruct (skip_spaces s).
Qed.

Ltac use_known :=
  repeat match goal with
  | H : true = true -> _ |- _ => specialize (H eq_refl)
  | H : false = true -> _ |- _ => clear H
  | H : ?P -> (_ < _)%nat, H' : ?P |- _ => specialize (H H')
  end.
Ltac token s :=
  let E := fresh "E" in
  destruct (gettoken s) as [[? ?] ?] eqn:E; apply gettoken_length in E as (? & ? & ?); use_known.
Ltac look s toks :=
  let E := fresh "E" in let b := fresh "b" in
  destruct (peek s toks) as [b ?] eqn:E; apply peek_length in E as (? & ?); destruct b; cbn [negb]; use_known.

Lemma redirs_loop_ended fuel s : (length s < fuel)%nat -> ended s (redirs_loop fuel s).
Proof.
  revert s. induction fuel as [|fuel IH]; intros s Hf; [lia|]. cbn [redirs_loop].
  look s (bytes "<>"); [|simpl; lia]. token l. token l0. destruct (z0 =? 97); cbn; [|done].
  specialize (IH l1 ltac:(lia)). destruct (redirs_loop fuel l1); simpl in *; [lia|done|done].
Qed.

Lemma args_loop_ended fuel argv rs s : (length s < fuel)%nat -> ended s (args_loop fuel argv rs s).
Proof.
  revert argv rs s. induction fuel as [|fuel IH]; intros argv rs s Hf; [lia|]. cbn [args_loop].
  look s (bytes "|)&;"); [simpl; lia|]. token l. destruct (Z.eqb_spec z 0); [simpl; lia|]. use_known.
  destruct (z =? 97); cbn [negb]; [|done]. destruct (_ <=? _)%nat; [done|].
  pose proof (redirs_loop_ended (S (length l0)) l0 ltac:(lia)) as Hr. destruct (redirs_loop _ l0) as [rs' s'| |]; simpl in Hr; try done.
  specialize (IH (argv ++ [t]) (rs ++ rs') s' ltac:(lia)). destruct (args_loop fuel _ _ s'); simpl in *; [lia|done|done].
Qed.

Lemma back_loop_ended fuel c s : (length s < fuel)%nat -> ended s (back_loop fuel c s).
Proof.
  revert c s. induction fuel as [|fuel IH]; intros c s Hf; [lia|]. cbn [back_loop].
  look s (bytes "&"); [|simpl; lia]. token l. specialize (IH (BACK c) l0 ltac:(lia)).
  destruct (back_loop fuel _ l0); simpl in *; [lia|done|done].
Qed.

(** Each parser of the cycle has one call less to make than the one before. *)
Lemma parse_ended fuel : forall s,
  (4 * length s + 4 <= fuel -> ended s (parseline fuel s))%nat /\
  (4 * length s + 3 <= fuel -> ended s (parsepipe fuel s))%nat /\
  (4 * length s + 2 <= fuel -> ended s (parseexec fuel s))%nat /\
  (4 * length s + 1 <= fuel -> ended s (parseblock fuel s))%nat.
Proof.
  induction fuel as [|fuel IH]; intros s; [split_and!; lia|].
  split_and!; intros Hf; cbn [parseline parsepipe parseexec parseblock].
  - pose proof (proj1 (proj2 (IH s)) ltac:(lia)) as Hp. destruct (parsepipe fuel s) as [c s1| |]; simpl in Hp; try done.
    pose proof (back_loop_ended (S (length s1)) c s1 ltac:(lia)) as Hb. destruct (back_loop _ c s1) as [c' s2| |]; simpl in Hb; try done.
    look s2 (bytes ";"); [|simpl; lia]. token l. pose proof (proj1 (IH l0) ltac:(lia)) as Hl.
    destruct (parseline fuel l0); simpl in *; [lia|done|done].
  - pose proof (proj1 (proj2 (proj2 (IH s))) ltac:(lia)) as Hp. destruct (parseexec fuel s) as [c s1| |]; simpl in Hp; try done.
    look s1 (bytes "|"); [|simpl; lia]. token l. pose proof (proj1 (proj2 (IH l0)) ltac:(lia)) as Hl.
    destruct (parsepipe fuel l0); simpl in *; [lia|done|done].
  - look s (bytes "(").
    + pose proof (proj2 (proj2 (proj2 (IH l))) ltac:(lia)) as Hl. destruct (parseblock fuel l); simpl in *; [lia|done|done].
    + pose proof (redirs_loop_ended (S (length l)) l ltac:(lia)) as Hr. destruct (redirs_loop _ l) as [rs s1| |]; simpl in Hr; try done.
      pose proof (args_loop_ended (S (length s1)) [] rs s1 ltac:(lia)) as Ha.
      destruct (args_loop _ _ _ s1); simpl in *; [lia|done|done].
  - look s (bytes "("); [|done]. token l. pose proof (proj1 (IH l0) ltac:(lia)) as Hl.
    destruct (parseline fuel l0) as [c s1| |]; simpl in Hl; try done. look s1 (bytes ")"); [|done]. token l1.
    unfold parseredirs. pose proof (redirs_loop_ended (S (length l2)) l2 ltac:(lia)) as Hr.
    destruct (redirs_loop _ l2); simpl in *; [lia|done|done].
Qed.

(** ** The language of the shell *)

(** The tokens of a line: a word, or a symbol, where 43 is [>>]. *)
Inductive tok : Type := TWord (w : list Z) | TSym (c : Z).

Definition sym_chars (c : Z) : list Z := if c =? 43 then [62; 62] else [c].
Definition is_sym (c : Z) : bool := is_symbol c || (c =? 43).

(** A word ends where no character of a word follows. *)
Definition stops (s : list Z) : Prop := match s with [] => True | c :: _ => is_word c = false end.

(** The line [s] is made of these tokens, with spaces between, before and
    after them as one likes. *)
Inductive lexes : list Z -> list tok -> Prop :=
| lexes_end s : skip_spaces s = [] -> lexes s []
| lexes_word s w s' ts :
    skip_spaces s = w ++ s' -> w <> [] -> Forall (fun c => is_word c = true) w -> stops s' -> lexes s' ts ->
    lexes s (TWord w :: ts)
| lexes_sym s c s' ts :
    skip_spaces s = sym_chars c ++ s' -> is_sym c = true -> (c = 62 -> forall s'', s' <> 62 :: s'') -> lexes s' ts ->
    lexes s (TSym c :: ts).

(** The grammar: a redirection is its symbol and its file; a simple command is
    words with redirections before and between them; a block is a line in
    parentheses; a pipeline is commands between bars; a line is pipelines,
    each followed by any number of [&], between semicolons. *)
Definition sredir : Type := Z * list Z.
Inductive line : Type :=
| LEnd (p : pipeline) (bg : nat)
| LSeq (p : pipeline) (bg : nat) (l : line)
with pipeline : Type :=
| PEnd (e : simple)
| PBar (e : simple) (p : pipeline)
with simple : Type :=
| ESimple (rs : list sredir) (ws : list (list Z * list sredir))
| EBlock (l : line) (rs : list sredir).

Definition redir_toks (rs : list sredir) : list tok := concat (map (fun '(c, f) => [TSym c; TWord f]) rs).

Fixpoint line_toks (l : line) : list tok :=
  match l with
  | LEnd p n => pipe_toks p ++ replicate n (TSym 38)
  | LSeq p n l => pipe_toks p ++ replicate n (TSym 38) ++ TSym 59 :: line_toks l
  end
with pipe_toks (p : pipeline) : list tok :=
  match p with
  | PEnd e => simple_toks e
  | PBar e p => simple_toks e ++ TSym 124 :: pipe_toks p
  end
with simple_toks (e : simple) : list tok :=
  match e with
  | ESimple rs ws => redir_toks rs ++ concat (map (fun '(w, rs) => TWord w :: redir_toks rs) ws)
  | EBlock l rs => TSym 40 :: line_toks l ++ TSym 41 :: redir_toks rs
  end.

(** The command that a line stands for. *)
Definition mean_redirs (c : cmd (list Z)) (rs : list sredir) : cmd (list Z) :=
  fold_left (fun c '(s, f) => if s =? 60 then REDIR c f O_RDONLY 0 else REDIR c f (Z.lor O_WRONLY O_CREATE) 1) rs c.

Fixpoint mean_line (l : line) : cmd (list Z) :=
  match l with
  | LEnd p n => Nat.iter n BACK (mean_pipe p)
  | LSeq p n l => LIST (Nat.iter n BACK (mean_pipe p)) (mean_line l)
  end
with mean_pipe (p : pipeline) : cmd (list Z) :=
  match p with
  | PEnd e => mean_simple e
  | PBar e p => PIPE (mean_simple e) (mean_pipe p)
  end
with mean_simple (e : simple) : cmd (list Z) :=
  match e with
  | ESimple rs ws => mean_redirs (EXEC (map fst ws)) (rs ++ concat (map snd ws))
  | EBlock l rs => mean_redirs (mean_line l) rs
  end.

(** Redirections are made with their symbols, and there are at most nine
    words. *)
Definition redirs_ok (rs : list sredir) : Prop := Forall (fun r => fst r = 60 \/ fst r = 62 \/ fst r = 43) rs.
Fixpoint line_ok (l : line) : Prop :=
  match l with
  | LEnd p _ => pipe_ok p
  | LSeq p _ l => pipe_ok p /\ line_ok l
  end
with pipe_ok (p : pipeline) : Prop :=
  match p with
  | PEnd e => simple_ok e
  | PBar e p => simple_ok e /\ pipe_ok p
  end
with simple_ok (e : simple) : Prop :=
  match e with
  | ESimple rs ws => redirs_ok rs /\ Forall (fun w => redirs_ok (snd w)) ws /\ (length ws < MAXARGS)%nat
  | EBlock l rs => line_ok l /\ redirs_ok rs
  end.

(** ** Tokens of a line that lexes *)

(** The word that a token counts, in a line that ends with [s]. *)
Definition word_of (t : token) : list Z := take (length (fst t) - length (snd t)) (fst t).

(** A word token of the line [s]. *)
Definition token_in (s : list Z) (t : token) : Prop :=
  fst t `suffix_of` s /\
  exists w, fst t = w ++ snd t /\ w <> [] /\ Forall (fun c => is_word c = true) w /\ stops (snd t).

Lemma word_of_app w r : word_of (w ++ r, r) = w.
Proof. unfold word_of. cbn. rewrite length_app. replace (_ - _)%nat with (length w) by lia. by rewrite take_app_length. Qed.

Lemma suffix_skip s : skip_spaces s `suffix_of` s.
Proof.
  induction s as [|c s IH]; [done|]. cbn. destruct (is_space c); [|done].
  etrans; [exact IH|]. by apply suffix_cons_r.
Qed.
Lemma token_in_suffix s s' t : s' `suffix_of` s -> token_in s' t -> token_in s t.
Proof. intros Hs [Ht Hw]. split; [by etrans|done]. Qed.

Lemma lexes_skip s ts : lexes s ts -> lexes (skip_spaces s) ts.
Proof.
  intros Hl. destruct Hl; [apply lexes_end|eapply lexes_word|eapply lexes_sym]; rewrite ?skip_spaces_idem; eauto.
Qed.
Lemma skip_lexes s ts : lexes (skip_spaces s) ts -> lexes s ts.
Proof.
  intros Hl. remember (skip_spaces s) as q eqn:E. destruct Hl; subst s0 || subst; rewrite ?skip_spaces_idem in *;
    [by apply lexes_end|by eapply lexes_word|by eapply lexes_sym].
Qed.

Lemma word_char c : is_word c = true -> is_space c = false /\ is_symbol c = false /\ (c =? 62) = false.
Proof.
  unfold is_word. intros [?%negb_true_iff Hs%negb_true_iff]%andb_true_iff. split_and!; [done..|].
  apply Z.eqb_neq. by intros ->.
Qed.

Lemma skip_word_app w s : Forall (fun c => is_word c = true) w -> stops s -> skip_word (w ++ s) = s.
Proof.
  intros Hw Hs. induction w as [|c w IH].
  - destruct s as [|c s]; [done|]. simpl in *. by rewrite Hs.
  - apply Forall_cons in Hw as [Hc Hw]. cbn. rewrite Hc. auto.
Qed.

Definition kind (t : tok) : Z := match t with TWord _ => 97 | TSym c => c end.

(** The next token of a line. *)
Lemma gettoken_lex s t ts : lexes s (t :: ts) -> exists x s',
  gettoken s = (kind t, x, s') /\ lexes s' ts /\ s' `suffix_of` s /\ (length s' < length s)%nat /\
  match t with TWord w => token_in s x /\ word_of x = w | TSym _ => True end.
Proof.
  intros Hl. unfold gettoken. pose proof (suffix_skip s) as Hsk. inversion Hl as [|? w s1 ? E Hne Hw Hst Hl1|? c s1 ? E Hc H62 Hl1]; subst.
  - destruct w as [|c w]; [done|]. pose proof (Forall_inv Hw) as Hwc. destruct (word_char c Hwc) as (Hsp & Hsy & H62).
    assert (scan (skip_spaces s) = (97, s1)) as ->.
    { rewrite E. cbn [scan app]. rewrite H62, Hsy. f_equal. by apply (skip_word_app (c :: w)). }
    rewrite E in Hsk |- *. exists ((c :: w) ++ s1, s1), (skip_spaces s1). split_and!.
    + done.
    + by apply lexes_skip.
    + etrans; [apply suffix_skip|]. etrans; [|exact Hsk]. by apply suffix_app_r.
    + apply suffix_length in Hsk. rewrite length_app in Hsk. pose proof (skip_spaces_length s1). simpl in Hsk. lia.
    + split; [done|]. by exists (c :: w).
    + apply word_of_app.
  - assert (scan (skip_spaces s) = (c, s1)) as ->.
    { rewrite E. unfold sym_chars, is_sym in *. destruct (Z.eqb_spec c 43) as [->|]; [done|]. rewrite orb_false_r in Hc.
      cbn [app scan]. destruct (Z.eqb_spec c 62) as [->|]; [|by rewrite Hc]. destruct s1 as [|d s1]; [done|].
      destruct (Z.eqb_spec d 62) as [->|]; [|done]. by destruct (H62 eq_refl s1). }
    rewrite E in Hsk |- *. exists (sym_chars c ++ s1, s1), (skip_spaces s1). split_and!; [done|by apply lexes_skip| | |done].
    + etrans; [apply suffix_skip|]. etrans; [|exact Hsk]. by apply suffix_app_r.
    + apply suffix_length in Hsk. rewrite length_app in Hsk. pose proof (skip_spaces_length s1).
      assert (0 < length (sym_chars c))%nat by (unfold sym_chars; destruct (c =? 43); simpl; lia). lia.
Qed.

(** Does the first token start with one of these characters? *)
Definition starts (toks : list Z) (ts : list tok) : bool :=
  match ts with
  | TSym c :: _ => bool_decide (is_Some (strchr toks (if c =? 43 then 62 else c)))
  | _ => false
  end.

Lemma peek_lex s ts toks : lexes s ts -> Forall (fun c => is_symbol c = true) toks ->
  peek s toks = (starts toks ts, skip_spaces s).
Proof.
  intros Hl Ht. unfold peek. f_equal. inversion Hl as [? E|? w s1 ? E Hne Hw|? c s1 ? E Hc]; subst; rewrite E; [done|..].
  - destruct w as [|c w]; [done|]. cbn. apply bool_decide_eq_false. intros [d (l & r & -> & _)%strchr_some].
    apply Forall_app in Ht as [_ Ht]. apply Forall_inv in Ht. apply Forall_inv in Hw.
    destruct (word_char c Hw) as (_ & ? & _). congruence.
  - unfold sym_chars. cbn. by destruct (c =? 43).
Qed.

Ltac peek_at H := rewrite (peek_lex _ _ _ H) by (by repeat constructor).

(** ** Parsing gives back the meaning *)

(** The tokens of a command. *)
Fixpoint toks_of (c : cmd token) : list token :=
  match c with
  | EXEC argv => argv
  | REDIR c file _ _ => toks_of c ++ [file]
  | PIPE l r | LIST l r => toks_of l ++ toks_of r
  | BACK c => toks_of c
  end.

(** The parser has read what stands for [m], and [ts] are left. *)
Definition reads (s : list Z) (m : cmd (list Z)) (ts : list tok) (r : parsed (cmd token)) : Prop :=
  exists c s', r = POk c s' /\ lexes s' ts /\ s' `suffix_of` s /\
    Forall (token_in s) (toks_of c) /\ cmd_map word_of c = m.

(** The redirections that are read. *)
Definition redir_of (r : redir) (sr : sredir) : Prop :=
  let '(t, mode, fd) := r in
  word_of t = snd sr /\ (mode, fd) = (if fst sr =? 60 then (O_RDONLY, 0) else (Z.lor O_WRONLY O_CREATE, 1)).

Lemma redirs_loop_reads fuel rs s ts :
  lexes s (redir_toks rs ++ ts) -> redirs_ok rs -> starts (bytes "<>") ts = false -> (length s < fuel)%nat ->
  exists rs' s', redirs_loop fuel s = POk rs' s' /\ lexes s' ts /\ s' `suffix_of` s /\
    Forall (fun r => token_in s (fst (fst r))) rs' /\ Forall2 redir_of rs' rs.
Proof.
  revert rs s. induction fuel as [|fuel IH]; intros rs s Hl Hok Hts Hf; [lia|]. cbn [redirs_loop]. peek_at Hl.
  destruct rs as [|[c f] rs].
  - cbn [redir_toks map concat app] in *. rewrite Hts. cbn. exists [], (skip_spaces s).
    split_and!; [done|by apply lexes_skip|apply suffix_skip|constructor..].
  - apply Forall_cons in Hok as [Hc Hok]. cbn [redir_toks map concat app] in Hl. fold (redir_toks rs) in Hl.
    match goal with |- context [starts ?a ?b] =>
      assert (starts a b = true) as -> by (cbn; cbn in Hc; by destruct Hc as [-> | [-> | ->]]) end.
    cbn [negb]. destruct (gettoken_lex _ _ _ (lexes_skip _ _ Hl)) as (x1 & s1 & -> & Hl1 & Hs1 & Hlen1 & _).
    destruct (gettoken_lex _ _ _ Hl1) as (x2 & s2 & -> & Hl2 & Hs2 & Hlen2 & Hin & Hw). cbn [kind].
    change (negb (97 =? 97)) with false. cbv beta iota. pose proof (skip_spaces_length s).
    destruct (IH rs s2 Hl2 Hok Hts ltac:(lia)) as (rs' & s' & -> & Hl' & Hs' & Hin' & Hrs).
    assert (s2 `suffix_of` s) as Hss by (etrans; [exact Hs2|]; etrans; [exact Hs1|apply suffix_skip]).
    eexists _, s'. split_and!; [done|done|by etrans| |].
    + constructor; [|by eapply Forall_impl; [exact Hin'|]; intros; eapply token_in_suffix].
      eapply token_in_suffix; [|destruct (c =? 60); exact Hin]. etrans; [exact Hs1|apply suffix_skip].
    + constructor; [|done]. cbn in Hc. destruct Hc as [-> | [-> | ->]]; by split.
Qed.

(** What may follow: the end, or one of these symbols. *)
Definition followed (cs : list Z) (ts : list tok) : Prop :=
  match ts with [] => True | TSym c :: _ => c ∈ cs | TWord _ :: _ => False end.

Lemma followed_starts cs toks ts :
  followed cs ts -> Forall (fun c => strchr toks (if c =? 43 then 62 else c) = None) cs -> starts toks ts = false.
Proof.
  destruct ts as [|[w|c] ts]; cbn; [done..|]. intros Hc Hf. apply bool_decide_eq_false. intros [d Hd].
  rewrite Forall_forall in Hf. rewrite (Hf c Hc) in Hd. done.
Qed.
Ltac not_next H := rewrite (followed_starts _ _ _ H) by (by repeat constructor); cbn [negb].

Lemma followed_sub cs cs' ts : followed cs ts -> cs ⊆ cs' -> followed cs' ts.
Proof. destruct ts as [|[w|c] ts]; cbn; auto. Qed.

(** What follows a simple command ends its arguments. *)
Lemma args_end cs ts s argv rs fuel : lexes s ts -> followed cs ts -> cs ⊆ bytes "|)&;" -> exists s',
  args_loop (S fuel) argv rs s = POk (redircmds (EXEC argv) rs) s' /\ lexes s' ts /\ s' `suffix_of` s.
Proof.
  intros Hl Hfo Hcs. cbn [args_loop]. peek_at Hl. destruct ts as [|[w|c] ts]; [|done|].
  - cbn [starts]. inversion Hl as [? E| |]; subst. unfold gettoken. rewrite E. cbn. exists []. split_and!; [done|by apply lexes_end|].
    apply suffix_nil.
  - assert (starts (bytes "|)&;") (TSym c :: ts) = true) as ->.
    { cbn in *. apply Hcs in Hfo. repeat (apply elem_of_cons in Hfo as [->|Hfo]; [done|]). by apply elem_of_nil in Hfo. }
    eexists. split_and!; [done|by apply lexes_skip|apply suffix_skip].
Qed.

Lemma args_loop_reads fuel : forall ws argv rs s ts,
  lexes s (concat (map (fun '(w, rs) => TWord w :: redir_toks rs) ws) ++ ts) ->
  Forall (fun w => redirs_ok (snd w)) ws -> followed (bytes "|)&;") ts ->
  (length argv + length ws < MAXARGS)%nat -> (length s < fuel)%nat ->
  exists argv' rs' s', args_loop fuel argv rs s = POk (redircmds (EXEC (argv ++ argv')) (rs ++ rs')) s' /\
    lexes s' ts /\ s' `suffix_of` s /\ Forall (token_in s) argv' /\ Forall (fun r => token_in s (fst (fst r))) rs' /\
    map word_of argv' = map fst ws /\ Forall2 redir_of rs' (concat (map snd ws)).
Proof.
  induction fuel as [|fuel IH]; intros ws argv rs s ts Hl Hok Hfo Hn Hf; [lia|].
  destruct ws as [|[w rsw] ws].
  { destruct (args_end _ ts s argv rs fuel Hl Hfo ltac:(done)) as (s' & -> & Hl' & Hs').
    exists [], [], s'. rewrite !app_nil_r. split_and!; done || constructor. }
  cbn [map concat app] in Hl. rewrite <-app_assoc in Hl. apply Forall_cons in Hok as [Hw Hok]. cbn [length snd] in *.
  cbn [args_loop]. peek_at Hl. cbn [starts].
  destruct (gettoken_lex _ _ _ (lexes_skip _ _ Hl)) as (x & s1 & -> & Hl1 & Hs1 & Hlen1 & Hin & Hx). cbn [kind].
  change (97 =? 0) with false. change (negb (97 =? 97)) with false. cbv iota.
  rewrite (proj2 (Nat.leb_gt _ _)) by (rewrite length_app; simpl; lia).
  assert (starts (bytes "<>") (concat (map (fun '(w, rs) => TWord w :: redir_toks rs) ws) ++ ts) = false) as Hst.
  { destruct ws as [|[w' rs'] ws]; [|done]. cbn. by not_next Hfo. }
  destruct (redirs_loop_reads (S (length s1)) rsw s1 _ Hl1 Hw Hst ltac:(lia)) as (rs1 & s2 & -> & Hl2 & Hs2 & Hin2 & Hrs2).
  pose proof (skip_spaces_length s). pose proof (suffix_length _ _ Hs2).
  destruct (IH ws (argv ++ [x]) (rs ++ rs1) s2 ts Hl2 Hok Hfo) as (argv' & rs' & s' & -> & Hl' & Hs' & Ha & Hr & Ew & Er);
    [rewrite length_app; simpl; lia|lia|].
  assert (s1 `suffix_of` s) as Hss1 by (etrans; [exact Hs1|apply suffix_skip]).
  assert (s2 `suffix_of` s) as Hss2 by (by etrans).
  exists (x :: argv'), (rs1 ++ rs'), s'. rewrite <-!app_assoc. split_and!; [done|done|by etrans| | | |].
  - constructor; [eapply token_in_suffix; [apply suffix_skip|done]|].
    eapply Forall_impl; [exact Ha|]. intros t. by apply (token_in_suffix s s2).
  - apply Forall_app. split; (eapply Forall_impl; [eassumption|]); intros r; [by apply (token_in_suffix s s1)|by apply (token_in_suffix s s2)].
  - cbn. by rewrite Hx, Ew.
  - cbn. by apply Forall2_app.
Qed.

Lemma redircmds_toks c rs : toks_of (redircmds c rs) = toks_of c ++ map (fun r => fst (fst r)) rs.
Proof.
  unfold redircmds. revert c. induction rs as [|[[t mode] fd] rs IH]; intros c; cbn; [by rewrite app_nil_r|].
  rewrite IH. cbn. by rewrite <-app_assoc.
Qed.

Lemma redircmds_mean c rs srs : Forall2 redir_of rs srs ->
  cmd_map word_of (redircmds c rs) = mean_redirs (cmd_map word_of c) srs.
Proof.
  intros Hrs. unfold redircmds, mean_redirs. revert c.
  induction Hrs as [|[[t mode] fd] [k f] rs srs [Hw Hm] Hrs IH]; intros c; cbn; [done|]. rewrite IH. cbn. cbn in Hw, Hm.
  rewrite Hw. destruct (k =? 60); by injection Hm as -> ->.
Qed.

Lemma iter_back_toks n c : toks_of (Nat.iter n BACK c) = toks_of c.
Proof. induction n; [done|]. cbn. done. Qed.
Lemma iter_back_map n c : cmd_map word_of (Nat.iter n BACK c) = Nat.iter n BACK (cmd_map word_of c).
Proof. induction n as [|n IH]; [done|]. cbn. by f_equal. Qed.

Lemma back_loop_reads fuel : forall n c s ts,
  lexes s (replicate n (TSym 38) ++ ts) -> starts (bytes "&") ts = false -> (length s < fuel)%nat ->
  exists s', back_loop fuel c s = POk (Nat.iter n BACK c) s' /\ lexes s' ts /\ s' `suffix_of` s.
Proof.
  induction fuel as [|fuel IH]; intros n c s ts Hl Hts Hf; [lia|]. cbn [back_loop]. peek_at Hl. destruct n as [|n].
  - cbn [replicate app] in *. rewrite Hts. cbn. eexists. split_and!; [done|by apply lexes_skip|apply suffix_skip].
  - cbn [replicate app] in *. change (starts (bytes "&") (TSym 38 :: replicate n (TSym 38) ++ ts)) with true. cbn [negb].
    destruct (gettoken_lex _ _ _ (lexes_skip _ _ Hl)) as (x & s1 & -> & Hl1 & Hs1 & Hlen1 & _). pose proof (skip_spaces_length s).
    destruct (IH n (BACK c) s1 ts Hl1 Hts ltac:(lia)) as (s' & -> & Hl' & Hs').
    exists s'. split_and!; [by rewrite Nat.iter_succ_r|done|]. etrans; [exact Hs'|]. etrans; [exact Hs1|apply suffix_skip].
Qed.

Scheme line_mut := Induction for line Sort Prop
with pipeline_mut := Induction for pipeline Sort Prop
with simple_mut := Induction for simple Sort Prop.
Combined Scheme shell_ind from line_mut, pipeline_mut, simple_mut.

Definition line_reads (l : line) : Prop := forall fuel s ts,
  line_ok l -> lexes s (line_toks l ++ ts) -> followed [41] ts -> (4 * length s + 4 <= fuel)%nat ->
  reads s (mean_line l) ts (parseline fuel s).
Definition pipe_reads (p : pipeline) : Prop := forall fuel s ts,
  pipe_ok p -> lexes s (pipe_toks p ++ ts) -> followed [41; 38; 59] ts -> (4 * length s + 3 <= fuel)%nat ->
  reads s (mean_pipe p) ts (parsepipe fuel s).
Definition simple_reads (e : simple) : Prop := forall fuel s ts,
  simple_ok e -> lexes s (simple_toks e ++ ts) -> followed (bytes "|)&;") ts -> (4 * length s + 2 <= fuel)%nat ->
  reads s (mean_simple e) ts (parseexec fuel s).

Lemma tokens_weaken s s' l : s' `suffix_of` s -> Forall (token_in s') l -> Forall (token_in s) l.
Proof. intros Hs Hl. eapply Forall_impl; [exact Hl|]. intros t. by apply token_in_suffix. Qed.

(** A pipeline with its background marks. *)
Lemma marked_reads p n fuel s ts : pipe_reads p -> pipe_ok p ->
  lexes s (pipe_toks p ++ replicate n (TSym 38) ++ ts) -> followed [41; 59] ts -> (4 * length s + 3 <= fuel)%nat ->
  exists c s1 s2, parsepipe fuel s = POk c s1 /\ back_loop (S (length s1)) c s1 = POk (Nat.iter n BACK c) s2 /\
    lexes s2 ts /\ s2 `suffix_of` s /\ Forall (token_in s) (toks_of c) /\ cmd_map word_of c = mean_pipe p.
Proof.
  intros Hp Hok Hl Hfo Hf. destruct (Hp fuel s (replicate n (TSym 38) ++ ts) Hok Hl) as (c & s1 & Hr & Hl1 & Hs1 & Hin & Hm); [|done|].
  { destruct n; cbn; [|set_solver]. eapply followed_sub; [exact Hfo|]. set_solver. }
  destruct (back_loop_reads (S (length s1)) n c s1 ts Hl1) as (s2 & Hb & Hl2 & Hs2); [by not_next Hfo|lia|].
  exists c, s1, s2. split_and!; try done. by etrans.
Qed.

Lemma line_end_reads p n : pipe_reads p -> line_reads (LEnd p n).
Proof.
  intros Hp [|fuel] s ts Hok Hl Hfo Hf; [lia|]. cbn [line_toks line_ok] in *. rewrite <-app_assoc in Hl.
  destruct (marked_reads p n fuel s ts Hp Hok Hl) as (c & s1 & s2 & E1 & E2 & Hl2 & Hs2 & Hin & Hm);
    [eapply followed_sub; [exact Hfo|set_solver]|lia|].
  cbn [parseline]. rewrite E1, E2. peek_at Hl2. not_next Hfo.
  eexists _, _. split_and!; [done|by apply lexes_skip|etrans; [apply suffix_skip|done]|by rewrite iter_back_toks|].
  rewrite iter_back_map, Hm. done.
Qed.

Lemma line_seq_reads p n l : pipe_reads p -> line_reads l -> line_reads (LSeq p n l).
Proof.
  intros Hp Hrest [|fuel] s ts [Hok Hokl] Hl Hfo Hf; [lia|]. cbn [line_toks] in Hl. rewrite <-!app_assoc in Hl. cbn [app] in Hl.
  destruct (marked_reads p n fuel s (TSym 59 :: line_toks l ++ ts) Hp Hok Hl) as (c & s1 & s2 & E1 & E2 & Hl2 & Hs2 & Hin & Hm);
    [cbn; set_solver|lia|].
  cbn [parseline]. rewrite E1, E2. peek_at Hl2. change (starts (bytes ";") (TSym 59 :: line_toks l ++ ts)) with true. cbn [negb].
  destruct (gettoken_lex _ _ _ (lexes_skip _ _ Hl2)) as (x & s3 & -> & Hl3 & Hs3 & Hlen3 & _).
  pose proof (skip_spaces_length s2). pose proof (suffix_length _ _ Hs2).
  destruct (Hrest fuel s3 ts Hokl Hl3 Hfo ltac:(lia)) as (c' & s4 & -> & Hl4 & Hs4 & Hin4 & Hm4).
  assert (s3 `suffix_of` s) as Hss by (etrans; [exact Hs3|]; etrans; [apply suffix_skip|done]).
  eexists _, s4. split_and!; [done|done|by etrans| |].
  - cbn. rewrite iter_back_toks. apply Forall_app. split; [done|by eapply tokens_weaken].
  - cbn. by rewrite iter_back_map, Hm, Hm4.
Qed.

Lemma pipe_end_reads e : simple_reads e -> pipe_reads (PEnd e).
Proof.
  intros He [|fuel] s ts Hok Hl Hfo Hf; [lia|]. cbn [pipe_toks pipe_ok] in *.
  destruct (He fuel s ts Hok Hl) as (c & s1 & E1 & Hl1 & Hs1 & Hin & Hm); [eapply followed_sub; [exact Hfo|cbn; set_solver]|lia|].
  cbn [parsepipe]. rewrite E1. peek_at Hl1. not_next Hfo.
  eexists _, _. split_and!; [done|by apply lexes_skip|etrans; [apply suffix_skip|done]|done|done].
Qed.

Lemma pipe_bar_reads e p : simple_reads e -> pipe_reads p -> pipe_reads (PBar e p).
Proof.
  intros He Hp [|fuel] s ts [Hok Hokp] Hl Hfo Hf; [lia|]. cbn [pipe_toks] in Hl. rewrite <-app_assoc in Hl. cbn [app] in Hl.
  destruct (He fuel s (TSym 124 :: pipe_toks p ++ ts) Hok Hl) as (c & s1 & E1 & Hl1 & Hs1 & Hin & Hm); [cbn; set_solver|lia|].
  cbn [parsepipe]. rewrite E1. peek_at Hl1. change (starts (bytes "|") (TSym 124 :: pipe_toks p ++ ts)) with true. cbn [negb].
  destruct (gettoken_lex _ _ _ (lexes_skip _ _ Hl1)) as (x & s3 & -> & Hl3 & Hs3 & Hlen3 & _).
  pose proof (skip_spaces_length s1). pose proof (suffix_length _ _ Hs1).
  destruct (Hp fuel s3 ts Hokp Hl3 Hfo ltac:(lia)) as (c' & s4 & -> & Hl4 & Hs4 & Hin4 & Hm4).
  assert (s3 `suffix_of` s) as Hss by (etrans; [exact Hs3|]; etrans; [apply suffix_skip|done]).
  eexists _, s4. split_and!; [done|done|by etrans| |].
  - cbn. apply Forall_app. split; [done|by eapply tokens_weaken].
  - cbn. by rewrite Hm, Hm4.
Qed.

Lemma simple_simple_reads rs ws : simple_reads (ESimple rs ws).
Proof.
  intros [|fuel] s ts (Hrs & Hws & Hn) Hl Hfo Hf; [lia|]. cbn [simple_toks] in Hl. rewrite <-app_assoc in Hl.
  cbn [parseexec]. peek_at Hl.
  match goal with |- context [starts ?a ?b] => assert (starts a b = false) as -> end.
  { destruct rs as [|[c f] rs]; [destruct ws as [|[w r] ws]; [cbn; by not_next Hfo|done]|].
    apply Forall_inv in Hrs. cbn in Hrs |- *. by destruct Hrs as [-> | [-> | ->]]. }
  set (q := skip_spaces s). pose proof (skip_spaces_length s).
  destruct (redirs_loop_reads (S (length q)) rs q _ (lexes_skip _ _ Hl) Hrs) as (rs1 & s1 & -> & Hl1 & Hs1 & Hin1 & Hr1); [|lia|].
  { destruct ws as [|[w r] ws]; [cbn; by not_next Hfo|done]. }
  destruct (args_loop_reads (S (length s1)) ws [] rs1 s1 ts Hl1 Hws Hfo) as (argv & rs2 & s2 & -> & Hl2 & Hs2 & Ha & Hr2 & Ew & Er);
    [done|lia|].
  assert (q `suffix_of` s) as Hq by apply suffix_skip. assert (s1 `suffix_of` s) as Hss1 by (by etrans).
  eexists _, s2. split_and!; [done|done|by etrans| |].
  - rewrite redircmds_toks. cbn. apply Forall_app. split; [by eapply tokens_weaken|]. rewrite map_app. apply Forall_app.
    split; apply Forall_map; (eapply Forall_impl; [eassumption|]); intros r; [by apply (token_in_suffix s q)|by apply (token_in_suffix s s1)].
  - rewrite (redircmds_mean _ _ (rs ++ concat (map snd ws))) by (by apply Forall2_app). cbn. by rewrite Ew.
Qed.

Lemma simple_block_reads l rs : line_reads l -> simple_reads (EBlock l rs).
Proof.
  intros Hline fuel s ts [Hok Hrs] Hl Hfo Hf. destruct fuel as [|[|fuel]]; [lia..|]. cbn [simple_toks] in Hl.
  cbn [app] in Hl. rewrite <-app_assoc in Hl. cbn [app] in Hl. cbn [parseexec]. peek_at Hl.
  change (starts (bytes "(") (TSym 40 :: line_toks l ++ TSym 41 :: redir_toks rs ++ ts)) with true. cbv iota.
  cbn [parseblock]. pose proof (lexes_skip _ _ Hl) as Hl0. peek_at Hl0.
  change (starts (bytes "(") (TSym 40 :: line_toks l ++ TSym 41 :: redir_toks rs ++ ts)) with true. cbn [negb].
  destruct (gettoken_lex _ _ _ (lexes_skip _ _ Hl0)) as (x & s1 & -> & Hl1 & Hs1 & Hlen1 & _).
  rewrite skip_spaces_idem in *. pose proof (skip_spaces_length s).
  destruct (Hline fuel s1 (TSym 41 :: redir_toks rs ++ ts) Hok Hl1) as (c & s2 & -> & Hl2 & Hs2 & Hin2 & Hm2); [cbn; set_solver|lia|].
  peek_at Hl2. change (starts (bytes ")") (TSym 41 :: redir_toks rs ++ ts)) with true. cbn [negb].
  destruct (gettoken_lex _ _ _ (lexes_skip _ _ Hl2)) as (y & s3 & -> & Hl3 & Hs3 & Hlen3 & _).
  unfold parseredirs. destruct (redirs_loop_reads (S (length s3)) rs s3 ts Hl3 Hrs) as (rs' & s4 & -> & Hl4 & Hs4 & Hin4 & Hr4); [by not_next Hfo|lia|].
  assert (s1 `suffix_of` s) as Hss1 by (etrans; [exact Hs1|apply suffix_skip]).
  assert (s3 `suffix_of` s) as Hss3 by (etrans; [exact Hs3|]; etrans; [apply suffix_skip|]; by etrans).
  eexists _, s4. split_and!; [done|done|by etrans| |].
  - rewrite redircmds_toks. apply Forall_app. split; [by apply (tokens_weaken s s1)|].
    apply Forall_map. eapply Forall_impl; [exact Hin4|]. intros r. by apply (token_in_suffix s s3).
  - rewrite (redircmds_mean _ _ rs) by done. by rewrite Hm2.
Qed.

Lemma shell_reads : (forall l, line_reads l) /\ (forall p, pipe_reads p) /\ (forall e, simple_reads e).
Proof.
  apply shell_ind; auto using line_end_reads, line_seq_reads, pipe_end_reads, pipe_bar_reads, simple_simple_reads, simple_block_reads.
Qed.

(** ** The strings after nulterminate *)

Lemma cmd_map_ext {U} (f g : token -> U) c : (forall t, t ∈ toks_of c -> f t = g t) -> cmd_map f c = cmd_map g c.
Proof.
  induction c as [argv|c IH t| c1 IH1 c2 IH2| c1 IH1 c2 IH2|c IH]; cbn; intros Hfg; f_equal; try (by apply IH || by auto);
    try (apply IH || apply IH1 || apply IH2; intros; apply Hfg; set_solver).
  - apply map_ext_in. intros t Ht. apply Hfg. by apply list_elem_of_In.
  - apply Hfg. set_solver.
Qed.

Lemma ends_toks c : ends c = map snd (toks_of c).
Proof. induction c as [|c IH| c1 IH1 c2 IH2| c1 IH1 c2 IH2|c IH]; cbn; rewrite ?map_app, ?IH, ?IH1, ?IH2; done. Qed.

(** Where a suffix of the line begins. *)
Definition pos (s q : list Z) : nat := (length s - length q)%nat.

Lemma pos_app (pre q : list Z) : pos (pre ++ q) q = length pre.
Proof. unfold pos. rewrite length_app. lia. Qed.

Lemma zero_lookup n (qs : list (list Z)) (b : list Z) i :
  fold_left (fun b eq => <[(n - length eq)%nat := 0]> b) qs b !! i =
  if bool_decide (i ∈ map (fun eq => (n - length eq)%nat) qs) then (fun _ => 0) <$> b !! i else b !! i.
Proof.
  revert b. induction qs as [|q qs IH]; intros b; cbn; [done|]. rewrite IH.
  assert (<[(n - length q)%nat := 0]> b !! i = if bool_decide (i = n - length q)%nat then (fun _ => 0) <$> b !! i else b !! i) as E.
  { destruct (decide (i = n - length q)%nat) as [->|Ei].
    2: { rewrite bool_decide_eq_false_2 by done. by rewrite list_lookup_insert_ne by congruence. }
    rewrite bool_decide_eq_true_2 by done.
    destruct (decide (n - length q < length b)%nat) as [Hl|Hl].
    - rewrite list_lookup_insert_eq by done. destruct (lookup_lt_is_Some_2 b _ Hl) as [x ->]. done.
    - rewrite list_insert_ge by lia. rewrite (proj2 (lookup_ge_None b (n - length q))) by lia. done. }
  rewrite E. repeat case_bool_decide; try set_solver. destruct (b !! i); done.
Qed.

Lemma nulterminate_lookup s c i :
  nulterminate (s ++ [0]) c !! i =
  if bool_decide (i ∈ map (pos s) (ends c)) then (fun _ => 0) <$> (s ++ [0]) !! i else (s ++ [0]) !! i.
Proof.
  unfold nulterminate. rewrite length_app. cbn [length]. rewrite Nat.add_sub. apply (zero_lookup (length s)).
Qed.

(** No end of a token is inside a word. *)
Lemma ends_outside s c pre w q i : 0 ∉ s -> Forall (token_in s) (toks_of c) ->
  s = pre ++ w ++ q -> Forall (fun c => is_word c = true) w -> (length pre <= i < length pre + length w)%nat ->
  i ∉ map (pos s) (ends c).
Proof.
  intros Hz Hin Es Hw Hi Hp. rewrite ends_toks, map_map in Hp. apply list_elem_of_In, in_map_iff in Hp as (t & Et & Ht).
  rewrite Forall_forall in Hin. destruct (Hin t (proj2 (list_elem_of_In _ _) Ht)) as [[pt Ept] (wt & Ewt & _ & _ & Hst)].
  assert (s = (pt ++ wt) ++ snd t) as E2 by (by rewrite <-app_assoc, <-Ewt).
  assert (i = length (pt ++ wt)) as E by (rewrite <-Et; cbn; rewrite E2 at 1; apply pos_app).
  destruct (lookup_lt_is_Some_2 w (i - length pre)) as [x Hx]; [lia|].
  assert (s !! i = Some x) as Hs by (rewrite Es, lookup_app_r, lookup_app_l by lia; done).
  rewrite E2, lookup_app_r in Hs by lia. rewrite E, Nat.sub_diag in Hs. destruct (snd t) as [|y r]; [done|].
  injection Hs as ->. cbn in Hst. rewrite Forall_forall in Hw. rewrite (Hw x) in Hst; [done|]. by eapply list_elem_of_lookup_2.
Qed.

Lemma cstring_prefix (l w : list Z) : 0 ∉ w -> take (length w) l = w -> l !! length w = Some 0 -> cstring l = w.
Proof.
  revert w. induction l as [|x l IH]; intros [|c w] Hz Ht Hl; try done; cbn in *.
  - by injection Hl as ->.
  - injection Ht as -> Ht. apply not_elem_of_cons in Hz as [Hc Hz]. rewrite (proj2 (Z.eqb_neq c 0)) by congruence.
    f_equal. by apply IH.
Qed.

Lemma string_at_word s c t : 0 ∉ s -> Forall (token_in s) (toks_of c) -> t ∈ toks_of c ->
  string_at (nulterminate (s ++ [0]) c) t = word_of t.
Proof.
  intros Hz Hin Ht. pose proof (proj1 (Forall_forall _ _) Hin t Ht) as [[pre Es] (w & Ew & _ & Hw & Hst)].
  destruct t as [q eq]. cbn [fst snd] in *. subst q. rewrite word_of_app. unfold string_at. cbn [fst].
  assert (length (nulterminate (s ++ [0]) c) = S (length s)) as Hlen.
  { unfold nulterminate. generalize (length (s ++ [0%Z]) - 1)%nat as n. intros n.
    assert (forall qs (b : list Z), length (fold_left (fun b eq => <[(n - length eq)%nat := 0]> b) qs b) = length b) as ->.
    { induction qs as [|q qs IH]; intros b; cbn; [done|]. by rewrite IH, length_insert. }
    rewrite length_app. simpl. lia. }
  rewrite Hlen. replace (S (length s) - 1 - length (w ++ eq))%nat with (length pre) by (rewrite Es, length_app; lia).
  apply cstring_prefix.
  - intros H0. apply Hz. rewrite Es. set_solver.
  - apply list_eq. intros i. destruct (decide (i < length w)%nat) as [Hi|Hi].
    + rewrite lookup_take_lt, lookup_drop, nulterminate_lookup by done.
      rewrite bool_decide_eq_false_2 by (apply (ends_outside s c pre w eq); auto; lia).
      rewrite lookup_app_l by (rewrite Es, !length_app; lia). rewrite Es, lookup_app_r by lia.
      replace (length pre + i - length pre)%nat with i by lia. by rewrite lookup_app_l by done.
    + rewrite lookup_take_ge, (proj2 (lookup_ge_None w i)) by lia. done.
  - rewrite lookup_drop, nulterminate_lookup, bool_decide_eq_true_2.
    + destruct (lookup_lt_is_Some_2 (s ++ [0]) (length pre + length w)) as [x ->]; [rewrite Es, !length_app; simpl; lia|done].
    + rewrite ends_toks, map_map. apply list_elem_of_In, in_map_iff. exists (w ++ eq, eq). split; [|by apply list_elem_of_In].
      cbn. rewrite Es at 1. rewrite app_assoc, pos_app, length_app. done.
Qed.

(** C12: the shell parses every line of its language, however it is spaced, to
    the command that the line stands for: pipelines, lists, background marks,
    blocks and redirections nested as they are written, and every word and
    file name exactly as it stands in the line, also after the ends of the
    strings have been overwritten with NULs. *)
Theorem shell_parses {W} `{Os W} l s (w : W) e :
  0 ∉ s -> line_ok l -> lexes s (line_toks l) -> parsecmd s w e = Ret (mean_line l) w e.
Proof.
  intros Hz Hok Hl. rewrite <-(app_nil_r (line_toks l)) in Hl.
  destruct (proj1 shell_reads l (parse_fuel s) s [] Hok Hl I) as (c & r & Hr & Hlr & Hs & Hin & Hm); [unfold parse_fuel; lia|].
  unfold parsecmd. rewrite Hr. peek_at Hlr. inversion Hlr as [? E| |]; subst. rewrite E, mret_run, <-Hm. f_equal.
  apply cmd_map_ext. intros t Ht. by apply string_at_word.
Qed.

(** the parser ends on every line: it returns a command or panics with a
    message. *)
Theorem shell_parser_ends s : parseline (parse_fuel s) s <> PFuel.
Proof.
  pose proof (proj1 (parse_ended (parse_fuel s) s)) as He. intros E. rewrite E in He. apply He. unfold parse_fuel. lia.
Qed.

(** ** An instance *)

(** [(ls >a; cat<b )|wc&]. *)
Definition demo_line : line :=
  LEnd (PBar (EBlock (LSeq (PEnd (ESimple [] [(bytes "ls", [(62, bytes "a")])])) 0
                           (LEnd (PEnd (ESimple [] [(bytes "cat", [(60, bytes "b")])])) 0)) [])
             (PEnd (ESimple [] [(bytes "wc", [])]))) 1.
Definition demo_input : list Z := bytes "(ls >a; cat<b )|wc&".

Ltac sym := eapply lexes_sym; [reflexivity|reflexivity|done|].
Ltac word w := eapply (lexes_word _ w); [reflexivity|done|by repeat constructor|done|].

Lemma demo_input_lexes : lexes demo_input (line_toks demo_line).
Proof.
  unfold demo_input. cbn [line_toks pipe_toks simple_toks redir_toks demo_line map concat app replicate].
  sym. word (bytes "ls"). sym. word (bytes "a"). sym. word (bytes "cat"). sym. word (bytes "b"). sym. sym.
  word (bytes "wc"). sym. by apply lexes_end.
Qed.

Lemma shell_parses_witness : parsecmd demo_input (mktoy (fun _ => []) []) [] = Ret (mean_line demo_line) (mktoy (fun _ => []) []) [].
Proof.
  apply (shell_parses demo_line demo_input).
  - vm_compute. intros Hin. repeat (apply elem_of_cons in Hin as [Hin|Hin]; [discriminate|]). by apply elem_of_nil in Hin.
  - cbn. unfold redirs_ok, MAXARGS. repeat (split || apply Forall_cons || apply Forall_nil); simpl; auto 10; try lia.
  - exact demo_input_lexes.
Defined.
