(* ===== verification/UserProgs.v ===== *)
(** User programs: cat, wc, echo, ls, rm, mkdir, ln, kill, prime_numbers and
    init.  A loop that reads until the end of its input has fuel. *)

From Stdlib Require Import Znumtheory.
From S2P Require Import Prelude Types Bytes Cprintf UserLib.

Section Programs.
  Context {W : Type} `{Os W}.

(** A program whose [main] does [f] on each file it is given. *)
Fixpoint each_file (prog : list Z) (f : Z -> list Z -> M W unit) (files : list (list Z)) : M W unit :=
  match files with
  | [] => exit
  | name :: files =>
      fd ← sysv (Open name 0);
      if fd <? 0 then printf 1 (prog ++ bytes ": cannot open %s" ++ [10]) [PStr name] ;; exit
      else f fd name ;; sysv (Close fd) ;; each_file prog f files
  end.

(** ** cat.c *)

(** The bytes [b] are what [read] has put in [buf]. *)
Fixpoint cat (fuel : nat) (fd : Z) : M W unit :=
  match fuel with
  | O => undef "cat: fuel"
  | S fuel =>
      r ← sys (Read fd 512);
      let '(n, b) := r in
      if 0 <? n then
        v ← sysv (Write 1 (take (Z.to_nat n) b));
        if v =? n then cat fuel fd else printf 1 (bytes "cat: write error" ++ [10]) [] ;; exit
      else if n <? 0 then printf 1 (bytes "cat: read error" ++ [10]) [] ;; exit
      else mret tt
  end.

Definition cat_main (fuel : nat) (argv : list (list Z)) : M W unit :=
  match argv with
  | [] | [_] => cat fuel 0 ;; exit
  | _ :: files => each_file (bytes "cat") (fun fd _ => cat fuel fd) files
  end.

(** ** wc.c *)

Record counts : Type := mkcounts { wc_l : Z; wc_w : Z; wc_c : Z; wc_inword : bool }.

(** One pass of the [for] loop. *)
Definition wc_char (s : counts) (c : Z) : counts :=
  let n := s32 (wc_c s + 1) in
  let l := if c =? 10 then s32 (wc_l s + 1) else wc_l s in
  match strchr [32; 13; 9; 10; 11] c with
  | Some _ => mkcounts l (wc_w s) n false
  | None => if wc_inword s then mkcounts l (wc_w s) n true else mkcounts l (s32 (wc_w s + 1)) n true
  end.

Fixpoint wc_loop (fuel : nat) (fd : Z) (s : counts) : M W (Z * counts) :=
  match fuel with
  | O => undef "wc: fuel"
  | S fuel =>
      r ← sys (Read fd 512);
      let '(n, b) := r in
      if 0 <? n then wc_loop fuel fd (fold_left wc_char (take (Z.to_nat n) b) s)
      else mret (n, s)
  end.

Definition wc (fuel : nat) (fd : Z) (name : list Z) : M W unit :=
  r ← wc_loop fuel fd (mkcounts 0 0 0 false);
  let '(n, s) := r in
  if n <? 0 then printf 1 (bytes "wc: read error" ++ [10]) [] ;; exit else
  printf 1 (bytes "%d %d %d %s" ++ [10]) [PInt (wc_l s); PInt (wc_w s); PInt (wc_c s); PStr name].

Definition wc_main (fuel : nat) (argv : list (list Z)) : M W unit :=
  match argv with
  | [] | [_] => wc fuel 0 [] ;; exit
  | _ :: files => each_file (bytes "wc") (wc fuel) files
  end.

(** ** echo.c *)

Fixpoint echo_loop (args : list (list Z)) : M W unit :=
  match args with
  | [] => exit
  | a :: args =>
      printf 1 (bytes "%s%s") [PStr a; PStr (match args with [] => [10] | _ => [32] end)] ;; echo_loop args
  end.
Definition echo_main (argv : list (list Z)) : M W unit := echo_loop (drop 1 argv).

(** ** rm.c, mkdir.c, ln.c, kill.c *)

Fixpoint each_path (call : list Z -> sysreq) (msg : list Z) (paths : list (list Z)) : M W unit :=
  match paths with
  | [] => exit
  | p :: paths =>
      r ← sysv (call p);
      if r <? 0 then printf 2 msg [PStr p] ;; exit else each_path call msg paths
  end.

Definition rm_main (argv : list (list Z)) : M W unit :=
  match argv with
  | [] | [_] => printf 2 (bytes "Usage: rm files..." ++ [10]) [] ;; exit
  | _ :: paths => each_path Unlink (bytes "rm: %s failed to delete" ++ [10]) paths
  end.
Definition mkdir_main (argv : list (list Z)) : M W unit :=
  match argv with
  | [] | [_] => printf 2 (bytes "Usage: mkdir files..." ++ [10]) [] ;; exit
  | _ :: paths => each_path Mkdir (bytes "mkdir: %s failed to create" ++ [10]) paths
  end.
Definition ln_main (argv : list (list Z)) : M W unit :=
  match argv with
  | [_; old; new] =>
      r ← sysv (Link old new);
      (if r <? 0 then printf 2 (bytes "link %s %s: failed" ++ [10]) [PStr old; PStr new] else mret tt) ;;
      exit
  | _ => printf 2 (bytes "Usage: ln old new" ++ [10]) [] ;; exit
  end.
Definition kill_main (argv : list (list Z)) : M W unit :=
  match argv with
  | [] | [_] => printf 2 (bytes "usage: kill pid..." ++ [10]) [] ;; exit
  | _ :: pids => for_each pids (fun p => sysv (Kill (atoi p)) ;; mret tt) ;; exit
  end.

(** ** ls.c *)

(** The part of the path after its last slash. *)
Definition base_name (path : list Z) : list Z :=
  fold_left (fun base c => if c =? 47 then [] else base ++ [c]) path [].

(** [fmtname]: the static buffer has room for [DIRSIZ + 1] bytes, of which the
    last is never written. *)
Definition fmtname (path : list Z) : list Z :=
  let p := base_name path in
  if (DIRSIZ <=? length p)%nat then p else p ++ replicate (DIRSIZ - length p) 32.

(** [st.type], [st.ino], [st.size] in the bytes of a [struct stat]. *)
Definition st_type (b : list Z) : Z := s16 (get16 b 0).
Definition st_ino (b : list Z) : Z := get32 b 8.
Definition st_size (b : list Z) : Z := get32 b 16.

Definition ls_line (name st : list Z) : M W unit :=
  printf 1 (bytes "%s %d %d %d" ++ [10]) [PStr (fmtname name); PInt (st_type st); PInt (st_ino st); PInt (st_size st)].

(** The loop over the entries of a directory. *)
Fixpoint ls_entries (fuel : nat) (fd : Z) (path : list Z) : M W unit :=
  match fuel with
  | O => undef "ls: fuel"
  | S fuel =>
      r ← sys (Read fd 16);
      let '(n, de) := r in
      if negb (n =? 16) then mret tt else
      if get16 de 0 =? 0 then ls_entries fuel fd path else
      let name := path ++ 47 :: cstring (take DIRSIZ (drop 2 de)) in
      st ← stat name;
      (if fst st <? 0 then printf 1 (bytes "ls: cannot stat %s" ++ [10]) [PStr name]
       else ls_line name (snd st)) ;;
      ls_entries fuel fd path
  end.

Definition ls (fuel : nat) (path : list Z) : M W unit :=
  fd ← sysv (Open path 0);
  if fd <? 0 then printf 2 (bytes "ls: cannot open %s" ++ [10]) [PStr path] else
  st ← sys (Fstat fd);
  if fst st <? 0 then printf 2 (bytes "ls: cannot stat %s" ++ [10]) [PStr path] ;; sysv (Close fd) ;; mret tt else
  (if st_type (snd st) =? 2 then ls_line path (snd st)
   else if st_type (snd st) =? 1 then
     if (512 <? length path + 1 + DIRSIZ + 1)%nat then printf 1 (bytes "ls: path too long" ++ [10]) []
     else ls_entries fuel fd path
   else mret tt) ;;
  sysv (Close fd) ;;
  mret tt.

Definition ls_main (fuel : nat) (argv : list (list Z)) : M W unit :=
  match argv with
  | [] | [_] => ls fuel (bytes ".") ;; exit
  | _ :: paths => for_each paths (ls fuel) ;; exit
  end.

(** ** prime_numbers.c *)

(** The comparison [('0' <= c[i]) <= '9'] compares a truth value with a
    character code, and always holds. *)
Fixpoint achar_to_int_loop (c : list Z) (num : Z) : Z :=
  match c with
  | [] => num
  | x :: c =>
      if Z.b2z (48 <=? s8 x) <=? 57
      then achar_to_int_loop c (s32 (s32 (num * 10) + (s8 x - 48))) else -1
  end.
Definition achar_to_int (c : list Z) : Z := achar_to_int_loop c 0.

(** The loop over [j]: whether a divisor of [i] is found. *)
Fixpoint not_prime_loop (fuel : nat) (i j : Z) : option bool :=
  match fuel with
  | O => None
  | S fuel =>
      if j <=? i / 2 then (if i mod j =? 0 then Some true else not_prime_loop fuel i (j + 1)) else Some false
  end.

(** The loop over [i]; [i] is at least 2. *)
Fixpoint primes_loop (fuel : nat) (file i end_ : Z) : M W unit :=
  match fuel with
  | O => undef "prime_numbers: fuel"
  | S fuel =>
      if i <=? end_ then
        match not_prime_loop (Z.to_nat i) i 2 with
        | None => undef "prime_numbers: fuel"
        | Some true => mret tt
        | Some false => printf file (bytes "%d ") [PInt i]
        end ;;
        if i =? 2 ^ 31 - 1 then undef "prime_numbers: overflow" else primes_loop fuel file (i + 1) end_
      else mret tt
  end.

Definition prime_numbers_main (fuel : nat) (argv : list (list Z)) : M W unit :=
  match argv with
  | [_; a1; a2] =>
      let n1 := achar_to_int a1 in
      let n2 := achar_to_int a2 in
      if (n1 =? -1) || (n2 =? -1) then
        printf 2 (bytes "Error in numbers; please enter uint numbers." ++ [10]) [] ;; exit else
      let '(start, end_) := if n2 <? n1 then (n2, n1) else (n1, n2) in
      let start := if start <? 2 then 2 else start in
      sysv (Unlink (bytes "prime_numbers.txt")) ;;
      file ← sysv (Open (bytes "prime_numbers.txt") (Z.lor O_CREATE O_RDWR));
      primes_loop fuel file start end_ ;;
      printf file [10] [] ;;
      sysv (Close file) ;;
      exit
  | _ =>
      printf 2 (bytes "Error in calling; please call like:" ++ [10] ++ bytes " prime_numbers <number1> <number2>" ++ [10]) [] ;;
      exit
  end.

(** ** init.c *)

Fixpoint init_wait (fuel : nat) (pid : Z) : M W unit :=
  match fuel with
  | O => undef "init: fuel"
  | S fuel =>
      wpid ← sysv Wait;
      if (0 <=? wpid) && negb (wpid =? pid) then printf 1 (bytes "zombie!" ++ [10]) [] ;; init_wait fuel pid
      else mret tt
  end.

Definition banner : list Z :=
  bytes "Group #3 (TAYAMA) Members:" ++ [10] ++ bytes "1- Pouya Sadeghi" ++ [10] ++
  bytes "2- Ali Ataollahi" ++ [10] ++ bytes "3- Ali Hodaee (Nima)" ++ [10].

(** One pass of [for(;;)]; in the child it does not return. *)
Definition init_pass (fuel : nat) : M W unit :=
  printf 1 banner [] ;;
  pid ← sysv Fork;
  if pid <? 0 then printf 1 (bytes "init: fork failed" ++ [10]) [] ;; exit else
  if pid =? 0 then
    sysv (Exec (bytes "sh") [bytes "sh"]) ;; printf 1 (bytes "init: exec sh failed" ++ [10]) [] ;; exit
  else init_wait fuel pid.

(** [init] with at most [n] shells. *)
Fixpoint init_loop (n fuel : nat) : M W unit :=
  match n with
  | O => undef "init: fuel"
  | S n => init_pass fuel ;; init_loop n fuel
  end.
Definition init_main (n fuel : nat) : M W unit :=
  fd ← sysv (Open (bytes "console") O_RDWR);
  (if fd <? 0 then sysv (Mknod (bytes "console") 1 1) ;; sysv (Open (bytes "console") O_RDWR) ;; mret tt else mret tt) ;;
  sysv (Dup 0) ;;
  sysv (Dup 0) ;;
  init_loop n fuel.
End Programs.

(** ** cat copies its input *)

Section Reading.
  Context {W : Type} `{OsFiles W}.

Lemma sys_run r w v b w' e : os_call r w = (v, b, w') -> sys r w e = Ret (v, b) w' e.
Proof. intros E. unfold sys. by rewrite E. Qed.
Lemma sysv_run r w v b w' e : os_call r w = (v, b, w') -> sysv r w e = Ret v w' e.
Proof. intros E. unfold sysv. by rewrite (bind_Ret _ _ _ _ _ _ _ (sys_run r w v b w' e E)). Qed.

Lemma cat_run fd s fuel w e : os_stream fd s w -> (length s < fuel)%nat -> exists w',
  cat fuel fd w e = Ret tt w' e /\ os_out w' = os_out w ++ s /\ os_stream fd [] w'.
Proof.
  revert s w. induction fuel as [|fuel IH]; intros s w Hs Hf; [lia|]. cbn [cat].
  destruct (read_stream fd s 512 w Hs ltac:(lia)) as (c & r & w1 & E & -> & _ & Hc & Hs1 & O1).
  rewrite (bind_Ret _ _ _ _ _ _ _ (sys_run _ _ _ _ _ e E)). rewrite length_app in Hf.
  destruct (decide (c = [])) as [-> |Hne]; [rewrite (Hc eq_refl) in *; exists w1; rewrite O1, app_nil_r; auto|].
  assert (0 < length c)%nat by (destruct c; [done|simpl; lia]).
  replace (0 <? Z.of_nat (length c)) with true by lia. rewrite Nat2Z.id, take_ge by lia.
  destruct (write_out c w1) as (w2 & E2 & O2 & S2 & _).
  rewrite (bind_Ret _ _ _ _ _ _ _ (sysv_run _ _ _ _ _ e E2)), Z.eqb_refl.
  destruct (IH r w2) as (w' & Hr & Ho & He); [auto|lia|].
  exists w'. split_and!; [done| |done]. by rewrite Ho, O2, O1, app_assoc.
Qed.

(** cat writes to descriptor 1 exactly the bytes of its input, in order,
    and reaches its end, in whatever pieces the input arrives. *)
Theorem cat_copies fd s fuel w e : os_stream fd s w -> (length s < fuel)%nat -> exists w',
  cat fuel fd w e = Ret tt w' e /\ os_out w' = os_out w ++ s /\ os_stream fd [] w'.
Proof. apply cat_run. Qed.

(** ** wc counts *)

(** The runs of other characters between white characters. *)
Fixpoint runs (s : list Z) : list (list Z) :=
  match s with
  | [] => [[]]
  | c :: s =>
      if decide (c ∈ [32; 13; 9; 10; 11]) then [] :: runs s
      else match runs s with r :: rs => (c :: r) :: rs | [] => [[c]] end
  end.
Definition words (s : list Z) : list (list Z) := filter (fun r => r <> []) (runs s).

Lemma runs_cons s : exists r rs, runs s = r :: rs.
Proof. destruct s as [|c s]; cbn; [by do 2 eexists|]. case_decide; [by do 2 eexists|]. destruct (runs s); by do 2 eexists. Qed.

(** How many words begin in [s]: the run it begins with counts only outside
    a word. *)
Definition new_words (inword : bool) (s : list Z) : Z :=
  Z.of_nat (length (words s)) - (if inword then match runs s with [] :: _ => 0 | _ => 1 end else 0).

Lemma new_words_white b c s : c ∈ [32; 13; 9; 10; 11] -> new_words b (c :: s) = new_words false s.
Proof.
  intros Hc. unfold new_words, words. cbn [runs]. rewrite decide_True by done.
  rewrite filter_cons_False by (by intros []). destruct b; lia.
Qed.
Lemma new_words_other b c s : c ∉ [32; 13; 9; 10; 11] ->
  new_words b (c :: s) = (if b then 0 else 1) + new_words true s.
Proof.
  intros Hc. unfold new_words, words. cbn [runs]. rewrite decide_False by done.
  destruct (runs_cons s) as (r & rs & ->). rewrite filter_cons_True by done. cbn [length].
  destruct r as [|x r]; [rewrite filter_cons_False by (by intros [])|rewrite filter_cons_True by done; cbn [length]]; destruct b; lia.
Qed.

Definition newlines (s : list Z) : Z := Z.of_nat (length (filter (fun c => c = 10) s)).

(** The counts have room for [n] more characters. *)
Definition counting (st : counts) (n : Z) : Prop :=
  0 <= wc_l st <= wc_c st /\ 0 <= wc_w st <= wc_c st /\ wc_c st + n < 2 ^ 31.

Lemma wc_char_counts c st : counting st 1 -> counting (wc_char st c) 0 /\
  wc_c (wc_char st c) = wc_c st + 1 /\ wc_l (wc_char st c) = wc_l st + newlines [c] /\
  forall s, wc_w st + new_words (wc_inword st) (c :: s) = wc_w (wc_char st c) + new_words (wc_inword (wc_char st c)) s.
Proof.
  intros (Hl & Hw & Hc). unfold wc_char, newlines, counting. rewrite filter_cons, filter_nil.
  rewrite !(s32_small (_ + 1)) by lia.
  destruct (strchr [32; 13; 9; 10; 11] c) as [d|] eqn:E; [|destruct (wc_inword st) eqn:Ei]; cbn [wc_l wc_w wc_c wc_inword].
  1: assert (c ∈ [32; 13; 9; 10; 11]) as Hin by (apply strchr_some in E as (l & r & -> & _); set_solver).
  2-3: apply strchr_none in E.
  all: destruct (Z.eqb_spec c 10); [rewrite decide_True by done|rewrite decide_False by done]; cbn [length];
    split_and!; try lia; intros s; first [rewrite new_words_white by done|rewrite new_words_other by done]; lia.
Qed.

Lemma wc_fold s st : counting st (Z.of_nat (length s)) ->
  let st' := fold_left wc_char s st in
  counting st' 0 /\ wc_c st' = wc_c st + Z.of_nat (length s) /\ wc_l st' = wc_l st + newlines s /\
  forall r, wc_w st + new_words (wc_inword st) (s ++ r) = wc_w st' + new_words (wc_inword st') r.
Proof.
  revert st. induction s as [|c s IH]; intros st Hst; cbn [fold_left length app] in *.
  { unfold newlines, counting in *. simpl. split_and!; lia. }
  destruct (wc_char_counts c st) as (H1 & Hc & Hl & Hw); [unfold counting in *; lia|].
  destruct (IH (wc_char st c)) as (H1' & Hc' & Hl' & Hw'); [unfold counting in *; lia|].
  split_and!; [done|lia| |intros r; rewrite <- Hw', Hw; done].
  rewrite Hl', Hl. unfold newlines. rewrite (filter_cons _ c s), (filter_cons _ c []), filter_nil.
  case_decide; cbn [length]; lia.
Qed.

Lemma wc_loop_run fd s fuel st w e :
  os_stream fd s w -> (length s < fuel)%nat -> counting st (Z.of_nat (length s)) -> exists b w',
  wc_loop fuel fd st w e =
    Ret (0, mkcounts (wc_l st + newlines s) (wc_w st + new_words (wc_inword st) s) (wc_c st + Z.of_nat (length s)) b) w' e /\
  os_out w' = os_out w.
Proof.
  revert s st w. induction fuel as [|fuel IH]; intros s st w Hs Hf Hst; [lia|]. cbn [wc_loop].
  destruct (read_stream fd s 512 w Hs ltac:(lia)) as (c & r & w1 & E & -> & _ & Hc & Hs1 & O1).
  rewrite (bind_Ret _ _ _ _ _ _ _ (sys_run _ _ _ _ _ e E)). rewrite length_app in Hf.
  destruct (decide (c = [])) as [-> |Hne].
  { rewrite (Hc eq_refl). exists (wc_inword st), w1. split; [|done]. destruct st as [l n k b].
    unfold newlines, new_words. cbn. rewrite !Z.add_0_r. by destruct b; rewrite ?Z.add_0_r. }
  assert (0 < length c)%nat by (destruct c; [done|simpl; lia]).
  replace (0 <? Z.of_nat (length c)) with true by lia. rewrite Nat2Z.id, take_ge by lia.
  rewrite length_app in Hst. destruct (wc_fold c st) as (Hk & Hcc & Hl & Hw); [unfold counting in *; lia|].
  destruct (IH r (fold_left wc_char c st) w1) as (b & w' & Hr & Ho); [done|lia|unfold counting in *; lia|].
  exists b, w'. split; [|congruence]. rewrite Hr, <- Hw, Hl, Hcc. unfold newlines.
  by rewrite filter_app, !length_app, !Nat2Z.inj_add, !Z.add_assoc.
Qed.

(** The characters of a number. *)
Definition decimal (z : Z) : list Z := map u8 (int_chars false (s32 z) 10 true).

(** wc prints the numbers of newlines, of words and of bytes of its input,
    in whatever pieces the input arrives, and its name.  A word is a longest
    run of characters that are not white; the input has fewer than 2^31
    bytes. *)
Theorem wc_counts fd s name fuel w e :
  os_stream fd s w -> (length s < fuel)%nat -> Z.of_nat (length s) < 2 ^ 31 -> exists w',
  wc fuel fd name w e = Ret tt w' e /\
  os_out w' = os_out w ++ decimal (newlines s) ++ [32] ++ decimal (Z.of_nat (length (words s))) ++ [32] ++
    decimal (Z.of_nat (length s)) ++ [32] ++ map u8 name ++ [10].
Proof.
  intros Hs Hf Hl. unfold wc.
  destruct (wc_loop_run fd s fuel (mkcounts 0 0 0 false) w e) as (b & w1 & Hr & Ho); [done..|by unfold counting; simpl; lia|].
  rewrite (bind_Ret _ _ _ _ _ _ _ Hr). cbn [wc_l wc_w wc_c wc_inword Z.ltb Z.compare]. rewrite !Z.add_0_l.
  replace (new_words false s) with (Z.of_nat (length (words s))) by (unfold new_words; lia).
  edestruct (printf_loop_prints (bytes "%d %d %d %s" ++ [10]) false) as (w' & E & O & _).
  2: { exists w'. rewrite <- Ho. split; [exact E|exact O]. }
  reflexivity.
Qed.
End Reading.

(** ** prime_numbers *)

#[local] Instance prime_decision p : Decision (prime p) := prime_dec p.

Lemma achar_to_int_value_acc ds num :
  Forall (fun d => 48 <= d <= 57) ds -> 0 <= num ->
  fold_left (fun v d => v * 10 + (d - 48)) ds num < 2 ^ 31 ->
  achar_to_int_loop ds num = fold_left (fun v d => v * 10 + (d - 48)) ds num /\ num <= achar_to_int_loop ds num.
Proof.
  revert num. induction ds as [|d ds IH]; intros num Hd Hn Hv; cbn [achar_to_int_loop fold_left] in *; [lia|].
  apply Forall_cons in Hd as [Hd Hds].
  assert (forall l v, Forall (fun d => 48 <= d <= 57) l -> 0 <= v ->
    v <= fold_left (fun v d => v * 10 + (d - 48)) l v) as Hmono.
  { intros l. induction l as [|x l IHl]; intros v Hl Hp; cbn [fold_left]; [lia|]. apply Forall_cons in Hl as [Hx Hl].
    specialize (IHl (v * 10 + (x - 48)) Hl ltac:(lia)). lia. }
  pose proof (Hmono ds (num * 10 + (d - 48)) Hds ltac:(lia)).
  replace (s8 d) with d by (unfold s8; rewrite Z.mod_small; lia).
  replace (48 <=? d) with true by lia. change (Z.b2z true <=? 57) with true. cbv iota. rewrite !s32_small by (rewrite ?s32_small; lia).
  destruct (IH (num * 10 + (d - 48)) Hds ltac:(lia) Hv) as [-> ?]. split; [done|lia].
Qed.
Lemma achar_to_int_value ds : Forall (fun d => 48 <= d <= 57) ds -> dec_value ds < 2 ^ 31 ->
  achar_to_int ds = dec_value ds /\ 0 <= dec_value ds.
Proof. intros Hd Hv. destruct (achar_to_int_value_acc ds 0 Hd ltac:(lia) Hv) as [E ?]. unfold achar_to_int, dec_value in *. lia. Qed.

(** Division up to half of [i] is enough. *)
Lemma not_prime_loop_prime fuel i j :
  2 <= j <= i -> (Z.to_nat (i - j) < fuel)%nat -> (forall d, 2 <= d < j -> ~ (d | i)) ->
  not_prime_loop fuel i j = Some (negb (bool_decide (prime i))).
Proof.
  revert j. induction fuel as [|fuel IH]; intros j Hj Hf Hd; [lia|]. cbn [not_prime_loop].
  destruct (Z.leb_spec j (i / 2)) as [Hle|Hlt].
  - assert (j < i) by (pose proof (Z.mul_div_le i 2 ltac:(lia)); lia). destruct (Z.eqb_spec (i mod j) 0) as [Hm|Hm].
    + rewrite bool_decide_false; [done|]. apply Z.mod_divide in Hm; [|lia]. intros Hp.
      destruct (prime_divisors i Hp j Hm) as [?|[?|[?|?]]]; lia.
    + apply IH; [lia..|]. intros d Hdj. destruct (decide (d = j)) as [->|]; [|apply Hd; lia].
      rewrite <- Z.mod_divide by lia. done.
  - rewrite bool_decide_true; [done|]. apply prime_alt. split; [lia|]. intros d Hdi [q Hq].
    destruct (decide (d < j)) as [?|?]; [apply (Hd d); [lia|by exists q]|].
    assert (2 <= q) by nia. assert (i < 2 * j) by (pose proof (Z.mul_succ_div_gt i 2 ltac:(lia)); lia). nia.
Qed.

Section Primes.
  Context {W : Type} `{Os W}.

Lemma primes_loop_run fuel file i end_ w e :
  2 <= i -> end_ < 2 ^ 31 - 1 -> (Z.to_nat (end_ + 1 - i) < fuel)%nat ->
  primes_loop fuel file i end_ w e =
    for_each (filter prime (seqZ i (end_ + 1 - i))) (fun p => printf file (bytes "%d ") [PInt p]) w e.
Proof.
  revert i w e. induction fuel as [|fuel IH]; intros i w e Hi He Hf; [lia|]. cbn [primes_loop].
  destruct (Z.leb_spec i end_); [|by rewrite seqZ_nil by lia].
  rewrite seqZ_cons, filter_cons by lia. replace (Z.pred (end_ + 1 - i)) with (end_ + 1 - Z.succ i) by lia.
  rewrite (not_prime_loop_prime (Z.to_nat i) i 2) by lia. replace (i =? 2 ^ 31 - 1) with false by lia.
  case_decide as Hp; [rewrite bool_decide_true by done|rewrite bool_decide_false by done]; cbn [negb for_each].
  - unfold mbind, M_bind. destruct (printf file _ _ w e); try done. apply IH; lia.
  - exact (IH (Z.succ i) w e ltac:(lia) He ltac:(lia)).
Qed.

(** given two decimal numbers, prime_numbers writes to its file exactly the
    primes between them, in increasing order, each in decimal with a blank
    after it, and then a newline: whatever the operating system answers, the
    program makes the same calls as the program that prints the list of these
    primes.  The numbers are below 2^31 - 1. *)
Theorem prime_numbers_prints fuel name a1 a2 w e :
  Forall (fun d => 48 <= d <= 57) a1 -> Forall (fun d => 48 <= d <= 57) a2 ->
  let n1 := dec_value a1 in let n2 := dec_value a2 in
  n1 < 2 ^ 31 - 1 -> n2 < 2 ^ 31 - 1 -> (Z.to_nat (Z.max n1 n2) < fuel)%nat ->
  prime_numbers_main fuel [name; a1; a2] w e =
    (sysv (Unlink (bytes "prime_numbers.txt")) ;;
     file ← sysv (Open (bytes "prime_numbers.txt") 0x202);
     let lo := Z.max 2 (Z.min n1 n2) in
     for_each (filter prime (seqZ lo (Z.max n1 n2 + 1 - lo))) (fun p => printf file (bytes "%d ") [PInt p]) ;;
     printf file [10] [] ;; sysv (Close file) ;; exit) w e.
Proof.
  intros Ha1 Ha2 n1 n2 Hn1 Hn2 Hf.
  destruct (achar_to_int_value a1 Ha1) as [E1 P1]; [lia|]. destruct (achar_to_int_value a2 Ha2) as [E2 P2]; [lia|].
  unfold prime_numbers_main. rewrite E1, E2. fold n1 n2. fold n1 in P1. fold n2 in P2. clearbody n1 n2.
  replace ((n1 =? -1) || (n2 =? -1)) with false by lia.
  transitivity ((sysv (Unlink (bytes "prime_numbers.txt")) ;;
     file ← sysv (Open (bytes "prime_numbers.txt") 0x202);
     primes_loop fuel file (Z.max 2 (Z.min n1 n2)) (Z.max n1 n2) ;; printf file [10] [] ;; sysv (Close file) ;; exit : M W unit) w e).
  { destruct (Z.ltb_spec n2 n1);
      [rewrite Z.min_r, (Z.max_l n1 n2) by lia; destruct (Z.ltb_spec n2 2)|rewrite Z.min_l, (Z.max_r n1 n2) by lia; destruct (Z.ltb_spec n1 2)];
      first [rewrite (Z.max_l 2) by lia|rewrite (Z.max_r 2) by lia]; done. }
  unfold mbind, M_bind. destruct (sysv _ w e) as [? w1 e1| | |]; try done. destruct (sysv _ w1 e1) as [f w2 e2| | |]; try done.
  by rewrite primes_loop_run by lia.
Qed.
End Primes.

(** ** Instances *)

(** A stream of 12 bytes that arrives in three pieces. *)
Definition demo_pieces : list (list Z) := [bytes "a bc" ++ [10]; bytes "d"; bytes "e  f g"].
Definition demo_world : toy := mktoy (fun fd => if fd =? 0 then demo_pieces else []) [].

Lemma demo_stream : os_stream 0 (concat demo_pieces) demo_world.
Proof. split; [reflexivity|by repeat constructor]. Qed.

Lemma cat_copies_witness : exists w',
  cat 13 0 demo_world [] = Ret tt w' [] /\ os_out w' = os_out demo_world ++ concat demo_pieces /\ os_stream 0 [] w'.
Proof. apply (cat_copies 0 (concat demo_pieces) 13 demo_world []); [exact demo_stream|vm_compute; lia]. Defined.

(** One newline, the five words [a], [bc], [de], [f] and [g], 12 bytes. *)
Lemma wc_counts_witness :
  words (concat demo_pieces) = [bytes "a"; bytes "bc"; bytes "de"; bytes "f"; bytes "g"] /\ exists w',
  wc 13 0 (bytes "x") demo_world [] = Ret tt w' [] /\
  os_out w' = os_out demo_world ++ decimal (newlines (concat demo_pieces)) ++ [32] ++
    decimal (Z.of_nat (length (words (concat demo_pieces)))) ++ [32] ++
    decimal (Z.of_nat (length (concat demo_pieces))) ++ [32] ++ map u8 (bytes "x") ++ [10].
Proof.
  split; [reflexivity|].
  apply (wc_counts 0 (concat demo_pieces) (bytes "x") 13 demo_world []); [exact demo_stream|vm_compute; lia|reflexivity].
Defined.

Lemma prime_numbers_prints_witness :
  prime_numbers_main 40 [bytes "prime_numbers"; bytes "30"; bytes "4"] demo_world [] =
    (sysv (Unlink (bytes "prime_numbers.txt")) ;;
     file ← sysv (Open (bytes "prime_numbers.txt") 0x202);
     let lo := Z.max 2 (Z.min (dec_value (bytes "30")) (dec_value (bytes "4"))) in
     for_each (filter prime (seqZ lo (Z.max (dec_value (bytes "30")) (dec_value (bytes "4")) + 1 - lo)))
       (fun p => printf file (bytes "%d ") [PInt p]) ;;
     printf file [10] [] ;; sysv (Close file) ;; exit) demo_world [].
Proof.
  apply (prime_numbers_prints 40 (bytes "prime_numbers") (bytes "30") (bytes "4") demo_world []).
  1,2: vm_compute; repeat constructor; discriminate.
  1,2: reflexivity.
  vm_compute. lia.
Defined.

(** the test for digits in [achar_to_int] never fails: it compares the
    truth value of ['0' <= c[i]] with ['9'].  Words are read as numbers, and
    the answer -1 for "not a number" is only given when the sum comes to it. *)
Theorem achar_to_int_accepts_words :
  (forall c, achar_to_int c = fold_left (fun num x => s32 (s32 (num * 10) + (s8 x - 48))) c 0) /\
  achar_to_int (bytes "two") = 7573 /\ achar_to_int (bytes "/") = -1.
Proof.
  split; [|vm_compute; auto]. intros c. unfold achar_to_int. generalize 0.
  induction c as [|x c IH]; intros num; [done|]. cbn [achar_to_int_loop fold_left]. rewrite <- IH.
  by destruct (48 <=? s8 x).
Qed.
