(* ===== verification/Umalloc.v ===== *)
(** The memory allocator of the user programs (umalloc.c): [malloc] and [free]
    on a circular list of free blocks sorted by address.  A header at address
    [a] has the fields [u_ptr a] and [u_size a]; sizes count headers of 8
    bytes, the block's own included. *)

From S2P Require Import UserLib Prelude Types.

(** What the allocator relies on: [sbrk] gives the memory after the end of the
    program's memory, which stays below 2^31, or fails. *)
Class OsMemory (W : Type) `{Os W} : Type := {
  brk : W -> Z;
  sbrk_law n w : 0 < n < 2 ^ 31 -> exists v b w', os_call (Sbrk n) w = (v, b, w') /\
    ((v = brk w /\ brk w' = brk w + n /\ brk w + n < 2 ^ 31) \/ (v = -1 /\ brk w' = brk w))
}.

Section Umalloc.
  Context {W : Type} `{Os W}.

  (** The address of the static header [base]. *)
  Context (base : Z).

Record ustate : Type := mkustate {
  u_ptr : Z -> Z;
  u_size : Z -> Z;
  u_freep : Z;
  u_world : W
}.
Definition ustate_eta (r : ustate) := mkustate (u_ptr r) (u_size r) (u_freep r) (u_world r).
#[export] Instance set_u_ptr : Setter u_ptr := ltac:(mk_setter ustate_eta).
#[export] Instance set_u_size : Setter u_size := ltac:(mk_setter ustate_eta).
#[export] Instance set_u_freep : Setter u_freep := ltac:(mk_setter ustate_eta).
#[export] Instance set_u_world : Setter u_world := ltac:(mk_setter ustate_eta).

Definition get_ptr (a : Z) : M ustate Z := gets (fun s => u_ptr s a).
Definition get_size (a : Z) : M ustate Z := gets (fun s => u_size s a).
Definition put_ptr (a v : Z) : M ustate unit := modify (fun s => s <| u_ptr := zupd (u_ptr s) a v |>).
Definition put_size (a v : Z) : M ustate unit := modify (fun s => s <| u_size := zupd (u_size s) a v |>).
Definition put_freep (v : Z) : M ustate unit := modify (fun s => s <| u_freep := v |>).

Definition sbrk (n : Z) : M ustate Z := fun s e =>
  let '(v, _, w) := os_call (Sbrk n) (u_world s) in Ret v (s <| u_world := w |>) e.

(** [sizeof(Header)] *)
Definition HDR : Z := 8.

(** The place of [bp]: the [for] loop of [free], at most [fuel] steps. *)
Fixpoint free_search (fuel : nat) (bp p : Z) : M ustate Z :=
  nx ← get_ptr p;
  if (p <? bp) && (bp <? nx) then mret p
  else if (nx <=? p) && ((p <? bp) || (bp <? nx)) then mret p
  else match fuel with
       | O => undef "free: fuel"
       | S fuel => free_search fuel bp nx
       end.

(** Joining [bp] to the block after it, or linking it. *)
Definition join_upper (bp p : Z) : M ustate unit :=
  nx ← get_ptr p;
  bs ← get_size bp;
  if bp + HDR * bs =? nx then
    ns ← get_size nx;
    put_size bp (u32 (bs + ns)) ;;
    nn ← get_ptr nx;
    put_ptr bp nn
  else put_ptr bp nx.

(** Joining the block before it to [bp], or linking it. *)
Definition join_lower (bp p : Z) : M ustate unit :=
  ps ← get_size p;
  if p + HDR * ps =? bp then
    bs ← get_size bp;
    put_size p (u32 (ps + bs)) ;;
    bn ← get_ptr bp;
    put_ptr p bn
  else put_ptr p bp.

Definition free (fuel : nat) (ap : Z) : M ustate unit :=
  let bp := ap - HDR in
  p ← gets u_freep;
  p ← free_search fuel bp p;
  join_upper bp p ;;
  join_lower bp p ;;
  put_freep p.

Definition morecore (fuel : nat) (nu : Z) : M ustate Z :=
  let nu := if nu <? 4096 then 4096 else nu in
  p ← sbrk (s32 (nu * HDR));
  if u32 p =? 2 ^ 32 - 1 then mret 0 else
  put_size p nu ;;
  free fuel (p + HDR) ;;
  gets u_freep.

(** The [for] loop of [malloc]. *)
Fixpoint malloc_loop (fuel : nat) (nunits prevp p : Z) : M ustate Z :=
  match fuel with
  | O => undef "malloc: fuel"
  | S fuel =>
      size ← get_size p;
      if nunits <=? size then
        p ← (if size =? nunits then nx ← get_ptr p; put_ptr prevp nx ;; mret p
             else
               put_size p (size - nunits) ;;
               let p := p + HDR * (size - nunits) in
               put_size p nunits ;;
               mret p);
        put_freep prevp ;;
        mret (p + HDR)
      else
        freep ← gets u_freep;
        if p =? freep then
          p ← morecore fuel nunits;
          if p =? 0 then mret 0 else nx ← get_ptr p; malloc_loop fuel nunits p nx
        else nx ← get_ptr p; malloc_loop fuel nunits p nx
  end.

Definition nunits (nbytes : Z) : Z := u32 (u32 (nbytes + HDR - 1) / HDR + 1).

Definition malloc (fuel : nat) (nbytes : Z) : M ustate Z :=
  prevp ← gets u_freep;
  prevp ← (if prevp =? 0 then put_ptr base base ;; put_freep base ;; put_size base 0 ;; mret base else mret prevp);
  p ← get_ptr prevp;
  malloc_loop fuel (nunits nbytes) prevp p.

(** ** The free list *)

(** The pointers lead from [a] through [l] to [z]. *)
Fixpoint path (ptr : Z -> Z) (a : Z) (l : list Z) (z : Z) : Prop :=
  match l with
  | [] => ptr a = z
  | b :: l => ptr a = b /\ path ptr b l z
  end.

Lemma path_ext ptr ptr' a l z : path ptr a l z -> (forall x, x ∈ a :: l -> ptr' x = ptr x) -> path ptr' a l z.
Proof.
  revert a. induction l as [|b l IH]; intros a; cbn; [intros <- Hx; apply Hx; set_solver|].
  intros [<- Hp] Hx. split; [apply Hx; set_solver|]. apply IH; [done|set_solver].
Qed.
Lemma path_app ptr a l1 b l2 z : path ptr a (l1 ++ b :: l2) z <-> path ptr a l1 b /\ path ptr b l2 z.
Proof. revert a. induction l1 as [|x l1 IH]; intros a; cbn; [done|]. rewrite IH. tauto. Qed.

(** Increasing from [a] on. *)
Fixpoint increasing (a : Z) (l : list Z) : Prop :=
  match l with
  | [] => True
  | b :: l => a < b /\ increasing b l
  end.
(** The last of [a] and [l]. *)
Fixpoint end_of (a : Z) (l : list Z) : Z :=
  match l with
  | [] => a
  | b :: l => end_of b l
  end.
Lemma increasing_app a l1 b l2 : increasing a (l1 ++ b :: l2) <-> increasing a l1 /\ end_of a l1 < b /\ increasing b l2.
Proof. revert a. induction l1 as [|x l1 IH]; intros a; cbn; [tauto|]. rewrite IH. tauto. Qed.

(** ** The search of free *)

Lemma search_low bp p l1 l2 fuel s e :
  path (u_ptr s) p (l1 ++ l2) base -> increasing p (l1 ++ l2) -> base <= p ->
  end_of p l1 < bp -> (forall x, head l2 = Some x -> bp < x) -> (length l1 <= fuel)%nat ->
  free_search fuel bp p s e = Ret (end_of p l1) s e.
Proof.
  revert p fuel. induction l1 as [|x l1 IH]; intros p fuel Hp Hi Hb Hlow Hhigh Hf; cbn [app end_of] in *.
  - destruct fuel; cbn [free_search]; unfold get_ptr; mrun.
    all: destruct l2 as [|y l2]; cbn [path] in Hp; [rewrite Hp|destruct Hp as [-> _]].
    all: try (replace ((p <? bp) && (bp <? y)) with true by (specialize (Hhigh y eq_refl); lia); done).
    all: replace ((p <? bp) && (bp <? base)) with false by lia.
    all: by replace ((base <=? p) && ((p <? bp) || (bp <? base))) with true by lia.
  - destruct Hp as [Hpx Hp], Hi as [Hpx' Hi]. cbn [length] in Hf. destruct fuel as [|fuel]; [lia|]. cbn [free_search]. unfold get_ptr. mrun.
    assert (x <= end_of x l1) as Hle.
    { clear -Hi. revert x Hi. induction l1 as [|y l1 IH]; intros x Hi; cbn in *; [lia|]. destruct Hi as [? Hi]. specialize (IH y Hi). lia. }
    rewrite Hpx. replace ((p <? bp) && (bp <? x)) with false by lia. replace ((x <=? p) && ((p <? bp) || (bp <? x))) with false by lia.
    apply IH; try done; lia.
Qed.

Lemma search_high bp p l l1 l2 fuel s e :
  path (u_ptr s) p l base -> increasing p l -> bp < p -> base < bp ->
  path (u_ptr s) base (l1 ++ l2) base -> increasing base (l1 ++ l2) ->
  end_of base l1 < bp -> (forall x, head l2 = Some x -> bp < x) -> (length l + length l1 < fuel)%nat ->
  free_search fuel bp p s e = Ret (end_of base l1) s e.
Proof.
  intros Hp Hi Hbp Hb. revert p fuel Hp Hi Hbp. induction l as [|x l IH]; intros p fuel Hp Hi Hbp Hp' Hi' Hlow Hhigh Hf;
    (destruct fuel as [|fuel]; [lia|]); cbn [free_search length path increasing] in *; unfold get_ptr; mrun.
  - rewrite Hp. replace ((p <? bp) && (bp <? base)) with false by lia. replace ((base <=? p) && ((p <? bp) || (bp <? base))) with false by lia.
    apply (search_low bp base l1 l2); try done; lia.
  - destruct Hp as [-> Hp], Hi as [Hpx Hi]. replace ((p <? bp) && (bp <? x)) with false by lia.
    replace ((x <=? p) && ((p <? bp) || (bp <? x))) with false by lia. apply IH; try done; lia.
Qed.

(** ** Blocks *)

(** A block is its address and its size. *)
Definition block_end (b : Z * Z) : Z := fst b + HDR * snd b.
Definition apart (b c : Z * Z) : Prop := block_end b <= fst c \/ block_end c <= fst b.

Fixpoint pairwise (B : list (Z * Z)) : Prop :=
  match B with
  | [] => True
  | b :: B => Forall (apart b) B /\ pairwise B
  end.
Definition total (B : list (Z * Z)) : Z := fold_right (fun b t => snd b + t) 0 B.

(** The blocks [B], with their sizes in their headers, fill the memory from
    [lo] to [hi]. *)
Record tiles (size : Z -> Z) (lo hi : Z) (B : list (Z * Z)) : Prop := {
  ti_apart : pairwise B;
  ti_block : Forall (fun b => size (fst b) = snd b /\ 1 <= snd b /\ lo <= fst b /\ block_end b <= hi) B;
  ti_total : lo + HDR * total B = hi
}.

Lemma apart_sym b c : apart b c -> apart c b.
Proof. unfold apart. tauto. Qed.

#[export] Instance pairwise_perm : Proper ((≡ₚ) ==> impl) pairwise.
Proof.
  intros B C HP. induction HP as [|b B C HP IH|b c B|B C D _ IH1 _ IH2]; unfold impl in *; cbn; [done|..].
  - intros [Hf Hp]. split; [by rewrite <- HP|auto].
  - rewrite !Forall_cons. intros [[H1 H2] [H3 H4]]. split_and!; [by apply apart_sym|done..].
  - auto.
Qed.
Lemma total_perm B C : B ≡ₚ C -> total B = total C.
Proof. unfold total. induction 1; cbn; lia. Qed.
Lemma tiles_perm size lo hi B C : B ≡ₚ C -> tiles size lo hi B -> tiles size lo hi C.
Proof.
  intros HP [H1 H2 H3]. split; [by rewrite <- HP|by rewrite <- HP|]. by rewrite <- (total_perm B C HP).
Qed.

(** Two blocks one after the other become one. *)
Lemma tiles_merge size lo hi a n c k B : c = a + HDR * n ->
  tiles size lo hi ((a, n) :: (c, k) :: B) -> tiles (zupd size a (n + k)) lo hi ((a, n + k) :: B).
Proof.
  intros -> [[H1 [H2 H3]] H4 H5]. apply Forall_cons in H4 as [(E1 & G1 & L1 & U1) H4], H4 as [(E2 & G2 & L2 & U2) H4].
  unfold block_end in *. cbn [fst snd] in *. apply Forall_cons in H1 as [_ H1]. unfold HDR in *. split.
  - split; [|done]. rewrite Forall_forall in *. intros x Hx. specialize (H1 x Hx). specialize (H2 x Hx). specialize (H4 x Hx).
    unfold apart, block_end, HDR in *. cbn [fst snd] in *. lia.
  - constructor; [cbn [fst snd]; rewrite zupd_eq; unfold block_end, HDR; cbn [fst snd]; lia|].
    rewrite Forall_forall in *. intros x Hx. specialize (H1 x Hx). specialize (H4 x Hx).
    rewrite zupd_ne; [done|]. unfold apart, block_end, HDR in *. cbn [fst snd] in *. lia.
  - cbn [total fold_right snd] in *. unfold HDR. fold (total B) in *. lia.
Qed.

(** A block becomes two. *)
Lemma tiles_split size lo hi a n m B : 0 < m < n ->
  tiles size lo hi ((a, n) :: B) ->
  tiles (zupd (zupd size a (n - m)) (a + HDR * (n - m)) m) lo hi ((a + HDR * (n - m), m) :: (a, n - m) :: B).
Proof.
  intros Hm [[H1 H2] H3 H4]. apply Forall_cons in H3 as [(E1 & G1 & L1 & U1) H3]. unfold block_end, HDR in *. cbn [fst snd] in *.
  split.
  - split; [constructor; [unfold apart, block_end, HDR; cbn; lia|]|split; [|done]].
    all: rewrite Forall_forall in *; intros x Hx; specialize (H1 x Hx); specialize (H3 x Hx); unfold apart, block_end, HDR in *; cbn [fst snd] in *; lia.
  - constructor; [cbn [fst snd]; rewrite zupd_eq; unfold block_end, HDR; cbn [fst snd]; lia|].
    constructor; [cbn [fst snd]; rewrite zupd_ne, zupd_eq by lia; unfold block_end, HDR; cbn [fst snd]; lia|].
    rewrite Forall_forall in *. intros x Hx. specialize (H1 x Hx). specialize (H3 x Hx). unfold apart, block_end, HDR in *. cbn [fst snd] in *.
    rewrite !zupd_ne by lia. done.
  - cbn [total fold_right snd] in *. unfold HDR. fold (total B) in *. lia.
Qed.

(** ** The heap *)

(** The blocks [F] lie above [a] in increasing order and no two touch. *)
Fixpoint gapped (a : Z) (F : list (Z * Z)) : Prop :=
  match F with
  | [] => True
  | b :: F => a < fst b /\ gapped (block_end b) F
  end.
Definition ends_at (a : Z) (F : list (Z * Z)) : Z := fold_left (fun _ b => block_end b) F a.

Lemma gapped_app a F1 F2 : gapped a (F1 ++ F2) <-> gapped a F1 /\ gapped (ends_at a F1) F2.
Proof. revert a. induction F1 as [|b F1 IH]; intros a; cbn; [tauto|]. rewrite IH. unfold ends_at. tauto. Qed.
Lemma gapped_from a a' F : gapped a F -> (forall c, head F = Some c -> a' < fst c) -> gapped a' F.
Proof. destruct F as [|b F]; cbn; [done|]. intros [_ HF] Ha. split; [by apply Ha|done]. Qed.
Lemma gapped_increasing a F : Forall (fun b => 1 <= snd b) F -> gapped a F -> increasing a (map fst F).
Proof.
  intros HF. revert a. induction HF as [|b F Hb HF IH]; intros a; cbn; [done|]. intros [Ha Hg]. split; [done|].
  apply IH. eapply gapped_from; [exact Hg|]. intros c Hc. destruct F; simplify_eq/=. unfold block_end, HDR in Hg. lia.
Qed.

(** The free blocks below and above a block apart from them. *)
Lemma split_at a n x F : gapped x F -> Forall (fun b => 1 <= snd b) F -> Forall (apart (a, n)) F -> 1 <= n ->
  exists F1 F2, F = F1 ++ F2 /\ Forall (fun b => block_end b <= a) F1 /\ Forall (fun b => a + HDR * n <= fst b) F2.
Proof.
  revert x. induction F as [|b F IH]; intros x Hg Hs Ha Hn; [by exists [], []|].
  destruct Hg as [Hx Hg]. apply Forall_cons in Hs as [Hb Hs], Ha as [Hab Ha].
  destruct (decide (block_end b <= a)) as [Hle|Hgt].
  - destruct (IH _ Hg Hs Ha Hn) as (F1 & F2 & -> & H1 & H2). exists (b :: F1), F2. split; [done|]. split; [by constructor|done].
  - exists [], (b :: F). split; [done|]. split; [constructor|]. constructor; [destruct Hab; cbn in *; unfold block_end in *; cbn in *; lia|].
    rewrite Forall_forall in Ha, Hs |- *. intros c Hc. pose proof (Ha c Hc) as [Hac|Hac]; cbn in *; [done|].
    exfalso. assert (block_end b < fst c /\ 1 <= snd c) as [? ?]; [|unfold block_end, HDR in *; lia].
    split; [|by apply Hs]. clear -Hg Hc Hs. revert b Hg Hc. induction F as [|d F IH]; intros b Hg Hc; [by apply elem_of_nil in Hc|].
    destruct Hg as [Hd Hg]. apply elem_of_cons in Hc as [->|Hc]; [done|].
    assert (1 <= snd d) by (apply Hs; set_solver). specialize (IH ltac:(set_solver) d Hg Hc). unfold block_end, HDR in *. lia.
Qed.

(** The state of the allocator: [F] is free, [A] is allocated, and together
    they are the memory that [sbrk] has given, from [lo] to [hi]. *)
Record heap_ok (lo hi : Z) (s : ustate) (F A : list (Z * Z)) : Prop := {
  ok_path : path (u_ptr s) base (map fst F) base;
  ok_gaps : gapped base F;
  ok_tiles : tiles (u_size s) lo hi (F ++ A);
  ok_freep : u_freep s ∈ base :: map fst F;
  ok_base : u_size s base = 0;
  ok_range : 0 < base /\ base + HDR <= lo /\ hi < 2 ^ 31
}.

Lemma path_mid ptr a l1 l2 z : path ptr a (l1 ++ l2) z -> path ptr (end_of a l1) l2 z.
Proof. revert a. induction l1 as [|b l1 IH]; intros a; cbn; [done|]. intros [_ Hp]. by apply IH. Qed.
(** [a] takes the place of [c]. *)
Lemma path_instead ptr a c l z : path ptr c l z -> a ∉ l -> path (zupd ptr a (ptr c)) a l z.
Proof.
  destruct l as [|b l]; cbn; [intros <- _; apply zupd_eq|]. intros [<- Hp] Ha. split; [apply zupd_eq|].
  eapply path_ext; [exact Hp|]. intros x Hx. apply zupd_ne. set_solver.
Qed.
Lemma path_before ptr a b l z v : path ptr b l z -> a ∉ b :: l -> v = b -> path (zupd ptr a v) a (b :: l) z.
Proof.
  intros Hp Ha ->. split; [apply zupd_eq|]. eapply path_ext; [exact Hp|]. intros x Hx. apply zupd_ne. set_solver.
Qed.

Lemma tiles_block size lo hi B a n : tiles size lo hi B -> (a, n) ∈ B -> size a = n /\ 1 <= n /\ lo <= a /\ a + HDR * n <= hi.
Proof. intros [_ HB _] Hin. rewrite Forall_forall in HB. apply (HB (a, n) Hin). Qed.

Lemma above_notin a n (F : list (Z * Z)) : Forall (fun b => a + HDR * n <= fst b) F -> 1 <= n -> a ∉ map fst F.
Proof.
  intros HF Hn Hin. apply list_elem_of_In, in_map_iff in Hin as (b & <- & Hb%list_elem_of_In). rewrite Forall_forall in HF. specialize (HF b Hb). unfold HDR in HF. lia.
Qed.

(** [join_upper] after the search has found [p]. *)
Lemma join_upper_run a n lo hi p F2 B s e :
  path (u_ptr s) p (map fst F2) base -> gapped p F2 -> Forall (fun b => a + HDR * n <= fst b) F2 -> base < a ->
  tiles (u_size s) lo hi ((a, n) :: F2 ++ B) -> 0 <= lo -> hi < 2 ^ 31 ->
  exists s1 n1 R v, join_upper a p s e = Ret tt s1 e /\ u_ptr s1 = zupd (u_ptr s) a v /\
    (forall x, x <> a -> u_size s1 x = u_size s x) /\ u_freep s1 = u_freep s /\ u_world s1 = u_world s /\
    path (u_ptr s1) a (map fst R) base /\ gapped (a + HDR * n1) R /\
    tiles (u_size s1) lo hi ((a, n1) :: R ++ B) /\ n <= n1 /\ (length R <= length F2)%nat.
Proof.
  intros Hp Hg HF2 Hb Ht Hlo Hhi. destruct (tiles_block _ _ _ _ a n Ht) as (Ea & Hn & La & Ua); [set_solver|].
  pose proof (above_notin a n F2 HF2 Hn) as Hna. unfold join_upper, get_ptr, get_size. mrun. rewrite Ea.
  destruct F2 as [|[c k] F2]; cbn [map fst path gapped] in *.
  - rewrite Hp. replace (a + HDR * n =? base) with false by (unfold HDR; lia).
    eexists _, n, [], base. split; [reflexivity|]. rsimpl. split_and!; try done. apply zupd_eq.
  - destruct Hp as [Hpc Hp], Hg as [Hpc' Hg]. rewrite Hpc. apply Forall_cons in HF2 as [Hc HF2]. cbn [fst] in Hc.
    destruct (tiles_block _ _ _ _ c k Ht) as (Ec & Hk & Lc & Uc); [set_solver|].
    destruct (Z.eqb_spec (a + HDR * n) c) as [E|E].
    + mrun. rewrite Ec. unfold put_size, put_ptr. mrun. rsimpl.
      eexists _, (n + k), F2, (u_ptr s c). split; [reflexivity|]. rsimpl. split_and!; try done.
      * intros x Hx. by apply zupd_ne.
      * apply path_instead; [done|set_solver].
      * unfold block_end in Hg. cbn [fst snd] in Hg. by replace (a + HDR * (n + k)) with (c + HDR * k) by (unfold HDR in *; lia).
      * rewrite u32_small by (unfold HDR in *; lia). by apply (tiles_merge _ _ _ _ _ c).
      * lia.
      * simpl. lia.
    + unfold put_ptr. mrun. rsimpl. eexists _, n, ((c, k) :: F2), c. split; [reflexivity|]. rsimpl. split_and!; try done.
      * apply path_before; [done|set_solver|done].
      * cbn [gapped fst]. split; [lia|done].
Qed.

Lemma end_of_app a l b : end_of a (l ++ [b]) = b.
Proof. revert a. induction l as [|x l IH]; intros a; [done|]. apply IH. Qed.

Lemma gapped_above a R x : gapped a R -> Forall (fun b => 1 <= snd b) R -> x ∈ map fst R -> a < x.
Proof.
  intros Hg HR. revert a Hg. induction HR as [|b R Hb HR IH]; intros a Hg Hx; cbn in *; [by apply elem_of_nil in Hx|].
  destruct Hg as [Ha Hg]. apply elem_of_cons in Hx as [->|Hx]; [done|]. specialize (IH _ Hg Hx). unfold block_end, HDR in IH. lia.
Qed.
Lemma gapped_below a F x : gapped a F -> Forall (fun b => 1 <= snd b) F -> x ∈ map fst F -> x < ends_at a F.
Proof.
  intros Hg HF. revert a Hg. induction F as [|b F IH] using rev_ind; intros a Hg Hx; [by apply elem_of_nil in Hx|].
  apply Forall_app in HF as [HF Hb%Forall_inv]. apply gapped_app in Hg as [Hg [Hb' _]]. unfold ends_at. rewrite fold_left_app. cbn [fold_left].
  rewrite map_app, elem_of_app in Hx. destruct Hx as [Hx|Hx].
  - specialize (IH HF a Hg Hx). unfold block_end, HDR. unfold ends_at in *. lia.
  - apply list_elem_of_singleton in Hx as ->. unfold block_end, HDR. lia.
Qed.
Lemma tiles_sizes size lo hi B C D : tiles size lo hi B -> B ≡ₚ C ++ D -> Forall (fun b => 1 <= snd b) C.
Proof.
  intros [_ HB _] HP. rewrite HP in HB. apply Forall_app in HB as [HB _]. eapply Forall_impl; [exact HB|]. by intros b (_ & ? & _).
Qed.

(** [join_lower] after [join_upper]. *)
Lemma join_lower_run a n lo hi F1 R A s e :
  let p := end_of base (map fst F1) in
  (forall F q m, F1 = F ++ [(q, m)] -> path (u_ptr s) base (map fst F) q) ->
  gapped base F1 -> Forall (fun b => block_end b <= a) F1 -> base < a ->
  path (u_ptr s) a (map fst R) base -> gapped (a + HDR * n) R ->
  tiles (u_size s) lo hi ((a, n) :: R ++ F1 ++ A) -> u_size s base = 0 -> 0 <= base < lo -> hi < 2 ^ 31 ->
  exists s2 F', join_lower a p s e = Ret tt s2 e /\ path (u_ptr s2) base (map fst F') base /\ gapped base F' /\
    tiles (u_size s2) lo hi (F' ++ A) /\ p ∈ base :: map fst F' /\ u_size s2 base = 0 /\
    u_world s2 = u_world s /\ (exists b, b ∈ F' /\ n <= snd b) /\ (length F' <= S (length F1 + length R))%nat.
Proof.
  intros p Hpre Hg1 Hle Hb Hp Hg Ht H0 Hlo Hhi. destruct (tiles_block _ _ _ _ a n Ht) as (Ea & Hn & La & Ua); [set_solver|].
  assert (Forall (fun b => 1 <= snd b) R) as HR by (eapply (tiles_sizes _ _ _ _ R ((a, n) :: F1 ++ A)); [exact Ht|solve_Permutation]).
  assert (forall x, x ∈ map fst R -> a < x) as Habove.
  { intros x Hx. pose proof (gapped_above _ _ _ Hg HR Hx). unfold HDR in *. lia. }
  unfold join_lower, get_ptr, get_size. mrun. destruct F1 as [|[q m] F1 _] using rev_ind; subst p.
  - cbn [map end_of app] in *. rewrite H0. replace (base + HDR * 0 =? a) with false by lia. unfold put_ptr. mrun.
    eexists _, ((a, n) :: R). split; [reflexivity|]. rsimpl. split_and!; try done.
    + apply path_before; [done| |done]. intros [?|Hx]%elem_of_cons; [cbn in *; lia|]. specialize (Habove _ Hx). lia.
    + set_solver.
    + exists (a, n). split; [set_solver|done].
  - rewrite map_app. cbn [map fst]. rewrite end_of_app. specialize (Hpre F1 q m eq_refl).
    apply gapped_app in Hg1 as [Hg1 [Hq _]]. cbn [fst] in Hq. apply Forall_app in Hle as [Hle Hqa%Forall_inv]. unfold block_end in Hqa. cbn [fst snd] in Hqa.
    destruct (tiles_block _ _ _ _ q m Ht) as (Eq & Hm & Lq & Uq); [set_solver|]. rewrite Eq.
    assert (Forall (fun b => 1 <= snd b) F1) as HF1 by (eapply (tiles_sizes _ _ _ _ F1 ((a, n) :: R ++ [(q, m)] ++ A)); [exact Ht|solve_Permutation]).
    assert (forall v, path (zupd (u_ptr s) q v) base (map fst F1) q) as Hpre'.
    { intros v. eapply path_ext; [exact Hpre|]. intros x Hx. apply zupd_ne. intros ->.
      apply elem_of_cons in Hx as [?|Hx]; [lia|]. pose proof (gapped_below _ _ _ Hg1 HF1 Hx). lia. }
    destruct (Z.eqb_spec (q + HDR * m) a) as [E|E]; unfold put_size, put_ptr; mrun; rsimpl.
    + eexists _, (F1 ++ (q, m + n) :: R). split; [reflexivity|]. rsimpl. rewrite map_app. cbn [map fst]. split_and!; try done.
      * apply path_app. split; [done|]. apply path_instead; [done|]. intros Hx. specialize (Habove _ Hx). unfold HDR in *. lia.
      * apply gapped_app. split; [done|]. split; [done|]. unfold block_end. cbn [fst snd].
        by replace (q + HDR * (m + n)) with (a + HDR * n) by (unfold HDR in *; lia).
      * rewrite Ea, u32_small by (unfold HDR in *; lia).
        apply (tiles_perm _ _ _ ((q, m + n) :: R ++ F1 ++ A)); [solve_Permutation|]. apply (tiles_merge _ _ _ _ _ a); [done|].
        eapply tiles_perm; [|exact Ht]. solve_Permutation.
      * set_solver.
      * rewrite zupd_ne by lia. done.
      * exists (q, m + n). split; [set_solver|cbn; lia].
      * rewrite !length_app. simpl. lia.
    + eexists _, (F1 ++ (q, m) :: (a, n) :: R). split; [reflexivity|]. rsimpl. rewrite map_app. cbn [map fst]. split_and!; try done.
      * apply path_app. split; [done|]. apply path_before; [done| |done].
        intros [E'|Hx]%elem_of_cons; [cbn in E'; unfold HDR in *; lia|]. specialize (Habove _ Hx). unfold HDR in *. lia.
      * apply gapped_app. split; [done|]. split; [done|]. split; [unfold block_end; cbn in *; lia|done].
      * eapply tiles_perm; [|exact Ht]. solve_Permutation.
      * set_solver.
      * exists (a, n). split; [set_solver|done].
      * rewrite !length_app. simpl. lia.
Qed.

Lemma node_split x (F : list (Z * Z)) : x ∈ map fst F -> exists F1 m F2, F = F1 ++ (x, m) :: F2.
Proof.
  intros Hx. apply list_elem_of_In, in_map_iff in Hx as ([y m] & E & Hin). cbn in E. subst y.
  apply in_split in Hin as (F1 & F2 & ->). eauto.
Qed.
Lemma end_of_middle a l1 b l2 : end_of a (l1 ++ b :: l2) = end_of b l2.
Proof. revert a. induction l1 as [|x l1 IH]; intros a; [done|]. apply IH. Qed.
Lemma path_after ptr a l1 b l2 z : path ptr a (l1 ++ b :: l2) z -> path ptr b l2 z.
Proof. intros Hp. by apply path_app in Hp as [_ ?]. Qed.
Lemma increasing_mid a l1 b l2 : increasing a (l1 ++ b :: l2) -> increasing b l2.
Proof. intros Hi. by apply increasing_app in Hi as (_ & _ & ?). Qed.
Lemma increasing_le a l x : increasing a l -> x ∈ a :: l -> a <= x.
Proof.
  revert a. induction l as [|b l IH]; intros a Hi Hx; [apply list_elem_of_singleton in Hx; lia|].
  destruct Hi as [Hab Hi]. apply elem_of_cons in Hx as [->|Hx]; [lia|]. specialize (IH b Hi Hx). lia.
Qed.

(** The search finds the last free block below [a]. *)
Lemma search_run a (F1 F2 : list (Z * Z)) fuel s e :
  path (u_ptr s) base (map fst (F1 ++ F2)) base -> increasing base (map fst (F1 ++ F2)) -> u_freep s ∈ base :: map fst (F1 ++ F2) ->
  Forall (fun b => fst b < a) F1 -> Forall (fun b => a < fst b) F2 -> base < a -> (length (F1 ++ F2) < fuel)%nat ->
  free_search fuel a (u_freep s) s e = Ret (end_of base (map fst F1)) s e.
Proof.
  intros Hp Hi Hfp H1 H2 Hb Hf. rewrite map_app in *. rewrite length_app in Hf.
  assert (end_of base (map fst F1) < a) as Hlow.
  { destruct F1 as [|b F1 _] using rev_ind; [done|]. rewrite map_app. cbn [map]. rewrite end_of_app. apply Forall_app in H1 as [_ H1]. by apply Forall_inv in H1. }
  assert (forall x, head (map fst F2) = Some x -> a < x) as Hhigh.
  { intros x Hx. destruct F2 as [|b F2]; [done|]. apply Forall_inv in H2. by injection Hx as <-. }
  apply elem_of_cons in Hfp as [->|Hfp].
  { apply (search_low a base _ (map fst F2)); try done. rewrite length_map. lia. }
  apply elem_of_app in Hfp as [Hfp|Hfp]; apply node_split in Hfp as (Fa & m & Fb & ->).
  - rewrite map_app in *. cbn [map fst] in *. rewrite <- app_assoc in Hp, Hi. cbn [app] in Hp, Hi. rewrite end_of_middle in Hlow |- *.
    apply (search_low a _ _ (map fst F2)); try done.
    + by apply path_after in Hp.
    + by apply increasing_mid in Hi.
    + apply (increasing_le base (map fst Fa ++ u_freep s :: map fst Fb ++ map fst F2)); [done|set_solver].
    + rewrite length_map. rewrite length_app in Hf. simpl in Hf. lia.
  - rewrite (map_app _ Fa) in Hp, Hi. cbn [map fst] in *. apply Forall_app in H2 as [_ H2]. apply Forall_inv in H2. cbn in H2.
    apply (search_high a (u_freep s) (map fst Fb) (map fst F1) (map fst (Fa ++ (u_freep s, m) :: Fb))); try done; rewrite ?map_app; try done.
    + rewrite app_assoc in Hp. by apply path_after in Hp.
    + rewrite app_assoc in Hi. by apply increasing_mid in Hi.
    + rewrite !length_map. rewrite length_app in Hf. simpl in Hf. lia.
Qed.

Lemma free_run a n lo hi F A fuel s e :
  heap_ok lo hi s F ((a, n) :: A) -> (length F < fuel)%nat ->
  exists s' F', free fuel (a + HDR) s e = Ret tt s' e /\ heap_ok lo hi s' F' A /\ u_world s' = u_world s /\
    (exists b, b ∈ F' /\ n <= snd b) /\ (length F' <= S (length F))%nat.
Proof.
  intros [Hp Hg Ht Hfp H0 (Hb0 & Hlo & Hhi)] Hf. unfold HDR in Hlo.
  destruct (tiles_block _ _ _ _ a n Ht) as (Ea & Hn & La & Ua); [set_solver|].
  assert (Forall (fun b => 1 <= snd b) F) as HF by (eapply (tiles_sizes _ _ _ _ F ((a, n) :: A)); [exact Ht|done]).
  assert (Forall (apart (a, n)) F) as Hap.
  { assert (tiles (u_size s) lo hi ((a, n) :: F ++ A)) as [[H1 _] _ _] by (eapply tiles_perm; [|exact Ht]; solve_Permutation).
    by apply Forall_app in H1 as [H1 _]. }
  destruct (split_at a n base F Hg HF Hap Hn) as (F1 & F2 & -> & HF1 & HF2).
  pose proof (gapped_increasing _ _ HF Hg) as Hi. apply Forall_app in HF as [HFa HFb].
  assert (Forall (fun b => fst b < a) F1 /\ Forall (fun b => a < fst b) F2) as [Hlow Hhigh].
  { rewrite !Forall_forall in *. split; intros b Hin; [specialize (HF1 b Hin); specialize (HFa b Hin)|specialize (HF2 b Hin)]; unfold block_end, HDR in *; lia. }
  apply gapped_app in Hg as [Hg1 Hg2]. set (p := end_of base (map fst F1)).
  assert (free_search fuel a (u_freep s) s e = Ret p s e) as Hsearch by (apply (search_run a F1 F2); try done; lia).
  assert (path (u_ptr s) p (map fst F2) base) as Hp2 by (rewrite map_app in Hp; by apply path_mid in Hp).
  assert (p < a) as Hpa.
  { subst p. destruct F1 as [|b F1 _] using rev_ind; [cbn; lia|]. rewrite map_app. cbn [map]. rewrite end_of_app.
    apply Forall_app in Hlow as [_ Hlow]. by apply Forall_inv in Hlow. }
  destruct (join_upper_run a n lo hi p F2 (F1 ++ A) s e) as (s1 & n1 & R & v & E1 & Hptr1 & Hsz1 & Hfp1 & Hw1 & HpR & HgR & Ht1 & Hn1 & HlR); try done; try lia.
  { eapply gapped_from; [exact Hg2|]. intros c Hc. destruct F2 as [|c' F2]; simplify_eq/=. apply Forall_inv in Hhigh. lia. }
  { eapply tiles_perm; [|exact Ht]. solve_Permutation. }
  destruct (join_lower_run a n1 lo hi F1 R A s1 e) as (s2 & F' & E2 & Hp' & Hg' & Ht' & Hpin & H0' & Hw2 & (b & Hb & Hnb) & HlF); try done; try lia.
  { intros F q m ->. rewrite Hptr1. rewrite !map_app, <- app_assoc in Hp. cbn [map fst app] in Hp. apply path_app in Hp as [Hp _].
    eapply path_ext; [exact Hp|]. intros x Hx. apply zupd_ne. intros ->. apply elem_of_cons in Hx as [?|Hx]; [lia|].
    apply node_split in Hx as (Fa & m' & Fb & ->). rewrite !Forall_app, Forall_cons in Hlow. cbn in Hlow. lia. }
  { rewrite Hsz1 by lia. done. }
  unfold free. mrun. replace (a + HDR - HDR) with a by lia. rewrite (bind_Ret _ _ _ _ _ _ _ Hsearch), (bind_Ret _ _ _ _ _ _ _ E1), (bind_Ret _ _ _ _ _ _ _ E2).
  unfold put_freep. mrun. eexists _, F'. split; [reflexivity|]. split; [by split; rsimpl|].
  split; [rsimpl; congruence|]. split; [exists b; split; [done|lia]|]. rewrite length_app. lia.
Qed.

(** ** Taking a block off the list *)

Lemma take_run nu m lo hi Fa p Fb A s e :
  let prevp := end_of base (map fst Fa) in
  heap_ok lo hi s (Fa ++ (p, m) :: Fb) A -> 1 <= nu <= m ->
  exists q s' F', (q ← (if m =? nu then nx ← get_ptr p; put_ptr prevp nx ;; mret p
      else put_size p (m - nu) ;; put_size (p + HDR * (m - nu)) nu ;; mret (p + HDR * (m - nu)));
      put_freep prevp ;; mret (q + HDR)) s e = Ret (q + HDR) s' e /\
    heap_ok lo hi s' F' ((q, nu) :: A) /\ u_world s' = u_world s /\ (length F' <= length (Fa ++ (p, m) :: Fb))%nat.
Proof.
  intros prevp [Hp Hg Ht Hfp H0 Hr] Hnu. pose proof Hr as (Hb0 & Hlo & Hhi). unfold HDR in Hlo.
  destruct (tiles_block _ _ _ _ p m Ht) as (Ep & Hm & Lp & Up); [set_solver|].
  rewrite map_app in Hp. cbn [map fst] in Hp. pose proof Hp as [Hpa Hpb]%path_app.
  apply gapped_app in Hg as [Hga [Hpg Hgb]]. cbn [fst] in Hpg.
  assert (Forall (fun b => 1 <= snd b) (Fa ++ (p, m) :: Fb)) as [HFa [_ HFb]%Forall_cons]%Forall_app by (by eapply tiles_sizes).
  assert (prevp ∈ base :: map fst Fa) as Hin.
  { subst prevp. destruct Fa as [|b Fa _] using rev_ind; [set_solver|]. rewrite map_app. cbn [map]. rewrite end_of_app. set_solver. }
  destruct (Z.eqb_spec m nu) as [->|Hne]; unfold get_ptr, put_ptr, put_size, put_freep; mrun; rsimpl.
  - eexists p, _, (Fa ++ Fb). split; [reflexivity|]. split; [|rsimpl; split; [done|rewrite !length_app; simpl; lia]]. split; rsimpl; try done.
    + rewrite map_app. assert (p ∉ map fst Fb) as Hpn.
      { intros Hx. pose proof (gapped_above _ _ _ Hgb HFb Hx) as Hx'. unfold block_end, HDR in Hx'. cbn in Hx'. lia. }
      subst prevp. destruct Fa as [|[q k] Fa _] using rev_ind.
      * cbn [map app end_of]. apply path_instead; [done|]. intros Hx. pose proof (gapped_above _ _ _ Hgb HFb Hx) as Hx'.
        unfold block_end, HDR in Hx'. cbn in Hx'. lia.
      * rewrite map_app in *. cbn [map fst app] in *. rewrite end_of_app, <- app_assoc. cbn [app]. apply path_app in Hpa as [Hpa Hq].
        apply gapped_app in Hga as [Hga [Hqg _]]. cbn [fst] in Hqg. apply Forall_app in HFa as [HFa Hk%Forall_inv]. cbn in Hk.
        unfold ends_at in Hpg. rewrite fold_left_app in Hpg. cbn [fold_left] in Hpg. unfold block_end at 1, HDR in Hpg. cbn [fst snd] in Hpg.
        apply path_app. split.
        -- eapply path_ext; [exact Hpa|]. intros x Hx. apply zupd_ne. intros ->. apply elem_of_cons in Hx as [?|Hx]; [|pose proof (gapped_below _ _ _ Hga HFa Hx); lia].
           assert (lo <= q) by (destruct (tiles_block _ _ _ _ q k Ht) as (_ & _ & ? & _); [set_solver|done]). lia.
        -- apply path_instead; [done|]. intros Hx. pose proof (gapped_above _ _ _ Hgb HFb Hx) as Hx'. unfold block_end, HDR in Hx'. cbn in Hx'. lia.
    + apply gapped_app. split; [done|]. eapply gapped_from; [exact Hgb|]. intros c Hc. destruct Fb; simplify_eq/=. unfold block_end, HDR in Hgb. cbn in Hgb. lia.
    + eapply tiles_perm; [|exact Ht]. solve_Permutation.
    + rewrite map_app. set_solver.
  - eexists _, _, (Fa ++ (p, m - nu) :: Fb). split; [reflexivity|]. split; [|rsimpl; split; [done|rewrite !length_app; simpl; lia]]. split; rsimpl; try done.
    + rewrite map_app. done.
    + apply gapped_app. split; [done|]. split; [done|]. eapply gapped_from; [exact Hgb|]. intros c Hc. destruct Fb; simplify_eq/=.
      unfold block_end, HDR in *. cbn in *. lia.
    + eapply (tiles_perm _ _ _ ((p + HDR * (m - nu), nu) :: (p, m - nu) :: Fa ++ Fb ++ A)); [solve_Permutation|].
      apply tiles_split; [lia|]. eapply tiles_perm; [|exact Ht]. solve_Permutation.
    + rewrite map_app. set_solver.
    + unfold HDR. rewrite !zupd_ne by lia. done.
Qed.

(** ** Going round the list *)

(** The nodes of the list: [base] and the free blocks. *)
Definition node (F : list (Z * Z)) (i : nat) : Z := end_of base (map fst (take i F)).
Definition next (F : list (Z * Z)) (i : nat) : nat := if (i <? length F)%nat then S i else O.

Lemma node_next s lo hi F A i : heap_ok lo hi s F A -> (i <= length F)%nat -> u_ptr s (node F i) = node F (next F i).
Proof.
  intros Hok Hi. pose proof (ok_path _ _ _ _ _ Hok) as Hp. rewrite <- (take_drop i F), map_app in Hp. apply path_mid in Hp. fold (node F i) in Hp.
  unfold next. destruct (Nat.ltb_spec i (length F)) as [Hlt|Hge].
  - destruct (drop i F) as [|b F'] eqn:E; [apply (f_equal length) in E; rewrite length_drop in E; simpl in E; lia|].
    destruct Hp as [-> _]. unfold node. assert (F !! i = Some b) as Hb by (rewrite <- (Nat.add_0_r i), <- lookup_drop, E; done).
    rewrite (take_S_r _ _ _ Hb), map_app. cbn [map]. by rewrite end_of_app.
  - rewrite drop_ge in Hp by done. exact Hp.
Qed.

Lemma node_size s lo hi F A i : heap_ok lo hi s F A -> (i <= length F)%nat ->
  (i = O /\ u_size s (node F i) = 0) \/
  (exists j p m, i = S j /\ F = take j F ++ (p, m) :: drop i F /\ node F i = p /\ u_size s p = m).
Proof.
  intros Hok Hi. destruct i as [|j]; [left; split; [done|apply (ok_base _ _ _ _ _ Hok)]|right].
  destruct (lookup_lt_is_Some_2 F j) as [[p m] Hb]; [lia|]. exists j, p, m. split; [done|].
  pose proof (take_drop_middle _ _ _ Hb) as E. split; [done|]. split.
  - unfold node. rewrite (take_S_r _ _ _ Hb), map_app. cbn [map]. apply end_of_app.
  - destruct (tiles_block _ _ _ _ p m (ok_tiles _ _ _ _ _ Hok)) as (? & _); [|done]. apply elem_of_app. left. by eapply list_elem_of_lookup_2.
Qed.

Lemma freep_node s lo hi F A : heap_ok lo hi s F A -> exists j, (j <= length F)%nat /\ u_freep s = node F j.
Proof.
  intros Hok. pose proof (ok_freep _ _ _ _ _ Hok) as Hfp. apply elem_of_cons in Hfp as [->|Hfp]; [exists O; split; [lia|done]|].
  apply node_split in Hfp as (F1 & m & F2 & ->). exists (S (length F1)). rewrite length_app. split; [simpl; lia|].
  unfold node. replace (take (S (length F1)) (F1 ++ (u_freep s, m) :: F2)) with (F1 ++ [(u_freep s, m)]).
  - rewrite map_app. cbn [map]. by rewrite end_of_app.
  - replace (S (length F1)) with (length F1 + 1)%nat by lia. by rewrite take_app_add.
Qed.

Lemma node_lt s lo hi F A i j : heap_ok lo hi s F A -> (i < j <= length F)%nat -> node F i < node F j.
Proof.
  intros Hok Hij. assert (increasing base (map fst F)) as Hi.
  { apply gapped_increasing; [|apply (ok_gaps _ _ _ _ _ Hok)]. eapply tiles_sizes; [apply (ok_tiles _ _ _ _ _ Hok)|done]. }
  assert (forall j, (j < length F)%nat -> node F j < node F (S j)) as Hstep.
  { intros k Hk. destruct (lookup_lt_is_Some_2 F k Hk) as [b Hb]. rewrite <- (take_drop_middle _ _ _ Hb), map_app in Hi.
    apply increasing_app in Hi as (_ & Hlt & _). unfold node. rewrite (take_S_r _ _ _ Hb), map_app. cbn [map]. by rewrite end_of_app. }
  destruct Hij as [Hij Hj]. induction Hij as [|j Hij IH]; [apply Hstep; lia|]. specialize (IH ltac:(lia)). specialize (Hstep j ltac:(lia)). lia.
Qed.
Lemma node_inj s lo hi F A i j : heap_ok lo hi s F A -> (i <= length F)%nat -> (j <= length F)%nat -> node F i = node F j -> i = j.
Proof.
  intros Hok Hi Hj E. destruct (lt_eq_lt_dec i j) as [[Hlt|]|Hgt]; [|done|].
  - pose proof (node_lt _ _ _ _ _ i j Hok ltac:(lia)). lia.
  - pose proof (node_lt _ _ _ _ _ j i Hok ltac:(lia)). lia.
Qed.

(** The place [d] steps after place [i]. *)
Definition after (F : list (Z * Z)) (i d : nat) : nat := ((i + d) mod S (length F))%nat.

Lemma next_after F i : (i <= length F)%nat -> next F i = after F i 1.
Proof.
  intros Hi. unfold next, after. destruct (Nat.ltb_spec i (length F)).
  - rewrite Nat.mod_small; lia.
  - replace (i + 1)%nat with (S (length F)) by lia. by rewrite Nat.Div0.mod_same.
Qed.
Lemma after_le F i d : (after F i d <= length F)%nat.
Proof. unfold after. pose proof (Nat.mod_upper_bound (i + d) (S (length F)) ltac:(lia)). lia. Qed.
Lemma after_after F i d d' : after F (after F i d) d' = after F i (d + d').
Proof. unfold after. rewrite Nat.Div0.add_mod_idemp_l. f_equal. lia. Qed.

(** The rest of [malloc_loop] when the search has come round. *)
Definition more (fuel : nat) (nu : Z) : M ustate Z :=
  p ← morecore fuel nu; if p =? 0 then mret 0 else nx ← get_ptr p; malloc_loop fuel nu p nx.

(** A round of the search: it takes the first block that fits, or comes to
    [freep] having seen none. *)
Lemma scan_run nu lo hi F A i d fuel s e :
  heap_ok lo hi s F A -> (i <= length F)%nat -> 1 <= nu -> (d < fuel)%nat ->
  node F (after F i (S d)) = u_freep s -> (forall t, (t < d)%nat -> node F (after F i (S t)) <> u_freep s) ->
  (exists q s' F', malloc_loop fuel nu (node F i) (node F (after F i 1)) s e = Ret (q + HDR) s' e /\
     heap_ok lo hi s' F' ((q, nu) :: A) /\ u_world s' = u_world s /\ (length F' <= length F)%nat) \/
  ((forall t, (t <= d)%nat -> u_size s (node F (after F i (S t))) < nu) /\
   malloc_loop fuel nu (node F i) (node F (after F i 1)) s e = more (fuel - S d) nu s e).
Proof.
  intros Hok Hi Hnu. revert i fuel Hi. induction d as [|d IH]; intros i fuel Hi Hf Hend Hnot; (destruct fuel as [|fuel]; [lia|]); cbn [malloc_loop].
  all: unfold get_size; mrun; pose proof (after_le F i 1) as Hi1; set (p := node F (after F i 1)) in *.
  all: destruct (Z.leb_spec nu (u_size s p)) as [Hfit|Hunfit].
  1,3: left; destruct (node_size _ _ _ _ _ _ Hok Hi1) as [[_ E]|(j & q & m & Ej & EF & Eq & Em)]; [fold p in E; lia|].
  1,2: rewrite <- next_after in Ej by done; unfold next in Ej; destruct (i <? length F)%nat; [injection Ej as <-|done].
  1,2: fold p in Eq; subst q; rewrite Em in *; unfold node; rewrite EF in Hok.
  1,2: destruct (take_run nu m lo hi (take i F) p (drop (after F i 1) F) A s e Hok ltac:(lia)) as (q & s' & F' & E & Hok' & Hw & Hl).
  1,2: exists q, s', F'; split; [exact E|]; split; [done|]; split; [done|]; by rewrite EF.
  - right. split; [intros t Ht; by replace t with O by lia|]. mrun. rewrite Hend, Z.eqb_refl. by rewrite Nat.sub_succ, Nat.sub_0_r.
  - mrun. replace (p =? u_freep s) with false by (symmetry; apply Z.eqb_neq, (Hnot O); lia). unfold get_ptr at 1. mrun.
    subst p. rewrite (node_next _ _ _ _ _ _ Hok Hi1), next_after by done.
    destruct (IH (after F i 1) fuel) as [(q & s' & F' & E & H')|[Hall E]]; [done|lia|by rewrite after_after|intros t Ht; rewrite after_after; apply Hnot; lia|..].
    + left. eauto 10.
    + right. split; [|by rewrite E]. intros [|t] Ht; [done|]. specialize (Hall t ltac:(lia)). by rewrite after_after in Hall.
Qed.

(** A whole round sees every block. *)
Lemma after_all F j k : (j <= length F)%nat -> (k <= length F)%nat -> exists t, (t <= length F)%nat /\ after F j (S t) = k.
Proof.
  intros Hj Hk. unfold after. destruct (Nat.ltb_spec j k).
  - exists (k - j - 1)%nat. split; [lia|]. rewrite Nat.mod_small; lia.
  - exists (k + length F - j)%nat. split; [lia|]. replace (j + S (k + length F - j))%nat with (k + 1 * S (length F))%nat by lia.
    rewrite Nat.Div0.mod_add, Nat.mod_small; lia.
Qed.

Lemma round_run nu lo hi F A fuel s e : heap_ok lo hi s F A -> 1 <= nu -> (length F < fuel)%nat ->
  (exists q s' F', malloc_loop fuel nu (u_freep s) (u_ptr s (u_freep s)) s e = Ret (q + HDR) s' e /\
     heap_ok lo hi s' F' ((q, nu) :: A) /\ u_world s' = u_world s /\ (length F' <= length F)%nat) \/
  ((forall b, b ∈ F -> snd b < nu) /\
   malloc_loop fuel nu (u_freep s) (u_ptr s (u_freep s)) s e = more (fuel - S (length F)) nu s e).
Proof.
  intros Hok Hnu Hf. destruct (freep_node _ _ _ _ _ Hok) as (j & Hj & Efp).
  assert (u_ptr s (u_freep s) = node F (after F j 1)) as -> by (rewrite Efp, (node_next _ _ _ _ _ _ Hok Hj); by rewrite next_after).
  destruct (scan_run nu lo hi F A j (length F) fuel s e Hok Hj Hnu Hf) as [Htake|[Hall E]].
  - rewrite Efp. f_equal. unfold after. replace (j + S (length F))%nat with (j + 1 * S (length F))%nat by lia.
    rewrite Nat.Div0.mod_add, Nat.mod_small; lia.
  - intros t Ht E. rewrite Efp in E. apply (node_inj _ _ _ _ _ _ _ Hok) in E; [|apply after_le|done].
    unfold after in E. destruct (Nat.ltb_spec (j + S t) (S (length F))).
    + rewrite Nat.mod_small in E; lia.
    + replace (j + S t)%nat with (j + S t - S (length F) + 1 * S (length F))%nat in E by lia.
      rewrite Nat.Div0.mod_add, Nat.mod_small in E; lia.
  - left. by rewrite Efp.
  - right. rewrite Efp. split; [|exact E]. intros [p m] Hb. apply list_elem_of_lookup in Hb as [k Hk]. pose proof (lookup_lt_Some _ _ _ Hk).
    destruct (after_all F j (S k)) as (t & Ht & Et); [done|lia|]. specialize (Hall t Ht). rewrite Et in Hall.
    destruct (node_size _ _ _ _ _ (S k) Hok ltac:(lia)) as [[? _]|(j' & p' & m' & [= <-] & EF & En & Em)]; [done|].
    assert ((p, m) = (p', m')) as [= <- <-].
    { rewrite EF, lookup_app_r, length_take, Nat.min_l, Nat.sub_diag in Hk by (rewrite ?length_take; lia). cbn in Hk; congruence. }
    rewrite En, Em in Hall. done.
Qed.

(** ** More memory *)

Context `{!OsMemory W}.

Lemma grow_ok lo hi nu s F A : heap_ok lo hi s F A -> 1 <= nu -> hi + HDR * nu < 2 ^ 31 -> lo <= hi ->
  heap_ok lo (hi + HDR * nu) (s <| u_size := zupd (u_size s) hi nu |>) F ((hi, nu) :: A).
Proof.
  intros [Hp Hg [H1 H2 H3] Hfp H0 Hr] Hnu Hhi Hlo. split; rsimpl; try done.
  - apply (tiles_perm _ _ _ ((hi, nu) :: F ++ A)); [solve_Permutation|]. split.
    + split; [|done]. eapply Forall_impl; [exact H2|]. intros b (_ & _ & _ & Hb). right. done.
    + constructor; [cbn; rewrite zupd_eq; unfold block_end; cbn; lia|]. eapply Forall_impl; [exact H2|].
      intros b (E & Hb & Hl & Hu). rewrite zupd_ne by (unfold block_end, HDR in Hu; lia). unfold HDR in *. lia.
    + cbn [total fold_right snd]. fold (total (F ++ A)). unfold HDR in *. lia.
  - rewrite zupd_ne; [done|]. unfold HDR in *. lia.
  - lia.
Qed.

(** The end of the heap is the end of the program's memory. *)
Definition heap_at (lo : Z) (s : ustate) (F A : list (Z * Z)) : Prop := heap_ok lo (brk (u_world s)) s F A.

Lemma tiles_total size lo hi B : tiles size lo hi B -> lo <= hi.
Proof.
  intros [_ HB Ht]. assert (0 <= total B); [|unfold HDR in *; lia]. clear Ht. unfold total.
  induction HB as [|b B (_ & Hb & _) HB IH]; cbn; lia.
Qed.

Lemma heap_world lo s F A w : heap_at lo s F A -> brk w = brk (u_world s) -> heap_at lo (s <| u_world := w |>) F A.
Proof. unfold heap_at. rsimpl. intros [Hp Hg Ht Hfp H0 Hr] ->. by split. Qed.

Lemma morecore_run lo nu F A fuel s e : heap_at lo s F A -> 1 <= nu < 2 ^ 27 -> (length F < fuel)%nat ->
  exists v s', morecore fuel nu s e = Ret v s' e /\
    ((v = 0 /\ heap_at lo s' F A) \/
     (v = u_freep s' /\ 0 < v /\ exists F', heap_at lo s' F' A /\ (exists b, b ∈ F' /\ nu <= snd b) /\ (length F' <= S (length F))%nat)).
Proof.
  intros Hok Hnu Hf. unfold morecore. set (n := if nu <? 4096 then 4096 else nu).
  assert (nu <= n < 2 ^ 27) as Hn by (subst n; destruct (Z.ltb_spec nu 4096); lia). clearbody n.
  pose proof (ok_range _ _ _ _ _ Hok) as (Hb & Hlo & Hhi). pose proof (tiles_total _ _ _ _ (ok_tiles _ _ _ _ _ Hok)) as Hle. unfold HDR in Hlo.
  destruct (sbrk_law (n * HDR) (u_world s)) as (v & bs & w & E & Hcase); [unfold HDR; lia|].
  assert (sbrk (s32 (n * HDR)) s e = Ret v (s <| u_world := w |>) e) as Hs by (unfold sbrk; rewrite s32_small by (unfold HDR; lia); by rewrite E).
  rewrite (bind_Ret _ _ _ _ _ _ _ Hs). destruct Hcase as [(-> & Hbrk & Hlim)|[-> Hbrk]].
  - replace (u32 (brk (u_world s)) =? 2 ^ 32 - 1) with false by (symmetry; apply Z.eqb_neq; rewrite u32_small; lia).
    unfold put_size. mrun. rsimpl.
    assert (heap_ok lo (brk w) (s <| u_world := w |> <| u_size := zupd (u_size s) (brk (u_world s)) n |>) F ((brk (u_world s), n) :: A)) as Hg.
    { rewrite Hbrk, Z.mul_comm. pose proof (grow_ok lo _ n s F A Hok ltac:(lia) ltac:(unfold HDR in *; lia) Hle) as [Hp Hg Ht Hfp H0 Hr]. by split. }
    destruct (free_run _ n lo (brk w) F A fuel _ e Hg Hf) as (s' & F' & E' & Hok' & Hw & (b & Hbin & Hbn) & Hl).
    rewrite (bind_Ret _ _ _ _ _ _ _ E'). mrun. exists (u_freep s'), s'. split; [done|]. right. rsimpl in Hw.
    split; [done|]. split.
    + destruct (freep_node _ _ _ _ _ Hok') as (j & Hj & ->). destruct j as [|j]; [exact Hb|].
      pose proof (node_lt _ _ _ _ _ O (S j) Hok' ltac:(lia)) as Hlt. change (node F' O) with base in Hlt. lia.
    + exists F'. split; [unfold heap_at; by rewrite Hw|]. split; [exists b; split; [done|lia]|done].
  - change (u32 (-1) =? 2 ^ 32 - 1) with true. cbv iota. exists 0, (s <| u_world := w |>). split; [done|]. left. split; [done|]. by apply heap_world.
Qed.

Lemma malloc_loop_run lo nu F A fuel s e : heap_at lo s F A -> 1 <= nu < 2 ^ 27 -> (2 * length F + 3 < fuel)%nat ->
  exists v s' F', malloc_loop fuel nu (u_freep s) (u_ptr s (u_freep s)) s e = Ret v s' e /\ (length F' <= S (length F))%nat /\
    ((v = 0 /\ heap_at lo s' F' A) \/ (exists q, v = q + HDR /\ heap_at lo s' F' ((q, nu) :: A))).
Proof.
  intros Hok Hnu Hf.
  destruct (round_run nu lo _ F A fuel s e Hok ltac:(lia) ltac:(lia)) as [(q & s' & F' & E & Hok' & Hw & Hl)|[_ E]].
  { exists (q + HDR), s', F'. split; [done|]. split; [lia|]. right. exists q. split; [done|]. unfold heap_at. by rewrite Hw. }
  rewrite E. unfold more.
  destruct (morecore_run lo nu F A (fuel - S (length F)) s e Hok Hnu ltac:(lia)) as (v & s1 & E1 & Hcase).
  rewrite (bind_Ret _ _ _ _ _ _ _ E1). destruct Hcase as [[-> Hok1]|(Ev & Hv & F1 & Hok1 & (b & Hb & Hnb) & Hl1)].
  { cbn [Z.eqb]. exists 0, s1, F. split; [done|]. split; [lia|]. by left. }
  replace (v =? 0) with false by lia. unfold get_ptr. mrun. subst v.
  destruct (round_run nu lo _ F1 A (fuel - S (length F)) s1 e Hok1 ltac:(lia) ltac:(lia)) as [(q & s' & F' & E2 & Hok' & Hw & Hl)|[Hno _]].
  - rewrite E2. exists (q + HDR), s', F'. split; [done|]. split; [lia|]. right. exists q. split; [done|]. unfold heap_at. by rewrite Hw.
  - specialize (Hno b Hb). lia.
Qed.

(** The heap before the first call, or at work. *)
Definition heap (lo : Z) (s : ustate) (F A : list (Z * Z)) : Prop :=
  heap_at lo s F A \/
  (u_freep s = 0 /\ F = [] /\ A = [] /\ brk (u_world s) = lo /\ 0 < base /\ base + HDR <= lo < 2 ^ 31).

Lemma nunits_run n : 0 <= n <= 2 ^ 29 -> nunits n = (n + 7) / 8 + 1 /\ 1 <= nunits n < 2 ^ 27 /\ n <= HDR * (nunits n - 1).
Proof.
  intros Hn. unfold nunits, HDR. pose proof (Z.div_mod (n + 7) 8 ltac:(lia)). pose proof (Z.mod_pos_bound (n + 7) 8 ltac:(lia)).
  rewrite (u32_small (n + 8 - 1)) by lia. replace (n + 8 - 1) with (n + 7) by lia. rewrite u32_small by lia. lia.
Qed.

Lemma malloc_run lo n F A fuel s e : heap lo s F A -> 0 <= n <= 2 ^ 29 -> (2 * length F + 3 < fuel)%nat ->
  exists v s' F', malloc fuel n s e = Ret v s' e /\ (length F' <= S (length F))%nat /\
    ((v = 0 /\ heap lo s' F' A) \/ (exists q, v = q + HDR /\ heap_at lo s' F' ((q, nunits n) :: A))).
Proof.
  intros Hh Hn Hf. destruct (nunits_run n Hn) as (_ & Hnu & _). unfold malloc. mrun.
  destruct Hh as [Hok|(Hfp & -> & -> & Hbrk & Hb & Hlo)].
  - assert (u_freep s <> 0).
    { destruct (freep_node _ _ _ _ _ Hok) as (j & Hj & ->). pose proof (ok_range _ _ _ _ _ Hok) as (Hb & _). destruct j as [|j]; [change (node F O) with base; lia|].
      pose proof (node_lt _ _ _ _ _ O (S j) Hok ltac:(lia)) as Hlt. change (node F O) with base in Hlt. lia. }
    replace (u_freep s =? 0) with false by lia. unfold get_ptr. mrun.
    destruct (malloc_loop_run lo (nunits n) F A fuel s e Hok Hnu Hf) as (v & s' & F' & E & Hl & Hcase).
    exists v, s', F'. split; [exact E|]. split; [done|]. destruct Hcase as [[-> ?]|?]; [left; split; [done|by left]|by right].
  - rewrite Hfp. cbn [Z.eqb]. unfold put_ptr, put_freep, put_size, get_ptr. mrun. rsimpl.
    set (s1 := s <| u_ptr := zupd (u_ptr s) base base |> <| u_freep := base |> <| u_size := zupd (u_size s) base 0 |>).
    assert (heap_at lo s1 [] []) as Hok.
    { unfold heap_at, s1. rsimpl. rewrite Hbrk. split; rsimpl; try done; [cbn; apply zupd_eq| |set_solver|apply zupd_eq].
      split; cbn; [done|constructor|lia]. }
    destruct (malloc_loop_run lo (nunits n) [] [] fuel s1 e Hok Hnu Hf) as (v & s' & F' & E & Hl & Hcase).
    exists v, s', F'. split; [exact E|]. split; [done|]. destruct Hcase as [[-> ?]|?]; [left; split; [done|by left]|by right].
Qed.

(** ** A client *)

(** What a program does with the allocator: it asks for [n] bytes, or gives
    back the [i]th of its blocks. *)
Inductive memop : Type := Malloc (n : Z) | Free (i : nat).

(** The blocks the program has, with the sizes it asked for. *)
Fixpoint run_ops (fuel : nat) (ops : list memop) (live : list (Z * Z)) : M ustate (list (Z * Z)) :=
  match ops with
  | [] => mret live
  | Malloc n :: ops => p ← malloc fuel n; run_ops fuel ops (if p =? 0 then live else live ++ [(p, n)])
  | Free i :: ops =>
      match live !! i with
      | Some (p, _) => free fuel p ;; run_ops fuel ops (delete i live)
      | None => run_ops fuel ops live
      end
  end.

(** The headers of the blocks. *)
Definition header (b : Z * Z) : Z * Z := (fst b - HDR, nunits (snd b)).
Definition op_ok (o : memop) : Prop := match o with Malloc n => 0 <= n <= 2 ^ 29 | Free _ => True end.

Lemma run_ops_run lo ops live F fuel s e :
  Forall op_ok ops -> Forall (fun b => 0 <= snd b <= 2 ^ 29) live -> heap lo s F (map header live) ->
  (2 * (length F + length ops) + 3 < fuel)%nat ->
  exists live' s' F', run_ops fuel ops live s e = Ret live' s' e /\ heap lo s' F' (map header live') /\
    Forall (fun b => 0 <= snd b <= 2 ^ 29) live'.
Proof.
  intros Hops. revert live F s. induction Hops as [|o ops Ho Hops IH]; intros live F s Hlive Hh Hf; cbn [run_ops length] in *; [eauto 10|].
  destruct o as [n|i].
  - destruct (malloc_run lo n F _ fuel s e Hh Ho ltac:(lia)) as (v & s' & F' & E & Hl & Hcase). rewrite (bind_Ret _ _ _ _ _ _ _ E).
    destruct Hcase as [[-> Hh']|(q & -> & Hh')]; [apply (IH live F'); [done..|lia]|].
    assert (0 < q + HDR) as Hq.
    { destruct (tiles_block _ _ _ _ q (nunits n) (ok_tiles _ _ _ _ _ Hh')) as (_ & _ & Hlq & _); [set_solver|].
      pose proof (ok_range _ _ _ _ _ Hh') as (? & ? & _). unfold HDR in *. lia. }
    replace (q + HDR =? 0) with false by lia. apply (IH _ F'); [|left|lia].
    + apply Forall_app. split; [done|constructor; [exact Ho|constructor]].
    + rewrite map_app. cbn [map]. unfold header at 2. cbn [fst snd]. replace (q + HDR - HDR) with q by lia.
      destruct Hh' as [Hp Hg Ht Hfp H0 Hr]. split; try done. eapply tiles_perm; [|exact Ht]. solve_Permutation.
  - destruct (live !! i) as [[p n]|] eqn:Ei; [|apply (IH live F); [done..|lia]].
    destruct Hh as [Hok|(_ & _ & E & _)]; [|by destruct live].
    assert (live ≡ₚ (p, n) :: delete i live) as HP by (by apply delete_Permutation).
    assert (heap_ok lo (brk (u_world s)) s F ((p - HDR, nunits n) :: map header (delete i live))) as Hok'.
    { destruct Hok as [Hp Hg Ht Hfp H0 Hr]. split; try done. eapply tiles_perm; [|exact Ht]. apply Permutation_app_head.
      change ((p - HDR, nunits n) :: map header (delete i live)) with (map header ((p, n) :: delete i live)). by apply Permutation_map. }
    destruct (free_run _ _ lo _ F _ fuel s e Hok' ltac:(lia)) as (s' & F' & E & Hok1 & Hw & _ & Hl). replace (p - HDR + HDR) with p in E by lia.
    rewrite (bind_Ret _ _ _ _ _ _ _ E). apply (IH _ F'); [by apply Forall_delete|left; unfold heap_at; by rewrite Hw|lia].
Qed.

Lemma pairwise_lookup B i j b c : pairwise B -> i <> j -> B !! i = Some b -> B !! j = Some c -> apart b c.
Proof.
  assert (forall B i j b c, pairwise B -> (i < j)%nat -> B !! i = Some b -> B !! j = Some c -> apart b c) as Hlt.
  { clear. intros B. induction B as [|x B IH]; intros i j b c Hp Hij Hi Hj; [done|]. destruct Hp as [Hx Hp].
    destruct j as [|j]; [lia|]. destruct i as [|i]; simplify_eq/=; [|by apply (IH i j); try done; lia].
    rewrite Forall_forall in Hx. apply Hx. by eapply list_elem_of_lookup_2. }
  intros Hp Hij Hi Hj. destruct (lt_eq_lt_dec i j) as [[?|?]|?]; [by eapply Hlt|done|]. apply apart_sym. by eapply Hlt.
Qed.
Lemma pairwise_app B C : pairwise (B ++ C) -> pairwise C.
Proof. induction B as [|b B IH]; [done|]. intros [_ Hp]. by apply IH. Qed.

(** C9: the allocator is correct for every program that frees only its own
    blocks and asks for at most 2^29 bytes at a time.  Whatever the sequence
    of calls, every call returns; the blocks that the program has are as large
    as it asked, lie in the memory obtained from [sbrk], and do not overlap,
    headers included. *)
Theorem allocator_correct lo ops fuel s e :
  heap lo s [] [] -> Forall op_ok ops -> (2 * length ops + 3 < fuel)%nat ->
  exists live s', run_ops fuel ops [] s e = Ret live s' e /\
    Forall (fun b => lo <= fst b - HDR /\ fst b + snd b <= brk (u_world s')) live /\
    (forall i j b c, i <> j -> live !! i = Some b -> live !! j = Some c ->
       fst b + snd b <= fst c - HDR \/ fst c + snd c <= fst b - HDR).
Proof.
  intros Hh Hops Hf. destruct (run_ops_run lo ops [] [] fuel s e Hops) as (live & s' & F & E & Hh' & Hsz); [constructor|done|done|].
  exists live, s'. split; [done|]. destruct Hh' as [Hok|(_ & _ & Em & _)]; [|destruct live; [split; [constructor|done]|done]].
  pose proof (ok_tiles _ _ _ _ _ Hok) as [Hp Hb _]. apply pairwise_app in Hp. apply Forall_app in Hb as [_ Hb].
  assert (forall i b, live !! i = Some b -> fst b + snd b <= block_end (header b)) as Hsize.
  { intros i b Hi. rewrite Forall_lookup in Hsz. destruct (nunits_run (snd b) (Hsz i b Hi)) as (_ & _ & Hn).
    unfold block_end, header, HDR in *. cbn in *. lia. }
  split.
  - apply Forall_lookup. intros i b Hi. specialize (Hsize i b Hi). rewrite Forall_forall in Hb.
    destruct (Hb (header b)) as (_ & _ & Hl & Hu); [|unfold header in *; cbn in *; lia].
    apply list_elem_of_In, in_map, list_elem_of_In. by eapply list_elem_of_lookup_2.
  - intros i j b c Hij Hi Hj. pose proof (Hsize i b Hi). pose proof (Hsize j c Hj).
    assert (apart (header b) (header c)) as [Hbc|Hcb].
    { apply (pairwise_lookup (map header live) i j); try done; change (map header live) with (header <$> live); rewrite list_lookup_fmap; by rewrite ?Hi, ?Hj. }
    + left. unfold header in Hbc at 2. cbn in Hbc. unfold HDR in *. lia.
    + right. unfold header in Hcb at 2. cbn in Hcb. unfold HDR in *. lia.
Qed.
End Umalloc.

(** a request for nearly 2^32 bytes overflows: [malloc] rounds it up to one
    header, and would return a block of no bytes. *)
Theorem malloc_size_overflow n : 2 ^ 32 - 7 <= n < 2 ^ 32 -> nunits n = 1.
Proof.
  intros Hn. unfold nunits, HDR. replace (u32 (n + 8 - 1)) with (n + 7 - 2 ^ 32).
  - rewrite Z.div_small by lia. done.
  - unfold u32. symmetry. replace (n + 8 - 1) with (n + 7 - 2 ^ 32 + 1 * 2 ^ 32) by lia. rewrite Z.mod_add, Z.mod_small; lia.
Qed.

(** ** Instances *)

(** A world that is the end of the program's memory. *)
#[export] Instance brk_os : Os Z := fun r w =>
  match r with
  | Sbrk n => if w + n <? 2 ^ 31 then (w, [], w + n) else (-1, [], w)
  | _ => (0, [], w)
  end.
#[export, refine] Instance brk_memory : OsMemory Z := { brk w := w }.
Proof.
  intros n w Hn. unfold os_call, brk_os. destruct (Z.ltb_spec (w + n) (2 ^ 31)); do 3 eexists; split; [reflexivity|..]; [by left|reflexivity|by right].
Defined.

Definition demo_heap : ustate (W := Z) := mkustate (fun _ => 0) (fun _ => 0) 0 0x4000.
Definition demo_ops : list memop := [Malloc 100; Malloc 40000; Free 0; Malloc 9; Malloc 50].

Lemma allocator_correct_witness :
  exists live s', run_ops 0x100 20 demo_ops [] demo_heap [] = Ret live s' [] /\
    Forall (fun b => 0x4000 <= fst b - HDR /\ fst b + snd b <= brk (u_world s')) live /\
    (forall i j b c, i <> j -> live !! i = Some b -> live !! j = Some c ->
       fst b + snd b <= fst c - HDR \/ fst c + snd c <= fst b - HDR).
Proof.
  apply (allocator_correct 0x100 0x4000 demo_ops 20 demo_heap []).
  - right. by vm_compute.
  - repeat constructor; vm_compute; discriminate.
  - vm_compute. lia.
Defined.

Lemma malloc_size_overflow_witness : nunits (2 ^ 32 - 1) = 1.
Proof. apply (malloc_size_overflow (2 ^ 32 - 1)). lia. Defined.
