(* ===== verification/Mkfs.v ===== *)
(** mkfs (mkfs.c), the program that builds the image of the file system from a
    list of files.  The image is the list of its blocks.  The host's file operations on [fs.img] succeed; reading
    behind the end of the image ends the program.  What the host's [read]
    returns of the other files, piece by piece, is given. *)

From S2P Require Import Prelude Types Bytes Log Fs FsIo.

(** ** Constants and structures *)

Definition NINODES : Z := 200.
Definition nbitmap : Z := FSSIZE / (Z.of_nat BSIZE * 8) + 1.
Definition ninodeblocks : Z := NINODES / IPB + 1.
Definition nlog : Z := LOGSIZE.
Definition nmeta : Z := 2 + nlog + ninodeblocks + nbitmap.
Definition nblocks : Z := FSSIZE - nmeta.

Definition zeroes : block := replicate BSIZE 0.

(** [struct dinode] *)
Record dinode : Type := mkdinode {
  di_type : Z;
  di_major : Z;
  di_minor : Z;
  di_nlink : Z;
  di_size : Z;
  di_addrs : list Z
}.
Definition dinode_eta (r : dinode) := mkdinode (di_type r) (di_major r) (di_minor r) (di_nlink r) (di_size r) (di_addrs r).
#[export] Instance set_di_size : Setter di_size := ltac:(mk_setter dinode_eta).
#[export] Instance set_di_addrs : Setter di_addrs := ltac:(mk_setter dinode_eta).

(** A dinode at offset [o] of a block: [*ip = *dip] and [*dip = *ip]. *)
Definition get_dinode (o : nat) (d : block) : dinode :=
  mkdinode (get16 d o) (get16 d (o + 2)) (get16 d (o + 4)) (get16 d (o + 6)) (get32 d (o + 8)) (get_addrs (o + 12) d).
Definition put_dinode (o : nat) (x : dinode) (d : block) : block :=
  put_addrs (o + 12) (di_addrs x) (put32 (o + 8) (di_size x) (put16 (o + 6) (di_nlink x)
    (put16 (o + 4) (di_minor x) (put16 (o + 2) (di_major x) (put16 o (di_type x) d))))).

(** [xshort] and [xint] store the bytes in Intel order; read by a host of that
    order they are the number itself. *)
Definition xshort (x : Z) : Z := get16 [u8 x; u8 (Z.shiftr x 8)] 0.
Definition xint (x : Z) : Z := get32 [u8 x; u8 (Z.shiftr x 8); u8 (Z.shiftr x 16); u8 (Z.shiftr x 24)] 0.

(** The global variables. *)
Record mkfs : Type := mkmkfs {
  m_sb : superblock;
  m_img : list block;
  m_freeinode : Z;
  m_freeblock : Z
}.
Definition mkfs_eta (r : mkfs) := mkmkfs (m_sb r) (m_img r) (m_freeinode r) (m_freeblock r).
#[export] Instance set_m_sb : Setter m_sb := ltac:(mk_setter mkfs_eta).
#[export] Instance set_m_img : Setter m_img := ltac:(mk_setter mkfs_eta).
#[export] Instance set_m_freeinode : Setter m_freeinode := ltac:(mk_setter mkfs_eta).
#[export] Instance set_m_freeblock : Setter m_freeblock := ltac:(mk_setter mkfs_eta).

Definition mkfs_start : mkfs := mkmkfs (mksb 0 0 0 0 0 0 0) [] 1 0.

(** ** Sectors and inodes *)

(** A write behind the end leaves zeroes between. *)
Definition write_at (n : nat) (b : block) (img : list block) : list block :=
  take n img ++ replicate (n - length img) zeroes ++ b :: drop (S n) img.

Definition wsect (sec : Z) (buf : block) : M mkfs unit :=
  modify (fun s => s <| m_img := write_at (Z.to_nat sec) buf (m_img s) |>).

Definition rsect (sec : Z) : M mkfs block :=
  img ← gets m_img;
  match img !! Z.to_nat sec with Some b => mret b | None => panic "read" end.

Definition winode (inum : Z) (ip : dinode) : M mkfs unit :=
  sb ← gets m_sb;
  let bn := IBLOCK inum sb in
  buf ← rsect bn;
  wsect bn (put_dinode (di_off inum) ip buf).

Definition rinode (inum : Z) : M mkfs dinode :=
  sb ← gets m_sb;
  let bn := IBLOCK inum sb in
  buf ← rsect bn;
  mret (get_dinode (di_off inum) buf).

Definition ialloc (type : Z) : M mkfs Z :=
  inum ← gets m_freeinode;
  modify (fun s => s <| m_freeinode := u32 (inum + 1) |>) ;;
  let din := mkdinode (xshort type) 0 0 (xshort 1) (xint 0) (replicate (NDIRECT + 1) 0) in
  winode inum din ;;
  mret inum.

(** The bit map of the first [used] blocks. *)
Definition bitmap (used : nat) : block :=
  fold_left (fun buf i => <[(i / 8)%nat := Z.lor (byte_at buf (i / 8)) (Z.shiftl 1 (Z.of_nat (i mod 8)))]> buf)
    (seq 0 used) zeroes.

Definition balloc (used : Z) : M mkfs unit :=
  if negb (used <? Z.of_nat BSIZE * 8) then panic "assert" else
  sb ← gets m_sb;
  wsect (sb_bmapstart sb) (bitmap (Z.to_nat used)).

(** ** Appending to a file *)

(** [freeblock++] *)
Definition new_block : M mkfs Z :=
  b ← gets m_freeblock;
  modify (fun s => s <| m_freeblock := u32 (b + 1) |>) ;;
  mret b.

Definition addr (din : dinode) (j : nat) : Z := default 0 (di_addrs din !! j).

(** [if(xint(din.addrs[j]) == 0) din.addrs[j] = xint(freeblock++);] *)
Definition need_addr (din : dinode) (j : nat) : M mkfs dinode :=
  if xint (addr din j) =? 0 then
    b ← new_block;
    mret (din <| di_addrs := <[j := xint b]> (di_addrs din) |>)
  else mret din.

(** The block [x] of block [fbn] of the file. *)
Definition file_block (din : dinode) (fbn : nat) : M mkfs (dinode * Z) :=
  if (fbn <? NDIRECT)%nat then
    din ← need_addr din fbn;
    mret (din, xint (addr din fbn))
  else
    din ← need_addr din NDIRECT;
    indirect ← rsect (xint (addr din NDIRECT));
    let o := (4 * (fbn - NDIRECT))%nat in
    if get32 indirect o =? 0 then
      b ← new_block;
      let indirect := put32 o (xint b) indirect in
      wsect (xint (addr din NDIRECT)) indirect ;;
      mret (din, xint (get32 indirect o))
    else mret (din, xint (get32 indirect o)).

(** The loop; [p] is the bytes that are left, at least one in every pass. *)
Fixpoint iappend_loop (fuel : nat) (din : dinode) (off : Z) (p : list Z) : M mkfs (dinode * Z) :=
  if (length p =? 0)%nat then mret (din, off) else
  match fuel with
  | O => undef "iappend: fuel"
  | S fuel =>
      let fbn := off / Z.of_nat BSIZE in
      if negb (fbn <? MAXFILE) then panic "assert" else
      r ← file_block din (Z.to_nat fbn);
      let '(din, x) := r in
      let n1 := Z.min (Z.of_nat (length p)) ((fbn + 1) * Z.of_nat BSIZE - off) in
      buf ← rsect x;
      wsect x (put_bytes (Z.to_nat (off - fbn * Z.of_nat BSIZE)) (take (Z.to_nat n1) p) buf) ;;
      iappend_loop fuel din (u32 (off + n1)) (drop (Z.to_nat n1) p)
  end.

Definition iappend (inum : Z) (p : list Z) : M mkfs unit :=
  din ← rinode inum;
  r ← iappend_loop (length p) din (xint (di_size din)) p;
  let '(din, off) := r in
  winode inum (din <| di_size := xint off |>).

(** ** The program *)

(** [struct dirent] with a name of at most [DIRSIZ] bytes, by [strcpy] or
    [strncpy] into zeroes. *)
Definition dirent (inum : Z) (name : list Z) : list Z :=
  [u8 (xshort inum); u8 (Z.shiftr (xshort inum) 8)] ++ take DIRSIZ (name ++ replicate DIRSIZ 0).

Definition sb_block (sb : superblock) : block :=
  put32 24 (sb_bmapstart sb) (put32 20 (sb_inodestart sb) (put32 16 (sb_logstart sb) (put32 12 (sb_nlog sb)
    (put32 8 (sb_ninodes sb) (put32 4 (sb_nblocks sb) (put32 0 (sb_size sb) zeroes)))))).

Definition mkfs_sb : superblock :=
  mksb (xint FSSIZE) (xint nblocks) (xint NINODES) (xint nlog) (xint 2) (xint (2 + nlog)) (xint (2 + nlog + ninodeblocks)).

(** [while((cc = read(fd, buf, sizeof(buf))) > 0) iappend(inum, buf, cc);] *)
Fixpoint copy_file (inum : Z) (pieces : list (list Z)) : M mkfs unit :=
  match pieces with
  | [] => mret tt
  | c :: pieces => if (length c =? 0)%nat then mret tt else iappend inum c ;; copy_file inum pieces
  end.

(** An argument: its name, and what reading the file of that name gives. *)
Definition hostfile : Type := list Z * option (list (list Z)).

Definition strip_ (name : list Z) : list Z :=
  match name with c :: name' => if c =? 95 then name' else name | [] => [] end.

Definition add_file (rootino : Z) (f : hostfile) : M mkfs unit :=
  if bool_decide (47 ∈ fst f) then panic "assert" else
  match snd f with
  | None => panic "open"
  | Some pieces =>
      inum ← ialloc T_FILE;
      iappend rootino (dirent inum (strip_ (fst f))) ;;
      copy_file inum pieces
  end.

Definition main (files : list hostfile) : M mkfs unit :=
  modify (fun s => s <| m_sb := mkfs_sb |>) ;;
  modify (fun s => s <| m_freeblock := nmeta |>) ;;
  for_each (seq 0 (Z.to_nat FSSIZE)) (fun i => wsect (Z.of_nat i) zeroes) ;;
  wsect 1 (sb_block mkfs_sb) ;;
  rootino ← ialloc T_DIR;
  if negb (rootino =? ROOTINO) then panic "assert" else
  iappend rootino (dirent rootino (bytes ".")) ;;
  iappend rootino (dirent rootino (bytes "..")) ;;
  for_each files (add_file rootino) ;;
  din ← rinode rootino;
  let off := xint (di_size din) in
  let off := u32 ((off / Z.of_nat BSIZE + 1) * Z.of_nat BSIZE) in
  winode rootino (din <| di_size := xint off |>) ;;
  freeblock ← gets m_freeblock;
  balloc freeblock.

(** ** Words and structures *)

Lemma xint_u32 x : xint x = u32 x.
Proof. unfold xint, get32, byte_at. cbn. rewrite !u8_u8. apply bytes_u32. Qed.
Lemma xint_small x : 0 <= x < 2 ^ 32 -> xint x = x.
Proof. intros. rewrite xint_u32. by apply u32_small. Qed.
Lemma xshort_u16 x : xshort x = u16 x.
Proof. unfold xshort, get16, byte_at. cbn. rewrite !u8_u8. apply bytes_u16. Qed.

Lemma length_put_addrs o l d : length (put_addrs o l d) = length d.
Proof. revert o d. induction l as [|a l IH]; intros o d; [done|]. simpl. by rewrite IH, length_put32. Qed.

Lemma put_addrs_get16 o l d x : (o + 4 * length l <= length d)%nat -> (x + 2 <= o \/ o + 4 * length l <= x)%nat ->
  get16 (put_addrs o l d) x = get16 d x.
Proof.
  revert o d. induction l as [|a l IH]; intros o d Hl Hx; [done|]. simpl in *.
  rewrite IH by (rewrite ?length_put32; lia). apply get16_put32_ne; lia.
Qed.
Lemma put_addrs_get32 o l d x : (o + 4 * length l <= length d)%nat -> (x + 4 <= o \/ o + 4 * length l <= x)%nat ->
  get32 (put_addrs o l d) x = get32 d x.
Proof.
  revert o d. induction l as [|a l IH]; intros o d Hl Hx; [done|]. simpl in *.
  rewrite IH by (rewrite ?length_put32; lia). apply get32_put32_ne; lia.
Qed.
Lemma put_addrs_at o l d j a : (o + 4 * length l <= length d)%nat -> l !! j = Some a ->
  get32 (put_addrs o l d) (o + 4 * j) = u32 a.
Proof.
  revert o d j. induction l as [|b l IH]; intros o d j Hl Hj; [done|]. simpl in Hl. destruct j as [|j]; cbn [put_addrs].
  - injection Hj as ->. rewrite Nat.mul_0_r, Nat.add_0_r.
    rewrite put_addrs_get32 by (rewrite ?length_put32; lia). apply get32_put32. lia.
  - replace (o + 4 * S j)%nat with (o + 4 + 4 * j)%nat by lia. apply IH; [rewrite length_put32; lia|done].
Qed.

(** The fields of an inode as they are stored. *)
Record dinode_ok (x : dinode) : Prop := {
  dk_addrs : length (di_addrs x) = (NDIRECT + 1)%nat;
  dk_words : Forall (fun a => 0 <= a < 2 ^ 32) (di_addrs x);
  dk_size : 0 <= di_size x < 2 ^ 32;
  dk_type : 0 <= di_type x < 2 ^ 16;
  dk_nlink : 0 <= di_nlink x < 2 ^ 16;
  dk_dev : di_major x = 0 /\ di_minor x = 0
}.

Lemma length_put_dinode o x d : length (put_dinode o x d) = length d.
Proof. unfold put_dinode. by rewrite length_put_addrs, length_put32, !length_put16. Qed.

Lemma get_addrs_put o l d : length l = (NDIRECT + 1)%nat -> Forall (fun a => 0 <= a < 2 ^ 32) l ->
  (o + 4 * length l <= length d)%nat -> get_addrs o (put_addrs o l d) = l.
Proof.
  intros Hl Hw Hd. unfold get_addrs. apply list_eq. intros j. rewrite list_lookup_fmap.
  destruct (l !! j) as [a|] eqn:Ha.
  - pose proof (lookup_lt_Some _ _ _ Ha). rewrite lookup_seq_lt by lia.
    change (Some (get32 (put_addrs o l d) (o + 4 * j)) = Some a).
    rewrite (put_addrs_at o l d j a) by done. f_equal. apply u32_small. by eapply (Forall_lookup_1 _ _ _ _ Hw).
  - apply lookup_ge_None in Ha. by rewrite lookup_seq_ge by lia.
Qed.

Lemma get_put_dinode o x d : dinode_ok x -> (o + 64 <= length d)%nat -> get_dinode o (put_dinode o x d) = x.
Proof.
  intros [Hl Hw Hs Ht Hn [Hma Hmi]] Hd. unfold get_dinode, put_dinode.
  assert (forall z, 0 <= z < 2 ^ 16 -> u16 z = z) as Hu16 by (intros; by apply Z.mod_small).
  rewrite get_addrs_put by (rewrite ?length_put32, ?length_put16, ?Hl; unfold NDIRECT in *; try done; lia).
  rewrite !put_addrs_get16, put_addrs_get32 by (rewrite ?length_put32, ?length_put16, ?Hl; unfold NDIRECT in *; lia).
  rewrite get32_put32, !get16_put32_ne by (rewrite ?length_put16; lia).
  repeat first [rewrite get16_put16 by (rewrite ?length_put16; lia) | rewrite get16_put16_ne by (rewrite ?length_put16; lia)].
  rewrite u32_small, !Hu16 by lia. by destruct x.
Qed.

Lemma get_put_dinode_ne o o' x d : length (di_addrs x) = (NDIRECT + 1)%nat ->
  (o + 64 <= length d)%nat -> (o' + 64 <= o \/ o + 64 <= o')%nat ->
  get_dinode o' (put_dinode o x d) = get_dinode o' d.
Proof.
  intros Hl Hd Ho. unfold get_dinode, put_dinode.
  assert (forall z, (o' <= z /\ z + 4 <= o' + 64)%nat ->
    get32 (put_addrs (o + 12) (di_addrs x) (put32 (o + 8) (di_size x) (put16 (o + 6) (di_nlink x)
      (put16 (o + 4) (di_minor x) (put16 (o + 2) (di_major x) (put16 o (di_type x) d)))))) z = get32 d z) as E32.
  { intros z Hz. rewrite put_addrs_get32 by (rewrite ?length_put32, ?length_put16, ?Hl; unfold NDIRECT; lia).
    rewrite get32_put32_ne by (rewrite ?length_put16; lia). by rewrite !get32_put16_ne by (rewrite ?length_put16; lia). }
  assert (forall z, (o' <= z /\ z + 2 <= o' + 64)%nat ->
    get16 (put_addrs (o + 12) (di_addrs x) (put32 (o + 8) (di_size x) (put16 (o + 6) (di_nlink x)
      (put16 (o + 4) (di_minor x) (put16 (o + 2) (di_major x) (put16 o (di_type x) d)))))) z = get16 d z) as E16.
  { intros z Hz. rewrite put_addrs_get16 by (rewrite ?length_put32, ?length_put16, ?Hl; unfold NDIRECT; lia).
    rewrite get16_put32_ne by (rewrite ?length_put16; lia). by rewrite !get16_put16_ne by (rewrite ?length_put16; lia). }
  rewrite !E16, E32 by lia. f_equal. unfold get_addrs. apply map_ext_in. intros j Hj%in_seq.
  apply E32. unfold NDIRECT in *. lia.
Qed.
