(* ===== verification/MkfsImage.v ===== *)
(** The image that mkfs builds: which file owns which block, what the blocks
    hold, and that the kernel finds the files in it. *)

From S2P Require Import Prelude Types Spinlock Proc Sleeplock Ring Bio Cache Disk Bytes Log LogWrite Str Cprintf Fs FsIo Tx Crash FileData Mkfs.

(** ** Who owns the blocks *)

(** A block of a file: block [bn] of its data, or the indirect block.  The
    blocks are handed out in order from [nmeta] on, so a list says who owns
    them. *)
Abbreviation slot := (option nat).
Definition slot_ok (o : slot) : Prop := match o with Some bn => (bn < NDIRECT + NINDIRECT)%nat | None => True end.
Abbreviation owners := (list (nat * option nat)).

(** Where an inode says that a block is. *)
Definition ind_block (img : list block) (din : dinode) : block :=
  match img !! Z.to_nat (addr din NDIRECT) with Some b => b | None => [] end.
Definition place_of (img : list block) (din : dinode) (o : slot) : Z :=
  match o with
  | None => addr din NDIRECT
  | Some bn =>
      if (bn <? NDIRECT)%nat then addr din bn
      else if addr din NDIRECT =? 0 then 0 else get32 (ind_block img din) (4 * (bn - NDIRECT))
  end.

(** The inodes [D] (inode [i + 1] is at index [i]) say so. *)
Record shape (img : list block) (A : owners) (D : list dinode) : Prop := {
  sh_len : length img = Z.to_nat FSSIZE;
  sh_blocks : Forall (fun b : block => length b = BSIZE) img;
  sh_room : nmeta + Z.of_nat (length A) <= FSSIZE;
  sh_nodup : NoDup A;
  sh_owner i o : (i, o) ∈ A -> (i < length D)%nat /\ slot_ok o;
  sh_at t i o din : A !! t = Some (i, o) -> D !! i = Some din -> place_of img din o = nmeta + Z.of_nat t;
  sh_none i o din : D !! i = Some din -> slot_ok o -> (i, o) ∉ A -> place_of img din o = 0;
  sh_dinode : Forall dinode_ok D;
  sh_fresh a : nmeta + Z.of_nat (length A) <= a < FSSIZE -> img !! Z.to_nat a = Some zeroes
}.

Lemma get32_zeroes o : get32 zeroes o = 0.
Proof.
  assert (forall x, byte_at zeroes x = 0) as E.
  { intros x. unfold byte_at, zeroes. destruct (decide (x < BSIZE)%nat).
    - by rewrite lookup_replicate_2.
    - by rewrite lookup_ge_None_2 by (rewrite length_replicate; lia). }
  unfold get32. by rewrite !E.
Qed.

Lemma addr_set din j v k : (j < length (di_addrs din))%nat ->
  addr (din <| di_addrs := <[j := v]> (di_addrs din) |>) k = if decide (k = j) then v else addr din k.
Proof.
  intros Hj. unfold addr. rsimpl. case_decide as E.
  - subst k. by rewrite list_lookup_insert_eq.
  - by rewrite list_lookup_insert_ne.
Qed.

Lemma dinode_ok_set din j v : dinode_ok din -> 0 <= v < 2 ^ 32 ->
  dinode_ok (din <| di_addrs := <[j := v]> (di_addrs din) |>).
Proof. intros [] Hv. constructor; try done; rsimpl; [by rewrite length_insert|by apply Forall_insert]. Qed.

Lemma addr_range din j : dinode_ok din -> 0 <= addr din j < 2 ^ 32.
Proof.
  intros Hd. unfold addr. destruct (di_addrs din !! j) as [a|] eqn:E; [|simpl; lia].
  exact (Forall_lookup_1 _ _ _ _ (dk_words _ Hd) E).
Qed.

Section Shape.
  Context (img : list block) (A : owners) (D : list dinode) (Hsh : shape img A D).
  Implicit Types (i t bn : nat) (o : slot) (a : Z) (din : dinode) (b : block).

Lemma nmeta_pos : nmeta = 59.
Proof. done. Qed.
Lemma FSSIZE_eq : FSSIZE = 1000.
Proof. done. Qed.

Lemma shape_lookup a : 0 <= a < FSSIZE -> exists b, img !! Z.to_nat a = Some b /\ length b = BSIZE.
Proof.
  intros Ha. destruct (lookup_lt_is_Some_2 img (Z.to_nat a)) as [b Hb]; [rewrite (sh_len _ _ _ Hsh); lia|].
  exists b. split; [done|]. exact (Forall_lookup_1 _ _ _ _ (sh_blocks _ _ _ Hsh) Hb).
Qed.

(** A place is in the list, or empty. *)
Lemma shape_place i o din : D !! i = Some din -> slot_ok o ->
  (exists t, A !! t = Some (i, o) /\ place_of img din o = nmeta + Z.of_nat t) \/
  ((i, o) ∉ A) /\ place_of img din o = 0.
Proof.
  intros Hd Ho. destruct (decide ((i, o) ∈ A)) as [[t Ht]%list_elem_of_lookup_1|Hn]; [left|right].
  - exists t. split; [done|]. by apply (sh_at _ _ _ Hsh) with i.
  - split; [done|]. by apply (sh_none _ _ _ Hsh) with i.
Qed.

Lemma owner_in t i o : A !! t = Some (i, o) -> (exists din, D !! i = Some din) /\ slot_ok o.
Proof.
  intros Ht. destruct (sh_owner _ _ _ Hsh i o) as [Hi Ho]; [by apply list_elem_of_lookup_2 in Ht|].
  split; [by apply lookup_lt_is_Some_2|done].
Qed.

(** Without an indirect block there are no blocks behind it. *)
Lemma no_indirect i bn din : D !! i = Some din -> (i, None) ∉ A -> (NDIRECT <= bn)%nat -> (i, Some bn) ∉ A.
Proof.
  intros Hd Hn Hbn [t Ht]%list_elem_of_lookup_1.
  pose proof (sh_at _ _ _ Hsh _ _ _ _ Ht Hd) as E. pose proof (sh_none _ _ _ Hsh i None din Hd I Hn) as E0.
  cbn [place_of] in E, E0. rewrite (proj2 (Nat.ltb_ge _ _) Hbn), E0 in E. cbn in E. rewrite nmeta_pos in E. lia.
Qed.

(** Writing a block that is no indirect block. *)
Lemma place_write a b din o : addr din NDIRECT = 0 \/ Z.to_nat (addr din NDIRECT) <> Z.to_nat a ->
  place_of (<[Z.to_nat a := b]> img) din o = place_of img din o.
Proof.
  intros Ha. destruct o as [bn|]; [|done]. cbn [place_of]. destruct (bn <? NDIRECT)%nat; [done|].
  destruct Ha as [->|Ha]; [done|]. unfold ind_block. by rewrite list_lookup_insert_ne by done.
Qed.

Lemma indirect_at i din : D !! i = Some din -> addr din NDIRECT = 0 \/
  exists t, A !! t = Some (i, None) /\ addr din NDIRECT = nmeta + Z.of_nat t.
Proof. intros Hd. destruct (shape_place i None din Hd I) as [(t & ? & ?)|[_ ?]]; eauto. Qed.

Lemma shape_write a b : 0 <= a < nmeta + Z.of_nat (length A) -> length b = BSIZE ->
  (forall t i, A !! t = Some (i, None) -> a <> nmeta + Z.of_nat t) -> shape (<[Z.to_nat a := b]> img) A D.
Proof.
  intros Ha Hb Hno. pose proof nmeta_pos as En.
  assert (forall i din o, D !! i = Some din -> place_of (<[Z.to_nat a := b]> img) din o = place_of img din o) as E.
  { intros i din o Hd. apply place_write. destruct (indirect_at i din Hd) as [?|(t & Ht & E)]; [by left|right].
    specialize (Hno _ _ Ht). lia. }
  destruct Hsh. constructor; try done.
  - by rewrite length_insert.
  - by apply Forall_insert.
  - intros t i o din Ht Hd. rewrite (E i) by done. eauto.
  - intros i o din Hd Ho Hn. rewrite (E i) by done. eauto.
  - intros x Hx. rewrite list_lookup_insert_ne by lia. auto.
Qed.
End Shape.

(** ** Handing out blocks *)

Lemma lookup_snoc {T} (l : list T) x t y : (l ++ [x]) !! t = Some y -> l !! t = Some y \/ (t = length l /\ y = x).
Proof.
  intros H. apply lookup_app_Some in H as [?|[Hge H]]; [by left|right].
  destruct (t - length l)%nat as [|n] eqn:E; [|done]. injection H as <-. split; [lia|done].
Qed.

Section Alloc.
  Context (img : list block) (A : owners) (D : list dinode) (Hsh : shape img A D).
  Context (i : nat) (din : dinode) (Hi : D !! i = Some din).
  Context (Hroom : nmeta + Z.of_nat (length A) < FSSIZE).
  Implicit Types (t bn : nat) (o : slot).

(** What the new list of owners asks of the inodes [D'] in [img']. *)
Lemma shape_snoc (img' : list block) (D' : list dinode) o :
  length img' = length img -> Forall (fun b : block => length b = BSIZE) img' -> length D' = length D -> Forall dinode_ok D' ->
  slot_ok o -> (i, o) ∉ A ->
  (forall a, nmeta + Z.of_nat (length A) < a < FSSIZE -> img' !! Z.to_nat a = img !! Z.to_nat a) ->
  (forall j dj', D' !! j = Some dj' -> exists dj, D !! j = Some dj /\
    forall o', slot_ok o' -> place_of img' dj' o' =
      if decide ((j, o') = (i, o)) then nmeta + Z.of_nat (length A) else place_of img dj o') ->
  shape img' (A ++ [(i, o)]) D'.
Proof.
  intros Hlen Hb HD Hdk Ho Hn Hfr Hpl. pose proof (lookup_lt_Some _ _ _ Hi). destruct Hsh. constructor; try done.
  - by rewrite Hlen.
  - rewrite length_app. simpl. lia.
  - apply NoDup_app. split_and!; [done| |apply NoDup_singleton]. intros x Hx ->%list_elem_of_singleton. done.
  - intros j o' [Hin|[= -> ->]%list_elem_of_singleton]%elem_of_app; [rewrite HD; eauto|]. split; [lia|done].
  - intros t j o' dj' Ht Hj. destruct (Hpl j dj' Hj) as (dj & Hdj & E).
    apply lookup_snoc in Ht as [Ht|[-> [= -> ->]]].
    + destruct (sh_owner0 j o') as [_ Ho']; [by apply list_elem_of_lookup_2 in Ht|]. rewrite E by done.
      rewrite decide_False; [eauto|]. intros [= -> ->]. by apply list_elem_of_lookup_2 in Ht.
    + rewrite E by done. by rewrite decide_True.
  - intros j o' dj' Hj Ho' Hnot. destruct (Hpl j dj' Hj) as (dj & Hdj & E). rewrite not_elem_of_app, list_elem_of_singleton in Hnot.
    rewrite E by done. rewrite decide_False by tauto. apply sh_none0 with j; tauto.
  - intros a Ha. rewrite length_app in Ha. simpl in Ha. rewrite Hfr by lia. apply sh_fresh0. lia.
Qed.

(** A new direct block, or the indirect block. *)
Definition slot_word (o : slot) : nat := match o with Some bn => bn | None => NDIRECT end.

Lemma shape_addr o : (forall bn, o = Some bn -> (bn < NDIRECT)%nat) -> (i, o) ∉ A ->
  shape img (A ++ [(i, o)])
    (<[i := din <| di_addrs := <[slot_word o := nmeta + Z.of_nat (length A)]> (di_addrs din) |>]> D).
Proof.
  intros Ho Hn. set (v := nmeta + Z.of_nat (length A)). pose proof nmeta_pos. pose proof FSSIZE_eq.
  pose proof (Forall_lookup_1 _ _ _ _ (sh_dinode _ _ _ Hsh) Hi) as Hdk. pose proof (lookup_lt_Some _ _ _ Hi) as Hlt.
  assert (slot_word o < NDIRECT + 1)%nat as Hw by (destruct o as [bn|]; [specialize (Ho bn eq_refl)|]; unfold slot_word; lia).
  assert (slot_ok o) as Hok by (destruct o as [bn|]; [specialize (Ho bn eq_refl); unfold slot_ok; lia|done]).
  apply shape_snoc; try done.
  - apply (sh_blocks _ _ _ Hsh).
  - by rewrite length_insert.
  - apply Forall_insert; [apply (sh_dinode _ _ _ Hsh)|]. apply dinode_ok_set; [done|lia].
  - intros j dj' Hj. rewrite list_lookup_insert in Hj. case_decide as E; simplify_eq.
    + destruct E as [<- _]. exists din. split; [done|]. intros o' Ho'. unfold ind_block in *.
      destruct o' as [bn|]; cbn [place_of]; unfold ind_block.
      * rewrite !addr_set by (rewrite (dk_addrs _ Hdk); lia).
        destruct (bn <? NDIRECT)%nat eqn:Eb; [apply Nat.ltb_lt in Eb|apply Nat.ltb_ge in Eb].
        -- destruct o as [bn0|]; cbn [slot_word].
           ++ destruct (decide (bn = bn0)) as [->|]; [by rewrite decide_True|by rewrite decide_False by congruence].
           ++ rewrite !decide_False by (lia || done). done.
        -- destruct o as [bn0|]; cbn [slot_word].
           ++ specialize (Ho bn0 eq_refl). rewrite !decide_False by (lia || (intros [=]; lia)). done.
           ++ rewrite (decide_True _ _ eq_refl), (decide_False (P := (_, Some bn) = _)) by done.
              pose proof (sh_none _ _ _ Hsh i None din Hi I Hn) as E0. cbn [place_of] in E0. rewrite E0.
              rewrite (proj2 (Z.eqb_neq v 0)) by lia.
              assert (img !! Z.to_nat v = Some zeroes) as -> by (apply (sh_fresh _ _ _ Hsh); lia). apply get32_zeroes.
      * rewrite addr_set by (rewrite (dk_addrs _ Hdk); lia). destruct o as [bn0|]; cbn [slot_word].
        -- specialize (Ho bn0 eq_refl). rewrite !decide_False by (lia || done). done.
        -- by rewrite !decide_True.
    + exists dj'. split; [done|]. intros o' Ho'. rewrite decide_False; [done|]. intros [= -> ->]. tauto.
Qed.

(** A new block that the indirect block names. *)
Lemma shape_indirect t0 bn : A !! t0 = Some (i, None) -> (NDIRECT <= bn < NDIRECT + NINDIRECT)%nat -> (i, Some bn) ∉ A ->
  shape (<[Z.to_nat (addr din NDIRECT) := put32 (4 * (bn - NDIRECT)) (nmeta + Z.of_nat (length A)) (ind_block img din)]> img)
    (A ++ [(i, Some bn)]) D.
Proof.
  intros Ht0 Hbn Hn. set (v := nmeta + Z.of_nat (length A)). pose proof nmeta_pos. pose proof FSSIZE_eq.
  pose proof (sh_at _ _ _ Hsh _ _ _ _ Ht0 Hi) as Ea. cbn [place_of] in Ea. pose proof (lookup_lt_Some _ _ _ Ht0).
  destruct (shape_lookup img A D Hsh (addr din NDIRECT)) as (b & Hb & Hbl); [lia|].
  assert (ind_block img din = b) as Eb by (unfold ind_block; by rewrite Hb). rewrite Eb.
  assert (length (put32 (4 * (bn - NDIRECT)) v b) = BSIZE) as Hl by (by rewrite length_put32).
  assert (Z.to_nat (addr din NDIRECT) < length img)%nat as Hin by (by apply lookup_lt_Some in Hb).
  apply shape_snoc; try done.
  - by rewrite length_insert.
  - apply Forall_insert; [apply (sh_blocks _ _ _ Hsh)|done].
  - apply (sh_dinode _ _ _ Hsh).
  - unfold slot_ok. lia.
  - intros a Ha. rewrite list_lookup_insert_ne by lia. done.
  - intros j dj Hj. exists dj. split; [done|]. intros o' Ho'. destruct (decide (j = i)) as [->|Hne].
    + rewrite Hi in Hj. injection Hj as <-. destruct o' as [bn'|]; [|by rewrite decide_False].
      cbn [place_of]. destruct (bn' <? NDIRECT)%nat eqn:E'; [apply Nat.ltb_lt in E'|apply Nat.ltb_ge in E'].
      { rewrite decide_False; [done|]. intros [=]. lia. }
      rewrite (proj2 (Z.eqb_neq _ 0)) by lia. simpl in Ho'.
      unfold ind_block. rewrite list_lookup_insert_eq, Hb by done. simpl.
      unfold NDIRECT, NINDIRECT, BSIZE in *. destruct (decide (bn' = bn)) as [->|Hb'].
      * rewrite decide_True, get32_put32, u32_small by (done || lia). done.
      * rewrite decide_False by congruence. apply get32_put32_ne; lia.
    + rewrite decide_False by congruence. apply place_write.
      destruct (indirect_at img A D Hsh j dj Hj) as [?|(t & Ht & E)]; [by left|right].
      rewrite E, Ea. intros Eq. assert (t = t0) as -> by lia. congruence.
Qed.
End Alloc.

(** ** The block of a file that is written next *)

(** The owners with one more, unless it is there. *)
Definition grow1 (A : owners) (x : nat * slot) : owners := if decide (x ∈ A) then A else A ++ [x].
Definition grow (A : owners) (i bn : nat) : owners :=
  grow1 (if (bn <? NDIRECT)%nat then A else grow1 A (i, None)) (i, Some bn).

Lemma grow1_in A x y : y ∈ grow1 A x <-> y ∈ A \/ y = x.
Proof. unfold grow1. case_decide as E; [|by rewrite elem_of_app, list_elem_of_singleton]. split; [tauto|]. by intros [?| ->]. Qed.
Lemma grow1_at A x : exists t, grow1 A x !! t = Some x.
Proof. apply list_elem_of_lookup_1, grow1_in. by right. Qed.
Lemma grow1_length A x : (length A <= length (grow1 A x))%nat.
Proof. unfold grow1. case_decide; [done|]. rewrite length_app. lia. Qed.
Lemma grow1_nodup A x : NoDup A -> NoDup (grow1 A x).
Proof.
  intros HA. unfold grow1. case_decide; [done|]. apply NoDup_app. split_and!; [done| |apply NoDup_singleton].
  intros y Hy ->%list_elem_of_singleton. done.
Qed.
Lemma grow1_prefix A x t y : A !! t = Some y -> grow1 A x !! t = Some y.
Proof. intros Ht. unfold grow1. case_decide; [done|]. by apply lookup_app_l_Some. Qed.
Lemma grow1_new A x t y : grow1 A x !! t = Some y -> A !! t = Some y \/ (x ∉ A) /\ t = length A /\ y = x.
Proof. unfold grow1. case_decide; [by left|]. intros [?|?]%lookup_snoc; tauto. Qed.

Lemma insert_same {T} (l : list T) i x : l !! i = Some x -> <[i := x]> l = l.
Proof. apply list_insert_id. Qed.

(** The state of mkfs that has the image [img] and has given out the blocks of [A]. *)
Record built (img : list block) (A : owners) (s : mkfs) : Prop := {
  bt_img : m_img s = img;
  bt_free : m_freeblock s = nmeta + Z.of_nat (length A);
  bt_sb : m_sb s = mkfs_sb
}.

Lemma need_addr_run img A D i din o s e :
  shape img A D -> D !! i = Some din -> built img A s -> (forall bn, o = Some bn -> (bn < NDIRECT)%nat) ->
  nmeta + Z.of_nat (length (grow1 A (i, o))) <= FSSIZE ->
  exists l s', let din' := din <| di_addrs := l |> in need_addr din (slot_word o) s e = Ret din' s' e /\
    shape img (grow1 A (i, o)) (<[i := din']> D) /\ built img (grow1 A (i, o)) s' /\ m_freeinode s' = m_freeinode s.
Proof.
  intros Hsh Hi [Hb1 Hb2 Hb3] Ho Hroom. pose proof nmeta_pos. pose proof FSSIZE_eq.
  pose proof (Forall_lookup_1 _ _ _ _ (sh_dinode _ _ _ Hsh) Hi) as Hdk.
  assert (addr din (slot_word o) = place_of img din o) as Ea.
  { destruct o as [bn|]; [|done]. cbn [place_of slot_word]. by rewrite (proj2 (Nat.ltb_lt _ _) (Ho bn eq_refl)). }
  assert (slot_ok o) as Hok by (destruct o as [bn|]; [specialize (Ho bn eq_refl); unfold slot_ok; lia|done]).
  unfold need_addr. rewrite xint_small, Ea by (apply addr_range; done).
  destruct (shape_place img A D Hsh i o din Hi Hok) as [(t & Ht & ->)|[Hn ->]].
  - rewrite (proj2 (Z.eqb_neq _ 0)) by lia. exists (di_addrs din), s.
    assert (grow1 A (i, o) = A) as ->. { unfold grow1. rewrite decide_True; [done|]. by eapply list_elem_of_lookup_2. }
    assert (din <| di_addrs := di_addrs din |> = din) as -> by (by destruct din). rewrite insert_same by done.
    split_and!; [done|done|by constructor|done].
  - unfold grow1 in *. rewrite decide_False in * by done. rewrite length_app in Hroom. simpl in Hroom.
    cbn [Z.eqb]. unfold new_block. mrun. rewrite Hb2, xint_small by lia. eexists _, _. split_and!; [done| | |done].
    + apply shape_addr; try done. lia.
    + constructor; rsimpl; [done| |done]. rewrite u32_small by lia. rewrite length_app. simpl. lia.
Qed.

Lemma rsect_run sec b s e : m_img s !! Z.to_nat sec = Some b -> rsect sec s e = Ret b s e.
Proof. intros Hb. unfold rsect. mrun. by rewrite Hb. Qed.

Lemma wsect_run sec b s e : (Z.to_nat sec < length (m_img s))%nat ->
  wsect sec b s e = Ret tt (s <| m_img := <[Z.to_nat sec := b]> (m_img s) |>) e.
Proof.
  intros Hs. unfold wsect, modify, write_at. do 2 f_equal.
  replace (Z.to_nat sec - length (m_img s))%nat with 0%nat by lia. by rewrite list.insert_take_drop by done.
Qed.

#[local] Opaque rsect wsect.

(** Blocks other than the indirect block of the file stay as they are. *)
Definition kept (i : nat) (A : owners) (img img' : list block) : Prop :=
  forall n, (forall t, A !! t = Some (i, None) -> n <> Z.to_nat (nmeta + Z.of_nat t)) -> img' !! n = img !! n.

Lemma file_block_run img A D i din bn s e :
  shape img A D -> D !! i = Some din -> built img A s -> (bn < NDIRECT + NINDIRECT)%nat ->
  nmeta + Z.of_nat (length (grow A i bn)) <= FSSIZE ->
  exists l t s', let din' := din <| di_addrs := l |> in
    file_block din bn s e = Ret (din', nmeta + Z.of_nat t) s' e /\ grow A i bn !! t = Some (i, Some bn) /\
    shape (m_img s') (grow A i bn) (<[i := din']> D) /\ built (m_img s') (grow A i bn) s' /\
    kept i (grow A i bn) img (m_img s') /\ m_freeinode s' = m_freeinode s.
Proof.
  intros Hsh Hi Hbt Hbn Hroom. pose proof nmeta_pos. pose proof FSSIZE_eq. pose proof (lookup_lt_Some _ _ _ Hi) as Hlt.
  unfold file_block, grow in *. destruct (bn <? NDIRECT)%nat eqn:Eb.
  - apply Nat.ltb_lt in Eb. assert (forall b, Some bn = Some b -> (b < NDIRECT)%nat) as Ho by (by intros ? [= <-]).
    destruct (need_addr_run img A D i din (Some bn) s e Hsh Hi Hbt Ho Hroom) as (l & s' & Hr & Hsh' & Hbt' & Hf).
    cbn [slot_word] in Hr. rewrite (bind_Ret _ _ _ _ _ _ _ Hr). destruct (grow1_at A (i, Some bn)) as (t & Ht).
    assert (<[i := din <| di_addrs := l |>]> D !! i = Some (din <| di_addrs := l |>)) as Hi' by (by rewrite list_lookup_insert_eq).
    pose proof (sh_at _ _ _ Hsh' _ _ _ _ Ht Hi') as Ea. cbn [place_of] in Ea. rewrite (proj2 (Nat.ltb_lt _ _) Eb) in Ea.
    pose proof (lookup_lt_Some _ _ _ Ht).
    exists l, t, s'. rewrite Ea, xint_small by lia. rewrite (bt_img _ _ _ Hbt'). done.
  - apply Nat.ltb_ge in Eb. set (A1 := grow1 A (i, None)) in *.
    assert (nmeta + Z.of_nat (length A1) <= FSSIZE) as Hroom1 by (pose proof (grow1_length A1 (i, Some bn)); lia).
    destruct (need_addr_run img A D i din None s e Hsh Hi Hbt) as (l & s1 & Hr & Hsh1 & Hbt1 & Hf); [done|done|].
    cbn [slot_word] in Hr. rewrite (bind_Ret _ _ _ _ _ _ _ Hr). fold A1 in Hsh1, Hbt1.
    set (din1 := din <| di_addrs := l |>) in *. set (D1 := <[i := din1]> D) in *.
    assert (D1 !! i = Some din1) as Hi1 by (unfold D1; by rewrite list_lookup_insert_eq).
    destruct (grow1_at A (i, None)) as (t0 & Ht0). fold A1 in Ht0.
    pose proof (sh_at _ _ _ Hsh1 _ _ _ _ Ht0 Hi1) as Ea. cbn [place_of] in Ea. pose proof (lookup_lt_Some _ _ _ Ht0).
    rewrite Ea, xint_small by lia. destruct (shape_lookup _ _ _ Hsh1 (nmeta + Z.of_nat t0)) as (b & Hb & Hbl); [lia|].
    destruct Hbt1 as [Hb1 Hb2 Hb3].
    rewrite (bind_Ret _ _ _ _ _ _ _ (rsect_run _ b s1 e ltac:(by rewrite Hb1))).
    assert (ind_block img din1 = b) as Ei by (unfold ind_block; by rewrite Ea, Hb).
    assert (get32 b (4 * (bn - NDIRECT)) = place_of img din1 (Some bn)) as Ew.
    { cbn [place_of]. rewrite (proj2 (Nat.ltb_ge _ _) Eb), (proj2 (Z.eqb_neq _ 0)) by lia. by rewrite Ei. }
    rewrite Ew. destruct (shape_place img A1 D1 Hsh1 i (Some bn) din1 Hi1 Hbn) as [(t & Ht & ->)|[Hn ->]].
    + rewrite (proj2 (Z.eqb_neq _ 0)) by lia. pose proof (lookup_lt_Some _ _ _ Ht).
      assert (grow1 A1 (i, Some bn) = A1) as E1. { unfold grow1. rewrite decide_True; [done|]. by eapply list_elem_of_lookup_2. }
      rewrite E1 in *. exists l, t, s1. rewrite xint_small, Hb1 by lia. done.
    + unfold grow1 in *. rewrite decide_False in * by done. rewrite length_app in Hroom. simpl in Hroom.
      cbn [Z.eqb]. unfold new_block. mrun. rewrite Hb2, (xint_small (nmeta + Z.of_nat (length A1))) by lia.
      mcall wsect_run; [rsimpl; rewrite Hb1, (sh_len _ _ _ Hsh1); lia|]. mrun. rsimpl.
      exists l, (length A1). eexists. rewrite get32_put32, u32_small, xint_small
        by (rewrite ?Hbl; unfold NDIRECT, NINDIRECT, BSIZE in *; lia).
      split_and!; [done|by rewrite lookup_app_r, Nat.sub_diag by done| | | |done]; rsimpl.
      * rewrite Hb1. pose proof (shape_indirect img A1 D1 Hsh1 i din1 Hi1 ltac:(lia) t0 bn Ht0 ltac:(lia) Hn) as Hf'.
        by rewrite Ei, Ea in Hf'.
      * constructor; rsimpl; [done| |done]. rewrite u32_small by lia. rewrite length_app. simpl. lia.
      * intros n Hn'. rewrite Hb1. apply list_lookup_insert_ne. specialize (Hn' t0). intros E'. apply Hn'; [|done].
        by apply lookup_app_l_Some.
Qed.

(** ** The contents of the files *)

(** The blocks that a file of [len] bytes has. *)
Definition needs (len : nat) (o : slot) : Prop :=
  match o with Some bn => (bn * BSIZE < len)%nat | None => (NDIRECT * BSIZE < len)%nat end.
Definition slots_of (i len : nat) : owners :=
  map (fun bn => (i, Some bn)) (seq 0 ((len + (BSIZE - 1)) / BSIZE)) ++
  if (NDIRECT * BSIZE <? len)%nat then [(i, None)] else [].
Definition blocks_for (len : nat) : nat :=
  (len + (BSIZE - 1)) / BSIZE + if (NDIRECT * BSIZE <? len)%nat then 1 else 0.
Definition total (F : list (list Z)) : nat := sum_list_with (fun f => blocks_for (length f)) F.

Lemma slots_of_in i len j o : (j, o) ∈ slots_of i len <-> j = i /\ needs len o.
Proof.
  unfold slots_of. rewrite elem_of_app, list_elem_of_fmap. split.
  - intros [(bn & [= -> ->] & H%elem_of_seq)|H].
    + split; [done|]. cbn. pose proof (Nat.div_mod_eq (len + (BSIZE - 1)) BSIZE).
      pose proof (Nat.mod_upper_bound (len + (BSIZE - 1)) BSIZE). unfold BSIZE in *. lia.
    + destruct (NDIRECT * BSIZE <? len)%nat eqn:E; [|by apply elem_of_nil in H].
      apply list_elem_of_singleton in H as [= -> ->]. split; [done|]. by apply Nat.ltb_lt in E.
  - intros [-> H]. destruct o as [bn|]; cbn [needs] in H.
    + left. exists bn. split; [done|]. apply elem_of_seq. pose proof (Nat.div_mod_eq (len + (BSIZE - 1)) BSIZE).
      pose proof (Nat.mod_upper_bound (len + (BSIZE - 1)) BSIZE). unfold BSIZE in *. lia.
    + right. rewrite (proj2 (Nat.ltb_lt _ _) H). by apply list_elem_of_singleton.
Qed.

Lemma slots_of_nodup i len : NoDup (slots_of i len).
Proof.
  unfold slots_of. apply NoDup_app. split_and!.
  - apply NoDup_fmap; [by intros ? ? [=]|apply NoDup_seq].
  - intros x (bn & -> & _)%list_elem_of_fmap H. destruct (_ <? _)%nat; [by apply list_elem_of_singleton in H|by apply elem_of_nil in H].
  - destruct (_ <? _)%nat; [apply NoDup_singleton|apply NoDup_nil_2].
Qed.

Fixpoint all_slots (j : nat) (F : list (list Z)) : owners :=
  match F with [] => [] | f :: F => slots_of j (length f) ++ all_slots (S j) F end.

Lemma all_slots_in j F i o : (i, o) ∈ all_slots j F <-> (j <= i)%nat /\ exists f, F !! (i - j)%nat = Some f /\ needs (length f) o.
Proof.
  revert j. induction F as [|f F IH]; intros j; cbn [all_slots].
  - split; [by intros ?%elem_of_nil|]. intros [_ (f & Hf & _)]. by destruct (i - j)%nat.
  - rewrite elem_of_app, slots_of_in, IH. split.
    + intros [[-> Hn]|[Hj (g & Hg & Hn)]]; [split; [done|]; exists f; by rewrite Nat.sub_diag|]. split; [lia|].
      exists g. split; [|done]. by replace (i - j)%nat with (S (i - S j)) by lia.
    + intros [Hj (g & Hg & Hn)]. destruct (decide (i = j)) as [->|Hne].
      * left. rewrite Nat.sub_diag in Hg. by injection Hg as <-.
      * right. split; [lia|]. exists g. split; [|done]. by replace (i - j)%nat with (S (i - S j)) in Hg by lia.
Qed.

Lemma all_slots_nodup j F : NoDup (all_slots j F).
Proof.
  revert j. induction F as [|f F IH]; intros j; cbn [all_slots]; [apply NoDup_nil_2|].
  apply NoDup_app. split_and!; [apply slots_of_nodup| |apply IH].
  intros [i o] [-> _]%slots_of_in [H _]%all_slots_in. lia.
Qed.

Lemma all_slots_length j F : length (all_slots j F) = total F.
Proof.
  revert j. induction F as [|f F IH]; intros j; [done|]. cbn [all_slots total sum_list_with]. rewrite length_app, IH.
  unfold slots_of, blocks_for. rewrite length_app, length_map, length_seq. by destruct (_ <? _)%nat.
Qed.

(** The files [F] are in the image. *)
Definition owned_by (A : owners) (F : list (list Z)) : Prop :=
  forall i o, (i, o) ∈ A <-> exists f, F !! i = Some f /\ needs (length f) o.

Lemma owned_length A F : NoDup A -> owned_by A F -> length A = total F.
Proof.
  intros Hd Ho. rewrite <-(all_slots_length 0 F). apply Permutation_length, NoDup_Permutation; [done|apply all_slots_nodup|].
  intros [i o]. unfold owned_by in Ho. rewrite Ho, all_slots_in, Nat.sub_0_r. split; [intros H; split; [lia|done]|by intros [_ H]].
Qed.

Definition byte_in (f : list Z) (n : nat) : Z := default 0 (f !! n).

Record contents (img : list block) (A : owners) (F : list (list Z)) : Prop := {
  ct_owned : owned_by A F;
  ct_data t i bn f : A !! t = Some (i, Some bn) -> F !! i = Some f ->
    exists d, img !! Z.to_nat (nmeta + Z.of_nat t) = Some d /\
      forall o, (o < BSIZE)%nat -> d !! o = Some (byte_in f (bn * BSIZE + o))
}.

(** ** Appending *)

Lemma grow_in A i bn j o : (j, o) ∈ grow A i bn <->
  (j, o) ∈ A \/ (j = i /\ (o = Some bn \/ (o = None /\ (NDIRECT <= bn)%nat))).
Proof.
  unfold grow. rewrite grow1_in. destruct (bn <? NDIRECT)%nat eqn:E; [apply Nat.ltb_lt in E|apply Nat.ltb_ge in E; rewrite grow1_in].
  - split; [intros [?|[= -> ->]]; tauto|]. intros [?|[-> [->|[_ ?]]]]; [tauto|tauto|lia].
  - split; [intros [[?|[= -> ->]]|[= -> ->]]; tauto|]. intros [?|[-> [->|[-> _]]]]; tauto.
Qed.

Lemma grow_nodup A i bn : NoDup A -> NoDup (grow A i bn).
Proof. intros HA. unfold grow. apply grow1_nodup. destruct (_ <? _)%nat; [done|]. by apply grow1_nodup. Qed.

Lemma grow_lookup A i bn t x : grow A i bn !! t = Some x ->
  A !! t = Some x \/ (length A <= t)%nat /\ (x ∉ A) /\ (x = (i, Some bn) \/ x = (i, None)).
Proof.
  unfold grow. intros [Ht|(Hn & -> & ->)]%grow1_new.
  - destruct (bn <? NDIRECT)%nat; [by left|]. apply grow1_new in Ht as [?|(? & -> & ->)]; [by left|]. right. split_and!; [lia|done|by right].
  - right. destruct (bn <? NDIRECT)%nat; [split_and!; [lia|done|by left]|]. rewrite grow1_in in Hn.
    pose proof (grow1_length A (i, None)). split_and!; [lia|tauto|by left].
Qed.

(** The pass that writes [c] at the end of [f], up to the end of block [bn]. *)
Section Pass.
  Context (A : owners) (F : list (list Z)) (i bn : nat) (f c : list Z).
  Context (Hf : F !! i = Some f) (Hbn : (bn * BSIZE <= length f)%nat) (Hc : c <> [])
    (Hend : (length f + length c <= (bn + 1) * BSIZE)%nat).

Lemma pass_owned : owned_by A F -> owned_by (grow A i bn) (<[i := f ++ c]> F).
Proof.
  intros Ho j o. rewrite grow_in, (Ho j o). assert (0 < length c)%nat by (destruct c; [done|simpl; lia]).
  assert (forall o, needs (length (f ++ c)) o <-> needs (length f) o \/ o = Some bn \/ (o = None /\ (NDIRECT <= bn)%nat)) as E.
  { intros [b|]; cbn [needs]; rewrite length_app; unfold NDIRECT, BSIZE in *.
    - split; [|intros [?|[[= ->]|[[=] _]]]; lia]. intros Hb. destruct (decide (b = bn)) as [->|]; [tauto|left; lia].
    - split; [|intros [?|[[=]|[_ ?]]]; lia]. intros Hb. destruct (decide (12 <= bn)%nat); [tauto|left; lia]. }
  pose proof (lookup_lt_Some _ _ _ Hf). destruct (decide (j = i)) as [->|Hne].
  - rewrite list_lookup_insert_eq by done. split.
    + intros [(g & Hg & Hn)|[_ Hn]]; exists (f ++ c); (split; [done|]); apply E; [left; congruence|tauto].
    + intros (g & [= <-] & [Hn|Hn]%E); [left; by exists f|tauto].
  - rewrite list_lookup_insert_ne by done. tauto.
Qed.

Lemma append_byte d o c' : (length f - bn * BSIZE + length c <= BSIZE)%nat -> length d = BSIZE -> (o < BSIZE)%nat -> c' = c ->
  (forall o, (o < BSIZE)%nat -> d !! o = Some (byte_in f (bn * BSIZE + o))) ->
  put_bytes (length f - bn * BSIZE) c' d !! o = Some (byte_in (f ++ c) (bn * BSIZE + o)).
Proof.
  intros Hl Hd Ho -> Hb. rewrite put_bytes_lookup by lia. unfold byte_in.
  case_decide as E.
  - rewrite lookup_app_r by lia. replace (bn * BSIZE + o - length f)%nat with (o - (length f - bn * BSIZE))%nat by lia.
    destruct (lookup_lt_is_Some_2 c (o - (length f - bn * BSIZE))) as [x ->]; [lia|]. done.
  - rewrite Hb by done. unfold byte_in. f_equal. f_equal. destruct (decide (bn * BSIZE + o < length f)%nat).
    + by rewrite lookup_app_l.
    + rewrite lookup_app_r by lia. rewrite (lookup_ge_None_2 f) by lia. symmetry. apply lookup_ge_None_2. lia.
Qed.
End Pass.

(** The blocks of the metadata are those of [img]. *)
Definition same_meta (img img' : list block) : Prop := forall n, (n < Z.to_nat nmeta)%nat -> img' !! n = img !! n.

Lemma nodup_at {T} (A : list T) t t' x : NoDup A -> A !! t = Some x -> A !! t' = Some x -> t = t'.
Proof. intros Hd H1 H2. by apply (NoDup_lookup A t t' x). Qed.

(** The block that is to be written holds what the file has there. *)
Lemma old_block img A D F i f bn t img1 :
  shape img A D -> contents img A F -> F !! i = Some f -> grow A i bn !! t = Some (i, Some bn) ->
  nmeta + Z.of_nat (length (grow A i bn)) <= FSSIZE -> kept i (grow A i bn) img img1 -> (bn * BSIZE <= length f)%nat ->
  exists buf, img1 !! Z.to_nat (nmeta + Z.of_nat t) = Some buf /\
    forall o, (o < BSIZE)%nat -> buf !! o = Some (byte_in f (bn * BSIZE + o)).
Proof.
  intros Hsh Hct Hf Ht Hroom Hk Hbn. pose proof nmeta_pos. pose proof FSSIZE_eq. rewrite Hk.
  2:{ intros t' Ht' E. assert (t = t') as -> by lia. congruence. }
  destruct (grow_lookup A i bn t _ Ht) as [HA|(Hlen & Hn & _)].
  - by apply (ct_data _ _ _ Hct t i bn f).
  - pose proof (lookup_lt_Some _ _ _ Ht).
    exists zeroes. split; [apply (sh_fresh _ _ _ Hsh); lia|]. intros o Ho. unfold zeroes, byte_in.
    etransitivity; [by apply lookup_replicate_2|]. rewrite lookup_ge_None_2; [done|].
    assert (~ needs (length f) (Some bn)) as Hne by (intros Hne; apply Hn, (ct_owned _ _ _ Hct); by exists f).
    cbn [needs] in Hne. lia.
Qed.

(** The other blocks of data. *)
Lemma other_block A F i bn (f c : list Z) (img img1 : list block) (t t' j bn' : nat) (g : list Z) :
  NoDup (grow A i bn) -> contents img A F -> F !! i = Some f -> (bn * BSIZE <= length f < (bn + 1) * BSIZE)%nat ->
  kept i (grow A i bn) img img1 -> grow A i bn !! t = Some (i, Some bn) -> t' <> t ->
  grow A i bn !! t' = Some (j, Some bn') -> <[i := f ++ c]> F !! j = Some g ->
  exists d, img1 !! Z.to_nat (nmeta + Z.of_nat t') = Some d /\
    forall o, (o < BSIZE)%nat -> d !! o = Some (byte_in g (bn' * BSIZE + o)).
Proof.
  intros Hnd Hct Hf Hbn Hk Ht Hne Ht' Hg. rewrite Hk.
  2:{ intros t0 Ht0 E. pose proof nmeta_pos. assert (t' = t0) as -> by lia. congruence. }
  destruct (grow_lookup A i bn t' _ Ht') as [HA|(_ & _ & [E|E])]; [|injection E as -> ->; by destruct Hne; eapply nodup_at|done].
  destruct (decide (j = i)) as [->|Hj]; [|rewrite list_lookup_insert_ne in Hg by done; by apply (ct_data _ _ _ Hct t' j bn')].
  rewrite list_lookup_insert_eq in Hg by (by eapply lookup_lt_Some). injection Hg as <-.
  destruct (ct_data _ _ _ Hct t' i bn' f HA Hf) as (d & Hd & Hb). exists d. split; [done|].
  intros o Ho. rewrite Hb by done. unfold byte_in.
  destruct (proj1 (ct_owned _ _ _ Hct i (Some bn'))) as (f' & Hf' & Hn); [by eapply list_elem_of_lookup_2|].
  rewrite Hf in Hf'. injection Hf' as <-. cbn [needs] in Hn.
  assert (bn' <> bn) by (intros ->; apply Hne; by eapply nodup_at).
  rewrite lookup_app_l; [done|]. unfold BSIZE in *. lia.
Qed.

Lemma pass_run img A D F i din f c bn s e :
  shape img A D -> contents img A F -> D !! i = Some din -> F !! i = Some f -> built img A s ->
  (bn < NDIRECT + NINDIRECT)%nat -> (bn * BSIZE <= length f)%nat -> c <> [] ->
  (length f + length c <= (bn + 1) * BSIZE)%nat -> nmeta + Z.of_nat (total (<[i := f ++ c]> F)) <= FSSIZE ->
  exists l t buf s1, let din' := din <| di_addrs := l |> in let x := nmeta + Z.of_nat t in
    let s2 := s1 <| m_img := <[Z.to_nat x := put_bytes (length f - bn * BSIZE) c buf]> (m_img s1) |> in
    file_block din bn s e = Ret (din', x) s1 e /\ m_img s1 !! Z.to_nat x = Some buf /\
    shape (m_img s2) (grow A i bn) (<[i := din']> D) /\ contents (m_img s2) (grow A i bn) (<[i := f ++ c]> F) /\
    built (m_img s2) (grow A i bn) s2 /\ same_meta img (m_img s2) /\ m_freeinode s2 = m_freeinode s.
Proof.
  intros Hsh Hct Hi Hf Hbt Hb Hbn Hc Hend Hroom. pose proof nmeta_pos. pose proof FSSIZE_eq. set (A' := grow A i bn).
  pose proof (pass_owned A F i bn f c Hf Hbn Hc Hend (ct_owned _ _ _ Hct)) as Hown. fold A' in Hown.
  pose proof (grow_nodup A i bn (sh_nodup _ _ _ Hsh)) as Hnd. fold A' in Hnd.
  destruct (file_block_run img A D i din bn s e Hsh Hi Hbt Hb) as (l & t & s1 & Hr & Ht & Hsh1 & Hbt1 & Hk & Hfi).
  { fold A'. by rewrite (owned_length A' _ Hnd Hown). }
  fold A' in Ht, Hsh1, Hbt1, Hk. set (din' := din <| di_addrs := l |>) in *. cbv zeta in Hsh1.
  pose proof (lookup_lt_Some _ _ _ Ht) as Htl. pose proof (sh_room _ _ _ Hsh1).
  destruct (old_block img A D F i f bn t (m_img s1) Hsh Hct Hf Ht) as (buf & Hbuf & Hold); [done..|].
  destruct (shape_lookup _ _ _ Hsh1 (nmeta + Z.of_nat t)) as (buf' & Hbuf' & Hlen); [lia|].
  rewrite Hbuf in Hbuf'. injection Hbuf' as <-.
  assert (length f - bn * BSIZE + length c <= BSIZE)%nat as Hfit by (unfold BSIZE in *; lia).
  set (b := put_bytes (length f - bn * BSIZE) c buf).
  assert (length b = BSIZE) as Hbl by (unfold b; by rewrite length_put_bytes' by lia).
  assert (Z.to_nat (nmeta + Z.of_nat t) < length (m_img s1))%nat as Hin by (rewrite (sh_len _ _ _ Hsh1); lia).
  exists l, t, buf, s1. cbv zeta. rsimpl. fold b. split_and!; [done|done| | | | |done].
  - apply shape_write; [done|lia|done|]. intros t' j Ht' E. assert (t = t') as <- by lia. congruence.
  - constructor; [done|]. intros t' j bn' g Ht' Hg. destruct (decide (t' = t)) as [->|Hne].
    + rewrite Ht in Ht'. injection Ht' as <- <-. rewrite list_lookup_insert_eq in Hg by (by eapply lookup_lt_Some).
      injection Hg as <-. exists b. rewrite list_lookup_insert_eq by done. split; [done|].
      intros o Ho. by apply append_byte.
    + rewrite list_lookup_insert_ne by lia. apply (other_block A F i bn f c img (m_img s1) t t' j bn' g); try done.
      assert (length c <> 0)%nat by (by destruct c). lia.
  - constructor; rsimpl; [done|apply (bt_free _ _ _ Hbt1)|apply (bt_sb _ _ _ Hbt1)].
  - intros n Hn. rewrite list_lookup_insert_ne by lia. apply Hk. intros t' Ht' ->. lia.
Qed.

Lemma blocks_for_mono m n : (m <= n)%nat -> (blocks_for m <= blocks_for n)%nat.
Proof.
  intros Hmn. unfold blocks_for. pose proof (Nat.Div0.div_le_mono (m + (BSIZE - 1)) (n + (BSIZE - 1)) BSIZE).
  destruct (Nat.ltb_spec (NDIRECT * BSIZE) m), (Nat.ltb_spec (NDIRECT * BSIZE) n); lia.
Qed.

Lemma total_mono F i (f g : list Z) : (length f <= length g)%nat -> (i < length F)%nat ->
  (total (<[i := f]> F) <= total (<[i := g]> F))%nat.
Proof.
  intros Hfg. revert i. induction F as [|h F IH]; intros [|i] Hi; simpl in *; [lia|lia| |].
  - pose proof (blocks_for_mono _ _ Hfg). unfold total. simpl. lia.
  - specialize (IH i). unfold total in *. simpl. lia.
Qed.

Lemma iappend_loop_run fuel : forall img A D F i din f p s e,
  shape img A D -> contents img A F -> D !! i = Some din -> F !! i = Some f -> built img A s ->
  (length p <= fuel)%nat -> (length f + length p <= (NDIRECT + NINDIRECT) * BSIZE)%nat ->
  nmeta + Z.of_nat (total (<[i := f ++ p]> F)) <= FSSIZE ->
  exists l A' s', let din' := din <| di_addrs := l |> in
    iappend_loop fuel din (Z.of_nat (length f)) p s e = Ret (din', Z.of_nat (length (f ++ p))) s' e /\
    shape (m_img s') A' (<[i := din']> D) /\ contents (m_img s') A' (<[i := f ++ p]> F) /\ built (m_img s') A' s' /\
    same_meta img (m_img s') /\ m_freeinode s' = m_freeinode s.
Proof.
  induction fuel as [|fuel IH]; intros img A D F i din f p s e Hsh Hct Hi Hf Hbt Hfuel Hmax Hroom.
  all: destruct (decide (length p = 0)%nat) as [Hp|Hp].
  all: try (apply nil_length_inv in Hp as ->; exists (di_addrs din), A, s; cbv zeta;
    assert (din <| di_addrs := di_addrs din |> = din) as -> by (by destruct din);
    rewrite !app_nil_r, !insert_same, (bt_img _ _ _ Hbt) by done; done).
  - lia.
  - cbn [iappend_loop]. rewrite (proj2 (Nat.eqb_neq _ _) Hp). set (bn := (length f / BSIZE)%nat).
    pose proof (Nat.div_mod_eq (length f) BSIZE) as Hdm. pose proof (Nat.mod_upper_bound (length f) BSIZE) as Hmod.
    fold bn in Hdm. replace (Z.of_nat (length f) / Z.of_nat BSIZE) with (Z.of_nat bn) by (unfold bn; by rewrite Nat2Z.inj_div).
    assert (bn < NDIRECT + NINDIRECT)%nat as Hbn by (unfold BSIZE in *; lia).
    assert ((Z.of_nat bn <? MAXFILE) = true) as -> by (apply Z.ltb_lt; unfold MAXFILE; lia). cbn [negb].
    set (n1 := Nat.min (length p) ((bn + 1) * BSIZE - length f)). rewrite Nat2Z.id.
    replace (Z.min (Z.of_nat (length p)) ((Z.of_nat bn + 1) * Z.of_nat BSIZE - Z.of_nat (length f))) with (Z.of_nat n1)
      by (unfold n1, BSIZE in *; lia).
    set (c := take n1 p). assert (length c = n1) as Hlc by (unfold c, n1; rewrite length_take; lia).
    assert (1 <= n1)%nat as Hn1 by (unfold n1, BSIZE in *; lia).
    assert (c <> []) as Hc by (intros E; rewrite E in Hlc; simpl in Hlc; lia).
    destruct (pass_run img A D F i din f c bn s e) as (l & t & buf & s1 & Hr & Hb & Hsh2 & Hct2 & Hbt2 & Hm2 & Hfi);
      try done; [unfold BSIZE in *; lia|unfold n1, BSIZE in *; lia| |].
    { pose proof (total_mono F i (f ++ c) (f ++ p)) as Hmono. rewrite !length_app in Hmono.
      pose proof (lookup_lt_Some _ _ _ Hf). unfold n1 in *. lia. }
    cbv zeta in *. rewrite (bind_Ret _ _ _ _ _ _ _ Hr), (bind_Ret _ _ _ _ _ _ _ (rsect_run _ _ _ _ Hb)).
    mcall wsect_run; [by eapply lookup_lt_Some|].
    replace (Z.to_nat (Z.of_nat (length f) - Z.of_nat bn * Z.of_nat BSIZE)) with (length f - bn * BSIZE)%nat by lia.
    rewrite Nat2Z.id. fold c. set (s2 := s1 <| m_img := _ |>) in *.
    replace (u32 (Z.of_nat (length f) + Z.of_nat n1)) with (Z.of_nat (length (f ++ c)))
      by (rewrite length_app, u32_small by (unfold n1, NDIRECT, NINDIRECT, BSIZE in *; lia); lia).
    pose proof (lookup_lt_Some _ _ _ Hi). pose proof (lookup_lt_Some _ _ _ Hf).
    assert ((f ++ c) ++ drop n1 p = f ++ p) as Ep by (unfold c; by rewrite <-app_assoc, take_drop).
    destruct (IH (m_img s2) (grow A i bn) (<[i := din <| di_addrs := l |>]> D) (<[i := f ++ c]> F) i
      (din <| di_addrs := l |>) (f ++ c) (drop n1 p) s2 e) as (l' & A' & s' & Hr' & Hsh' & Hct' & Hbt' & Hm' & Hfi'); try done.
    + by rewrite list_lookup_insert_eq.
    + by rewrite list_lookup_insert_eq.
    + rewrite length_drop. lia.
    + rewrite length_app, length_drop. lia.
    + by rewrite list_insert_insert_eq, Ep.
    + exists l', A', s'. cbv zeta in *. rewrite Hr', Ep. rewrite !list_insert_insert_eq, Ep in *.
      split_and!; try done; [intros n Hn; by rewrite Hm', Hm2|by rewrite Hfi'].
Qed.

(** ** Inodes on the disk *)

(** Inode [i + 1] of the image. *)
Definition inode_block (i : nat) : nat := (32 + (i + 1) / 8)%nat.
Definition inode_off (i : nat) : nat := (64 * ((i + 1) mod 8))%nat.

Lemma IBLOCK_mkfs i : (i < 207)%nat -> Z.to_nat (IBLOCK (Z.of_nat (i + 1)) mkfs_sb) = inode_block i.
Proof.
  intros Hi. unfold IBLOCK, inode_block. change (sb_inodestart mkfs_sb) with 32. unfold IPB.
  change 8 with (Z.of_nat 8). rewrite <-Nat2Z.inj_div. pose proof (Nat.Div0.div_le_mono (i + 1) 207 8).
  change (207 / 8)%nat with 25%nat in *. rewrite u32_small by lia. lia.
Qed.

Lemma di_off_mkfs i : di_off (Z.of_nat (i + 1)) = inode_off i.
Proof. unfold di_off, inode_off, IPB. change 8 with (Z.of_nat 8). rewrite <-Nat2Z.inj_mod. lia. Qed.

Lemma inode_off_bound i : (inode_off i + 64 <= BSIZE)%nat.
Proof. unfold inode_off. pose proof (Nat.mod_upper_bound (i + 1) 8). unfold BSIZE. lia. Qed.

Lemma inode_block_bound i : (i < 207)%nat -> (32 <= inode_block i < 58)%nat.
Proof.
  intros Hi. unfold inode_block. pose proof (Nat.Div0.div_le_mono (i + 1) 207 8).
  change (207 / 8)%nat with 25%nat in *. lia.
Qed.

Lemma inode_apart i j : i <> j -> inode_block i = inode_block j ->
  (inode_off j + 64 <= inode_off i \/ inode_off i + 64 <= inode_off j)%nat.
Proof.
  unfold inode_block, inode_off. intros Hne E. pose proof (Nat.div_mod_eq (i + 1) 8). pose proof (Nat.div_mod_eq (j + 1) 8). lia.
Qed.

Definition stored (img : list block) (D : list dinode) : Prop :=
  forall i din, D !! i = Some din -> (i < 207)%nat /\ exists b, img !! inode_block i = Some b /\ get_dinode (inode_off i) b = din.

(** The boot block, the superblock, the log and the bit map. *)
Definition same_rest (img img' : list block) : Prop := forall n, (n < 32 \/ n = 58)%nat -> img' !! n = img !! n.

Lemma contents_meta img img' A F :
  (forall n, (Z.to_nat nmeta <= n)%nat -> img' !! n = img !! n) -> contents img A F -> contents img' A F.
Proof.
  intros E [Ho Hd]. constructor; [done|]. intros t i bn f Ht Hf. rewrite E; [by apply (Hd t i bn f)|]. pose proof nmeta_pos. lia.
Qed.

Lemma stored_meta img img' D : same_meta img img' -> stored img D -> stored img' D.
Proof.
  intros E Hs i din Hi. destruct (Hs i din Hi) as (Hlt & b & Hb & Hg). split; [done|]. exists b. split; [|done].
  rewrite E; [done|]. pose proof (inode_block_bound i Hlt). rewrite nmeta_pos. lia.
Qed.

Lemma stored_write img D b c : b = 58%nat -> stored img D -> stored (<[b := c]> img) D.
Proof.
  intros -> Hs i din Hi. destruct (Hs i din Hi) as (Hlt & d & Hd & Hg). split; [done|]. exists d. split; [|done].
  rewrite list_lookup_insert_ne; [done|]. pose proof (inode_block_bound i Hlt). lia.
Qed.

Lemma winode_run img A D F i din s e :
  shape img A D -> contents img A F -> built img A s -> (i < 207)%nat -> dinode_ok din ->
  exists s', winode (Z.of_nat (i + 1)) din s e = Ret tt s' e /\
    shape (m_img s') A D /\ contents (m_img s') A F /\ built (m_img s') A s' /\ m_freeinode s' = m_freeinode s /\
    same_rest img (m_img s') /\
    forall D0, stored img D0 -> (forall j dj, D !! j = Some dj -> (j = i /\ dj = din) \/ (j <> i /\ D0 !! j = Some dj)) ->
      stored (m_img s') D.
Proof.
  intros Hsh Hct [Hb1 Hb2 Hb3] Hi Hdk. pose proof nmeta_pos. pose proof FSSIZE_eq. pose proof (inode_block_bound i Hi) as Hib.
  unfold winode. mrun. rewrite Hb3, di_off_mkfs.
  destruct (shape_lookup img A D Hsh (Z.of_nat (inode_block i))) as (b & Hb & Hbl); [lia|]. rewrite Nat2Z.id in Hb.
  assert (Z.to_nat (IBLOCK (Z.of_nat (i + 1)) mkfs_sb) = inode_block i) as Eb by (by apply IBLOCK_mkfs).
  rewrite (bind_Ret _ _ _ _ _ _ _ (rsect_run _ b s e ltac:(by rewrite Hb1, Eb))).
  pose proof (lookup_lt_Some _ _ _ Hb) as Hlt. rewrite wsect_run by (by rewrite Hb1, Eb). rewrite Eb, Hb1.
  eexists. split; [done|]. rsimpl. set (b' := put_dinode (inode_off i) din b).
  assert (length b' = BSIZE) as Hbl' by (unfold b'; by rewrite length_put_dinode).
  pose proof (inode_off_bound i) as Hob. split_and!; [| | |done| |].
  - rewrite <-(Nat2Z.id (inode_block i)). apply shape_write; [done|lia|done|]. intros t j _ E. lia.
  - apply contents_meta with img; [|done]. intros n Hn. apply list_lookup_insert_ne. lia.
  - by constructor.
  - intros n Hn. apply list_lookup_insert_ne. lia.
  - intros D0 Hst HD j dj Hj. destruct (HD j dj Hj) as [[-> ->]|[Hne Hj0]].
    + split; [done|]. exists b'. rewrite list_lookup_insert_eq by done. split; [done|]. apply get_put_dinode; [done|lia].
    + destruct (Hst j dj Hj0) as (Hj207 & c & Hc & Hg). split; [done|].
      destruct (decide (inode_block i = inode_block j)) as [E|E].
      * exists b'. rewrite <-E, list_lookup_insert_eq by done. split; [done|]. rewrite <-E, Hb in Hc. injection Hc as <-.
        unfold b'. rewrite get_put_dinode_ne; [done|apply Hdk|lia|by apply inode_apart].
      * exists c. by rewrite list_lookup_insert_ne.
Qed.

(** ** The file system under construction *)

(** The files [F] with inodes [D]; inode [i + 1] is at index [i]. *)
Record fs_ok (A : owners) (D : list dinode) (F : list (list Z)) (s : mkfs) : Prop := {
  fo_shape : shape (m_img s) A D;
  fo_contents : contents (m_img s) A F;
  fo_built : built (m_img s) A s;
  fo_stored : stored (m_img s) D;
  fo_len : length D = length F;
  fo_free : m_freeinode s = Z.of_nat (length D) + 1;
  fo_size i din f : D !! i = Some din -> F !! i = Some f -> di_size din = Z.of_nat (length f)
}.

(** The types and link counts. *)
Definition kinds (D : list dinode) : list (Z * Z) := map (fun d => (di_type d, di_nlink d)) D.

Definition file_max : nat := ((NDIRECT + NINDIRECT) * BSIZE)%nat.
Lemma file_max_small : 4000 <= Z.of_nat file_max < 2 ^ 31.
Proof. unfold file_max, NDIRECT, NINDIRECT, BSIZE. lia. Qed.

Lemma rinode_run A D F s e i din : fs_ok A D F s -> D !! i = Some din -> rinode (Z.of_nat (i + 1)) s e = Ret din s e.
Proof.
  intros Hok Hi. destruct (fo_stored _ _ _ _ Hok i din Hi) as (Hlt & b & Hb & Hg).
  unfold rinode. mrun. rewrite (bt_sb _ _ _ (fo_built _ _ _ _ Hok)), di_off_mkfs.
  mcall (rsect_run _ b); [by rewrite IBLOCK_mkfs|]. by rewrite mret_run, Hg.
Qed.

Lemma shape_size img A D i din n : shape img A D -> D !! i = Some din -> 0 <= n < 2 ^ 32 ->
  shape img A (<[i := din <| di_size := n |>]> D).
Proof.
  intros Hsh Hi Hn. pose proof (lookup_lt_Some _ _ _ Hi).
  assert (forall j dj o, <[i := din <| di_size := n |>]> D !! j = Some dj ->
    exists dj', D !! j = Some dj' /\ place_of img dj o = place_of img dj' o) as E.
  { intros j dj o Hj. rewrite list_lookup_insert in Hj. case_decide as Ej; simplify_eq.
    - destruct Ej as [<- _]. by exists din.
    - by exists dj. }
  destruct Hsh. constructor; try done.
  - intros j o. rewrite length_insert. eauto.
  - intros t j o dj Ht Hj. destruct (E j dj o Hj) as (dj' & Hj' & ->). eauto.
  - intros j o dj Hj Ho Hin. destruct (E j dj o Hj) as (dj' & Hj' & ->). eauto.
  - apply Forall_insert; [done|]. pose proof (Forall_lookup_1 _ _ _ _ sh_dinode0 Hi) as []. by constructor.
Qed.

Lemma kinds_insert D i din din' : D !! i = Some din -> di_type din' = di_type din -> di_nlink din' = di_nlink din ->
  kinds (<[i := din']> D) = kinds D.
Proof.
  intros Hi Et En. unfold kinds. change (map ?f ?l) with (f <$> l). rewrite list_fmap_insert, Et, En.
  apply list_insert_id. by rewrite list_lookup_fmap, Hi.
Qed.

Lemma iappend_run A D F s e i f p :
  fs_ok A D F s -> F !! i = Some f -> (length f + length p <= file_max)%nat ->
  nmeta + Z.of_nat (total (<[i := f ++ p]> F)) <= FSSIZE ->
  exists A' D' s', iappend (Z.of_nat (i + 1)) p s e = Ret tt s' e /\ fs_ok A' D' (<[i := f ++ p]> F) s' /\
    kinds D' = kinds D /\ same_rest (m_img s) (m_img s').
Proof.
  intros Hok Hf Hmax Hroom. assert (exists din, D !! i = Some din) as [din Hi].
  { apply lookup_lt_is_Some_2. rewrite (fo_len _ _ _ _ Hok). by eapply lookup_lt_Some. }
  unfold iappend. mcall (rinode_run A D F); [done|done|].
  pose proof (fo_size _ _ _ _ Hok i din f Hi Hf) as Hsz. pose proof (lookup_lt_Some _ _ _ Hi) as Hlt.
  pose proof file_max_small as Hfm.
  rewrite Hsz, xint_small by lia.
  destruct (iappend_loop_run (length p) (m_img s) A D F i din f p s e) as (l & A' & s1 & Hr & Hsh1 & Hct1 & Hbt1 & Hm1 & Hfi1);
    [apply Hok|apply Hok|done|done|apply Hok|lia|exact Hmax|exact Hroom|].
  cbv zeta in *. rewrite (bind_Ret _ _ _ _ _ _ _ Hr). set (din1 := din <| di_addrs := l |>) in *.
  rewrite xint_small by (rewrite length_app; lia).
  set (din2 := din1 <| di_size := Z.of_nat (length (f ++ p)) |>).
  assert (<[i := din1]> D !! i = Some din1) as Hi1 by (by rewrite list_lookup_insert_eq).
  pose proof (shape_size _ _ _ i din1 (Z.of_nat (length (f ++ p))) Hsh1 Hi1 ltac:(rewrite length_app; lia)) as Hsh2.
  rewrite list_insert_insert_eq in Hsh2. fold din2 in Hsh2.
  assert (<[i := din2]> D !! i = Some din2) as Hi2 by (by rewrite list_lookup_insert_eq).
  destruct (winode_run _ _ _ _ i din2 s1 e Hsh2 Hct1 Hbt1) as (s2 & Hr2 & Hsh3 & Hct3 & Hbt3 & Hfi3 & Hrest & Hst).
  { by apply (fo_stored _ _ _ _ Hok i din). }
  { exact (Forall_lookup_1 _ _ _ _ (sh_dinode _ _ _ Hsh2) Hi2). }
  exists A', (<[i := din2]> D), s2. split_and!; [exact Hr2| | |].
  - constructor; try done.
    + apply (Hst D).
      * eapply stored_meta; [done|apply Hok].
      * intros j dj Hj. rewrite list_lookup_insert in Hj. case_decide as Ej; simplify_eq.
        -- left. by destruct Ej as [<- _].
        -- right. split; [|done]. intros ->. tauto.
    + rewrite !length_insert. apply Hok.
    + rewrite length_insert, Hfi3, Hfi1. apply Hok.
    + intros j dj g Hj Hg. destruct (decide (j = i)) as [->|Hne].
      * rewrite list_lookup_insert_eq in Hj by done. rewrite list_lookup_insert_eq in Hg by (by rewrite <-(fo_len _ _ _ _ Hok)).
        by simplify_eq.
      * rewrite list_lookup_insert_ne in Hj by done. rewrite list_lookup_insert_ne in Hg by done. by apply (fo_size _ _ _ _ Hok j).
  - by apply kinds_insert with din.
  - intros n Hn. rewrite Hrest, Hm1; [done| |done]. rewrite nmeta_pos. lia.
Qed.

(** An inode without blocks. *)
Definition fresh_inode (type : Z) : dinode := mkdinode type 0 0 1 0 (replicate (NDIRECT + 1) 0).

Lemma fresh_place img type o : slot_ok o -> place_of img (fresh_inode type) o = 0.
Proof.
  intros Ho. assert (forall j, addr (fresh_inode type) j = 0) as E.
  { intros j. unfold addr, fresh_inode. cbn [di_addrs]. destruct (decide (j < NDIRECT + 1)%nat).
    - by rewrite lookup_replicate_2.
    - by rewrite lookup_ge_None_2 by (rewrite length_replicate; lia). }
  destruct o as [bn|]; cbn [place_of]; rewrite !E; [|done]. by destruct (_ <? _)%nat.
Qed.

Lemma fresh_ok type : 0 <= type < 2 ^ 16 -> dinode_ok (fresh_inode type).
Proof.
  intros Ht. constructor; try done. change (Forall (fun a : Z => 0 <= a < 2 ^ 32) (replicate (NDIRECT + 1) 0)). apply Forall_replicate. lia.
Qed.

Lemma shape_fresh img A D type : 0 <= type < 2 ^ 16 -> shape img A D -> shape img A (D ++ [fresh_inode type]).
Proof.
  intros Hty []. constructor; try done.
  - intros j o Hin. rewrite length_app. destruct (sh_owner0 j o Hin). split; [lia|done].
  - intros t j o dj Ht [Hj|[-> ->]]%lookup_snoc; [eauto|].
    apply list_elem_of_lookup_2 in Ht. destruct (sh_owner0 _ _ Ht). lia.
  - intros j o dj [Hj|[-> ->]]%lookup_snoc Ho Hn; [eauto|by apply fresh_place].
  - apply Forall_app. split; [done|]. apply Forall_singleton. by apply fresh_ok.
Qed.

Lemma contents_fresh img A F : contents img A F -> contents img A (F ++ [[]]).
Proof.
  intros [Ho Hd]. constructor.
  - intros i o. rewrite (Ho i o). split.
    + intros (f & Hf & Hn). exists f. split; [by apply lookup_app_l_Some|done].
    + intros (f & [Hf|[-> ->]]%lookup_snoc & Hn); [by exists f|]. destruct o; cbn [needs length] in Hn; unfold NDIRECT, BSIZE in Hn; lia.
  - intros t i bn f Ht [Hf|[-> ->]]%lookup_snoc; [eauto|].
    destruct (proj1 (Ho (length F) (Some bn))) as (f & Hf & _); [by eapply list_elem_of_lookup_2|].
    apply lookup_lt_Some in Hf. lia.
Qed.

Lemma ialloc_run A D F s e type :
  fs_ok A D F s -> (length D < 207)%nat -> 0 <= type < 2 ^ 16 ->
  exists s', ialloc type s e = Ret (Z.of_nat (length D) + 1) s' e /\
    fs_ok A (D ++ [fresh_inode type]) (F ++ [[]]) s' /\ same_rest (m_img s) (m_img s').
Proof.
  intros Hok Hlen Hty. unfold ialloc. mrun. rewrite (fo_free _ _ _ _ Hok), xshort_u16.
  unfold u16. rewrite Z.mod_small by done. change (xshort 1) with 1. change (xint 0) with 0. fold (fresh_inode type).
  set (s1 := s <| m_freeinode := _ |>).
  destruct (winode_run (m_img s1) A (D ++ [fresh_inode type]) (F ++ [[]]) (length D) (fresh_inode type) s1 e)
    as (s2 & Hr & Hsh & Hct & Hbt & Hfi & Hrest & Hst).
  { apply shape_fresh; [done|apply Hok]. }
  { apply contents_fresh, Hok. }
  { destruct (fo_built _ _ _ _ Hok). by constructor. }
  { done. }
  { by apply fresh_ok. }
  replace (Z.of_nat (length D) + 1) with (Z.of_nat (length D + 1)) by lia.
  rewrite (bind_Ret _ _ _ _ _ _ _ Hr), mret_run. exists s2. split_and!; [done| |done].
  constructor; try done.
  - apply (Hst D); [apply Hok|]. intros j dj [Hj|[-> ->]]%lookup_snoc; [right|by left].
    apply lookup_lt_Some in Hj as Hlt. split; [lia|done].
  - rewrite !length_app. by rewrite (fo_len _ _ _ _ Hok).
  - rewrite length_app, Hfi. unfold s1. rsimpl. rewrite u32_small by lia. simpl. lia.
  - intros j dj g [Hj|[-> ->]]%lookup_snoc [Hg|[E ->]]%lookup_snoc; [by apply (fo_size _ _ _ _ Hok j)| | |done].
    + apply lookup_lt_Some in Hj. rewrite <-(fo_len _ _ _ _ Hok) in E. lia.
    + apply lookup_lt_Some in Hg. rewrite <-(fo_len _ _ _ _ Hok) in Hg. lia.
Qed.

(** ** The whole program *)

(** What [read] gives of a file before it returns 0. *)
Fixpoint file_bytes (pieces : list (list Z)) : list Z :=
  match pieces with [] => [] | c :: pieces => if (length c =? 0)%nat then [] else c ++ file_bytes pieces end.
Definition host_bytes (f : hostfile) : list Z := file_bytes (default [] (snd f)).

Lemma total_insert_ge F i (f : list Z) : F !! i = Some f -> (blocks_for (length f) <= total F)%nat.
Proof.
  revert i. induction F as [|g F IH]; intros [|i] Hi; [done..| |]; unfold total in *; simpl.
  - injection Hi as ->. lia.
  - specialize (IH i Hi). lia.
Qed.

Lemma copy_file_run pieces : forall A D F s e i f,
  fs_ok A D F s -> F !! i = Some f -> (length f + length (file_bytes pieces) <= file_max)%nat ->
  nmeta + Z.of_nat (total (<[i := f ++ file_bytes pieces]> F)) <= FSSIZE ->
  exists A' D' s', copy_file (Z.of_nat (i + 1)) pieces s e = Ret tt s' e /\
    fs_ok A' D' (<[i := f ++ file_bytes pieces]> F) s' /\ kinds D' = kinds D /\ same_rest (m_img s) (m_img s').
Proof.
  induction pieces as [|c pieces IH]; intros A D F s e i f Hok Hf Hmax Hroom; cbn [copy_file file_bytes] in *.
  { exists A, D, s. rewrite app_nil_r, insert_same by done. done. }
  destruct (length c =? 0)%nat.
  { exists A, D, s. rewrite app_nil_r, insert_same by done. done. }
  rewrite length_app in Hmax. pose proof (lookup_lt_Some _ _ _ Hf) as Hlt.
  destruct (iappend_run A D F s e i f c Hok Hf) as (A1 & D1 & s1 & Hr1 & Hok1 & Hk1 & Hs1); [lia| |].
  { pose proof (total_mono F i (f ++ c) (f ++ c ++ file_bytes pieces)) as Hm. rewrite !length_app in Hm. lia. }
  rewrite (bind_Ret _ _ _ _ _ _ _ Hr1).
  destruct (IH A1 D1 (<[i := f ++ c]> F) s1 e i (f ++ c) Hok1) as (A2 & D2 & s2 & Hr2 & Hok2 & Hk2 & Hs2).
  - by rewrite list_lookup_insert_eq.
  - rewrite length_app. lia.
  - by rewrite list_insert_insert_eq, <-app_assoc.
  - rewrite list_insert_insert_eq, <-app_assoc in Hok2. exists A2, D2, s2. split_and!; [done|done|congruence|].
    intros n Hn. by rewrite Hs2, Hs1.
Qed.

Lemma total_app F G : total (F ++ G) = (total F + total G)%nat.
Proof. unfold total. induction F as [|f F IH]; simpl; [done|]. rewrite IH. lia. Qed.

Lemma length_dirent inum name : length (dirent inum name) = 16%nat.
Proof. unfold dirent. rewrite length_app, length_take, length_app, length_replicate. cbn [length]. unfold DIRSIZ. lia. Qed.

Lemma kinds_app D E : kinds (D ++ E) = kinds D ++ kinds E.
Proof. apply map_app. Qed.

(** A file with a name and contents for the image. *)
Record host_ok (f : hostfile) : Prop := {
  ho_name : 47 ∉ fst f;
  ho_open : is_Some (snd f);
  ho_size : (length (host_bytes f) <= file_max)%nat
}.

Lemma add_file_run A D F s e dir f :
  fs_ok A D (dir :: F) s -> host_ok f -> (length F < 206)%nat -> (length dir + 16 <= file_max)%nat ->
  let dir' := dir ++ dirent (Z.of_nat (length F + 2)) (strip_ (fst f)) in
  nmeta + Z.of_nat (blocks_for (length dir') + total F + blocks_for (length (host_bytes f))) <= FSSIZE ->
  exists A' D' s', add_file 1 f s e = Ret tt s' e /\ fs_ok A' D' (dir' :: F ++ [host_bytes f]) s' /\
    kinds D' = kinds D ++ [(T_FILE, 1)] /\ same_rest (m_img s) (m_img s').
Proof.
  intros Hok [Hn [pieces Hp] Hsz] HF Hdir dir' Hroom. unfold add_file, host_bytes in *. rewrite bool_decide_eq_false_2 by done.
  rewrite Hp in *. cbn [default from_option id] in *. pose proof (fo_len _ _ _ _ Hok) as HlD. cbn [length] in HlD.
  destruct (ialloc_run A D (dir :: F) s e T_FILE Hok) as (s1 & Hr1 & Hok1 & Hs1); [lia|done|].
  rewrite (bind_Ret _ _ _ _ _ _ _ Hr1). replace (Z.of_nat (length D) + 1) with (Z.of_nat (length F + 2)) by lia.
  change (Z.of_nat (0 + 1)) with 1 in *.
  assert (Hld : length dir' = (length dir + 16)%nat) by (unfold dir'; by rewrite length_app, length_dirent).
  set (de := dirent (Z.of_nat (length F + 2)) (strip_ (fst f))) in *.
  destruct (iappend_run A _ (dir :: F ++ [[]]) s1 e 0 dir de Hok1) as (A2 & D2 & s2 & Hr2 & Hok2 & Hk2 & Hs2); [done| | |].
  { unfold de. by rewrite length_dirent. }
  { cbn [insert list_insert]. fold dir'. change (total (dir' :: F ++ [[]])) with (blocks_for (length dir') + total (F ++ [[]]))%nat.
    rewrite total_app. change (total [[]]) with 0%nat. lia. }
  change (Z.of_nat (0 + 1)) with 1 in Hr2. rewrite (bind_Ret _ _ _ _ _ _ _ Hr2). cbn [insert list_insert] in Hok2. fold dir' in Hok2.
  assert ((dir' :: F ++ [[]]) !! (length F + 1)%nat = Some []) as HFi.
  { rewrite Nat.add_1_r. change ((F ++ [[]]) !! length F = Some []). by rewrite lookup_app_r, Nat.sub_diag by done. }
  assert (<[(length F + 1)%nat := file_bytes pieces]> (dir' :: F ++ [[]]) = dir' :: F ++ [file_bytes pieces]) as EF.
  { rewrite Nat.add_1_r. change (dir' :: <[length F := file_bytes pieces]> (F ++ [[]]) = dir' :: F ++ [file_bytes pieces]).
    by rewrite insert_app_r_alt, Nat.sub_diag by done. }
  destruct (copy_file_run pieces A2 D2 _ s2 e (length F + 1) [] Hok2 HFi) as (A3 & D3 & s3 & Hr3 & Hok3 & Hk3 & Hs3); [done| |].
  { rewrite app_nil_l, EF. change (total (dir' :: F ++ [file_bytes pieces])) with (blocks_for (length dir') + total (F ++ [file_bytes pieces]))%nat.
    rewrite total_app. change (total [file_bytes pieces]) with (blocks_for (length (file_bytes pieces)) + 0)%nat.
    lia. }
  replace (length F + 1 + 1)%nat with (length F + 2)%nat in Hr3 by lia. rewrite app_nil_l, EF in Hok3.
  exists A3, D3, s3. split_and!; [done|done| |].
  - rewrite Hk3, Hk2, kinds_app. done.
  - intros n Hn'. by rewrite Hs3, Hs2, Hs1.
Qed.

(** The entries of the files in the root directory. *)
Fixpoint entries (inum : nat) (files : list hostfile) : list Z :=
  match files with
  | [] => []
  | f :: files => dirent (Z.of_nat inum) (strip_ (fst f)) ++ entries (S inum) files
  end.

Lemma length_entries n files : length (entries n files) = (16 * length files)%nat.
Proof.
  revert n. induction files as [|f files IH]; intros n; [done|]. cbn [entries length].
  rewrite length_app, length_dirent, IH. lia.
Qed.

Lemma add_files_run files : forall A D F s e dir,
  fs_ok A D (dir :: F) s -> Forall host_ok files -> (length F + length files <= 206)%nat ->
  (length dir + 16 * length files <= file_max)%nat ->
  let dir' := dir ++ entries (length F + 2) files in
  nmeta + Z.of_nat (blocks_for (length dir') + total F + total (map host_bytes files)) <= FSSIZE ->
  exists A' D' s', for_each files (add_file 1) s e = Ret tt s' e /\ fs_ok A' D' (dir' :: F ++ map host_bytes files) s' /\
    kinds D' = kinds D ++ replicate (length files) (T_FILE, 1) /\ same_rest (m_img s) (m_img s').
Proof.
  induction files as [|f files IH]; intros A D F s e dir Hok Hh HF Hdir dir' Hroom.
  { exists A, D, s. unfold dir'. cbn. by rewrite !app_nil_r. }
  apply Forall_cons in Hh as [Hf Hh]. cbn [length map for_each] in *.
  set (de := dirent (Z.of_nat (length F + 2)) (strip_ (fst f))).
  assert (length de = 16%nat) as Hde by apply length_dirent.
  change (total (host_bytes f :: map host_bytes files)) with (blocks_for (length (host_bytes f)) + total (map host_bytes files))%nat in Hroom.
  assert (dir' = (dir ++ de) ++ entries (length (F ++ [host_bytes f]) + 2) files) as Ed.
  { unfold dir'. cbn [entries]. fold de. rewrite app_assoc, length_app. cbn [length]. do 2 f_equal. lia. }
  destruct (add_file_run A D F s e dir f Hok Hf) as (A1 & D1 & s1 & Hr1 & Hok1 & Hk1 & Hs1); [lia|lia| |].
  { fold de. pose proof (blocks_for_mono (length (dir ++ de)) (length dir')) as Hm. rewrite Ed, (length_app (dir ++ de)) in Hm.
    rewrite Ed, (length_app (dir ++ de)) in Hroom. lia. }
  rewrite (bind_Ret _ _ _ _ _ _ _ Hr1). fold de in Hok1.
  destruct (IH A1 D1 (F ++ [host_bytes f]) s1 e (dir ++ de) Hok1 Hh) as (A2 & D2 & s2 & Hr2 & Hok2 & Hk2 & Hs2).
  - rewrite length_app. cbn [length]. lia.
  - rewrite length_app. lia.
  - rewrite <-Ed, total_app. change (total [host_bytes f]) with (blocks_for (length (host_bytes f)) + 0)%nat. lia.
  - rewrite <-Ed, <-app_assoc in Hok2. exists A2, D2, s2. split_and!; [done|done| |].
    + rewrite Hk2, Hk1, <-app_assoc. done.
    + intros n Hn. by rewrite Hs2, Hs1.
Qed.

(** *** The empty image *)

Definition empty_image : list block := <[1%nat := sb_block mkfs_sb]> (replicate (Z.to_nat FSSIZE) zeroes).

Lemma length_sb_block sb : length (sb_block sb) = BSIZE.
Proof. unfold sb_block. by rewrite !length_put32. Qed.

Lemma wsect_append n s e : length (m_img s) = n -> wsect (Z.of_nat n) zeroes s e = Ret tt (s <| m_img := m_img s ++ [zeroes] |>) e.
Proof.
  intros Hn. Transparent wsect. unfold wsect, modify, write_at. Opaque wsect. rewrite Nat2Z.id.
  rewrite take_ge by lia. replace (n - length (m_img s))%nat with 0%nat by lia. by rewrite drop_ge by lia.
Qed.

Lemma clear_sectors_run s e : m_img s = [] -> exists s', for_each (seq 0 (Z.to_nat FSSIZE)) (fun i => wsect (Z.of_nat i) zeroes) s e = Ret tt s' e /\
  s' = s <| m_img := replicate (Z.to_nat FSSIZE) zeroes |>.
Proof.
  intros Hs. for_inv (fun n s' => s' = s <| m_img := replicate n zeroes |>) as (s' & Hr & ->).
  - destruct s as [sb img fi fb]. cbn in Hs. by subst img.
  - intros t s' _ ->. rewrite wsect_append by (rsimpl; apply length_replicate). eexists. split; [done|]. rsimpl.
    by rewrite replicate_S_end.
  - eauto.
Qed.

Lemma empty_ok s : m_img s = empty_image -> m_sb s = mkfs_sb -> m_freeblock s = nmeta -> m_freeinode s = 1 -> fs_ok [] [] [] s.
Proof.
  intros Hi Hsb Hfb Hfi. constructor; try done.
  - rewrite Hi. unfold empty_image. constructor; try done.
    + apply Forall_insert; [by apply Forall_replicate|apply length_sb_block].
    + apply NoDup_nil_2.
    + by intros i o ?%elem_of_nil.
    + intros a Ha. pose proof nmeta_pos. cbn in Ha. rewrite list_lookup_insert_ne by lia. apply lookup_replicate_2. lia.
  - constructor; [|done]. intros i o. split; [by intros ?%elem_of_nil|]. by intros (f & ? & _).
Qed.

(** *** The bit map *)

Lemma length_bitmap n : length (bitmap n) = BSIZE.
Proof.
  unfold bitmap. induction n as [|n IH]; [done|]. rewrite seq_S, fold_left_app. cbn [fold_left plus]. by rewrite length_insert.
Qed.

Lemma testbit_1_ne n : n <> 0 -> Z.testbit 1 n = false.
Proof.
  intros Hn. destruct (Z_lt_le_dec n 0); [by apply Z.testbit_neg_r|].
  change 1 with (2 ^ 0). apply Z.pow2_bits_false. lia.
Qed.

(** Bit [b] says whether block [b] is among the first [n]. *)
Lemma bitmap_bit n b : (n <= BSIZE * 8)%nat -> (b < BSIZE * 8)%nat ->
  Z.testbit (byte_at (bitmap n) (b / 8)) (Z.of_nat (b mod 8)) = (b <? n)%nat.
Proof.
  induction n as [|n IH]; intros Hn Hb.
  - unfold bitmap, byte_at, zeroes. cbn [seq fold_left].
    pose proof (Nat.Div0.div_lt_upper_bound b 8 BSIZE ltac:(lia)). rewrite lookup_replicate_2 by done. apply Z.testbit_0_l.
  - assert (bitmap (S n) = <[(n / 8)%nat := Z.lor (byte_at (bitmap n) (n / 8)) (Z.shiftl 1 (Z.of_nat (n mod 8)))]> (bitmap n)) as ->.
    { unfold bitmap. by rewrite seq_S, fold_left_app. }
    pose proof (Nat.Div0.div_lt_upper_bound n 8 BSIZE ltac:(lia)). rewrite byte_at_insert by (by rewrite length_bitmap).
    pose proof (Nat.div_mod_eq b 8). pose proof (Nat.div_mod_eq n 8). pose proof (Nat.mod_upper_bound b 8).
    pose proof (Nat.mod_upper_bound n 8). case_decide as E.
    + unfold u8. rewrite Z.mod_pow2_bits_low by lia. rewrite Z.lor_spec, <-E, IH, Z.shiftl_spec by lia.
      destruct (Z.eq_dec (Z.of_nat (b mod 8)) (Z.of_nat (n mod 8))) as [Eb|Eb].
      * rewrite Eb, Z.sub_diag. change (Z.testbit 1 0) with true. rewrite orb_true_r. symmetry. apply Nat.ltb_lt. lia.
      * rewrite testbit_1_ne by lia. rewrite orb_false_r. destruct (Nat.ltb_spec b n), (Nat.ltb_spec b (S n)); lia || done.
    + rewrite IH by lia. assert (b <> n) by congruence. destruct (Nat.ltb_spec b n), (Nat.ltb_spec b (S n)); lia || done.
Qed.

(** *** The image *)

Definition root_bytes (files : list hostfile) : list Z :=
  dirent 1 (bytes ".") ++ dirent 1 (bytes "..") ++ entries 2 files.
Definition image_files (files : list hostfile) : list (list Z) := root_bytes files :: map host_bytes files.

(** There are inodes and blocks for all of them. *)
Record fits (files : list hostfile) : Prop := {
  ft_files : Forall host_ok files;
  ft_inodes : (length files + 1 < Z.to_nat NINODES)%nat;
  ft_blocks : nmeta + Z.of_nat (total (image_files files)) <= FSSIZE
}.

Record image (files : list hostfile) (img : list block) (A : owners) (D : list dinode) : Prop := {
  im_shape : shape img A D;
  im_contents : contents img A (image_files files);
  im_stored : stored img D;
  im_kinds : kinds D = (T_DIR, 1) :: replicate (length files) (T_FILE, 1);
  im_size i din f : D !! i = Some din -> image_files files !! i = Some f ->
    di_size din = if decide (i = 0)%nat then (Z.of_nat (length f) / Z.of_nat BSIZE + 1) * Z.of_nat BSIZE else Z.of_nat (length f);
  im_sb : img !! 1%nat = Some (sb_block mkfs_sb);
  im_log : img !! 2%nat = Some zeroes;
  im_bitmap : img !! 58%nat = Some (bitmap (Z.to_nat nmeta + length A))
}.

(** The root directory with its two entries. *)
Lemma root_run s e : fs_ok [] [] [] s -> exists A D s1 s2 s',
  ialloc T_DIR s e = Ret 1 s1 e /\ iappend 1 (dirent 1 (bytes ".")) s1 e = Ret tt s2 e /\
  iappend 1 (dirent 1 (bytes "..")) s2 e = Ret tt s' e /\
  fs_ok A D [dirent 1 (bytes ".") ++ dirent 1 (bytes "..")] s' /\ kinds D = [(T_DIR, 1)] /\ same_rest (m_img s) (m_img s').
Proof.
  intros Hok. destruct (ialloc_run [] [] [] s e T_DIR Hok) as (s1 & Hr1 & Hok1 & Hs1); [cbn; lia|done|].
  change (Z.of_nat (length ([] : list dinode)) + 1) with 1 in Hr1. cbn [app] in Hok1.
  pose proof FSSIZE_eq. pose proof nmeta_pos.
  pose proof file_max_small.
  assert (forall f : list Z, (length f <= 32)%nat -> nmeta + Z.of_nat (total [f]) <= FSSIZE) as Hfit.
  { intros f Hf. pose proof (blocks_for_mono _ _ Hf) as Hm. change (blocks_for 32) with 1%nat in Hm.
    change (total [f]) with (blocks_for (length f) + 0)%nat. lia. }
  destruct (iappend_run [] [fresh_inode T_DIR] [[]] s1 e 0 [] (dirent 1 (bytes ".")) Hok1) as (A2 & D2 & s2 & Hr2 & Hok2 & Hk2 & Hs2).
  { done. } { rewrite length_dirent. cbn [length]. lia. } { apply Hfit. rewrite app_nil_l, length_dirent. lia. }
  change (<[0%nat := [] ++ dirent 1 (bytes ".")]> [[]]) with [dirent 1 (bytes ".")] in Hok2.
  destruct (iappend_run A2 D2 _ s2 e 0 (dirent 1 (bytes ".")) (dirent 1 (bytes "..")) Hok2) as (A3 & D3 & s3 & Hr3 & Hok3 & Hk3 & Hs3).
  { done. } { rewrite !length_dirent. lia. } { apply Hfit. rewrite length_app, !length_dirent. lia. }
  exists A3, D3, s1, s2, s3. split_and!; try done; [by rewrite Hk3, Hk2|]. intros n Hn. by rewrite Hs3, Hs2, Hs1.
Qed.

(** The size of the root directory is rounded up, and the bit map written. *)
Lemma finish_run A D F s e dir din :
  fs_ok A D (dir :: F) s -> D !! 0%nat = Some din -> (length dir <= file_max)%nat ->
  let n : Z := (Z.of_nat (length dir) / Z.of_nat BSIZE + 1) * Z.of_nat BSIZE in
  exists s', (din ← rinode 1;
     let off := xint (di_size din) in
     let off := u32 ((off / Z.of_nat BSIZE + 1) * Z.of_nat BSIZE) in
     winode 1 (din <| di_size := xint off |>) ;;
     freeblock ← gets m_freeblock;
     balloc freeblock) s e = Ret tt s' e /\
    shape (m_img s') A (<[0%nat := din <| di_size := n |>]> D) /\ contents (m_img s') A (dir :: F) /\
    stored (m_img s') (<[0%nat := din <| di_size := n |>]> D) /\
    (forall b, (b < 32)%nat -> m_img s' !! b = m_img s !! b) /\ m_img s' !! 58%nat = Some (bitmap (Z.to_nat nmeta + length A)).
Proof.
  intros Hok Hdin Hdir n. pose proof FSSIZE_eq. pose proof nmeta_pos. pose proof (fo_size _ _ _ _ Hok 0 din dir Hdin eq_refl) as Hsz.
  pose proof file_max_small.
  assert (0 <= n < 2 ^ 32) as Hn.
  { unfold n. pose proof (Z.div_mod (Z.of_nat (length dir)) (Z.of_nat BSIZE)).
    pose proof (Z.mod_pos_bound (Z.of_nat (length dir)) (Z.of_nat BSIZE)). unfold BSIZE in *. lia. }
  change (rinode 1) with (rinode (Z.of_nat (0 + 1))). mcall (rinode_run A D (dir :: F)); [done|done|]. cbv zeta.
  change (winode 1) with (winode (Z.of_nat (0 + 1))).
  rewrite Hsz, (xint_small (Z.of_nat (length dir))) by lia.
  replace (u32 ((Z.of_nat (length dir) / Z.of_nat BSIZE + 1) * Z.of_nat BSIZE)) with n by (symmetry; by apply u32_small).
  rewrite (xint_small n) by lia. set (din' := din <| di_size := n |>).
  pose proof (shape_size _ _ _ _ _ n (fo_shape _ _ _ _ Hok) Hdin Hn) as Hsh. fold din' in Hsh.
  assert (<[0%nat := din']> D !! 0%nat = Some din') as Hd' by (rewrite list_lookup_insert_eq; [done|by eapply lookup_lt_Some]).
  destruct (winode_run _ _ _ _ 0 din' s e Hsh (fo_contents _ _ _ _ Hok) (fo_built _ _ _ _ Hok)) as
    (s1 & Hr1 & Hsh1 & Hct1 & [Hb1 Hb2 Hb3] & Hfi1 & Hrest1 & Hst1); [lia| |].
  { exact (Forall_lookup_1 _ _ _ _ (sh_dinode _ _ _ Hsh) Hd'). }
  rewrite (bind_Ret _ _ _ _ _ _ _ Hr1). mrun. unfold balloc. rewrite Hb2.
  pose proof (sh_room _ _ _ Hsh1). pose proof (sh_len _ _ _ Hsh1) as Hl1.
  assert ((nmeta + Z.of_nat (length A) <? Z.of_nat BSIZE * 8) = true) as -> by (apply Z.ltb_lt; unfold BSIZE; lia).
  cbn [negb]. mrun. rewrite Hb3. change (sb_bmapstart mkfs_sb) with 58. rewrite wsect_run by (rewrite Hl1; lia).
  eexists. split; [done|]. rsimpl. change (Z.to_nat 58) with 58%nat.
  replace (Z.to_nat (nmeta + Z.of_nat (length A))) with (Z.to_nat nmeta + length A)%nat by lia. split_and!.
  - change 58%nat with (Z.to_nat 58). apply shape_write; [done|lia|apply length_bitmap|]. intros t j _ E. lia.
  - apply contents_meta with (m_img s1); [|done]. intros m Hm. apply list_lookup_insert_ne. lia.
  - eapply stored_write; [|apply (Hst1 D); [apply Hok|]]; [done|]. intros j dj Hj. rewrite list_lookup_insert in Hj. case_decide as E; simplify_eq.
    + left. by destruct E as [<- _].
    + right. split; [|done]. intros ->. apply E. split; [done|]. by eapply lookup_lt_Some.
  - intros b Hb. rewrite list_lookup_insert_ne by lia. apply Hrest1. lia.
  - apply list_lookup_insert_eq. rewrite Hl1. lia.
Qed.

Lemma main_run files e : fits files -> exists s A D, main files mkfs_start e = Ret tt s e /\ image files (m_img s) A D.
Proof.
  intros [Hh Hin Hbl]. pose proof FSSIZE_eq. pose proof nmeta_pos. assert (length files <= 198)%nat as Hn by (unfold NINODES in Hin; lia).
  unfold main. do 2 mstep. cbv beta.
  match goal with |- context [(for_each _ _ ≫= _) ?s e] => set (s00 := s) end.
  destruct (clear_sectors_run s00 e eq_refl) as (s0 & Hr0 & ->).
  rewrite (bind_Ret _ _ _ _ _ _ _ Hr0). mcall wsect_run; [rsimpl; rewrite length_replicate; lia|]. rsimpl.
  match goal with |- context [(ialloc T_DIR ≫= _) ?s e] => set (s1 := s) end.
  assert (fs_ok [] [] [] s1) as Hok1 by (by apply empty_ok).
  destruct (root_run s1 e Hok1) as (A & D & s2 & s3 & s4 & Hr2 & Hr3 & Hr4 & Hok4 & Hk4 & Hs4).
  rewrite (bind_Ret _ _ _ _ _ _ _ Hr2). change (negb (1 =? ROOTINO)) with false. cbv iota.
  rewrite (bind_Ret _ _ _ _ _ _ _ Hr3), (bind_Ret _ _ _ _ _ _ _ Hr4).
  set (dots := dirent 1 (bytes ".") ++ dirent 1 (bytes "..")) in *.
  assert (length dots = 32%nat) as Hdots by (unfold dots; by rewrite length_app, !length_dirent).
  assert (root_bytes files = dots ++ entries 2 files) as Eroot by (unfold root_bytes, dots; by rewrite app_assoc).
  pose proof file_max_small.
  destruct (add_files_run files A D [] s4 e dots Hok4 Hh) as (A5 & D5 & s5 & Hr5 & Hok5 & Hk5 & Hs5); [cbn; lia|lia| |].
  { cbn [length plus]. rewrite <-Eroot. unfold image_files in Hbl.
    change (total (root_bytes files :: map host_bytes files)) with (blocks_for (length (root_bytes files)) + total (map host_bytes files))%nat in Hbl.
    change (total []) with 0%nat. lia. }
  rewrite (bind_Ret _ _ _ _ _ _ _ Hr5). cbn [length plus app] in Hok5. rewrite <-Eroot in Hok5.
  destruct (lookup_lt_is_Some_2 D5 0) as [din Hdin]; [rewrite (fo_len _ _ _ _ Hok5); cbn; lia|].
  destruct (finish_run A5 D5 _ s5 e (root_bytes files) din Hok5 Hdin) as (s6 & Hr6 & Hsh6 & Hct6 & Hst6 & Hrest6 & Hbm6).
  { rewrite Eroot, length_app, length_entries. lia. }
  exists s6, A5. eexists. split; [exact Hr6|].
  assert (forall b, (b < 32)%nat -> m_img s6 !! b = empty_image !! b) as Eimg.
  { intros b Hb. rewrite Hrest6, Hs5, Hs4 by lia. done. }
  constructor; [exact Hsh6|exact Hct6|exact Hst6| | | | |exact Hbm6].
  - rewrite (kinds_insert _ _ din) by done. by rewrite Hk5, Hk4.
  - intros i di f Hdi Hf. destruct (decide (i = 0)%nat) as [->|Hne].
    + rewrite list_lookup_insert_eq in Hdi by (by eapply lookup_lt_Some). injection Hf as <-. by injection Hdi as <-.
    + rewrite list_lookup_insert_ne in Hdi by done. by apply (fo_size _ _ _ _ Hok5 i).
  - by rewrite Eimg by lia.
  - by rewrite Eimg by lia.
Qed.

(** ** What the kernel finds *)

Definition view_of (img : list block) : Z -> option block := fun m => img !! Z.to_nat m.

(** The in-core inode [ip] has the fields that [ilock] loads for inode [inum]. *)
Record loaded (img : list block) (inum : nat) (ip : inode) : Prop := mkloaded {
  ld_block : exists b, view_of img (IBLOCK (Z.of_nat inum) mkfs_sb) = Some b /\ let o := di_off (Z.of_nat inum) in
    i_type ip = s16 (get16 b o) /\ i_nlink ip = s16 (get16 b (o + 6)) /\ i_size ip = get32 b (o + 8) /\
    i_addrs ip = get_addrs (o + 12) b
}.

Section Found.
  Context (files : list hostfile) (img : list block) (A : owners) (D : list dinode) (Him : image files img A D).
  Implicit Types (i bn t : nat) (ip : inode) (a : Z) (f : list Z).
  Abbreviation V := (view_of img).
  Abbreviation nb := (Z.to_nat FSSIZE).

Lemma image_length : length D = length (image_files files).
Proof.
  pose proof (f_equal length (im_kinds _ _ _ _ Him)) as E. unfold kinds in E. rewrite length_map in E.
  rewrite E. cbn. by rewrite length_replicate, length_map.
Qed.

Lemma image_dinode i f ip : image_files files !! i = Some f -> loaded img (i + 1) ip ->
  exists din, D !! i = Some din /\ dinode_ok din /\ i_type ip = s16 (di_type din) /\ i_nlink ip = s16 (di_nlink din) /\
    i_size ip = di_size din /\ i_addrs ip = di_addrs din.
Proof.
  intros Hf [(b & Hb & Hty & Hnl & Hsz & Had)]. destruct (lookup_lt_is_Some_2 D i) as [din Hdin].
  { rewrite image_length. by eapply lookup_lt_Some. }
  destruct (im_stored _ _ _ _ Him i din Hdin) as (Hi & b' & Hb' & Hg).
  unfold view_of in Hb. rewrite IBLOCK_mkfs in Hb by done. rewrite di_off_mkfs in *. rewrite Hb in Hb'. injection Hb' as <-.
  exists din. split; [done|]. split; [exact (Forall_lookup_1 _ _ _ _ (sh_dinode _ _ _ (im_shape _ _ _ _ Him)) Hdin)|].
  by rewrite <-Hg.
Qed.

Lemma addr_lookup din j : dinode_ok din -> (j <= NDIRECT)%nat -> di_addrs din !! j = Some (addr din j).
Proof.
  intros Hd Hj. unfold addr. destruct (lookup_lt_is_Some_2 (di_addrs din) j) as [x ->]; [rewrite (dk_addrs _ Hd); lia|done].
Qed.

(** A block of the file is one that the file owns, and the other way round. *)
Lemma image_mapped i f ip bn a : image_files files !! i = Some f -> loaded img (i + 1) ip ->
  mapped ip V nb bn a <-> exists t, A !! t = Some (i, Some bn) /\ a = nmeta + Z.of_nat t.
Proof.
  intros Hf Hl. destruct (image_dinode i f ip Hf Hl) as (din & Hdin & Hdk & _ & _ & _ & Had).
  pose proof (im_shape _ _ _ _ Him) as Hsh. pose proof nmeta_pos. pose proof FSSIZE_eq. pose proof (sh_room _ _ _ Hsh).
  assert (block_of ip V bn = Some (place_of img din (Some bn)) \/ (NDIRECT <= bn)%nat /\ addr din NDIRECT = 0) as Hbo.
  { unfold block_of. rewrite Had. cbn [place_of]. destruct (bn <? NDIRECT)%nat eqn:E.
    - apply Nat.ltb_lt in E. left. apply addr_lookup; [done|lia].
    - apply Nat.ltb_ge in E. rewrite addr_lookup by done. cbn [mbind option_bind].
      destruct (indirect_at img A D Hsh i din Hdin) as [E0|(t & Ht & Ea)]; [right; by split|left].
      pose proof (lookup_lt_Some _ _ _ Ht). rewrite (proj2 (Z.eqb_neq _ 0)) by lia.
      destruct (shape_lookup img A D Hsh (addr din NDIRECT)) as (b & Hb & _); [lia|].
      unfold view_of, ind_block. by rewrite Hb. }
  split.
  - intros [Hb Hr Hbn Hi]. destruct Hbo as [Hbo|[Hge Hz]].
    + assert (place_of img din (Some bn) = a) as Hb' by (apply (inj Some); by rewrite <-Hbo).
      destruct (shape_place img A D Hsh i (Some bn) din Hdin Hbn) as [(t & Ht & E)|[_ E]]; [exists t; split; [done|lia]|lia].
    + destruct (Hi Hge) as (x & Hx & Hx0). rewrite Had, addr_lookup in Hx by done. injection Hx as <-. lia.
  - intros (t & Ht & ->). pose proof (lookup_lt_Some _ _ _ Ht).
    destruct (sh_owner _ _ _ Hsh i (Some bn)) as [_ Hbn]; [by eapply list_elem_of_lookup_2|]. cbn [slot_ok] in Hbn.
    pose proof (sh_at _ _ _ Hsh _ _ _ _ Ht Hdin) as E.
    assert ((NDIRECT <= bn)%nat -> exists t0, A !! t0 = Some (i, None) /\ addr din NDIRECT = nmeta + Z.of_nat t0) as Hind.
    { intros Hge. destruct (indirect_at img A D Hsh i din Hdin) as [E0|?]; [|done].
      cbn [place_of] in E. rewrite (proj2 (Nat.ltb_ge _ _) Hge), E0 in E. cbn in E. lia. }
    constructor; [|lia|done|].
    + destruct Hbo as [->|[Hge Hz]]; [by rewrite E|]. destruct (Hind Hge) as (t0 & _ & E0). lia.
    + intros Hge. destruct (Hind Hge) as (t0 & Ht0 & E0). exists (addr din NDIRECT). rewrite Had. split; [by apply addr_lookup|].
      pose proof (lookup_lt_Some _ _ _ Ht0). lia.
Qed.

(** The inode has the contents of the file, up to the length of the file. *)
Lemma image_data i f ip : image_files files !! i = Some f -> loaded img (i + 1) ip ->
  holds_file (ip <| i_size := Z.of_nat (length f) |>) V nb f.
Proof.
  intros Hf Hl. constructor; [done|]. intros bn Hbn.
  pose proof (im_contents _ _ _ _ Him) as Hct.
  destruct (list_elem_of_lookup_1 A (i, Some bn)) as (t & Ht); [apply (ct_owned _ _ _ Hct); by exists f|].
  destruct (ct_data _ _ _ Hct t i bn f Ht Hf) as (d & Hd & Hb).
  exists (nmeta + Z.of_nat t), d. split_and!; [|done|].
  { assert (mapped ip V nb bn (nmeta + Z.of_nat t)) as [] by (apply (image_mapped i f); [done|done|by exists t]). by constructor. }
  intros o Ho Hob. rewrite Hb by done. unfold byte_in. by destruct (lookup_lt_is_Some_2 f (bn * BSIZE + o) Ho) as [x ->].
Qed.

Lemma image_holds i f ip : image_files files !! i = Some f -> loaded img (i + 1) ip ->
  i_size ip = Z.of_nat (length f) -> holds_file ip V nb f.
Proof.
  intros Hf Hl Hsz. pose proof (image_data i f ip Hf Hl) as Hd. rewrite <-Hsz in Hd. by destruct ip.
Qed.

Lemma image_kind i f ip : image_files files !! i = Some f -> loaded img (i + 1) ip ->
  i_type ip = (if decide (i = 0)%nat then T_DIR else T_FILE) /\ i_nlink ip = 1.
Proof.
  intros Hf Hl. destruct (image_dinode i f ip Hf Hl) as (din & Hdin & _ & -> & -> & _ & _).
  assert (kinds D !! i = Some (di_type din, di_nlink din)) as Hk.
  { unfold kinds. change (map ?g ?l) with (g <$> l). by rewrite list_lookup_fmap, Hdin. }
  rewrite (im_kinds _ _ _ _ Him) in Hk. destruct i as [|i].
  - injection Hk as <- <-. done.
  - cbn in Hk. apply lookup_replicate in Hk as [[= -> ->] _]. done.
Qed.

Lemma image_file i h ip : files !! i = Some h -> loaded img (i + 2) ip ->
  i_type ip = T_FILE /\ i_nlink ip = 1 /\ holds_file ip V nb (host_bytes h).
Proof.
  intros Hh Hl. replace (i + 2)%nat with (S i + 1)%nat in Hl by lia.
  assert (image_files files !! S i = Some (host_bytes h)) as Hf.
  { change ((host_bytes <$> files) !! i = Some (host_bytes h)). by rewrite list_lookup_fmap, Hh. }
  destruct (image_kind _ _ _ Hf Hl) as [Hty Hnl]. split_and!; [done|done|].
  apply (image_holds (S i)); [done|done|].
  destruct (image_dinode _ _ _ Hf Hl) as (din & Hdin & _ & _ & _ & -> & _).
  by rewrite (im_size _ _ _ _ Him _ _ _ Hdin Hf).
Qed.
End Found.

Lemma sb_of_sb_block : sb_of_block (sb_block mkfs_sb) = mkfs_sb.
Proof. vm_compute. reflexivity. Qed.

(** Whoever is free to be used: the bit of block [a] in the bit map. *)
Definition in_use (img : list block) (a : Z) : Prop :=
  exists d, view_of img (BBLOCK a mkfs_sb) = Some d /\ Z.testbit (byte_at d (Z.to_nat (a mod BPB) / 8)) (a mod 8) = true.

Lemma image_in_use files img A D a : image files img A D -> 0 <= a < FSSIZE -> (in_use img a <-> a < nmeta + Z.of_nat (length A)).
Proof.
  intros Him Ha. pose proof FSSIZE_eq. pose proof nmeta_pos. pose proof (sh_room _ _ _ (im_shape _ _ _ _ Him)).
  unfold in_use. assert (view_of img (BBLOCK a mkfs_sb) = Some (bitmap (Z.to_nat nmeta + length A))) as ->.
  { unfold BBLOCK, BPB. rewrite Z.div_small by lia. exact (im_bitmap _ _ _ _ Him). }
  unfold BPB. rewrite (Z.mod_small a 4096) by lia.
  assert (Z.testbit (byte_at (bitmap (Z.to_nat nmeta + length A)) (Z.to_nat a / 8)) (a mod 8) = (Z.to_nat a <? Z.to_nat nmeta + length A)%nat) as E.
  { rewrite <-(bitmap_bit (Z.to_nat nmeta + length A) (Z.to_nat a)) by (unfold BSIZE; lia).
    f_equal. rewrite Nat2Z.inj_mod, Z2Nat.id by lia. done. }
  split.
  - intros (d & Ed & Hd). apply (inj Some) in Ed as <-. rewrite E in Hd. apply Nat.ltb_lt in Hd. lia.
  - intros Hlt. eexists. split; [done|]. rewrite E. apply Nat.ltb_lt. lia.
Qed.

(** C8: mkfs builds a file system with its files in it.  For files that fit
    (plain names, at most 198 of them, each within [MAXFILE] blocks, all of
    them within the disk) it succeeds, and in the image: the superblock
    describes the layout and the log is empty; inode [i + 2] is a file with
    one link and the contents of the [i]th argument; the root inode is a
    directory whose contents begin with the entries ., .. and one for each
    file with its number and its name without a leading underscore; every
    block that one of them uses is a data block, is marked in the bit map, and
    is used nowhere else. *)
Theorem mkfs_image files e : fits files -> exists s, main files mkfs_start e = Ret tt s e /\
  let img := m_img s in let nb := Z.to_nat FSSIZE in
  length img = nb /\ Forall (fun b : block => length b = BSIZE) img /\
  (exists d, view_of img 1 = Some d /\ sb_of_block d = mksb 1000 941 200 30 2 32 58) /\ view_of img 2 = Some zeroes /\
  (forall i h ip, files !! i = Some h -> loaded img (i + 2) ip ->
     i_type ip = T_FILE /\ i_nlink ip = 1 /\ holds_file ip (view_of img) nb (host_bytes h)) /\
  (forall ip, loaded img 1 ip ->
     i_type ip = T_DIR /\ i_nlink ip = 1 /\ Z.of_nat (length (root_bytes files)) <= i_size ip /\
     holds_file (ip <| i_size := Z.of_nat (length (root_bytes files)) |>) (view_of img) nb (root_bytes files)) /\
  (forall i j ip jp bn bn' a, (i <= length files)%nat -> (j <= length files)%nat -> loaded img (i + 1) ip -> loaded img (j + 1) jp ->
     mapped ip (view_of img) nb bn a -> nmeta <= a /\ in_use img a /\ (mapped jp (view_of img) nb bn' a -> j = i /\ bn' = bn)).
Proof.
  intros Hfit. destruct (main_run files e Hfit) as (s & A & D & Hr & Him). exists s. split; [done|]. cbv zeta.
  pose proof (im_shape _ _ _ _ Him) as Hsh. split_and!; [apply Hsh|apply Hsh| |apply (im_log _ _ _ _ Him)| | |].
  - exists (sb_block mkfs_sb). split; [apply (im_sb _ _ _ _ Him)|]. vm_compute. reflexivity.
  - intros i h ip. by apply image_file with A D.
  - intros ip Hl. assert (image_files files !! 0%nat = Some (root_bytes files)) as Hf by done.
    destruct (image_kind _ _ _ _ Him 0 _ ip Hf Hl) as [Hty Hnl].
    destruct (image_dinode _ _ _ _ Him 0 _ ip Hf Hl) as (din & Hdin & _ & _ & _ & Hsz & _).
    rewrite (im_size _ _ _ _ Him _ _ _ Hdin Hf) in Hsz. cbn [decide] in Hsz. split_and!; [done|done| |].
    + rewrite Hsz. pose proof (Z.div_mod (Z.of_nat (length (root_bytes files))) (Z.of_nat BSIZE)).
      pose proof (Z.mod_pos_bound (Z.of_nat (length (root_bytes files))) (Z.of_nat BSIZE)).
      rewrite decide_True by done. unfold BSIZE in *. lia.
    + by apply (image_data files (m_img s) A D Him 0).
  - intros i j ip jp bn bn' a Hi Hj Hli Hlj Hm.
    destruct (lookup_lt_is_Some_2 (image_files files) i) as [f Hf]; [cbn; rewrite length_map; lia|].
    destruct (lookup_lt_is_Some_2 (image_files files) j) as [g Hg]; [cbn; rewrite length_map; lia|].
    apply (image_mapped files (m_img s) A D Him i f) in Hm as (t & Ht & ->); [|done|done].
    pose proof (lookup_lt_Some _ _ _ Ht). pose proof (sh_room _ _ _ Hsh). pose proof nmeta_pos. split_and!; [lia| |].
    + apply (image_in_use files _ A D); [done|lia|lia].
    + intros (t' & Ht' & E)%(image_mapped files (m_img s) A D Him j g); [|done|done].
      apply Z.add_reg_l, Nat2Z.inj in E as <-. rewrite Ht in Ht'. injection Ht' as <- <-. split; reflexivity.
Qed.

(** C7: the kernel reads the files that mkfs wrote.  In a kernel whose disk is
    the image, inside a transaction, with inode [i + 2] loaded, [readi] returns
    any part of the [i]th file that mkfs was given, cut at its end. *)
Theorem mkfs_kernel_reads files e0 : fits files -> exists s, main files mkfs_start e0 = Ret tt s e0 /\
  forall i h, files !! i = Some h -> let f := host_bytes h in
  forall cur p k0 W, calm cur p k0 -> (forall b, unwaited (Ch_bufsl b) k0) -> forall (dev : Devsw) lg ino L k e j ip off n,
  length (k_disk k0) = Z.to_nat FSSIZE -> tx p k0 W lg ino L (view_of (m_img s)) [] k ->
  ino !! j = Some ip -> i_dev ip = 1 -> loaded (m_img s) (i + 2) ip -> spare L [] ->
  0 <= off <= Z.of_nat (length f) -> 0 <= n -> off + n < 2 ^ 32 ->
  let m := Z.min n (Z.of_nat (length f) - off) in
  exists k', readi j off n k e = Ret (m, take (Z.to_nat m) (drop (Z.to_nat off) f)) k' e.
Proof.
  intros Hfit. destruct (main_run files e0 Hfit) as (s & A & D & Hr & Him). exists s. split; [done|].
  intros i h Hh f cur p k0 W Hcalm Hunw dev lg ino L k e j ip off n Hlen Ht Hj Hd Hl Hsp Hoff Hn Hov m.
  destruct (image_file files (m_img s) A D Him i h ip Hh Hl) as (Hty & _ & Hfile). fold f in Hfile.
  pose proof (ho_size _ (Forall_lookup_1 _ _ _ _ (ft_files _ Hfit) Hh)) as Hsz. fold f in Hsz. pose proof file_max_small.
  rewrite <-Hlen in Hfile.
  destruct (readi_run cur p k0 W Hcalm Hunw lg ino L (view_of (m_img s)) k e j ip f off n) as (k' & Hread & _);
    [exact Ht|exact Hj|exact Hd|by rewrite Hty|exact Hfile|exact Hsp|lia|exact Hoff|exact Hn|exact Hov|].
  exists k'. exact Hread.
Qed.

(** ** An instance *)

Definition demo_files : list hostfile :=
  [(bytes "README", Some [bytes "hello, "; bytes "world"]); (bytes "_cat", Some [replicate 512 7; replicate 100 8])].

Lemma demo_fits : fits demo_files.
Proof.
  constructor.
  - apply Forall_cons. split; [|apply Forall_singleton].
    + constructor; [by apply (bool_decide_unpack _)|by eexists|]. change (length (host_bytes _)) with 12%nat. pose proof file_max_small. lia.
    + constructor; [by apply (bool_decide_unpack _)|by eexists|]. change (length (host_bytes _)) with 612%nat. pose proof file_max_small. lia.
  - cbn. unfold NINODES. lia.
  - assert (total (image_files demo_files) = 4%nat) as -> by (vm_compute; reflexivity). rewrite nmeta_pos, FSSIZE_eq. lia.
Qed.

Lemma mkfs_image_witness : exists s, main demo_files mkfs_start [] = Ret tt s [] /\
  forall ip, loaded (m_img s) 2 ip -> holds_file ip (view_of (m_img s)) 1000 (bytes "hello, world").
Proof.
  destruct (mkfs_image demo_files [] demo_fits) as (s & Hr & _ & _ & _ & _ & Hf & _). exists s. split; [exact Hr|].
  intros ip Hl. apply (Hf 0%nat _ ip eq_refl Hl).
Defined.

(** The inode that [ilock] loads. *)
Definition load (b : block) (inum : nat) : inode :=
  let o := di_off (Z.of_nat inum) in
  mkinode 1 (Z.of_nat inum) 1 (mksl 1 1) 1 (s16 (get16 b o)) 0 0 (s16 (get16 b (o + 6))) (get32 b (o + 8)) (get_addrs (o + 12) b).

#[local] Instance no_devices : Devsw := {| dev_read := fun _ => None; dev_write := fun _ => None |}.

Lemma mkfs_kernel_reads_witness : exists k k', readi 0 7 20 k [] = Ret (5, bytes "world") k' [].
Proof.
  destruct (mkfs_kernel_reads demo_files [] demo_fits) as (s & Hr & Hread).
  destruct (main_run demo_files [] demo_fits) as (s' & A & D & Hr' & Him). rewrite Hr in Hr'. injection Hr' as <-. clear Hr.
  pose proof (im_shape _ _ _ _ Him) as Hsh. destruct (shape_lookup _ _ _ Hsh 32) as (b & Hb & _); [done|].
  destruct (solo_rebooted (m_img s)) as (k1 & [Hc Hw Hd Ho Hbs H30] & _).
  set (k0 := k1 <| k_disk := m_img s |> <| k_log := open_log |> <| k_inodes := [load b 2] |>).
  pose proof (fresh_fsys solo_proc k0 Ho Hbs (sh_blocks _ _ _ Hsh)) as Hf.
  assert (calm 0 solo_proc k0) as Hc0 by (by destruct Hc).
  assert (tx solo_proc k0 [] open_log [load b 2] [] (view_of (m_img s)) [] k0) as Ht.
  { constructor; [eapply fsys_ext; [exact Hf|done|]; intros m; by rewrite elem_of_nil| |done].
    change (k_disk k0) with (m_img s). rewrite (sh_len _ _ _ Hsh). constructor; try done; [constructor|by intros n ?%not_elem_of_nil]. }
  destruct (Hread 0%nat (bytes "README", Some [bytes "hello, "; bytes "world"]) eq_refl 0%nat solo_proc k0 [] Hc0 Hw
    no_devices open_log [load b 2] [] k0 [] 0%nat (load b 2) 7 20)
    as (k' & Hk'); [apply Hsh|exact Ht|done|done| |unfold spare, NBUF; cbn; lia|cbn; lia|lia|lia|].
  - constructor. exists b. done.
  - exists k0, k'. exact Hk'.
Defined.
